(* ===== verification/_CoqProject ===== *)
-Q . S2P
Prelude.v
IsaTypes.v
Metadata.v
Decode.v
Alignment.v
ExecPlan.v
Flags.v
Alu.v
Lookup.v
Mbc3.v
Timer.v
Apu.v
Device.v
Halt.v
Address.v
Commitment.v
Merkle.v
Image.v
Logs.v
State.v
Bus.v
Execute.v
Transition.v
Access.v
StepLogic.v
StepTrace.v
Step.v
Runs.v
Refine.v
Effects.v
Conform.v
Trace.v
Records.v
Blocks.v
Findings.v
Builder.v
Serve.v
Budget.v
BuilderStep.v
Builders.v
BuilderRun.v
Prover.v
CudaField.v
Field.v
Fold.v
Sumcheck.v
SumProducts.v
SumcheckSpec.v
SparseSpec.v
SumProductsSpec.v
Sumchecks.v
Uniform.v
UniformSpec.v
ZeroCheck.v
Uniforms.v
Columns.v
CpuRow.v
CpuFrame.v
CpuArithmetic.v
CpuControl.v
CpuDevices.v
CpuPeripherals.v
CpuMedia.v
Cpu.v
CpuPoly.v
Embed.v
IsaTable.v
Cpus.v
CpuSound.v
CpuBytes.v
CpuBits.v
CpuMoves.v
CpuFlow.v
CpuSteps.v
CpuRefines.v
