(* ===== verification/Prelude.v ===== *)
(** * zksm83: a verified model of a provable Game Boy CPU

    zksm83 proves executions of the SM83 processor. A transition relation (crates/zksm83-core) says which step
    a machine may make, given witnesses of the bytes it reads from a committed ROM and memory
    (crates/zksm83-memory); builders search those witnesses and record the rows of a run (crates/zksm83-trace);
    a proof system (crates/zksm83-jolt) expresses a row as low-degree constraints over a field and proves them
    with sumchecks; folds may run on a GPU (crates/zksm83-cuda). The instruction set is a crate of its own
    (crates/zksm83-isa). All file names below are under src/crates/.

    ** Conventions

    Machine integers are [Z] with the wrap-around written out ([w8], [w16], checked additions as [option]).
    Fallible functions return [result], with the error enumerations of the code as inductive types, each in a
    Module of its own so that the constructors keep their names ([SErr.MissingWitness] is
    [StepError::MissingWitness]). Structs are records with [r <| field := v |>] for an update. Methods that
    mutate an executor or a builder are functions in an explicit state-and-error monad ([M] in [Bus]).
    HashMaps and caches are explicit state. [Prelude] holds these notations, byte strings, the facts on bit
    operations, and the [bounds] and [flags] hint databases the files extend.

    ** Instruction set (zksm83-isa)

    - [IsaTypes]: types.rs. [Metadata]: metadata.rs, the class, flag effect, bus pattern and state access of an
      operation. [Decode]: decode.rs, both decoders. [Alignment]: alignment.rs, the 106-bit packed row.
      [ExecPlan]: execution_lookup.rs.
    - Shown: the decoder is the published one, against an encoder written from the operations and the published
      length and cycle tables ([Decode.Manual]); no two defined opcodes share a row, packing is injective on the 501
      defined rows. Facts about all defined instructions are evaluated once over the table ([defined_forall]).

    ** The machine (zksm83-core)

    - [Flags], [Alu]: alu.rs against reference arithmetic on unbounded integers. [Lookup]:
      execution_lookup.rs, the queries of the fixed tables. [Mbc3]: mbc3.rs. [Timer], [Apu], [Device], [Halt]:
      dmg.rs and dmg/, where each HALT skip is proved to be the single steps it replaces.
    - [State]: state.rs with the invariant [vm_ok]. [Bus]: bus.rs, the executor, its events and the finishing
      of a step. [Execute]: execute.rs, one handler per class. [Transition]: transition.rs, [apply].
    - [Access] specifies the bus methods; [StepLogic] is the interface of a program logic which every
      instruction handler is in, whatever its predicates; [StepTrace], [Step] and [Runs] use it for the outcome
      of every step and run; [Refine] relates the Merkle and the lookup relation; [Effects] and [Conform]
      execute the handlers symbolically and compare them with the declared metadata.
    - Shown: the invariant of reachable states, that no internal error can occur, the exact accounting of
      cycles and witnesses, that a Merkle run really read and wrote the committed memory and ROM, that its
      transcripts bind its history, conformance of all 501 instructions, interrupts and HALT.

    ** Commitments (zksm83-memory)

    - [Address]: address.rs. [Commitment]: commitment.rs. [Merkle]: transcript.rs, paths of depth 20, the
      witnesses and the verification caches. [Image]: image.rs. [Logs]: log.rs, bus_transcript.rs,
      isa_transcript.rs.
    - SHA-256 is a dependency, here the class [Sha256]: a function of bytes. Binding theorems conclude "equal, or
      a collision", so that no theorem assumes it injective, and they say where: [collides xs ys] holds only of
      two different strings, one from each list, with one digest, and the lists are those the two sides really
      hash ([root_inputs] of a verification, [opening] of an image, [chain_inputs] of a transcript). That some
      collision exists, which is true of any digest, proves none of them.

    ** Traces and builders (zksm83-trace)

    - [Trace]: model.rs. [Records]: execution_lookup.rs. [Blocks]: block.rs, the planner (a run of [grow] needs
      fuel 5, since a block holds four instructions; [plan_loop] takes the number of rows, one row at least
      being consumed by each block).
    - [Builder]: builder.rs and lookup_builder.rs over one interface. [Serve], [Budget], [BuilderStep],
      [Builders], [BuilderRun], [Prover]: a step of a builder restarts at most five times (the plan bound of the
      code, proved sufficient in [Budget]), and ends in a row of the step relation or in an error of the machine.
    - [Findings]: evaluated executions behind the findings of the manifest.

    ** Proof system (zksm83-jolt, zksm83-cuda)

    - [CudaField]: field.rs of the GPU crate, two 64-bit limbs modulo 2^128 - 0xffffa7f7.
    - [Field]: the native field belongs to a dependency; it is the class [FieldOps] with [FieldLaws] (a field in
      which 64-bit integers are distinct), instantiated by the rationals. [Fold]: field_fold.rs,
      prover_backend.rs. [Sumcheck], [SumProducts]: sumcheck.rs and sumcheck/. The transcript is a class too,
      and the device a class whose folds are either right or an error. Loops over a table take its length as
      fuel, each round halving it.
    - [Uniform]: uniform.rs and uniform/, the trait of relations and the zero check. The number of threads is an
      argument; results are proved independent of it.
    - [SumcheckSpec], [SparseSpec], [SumProductsSpec], [UniformSpec], [ZeroCheck] hold the proofs, [Sumchecks]
      and [Uniforms] the theorems: completeness, and soundness as "accepted means true unless a challenge,
      drawn after the message it tests, hit one of few named bad points".
    - [Columns], [CpuRow], [CpuFrame], [CpuArithmetic], [CpuControl], [CpuDevices], [CpuPeripherals],
      [CpuMedia], [Cpu]: cpu.rs and cpu/, all 5259 constraints of the CPU relation, one Module per file of the
      code. [CpuPoly] evaluates them on syntax, which yields their number, the columns they read and their
      degree; [IsaTable] is isa.rs, the fixed table of the instruction lookup; [Cpus] has the theorems.
    - [Embed], [CpuSound], [CpuBytes], [CpuBits], [CpuMoves], [CpuFlow], [CpuSteps], [CpuRefines]: what a
      satisfied row means. [Embed] maps integers into the field, so that a constraint over columns that hold bytes is an
      equation of integers. The row of an instruction whose bus slots show the bytes the machine read holds,
      after it, the registers, flags, stack pointer and program counter of [Transition.apply].

    ** Not modelled

    - The packed relation (cpu/packed.rs, cpu/execution.rs), the block relations (block_*.rs), and the lookup,
      memory, log and continuity arguments: constraints over further schemas and argument protocols on top of
      the external commitment scheme Akita. The CPU rows are those of the unpacked reference schema.
    - pcs*.rs, receipt*, wire.rs, state.rs of zksm83-jolt and the binaries: adapters to Akita, serialisation and
      command lines; uniform/commitment.rs likewise. The GPU runtime: kernel launches through the driver.
    - Parallel iterators are written in order: they add field elements or fill disjoint slots. Memory and time
      are not modelled, nor is the overflow of [usize] in sizes of tables that exist in memory. *)
From stdpp Require Export prelude list numbers strings gmap.
From Stdlib Require Export Lia.

Global Open Scope Z_scope.

(** ** Fallible results *)

Inductive result (E A : Type) : Type :=
| Ok (a : A)
| Err (e : E).
Arguments Ok {E A} a.
Arguments Err {E A} e.

Global Instance result_ret {E} : MRet (result E) := λ A a, Ok a.
Global Instance result_bind {E} : MBind (result E) := λ A B f r,
  match r with Ok a => f a | Err e => Err e end.
Global Instance result_fmap {E} : FMap (result E) := λ A B f r,
  match r with Ok a => Ok (f a) | Err e => Err e end.

Definition ok_or {E A} (o : option A) (e : E) : result E A :=
  match o with Some a => Ok a | None => Err e end.

Definition map_err {E F A} (f : E → F) (r : result E A) : result F A :=
  match r with Ok a => Ok a | Err e => Err (f e) end.

Definition is_ok {E A} (r : result E A) : bool :=
  match r with Ok _ => true | Err _ => false end.

(** ** Record updates

    [r <| field := v |>] is [r] with one field replaced; a record opts in by giving its [Eta] term,
    from which the setter of a projection is computed by abstracting that projection. *)

Class Eta (R : Type) := eta_expand : R → R.
Class Setter {R T : Type} (proj : R → T) := setf : T → R → R.

Ltac solve_setter :=
  match goal with
  | |- @Setter ?R ?T ?proj =>
      let e := eval hnf in (@eta_expand R _) in
      match eval pattern proj in e with
      | ?h _ => let s := eval cbv beta in (λ (v : T) (r : R), h (λ _, v) r) in exact s
      end
  end.

#[export] Hint Extern 1 (Setter _) => solve_setter : typeclass_instances.

Notation "r <| field := v |>" := (setf (proj := field) v r)
  (at level 1, left associativity, format "r  <| field  :=  v |>").

(** ** Fixed-width unsigned integers, as integers with explicit wrap-around *)

Abbreviation is_u8 x := (0 <= x < 256).
Abbreviation is_u16 x := (0 <= x < 65536).
Abbreviation is_u32 x := (0 <= x < 4294967296).
Abbreviation is_u64 x := (0 <= x < 18446744073709551616).

Definition w8 (z : Z) : Z := z mod 256.
Definition w16 (z : Z) : Z := z mod 65536.

(** [x & mask != 0] *)
Definition tst (x mask : Z) : bool := negb (Z.land x mask =? 0).
(** [!x] on a byte *)
Definition not8 (x : Z) : Z := Z.lxor x 255.
(** [(lo..=hi).contains(&x)] *)
Definition in_range (lo hi x : Z) : bool := (lo <=? x) && (x <=? hi).
(** [u8::from(b)] *)
Definition b2z (b : bool) : Z := if b then 1 else 0.

Definition checked_add_u64 (a b : Z) : option Z :=
  if a + b <? 18446744073709551616 then Some (a + b) else None.
Definition saturating_sub (a b : Z) : Z := Z.max 0 (a - b).

(** [u16::from_be_bytes], [u16::to_be_bytes] *)
Definition be16 (high low : Z) : Z := Z.lor (Z.shiftl high 8) low.
Definition hi8 (x : Z) : Z := Z.shiftr x 8.
Definition lo8 (x : Z) : Z := Z.land x 255.
(** [i8::from_ne_bytes] *)
Definition i8_of (b : Z) : Z := if b <? 128 then b else b - 256.

(** Little-endian byte strings *)
Fixpoint le_bytes (n : nat) (z : Z) : list Z :=
  match n with
  | O => []
  | S n => Z.land z 255 :: le_bytes n (Z.shiftr z 8)
  end.
Fixpoint of_le_bytes (l : list Z) : Z :=
  match l with
  | [] => 0
  | b :: l => Z.lor b (Z.shiftl (of_le_bytes l) 8)
  end.

Global Arguments Z.land : simpl never.
Global Arguments Z.lor : simpl never.
Global Arguments Z.lxor : simpl never.
Global Arguments Z.shiftl : simpl never.
Global Arguments Z.shiftr : simpl never.
Global Arguments Z.testbit : simpl never.
Global Arguments Z.modulo : simpl never.
Global Arguments Z.div : simpl never.
Global Arguments Z.pow : simpl never.
Global Arguments Z.add : simpl never.
Global Arguments Z.sub : simpl never.
Global Arguments Z.mul : simpl never.
Global Arguments Z.eqb : simpl never.
Global Arguments Z.leb : simpl never.
Global Arguments Z.ltb : simpl never.
Global Arguments Z.max : simpl never.
Global Arguments Z.min : simpl never.
Global Arguments w8 : simpl never.
Global Arguments w16 : simpl never.
Global Arguments tst : simpl never.
Global Arguments not8 : simpl never.
Global Arguments in_range : simpl never.
Global Arguments be16 : simpl never.
Global Arguments hi8 : simpl never.
Global Arguments lo8 : simpl never.
Global Arguments checked_add_u64 : simpl never.
Global Arguments saturating_sub : simpl never.

(** ** Results *)

Lemma bind_ok {E A B} (r : result E A) (f : A → result E B) b :
  r ≫= f = Ok b ↔ ∃ a, r = Ok a ∧ f a = Ok b.
Proof.
  destruct r; cbn; split; [eauto | by intros (? & [= ->] & ?) | done | by intros (? & ? & ?)].
Qed.

(** The same as rewriting rules: they leave the continuation folded. *)
Lemma bind_of_ok {E A B} (a : A) (f : A → result E B) : Ok a ≫= f = f a.
Proof. done. Qed.
Lemma bind_of_err {E A B} (e : E) (f : A → result E B) : Err e ≫= f = Err e.
Proof. done. Qed.
Lemma map_err_ok {E F A} (g : E → F) (a : A) : map_err g (Ok a) = Ok a.
Proof. done. Qed.
Lemma map_err_err {E F A} (g : E → F) (e : E) : @map_err E F A g (Err e) = Err (g e).
Proof. done. Qed.

Lemma is_ok_spec {E A} (r : result E A) : is_ok r = true ↔ ∃ a, r = Ok a.
Proof. destruct r; split; [eauto | done | done | by intros [? ?]]. Qed.

(** Linear arithmetic with division and modulo by constants. *)
Ltac zlia := Z.div_mod_to_equations; lia.

(** ** Finite checks over one byte *)

Lemma forallb_bytes (P : Z → bool) :
  forallb P (seqZ 0 256) = true → ∀ b, is_u8 b → P b = true.
Proof.
  rewrite forallb_forall. intros H b Hb. apply H, list_elem_of_In, elem_of_seqZ. lia.
Qed.

(** ** Bit operations as arithmetic *)

Lemma land_ones_mod x n : 0 <= n → Z.land x (2 ^ n - 1) = x mod 2 ^ n.
Proof. intros. by rewrite <- Z.land_ones, Z.ones_equiv, Z.sub_1_r by lia. Qed.

Lemma land_255 x : Z.land x 255 = x mod 256.
Proof. apply (land_ones_mod x 8); lia. Qed.
Lemma land_15 x : Z.land x 15 = x mod 16.
Proof. apply (land_ones_mod x 4); lia. Qed.
Lemma land_7 x : Z.land x 7 = x mod 8.
Proof. apply (land_ones_mod x 3); lia. Qed.
Lemma land_3 x : Z.land x 3 = x mod 4.
Proof. apply (land_ones_mod x 2); lia. Qed.
Lemma land_1 x : Z.land x 1 = x mod 2.
Proof. apply (land_ones_mod x 1); lia. Qed.
Lemma land_4095 x : Z.land x 4095 = x mod 4096.
Proof. apply (land_ones_mod x 12); lia. Qed.

Lemma land_disjoint a b n : 0 <= n → 0 <= b < 2 ^ n → Z.land (a * 2 ^ n) b = 0.
Proof.
  intros Hn Hb. rewrite <- Z.shiftl_mul_pow2 by lia. apply Z.bits_inj'. intros i Hi.
  rewrite Z.land_spec, Z.bits_0. destruct (decide (i < n)).
  - rewrite Z.shiftl_spec_low by lia. done.
  - rewrite <- (Z.mod_small b (2 ^ n)), Z.mod_pow2_bits_high, andb_false_r by lia. done.
Qed.

Lemma lor_add a b n : 0 <= n → 0 <= b < 2 ^ n → Z.lor (a * 2 ^ n) b = a * 2 ^ n + b.
Proof.
  intros. rewrite <- Z.lxor_lor, <- Z.add_nocarry_lxor by (by apply land_disjoint). done.
Qed.

Lemma lor_shiftl_add a b n : 0 <= n → 0 <= b < 2 ^ n → Z.lor (Z.shiftl a n) b = a * 2 ^ n + b.
Proof. intros. rewrite Z.shiftl_mul_pow2 by lia. by apply lor_add. Qed.

Lemma lor_shiftl_add_r a b n :
  0 <= n → 0 <= b < 2 ^ n → Z.lor b (Z.shiftl a n) = b + a * 2 ^ n.
Proof. intros. rewrite Z.lor_comm, lor_shiftl_add by lia. lia. Qed.

Lemma lor_bound a b n : 0 <= n → 0 <= a < 2 ^ n → 0 <= b < 2 ^ n → 0 <= Z.lor a b < 2 ^ n.
Proof.
  intros Hn Ha Hb. rewrite <- (Z.mod_small a (2 ^ n)), <- (Z.mod_small b (2 ^ n)) by lia.
  rewrite <- !Z.land_ones, <- Z.land_lor_distr_l, Z.land_ones by lia.
  apply Z.mod_pos_bound. lia.
Qed.

Lemma land_bound_l a b : 0 <= a → 0 <= Z.land a b <= a.
Proof.
  intros Ha. split; [apply Z.land_nonneg; lia |].
  rewrite <- (Z.lor_ldiff_and a b) at 2.
  assert (Hd : Z.land (Z.ldiff a b) (Z.land a b) = 0).
  { apply Z.bits_inj'. intros i Hi. rewrite !Z.land_spec, Z.ldiff_spec, Z.bits_0 by lia.
    by destruct (Z.testbit a i), (Z.testbit b i). }
  rewrite <- Z.lxor_lor, <- Z.add_nocarry_lxor by done.
  assert (0 <= Z.ldiff a b) by (apply Z.ldiff_nonneg; lia). lia.
Qed.

Lemma land_bound_r a b : 0 <= b → 0 <= Z.land a b <= b.
Proof. intros. rewrite Z.land_comm. by apply land_bound_l. Qed.

Lemma lxor_bound a b n : 0 <= n → 0 <= a < 2 ^ n → 0 <= b < 2 ^ n → 0 <= Z.lxor a b < 2 ^ n.
Proof.
  intros Hn Ha Hb. assert (0 <= Z.lxor a b) by (apply Z.lxor_nonneg; lia). split; [done |].
  rewrite <- (Z.mod_small (Z.lxor a b) (2 ^ n)); [apply Z.mod_pos_bound; lia |].
  split; [done |]. destruct (decide (Z.lxor a b = 0)) as [-> | Hne]; [lia |].
  apply Z.log2_lt_pow2; [lia |]. eapply Z.le_lt_trans; [apply Z.log2_lxor; lia |].
  destruct (decide (n = 0)) as [-> | ?].
  { assert (a = 0) by lia. assert (b = 0) by lia. by subst. }
  apply Z.max_lub_lt; (destruct (decide (0 < a)), (decide (0 < b)));
    rewrite ?Z.log2_nonpos by lia; try lia; apply Z.log2_lt_pow2; lia.
Qed.

(** [tst] against a one-bit mask is a bit test. *)
Lemma tst_pow2 x n : 0 <= n → tst x (2 ^ n) = Z.testbit x n.
Proof.
  intros Hn. unfold tst. destruct (Z.testbit x n) eqn:E.
  - apply negb_true_iff, Z.eqb_neq. intros H. apply (f_equal (λ z, Z.testbit z n)) in H.
    rewrite Z.land_spec, E, Z.pow2_bits_true, Z.bits_0 in H by lia. done.
  - apply negb_false_iff, Z.eqb_eq, Z.bits_inj'. intros i Hi.
    rewrite Z.land_spec, Z.bits_0, Z.pow2_bits_eqb by lia.
    destruct (Z.eqb_spec n i) as [<- |]; [by rewrite E | by rewrite andb_false_r].
Qed.

(** ** Bounds *)

Lemma w8_bound x : is_u8 (w8 x).
Proof. apply Z.mod_pos_bound. lia. Qed.
Lemma w16_bound x : is_u16 (w16 x).
Proof. apply Z.mod_pos_bound. lia. Qed.
Lemma lo8_bound x : is_u8 (lo8 x).
Proof. unfold lo8. rewrite land_255. apply Z.mod_pos_bound. lia. Qed.
Lemma hi8_bound x : is_u16 x → is_u8 (hi8 x).
Proof. intros. unfold hi8. rewrite Z.shiftr_div_pow2 by lia. change (2 ^ 8) with 256. zlia. Qed.
Lemma be16_add h l : is_u8 l → be16 h l = h * 256 + l.
Proof. intros. unfold be16. by rewrite lor_shiftl_add by (cbn; lia). Qed.
Lemma be16_bound h l : is_u8 h → is_u8 l → is_u16 (be16 h l).
Proof. intros. rewrite be16_add by done. lia. Qed.
Lemma be16_hi_lo x : is_u16 x → be16 (hi8 x) (lo8 x) = x.
Proof.
  intros. rewrite be16_add by apply lo8_bound. unfold hi8, lo8.
  rewrite land_255, Z.shiftr_div_pow2 by lia. change (2 ^ 8) with 256. zlia.
Qed.
Lemma hi8_be16 h l : is_u8 h → is_u8 l → hi8 (be16 h l) = h.
Proof.
  intros. rewrite be16_add by done. unfold hi8. rewrite Z.shiftr_div_pow2 by lia.
  change (2 ^ 8) with 256. zlia.
Qed.
Lemma lo8_be16 h l : is_u8 h → is_u8 l → lo8 (be16 h l) = l.
Proof. intros. rewrite be16_add by done. unfold lo8. rewrite land_255. zlia. Qed.
Lemma not8_eq x : is_u8 x → not8 x = 255 - x.
Proof.
  intros. unfold not8.
  assert (Z.lxor x 255 = Z.ldiff 255 x) as ->.
  { apply Z.bits_inj'. intros i Hi. rewrite Z.lxor_spec, Z.ldiff_spec.
    destruct (decide (i < 8)).
    - change 255 with (Z.ones 8). rewrite Z.ones_spec_low by lia. by destruct (Z.testbit x i).
    - rewrite <- (Z.mod_small x (2 ^ 8)), Z.mod_pow2_bits_high by lia.
      change 255 with (Z.ones 8). rewrite Z.ones_spec_high by lia. done. }
  change 255 with (Z.ones 8). rewrite <- Z.sub_nocarry_ldiff; [done |].
  apply Z.bits_inj'. intros i Hi. rewrite Z.ldiff_spec, Z.bits_0. destruct (decide (i < 8)).
  - rewrite Z.ones_spec_low by lia. by rewrite andb_false_r.
  - rewrite <- (Z.mod_small x (2 ^ 8)), Z.mod_pow2_bits_high by lia. done.
Qed.
Lemma not8_bound x : is_u8 x → is_u8 (not8 x).
Proof. intros. rewrite not8_eq; lia. Qed.
Lemma b2z_bound b : 0 <= b2z b <= 1.
Proof. destruct b; cbn; lia. Qed.
Lemma land_u8 a b : is_u8 a → is_u8 (Z.land a b).
Proof. intros. pose proof (land_bound_l a b). lia. Qed.
Lemma land_u8_r a b : is_u8 b → is_u8 (Z.land a b).
Proof. intros. pose proof (land_bound_r a b). lia. Qed.
Lemma lor_u8 a b : is_u8 a → is_u8 b → is_u8 (Z.lor a b).
Proof. intros. apply (lor_bound a b 8); cbn; lia. Qed.
Lemma lor_u16 a b : is_u16 a → is_u16 b → is_u16 (Z.lor a b).
Proof. intros. apply (lor_bound a b 16); cbn; lia. Qed.
Lemma lxor_u8 a b : is_u8 a → is_u8 b → is_u8 (Z.lxor a b).
Proof. intros. apply (lxor_bound a b 8); cbn; lia. Qed.
Lemma shiftr_u8 a n : 0 <= n → is_u8 a → is_u8 (Z.shiftr a n).
Proof.
  intros Hn Ha. rewrite Z.shiftr_div_pow2 by lia. assert (1 <= 2 ^ n) by lia.
  split; [apply Z.div_pos; lia |]. apply Z.div_lt_upper_bound; [lia | nia].
Qed.

(** The bounds automation of the development: goals [is_u8 e] and [is_u16 e] about results of the
    source's byte operations. *)
Create HintDb bounds.
#[export] Hint Resolve w8_bound w16_bound lo8_bound hi8_bound be16_bound not8_bound land_u8
  land_u8_r lor_u8 lor_u16 lxor_u8 shiftr_u8 : bounds.
#[export] Hint Extern 5 (_ <= _ < _) => lia : bounds.
#[export] Hint Extern 5 (_ <= _) => lia : bounds.

(** ** Little-endian byte strings *)

Lemma le_bytes_length n z : length (le_bytes n z) = n.
Proof. revert z; induction n; intros; cbn [le_bytes length]; auto. Qed.

Lemma of_le_bytes_le_bytes n z :
  0 <= z < 2 ^ (8 * Z.of_nat n) → of_le_bytes (le_bytes n z) = z.
Proof.
  revert z. induction n as [|n IH]; intros z Hz.
  { change (2 ^ (8 * Z.of_nat 0)) with 1 in Hz. cbn. lia. }
  cbn [le_bytes of_le_bytes].
  replace (8 * Z.of_nat (S n)) with (8 + 8 * Z.of_nat n) in Hz by lia.
  rewrite Z.pow_add_r in Hz by lia. change (2 ^ 8) with 256 in Hz.
  assert (Hq : Z.shiftr z 8 = z / 256) by (by rewrite Z.shiftr_div_pow2).
  rewrite IH, land_255, lor_shiftl_add_r, Hq by (rewrite ?Hq; change (2 ^ 8) with 256; zlia).
  change (2 ^ 8) with 256. zlia.
Qed.

Lemma le_bytes_inj n x y :
  0 <= x < 2 ^ (8 * Z.of_nat n) → 0 <= y < 2 ^ (8 * Z.of_nat n) →
  le_bytes n x = le_bytes n y → x = y.
Proof.
  intros Hx Hy H. rewrite <- (of_le_bytes_le_bytes n x), <- (of_le_bytes_le_bytes n y) by done.
  by rewrite H.
Qed.
