(* ===== verification/IsaTypes.v ===== *)
(** * Instruction set: typed values (crates/zksm83-isa/src/types.rs)

    Every enumeration of the instruction set sits in a module of its own, so that the constructors
    keep the names of the source: [Op.Nop] is [Operation::Nop], [SC.A] is [StateComponent::A].
    The file also holds the stable numeric codes of the proof table: classes, state masks and the
    three-byte semantic descriptor. *)
From S2P Require Import Prelude.

(** ** Encodings *)

Record Opcode := MkOpcode { opcode_byte : Z }.
Record CbOpcode := MkCbOpcode { cb_byte : Z }.
Record UndefinedOpcode := MkUndefined { undefined_byte : Z }.

Module Enc.
Inductive InstructionEncoding := Primary (opcode : Opcode) | Cb (opcode : CbOpcode).
End Enc.

Module Cls.
Inductive InstructionClass :=
| Control | Load | Alu8 | Alu16 | RotateShift | Bit | Jump | CallReturn | Stack | Interrupt
| LowPower | Prefix.
End Cls.

Definition class_code (c : Cls.InstructionClass) : Z :=
  match c with
  | Cls.Control => 0 | Cls.Load => 1 | Cls.Alu8 => 2 | Cls.Alu16 => 3 | Cls.RotateShift => 4
  | Cls.Bit => 5 | Cls.Jump => 6 | Cls.CallReturn => 7 | Cls.Stack => 8 | Cls.Interrupt => 9
  | Cls.LowPower => 10 | Cls.Prefix => 11
  end.

(** ** Operands *)

Module R8.
Inductive Register8 := A | B | C | D | E | H | L.
End R8.

Module R16.
Inductive Register16 := Bc | De | Hl | Sp.
End R16.

Module SR.
Inductive StackRegister16 := Bc | De | Hl | Af.
End SR.

Module Opd.
Inductive Operand8 := Register (r : R8.Register8) | Immediate | IndirectHl.
End Opd.

Module Ind.
Inductive IndirectAddress := Bc | De | HlIncrement | HlDecrement.
End Ind.

Module Dir.
Inductive TransferDirection := IntoAccumulator | FromAccumulator.
End Dir.

Module Cond.
Inductive Condition := NotZero | Zero | NotCarry | Carry.
End Cond.

Module AluOp.
Inductive AluOperation := Add | AddCarry | Subtract | SubtractCarry | And | Xor | Or | Compare.
End AluOp.

Module CbOp.
Inductive CbOperation :=
| RotateLeftCircular | RotateRightCircular | RotateLeft | RotateRight
| ShiftLeftArithmetic | ShiftRightArithmetic | SwapNibbles | ShiftRightLogical
| TestBit (bit : Z) | ResetBit (bit : Z) | SetBit (bit : Z).
End CbOp.

Module Op.
Inductive Operation :=
| Nop
| StoreSpAbsolute
| Stop
| RelativeJump (condition : option Cond.Condition)
| Load16Immediate (register : R16.Register16)
| AddHl (register : R16.Register16)
| LoadAccumulatorIndirect (address : Ind.IndirectAddress) (direction : Dir.TransferDirection)
| Increment16 (register : R16.Register16)
| Decrement16 (register : R16.Register16)
| Increment8 (operand : Opd.Operand8)
| Decrement8 (operand : Opd.Operand8)
| Load8Immediate (operand : Opd.Operand8)
| RotateAccumulator (rotate : CbOp.CbOperation)
| DecimalAdjust
| ComplementAccumulator
| SetCarry
| ComplementCarry
| Load8 (destination source : Opd.Operand8)
| Halt
| Alu8 (alu : AluOp.AluOperation) (source : Opd.Operand8)
| Return (condition : option Cond.Condition)
| HighImmediateLoad (direction : Dir.TransferDirection)
| AddSpOffset
| LoadHlSpOffset
| Pop (register : SR.StackRegister16)
| ReturnFromInterrupt
| JumpHl
| LoadSpHl
| Jump (condition : option Cond.Condition)
| HighCLoad (direction : Dir.TransferDirection)
| AbsoluteAccumulatorLoad (direction : Dir.TransferDirection)
| PrefixCb
| DisableInterrupts
| EnableInterrupts
| Call (condition : option Cond.Condition)
| Push (register : SR.StackRegister16)
| Restart (vector : Z)
| Cb (cb : CbOp.CbOperation) (operand : Opd.Operand8).
End Op.

(** ** Metadata *)

Module FA.
Inductive FlagAction := Preserve | Clear | Set_ | Derived.
End FA.

Record FlagEffect := MkFlagEffect {
  fe_zero : FA.FlagAction;
  fe_subtract : FA.FlagAction;
  fe_half_carry : FA.FlagAction;
  fe_carry : FA.FlagAction
}.

Record Timing := MkTiming { base_m_cycles : Z; taken_m_cycles : option Z }.

Record BusAccessPattern := MkBusPattern {
  opcode_fetches : Z;
  immediate_reads : Z;
  data_reads : Z;
  data_writes : Z;
  taken_data_reads : Z;
  taken_data_writes : Z
}.

Module SC.
Inductive StateComponent :=
| A | B | C | D | E | H | L | F | Pc | Sp | Ime | RunState | MCycles.
End SC.

Definition all_components : list SC.StateComponent :=
  [SC.A; SC.B; SC.C; SC.D; SC.E; SC.H; SC.L; SC.F; SC.Pc; SC.Sp; SC.Ime; SC.RunState; SC.MCycles].

Definition component_mask (c : SC.StateComponent) : Z :=
  match c with
  | SC.A => Z.shiftl 1 0 | SC.B => Z.shiftl 1 1 | SC.C => Z.shiftl 1 2 | SC.D => Z.shiftl 1 3
  | SC.E => Z.shiftl 1 4 | SC.H => Z.shiftl 1 5 | SC.L => Z.shiftl 1 6 | SC.F => Z.shiftl 1 7
  | SC.Pc => Z.shiftl 1 8 | SC.Sp => Z.shiftl 1 9 | SC.Ime => Z.shiftl 1 10
  | SC.RunState => Z.shiftl 1 11 | SC.MCycles => Z.shiftl 1 12
  end.

Record StateAccess := MkStateAccess { access_reads : Z; access_writes : Z }.
Definition reads (s : StateAccess) (c : SC.StateComponent) : bool :=
  tst (access_reads s) (component_mask c).
Definition writes (s : StateAccess) (c : SC.StateComponent) : bool :=
  tst (access_writes s) (component_mask c).

Record DecodedInstruction := MkDecoded {
  encoding : Enc.InstructionEncoding;
  class : Cls.InstructionClass;
  operation : Op.Operation;
  byte_len : Z;
  timing : Timing;
  flags_effect : FlagEffect;
  state_access : StateAccess;
  bus : BusAccessPattern
}.

Module Classified.
Inductive OpcodeClassification :=
| Defined_ (i : DecodedInstruction)
| Undefined (u : UndefinedOpcode).
End Classified.

(** Opcode bytes and their count, excluding immediate operands. *)
Definition encoded_opcode (i : DecodedInstruction) : list Z * Z :=
  match encoding i with
  | Enc.Primary opcode => ([opcode_byte opcode; 0], 1)
  | Enc.Cb opcode => ([203; cb_byte opcode], 2)
  end.

(** ** Semantic descriptor *)

Record InstructionDescriptor := MkDescriptor {
  d_operation : Z;
  argument_zero : Z;
  argument_one : Z
}.

Definition condition_code (c : option Cond.Condition) : Z :=
  match c with
  | None => 0
  | Some Cond.NotZero => 1
  | Some Cond.Zero => 2
  | Some Cond.NotCarry => 3
  | Some Cond.Carry => 4
  end.

Definition operand8_code (o : Opd.Operand8) : Z :=
  match o with
  | Opd.Register R8.B => 0 | Opd.Register R8.C => 1 | Opd.Register R8.D => 2
  | Opd.Register R8.E => 3 | Opd.Register R8.H => 4 | Opd.Register R8.L => 5
  | Opd.IndirectHl => 6
  | Opd.Register R8.A => 7
  | Opd.Immediate => 8
  end.

Definition register16_code (r : R16.Register16) : Z :=
  match r with R16.Bc => 0 | R16.De => 1 | R16.Hl => 2 | R16.Sp => 3 end.

Definition stack_register_code (r : SR.StackRegister16) : Z :=
  match r with SR.Bc => 0 | SR.De => 1 | SR.Hl => 2 | SR.Af => 3 end.

Definition indirect_code (a : Ind.IndirectAddress) : Z :=
  match a with Ind.Bc => 0 | Ind.De => 1 | Ind.HlIncrement => 2 | Ind.HlDecrement => 3 end.

Definition direction_code (d : Dir.TransferDirection) : Z :=
  match d with Dir.IntoAccumulator => 0 | Dir.FromAccumulator => 1 end.

Definition alu_code (a : AluOp.AluOperation) : Z :=
  match a with
  | AluOp.Add => 0 | AluOp.AddCarry => 1 | AluOp.Subtract => 2 | AluOp.SubtractCarry => 3
  | AluOp.And => 4 | AluOp.Xor => 5 | AluOp.Or => 6 | AluOp.Compare => 7
  end.

Definition cb_operation_code (c : CbOp.CbOperation) : Z :=
  match c with
  | CbOp.RotateLeftCircular => 0 | CbOp.RotateRightCircular => 1
  | CbOp.RotateLeft => 2 | CbOp.RotateRight => 3
  | CbOp.ShiftLeftArithmetic => 4 | CbOp.ShiftRightArithmetic => 5
  | CbOp.SwapNibbles => 6 | CbOp.ShiftRightLogical => 7
  | CbOp.TestBit bit | CbOp.ResetBit bit | CbOp.SetBit bit => bit
  end.

Definition cb_descriptor (c : CbOp.CbOperation) (o : Opd.Operand8) : Z * Z * Z :=
  match c with
  | CbOp.TestBit bit => (38, bit, operand8_code o)
  | CbOp.ResetBit bit => (39, bit, operand8_code o)
  | CbOp.SetBit bit => (40, bit, operand8_code o)
  | _ => (37, cb_operation_code c, operand8_code o)
  end.

Definition descriptor (o : Op.Operation) : InstructionDescriptor :=
  let '(code, zero, one) :=
    match o with
    | Op.Nop => (0, 0, 0)
    | Op.StoreSpAbsolute => (1, 0, 0)
    | Op.Stop => (2, 0, 0)
    | Op.RelativeJump condition => (3, condition_code condition, 0)
    | Op.Load16Immediate register => (4, register16_code register, 0)
    | Op.AddHl register => (5, register16_code register, 0)
    | Op.LoadAccumulatorIndirect address direction =>
        (6, indirect_code address, direction_code direction)
    | Op.Increment16 register => (7, register16_code register, 0)
    | Op.Decrement16 register => (8, register16_code register, 0)
    | Op.Increment8 operand => (9, operand8_code operand, 0)
    | Op.Decrement8 operand => (10, operand8_code operand, 0)
    | Op.Load8Immediate operand => (11, operand8_code operand, 0)
    | Op.RotateAccumulator rotate => (12, cb_operation_code rotate, 0)
    | Op.DecimalAdjust => (13, 0, 0)
    | Op.ComplementAccumulator => (14, 0, 0)
    | Op.SetCarry => (15, 0, 0)
    | Op.ComplementCarry => (16, 0, 0)
    | Op.Load8 destination source => (17, operand8_code destination, operand8_code source)
    | Op.Halt => (18, 0, 0)
    | Op.Alu8 alu source => (19, alu_code alu, operand8_code source)
    | Op.Return condition => (20, condition_code condition, 0)
    | Op.HighImmediateLoad direction => (21, direction_code direction, 0)
    | Op.AddSpOffset => (22, 0, 0)
    | Op.LoadHlSpOffset => (23, 0, 0)
    | Op.Pop register => (24, stack_register_code register, 0)
    | Op.ReturnFromInterrupt => (25, 0, 0)
    | Op.JumpHl => (26, 0, 0)
    | Op.LoadSpHl => (27, 0, 0)
    | Op.Jump condition => (28, condition_code condition, 0)
    | Op.HighCLoad direction => (29, direction_code direction, 0)
    | Op.AbsoluteAccumulatorLoad direction => (30, direction_code direction, 0)
    | Op.PrefixCb => (31, 0, 0)
    | Op.DisableInterrupts => (32, 0, 0)
    | Op.EnableInterrupts => (33, 0, 0)
    | Op.Call condition => (34, condition_code condition, 0)
    | Op.Push register => (35, stack_register_code register, 0)
    | Op.Restart vector => (36, Z.shiftr vector 3, 0)
    | Op.Cb cb operand => cb_descriptor cb operand
    end in
  MkDescriptor code zero one.

(** ** Decidable equality *)

Global Instance register8_eq_dec : EqDecision R8.Register8.
Proof. solve_decision. Defined.
Global Instance register16_eq_dec : EqDecision R16.Register16.
Proof. solve_decision. Defined.
Global Instance stack_register_eq_dec : EqDecision SR.StackRegister16.
Proof. solve_decision. Defined.
Global Instance operand8_eq_dec : EqDecision Opd.Operand8.
Proof. solve_decision. Defined.
Global Instance indirect_eq_dec : EqDecision Ind.IndirectAddress.
Proof. solve_decision. Defined.
Global Instance direction_eq_dec : EqDecision Dir.TransferDirection.
Proof. solve_decision. Defined.
Global Instance condition_eq_dec : EqDecision Cond.Condition.
Proof. solve_decision. Defined.
Global Instance alu_eq_dec : EqDecision AluOp.AluOperation.
Proof. solve_decision. Defined.
Global Instance cb_eq_dec : EqDecision CbOp.CbOperation.
Proof. solve_decision. Defined.
Global Instance operation_eq_dec : EqDecision Op.Operation.
Proof. solve_decision. Defined.
Global Instance flag_action_eq_dec : EqDecision FA.FlagAction.
Proof. solve_decision. Defined.
Global Instance flag_effect_eq_dec : EqDecision FlagEffect.
Proof. solve_decision. Defined.
Global Instance class_eq_dec : EqDecision Cls.InstructionClass.
Proof. solve_decision. Defined.
Global Instance component_eq_dec : EqDecision SC.StateComponent.
Proof. solve_decision. Defined.
Global Instance descriptor_eq_dec : EqDecision InstructionDescriptor.
Proof. solve_decision. Defined.
