(* ===== verification/Metadata.v ===== *)
(** * Instruction set: metadata (crates/zksm83-isa/src/metadata.rs)

    Class, flag effect, bus pattern and state-access masks of an operation, and [instruction], which
    assembles them into a [DecodedInstruction]. The read and write masks that the source threads as
    [&mut u16] are a pair of masks here. *)
From S2P Require Import Prelude IsaTypes.

Definition class_of (o : Op.Operation) : Cls.InstructionClass :=
  match o with
  | Op.Nop | Op.DecimalAdjust | Op.ComplementAccumulator | Op.SetCarry | Op.ComplementCarry =>
      Cls.Control
  | Op.StoreSpAbsolute | Op.Load16Immediate _ | Op.LoadAccumulatorIndirect _ _
  | Op.Load8Immediate _ | Op.Load8 _ _ | Op.HighImmediateLoad _ | Op.LoadHlSpOffset
  | Op.LoadSpHl | Op.HighCLoad _ | Op.AbsoluteAccumulatorLoad _ => Cls.Load
  | Op.Increment8 _ | Op.Decrement8 _ | Op.Alu8 _ _ => Cls.Alu8
  | Op.AddHl _ | Op.Increment16 _ | Op.Decrement16 _ | Op.AddSpOffset => Cls.Alu16
  | Op.RotateAccumulator _ => Cls.RotateShift
  | Op.Cb cb _ =>
      match cb with
      | CbOp.TestBit _ | CbOp.ResetBit _ | CbOp.SetBit _ => Cls.Bit
      | _ => Cls.RotateShift
      end
  | Op.RelativeJump _ | Op.JumpHl | Op.Jump _ => Cls.Jump
  | Op.Return _ | Op.ReturnFromInterrupt | Op.Call _ | Op.Restart _ => Cls.CallReturn
  | Op.Pop _ | Op.Push _ => Cls.Stack
  | Op.DisableInterrupts | Op.EnableInterrupts => Cls.Interrupt
  | Op.Stop | Op.Halt => Cls.LowPower
  | Op.PrefixCb => Cls.Prefix
  end.

Definition preserve_flags : FlagEffect :=
  MkFlagEffect FA.Preserve FA.Preserve FA.Preserve FA.Preserve.

Definition alu_flags (a : AluOp.AluOperation) : FlagEffect :=
  match a with
  | AluOp.Add | AluOp.AddCarry => MkFlagEffect FA.Derived FA.Clear FA.Derived FA.Derived
  | AluOp.Subtract | AluOp.SubtractCarry | AluOp.Compare =>
      MkFlagEffect FA.Derived FA.Set_ FA.Derived FA.Derived
  | AluOp.And => MkFlagEffect FA.Derived FA.Clear FA.Set_ FA.Clear
  | AluOp.Xor | AluOp.Or => MkFlagEffect FA.Derived FA.Clear FA.Clear FA.Clear
  end.

Definition flag_effect (o : Op.Operation) : FlagEffect :=
  match o with
  | Op.Increment8 _ => MkFlagEffect FA.Derived FA.Clear FA.Derived FA.Preserve
  | Op.Decrement8 _ => MkFlagEffect FA.Derived FA.Set_ FA.Derived FA.Preserve
  | Op.AddHl _ => MkFlagEffect FA.Preserve FA.Clear FA.Derived FA.Derived
  | Op.AddSpOffset | Op.LoadHlSpOffset => MkFlagEffect FA.Clear FA.Clear FA.Derived FA.Derived
  | Op.RotateAccumulator _ => MkFlagEffect FA.Clear FA.Clear FA.Clear FA.Derived
  | Op.DecimalAdjust => MkFlagEffect FA.Derived FA.Preserve FA.Clear FA.Derived
  | Op.ComplementAccumulator => MkFlagEffect FA.Preserve FA.Set_ FA.Set_ FA.Preserve
  | Op.SetCarry => MkFlagEffect FA.Preserve FA.Clear FA.Clear FA.Set_
  | Op.ComplementCarry => MkFlagEffect FA.Preserve FA.Clear FA.Clear FA.Derived
  | Op.Alu8 alu _ => alu_flags alu
  | Op.Cb cb _ =>
      match cb with
      | CbOp.TestBit _ => MkFlagEffect FA.Derived FA.Clear FA.Set_ FA.Preserve
      | CbOp.ResetBit _ | CbOp.SetBit _ => preserve_flags
      | _ => MkFlagEffect FA.Derived FA.Clear FA.Clear FA.Derived
      end
  | Op.Pop SR.Af => MkFlagEffect FA.Derived FA.Derived FA.Derived FA.Derived
  | _ => preserve_flags
  end.

(** ** Bus pattern *)

Definition direction_bus (d : Dir.TransferDirection) : Z * Z * Z * Z :=
  match d with
  | Dir.IntoAccumulator => (1, 0, 0, 0)
  | Dir.FromAccumulator => (0, 1, 0, 0)
  end.

Definition operand_transfer_bus (destination source : Opd.Operand8) : Z * Z * Z * Z :=
  match destination, source with
  | Opd.IndirectHl, _ => (0, 1, 0, 0)
  | _, Opd.IndirectHl => (1, 0, 0, 0)
  | _, _ => (0, 0, 0, 0)
  end.

Definition data_bus (o : Op.Operation) : Z * Z * Z * Z :=
  match o with
  | Op.StoreSpAbsolute => (0, 2, 0, 0)
  | Op.LoadAccumulatorIndirect _ direction
  | Op.HighImmediateLoad direction
  | Op.HighCLoad direction
  | Op.AbsoluteAccumulatorLoad direction => direction_bus direction
  | Op.Increment8 Opd.IndirectHl | Op.Decrement8 Opd.IndirectHl => (1, 1, 0, 0)
  | Op.Load8Immediate Opd.IndirectHl => (0, 1, 0, 0)
  | Op.Load8 destination source => operand_transfer_bus destination source
  | Op.Alu8 _ Opd.IndirectHl => (1, 0, 0, 0)
  | Op.Return (Some _) => (0, 0, 2, 0)
  | Op.Return None | Op.ReturnFromInterrupt | Op.Pop _ => (2, 0, 0, 0)
  | Op.Call (Some _) => (0, 0, 0, 2)
  | Op.Call None | Op.Push _ | Op.Restart _ => (0, 2, 0, 0)
  | Op.Cb cb Opd.IndirectHl =>
      match cb with
      | CbOp.TestBit _ => (1, 0, 0, 0)
      | _ => (1, 1, 0, 0)
      end
  | _ => (0, 0, 0, 0)
  end.

Definition bus_pattern (e : Enc.InstructionEncoding) (o : Op.Operation) (byte_len : Z) :
    BusAccessPattern :=
  let opcode_fetches := match e with Enc.Primary _ => 1 | Enc.Cb _ => 2 end in
  let immediate_reads :=
    match e with Enc.Primary _ => saturating_sub byte_len 1 | Enc.Cb _ => 0 end in
  let '(data_reads, data_writes, taken_data_reads, taken_data_writes) := data_bus o in
  MkBusPattern opcode_fetches immediate_reads data_reads data_writes
    taken_data_reads taken_data_writes.

(** ** State access *)

Definition register_component (r : R8.Register8) : SC.StateComponent :=
  match r with
  | R8.A => SC.A | R8.B => SC.B | R8.C => SC.C | R8.D => SC.D | R8.E => SC.E | R8.H => SC.H
  | R8.L => SC.L
  end.

Definition register_mask (r : R16.Register16) : Z :=
  match r with
  | R16.Bc => Z.lor (component_mask SC.B) (component_mask SC.C)
  | R16.De => Z.lor (component_mask SC.D) (component_mask SC.E)
  | R16.Hl => Z.lor (component_mask SC.H) (component_mask SC.L)
  | R16.Sp => component_mask SC.Sp
  end.

Definition stack_register_mask (r : SR.StackRegister16) : Z :=
  match r with
  | SR.Bc => register_mask R16.Bc
  | SR.De => register_mask R16.De
  | SR.Hl => register_mask R16.Hl
  | SR.Af => Z.lor (component_mask SC.A) (component_mask SC.F)
  end.

Definition components (values : list SC.StateComponent) : Z :=
  foldl (λ mask c, Z.lor mask (component_mask c)) 0 values.

(** The two masks under construction: reads, writes. *)
Definition masks : Type := Z * Z.
Definition add_reads (m : Z) (rw : masks) : masks := (Z.lor rw.1 m, rw.2).
Definition add_writes (m : Z) (rw : masks) : masks := (rw.1, Z.lor rw.2 m).
Definition add_read (r : R16.Register16) : masks → masks := add_reads (register_mask r).
Definition add_write (r : R16.Register16) : masks → masks := add_writes (register_mask r).

Definition add_operand_read (o : Opd.Operand8) : masks → masks :=
  match o with
  | Opd.Register r => add_reads (component_mask (register_component r))
  | Opd.Immediate => id
  | Opd.IndirectHl => add_read R16.Hl
  end.

Definition add_operand_write (o : Opd.Operand8) : masks → masks :=
  match o with
  | Opd.Register r => add_writes (component_mask (register_component r))
  | Opd.Immediate => id
  | Opd.IndirectHl => id
  end.

Definition add_destination_access (o : Opd.Operand8) (rw : masks) : masks :=
  let rw := if decide (o = Opd.IndirectHl) then add_read R16.Hl rw else rw in
  add_operand_write o rw.

Definition add_transfer_access (d : Dir.TransferDirection) : masks → masks :=
  match d with
  | Dir.IntoAccumulator => add_writes (component_mask SC.A)
  | Dir.FromAccumulator => add_reads (component_mask SC.A)
  end.

Definition add_indirect_read (a : Ind.IndirectAddress) : masks → masks :=
  match a with
  | Ind.Bc => add_read R16.Bc
  | Ind.De => add_read R16.De
  | Ind.HlIncrement | Ind.HlDecrement => add_read R16.Hl
  end.

Definition add_indirect_transfer_access (a : Ind.IndirectAddress) (d : Dir.TransferDirection)
    (rw : masks) : masks :=
  let rw := add_transfer_access d (add_indirect_read a rw) in
  match a with
  | Ind.HlIncrement | Ind.HlDecrement => add_write R16.Hl rw
  | _ => rw
  end.

Definition stack_access (o : Op.Operation) (rw : masks) : masks :=
  match o with
  | Op.Return _ | Op.ReturnFromInterrupt | Op.Call _ | Op.Push _ | Op.Restart _ =>
      add_writes (component_mask SC.Sp) (add_reads (component_mask SC.Sp) rw)
  | _ => rw
  end.

Definition add_operation_access (o : Op.Operation) (rw : masks) : masks :=
  match o with
  | Op.StoreSpAbsolute => add_read R16.Sp rw
  | Op.Stop | Op.Halt => add_writes (component_mask SC.RunState) rw
  | Op.RelativeJump condition | Op.Return condition | Op.Jump condition | Op.Call condition =>
      let rw := match condition with Some _ => add_reads (component_mask SC.F) rw | None => rw end in
      stack_access o rw
  | Op.Load16Immediate register => add_write register rw
  | Op.Increment16 register | Op.Decrement16 register => add_write register (add_read register rw)
  | Op.AddHl register => add_write R16.Hl (add_read register (add_read R16.Hl rw))
  | Op.LoadAccumulatorIndirect address direction =>
      add_indirect_transfer_access address direction rw
  | Op.Increment8 operand | Op.Decrement8 operand =>
      add_operand_write operand (add_operand_read operand rw)
  | Op.Load8Immediate operand => add_destination_access operand rw
  | Op.RotateAccumulator _ | Op.DecimalAdjust | Op.ComplementAccumulator =>
      add_writes (component_mask SC.A) (add_reads (component_mask SC.A) rw)
  | Op.Load8 destination source => add_destination_access destination (add_operand_read source rw)
  | Op.Alu8 alu operand =>
      let rw := add_operand_read operand (add_reads (component_mask SC.A) rw) in
      match alu with
      | AluOp.Compare => rw
      | _ => add_writes (component_mask SC.A) rw
      end
  | Op.HighImmediateLoad direction | Op.AbsoluteAccumulatorLoad direction =>
      add_transfer_access direction rw
  | Op.HighCLoad direction =>
      add_transfer_access direction (add_reads (component_mask SC.C) rw)
  | Op.AddSpOffset => add_write R16.Sp (add_read R16.Sp rw)
  | Op.LoadHlSpOffset => add_write R16.Hl (add_read R16.Sp rw)
  | Op.Pop register =>
      add_writes (stack_register_mask register)
        (add_writes (component_mask SC.Sp) (add_reads (component_mask SC.Sp) rw))
  | Op.ReturnFromInterrupt => stack_access o rw
  | Op.JumpHl => add_read R16.Hl rw
  | Op.LoadSpHl => add_write R16.Sp (add_read R16.Hl rw)
  | Op.DisableInterrupts | Op.EnableInterrupts => add_writes (component_mask SC.Ime) rw
  | Op.Push register => stack_access o (add_reads (stack_register_mask register) rw)
  | Op.Restart _ => stack_access o rw
  | Op.Cb cb operand =>
      let rw := add_operand_read operand rw in
      match cb with
      | CbOp.TestBit _ => rw
      | _ => add_operand_write operand rw
      end
  | Op.Nop | Op.SetCarry | Op.ComplementCarry | Op.PrefixCb => rw
  end.

Definition state_access_of (o : Op.Operation) : StateAccess :=
  let reads := components [SC.Pc; SC.Ime; SC.RunState; SC.MCycles; SC.F] in
  let writes := components [SC.Pc; SC.Ime; SC.MCycles] in
  let rw := add_operation_access o (reads, writes) in
  let rw := if decide (flag_effect o = preserve_flags) then rw
            else add_writes (component_mask SC.F) rw in
  MkStateAccess rw.1 rw.2.

Definition instruction (e : Enc.InstructionEncoding) (o : Op.Operation) (byte_len base : Z)
    (taken : option Z) : DecodedInstruction :=
  {| encoding := e;
     class := class_of o;
     operation := o;
     byte_len := byte_len;
     timing := MkTiming base taken;
     flags_effect := flag_effect o;
     state_access := state_access_of o;
     bus := bus_pattern e o byte_len |}.
