(* ===== verification/Decode.v ===== *)
(** * Instruction set: decoding (crates/zksm83-isa/src/decode.rs)

    The algorithmic decoder: an opcode byte is split into the fields x, y, z, p, q and every field
    combination selects an operation, an instruction length and its timing. Fields are bit slices
    of a byte, so a [match] on a field has the catch-all arm of the source. *)
From S2P Require Import Prelude IsaTypes Metadata.

Definition operand8 (code : Z) : Opd.Operand8 :=
  let register :=
    match code with
    | 0 => Some R8.B | 1 => Some R8.C | 2 => Some R8.D | 3 => Some R8.E | 4 => Some R8.H
    | 5 => Some R8.L | 6 => None | _ => Some R8.A
    end in
  match register with None => Opd.IndirectHl | Some r => Opd.Register r end.

Definition register16_of (code : Z) : R16.Register16 :=
  match code with 0 => R16.Bc | 1 => R16.De | 2 => R16.Hl | _ => R16.Sp end.

Definition stack_register16 (code : Z) : SR.StackRegister16 :=
  match code with 0 => SR.Bc | 1 => SR.De | 2 => SR.Hl | _ => SR.Af end.

Definition condition_of (code : Z) : Cond.Condition :=
  match code with 0 => Cond.NotZero | 1 => Cond.Zero | 2 => Cond.NotCarry | _ => Cond.Carry end.

Definition alu_operation (code : Z) : AluOp.AluOperation :=
  match code with
  | 0 => AluOp.Add | 1 => AluOp.AddCarry | 2 => AluOp.Subtract | 3 => AluOp.SubtractCarry
  | 4 => AluOp.And | 5 => AluOp.Xor | 6 => AluOp.Or | _ => AluOp.Compare
  end.

Definition cb_rotate (code : Z) : CbOp.CbOperation :=
  match code with
  | 0 => CbOp.RotateLeftCircular | 1 => CbOp.RotateRightCircular
  | 2 => CbOp.RotateLeft | 3 => CbOp.RotateRight
  | 4 => CbOp.ShiftLeftArithmetic | 5 => CbOp.ShiftRightArithmetic
  | 6 => CbOp.SwapNibbles | _ => CbOp.ShiftRightLogical
  end.

(** Operation, length in bytes, untaken cycles, taken cycles. *)
Definition decoded : Type := Op.Operation * Z * Z * option Z.
Definition tuple (o : Op.Operation) (byte_len m_cycles : Z) : decoded :=
  (o, byte_len, m_cycles, None).
Definition conditional (o : Op.Operation) (byte_len base taken : Z) : decoded :=
  (o, byte_len, base, Some taken).

Definition is_undefined (byte : Z) : bool :=
  bool_decide (byte ∈ [211; 219; 221; 227; 228; 235; 236; 237; 244; 252; 253]).

Definition indirect_accumulator (y : Z) : Op.Operation :=
  let address :=
    match Z.shiftr y 1 with
    | 0 => Ind.Bc | 1 => Ind.De | 2 => Ind.HlIncrement | _ => Ind.HlDecrement
    end in
  let direction :=
    if Z.land y 1 =? 0 then Dir.FromAccumulator else Dir.IntoAccumulator in
  Op.LoadAccumulatorIndirect address direction.

Definition block_zero_misc (y : Z) : Op.Operation :=
  match y with
  | 0 => Op.RotateAccumulator CbOp.RotateLeftCircular
  | 1 => Op.RotateAccumulator CbOp.RotateRightCircular
  | 2 => Op.RotateAccumulator CbOp.RotateLeft
  | 3 => Op.RotateAccumulator CbOp.RotateRight
  | 4 => Op.DecimalAdjust
  | 5 => Op.ComplementAccumulator
  | 6 => Op.SetCarry
  | _ => Op.ComplementCarry
  end.

Definition decode_block_zero (y z p q : Z) : decoded :=
  match z with
  | 0 =>
      match y with
      | 0 => tuple Op.Nop 1 1
      | 1 => tuple Op.StoreSpAbsolute 3 5
      | 2 => tuple Op.Stop 2 1
      | 3 => tuple (Op.RelativeJump None) 2 3
      | _ => conditional (Op.RelativeJump (Some (condition_of (y - 4)))) 2 2 3
      end
  | 1 => if q =? 0 then tuple (Op.Load16Immediate (register16_of p)) 3 3
         else tuple (Op.AddHl (register16_of p)) 1 2
  | 2 => tuple (indirect_accumulator y) 1 2
  | 3 => if q =? 0 then tuple (Op.Increment16 (register16_of p)) 1 2
         else tuple (Op.Decrement16 (register16_of p)) 1 2
  | 4 => tuple (Op.Increment8 (operand8 y)) 1 (if y =? 6 then 3 else 1)
  | 5 => tuple (Op.Decrement8 (operand8 y)) 1 (if y =? 6 then 3 else 1)
  | 6 => tuple (Op.Load8Immediate (operand8 y)) 2 (if y =? 6 then 3 else 2)
  | _ => tuple (block_zero_misc y) 1 1
  end.

Definition decode_block_one (y z : Z) : decoded :=
  if (y =? 6) && (z =? 6) then tuple Op.Halt 1 1
  else tuple (Op.Load8 (operand8 y) (operand8 z)) 1 (if (y =? 6) || (z =? 6) then 2 else 1).

Definition decode_block_two (y z : Z) : decoded :=
  tuple (Op.Alu8 (alu_operation y) (operand8 z)) 1 (if z =? 6 then 2 else 1).

Definition decode_block_three_z_one (p q : Z) : decoded :=
  if q =? 0 then tuple (Op.Pop (stack_register16 p)) 1 3
  else match p with
       | 0 => tuple (Op.Return None) 1 4
       | 1 => tuple Op.ReturnFromInterrupt 1 4
       | 2 => tuple Op.JumpHl 1 1
       | _ => tuple Op.LoadSpHl 1 2
       end.

Definition decode_block_three (y z p q : Z) : decoded :=
  match z with
  | 0 =>
      match y with
      | 0 | 1 | 2 | 3 => conditional (Op.Return (Some (condition_of y))) 1 2 5
      | 4 => tuple (Op.HighImmediateLoad Dir.FromAccumulator) 2 3
      | 5 => tuple Op.AddSpOffset 2 4
      | 6 => tuple (Op.HighImmediateLoad Dir.IntoAccumulator) 2 3
      | _ => tuple Op.LoadHlSpOffset 2 3
      end
  | 1 => decode_block_three_z_one p q
  | 2 =>
      match y with
      | 0 | 1 | 2 | 3 => conditional (Op.Jump (Some (condition_of y))) 3 3 4
      | 4 => tuple (Op.HighCLoad Dir.FromAccumulator) 1 2
      | 5 => tuple (Op.AbsoluteAccumulatorLoad Dir.FromAccumulator) 3 4
      | 6 => tuple (Op.HighCLoad Dir.IntoAccumulator) 1 2
      | _ => tuple (Op.AbsoluteAccumulatorLoad Dir.IntoAccumulator) 3 4
      end
  | 3 =>
      match y with
      | 0 => tuple (Op.Jump None) 3 4
      | 1 => tuple Op.PrefixCb 1 1
      | 6 => tuple Op.DisableInterrupts 1 1
      | _ => tuple Op.EnableInterrupts 1 1
      end
  | 4 => conditional (Op.Call (Some (condition_of y))) 3 3 6
  | 5 => if q =? 0 then tuple (Op.Push (stack_register16 p)) 1 4
         else tuple (Op.Call None) 3 6
  | 6 => tuple (Op.Alu8 (alu_operation y) Opd.Immediate) 2 2
  | _ => tuple (Op.Restart (w8 (Z.shiftl y 3))) 1 4
  end.

Definition decode_defined_primary (opcode : Opcode) : DecodedInstruction :=
  let byte := opcode_byte opcode in
  let x := Z.shiftr byte 6 in
  let y := Z.land (Z.shiftr byte 3) 7 in
  let z := Z.land byte 7 in
  let p := Z.shiftr y 1 in
  let q := Z.land y 1 in
  let '(operation, byte_len, base, taken) :=
    match x with
    | 0 => decode_block_zero y z p q
    | 1 => decode_block_one y z
    | 2 => decode_block_two y z
    | _ => decode_block_three y z p q
    end in
  instruction (Enc.Primary opcode) operation byte_len base taken.

Definition decode_primary (byte : Z) : Classified.OpcodeClassification :=
  if is_undefined byte then Classified.Undefined (MkUndefined byte)
  else Classified.Defined_ (decode_defined_primary (MkOpcode byte)).

Definition decode_cb (byte : Z) : DecodedInstruction :=
  let opcode := MkCbOpcode byte in
  let x := Z.shiftr byte 6 in
  let y := Z.land (Z.shiftr byte 3) 7 in
  let z := Z.land byte 7 in
  let target := operand8 z in
  let operation :=
    match x with
    | 0 => cb_rotate y
    | 1 => CbOp.TestBit y
    | 2 => CbOp.ResetBit y
    | _ => CbOp.SetBit y
    end in
  let m_cycles :=
    match x, target with
    | 1, Opd.IndirectHl => 3
    | _, Opd.IndirectHl => 4
    | _, _ => 2
    end in
  instruction (Enc.Cb opcode) (Op.Cb operation target) 2 m_cycles None.

(** The table facade: all primary classifications and all CB instructions in byte order. *)
Definition primary_entries : list Classified.OpcodeClassification :=
  decode_primary <$> seqZ 0 256.
Definition cb_entries : list DecodedInstruction := decode_cb <$> seqZ 0 256.

(** ** The set of defined instructions *)

(** What the two tables can produce. *)
Definition defined_instruction (i : DecodedInstruction) : Prop :=
  (∃ b, is_u8 b ∧ decode_primary b = Classified.Defined_ i) ∨ (∃ b, is_u8 b ∧ i = decode_cb b).

Definition defined_only (c : Classified.OpcodeClassification) : option DecodedInstruction :=
  match c with Classified.Defined_ i => Some i | Classified.Undefined _ => None end.

Definition all_defined : list DecodedInstruction :=
  omap defined_only primary_entries ++ cb_entries.

(** The opcode bytes that select an instruction, as one number. *)
Definition opcode_number (i : DecodedInstruction) : Z :=
  match encoding i with Enc.Primary o => opcode_byte o | Enc.Cb o => 256 + cb_byte o end.

Definition descriptor_number (i : DecodedInstruction) : Z :=
  let d := descriptor (operation i) in
  d_operation d * 65536 + argument_zero d * 256 + argument_one d.

(** The number of bus accesses of an instruction, untaken and taken. *)
Definition base_accesses (b : BusAccessPattern) : Z :=
  opcode_fetches b + immediate_reads b + data_reads b + data_writes b.
Definition taken_accesses (b : BusAccessPattern) : Z :=
  base_accesses b + taken_data_reads b + taken_data_writes b.

Fixpoint nodup_numbers (l : list Z) : bool :=
  match l with
  | [] => true
  | x :: l => forallb (λ y, negb (x =? y)) l && nodup_numbers l
  end.

Lemma nodup_numbers_spec l : nodup_numbers l = true → NoDup l.
Proof.
  induction l as [|x l IH]; cbn; [constructor |].
  rewrite andb_true_iff, forallb_forall. intros [Hx Hl]. constructor; [| auto].
  rewrite list_elem_of_In. intros Hin. specialize (Hx x Hin). by rewrite Z.eqb_refl in Hx.
Qed.

Lemma defined_in_all i : defined_instruction i → i ∈ all_defined.
Proof.
  intros [(b & Hb & H) | (b & Hb & ->)]; unfold all_defined; apply elem_of_app.
  - left. apply list_elem_of_omap. exists (Classified.Defined_ i). split; [| done].
    apply list_elem_of_fmap. exists b. split; [done |]. apply elem_of_seqZ. lia.
  - right. apply list_elem_of_fmap. exists b. split; [done |]. apply elem_of_seqZ. lia.
Qed.

(** Properties of every defined instruction, by evaluation over the 501 table rows. *)
Lemma defined_forall (P : DecodedInstruction → bool) :
  forallb P all_defined = true → ∀ i, defined_instruction i → P i = true.
Proof.
  rewrite forallb_forall. intros H i Hi. by apply H, list_elem_of_In, defined_in_all.
Qed.

Lemma defined_forall_map {A} (f : DecodedInstruction → A) (P : A → bool) :
  forallb P (f <$> all_defined) = true → ∀ i, defined_instruction i → P (f i) = true.
Proof.
  rewrite forallb_forall. intros H i Hi.
  by apply H, list_elem_of_In, list_elem_of_fmap_2, defined_in_all.
Qed.

Lemma descriptor_numbers_nodup : NoDup (descriptor_number <$> all_defined).
Proof. apply nodup_numbers_spec. vm_compute. reflexivity. Qed.

Lemma nodup_fmap_eq {A B} (f : A → B) (l : list A) x y :
  NoDup (f <$> l) → x ∈ l → y ∈ l → f x = f y → x = y.
Proof.
  induction l as [|z l IH]; cbn; [set_solver |].
  rewrite NoDup_cons. intros [Hz Hl] Hx Hy Hf.
  apply elem_of_cons in Hx as [-> | Hx], Hy as [-> | Hy]; auto.
  - destruct Hz. rewrite Hf. by apply list_elem_of_fmap_2.
  - destruct Hz. rewrite <- Hf. by apply list_elem_of_fmap_2.
Qed.

Lemma descriptor_identifies_defined i j :
  defined_instruction i → defined_instruction j →
  descriptor (operation i) = descriptor (operation j) → i = j.
Proof.
  intros Hi%defined_in_all Hj%defined_in_all Hd.
  apply (nodup_fmap_eq descriptor_number all_defined); auto using descriptor_numbers_nodup.
  unfold descriptor_number. by rewrite Hd.
Qed.

(** The facts about a defined instruction that the other files use, in one evaluation. *)
Definition accesses_fit (i : DecodedInstruction) : bool :=
  (byte_len i =? opcode_fetches (bus i) + immediate_reads (bus i)) &&
  (bool_decide (operation i = Op.Stop) ||
   ((base_accesses (bus i) <=? base_m_cycles (timing i)) &&
    (taken_accesses (bus i) <=? default (base_m_cycles (timing i)) (taken_m_cycles (timing i))))).

Lemma all_accesses_fit : forallb accesses_fit all_defined = true.
Proof. vm_compute. reflexivity. Qed.

Definition instruction_shape (i : DecodedInstruction) : bool :=
  bool_decide (class i = class_of (operation i)) &&
  bool_decide (flags_effect i = flag_effect (operation i)) &&
  (0 <? base_m_cycles (timing i)) && (base_m_cycles (timing i) <=? 6) &&
  match taken_m_cycles (timing i) with
  | Some t => (base_m_cycles (timing i) <? t) && (t <=? 6)
  | None => true
  end.

Lemma defined_shape i : defined_instruction i → instruction_shape i = true.
Proof. apply defined_forall. vm_compute. reflexivity. Qed.

(** Decoding of the opcode bytes at the program counter: 0xcb dispatches through the CB table. *)
Definition dispatch (first second : Z) : option DecodedInstruction :=
  if first =? 203 then Some (decode_cb second) else defined_only (decode_primary first).

(** ** The published encoding

    A reference for the decoder that does not decode: the opcode of every operation, written from the
    operation and its operands as an assembler would, and the instruction lengths and M-cycles as the
    published opcode tables list them, byte by byte. *)

Module Manual.
Definition register8_field (r : R8.Register8) : Z :=
  match r with
  | R8.B => 0 | R8.C => 1 | R8.D => 2 | R8.E => 3 | R8.H => 4 | R8.L => 5 | R8.A => 7
  end.
(** [None] for an immediate, which has no register code. *)
Definition operand (o : Opd.Operand8) : option Z :=
  match o with Opd.Register r => Some (register8_field r) | Opd.IndirectHl => Some 6 | Opd.Immediate => None end.
Definition register16_field (r : R16.Register16) : Z :=
  match r with R16.Bc => 0 | R16.De => 1 | R16.Hl => 2 | R16.Sp => 3 end.
Definition stack_register_field (r : SR.StackRegister16) : Z :=
  match r with SR.Bc => 0 | SR.De => 1 | SR.Hl => 2 | SR.Af => 3 end.
Definition condition (c : Cond.Condition) : Z :=
  match c with Cond.NotZero => 0 | Cond.Zero => 1 | Cond.NotCarry => 2 | Cond.Carry => 3 end.
Definition alu (o : AluOp.AluOperation) : Z :=
  match o with
  | AluOp.Add => 0 | AluOp.AddCarry => 1 | AluOp.Subtract => 2 | AluOp.SubtractCarry => 3
  | AluOp.And => 4 | AluOp.Xor => 5 | AluOp.Or => 6 | AluOp.Compare => 7
  end.
Definition indirect (a : Ind.IndirectAddress) : Z :=
  match a with Ind.Bc => 0x02 | Ind.De => 0x12 | Ind.HlIncrement => 0x22 | Ind.HlDecrement => 0x32 end.
(** The row of the CB page; bits go from 0 to 7. *)
Definition cb_row (o : CbOp.CbOperation) : option Z :=
  let bit base n := if (0 <=? n) && (n <? 8) then Some (base + 8 * n) else None in
  match o with
  | CbOp.RotateLeftCircular => Some 0x00 | CbOp.RotateRightCircular => Some 0x08
  | CbOp.RotateLeft => Some 0x10 | CbOp.RotateRight => Some 0x18
  | CbOp.ShiftLeftArithmetic => Some 0x20 | CbOp.ShiftRightArithmetic => Some 0x28
  | CbOp.SwapNibbles => Some 0x30 | CbOp.ShiftRightLogical => Some 0x38
  | CbOp.TestBit n => bit 0x40 n | CbOp.ResetBit n => bit 0x80 n | CbOp.SetBit n => bit 0xc0 n
  end.
Definition accumulator_rotate (o : CbOp.CbOperation) : option Z :=
  match o with
  | CbOp.RotateLeftCircular => Some 0x07 | CbOp.RotateRightCircular => Some 0x0f
  | CbOp.RotateLeft => Some 0x17 | CbOp.RotateRight => Some 0x1f | _ => None
  end.
Definition stores (d : Dir.TransferDirection) (store load : Z) : Z :=
  match d with Dir.FromAccumulator => store | Dir.IntoAccumulator => load end.

(** The primary opcode of an operation; [None] when no opcode has these operands. *)
Definition primary (o : Op.Operation) : option Z :=
  match o with
  | Op.Nop => Some 0x00
  | Op.StoreSpAbsolute => Some 0x08
  | Op.Stop => Some 0x10
  | Op.RelativeJump None => Some 0x18
  | Op.RelativeJump (Some c) => Some (0x20 + 8 * condition c)
  | Op.Load16Immediate r => Some (0x01 + 16 * register16_field r)
  | Op.AddHl r => Some (0x09 + 16 * register16_field r)
  | Op.LoadAccumulatorIndirect a d => Some (indirect a + stores d 0 8)
  | Op.Increment16 r => Some (0x03 + 16 * register16_field r)
  | Op.Decrement16 r => Some (0x0b + 16 * register16_field r)
  | Op.Increment8 d => d ← operand d; Some (0x04 + 8 * d)
  | Op.Decrement8 d => d ← operand d; Some (0x05 + 8 * d)
  | Op.Load8Immediate d => d ← operand d; Some (0x06 + 8 * d)
  | Op.RotateAccumulator r => accumulator_rotate r
  | Op.DecimalAdjust => Some 0x27
  | Op.ComplementAccumulator => Some 0x2f
  | Op.SetCarry => Some 0x37
  | Op.ComplementCarry => Some 0x3f
  | Op.Load8 d s =>
      d ← operand d; s ← operand s;
      if (d =? 6) && (s =? 6) then None else Some (0x40 + 8 * d + s)
  | Op.Halt => Some 0x76
  | Op.Alu8 a Opd.Immediate => Some (0xc6 + 8 * alu a)
  | Op.Alu8 a s => s ← operand s; Some (0x80 + 8 * alu a + s)
  | Op.Return None => Some 0xc9
  | Op.Return (Some c) => Some (0xc0 + 8 * condition c)
  | Op.HighImmediateLoad d => Some (stores d 0xe0 0xf0)
  | Op.AddSpOffset => Some 0xe8
  | Op.LoadHlSpOffset => Some 0xf8
  | Op.Pop r => Some (0xc1 + 16 * stack_register_field r)
  | Op.ReturnFromInterrupt => Some 0xd9
  | Op.JumpHl => Some 0xe9
  | Op.LoadSpHl => Some 0xf9
  | Op.Jump None => Some 0xc3
  | Op.Jump (Some c) => Some (0xc2 + 8 * condition c)
  | Op.HighCLoad d => Some (stores d 0xe2 0xf2)
  | Op.AbsoluteAccumulatorLoad d => Some (stores d 0xea 0xfa)
  | Op.PrefixCb => Some 0xcb
  | Op.DisableInterrupts => Some 0xf3
  | Op.EnableInterrupts => Some 0xfb
  | Op.Call None => Some 0xcd
  | Op.Call (Some c) => Some (0xc4 + 8 * condition c)
  | Op.Push r => Some (0xc5 + 16 * stack_register_field r)
  | Op.Restart vector =>
      if bool_decide (vector ∈ [0; 8; 16; 24; 32; 40; 48; 56]) then Some (0xc7 + vector) else None
  | Op.Cb _ _ => None
  end.
(** The byte after the 0xcb prefix. *)
Definition prefixed (o : Op.Operation) : option Z :=
  match o with Op.Cb c t => row ← cb_row c; t ← operand t; Some (row + t) | _ => None end.

(** Bytes per instruction, the prefix being one of its own; 0 where no instruction is published. *)
Definition lengths : list Z := [
  1; 3; 1; 1; 1; 1; 2; 1; 3; 1; 1; 1; 1; 1; 2; 1;
  2; 3; 1; 1; 1; 1; 2; 1; 2; 1; 1; 1; 1; 1; 2; 1;
  2; 3; 1; 1; 1; 1; 2; 1; 2; 1; 1; 1; 1; 1; 2; 1;
  2; 3; 1; 1; 1; 1; 2; 1; 2; 1; 1; 1; 1; 1; 2; 1] ++ replicate 128 1 ++ [
  1; 1; 3; 3; 3; 1; 2; 1; 1; 1; 3; 1; 3; 3; 2; 1;
  1; 1; 3; 0; 3; 1; 2; 1; 1; 1; 3; 0; 3; 0; 2; 1;
  2; 1; 1; 0; 0; 1; 2; 1; 2; 1; 3; 0; 0; 0; 2; 1;
  2; 1; 1; 1; 0; 1; 2; 1; 2; 1; 3; 1; 0; 0; 2; 1].
(** M-cycles, when no branch is taken. *)
Definition cycles : list Z := [
  1; 3; 2; 2; 1; 1; 2; 1; 5; 2; 2; 2; 1; 1; 2; 1;
  1; 3; 2; 2; 1; 1; 2; 1; 3; 2; 2; 2; 1; 1; 2; 1;
  2; 3; 2; 2; 1; 1; 2; 1; 2; 2; 2; 2; 1; 1; 2; 1;
  2; 3; 2; 2; 3; 3; 3; 1; 2; 2; 2; 2; 1; 1; 2; 1;
  1; 1; 1; 1; 1; 1; 2; 1; 1; 1; 1; 1; 1; 1; 2; 1;
  1; 1; 1; 1; 1; 1; 2; 1; 1; 1; 1; 1; 1; 1; 2; 1;
  1; 1; 1; 1; 1; 1; 2; 1; 1; 1; 1; 1; 1; 1; 2; 1;
  2; 2; 2; 2; 2; 2; 1; 2; 1; 1; 1; 1; 1; 1; 2; 1;
  1; 1; 1; 1; 1; 1; 2; 1; 1; 1; 1; 1; 1; 1; 2; 1;
  1; 1; 1; 1; 1; 1; 2; 1; 1; 1; 1; 1; 1; 1; 2; 1;
  1; 1; 1; 1; 1; 1; 2; 1; 1; 1; 1; 1; 1; 1; 2; 1;
  1; 1; 1; 1; 1; 1; 2; 1; 1; 1; 1; 1; 1; 1; 2; 1;
  2; 3; 3; 4; 3; 4; 2; 4; 2; 4; 3; 1; 3; 6; 2; 4;
  2; 3; 3; 0; 3; 4; 2; 4; 2; 4; 3; 0; 3; 0; 2; 4;
  3; 3; 2; 0; 0; 4; 2; 4; 4; 1; 4; 0; 0; 0; 2; 4;
  3; 3; 2; 1; 0; 4; 2; 4; 3; 2; 4; 1; 0; 0; 2; 4].
(** M-cycles of the conditional instructions when the branch is taken. *)
Definition taken_cycles (byte : Z) : option Z :=
  if bool_decide (byte ∈ [0x20; 0x28; 0x30; 0x38]) then Some 3
  else if bool_decide (byte ∈ [0xc0; 0xc8; 0xd0; 0xd8]) then Some 5
  else if bool_decide (byte ∈ [0xc2; 0xca; 0xd2; 0xda]) then Some 4
  else if bool_decide (byte ∈ [0xc4; 0xcc; 0xd4; 0xdc]) then Some 6
  else None.
(** The CB page: four M-cycles on (HL), three for BIT. *)
Definition cb_cycles : list Z :=
  concat (replicate 8 [2; 2; 2; 2; 2; 2; 4; 2]) ++ concat (replicate 8 [2; 2; 2; 2; 2; 2; 3; 2]) ++
  concat (replicate 16 [2; 2; 2; 2; 2; 2; 4; 2]).
End Manual.

#[export] Instance opcode_eq_dec : EqDecision Opcode.
Proof. solve_decision. Defined.
#[export] Instance cb_opcode_eq_dec : EqDecision CbOpcode.
Proof. solve_decision. Defined.
#[export] Instance encoding_eq_dec : EqDecision Enc.InstructionEncoding.
Proof. solve_decision. Defined.
(** What the tables say of a byte, against the published encoding. *)
Definition published_primary (byte : Z) : bool :=
  match decode_primary byte with
  | Classified.Undefined u => (undefined_byte u =? byte) && bool_decide (Manual.lengths !! Z.to_nat byte = Some 0)
  | Classified.Defined_ i =>
      bool_decide (encoding i = Enc.Primary (MkOpcode byte)) &&
      bool_decide (Manual.primary (operation i) = Some byte) &&
      bool_decide (Manual.lengths !! Z.to_nat byte = Some (byte_len i)) && (0 <? byte_len i) &&
      bool_decide (Manual.cycles !! Z.to_nat byte = Some (base_m_cycles (timing i))) &&
      bool_decide (taken_m_cycles (timing i) = Manual.taken_cycles byte)
  end.
Definition published_cb (byte : Z) : bool :=
  let i := decode_cb byte in
  bool_decide (encoding i = Enc.Cb (MkCbOpcode byte)) && bool_decide (Manual.prefixed (operation i) = Some byte) &&
  (byte_len i =? 2) && bool_decide (Manual.cb_cycles !! Z.to_nat byte = Some (base_m_cycles (timing i))) &&
  bool_decide (taken_m_cycles (timing i) = None).
Lemma all_published : forallb (λ byte, published_primary byte && published_cb byte) (seqZ 0 256) = true.
Proof. vm_compute. reflexivity. Qed.
Lemma byte_published byte : is_u8 byte → published_primary byte = true ∧ published_cb byte = true.
Proof.
  intros Hb. apply andb_true_iff. pose proof all_published as Ha. rewrite forallb_forall in Ha.
  apply Ha, list_elem_of_In, elem_of_seqZ. lia.
Qed.

Lemma primary_decodes o byte : Manual.primary o = Some byte →
  is_u8 byte ∧ ∃ i, decode_primary byte = Classified.Defined_ i ∧ operation i = o.
Proof.
  assert (Hgo : ∀ b, match decode_primary b with Classified.Defined_ i => bool_decide (operation i = o) | _ => false end = true →
    ∃ i, decode_primary b = Classified.Defined_ i ∧ operation i = o).
  { intros b. destruct (decode_primary b) as [i | u]; [| done]. intros Hi%bool_decide_eq_true. by exists i. }
  destruct o as [| | | [[] |] | [] | [] | [] [] | [] | [] | [[] | |] | [[] | |] | [[] | |] | [] | | | | | [[] | |] [[] | |] | | [] [[] | |]
    | [[] |] | [] | | | [] | | | | [[] |] | [] | [] | | | | [[] |] | [] | vector |]; cbn;
    try (intros [= <-]; split; [lia | apply Hgo; vm_compute; reflexivity]); try done.
  case_bool_decide as Hv; [| done]. intros [= <-]. repeat (apply elem_of_cons in Hv as [-> | Hv];
    [split; [lia | apply Hgo; vm_compute; reflexivity] |]). by apply elem_of_nil in Hv.
Qed.
Lemma prefixed_decodes o byte : Manual.prefixed o = Some byte → is_u8 byte ∧ operation (decode_cb byte) = o.
Proof.
  assert (Hgo : ∀ b c t, bool_decide (operation (decode_cb b) = Op.Cb c t) = true → operation (decode_cb b) = Op.Cb c t)
    by (intros b c t; apply bool_decide_eq_true).
  assert (Hbit : ∀ base n row, (if (0 <=? n) && (n <? 8) then Some (base + 8 * n) else None) = Some row →
    row = base + 8 * n ∧ (n = 0 ∨ n = 1 ∨ n = 2 ∨ n = 3 ∨ n = 4 ∨ n = 5 ∨ n = 6 ∨ n = 7)).
  { intros base n row. destruct ((0 <=? n) && (n <? 8)) eqn:E; [| done]. intros [= <-]. split; [done | lia]. }
  destruct o as [| | | | | | | | | | | | | | | | | | | | | | | | | | | | | | | | | | | | | c t]; try done.
  cbn [Manual.prefixed]. destruct (Manual.cb_row c) as [row |] eqn:E; [cbn [mbind option_bind] | done].
  destruct c; cbn [Manual.cb_row] in E; try (injection E as <-);
    try (apply Hbit in E as [-> [-> | [-> | [-> | [-> | [-> | [-> | [-> | ->]]]]]]]]);
    destruct t as [[] | |]; intros [= <-]; (split; [lia | apply Hgo; vm_compute; reflexivity]).
Qed.

(** C38. The decoder is the published one. Against an encoder written from the operations and the published
    length and cycle tables: every operation and choice of operands that has an opcode is what the tables
    decode from that opcode, on the primary page and on the CB page; conversely every byte the primary table
    defines is the opcode of its operation and has the published length, M-cycles and taken M-cycles, and so
    has every byte of the CB page; a byte is undefined exactly when no operation has it as opcode and no length
    is published; and the opcode bytes an instruction reports are its own. *)
Theorem decode_encode_roundtrip :
  (∀ o byte, Manual.primary o = Some byte →
     is_u8 byte ∧ ∃ i, decode_primary byte = Classified.Defined_ i ∧ operation i = o) ∧
  (∀ o byte, Manual.prefixed o = Some byte → is_u8 byte ∧ operation (decode_cb byte) = o) ∧
  (∀ byte, is_u8 byte →
     match decode_primary byte with
     | Classified.Defined_ i =>
         Manual.primary (operation i) = Some byte ∧ encoded_opcode i = ([byte; 0], 1) ∧
         Manual.lengths !! Z.to_nat byte = Some (byte_len i) ∧ 0 < byte_len i ∧
         Manual.cycles !! Z.to_nat byte = Some (base_m_cycles (timing i)) ∧
         taken_m_cycles (timing i) = Manual.taken_cycles byte
     | Classified.Undefined u =>
         u = MkUndefined byte ∧ Manual.lengths !! Z.to_nat byte = Some 0 ∧ ∀ o, Manual.primary o ≠ Some byte
     end) ∧
  (∀ byte, is_u8 byte →
     let i := decode_cb byte in
     Manual.prefixed (operation i) = Some byte ∧ encoded_opcode i = ([0xcb; byte], 2) ∧ byte_len i = 2 ∧
     Manual.cb_cycles !! Z.to_nat byte = Some (base_m_cycles (timing i)) ∧ taken_m_cycles (timing i) = None).
Proof.
  split; [apply primary_decodes |]. split; [apply prefixed_decodes |]. split; intros byte Hb.
  - destruct (byte_published byte Hb) as [Hp _]. unfold published_primary in Hp.
    destruct (decode_primary byte) as [i | u] eqn:E; rewrite !andb_true_iff, !bool_decide_eq_true in Hp.
    + destruct Hp as (((((He & Ho) & Hl) & Hpos) & Hc) & Ht). unfold encoded_opcode. rewrite He.
      split; [done |]. split; [done |]. split; [done |]. split; [lia | done].
    + destruct Hp as [Hu Hl]. split; [destruct u; cbn in Hu; f_equal; lia |]. split; [done |].
      intros o (_ & i & Hi & _)%primary_decodes. by rewrite E in Hi.
  - destruct (byte_published byte Hb) as [_ Hp]. unfold published_cb in Hp.
    rewrite !andb_true_iff, !bool_decide_eq_true in Hp. destruct Hp as ((((He & Ho) & Hl) & Hc) & Ht).
    cbv zeta. unfold encoded_opcode. rewrite He. split; [done |]. split; [done |]. split; [lia | done].
Qed.
(** [LD (HL),A] and [BIT 7,(HL)]. *)
Lemma decode_encode_roundtrip_witness :
  (is_u8 0x77 ∧ ∃ i, decode_primary 0x77 = Classified.Defined_ i ∧
     operation i = Op.Load8 Opd.IndirectHl (Opd.Register R8.A)) ∧
  (is_u8 0x7e ∧ operation (decode_cb 0x7e) = Op.Cb (CbOp.TestBit 7) Opd.IndirectHl).
Proof.
  destruct decode_encode_roundtrip as (Hprimary & Hprefixed & _). split.
  - exact (Hprimary (Op.Load8 Opd.IndirectHl (Opd.Register R8.A)) 0x77 eq_refl).
  - exact (Hprefixed (Op.Cb (CbOp.TestBit 7) Opd.IndirectHl) 0x7e eq_refl).
Defined.

(** The semantic descriptor identifies the instruction: two defined instructions with the same
    operation code and operand codes are the same table row, opcode bytes included. *)
Theorem descriptor_identifies i j :
  defined_instruction i → defined_instruction j →
  descriptor (operation i) = descriptor (operation j) → i = j.
Proof. apply descriptor_identifies_defined. Qed.

Lemma descriptor_identifies_witness :
  defined_instruction (decode_cb 64) ∧ decode_cb 64 = decode_cb 64.
Proof.
  assert (H : defined_instruction (decode_cb 64)) by (right; exists 64; split; [lia | done]).
  split; [done | apply (descriptor_identifies (decode_cb 64) (decode_cb 64)); done].
Defined.

(** Timing and bus metadata agree: the encoded length is the number of authenticated fetches
    and immediate reads, and every instruction but STOP has at least one M-cycle for each of its
    bus accesses, on both the untaken and the taken path. *)
Theorem bus_accesses_fit_timing i :
  defined_instruction i →
  byte_len i = opcode_fetches (bus i) + immediate_reads (bus i) ∧
  (operation i ≠ Op.Stop →
   base_accesses (bus i) <= base_m_cycles (timing i) ∧
   taken_accesses (bus i) <= default (base_m_cycles (timing i)) (taken_m_cycles (timing i))).
Proof.
  intros Hi.
  pose proof (defined_forall _ all_accesses_fit i Hi) as H. unfold accesses_fit in H.
  rewrite andb_true_iff, orb_true_iff, andb_true_iff, bool_decide_eq_true in H.
  rewrite Z.eqb_eq, !Z.leb_le in H. tauto.
Qed.

Lemma bus_accesses_fit_timing_witness :
  defined_instruction (decode_cb 70) ∧
  byte_len (decode_cb 70) = opcode_fetches (bus (decode_cb 70)) + immediate_reads (bus (decode_cb 70)) ∧
  (operation (decode_cb 70) ≠ Op.Stop →
   base_accesses (bus (decode_cb 70)) <= base_m_cycles (timing (decode_cb 70)) ∧
   taken_accesses (bus (decode_cb 70)) <=
   default (base_m_cycles (timing (decode_cb 70))) (taken_m_cycles (timing (decode_cb 70)))).
Proof.
  assert (H : defined_instruction (decode_cb 70)) by (right; exists 70; split; [lia | done]).
  split; [done | apply (bus_accesses_fit_timing (decode_cb 70)); done].
Defined.
