(* ===== verification/Alignment.v ===== *)
(** * Instruction set: alignment rows (crates/zksm83-isa/src/alignment.rs)

    Every decoded instruction becomes a row of the proof table. [packed] concatenates the row's 19
    fields into one 106-bit number, each field in a fixed number of bits. *)
From S2P Require Import Prelude IsaTypes Metadata Decode.

Definition ALIGNMENT_ROW_COUNT : Z := 501.

Record AlignmentKey := MkKey { key_prefix : Z; key_opcode : Z }.

Module Pcr.
Inductive ProgramCounterRule :=
| Sequential | Relative | Absolute | IndirectHl | Call | Return | Restart.
End Pcr.

Definition pc_rule_code (r : Pcr.ProgramCounterRule) : Z :=
  match r with
  | Pcr.Sequential => 0 | Pcr.Relative => 1 | Pcr.Absolute => 2 | Pcr.IndirectHl => 3
  | Pcr.Call => 4 | Pcr.Return => 5 | Pcr.Restart => 6
  end.

Record AlignedInstruction := MkAligned {
  a_key : AlignmentKey;
  a_family_id : Z;
  a_operation : Z;
  a_argument_zero : Z;
  a_argument_one : Z;
  a_byte_len : Z;
  a_base_m_cycles : Z;
  a_taken_m_cycles : Z;
  a_pc_rule : Z;
  a_flag_rule : Z;
  a_register_reads : Z;
  a_register_writes : Z;
  a_opcode_fetches : Z;
  a_immediate_reads : Z;
  a_data_reads : Z;
  a_data_writes : Z;
  a_taken_data_reads : Z;
  a_taken_data_writes : Z
}.

Definition flag_action_code (a : FA.FlagAction) : Z :=
  match a with FA.Preserve => 0 | FA.Clear => 1 | FA.Set_ => 2 | FA.Derived => 3 end.

Definition pc_rule (o : Op.Operation) : Pcr.ProgramCounterRule :=
  match o with
  | Op.RelativeJump _ => Pcr.Relative
  | Op.Jump _ => Pcr.Absolute
  | Op.JumpHl => Pcr.IndirectHl
  | Op.Call _ => Pcr.Call
  | Op.Return _ | Op.ReturnFromInterrupt => Pcr.Return
  | Op.Restart _ => Pcr.Restart
  | _ => Pcr.Sequential
  end.

(** One component of the fold that rebuilds the two register masks in table order. *)
Definition mask_step (access : StateAccess) (acc : Z * Z) (entry : nat * SC.StateComponent) :
    Z * Z :=
  let bit := Z.shiftl 1 (Z.of_nat entry.1) in
  (if reads access entry.2 then Z.lor acc.1 bit else acc.1,
   if writes access entry.2 then Z.lor acc.2 bit else acc.2).

Definition from_decoded (i : DecodedInstruction) : AlignedInstruction :=
  let key :=
    match encoding i with
    | Enc.Primary opcode => MkKey 0 (opcode_byte opcode)
    | Enc.Cb opcode => MkKey 1 (cb_byte opcode)
    end in
  let d := descriptor (operation i) in
  let access := state_access i in
  let '(register_reads, register_writes) :=
    foldl (mask_step access) (0, 0) (zip (seq 0%nat (length all_components)) all_components) in
  let f := flags_effect i in
  {| a_key := key;
     a_family_id := class_code (class i);
     a_operation := d_operation d;
     a_argument_zero := argument_zero d;
     a_argument_one := argument_one d;
     a_byte_len := byte_len i;
     a_base_m_cycles := base_m_cycles (timing i);
     a_taken_m_cycles := default 0 (taken_m_cycles (timing i));
     a_pc_rule := pc_rule_code (pc_rule (operation i));
     a_flag_rule :=
       Z.lor (Z.lor (Z.lor (flag_action_code (fe_zero f))
         (w8 (Z.shiftl (flag_action_code (fe_subtract f)) 2)))
         (w8 (Z.shiftl (flag_action_code (fe_half_carry f)) 4)))
         (w8 (Z.shiftl (flag_action_code (fe_carry f)) 6));
     a_register_reads := register_reads;
     a_register_writes := register_writes;
     a_opcode_fetches := opcode_fetches (bus i);
     a_immediate_reads := immediate_reads (bus i);
     a_data_reads := data_reads (bus i);
     a_data_writes := data_writes (bus i);
     a_taken_data_reads := taken_data_reads (bus i);
     a_taken_data_writes := taken_data_writes (bus i) |}.

Definition all_rows : list AlignedInstruction :=
  omap (λ entry, match entry with
                 | Classified.Defined_ i => Some (from_decoded i)
                 | Classified.Undefined _ => None
                 end) primary_entries
  ++ (from_decoded <$> cb_entries).

Record AlignmentPackingError := MkPackingError {
  pe_field : string;
  pe_value : Z;
  pe_bits : Z
}.

Definition append_packed (acc : Z * Z) (entry : string * Z * Z) :
    result AlignmentPackingError (Z * Z) :=
  let '(packed, shift) := acc in
  let '(field, value, bits) := entry in
  let limit := if bits <? 64 then Z.shiftl 1 bits else 0 in
  if (limit <=? value) || (128 <? shift + bits) then Err (MkPackingError field value bits)
  else Ok (Z.lor packed (Z.shiftl value shift mod 2 ^ 128), Z.min 255 (shift + bits)).

Fixpoint append_all (acc : Z * Z) (entries : list (string * Z * Z)) :
    result AlignmentPackingError (Z * Z) :=
  match entries with
  | [] => Ok acc
  | entry :: entries => acc ← append_packed acc entry; append_all acc entries
  end.

Definition row_fields (r : AlignedInstruction) : list (string * Z * Z) :=
  [("prefix"%string, key_prefix (a_key r), 1);
   ("opcode"%string, key_opcode (a_key r), 8);
   ("family_id"%string, a_family_id r, 8);
   ("operation"%string, a_operation r, 8);
   ("argument_zero"%string, a_argument_zero r, 8);
   ("argument_one"%string, a_argument_one r, 8);
   ("byte_len"%string, a_byte_len r, 2);
   ("base_m_cycles"%string, a_base_m_cycles r, 4);
   ("taken_m_cycles"%string, a_taken_m_cycles r, 4);
   ("pc_rule"%string, a_pc_rule r, 3);
   ("flag_rule"%string, a_flag_rule r, 8);
   ("register_reads"%string, a_register_reads r, 16);
   ("register_writes"%string, a_register_writes r, 16);
   ("opcode_fetches"%string, a_opcode_fetches r, 2);
   ("immediate_reads"%string, a_immediate_reads r, 2);
   ("data_reads"%string, a_data_reads r, 2);
   ("data_writes"%string, a_data_writes r, 2);
   ("taken_data_reads"%string, a_taken_data_reads r, 2);
   ("taken_data_writes"%string, a_taken_data_writes r, 2)].

Definition packed (r : AlignedInstruction) : result AlignmentPackingError Z :=
  acc ← append_all (0, 0) (row_fields r); Ok acc.1.

(** ** Packing *)

(** The entries as a mixed-radix number: the first entry is the least significant. *)
Fixpoint radix_value (entries : list (string * Z * Z)) : Z :=
  match entries with
  | [] => 0
  | (_, value, bits) :: entries => value + 2 ^ bits * radix_value entries
  end.
Fixpoint total_bits (entries : list (string * Z * Z)) : Z :=
  match entries with
  | [] => 0
  | (_, _, bits) :: entries => bits + total_bits entries
  end.

Definition entry_unsigned (e : string * Z * Z) : Prop := 0 <= e.1.2 ∧ 0 <= e.2 < 64.
Definition same_layout (l1 l2 : list (string * Z * Z)) : Prop := snd <$> l1 = snd <$> l2.

(** A row as its Rust type allows it: every field unsigned. *)
Definition row_unsigned (r : AlignedInstruction) : Prop := Forall (λ e, 0 <= e.1.2) (row_fields r).

Lemma append_packed_ok packed shift field value bits acc :
  0 <= shift → 0 <= packed < 2 ^ shift → 0 <= value → 0 <= bits < 64 →
  append_packed (packed, shift) (field, value, bits) = Ok acc →
  value < 2 ^ bits ∧ acc = (packed + value * 2 ^ shift, shift + bits) ∧
  packed + value * 2 ^ shift < 2 ^ (shift + bits).
Proof.
  intros Hs Hp Hv Hb. unfold append_packed.
  destruct (Z.ltb_spec bits 64); [| lia]. rewrite Z.shiftl_1_l.
  destruct ((2 ^ bits <=? value) || (128 <? shift + bits)) eqn:E; [done |].
  apply orb_false_iff in E as [?%Z.leb_gt ?%Z.ltb_ge]. intros [= <-].
  assert (Hlt : packed + value * 2 ^ shift < 2 ^ (shift + bits)).
  { rewrite Z.pow_add_r by lia. nia. }
  assert (2 ^ (shift + bits) <= 2 ^ 128) by (apply Z.pow_le_mono_r; lia).
  rewrite Z.mod_small by (rewrite Z.shiftl_mul_pow2 by lia; nia).
  rewrite lor_shiftl_add_r by lia. split; [lia |]. split; [| done]. f_equal. lia.
Qed.

Lemma append_all_ok entries packed shift acc :
  Forall entry_unsigned entries → 0 <= shift → 0 <= packed < 2 ^ shift →
  append_all (packed, shift) entries = Ok acc →
  acc.1 = packed + 2 ^ shift * radix_value entries ∧ acc.2 = shift + total_bits entries ∧
  Forall (λ e, e.1.2 < 2 ^ e.2) entries ∧ 0 <= acc.1 < 2 ^ acc.2.
Proof.
  revert packed shift. induction entries as [|[[f v] b] entries IH]; intros p s Hu Hs Hp; cbn.
  { intros [= <-]. cbn. rewrite Z.mul_0_r, !Z.add_0_r. repeat split; auto; lia. }
  apply Forall_cons in Hu as [[Hv Hb] Hu]. cbn in Hv, Hb. intros H.
  apply bind_ok in H as (acc1 & H1 & H2).
  apply append_packed_ok in H1 as (Hlt & -> & Hbound); [| done..].
  apply IH in H2 as (E1 & E2 & HF & HB); [| done | lia | nia].
  rewrite E1, E2, Z.pow_add_r by lia. split; [ring |]. split; [ring |].
  rewrite E1, E2, Z.pow_add_r in HB by lia. split; [by constructor |]. exact HB.
Qed.

Lemma radix_value_inj l1 l2 :
  same_layout l1 l2 → Forall entry_unsigned l1 → Forall entry_unsigned l2 →
  Forall (λ e, e.1.2 < 2 ^ e.2) l1 → Forall (λ e, e.1.2 < 2 ^ e.2) l2 →
  radix_value l1 = radix_value l2 → (λ e, e.1.2) <$> l1 = (λ e, e.1.2) <$> l2.
Proof.
  revert l2. induction l1 as [|[[f1 v1] b1] l1 IH]; intros [|[[f2 v2] b2] l2] HL; try done.
  injection HL as -> HL. intros [[Hv1 Hb] U1]%Forall_cons [[Hv2 _] U2]%Forall_cons
    [Hl1 L1]%Forall_cons [Hl2 L2]%Forall_cons. cbn in *. intros E.
  assert (0 < 2 ^ b2) by lia.
  assert (v1 = v2).
  { apply (f_equal (λ z, z mod 2 ^ b2)) in E.
    rewrite !(Z.mul_comm (2 ^ b2)), !Z.mod_add, !Z.mod_small in E by lia. done. }
  subst. f_equal. apply IH; auto. nia.
Qed.

Lemma row_entries_unsigned r : row_unsigned r → Forall entry_unsigned (row_fields r).
Proof.
  intros H. apply Forall_forall. intros e He. split.
  - by apply (proj1 (Forall_forall _ _) H).
  - assert (Hb : forallb (λ b, (0 <=? b) && (b <? 64)) (snd <$> row_fields r) = true) by done.
    rewrite forallb_forall in Hb. specialize (Hb e.2). rewrite <- list_elem_of_In in Hb.
    specialize (Hb (list_elem_of_fmap_2 _ _ _ He)). lia.
Qed.

Lemma row_descriptor i :
  MkDescriptor (a_operation (from_decoded i)) (a_argument_zero (from_decoded i))
    (a_argument_one (from_decoded i)) = descriptor (operation i).
Proof. unfold from_decoded. destruct (foldl _ _ _). by destruct (descriptor _). Qed.

Definition row_fits (r : AlignedInstruction) : bool :=
  forallb (λ e : string * Z * Z, 0 <=? e.1.2) (row_fields r) && is_ok (packed r).

Lemma all_rows_fit : forallb row_fits (from_decoded <$> all_defined) = true.
Proof. vm_compute. reflexivity. Qed.

Lemma row_fits_spec r : row_fits r = true → row_unsigned r ∧ ∃ p, packed r = Ok p.
Proof.
  unfold row_fits, row_unsigned. generalize (row_fields r), (packed r). intros fields res.
  rewrite andb_true_iff, forallb_forall, is_ok_spec. intros [H ?]. split; [| done].
  apply Forall_forall. intros e He. apply Z.leb_le, H. by apply list_elem_of_In.
Qed.

Lemma defined_row_fits i :
  defined_instruction i → row_unsigned (from_decoded i) ∧ ∃ p, packed (from_decoded i) = Ok p.
Proof. intros Hi. exact (row_fits_spec _ (defined_forall_map _ _ all_rows_fit i Hi)). Qed.

Lemma packed_bound r p : row_unsigned r → packed r = Ok p → 0 <= p < 2 ^ 106.
Proof.
  intros Hu. unfold packed. intros H. apply bind_ok in H as (acc & H & [= <-]).
  apply append_all_ok in H as (_ & E & _ & B); [| by apply row_entries_unsigned | lia | lia].
  rewrite E in B. exact B.
Qed.

Lemma packed_row_injective r1 r2 p :
  row_unsigned r1 → row_unsigned r2 → packed r1 = Ok p → packed r2 = Ok p →
  r1 = r2 ∧ 0 <= p < 2 ^ 106.
Proof.
intros H1 H2 P1 P2. split; [| by apply (packed_bound r1)].
  unfold packed in P1, P2.
  apply bind_ok in P1 as (a1 & A1 & E1), P2 as (a2 & A2 & E2).
  apply append_all_ok in A1 as (V1 & _ & F1 & _); [| by apply row_entries_unsigned | lia | lia].
  apply append_all_ok in A2 as (V2 & _ & F2 & _); [| by apply row_entries_unsigned | lia | lia].
  assert (HV : (λ e : string * Z * Z, e.1.2) <$> row_fields r1 =
               (λ e : string * Z * Z, e.1.2) <$> row_fields r2).
  { apply radix_value_inj; try done; try by apply row_entries_unsigned.
    injection E1. injection E2. lia. }
  clear -HV. destruct r1 as [[] ? ? ? ? ? ? ? ? ? ? ? ? ? ? ? ? ?],
    r2 as [[] ? ? ? ? ? ? ? ? ? ? ? ? ? ? ? ? ?].
  cbn in HV. by simplify_eq.
Qed.

(** The packed row is a collision-free 106-bit code: two rows with the same packed number are
    equal in every one of their 19 fields, whatever rows they are. *)
Theorem packed_injective r1 r2 p :
  row_unsigned r1 → row_unsigned r2 → packed r1 = Ok p → packed r2 = Ok p →
  r1 = r2 ∧ 0 <= p < 2 ^ 106.
Proof.
  apply packed_row_injective.
Qed.

Lemma packed_injective_witness :
  ∃ p, packed (from_decoded (decode_cb 70)) = Ok p ∧
    from_decoded (decode_cb 70) = from_decoded (decode_cb 70) ∧ 0 <= p < 2 ^ 106.
Proof.
  assert (Hd : defined_instruction (decode_cb 70)) by (right; exists 70; split; [lia | done]).
  destruct (defined_row_fits _ Hd) as [Hu [p Hp]]. exists p. split; [exact Hp |].
  exact (packed_injective _ _ p Hu Hu Hp Hp).
Defined.

Lemma defined_row_injective i j p :
  defined_instruction i → defined_instruction j →
  packed (from_decoded i) = Ok p → packed (from_decoded j) = Ok p → j = i.
Proof.
  intros Hi Hj Hp Hpj.
  destruct (packed_row_injective _ _ p (proj1 (defined_row_fits j Hj)) (proj1 (defined_row_fits i Hi)) Hpj Hp)
    as [E _].
  apply (descriptor_identifies_defined j i Hj Hi). by rewrite <- !row_descriptor, E.
Qed.

(** C39. Every instruction the decoder can produce packs without error, and its packed row
    determines the instruction: the ISA transcript commits to the decoded instruction itself. *)
Theorem decoded_rows_pack i :
  defined_instruction i →
  ∃ p, packed (from_decoded i) = Ok p ∧ 0 <= p < 2 ^ 106 ∧
    ∀ j, defined_instruction j → packed (from_decoded j) = Ok p → j = i.
Proof.
  intros Hi. destruct (defined_row_fits i Hi) as [Hu [p Hp]].
  exists p. split; [exact Hp |]. split; [exact (packed_bound _ _ Hu Hp) |].
  intros j Hj Hpj. by apply (defined_row_injective i j p).
Qed.

Lemma decoded_rows_pack_witness :
  ∃ p, packed (from_decoded (decode_cb 70)) = Ok p ∧ 0 <= p < 2 ^ 106 ∧
    ∀ j, defined_instruction j → packed (from_decoded j) = Ok p → j = decode_cb 70.
Proof. apply (decoded_rows_pack (decode_cb 70)). right. exists 70. split; [lia | done]. Defined.
