(* ===== verification/ExecPlan.v ===== *)
(** * Instruction set: execution-table routing (crates/zksm83-isa/src/execution_lookup.rs) *)
From S2P Require Import Prelude IsaTypes.

Module Tbl.
Inductive ExecutionLookupTable :=
| Add8 | Subtract8 | And8 | Xor8 | Or8 | Increment8 | Decrement8 | RotateShift8
| DecimalAdjust8 | TestBit8 | ResetBit8 | SetBit8 | Condition.
End Tbl.

Definition ALL_TABLES : list Tbl.ExecutionLookupTable :=
  [Tbl.Add8; Tbl.Subtract8; Tbl.And8; Tbl.Xor8; Tbl.Or8; Tbl.Increment8; Tbl.Decrement8;
   Tbl.RotateShift8; Tbl.DecimalAdjust8; Tbl.TestBit8; Tbl.ResetBit8; Tbl.SetBit8;
   Tbl.Condition].

Definition table_code (t : Tbl.ExecutionLookupTable) : Z :=
  match t with
  | Tbl.Add8 => 1 | Tbl.Subtract8 => 2 | Tbl.And8 => 3 | Tbl.Xor8 => 4 | Tbl.Or8 => 5
  | Tbl.Increment8 => 6 | Tbl.Decrement8 => 7 | Tbl.RotateShift8 => 8
  | Tbl.DecimalAdjust8 => 9 | Tbl.TestBit8 => 10 | Tbl.ResetBit8 => 11 | Tbl.SetBit8 => 12
  | Tbl.Condition => 13
  end.

Definition input_bit_count (t : Tbl.ExecutionLookupTable) : Z :=
  match t with
  | Tbl.Add8 | Tbl.Subtract8 => 17
  | Tbl.And8 | Tbl.Xor8 | Tbl.Or8 => 16
  | Tbl.Increment8 | Tbl.Decrement8 => 9
  | Tbl.RotateShift8 => 13
  | Tbl.DecimalAdjust8 => 12
  | Tbl.TestBit8 => 12
  | Tbl.ResetBit8 | Tbl.SetBit8 => 11
  | Tbl.Condition => 6
  end.

Definition packed_offset (t : Tbl.ExecutionLookupTable) : Z :=
  match t with
  | Tbl.Add8 => 0
  | Tbl.Subtract8 => 131072
  | Tbl.And8 => 262144
  | Tbl.Xor8 => 327680
  | Tbl.Or8 => 393216
  | Tbl.Increment8 => 479232
  | Tbl.Decrement8 => 480256
  | Tbl.RotateShift8 => 458752
  | Tbl.DecimalAdjust8 => 466944
  | Tbl.TestBit8 => 471040
  | Tbl.ResetBit8 => 475136
  | Tbl.SetBit8 => 477184
  | Tbl.Condition => 481280
  end.

Definition row_count (t : Tbl.ExecutionLookupTable) : Z := Z.shiftl 1 (input_bit_count t).

Module Plan.
Inductive ExecutionProofPlan :=
| GlueOnly
| Lookup (t : Tbl.ExecutionLookupTable)
| DoubleLookup (t : Tbl.ExecutionLookupTable).
End Plan.

Definition lookup_table (p : Plan.ExecutionProofPlan) : option Tbl.ExecutionLookupTable :=
  match p with
  | Plan.GlueOnly => None
  | Plan.Lookup t | Plan.DoubleLookup t => Some t
  end.

Definition lookup_count (p : Plan.ExecutionProofPlan) : Z :=
  match p with Plan.GlueOnly => 0 | Plan.Lookup _ => 1 | Plan.DoubleLookup _ => 2 end.

Definition alu_lookup_table (a : AluOp.AluOperation) : Tbl.ExecutionLookupTable :=
  match a with
  | AluOp.Add | AluOp.AddCarry => Tbl.Add8
  | AluOp.Subtract | AluOp.SubtractCarry | AluOp.Compare => Tbl.Subtract8
  | AluOp.And => Tbl.And8
  | AluOp.Xor => Tbl.Xor8
  | AluOp.Or => Tbl.Or8
  end.

Definition cb_lookup_table (c : CbOp.CbOperation) : Tbl.ExecutionLookupTable :=
  match c with
  | CbOp.RotateLeftCircular | CbOp.RotateRightCircular | CbOp.RotateLeft | CbOp.RotateRight
  | CbOp.ShiftLeftArithmetic | CbOp.ShiftRightArithmetic | CbOp.SwapNibbles
  | CbOp.ShiftRightLogical => Tbl.RotateShift8
  | CbOp.TestBit _ => Tbl.TestBit8
  | CbOp.ResetBit _ => Tbl.ResetBit8
  | CbOp.SetBit _ => Tbl.SetBit8
  end.

Definition execution_proof_plan (o : Op.Operation) : Plan.ExecutionProofPlan :=
  match o with
  | Op.AddHl _ => Plan.DoubleLookup Tbl.Add8
  | Op.Increment8 _ => Plan.Lookup Tbl.Increment8
  | Op.Decrement8 _ => Plan.Lookup Tbl.Decrement8
  | Op.RotateAccumulator _ => Plan.Lookup Tbl.RotateShift8
  | Op.DecimalAdjust => Plan.Lookup Tbl.DecimalAdjust8
  | Op.Alu8 alu _ => Plan.Lookup (alu_lookup_table alu)
  | Op.AddSpOffset | Op.LoadHlSpOffset => Plan.DoubleLookup Tbl.Add8
  | Op.RelativeJump (Some _) | Op.Return (Some _) | Op.Jump (Some _) | Op.Call (Some _) =>
      Plan.Lookup Tbl.Condition
  | Op.Cb cb _ => Plan.Lookup (cb_lookup_table cb)
  | _ => Plan.GlueOnly
  end.

Global Instance table_eq_dec : EqDecision Tbl.ExecutionLookupTable.
Proof. solve_decision. Defined.

(** ** The compact 19-bit domain *)

Lemma tables_exhaustive t : t ∈ ALL_TABLES.
Proof. destruct t; unfold ALL_TABLES; set_solver. Qed.

Lemma row_count_pow2 t : row_count t = 2 ^ input_bit_count t.
Proof. by destruct t. Qed.

(** The thirteen execution tables occupy pairwise disjoint ranges of the 19-bit domain, each
    range aligned to the table's own size, so that a packed address determines both its table and
    its row: two rows of any tables with the same packed address are the same row. *)
Theorem packed_address_injective t1 t2 i1 i2 :
  0 <= i1 < row_count t1 → 0 <= i2 < row_count t2 →
  packed_offset t1 + i1 = packed_offset t2 + i2 →
  t1 = t2 ∧ i1 = i2 ∧ packed_offset t1 + i1 < 2 ^ 19 ∧ packed_offset t1 mod row_count t1 = 0.
Proof.
  rewrite !row_count_pow2.
  destruct t1, t2; cbn; intros; try lia; repeat split; lia || reflexivity.
Qed.

Lemma packed_address_injective_witness :
  Tbl.And8 = Tbl.And8 ∧ 65535 = 65535 ∧ packed_offset Tbl.And8 + 65535 < 2 ^ 19 ∧
  packed_offset Tbl.And8 mod row_count Tbl.And8 = 0.
Proof.
  apply (packed_address_injective Tbl.And8 Tbl.And8 65535 65535); vm_compute; intuition congruence.
Defined.
