(* ===== verification/Flags.v ===== *)
(** * The flag register (crates/zksm83-core/src/state.rs, [Flags])

    The encoded F register with its four flag bits and a low nibble that is always zero. *)
From S2P Require Import Prelude.

Record Flags := MkFlags { flags_byte : Z }.

Definition ZERO_MASK : Z := 128.
Definition SUBTRACT_MASK : Z := 64.
Definition HALF_CARRY_MASK : Z := 32.
Definition CARRY_MASK : Z := 16.

(** The only way [Flags::from_byte] fails: [VmStateError::InvalidFlags]. *)
Inductive FlagsError := InvalidFlags (value : Z).

Definition from_byte (value : Z) : result FlagsError Flags :=
  if negb (Z.land value 15 =? 0) then Err (InvalidFlags value) else Ok (MkFlags value).

Definition bool_mask (value : bool) (mask : Z) : Z := if value then mask else 0.

Definition from_bits (zero subtract half_carry carry : bool) : Flags :=
  MkFlags (Z.lor (Z.lor (Z.lor (bool_mask zero ZERO_MASK) (bool_mask subtract SUBTRACT_MASK))
                        (bool_mask half_carry HALF_CARRY_MASK))
                 (bool_mask carry CARRY_MASK)).

Definition f_zero (f : Flags) : bool := tst (flags_byte f) ZERO_MASK.
Definition f_subtract (f : Flags) : bool := tst (flags_byte f) SUBTRACT_MASK.
Definition f_half_carry (f : Flags) : bool := tst (flags_byte f) HALF_CARRY_MASK.
Definition f_carry (f : Flags) : bool := tst (flags_byte f) CARRY_MASK.

Global Instance flags_eq_dec : EqDecision Flags.
Proof. solve_decision. Defined.

(** ** The flag invariant *)

(** A byte whose low nibble is zero: every value [from_byte] accepts. *)
Definition flags_ok (f : Flags) : Prop := is_u8 (flags_byte f) ∧ Z.land (flags_byte f) 15 = 0.

Lemma f_zero_from_bits z n h c : f_zero (from_bits z n h c) = z.
Proof. by destruct z, n, h, c. Qed.
Lemma f_subtract_from_bits z n h c : f_subtract (from_bits z n h c) = n.
Proof. by destruct z, n, h, c. Qed.
Lemma f_half_carry_from_bits z n h c : f_half_carry (from_bits z n h c) = h.
Proof. by destruct z, n, h, c. Qed.
Lemma f_carry_from_bits z n h c : f_carry (from_bits z n h c) = c.
Proof. by destruct z, n, h, c. Qed.

Create Rewrite HintDb flags.
#[export] Hint Rewrite f_zero_from_bits f_subtract_from_bits f_half_carry_from_bits
  f_carry_from_bits : flags.

Lemma from_bits_ok z n h c : flags_ok (from_bits z n h c).
Proof. by destruct z, n, h, c. Qed.
#[export] Hint Resolve from_bits_ok : bounds.

Definition rebuild_flags (f : Flags) : Flags :=
  from_bits (f_zero f) (f_subtract f) (f_half_carry f) (f_carry f).

Definition rebuilds (b : Z) : bool :=
  implb (Z.land b 15 =? 0) (flags_byte (rebuild_flags (MkFlags b)) =? b).

Lemma all_rebuild : forallb rebuilds (seqZ 0 256) = true.
Proof. vm_compute. reflexivity. Qed.

Lemma from_bits_of_flags f : flags_ok f → rebuild_flags f = f.
Proof.
  intros [Hb Hn]. pose proof (forallb_bytes _ all_rebuild _ Hb) as H. unfold rebuilds in H.
  rewrite Hn in H. cbn [implb] in H. apply Z.eqb_eq in H. destruct f as [b]. cbn [flags_byte] in H.
  destruct (rebuild_flags (MkFlags b)). by rewrite <- H.
Qed.

(** Two valid flag registers with the same four flags are equal. *)
Lemma flags_ext f g :
  flags_ok f → flags_ok g → f_zero f = f_zero g → f_subtract f = f_subtract g →
  f_half_carry f = f_half_carry g → f_carry f = f_carry g → f = g.
Proof.
  intros Hf Hg Hz Hs Hh Hc. rewrite <- (from_bits_of_flags f), <- (from_bits_of_flags g) by done.
  unfold rebuild_flags. by rewrite Hz, Hs, Hh, Hc.
Qed.
