(* ===== verification/Alu.v ===== *)
(** * Arithmetic and flag relations (crates/zksm83-core/src/alu.rs) *)
From S2P Require Import Prelude IsaTypes Flags.

Record ByteResult := MkByteResult { br_value : Z; br_flags : Flags }.

(** [u8::overflowing_add] and [u8::overflowing_sub]. *)
Definition overflowing_add8 (a b : Z) : Z * bool := (w8 (a + b), 255 <? a + b).
Definition overflowing_sub8 (a b : Z) : Z * bool := (w8 (a - b), a <? b).

Definition increment (value : Z) (before : Flags) : ByteResult :=
  let r := w8 (value + 1) in
  MkByteResult r (from_bits (r =? 0) false (Z.land value 15 =? 15) (f_carry before)).

Definition decrement (value : Z) (before : Flags) : ByteResult :=
  let r := w8 (value - 1) in
  MkByteResult r (from_bits (r =? 0) true (Z.land value 15 =? 0) (f_carry before)).

Definition add_hl (left right : Z) (before : Flags) : Z * Flags :=
  let r := w16 (left + right) in
  let half_carry := 4095 <? Z.land left 4095 + Z.land right 4095 in
  let carry := 65535 <? left + right in
  (r, from_bits (f_zero before) false half_carry carry).

Definition add_signed_to_sp (sp encoded_offset : Z) : Z * Flags :=
  let signed := i8_of encoded_offset in
  let r := w16 (sp + signed) in
  let half_carry := 15 <? Z.land sp 15 + Z.land encoded_offset 15 in
  let carry := 255 <? Z.land sp 255 + encoded_offset in
  (r, from_bits false false half_carry carry).

Definition add (left right : Z) (carry_in : bool) : ByteResult :=
  let carry_byte := b2z carry_in in
  let '(partial, first_carry) := overflowing_add8 left right in
  let '(value, second_carry) := overflowing_add8 partial carry_byte in
  let half_carry := 15 <? Z.land left 15 + Z.land right 15 + carry_byte in
  MkByteResult value (from_bits (value =? 0) false half_carry (first_carry || second_carry)).

Definition subtract (left right : Z) (carry_in : bool) : ByteResult :=
  let carry_byte := b2z carry_in in
  let '(partial, first_borrow) := overflowing_sub8 left right in
  let '(value, second_borrow) := overflowing_sub8 partial carry_byte in
  let half_borrow := Z.land left 15 <? Z.land right 15 + carry_byte in
  MkByteResult value (from_bits (value =? 0) true half_borrow (first_borrow || second_borrow)).

Definition logical (value : Z) (half_carry : bool) : ByteResult :=
  MkByteResult value (from_bits (value =? 0) false half_carry false).

Definition apply_alu (operation : AluOp.AluOperation) (accumulator operand : Z) (before : Flags) :
    ByteResult :=
  match operation with
  | AluOp.Add => add accumulator operand false
  | AluOp.AddCarry => add accumulator operand (f_carry before)
  | AluOp.Subtract => subtract accumulator operand false
  | AluOp.SubtractCarry => subtract accumulator operand (f_carry before)
  | AluOp.And => logical (Z.land accumulator operand) true
  | AluOp.Xor => logical (Z.lxor accumulator operand) false
  | AluOp.Or => logical (Z.lor accumulator operand) false
  | AluOp.Compare => subtract accumulator operand false
  end.

(** [u8::rotate_left]. *)
Definition rotate_left8 (value n : Z) : Z :=
  Z.lor (w8 (Z.shiftl value n)) (Z.shiftr value (8 - n)).
Definition rotate_right8 (value n : Z) : Z :=
  Z.lor (Z.shiftr value n) (w8 (Z.shiftl value (8 - n))).

Definition rotate_shift (operation : CbOp.CbOperation) (value : Z) (carry_in zero_from_result : bool)
    : option ByteResult :=
  let finish '(r, carry) :=
    Some (MkByteResult r (from_bits (zero_from_result && (r =? 0)) false false carry)) in
  match operation with
  | CbOp.RotateLeftCircular => finish (rotate_left8 value 1, tst value 128)
  | CbOp.RotateRightCircular => finish (rotate_right8 value 1, tst value 1)
  | CbOp.RotateLeft => finish (Z.lor (w8 (Z.shiftl value 1)) (b2z carry_in), tst value 128)
  | CbOp.RotateRight =>
      finish (Z.lor (Z.shiftr value 1) (w8 (Z.shiftl (b2z carry_in) 7)), tst value 1)
  | CbOp.ShiftLeftArithmetic => finish (w8 (Z.shiftl value 1), tst value 128)
  | CbOp.ShiftRightArithmetic =>
      finish (Z.lor (Z.shiftr value 1) (Z.land value 128), tst value 1)
  | CbOp.SwapNibbles => finish (rotate_left8 value 4, false)
  | CbOp.ShiftRightLogical => finish (Z.shiftr value 1, tst value 1)
  | CbOp.TestBit _ | CbOp.ResetBit _ | CbOp.SetBit _ => None
  end.

Definition decimal_adjust (accumulator : Z) (before : Flags) : ByteResult :=
  let '(correction, carry) :=
    if f_subtract before then
      let c := if f_carry before then Z.lor 0 96 else 0 in
      let c := if f_half_carry before then Z.lor c 6 else c in
      (c, f_carry before)
    else
      let carry := f_carry before || (153 <? accumulator) in
      let c := if carry then Z.lor 0 96 else 0 in
      let c := if f_half_carry before || (9 <? Z.land accumulator 15) then Z.lor c 6 else c in
      (c, carry) in
  let value :=
    if f_subtract before then w8 (accumulator - correction) else w8 (accumulator + correction) in
  MkByteResult value (from_bits (value =? 0) (f_subtract before) false carry).

(** ** Reference arithmetic *)

(** The four flags of a byte result over unbounded integers. *)
Definition sum_flags (left right carry_in : Z) : bool * bool * bool :=
  let s := left + right + carry_in in
  (s mod 256 =? 0, 16 <=? left mod 16 + right mod 16 + carry_in, 256 <=? s).
Definition difference_flags (left right carry_in : Z) : bool * bool * bool :=
  let s := left - right - carry_in in
  (s mod 256 =? 0, left mod 16 - right mod 16 - carry_in <? 0, s <? 0).

(** Binary-coded decimal: two decimal digits in two nibbles. *)
Definition bcd (n : Z) : Z := 16 * (n / 10) + n mod 10.

(** ** Arithmetic facts *)

Lemma from_bits_eq z n h c z' n' h' c' :
  z = z' → n = n' → h = h' → c = c' → from_bits z n h c = from_bits z' n' h' c'.
Proof. congruence. Qed.

Lemma add_arith left right c :
  is_u8 left → is_u8 right →
  add left right c =
  let '(z, h, cy) := sum_flags left right (b2z c) in
  MkByteResult ((left + right + b2z c) mod 256) (from_bits z false h cy).
Proof.
  intros Hl Hr. unfold add, overflowing_add8, sum_flags, w8. rewrite !land_15.
  pose proof (b2z_bound c). set (k := b2z c) in *.
  assert (E : ((left + right) mod 256 + k) mod 256 = (left + right + k) mod 256).
  { by rewrite Z.add_mod_idemp_l by lia. }
  rewrite E. f_equal. apply from_bits_eq; auto; zlia.
Qed.

Lemma subtract_arith left right c :
  is_u8 left → is_u8 right →
  subtract left right c =
  let '(z, h, cy) := difference_flags left right (b2z c) in
  MkByteResult ((left - right - b2z c) mod 256) (from_bits z true h cy).
Proof.
  intros Hl Hr. unfold subtract, overflowing_sub8, difference_flags, w8. rewrite !land_15.
  pose proof (b2z_bound c). set (k := b2z c) in *.
  assert (E : ((left - right) mod 256 - k) mod 256 = (left - right - k) mod 256).
  { by rewrite Zminus_mod_idemp_l. }
  rewrite E. f_equal. apply from_bits_eq; auto; zlia.
Qed.

Lemma increment_arith v f :
  is_u8 v →
  increment v f = let '(z, h, _) := sum_flags v 1 0 in
    MkByteResult ((v + 1) mod 256) (from_bits z false h (f_carry f)).
Proof.
  intros. unfold increment, sum_flags, w8. rewrite land_15, Z.add_0_r.
  f_equal. apply from_bits_eq; auto; zlia.
Qed.

Lemma decrement_arith v f :
  is_u8 v →
  decrement v f = let '(z, h, _) := difference_flags v 1 0 in
    MkByteResult ((v - 1) mod 256) (from_bits z true h (f_carry f)).
Proof.
  intros. unfold decrement, difference_flags, w8. rewrite land_15, Z.sub_0_r.
  f_equal. apply from_bits_eq; auto; zlia.
Qed.

(** ** Type invariant: byte results are bytes with valid flags *)

Definition byte_result_ok (r : ByteResult) : Prop := is_u8 (br_value r) ∧ flags_ok (br_flags r).

Lemma increment_ok v f : byte_result_ok (increment v f).
Proof. split; cbn; auto with bounds. Qed.
Lemma decrement_ok v f : byte_result_ok (decrement v f).
Proof. split; cbn; auto with bounds. Qed.
Lemma apply_alu_ok o a b f : is_u8 a → is_u8 b → byte_result_ok (apply_alu o a b f).
Proof.
  intros. destruct o; (split; [| by apply from_bits_ok]); cbn; auto with bounds.
Qed.
Lemma rotate_shift_ok o v c z r : is_u8 v → rotate_shift o v c z = Some r → byte_result_ok r.
Proof.
  intros Hv. assert (is_u8 (b2z c)) by (destruct c; cbn; lia).
  destruct o; cbn; try done; intros [= <-]; (split; [| by apply from_bits_ok]); cbn;
    unfold rotate_left8, rotate_right8; auto with bounds.
Qed.
Lemma decimal_adjust_ok a f : byte_result_ok (decimal_adjust a f).
Proof.
  unfold decimal_adjust. destruct (f_subtract f); (split; [| by apply from_bits_ok]); cbn;
    auto with bounds.
Qed.
Lemma add_hl_ok l r f : is_u16 (add_hl l r f).1 ∧ flags_ok (add_hl l r f).2.
Proof. split; cbn; auto with bounds. Qed.
Lemma add_signed_to_sp_ok sp o :
  is_u16 (add_signed_to_sp sp o).1 ∧ flags_ok (add_signed_to_sp sp o).2.
Proof. split; cbn; auto with bounds. Qed.
#[export] Hint Resolve increment_ok decrement_ok apply_alu_ok rotate_shift_ok decimal_adjust_ok
  add_hl_ok add_signed_to_sp_ok : bounds.

(** ** Decimal arithmetic *)

Lemma bcd_u8 n : 0 <= n < 100 → is_u8 (bcd n).
Proof. unfold bcd. zlia. Qed.

Definition small_or (high low : bool) : Z :=
  let c := if high then Z.lor 0 96 else 0 in if low then Z.lor c 6 else c.
Lemma small_or_eq high low : small_or high low = (if high then 96 else 0) + (if low then 6 else 0).
Proof. by destruct high, low. Qed.

(** [decimal_adjust] with its correction as a sum. *)
Lemma decimal_adjust_eq a f :
  decimal_adjust a f =
  let n := f_subtract f in
  let carry := if n then f_carry f else f_carry f || (153 <? a) in
  let half := if n then f_half_carry f else f_half_carry f || (9 <? a mod 16) in
  let correction := (if carry then 96 else 0) + (if half then 6 else 0) in
  let value := (if n then a - correction else a + correction) mod 256 in
  MkByteResult value (from_bits (value =? 0) n false carry).
Proof.
  unfold decimal_adjust. rewrite land_15. destruct (f_subtract f); cbn beta iota zeta.
  - fold (small_or (f_carry f) (f_half_carry f)). by rewrite small_or_eq.
  - fold (small_or (f_carry f || (153 <? a)) (f_half_carry f || (9 <? a mod 16))).
    by rewrite small_or_eq.
Qed.

Lemma byte_result_eq v v' z z' n h c c' :
  v = v' → z = z' → c = c' →
  MkByteResult v (from_bits z n h c) = MkByteResult v' (from_bits z' n h c').
Proof. congruence. Qed.

(** DAA turns binary addition into decimal addition: for packed decimal operands and either
    carry, adjusting the result of the byte addition with its flags gives the packed decimal sum
    modulo one hundred, the carry flag is the decimal carry, and zero is set on a zero sum. *)
Theorem decimal_adjust_after_add x y c :
  0 <= x < 100 → 0 <= y < 100 →
  let r := add (bcd x) (bcd y) c in
  let s := x + y + b2z c in
  decimal_adjust (br_value r) (br_flags r) =
  MkByteResult (bcd (s mod 100)) (from_bits (s mod 100 =? 0) false false (100 <=? s)).
Proof.
  intros Hx Hy r s. unfold r. rewrite add_arith by (by apply bcd_u8). clear r.
  rewrite decimal_adjust_eq. cbn [br_value br_flags sum_flags].
  autorewrite with flags. unfold s, bcd. pose proof (b2z_bound c). set (k := b2z c) in *.
  clearbody k. clear s c.
  apply byte_result_eq; repeat case_match; zlia.
Qed.

Lemma decimal_adjust_after_add_witness :
  0 <= 58 < 100 ∧ 0 <= 67 < 100 ∧
  (let r := add (bcd 58) (bcd 67) true in
   let s := 58 + 67 + b2z true in
   decimal_adjust (br_value r) (br_flags r) =
   MkByteResult (bcd (s mod 100)) (from_bits (s mod 100 =? 0) false false (100 <=? s))).
Proof. split; [lia |]. split; [lia |]. apply (decimal_adjust_after_add 58 67 true); lia. Defined.

(** DAA after a byte subtraction gives the packed decimal difference modulo one hundred, and
    keeps the borrow as the carry flag: it is set exactly when the decimal difference is negative. *)
Theorem decimal_adjust_after_subtract x y c :
  0 <= x < 100 → 0 <= y < 100 →
  let r := subtract (bcd x) (bcd y) c in
  let s := x - y - b2z c in
  decimal_adjust (br_value r) (br_flags r) =
  MkByteResult (bcd (s mod 100)) (from_bits (s mod 100 =? 0) true false (s <? 0)).
Proof.
  intros Hx Hy r s. unfold r. rewrite subtract_arith by (by apply bcd_u8). clear r.
  rewrite decimal_adjust_eq. cbn [br_value br_flags difference_flags].
  autorewrite with flags. unfold s, bcd. pose proof (b2z_bound c). set (k := b2z c) in *.
  clearbody k. clear s c.
  apply byte_result_eq; repeat case_match; zlia.
Qed.

Lemma decimal_adjust_after_subtract_witness :
  0 <= 31 < 100 ∧ 0 <= 67 < 100 ∧
  (let r := subtract (bcd 31) (bcd 67) true in
   let s := 31 - 67 - b2z true in
   decimal_adjust (br_value r) (br_flags r) =
   MkByteResult (bcd (s mod 100)) (from_bits (s mod 100 =? 0) true false (s <? 0))).
Proof.
  split; [lia |]. split; [lia |]. apply (decimal_adjust_after_subtract 31 67 true); lia.
Defined.

(** ** Reference semantics of the eight ALU operations *)

Definition alu_reference (o : AluOp.AluOperation) (a b : Z) (carry : bool) : ByteResult :=
  let sum k := let '(z, h, c) := sum_flags a b k in
               MkByteResult ((a + b + k) mod 256) (from_bits z false h c) in
  let difference k := let '(z, h, c) := difference_flags a b k in
                      MkByteResult ((a - b - k) mod 256) (from_bits z true h c) in
  match o with
  | AluOp.Add => sum 0
  | AluOp.AddCarry => sum (b2z carry)
  | AluOp.Subtract | AluOp.Compare => difference 0
  | AluOp.SubtractCarry => difference (b2z carry)
  | AluOp.And => MkByteResult (Z.land a b) (from_bits (Z.land a b =? 0) false true false)
  | AluOp.Xor => MkByteResult (Z.lxor a b) (from_bits (a =? b) false false false)
  | AluOp.Or => MkByteResult (Z.lor a b) (from_bits ((a =? 0) && (b =? 0)) false false false)
  end.

(** The ALU computes the integer reference: value modulo 256, Z on a zero result, H the carry
    or borrow out of the low nibble and C that out of the byte, for every operation, operand and
    incoming carry; XOR is zero exactly on equal operands and OR exactly on two zeros. *)
Theorem apply_alu_reference o a b f :
  is_u8 a → is_u8 b → apply_alu o a b f = alu_reference o a b (f_carry f).
Proof.
  intros Ha Hb. destruct o; cbn [apply_alu alu_reference]; unfold logical;
    rewrite ?(add_arith a b), ?(subtract_arith a b) by done; try done.
  - f_equal. apply from_bits_eq; auto. destruct (Z.eqb_spec a b) as [-> | Hne].
    + by rewrite Z.lxor_nilpotent.
    + apply Z.eqb_neq. by rewrite Z.lxor_eq_0_iff.
  - f_equal. apply from_bits_eq; auto. apply eq_true_iff_eq.
    by rewrite andb_true_iff, !Z.eqb_eq, Z.lor_eq_0_iff.
Qed.

Lemma apply_alu_reference_witness :
  is_u8 200 ∧ is_u8 100 ∧
  apply_alu AluOp.AddCarry 200 100 (from_bits true false false true) =
  alu_reference AluOp.AddCarry 200 100 (f_carry (from_bits true false false true)).
Proof.
  split; [lia |]. split; [lia |].
  apply (apply_alu_reference AluOp.AddCarry 200 100 (from_bits true false false true)); lia.
Defined.

(** ** Word operations through byte lookups *)

(** A word addition as the proof system's two byte queries: low bytes without carry, high bytes
    with the low carry. *)
Definition byte_pair_add (low1 high1 low2 high2 : Z) : Z * ByteResult * ByteResult :=
  let low := add low1 low2 false in
  let high := add high1 high2 (f_carry (br_flags low)) in
  (be16 (br_value high) (br_value low), low, high).

Lemma be16_mod_add a b ra rb :
  is_u16 a → is_u16 b →
  ra = (a mod 256 + b mod 256) mod 256 →
  rb = (a / 256 + b / 256 + b2z (256 <=? a mod 256 + b mod 256)) mod 256 →
  be16 rb ra = (a + b) mod 65536.
Proof.
  intros Ha Hb -> ->. rewrite be16_add by zlia. unfold b2z. case_match; zlia.
Qed.

Lemma byte_pair_add_arith a b :
  is_u16 a → is_u16 b →
  byte_pair_add (lo8 a) (hi8 a) (lo8 b) (hi8 b) =
  ((a + b) mod 65536, add (lo8 a) (lo8 b) false,
   add (hi8 a) (hi8 b) (256 <=? a mod 256 + b mod 256)).
Proof.
  intros Ha Hb. unfold byte_pair_add.
  assert (Hc : f_carry (br_flags (add (lo8 a) (lo8 b) false)) = (256 <=? a mod 256 + b mod 256)).
  { rewrite add_arith by auto with bounds. cbn. autorewrite with flags.
    unfold lo8. rewrite !land_255, Z.add_0_r. done. }
  rewrite Hc. f_equal. f_equal.
  rewrite !add_arith by auto with bounds. cbn [br_value sum_flags b2z].
  apply be16_mod_add; auto; unfold lo8, hi8;
    rewrite ?land_255, ?Z.shiftr_div_pow2 by lia; change (2 ^ 8) with 256;
    rewrite ?Z.add_0_r; done.
Qed.

(** The two-byte-lookup plan for ADD HL,rr is exact: chaining the byte adder through its own
    carry flag gives the same word, and the H and C flags of the high byte are the instruction's. *)
Theorem add_hl_by_bytes left right f :
  is_u16 left → is_u16 right →
  let '(value, low, high) := byte_pair_add (lo8 left) (hi8 left) (lo8 right) (hi8 right) in
  add_hl left right f =
  (value, from_bits (f_zero f) false (f_half_carry (br_flags high)) (f_carry (br_flags high))).
Proof.
  intros Hl Hr. rewrite byte_pair_add_arith by done. unfold add_hl, w16. f_equal.
  rewrite (add_arith (hi8 left)) by auto with bounds. cbn [br_flags sum_flags].
  autorewrite with flags. rewrite !land_4095. unfold hi8.
  rewrite !Z.shiftr_div_pow2 by lia. change (2 ^ 8) with 256.
  apply from_bits_eq; auto; unfold b2z; case_match; zlia.
Qed.

Lemma add_hl_by_bytes_witness :
  is_u16 4095 ∧ is_u16 1 ∧
  let '(value, low, high) := byte_pair_add (lo8 4095) (hi8 4095) (lo8 1) (hi8 1) in
  add_hl 4095 1 (MkFlags 0) =
  (value, from_bits (f_zero (MkFlags 0)) false (f_half_carry (br_flags high))
            (f_carry (br_flags high))).
Proof.
  split; [lia |]. split; [lia |]. apply (add_hl_by_bytes 4095 1 (MkFlags 0)); lia.
Defined.

(** The sign-extended high byte of a signed offset. *)
Definition sign_extension (offset : Z) : Z := if tst offset 128 then 255 else 0.

Lemma sign_extension_eq o : is_u8 o → sign_extension o = if o <? 128 then 0 else 255.
Proof.
  intros Ho. unfold sign_extension. change 128 with (2 ^ 7) at 1. rewrite tst_pow2 by lia.
  rewrite Z.testbit_eqb by lia. change (2 ^ 7) with 128. repeat case_match; zlia.
Qed.

(** SP plus a signed byte: the result is the word sum with the offset read as an integer in
    -128..127, and the two-byte-lookup plan (unsigned low bytes, then the sign extension) computes
    it with H and C taken from the low byte. *)
Theorem add_signed_to_sp_by_bytes sp offset :
  is_u16 sp → is_u8 offset →
  let '(value, low, high) := byte_pair_add (lo8 sp) (hi8 sp) offset (sign_extension offset) in
  add_signed_to_sp sp offset =
  (value, from_bits false false (f_half_carry (br_flags low)) (f_carry (br_flags low))) ∧
  value = (sp + i8_of offset) mod 65536 ∧ -128 <= i8_of offset <= 127.
Proof.
  intros Hs Ho.
  assert (He : is_u16 (be16 (sign_extension offset) offset)).
  { apply be16_bound; [| done]. unfold sign_extension. case_match; lia. }
  assert (Hx : is_u8 (sign_extension offset)) by (unfold sign_extension; case_match; lia).
  pose proof (byte_pair_add_arith sp _ Hs He) as H.
  rewrite lo8_be16, hi8_be16 in H by done. rewrite H. clear H.
  assert (Hv : (sp + be16 (sign_extension offset) offset) mod 65536 =
               (sp + i8_of offset) mod 65536).
  { rewrite be16_add, sign_extension_eq by done. unfold i8_of. case_match; zlia. }
  rewrite Hv. split; [| split; [done | unfold i8_of; case_match; lia]].
  unfold add_signed_to_sp, w16. f_equal.
  rewrite add_arith by auto with bounds. cbn [br_flags sum_flags b2z]. autorewrite with flags.
  unfold lo8. rewrite !land_15, !land_255. apply from_bits_eq; auto; zlia.
Qed.

Lemma add_signed_to_sp_by_bytes_witness :
  is_u16 65528 ∧ is_u8 254 ∧
  let '(value, low, high) := byte_pair_add (lo8 65528) (hi8 65528) 254 (sign_extension 254) in
  add_signed_to_sp 65528 254 =
  (value, from_bits false false (f_half_carry (br_flags low)) (f_carry (br_flags low))) ∧
  value = (65528 + i8_of 254) mod 65536 ∧ -128 <= i8_of 254 <= 127.
Proof. split; [lia |]. split; [lia |]. apply (add_signed_to_sp_by_bytes 65528 254); lia. Defined.

(** ** Rotations *)

Definition rotated (o : CbOp.CbOperation) (v : Z) (c : bool) : Z * bool :=
  match rotate_shift o v c true with
  | Some r => (br_value r, f_carry (br_flags r))
  | None => (v, c)
  end.

Definition pair_eqb (p q : Z * bool) : bool := (p.1 =? q.1) && Bool.eqb p.2 q.2.

Definition rotation_laws (v : Z) : bool :=
  forallb (λ c,
    let l := rotated CbOp.RotateLeft v c in
    let r := rotated CbOp.RotateRight v c in
    pair_eqb (rotated CbOp.RotateRight l.1 l.2) (v, c) &&
    pair_eqb (rotated CbOp.RotateLeft r.1 r.2) (v, c) &&
    ((rotated CbOp.RotateRightCircular (rotated CbOp.RotateLeftCircular v c).1 c).1 =? v) &&
    ((rotated CbOp.RotateLeftCircular (rotated CbOp.RotateRightCircular v c).1 c).1 =? v) &&
    ((rotated CbOp.SwapNibbles (rotated CbOp.SwapNibbles v c).1 c).1 =? v) &&
    pair_eqb (rotated CbOp.ShiftLeftArithmetic v c) ((2 * v) mod 256, 128 <=? v) &&
    pair_eqb (rotated CbOp.ShiftRightLogical v c) (v / 2, v mod 2 =? 1) &&
    ((rotated CbOp.ShiftRightArithmetic v c).1 =? (i8_of v / 2) mod 256)) [true; false].

Lemma all_rotation_laws : forallb rotation_laws (seqZ 0 256) = true.
Proof. vm_compute. reflexivity. Qed.

(** The rotate and shift unit: rotations through carry are mutually inverse on the nine-bit
    value (byte and carry), circular rotations are mutually inverse on the byte, SWAP is an
    involution, SLA doubles, SRL halves unsigned and SRA halves signed, each with the bit shifted
    out as carry. *)
Theorem rotate_shift_laws v c :
  is_u8 v →
  (let l := rotated CbOp.RotateLeft v c in rotated CbOp.RotateRight l.1 l.2 = (v, c)) ∧
  (let r := rotated CbOp.RotateRight v c in rotated CbOp.RotateLeft r.1 r.2 = (v, c)) ∧
  (rotated CbOp.RotateRightCircular (rotated CbOp.RotateLeftCircular v c).1 c).1 = v ∧
  (rotated CbOp.RotateLeftCircular (rotated CbOp.RotateRightCircular v c).1 c).1 = v ∧
  (rotated CbOp.SwapNibbles (rotated CbOp.SwapNibbles v c).1 c).1 = v ∧
  rotated CbOp.ShiftLeftArithmetic v c = ((2 * v) mod 256, 128 <=? v) ∧
  rotated CbOp.ShiftRightLogical v c = (v / 2, v mod 2 =? 1) ∧
  (rotated CbOp.ShiftRightArithmetic v c).1 = (i8_of v / 2) mod 256.
Proof.
  intros Hv. pose proof (forallb_bytes _ all_rotation_laws v Hv) as H. unfold rotation_laws in H.
  rewrite forallb_forall in H.
  assert (Hin : In c [true; false]) by (destruct c; cbn; auto).
  specialize (H c Hin). clear Hin. cbn zeta in H.
  assert (Hp : ∀ p q, pair_eqb p q = true → p = q).
  { intros [x b] [y b']. unfold pair_eqb. cbn.
    by rewrite andb_true_iff, Z.eqb_eq, Bool.eqb_true_iff; intros [-> ->]. }
  rewrite !andb_true_iff, !Z.eqb_eq in H.
  destruct H as [[[[[[[H1 H2] H3] H4] H5] H6] H7] H8].
  repeat split; auto.
Qed.

Lemma rotate_shift_laws_witness :
  is_u8 193 ∧
  (let l := rotated CbOp.RotateLeft 193 true in rotated CbOp.RotateRight l.1 l.2 = (193, true)).
Proof. split; [lia |]. apply (rotate_shift_laws 193 true). lia. Defined.
