(* ===== verification/Lookup.v ===== *)
(** * Execution-table queries (crates/zksm83-core/src/execution_lookup.rs)

    A query is a validated point of one verifier-fixed table; it has a table address
    ([lookup_index]), can be rebuilt from that address ([from_index]) and evaluates to the output
    the table holds there. The three fallible constructors reject exactly the malformed operands. *)
From S2P Require Import Prelude IsaTypes ExecPlan Flags Alu.

Module Rs.
Inductive RotateShiftOperation :=
| RotateLeftCircular | RotateRightCircular | RotateLeft | RotateRight
| ShiftLeftArithmetic | ShiftRightArithmetic | SwapNibbles | ShiftRightLogical.
End Rs.

Definition from_cb (c : CbOp.CbOperation) : option Rs.RotateShiftOperation :=
  match c with
  | CbOp.RotateLeftCircular => Some Rs.RotateLeftCircular
  | CbOp.RotateRightCircular => Some Rs.RotateRightCircular
  | CbOp.RotateLeft => Some Rs.RotateLeft
  | CbOp.RotateRight => Some Rs.RotateRight
  | CbOp.ShiftLeftArithmetic => Some Rs.ShiftLeftArithmetic
  | CbOp.ShiftRightArithmetic => Some Rs.ShiftRightArithmetic
  | CbOp.SwapNibbles => Some Rs.SwapNibbles
  | CbOp.ShiftRightLogical => Some Rs.ShiftRightLogical
  | CbOp.TestBit _ | CbOp.ResetBit _ | CbOp.SetBit _ => None
  end.

Definition as_cb (r : Rs.RotateShiftOperation) : CbOp.CbOperation :=
  match r with
  | Rs.RotateLeftCircular => CbOp.RotateLeftCircular
  | Rs.RotateRightCircular => CbOp.RotateRightCircular
  | Rs.RotateLeft => CbOp.RotateLeft
  | Rs.RotateRight => CbOp.RotateRight
  | Rs.ShiftLeftArithmetic => CbOp.ShiftLeftArithmetic
  | Rs.ShiftRightArithmetic => CbOp.ShiftRightArithmetic
  | Rs.SwapNibbles => CbOp.SwapNibbles
  | Rs.ShiftRightLogical => CbOp.ShiftRightLogical
  end.

Definition rotate_code (r : Rs.RotateShiftOperation) : Z :=
  match r with
  | Rs.RotateLeftCircular => 0 | Rs.RotateRightCircular => 1
  | Rs.RotateLeft => 2 | Rs.RotateRight => 3
  | Rs.ShiftLeftArithmetic => 4 | Rs.ShiftRightArithmetic => 5
  | Rs.SwapNibbles => 6 | Rs.ShiftRightLogical => 7
  end.

(** [QueryKind], the only field of [ExecutionLookupQuery]. *)
Module Query.
Inductive ExecutionLookupQuery :=
| Binary8 (table : Tbl.ExecutionLookupTable) (left right : Z) (carry : bool)
| Unary8 (table : Tbl.ExecutionLookupTable) (value : Z) (carry : bool)
| RotateShift8 (value : Z) (operation : Rs.RotateShiftOperation) (carry zero_from_result : bool)
| DecimalAdjust8 (accumulator : Z) (flags : Flags)
| Bit8 (table : Tbl.ExecutionLookupTable) (value bit : Z) (carry : bool)
| Condition (condition : Cond.Condition) (flags : Flags).
End Query.
Abbreviation ExecutionLookupQuery := Query.ExecutionLookupQuery.

Module Out.
Inductive ExecutionLookupOutput :=
| ByteWithFlags (value : Z) (flags : Flags)
| Byte (value : Z)
| Predicate (value : bool).
End Out.

(** [ExecutionLookupOutput::packed]. *)
Definition packed_output (o : Out.ExecutionLookupOutput) : Z :=
  match o with
  | Out.ByteWithFlags value flags => Z.lor value (Z.shiftl (flags_byte flags) 8)
  | Out.Byte value => value
  | Out.Predicate value => b2z value
  end.

Module LErr.
Inductive ExecutionLookupError :=
| InvalidBit (bit : Z)
| InvalidRotateShift
| TableQueryMismatch (table : Tbl.ExecutionLookupTable)
| AddressOutOfRange (table : Tbl.ExecutionLookupTable) (index : Z).
End LErr.
Abbreviation lookup_result := (result LErr.ExecutionLookupError).

(** ** Constructors *)

Definition binary8 (t : Tbl.ExecutionLookupTable) (left right : Z) (carry : bool) :=
  Query.Binary8 t left right carry.
Definition unary8 (t : Tbl.ExecutionLookupTable) (value : Z) (carry : bool) :=
  Query.Unary8 t value carry.
Definition bit8 (t : Tbl.ExecutionLookupTable) (value bit : Z) (carry : bool) :
    lookup_result ExecutionLookupQuery :=
  if 8 <=? bit then Err (LErr.InvalidBit bit) else Ok (Query.Bit8 t value bit carry).

Definition add8 (left right : Z) (carry : bool) := binary8 Tbl.Add8 left right carry.
Definition subtract8 (left right : Z) (borrow : bool) := binary8 Tbl.Subtract8 left right borrow.
Definition and8 (left right : Z) := binary8 Tbl.And8 left right false.
Definition xor8 (left right : Z) := binary8 Tbl.Xor8 left right false.
Definition or8 (left right : Z) := binary8 Tbl.Or8 left right false.
Definition increment8 (value : Z) (carry : bool) := unary8 Tbl.Increment8 value carry.
Definition decrement8 (value : Z) (carry : bool) := unary8 Tbl.Decrement8 value carry.
Definition rotate_shift8 (value : Z) (c : CbOp.CbOperation) (carry zero_from_result : bool) :
    lookup_result ExecutionLookupQuery :=
  match from_cb c with
  | None => Err LErr.InvalidRotateShift
  | Some operation => Ok (Query.RotateShift8 value operation carry zero_from_result)
  end.
Definition decimal_adjust8 (accumulator : Z) (flags : Flags) :=
  Query.DecimalAdjust8 accumulator flags.
Definition test_bit8 (value bit : Z) (carry : bool) := bit8 Tbl.TestBit8 value bit carry.
Definition reset_bit8 (value bit : Z) := bit8 Tbl.ResetBit8 value bit false.
Definition set_bit8 (value bit : Z) := bit8 Tbl.SetBit8 value bit false.
Definition condition_query (c : Cond.Condition) (flags : Flags) := Query.Condition c flags.

(** ** Addresses *)

Definition query_table (q : ExecutionLookupQuery) : Tbl.ExecutionLookupTable :=
  match q with
  | Query.Binary8 table _ _ _ | Query.Unary8 table _ _ | Query.Bit8 table _ _ _ => table
  | Query.RotateShift8 _ _ _ _ => Tbl.RotateShift8
  | Query.DecimalAdjust8 _ _ => Tbl.DecimalAdjust8
  | Query.Condition _ _ => Tbl.Condition
  end.

Definition lookup_num_variables (q : ExecutionLookupQuery) : Z := input_bit_count (query_table q).

Definition condition_index (c : Cond.Condition) : Z :=
  match c with Cond.NotZero => 0 | Cond.Zero => 1 | Cond.NotCarry => 2 | Cond.Carry => 3 end.

Definition lookup_index (q : ExecutionLookupQuery) : Z :=
  match q with
  | Query.Binary8 _ left_ right_ carry =>
      Z.lor (Z.lor left_ (Z.shiftl right_ 8)) (Z.shiftl (b2z carry) 16)
  | Query.Unary8 _ value carry => Z.lor value (Z.shiftl (b2z carry) 8)
  | Query.RotateShift8 value operation carry zero_from_result =>
      Z.lor (Z.lor (Z.lor value (Z.shiftl (rotate_code operation) 8)) (Z.shiftl (b2z carry) 11))
            (Z.shiftl (b2z zero_from_result) 12)
  | Query.DecimalAdjust8 accumulator flags =>
      Z.lor accumulator (Z.shiftl (Z.shiftr (flags_byte flags) 4) 8)
  | Query.Bit8 _ value bit carry =>
      Z.lor (Z.lor value (Z.shiftl bit 8)) (Z.shiftl (b2z carry) 11)
  | Query.Condition condition flags =>
      Z.lor (Z.shiftr (flags_byte flags) 4) (Z.shiftl (condition_index condition) 4)
  end.

Definition flags_from_nibble (nibble : Z) : Flags :=
  from_bits (tst nibble 8) (tst nibble 4) (tst nibble 2) (tst nibble 1).

Definition rotate_shift_from_code (code : Z) : CbOp.CbOperation :=
  match code with
  | 0 => CbOp.RotateLeftCircular | 1 => CbOp.RotateRightCircular
  | 2 => CbOp.RotateLeft | 3 => CbOp.RotateRight
  | 4 => CbOp.ShiftLeftArithmetic | 5 => CbOp.ShiftRightArithmetic
  | 6 => CbOp.SwapNibbles | _ => CbOp.ShiftRightLogical
  end.

Definition condition_from_code (code : Z) : Cond.Condition :=
  match code with 0 => Cond.NotZero | 1 => Cond.Zero | 2 => Cond.NotCarry | _ => Cond.Carry end.

Definition from_index (t : Tbl.ExecutionLookupTable) (index : Z) :
    lookup_result ExecutionLookupQuery :=
  let bound := Z.shiftl 1 (input_bit_count t) in
  if bound <=? index then Err (LErr.AddressOutOfRange t index)
  else
    let byte shift := Z.land (Z.shiftr index shift) 255 in
    let bit shift := negb (Z.land (Z.shiftr index shift) 1 =? 0) in
    match t with
    | Tbl.Add8 => Ok (add8 (byte 0) (byte 8) (bit 16))
    | Tbl.Subtract8 => Ok (subtract8 (byte 0) (byte 8) (bit 16))
    | Tbl.And8 => Ok (and8 (byte 0) (byte 8))
    | Tbl.Xor8 => Ok (xor8 (byte 0) (byte 8))
    | Tbl.Or8 => Ok (or8 (byte 0) (byte 8))
    | Tbl.Increment8 => Ok (increment8 (byte 0) (bit 8))
    | Tbl.Decrement8 => Ok (decrement8 (byte 0) (bit 8))
    | Tbl.RotateShift8 =>
        rotate_shift8 (byte 0) (rotate_shift_from_code (Z.land (byte 8) 7)) (bit 11) (bit 12)
    | Tbl.DecimalAdjust8 =>
        Ok (decimal_adjust8 (byte 0) (flags_from_nibble (Z.land (byte 8) 15)))
    | Tbl.TestBit8 => test_bit8 (byte 0) (Z.land (byte 8) 7) (bit 11)
    | Tbl.ResetBit8 => reset_bit8 (byte 0) (Z.land (byte 8) 7)
    | Tbl.SetBit8 => set_bit8 (byte 0) (Z.land (byte 8) 7)
    | Tbl.Condition =>
        Ok (condition_query (condition_from_code (Z.land (byte 4) 3))
              (flags_from_nibble (Z.land (byte 0) 15)))
    end.

(** ** Evaluation *)

Definition condition_holds (flags : Flags) (c : Cond.Condition) : bool :=
  match c with
  | Cond.NotZero => negb (f_zero flags)
  | Cond.Zero => f_zero flags
  | Cond.NotCarry => negb (f_carry flags)
  | Cond.Carry => f_carry flags
  end.

Definition with_flags (r : ByteResult) : Out.ExecutionLookupOutput :=
  Out.ByteWithFlags (br_value r) (br_flags r).

Definition evaluate_binary8 (t : Tbl.ExecutionLookupTable) (left right : Z) (carry : bool) :
    lookup_result Out.ExecutionLookupOutput :=
  operation ←
    match t with
    | Tbl.Add8 => Ok (if carry then AluOp.AddCarry else AluOp.Add)
    | Tbl.Subtract8 => Ok (if carry then AluOp.SubtractCarry else AluOp.Subtract)
    | Tbl.And8 => Ok AluOp.And
    | Tbl.Xor8 => Ok AluOp.Xor
    | Tbl.Or8 => Ok AluOp.Or
    | _ => Err (LErr.TableQueryMismatch t)
    end;
  let before := from_bits false false false carry in
  Ok (with_flags (apply_alu operation left right before)).

Definition evaluate_unary8 (t : Tbl.ExecutionLookupTable) (value : Z) (carry : bool) :
    lookup_result Out.ExecutionLookupOutput :=
  let before := from_bits false false false carry in
  match t with
  | Tbl.Increment8 => Ok (with_flags (increment value before))
  | Tbl.Decrement8 => Ok (with_flags (decrement value before))
  | _ => Err (LErr.TableQueryMismatch t)
  end.

Definition evaluate_bit8 (t : Tbl.ExecutionLookupTable) (value bit : Z) (carry : bool) :
    lookup_result Out.ExecutionLookupOutput :=
  let mask := w8 (Z.shiftl 1 bit) in
  match t with
  | Tbl.TestBit8 =>
      Ok (Out.ByteWithFlags value (from_bits (Z.land value mask =? 0) false true carry))
  | Tbl.ResetBit8 => Ok (Out.Byte (Z.land value (not8 mask)))
  | Tbl.SetBit8 => Ok (Out.Byte (Z.lor value mask))
  | _ => Err (LErr.TableQueryMismatch t)
  end.

Definition evaluate (q : ExecutionLookupQuery) : lookup_result Out.ExecutionLookupOutput :=
  match q with
  | Query.Binary8 table left_ right_ carry => evaluate_binary8 table left_ right_ carry
  | Query.Unary8 table value carry => evaluate_unary8 table value carry
  | Query.RotateShift8 value operation carry zero_from_result =>
      r ← ok_or (rotate_shift (as_cb operation) value carry zero_from_result)
            LErr.InvalidRotateShift;
      Ok (with_flags r)
  | Query.DecimalAdjust8 accumulator flags => Ok (with_flags (decimal_adjust accumulator flags))
  | Query.Bit8 table value bit carry => evaluate_bit8 table value bit carry
  | Query.Condition condition flags => Ok (Out.Predicate (condition_holds flags condition))
  end.

Definition evaluate_execution_table_entry (t : Tbl.ExecutionLookupTable) (index : Z) :
    lookup_result Z :=
  q ← from_index t index; o ← evaluate q; Ok (packed_output o).

Global Instance rotate_eq_dec : EqDecision Rs.RotateShiftOperation.
Proof. solve_decision. Defined.

(** ** Well-formed queries: exactly what the public constructors build from bytes and flags *)

Definition query_ok (q : ExecutionLookupQuery) : Prop :=
  match q with
  | Query.Binary8 t l r c =>
      is_u8 l ∧ is_u8 r ∧
      (t = Tbl.Add8 ∨ t = Tbl.Subtract8 ∨ (c = false ∧ (t = Tbl.And8 ∨ t = Tbl.Xor8 ∨ t = Tbl.Or8)))
  | Query.Unary8 t v c => is_u8 v ∧ (t = Tbl.Increment8 ∨ t = Tbl.Decrement8)
  | Query.RotateShift8 v _ _ _ => is_u8 v
  | Query.DecimalAdjust8 a f => is_u8 a ∧ flags_ok f
  | Query.Bit8 t v b c =>
      is_u8 v ∧ 0 <= b < 8 ∧
      (t = Tbl.TestBit8 ∨ (c = false ∧ (t = Tbl.ResetBit8 ∨ t = Tbl.SetBit8)))
  | Query.Condition _ f => flags_ok f
  end.

Lemma b2z_bit b : negb (b2z b =? 0) = b.
Proof. by destruct b. Qed.

Lemma flags_nibble f : flags_ok f → 0 <= Z.shiftr (flags_byte f) 4 < 16.
Proof.
  intros [H _]. rewrite Z.shiftr_div_pow2 by lia. change (2 ^ 4) with 16. zlia.
Qed.

Definition nibble_rebuilds (b : Z) : bool :=
  implb (Z.land b 15 =? 0) (flags_byte (flags_from_nibble (Z.shiftr b 4)) =? b).
Lemma all_nibbles : forallb nibble_rebuilds (seqZ 0 256) = true.
Proof. vm_compute. reflexivity. Qed.

Lemma flags_from_nibble_of f : flags_ok f → flags_from_nibble (Z.shiftr (flags_byte f) 4) = f.
Proof.
  intros [Hb Hn]. pose proof (forallb_bytes _ all_nibbles _ Hb) as H. unfold nibble_rebuilds in H.
  rewrite Hn in H. cbn [implb] in H. apply Z.eqb_eq in H. destruct f as [b]. cbn [flags_byte] in *.
  destruct (flags_from_nibble _). by rewrite <- H.
Qed.

Lemma nibble_of_flags n : 0 <= n < 16 → Z.shiftr (flags_byte (flags_from_nibble n)) 4 = n.
Proof.
  intros Hn. assert (H : forallb (λ n, Z.shiftr (flags_byte (flags_from_nibble n)) 4 =? n)
    (seqZ 0 16) = true) by (vm_compute; reflexivity).
  rewrite forallb_forall in H. apply Z.eqb_eq, H, list_elem_of_In, elem_of_seqZ. lia.
Qed.

(** Addresses as sums. *)
Lemma index2 a b n : 0 <= n → 0 <= a < 2 ^ n → Z.lor a (Z.shiftl b n) = a + b * 2 ^ n.
Proof. apply lor_shiftl_add_r. Qed.

Lemma lookup_index_arith q :
  query_ok q →
  lookup_index q =
  match q with
  | Query.Binary8 _ l r c => l + r * 256 + b2z c * 65536
  | Query.Unary8 _ v c => v + b2z c * 256
  | Query.RotateShift8 v o c z => v + rotate_code o * 256 + b2z c * 2048 + b2z z * 4096
  | Query.DecimalAdjust8 a f => a + Z.shiftr (flags_byte f) 4 * 256
  | Query.Bit8 _ v b c => v + b * 256 + b2z c * 2048
  | Query.Condition c f => Z.shiftr (flags_byte f) 4 + condition_index c * 16
  end.
Proof.
  assert (Hr : ∀ o, 0 <= rotate_code o < 8) by (intros []; cbn; lia).
  destruct q; cbn [query_ok lookup_index]; intros H.
  - rewrite (index2 _ _ 8), (index2 _ _ 16) by (rewrite ?(index2 _ _ 8); cbn; lia). done.
  - rewrite (index2 _ _ 8) by (cbn; lia). done.
  - pose proof (Hr operation). pose proof (b2z_bound carry).
    rewrite (index2 value _ 8), (index2 _ _ 11), (index2 _ _ 12) by (cbn; lia). done.
  - rewrite (index2 _ _ 8) by (cbn; lia). done.
  - rewrite (index2 _ _ 8), (index2 _ _ 11) by (cbn; lia). done.
  - pose proof (flags_nibble _ H). rewrite (index2 _ _ 4) by (cbn; lia). done.
Qed.

(** Field extraction from an address. *)
Lemma byte_field x n : 0 <= n → Z.land (Z.shiftr x n) 255 = x / 2 ^ n mod 256.
Proof. intros. by rewrite land_255, Z.shiftr_div_pow2. Qed.
Lemma bit_field x n : 0 <= n → negb (Z.land (Z.shiftr x n) 1 =? 0) = (x / 2 ^ n mod 2 =? 1).
Proof. intros. rewrite land_1, Z.shiftr_div_pow2 by lia. zlia. Qed.

Lemma lookup_index_bound q :
  query_ok q → 0 <= lookup_index q < 2 ^ input_bit_count (query_table q).
Proof.
  intros H. rewrite lookup_index_arith by done.
  destruct q as [t l r c|t v c|v o c z|a f|t v b c|c f]; cbn [query_ok query_table] in *;
    try pose proof (b2z_bound c).
  - destruct H as (? & ? & [-> | [-> | [-> [-> | [-> | ->]]]]]); cbn in *; lia.
  - destruct H as (? & [-> | ->]); cbn in *; lia.
  - pose proof (b2z_bound z). destruct o; cbn in *; lia.
  - destruct H as [? H]. pose proof (flags_nibble _ H). cbn in *; lia.
  - destruct H as (? & ? & [-> | [-> [-> | ->]]]); cbn in *; lia.
  - pose proof (flags_nibble _ H). destruct c; cbn in *; lia.
Qed.

Lemma from_index_in_range t i :
  i < 2 ^ input_bit_count t → (Z.shiftl 1 (input_bit_count t) <=? i) = false.
Proof. intros H. rewrite Z.shiftl_1_l. by apply Z.leb_gt. Qed.

Lemma rotate_shift8_code o v c z :
  rotate_shift8 v (rotate_shift_from_code (rotate_code o)) c z = Ok (Query.RotateShift8 v o c z).
Proof. by destruct o. Qed.

Lemma condition_from_index c : condition_from_code (condition_index c) = c.
Proof. by destruct c. Qed.

Lemma bit8_ok t v b c : 0 <= b < 8 → bit8 t v b c = Ok (Query.Bit8 t v b c).
Proof. intros. unfold bit8. by rewrite (proj2 (Z.leb_gt 8 b)) by lia. Qed.

(** Decomposition of the sums that [lookup_index] produces. *)
Lemma low_byte x k : is_u8 x → 0 <= k → (x + k * 256) / 2 ^ 0 mod 256 = x.
Proof. intros. change (2 ^ 0) with 1. zlia. Qed.
Lemma high_part x k : is_u8 x → 0 <= k → (x + k * 256) / 2 ^ 8 = k.
Proof. intros. change (2 ^ 8) with 256. zlia. Qed.

Ltac fields :=
  change (2 ^ 0) with 1 in *; change (2 ^ 4) with 16 in *; change (2 ^ 8) with 256 in *;
  change (2 ^ 11) with 2048 in *; change (2 ^ 12) with 4096 in *; change (2 ^ 16) with 65536 in *.

Lemma bit_of_sum c x : x = b2z c → (x =? 1) = c.
Proof. intros ->. by destruct c. Qed.

Lemma from_index_lookup_index q :
  query_ok q → from_index (query_table q) (lookup_index q) = Ok q.
Proof.
  intros H. unfold from_index.
  rewrite from_index_in_range by (by apply lookup_index_bound).
  rewrite lookup_index_arith by done. cbv zeta.
  rewrite !byte_field, !bit_field by lia. fields.
  destruct q as [t l r c|t v c|v o c z|a f|t v b c|c f]; cbn [query_ok query_table] in *;
    try pose proof (b2z_bound c).
  - destruct H as (Hl & Hr & Ht).
    assert (E1 : (l + r * 256 + b2z c * 65536) / 1 mod 256 = l) by zlia.
    assert (E2 : (l + r * 256 + b2z c * 65536) / 256 mod 256 = r) by zlia.
    assert (E3 : ((l + r * 256 + b2z c * 65536) / 65536 mod 2 =? 1) = c)
      by (apply bit_of_sum; zlia).
    rewrite E1, E2, E3. by destruct Ht as [-> | [-> | [-> [-> | [-> | ->]]]]].
  - destruct H as (Hv & Ht).
    assert (E1 : (v + b2z c * 256) / 1 mod 256 = v) by zlia.
    assert (E2 : ((v + b2z c * 256) / 256 mod 2 =? 1) = c) by (apply bit_of_sum; zlia).
    rewrite E1, E2. by destruct Ht as [-> | ->].
  - pose proof (b2z_bound z). rewrite land_7.
    assert (Ho : 0 <= rotate_code o < 8) by (destruct o; cbn; lia).
    set (k := rotate_code o) in *.
    assert (E1 : (v + k * 256 + b2z c * 2048 + b2z z * 4096) / 1 mod 256 = v) by zlia.
    assert (E2 : (v + k * 256 + b2z c * 2048 + b2z z * 4096) / 256 mod 256 mod 8 = k) by zlia.
    assert (E3 : ((v + k * 256 + b2z c * 2048 + b2z z * 4096) / 2048 mod 2 =? 1) = c)
      by (apply bit_of_sum; zlia).
    assert (E4 : ((v + k * 256 + b2z c * 2048 + b2z z * 4096) / 4096 mod 2 =? 1) = z)
      by (apply bit_of_sum; zlia).
    rewrite E1, E2, E3, E4. apply rotate_shift8_code.
  - destruct H as [Ha Hf]. pose proof (flags_nibble _ Hf). rewrite land_15.
    set (k := Z.shiftr (flags_byte f) 4) in *.
    assert (E1 : (a + k * 256) / 1 mod 256 = a) by zlia.
    assert (E2 : (a + k * 256) / 256 mod 256 mod 16 = k) by zlia.
    rewrite E1, E2. unfold k. by rewrite flags_from_nibble_of.
  - destruct H as (Hv & Hb & Ht). rewrite land_7.
    assert (E1 : (v + b * 256 + b2z c * 2048) / 1 mod 256 = v) by zlia.
    assert (E2 : (v + b * 256 + b2z c * 2048) / 256 mod 256 mod 8 = b) by zlia.
    assert (E3 : ((v + b * 256 + b2z c * 2048) / 2048 mod 2 =? 1) = c)
      by (apply bit_of_sum; zlia).
    rewrite E1, E2, E3. by destruct Ht as [-> | [-> [-> | ->]]]; apply bit8_ok.
  - pose proof (flags_nibble _ H). rewrite land_15, land_3.
    assert (Hc : 0 <= condition_index c < 4) by (destruct c; cbn; lia).
    set (k := Z.shiftr (flags_byte f) 4) in *. set (j := condition_index c) in *.
    assert (E1 : (k + j * 16) / 1 mod 256 mod 16 = k) by zlia.
    assert (E2 : (k + j * 16) / 16 mod 256 mod 4 = j) by zlia.
    rewrite E1, E2. unfold k, j. by rewrite flags_from_nibble_of, condition_from_index.
Qed.

Lemma b2z_eqb1 x : 0 <= x < 2 → b2z (x =? 1) = x.
Proof. intros. unfold b2z. destruct (Z.eqb_spec x 1); lia. Qed.

Lemma rotate_from_code k :
  0 <= k < 8 → ∃ o, from_cb (rotate_shift_from_code k) = Some o ∧ rotate_code o = k.
Proof.
  intros Hk. assert (H : forallb (λ k, match from_cb (rotate_shift_from_code k) with
    Some o => rotate_code o =? k | None => false end) (seqZ 0 8) = true) by done.
  rewrite forallb_forall in H. specialize (H k).
  rewrite <- list_elem_of_In, elem_of_seqZ in H. specialize (H ltac:(lia)).
  destruct (from_cb _) as [o|]; [| done]. exists o. split; [done | by apply Z.eqb_eq].
Qed.

Lemma condition_index_from k : 0 <= k < 4 → condition_index (condition_from_code k) = k.
Proof.
  intros. assert (k = 0 ∨ k = 1 ∨ k = 2 ∨ k = 3) as [-> | [-> | [-> | ->]]] by lia; done.
Qed.

Lemma flags_from_nibble_ok n : flags_ok (flags_from_nibble n).
Proof. apply from_bits_ok. Qed.

Lemma lookup_index_from_index t i :
  0 <= i < 2 ^ input_bit_count t →
  ∃ q, from_index t i = Ok q ∧ query_ok q ∧ query_table q = t ∧ lookup_index q = i.
Proof.
  intros Hi. unfold from_index. rewrite from_index_in_range by lia. cbv zeta.
  rewrite !byte_field, !bit_field by lia. rewrite ?land_7, ?land_15, ?land_3. fields.
  assert (H8 : ∀ x, is_u8 (x mod 256)) by (intros; apply Z.mod_pos_bound; lia).
  destruct t; cbn [input_bit_count] in Hi; rewrite ?bit8_ok by (apply Z.mod_pos_bound; lia).
  all: try (unfold test_bit8, reset_bit8, set_bit8; rewrite bit8_ok by (apply Z.mod_pos_bound; lia)).
  8: { unfold rotate_shift8.
       destruct (rotate_from_code (i / 256 mod 256 mod 8)) as (o & -> & Ho);
         [apply Z.mod_pos_bound; lia |].
       eexists. split; [reflexivity |]. split; [apply H8 |]. split; [done |].
       rewrite lookup_index_arith by apply H8. cbv beta iota.
       rewrite Ho, !b2z_eqb1 by (apply Z.mod_pos_bound; lia).
       change (2 ^ 13) with 8192 in Hi. zlia. }
  all: eexists; split; [reflexivity |].
  all: match goal with |- query_ok ?q ∧ _ =>
         assert (Hq : query_ok q)
           by (cbn; repeat split; try apply H8; try apply Z.mod_pos_bound;
               try apply flags_from_nibble_ok; auto 6; lia) end.
  all: split; [exact Hq |]; split; [done |].
  all: rewrite (lookup_index_arith _ Hq); cbn beta iota
    delta [add8 subtract8 and8 xor8 or8 increment8 decrement8 binary8 unary8 decimal_adjust8
           condition_query].
  all: rewrite ?nibble_of_flags, ?condition_index_from by (apply Z.mod_pos_bound; lia).
  all: rewrite ?b2z_eqb1 by (apply Z.mod_pos_bound; lia); cbn [b2z].
  all: clear Hq H8; zlia.
Qed.

(** The table addressing is a bijection: every well-formed query is rebuilt from its own
    address, which lies inside its table, and every address inside a table is the address of
    exactly the query that [from_index] returns for it. *)
Theorem query_index_bijection :
  (∀ q, query_ok q →
     0 <= lookup_index q < 2 ^ lookup_num_variables q ∧
     from_index (query_table q) (lookup_index q) = Ok q) ∧
  (∀ t i, 0 <= i →
     (i < 2 ^ input_bit_count t →
        ∃ q, from_index t i = Ok q ∧ query_ok q ∧ query_table q = t ∧ lookup_index q = i) ∧
     (2 ^ input_bit_count t <= i → from_index t i = Err (LErr.AddressOutOfRange t i))).
Proof.
  split.
  - intros q Hq. split; [by apply lookup_index_bound | by apply from_index_lookup_index].
  - intros t i Hi. split.
    + intros. by apply lookup_index_from_index.
    + intros H. unfold from_index. rewrite Z.shiftl_1_l. by rewrite (proj2 (Z.leb_le _ _) H).
Qed.

(** ** Evaluation *)

Definition output_ok (o : Out.ExecutionLookupOutput) : Prop :=
  match o with
  | Out.ByteWithFlags v f => is_u8 v ∧ flags_ok f
  | Out.Byte v => is_u8 v
  | Out.Predicate _ => True
  end.

Lemma evaluate_ok q : query_ok q → ∃ o, evaluate q = Ok o ∧ output_ok o.
Proof.
  destruct q as [t l r c|t v c|v o c z|a f|t v b c|c f]; cbn [query_ok evaluate]; intros H.
  - destruct H as (Hl & Hr & Ht).
    destruct Ht as [-> | [-> | [-> [-> | [-> | ->]]]]]; eexists; (split; [reflexivity |]);
      by apply apply_alu_ok.
  - destruct H as (Hv & [-> | ->]); eexists; (split; [done |]);
      [apply increment_ok | apply decrement_ok].
  - destruct (rotate_shift (as_cb o) v c z) as [res|] eqn:E; [| by destruct o].
    eexists. split; [done |]. by apply rotate_shift_ok in E.
  - eexists. split; [done |]. apply decimal_adjust_ok.
  - destruct H as (Hv & Hb & [-> | [-> [-> | ->]]]); eexists; (split; [done |]); cbn;
      auto with bounds.
  - by eexists.
Qed.

Lemma packed_output_bound o : output_ok o → 0 <= packed_output o < 65536.
Proof.
  destruct o as [v f|v|b]; cbn; [| lia | intros; destruct b; cbn; lia].
  intros [Hv [Hf _]]. rewrite (index2 _ _ 8) by (cbn; lia). cbn. lia.
Qed.

(** Every address of every execution table has an entry: evaluation never reports a shape
    mismatch or an invalid operand there, the entry is the packed output of the query with that
    address, and it fits in sixteen bits. *)
Theorem table_entries_total t i :
  0 <= i < row_count t →
  ∃ q o, from_index t i = Ok q ∧ evaluate q = Ok o ∧ output_ok o ∧
    evaluate_execution_table_entry t i = Ok (packed_output o) ∧ 0 <= packed_output o < 65536.
Proof.
  rewrite row_count_pow2. intros Hi.
  destruct (lookup_index_from_index t i Hi) as (q & E & Hq & _).
  destruct (evaluate_ok q Hq) as (o & Eo & Ho).
  exists q, o. repeat split; auto; try (by apply packed_output_bound).
  unfold evaluate_execution_table_entry. rewrite E. cbn. by rewrite Eo.
Qed.

Lemma table_entries_total_witness :
  0 <= 511 < row_count Tbl.Increment8 ∧
  ∃ q o, from_index Tbl.Increment8 511 = Ok q ∧ evaluate q = Ok o ∧ output_ok o ∧
    evaluate_execution_table_entry Tbl.Increment8 511 = Ok (packed_output o) ∧
    0 <= packed_output o < 65536.
Proof.
  assert (H : 0 <= 511 < row_count Tbl.Increment8) by (rewrite row_count_pow2; cbn; lia).
  split; [exact H | exact (table_entries_total Tbl.Increment8 511 H)].
Defined.
