(* ===== verification/Mbc3.v ===== *)
(** * The MBC3 mapper (crates/zksm83-core/src/mbc3.rs)

    The mapper's three registers, the profile that selects the ROM size and the RTC capability, the
    control writes of the ROM window, and the maps from CPU addresses to physical committed byte
    indices. A state is well formed for a profile when the validating constructor accepts it. *)
From S2P Require Import Prelude.

Definition ROM_BANK_BYTES : Z := 16384.
Definition SRAM_PHYSICAL_BASE : Z := 65536.
Definition SRAM_BANK_BYTES : Z := 8192.

Module RomSize.
Inductive Mbc3RomSize := Rom256KiB | Rom1MiB.
End RomSize.

Definition byte_length (s : RomSize.Mbc3RomSize) : Z :=
  match s with RomSize.Rom256KiB => 256 * 1024 | RomSize.Rom1MiB => 1024 * 1024 end.
Definition max_bank (s : RomSize.Mbc3RomSize) : Z :=
  match s with RomSize.Rom256KiB => 15 | RomSize.Rom1MiB => 63 end.
Definition bank_mask (s : RomSize.Mbc3RomSize) : Z := max_bank s.

Module Rtc.
Inductive Mbc3RtcMode := NoRtc | RtcCapable.
End Rtc.

Record Mbc3CartridgeProfile := MkProfile { rom_size : RomSize.Mbc3RomSize; rtc : Rtc.Mbc3RtcMode }.
Definition one_mib_no_rtc : Mbc3CartridgeProfile := MkProfile RomSize.Rom1MiB Rtc.NoRtc.

Module Win.
Inductive Mbc3ExternalWindow := Ram (physical : Z) | RtcRegister (register : Z) | Unavailable.
End Win.

Record Mbc3State := MkMbc3 { ram_enabled : bool; rom_bank : Z; ram_rtc_select : Z }.

Module MErr.
Inductive Mbc3StateError :=
| InvalidRomBank (rom_bank : Z)
| InvalidRamRtcSelect (ram_rtc_select : Z).
End MErr.

Global Instance rtc_mode_eq_dec : EqDecision Rtc.Mbc3RtcMode.
Proof. solve_decision. Defined.
Global Instance window_eq_dec : EqDecision Win.Mbc3ExternalWindow.
Proof. solve_decision. Defined.
Global Instance mbc3_state_eq_dec : EqDecision Mbc3State.
Proof. solve_decision. Defined.

Definition profile_initial : Mbc3State := MkMbc3 false 1 0.

Definition from_profile_parts (profile : Mbc3CartridgeProfile) (enabled : bool) (bank select : Z) :
    result MErr.Mbc3StateError Mbc3State :=
  if (bank =? 0) || (max_bank (rom_size profile) <? bank) then Err (MErr.InvalidRomBank bank)
  else if 15 <? select then Err (MErr.InvalidRamRtcSelect select)
  else Ok (MkMbc3 enabled bank select).

Definition from_parts : bool → Z → Z → result MErr.Mbc3StateError Mbc3State :=
  from_profile_parts one_mib_no_rtc.

Definition map_rom_for (m : Mbc3State) (_profile : Mbc3CartridgeProfile) (address : Z) : Z :=
  if address <? 16384 then address
  else rom_bank m * ROM_BANK_BYTES + (address - ROM_BANK_BYTES).

Definition map_rom (m : Mbc3State) (address : Z) : Z := map_rom_for m one_mib_no_rtc address.

Definition external_window_for (m : Mbc3State) (profile : Mbc3CartridgeProfile) (address : Z) :
    Win.Mbc3ExternalWindow :=
  if negb (ram_enabled m) || negb (in_range 0xa000 0xbfff address) then Win.Unavailable
  else if ram_rtc_select m <=? 3 then
    Win.Ram (SRAM_PHYSICAL_BASE + ram_rtc_select m * SRAM_BANK_BYTES + (address - 0xa000))
  else if bool_decide (rtc profile = Rtc.RtcCapable) && in_range 8 12 (ram_rtc_select m) then
    Win.RtcRegister (ram_rtc_select m)
  else Win.Unavailable.

Definition map_ram (m : Mbc3State) (address : Z) : option Z :=
  match external_window_for m one_mib_no_rtc address with
  | Win.Ram physical => Some physical
  | Win.RtcRegister _ | Win.Unavailable => None
  end.

Definition apply_control_write_for (m : Mbc3State) (profile : Mbc3CartridgeProfile)
    (address value : Z) : Mbc3State :=
  if in_range 0 0x1fff address then
    MkMbc3 (Z.land value 15 =? 10) (rom_bank m) (ram_rtc_select m)
  else if in_range 0x2000 0x3fff address then
    let selected := Z.land value (bank_mask (rom_size profile)) in
    MkMbc3 (ram_enabled m) (if selected =? 0 then 1 else selected) (ram_rtc_select m)
  else if in_range 0x4000 0x5fff address then
    MkMbc3 (ram_enabled m) (rom_bank m) (Z.land value 15)
  else m.

(** ** Well-formed mapper states *)

Definition mbc3_ok (profile : Mbc3CartridgeProfile) (m : Mbc3State) : Prop :=
  1 <= rom_bank m <= max_bank (rom_size profile) ∧ 0 <= ram_rtc_select m <= 15.

Lemma max_bank_length s : (max_bank s + 1) * ROM_BANK_BYTES = byte_length s.
Proof. by destruct s. Qed.
Lemma max_bank_bound s : 1 <= max_bank s <= 63.
Proof. destruct s; cbn; lia. Qed.

Lemma profile_initial_ok profile : mbc3_ok profile profile_initial.
Proof. pose proof (max_bank_bound (rom_size profile)). split; cbn; lia. Qed.

Lemma apply_control_write_ok profile m address value :
  mbc3_ok profile m → 0 <= value → mbc3_ok profile (apply_control_write_for m profile address value).
Proof.
  intros [Hb Hs] Hv. pose proof (max_bank_bound (rom_size profile)).
  pose proof (land_bound_r value (bank_mask (rom_size profile))) as Hm. unfold bank_mask in *.
  pose proof (land_bound_r value 15).
  unfold apply_control_write_for, bank_mask. repeat case_match; split; cbn; try lia.
Qed.
#[export] Hint Resolve profile_initial_ok apply_control_write_ok : bounds.

(** The validating constructor of the mapper accepts exactly the well-formed snapshots and
    returns them unchanged; it reports the ROM bank before the RAM selection. *)
Theorem from_profile_parts_spec profile enabled bank select :
  0 <= bank → 0 <= select →
  from_profile_parts profile enabled bank select =
  if bool_decide (1 <= bank <= max_bank (rom_size profile)) then
    if bool_decide (select <= 15) then Ok (MkMbc3 enabled bank select)
    else Err (MErr.InvalidRamRtcSelect select)
  else Err (MErr.InvalidRomBank bank).
Proof.
  intros. unfold from_profile_parts.
  destruct (Z.eqb_spec bank 0), (Z.ltb_spec (max_bank (rom_size profile)) bank),
    (Z.ltb_spec 15 select); cbn [orb];
    repeat case_bool_decide; solve [done | lia].
Qed.

Lemma from_profile_parts_spec_witness :
  from_profile_parts one_mib_no_rtc true 64 3 = Err (MErr.InvalidRomBank 64).
Proof. rewrite (from_profile_parts_spec one_mib_no_rtc true 64 3) by lia. reflexivity. Defined.

(** After any sequence of control writes from power-on, every address of the ROM window maps
    inside the cartridge, and the two halves of the window never alias: two ROM addresses map to the
    same committed byte only if they are the same address. *)
Theorem mapper_run_rom_window profile writes a b :
  (∀ w, w ∈ writes → 0 <= w.2) → 0 <= a < 32768 → 0 <= b < 32768 →
  let m := foldl (λ m w, apply_control_write_for m profile w.1 w.2) profile_initial writes in
  mbc3_ok profile m ∧
  0 <= map_rom_for m profile a < byte_length (rom_size profile) ∧
  (map_rom_for m profile a = map_rom_for m profile b → a = b).
Proof.
  intros Hw Ha Hb m.
  assert (Hm : mbc3_ok profile m).
  { subst m. cut (mbc3_ok profile profile_initial); [| apply profile_initial_ok].
    generalize profile_initial. induction writes as [|w ws IH]; intros m Hm; [done |].
    cbn [foldl]. apply IH; [intros; apply Hw; by right |].
    apply apply_control_write_ok; [done | apply Hw; by left]. }
  split; [done |]. destruct Hm as [Hk _]. pose proof (max_bank_length (rom_size profile)).
  unfold map_rom_for, ROM_BANK_BYTES in *. clearbody m.
  destruct (Z.ltb_spec a 16384), (Z.ltb_spec b 16384); nia.
Qed.

Lemma mapper_run_rom_window_witness :
  let m := foldl (λ m w, apply_control_write_for m one_mib_no_rtc w.1 w.2) profile_initial
             [(0x2000, 0)] in
  rom_bank m = 1 ∧
  (mbc3_ok one_mib_no_rtc m ∧
   0 <= map_rom_for m one_mib_no_rtc 0x4000 < 1048576 ∧
   (map_rom_for m one_mib_no_rtc 0x4000 = map_rom_for m one_mib_no_rtc 5 → 0x4000 = 5)).
Proof.
  cbv zeta. split; [reflexivity |].
  apply (mapper_run_rom_window one_mib_no_rtc [(0x2000, 0)] 0x4000 5); [| lia | lia].
  intros w [-> | H]%elem_of_cons; [cbn; lia | by apply elem_of_nil in H].
Defined.

(** The external window is open exactly when RAM is enabled and the address lies in
    0xa000..=0xbfff; it then shows the selected SRAM bank, inside the 32-KiB physical SRAM region and
    injectively in (bank, address), or an RTC register on RTC-capable profiles only. *)
Theorem external_window_spec profile m address :
  mbc3_ok profile m →
  match external_window_for m profile address with
  | Win.Ram physical =>
      ram_enabled m = true ∧ 0xa000 <= address <= 0xbfff ∧ ram_rtc_select m <= 3 ∧
      0x10000 <= physical < 0x18000 ∧
      (physical - 0x10000) / 0x2000 = ram_rtc_select m ∧
      (physical - 0x10000) mod 0x2000 = address - 0xa000
  | Win.RtcRegister r =>
      ram_enabled m = true ∧ 0xa000 <= address <= 0xbfff ∧ rtc profile = Rtc.RtcCapable ∧
      r = ram_rtc_select m ∧ 8 <= r <= 12
  | Win.Unavailable =>
      ram_enabled m = false ∨ ~ (0xa000 <= address <= 0xbfff) ∨
      (3 < ram_rtc_select m ∧ (rtc profile = Rtc.NoRtc ∨ ~ (8 <= ram_rtc_select m <= 12)))
  end.
Proof.
  intros [_ Hs]. unfold external_window_for, SRAM_PHYSICAL_BASE, SRAM_BANK_BYTES, in_range.
  destruct (ram_enabled m); cbn [negb orb]; [| by left].
  destruct (Z.leb_spec 0xa000 address), (Z.leb_spec address 0xbfff); cbn [negb orb andb];
    try (right; left; lia).
  destruct (Z.leb_spec (ram_rtc_select m) 3).
  - repeat split; try lia; zlia.
  - destruct (rtc profile); cbn; [right; right; auto |].
    destruct (Z.leb_spec 8 (ram_rtc_select m)), (Z.leb_spec (ram_rtc_select m) 12); cbn;
      first [by repeat split | right; right; split; [done | right; lia]].
Qed.

Lemma external_window_spec_witness :
  let m := MkMbc3 true 2 1 in
  external_window_for m one_mib_no_rtc 0xa000 = Win.Ram 0x12000 ∧
  match external_window_for m one_mib_no_rtc 0xa000 with
  | Win.Ram physical =>
      ram_enabled m = true ∧ 0xa000 <= 0xa000 <= 0xbfff ∧ ram_rtc_select m <= 3 ∧
      0x10000 <= physical < 0x18000 ∧
      (physical - 0x10000) / 0x2000 = ram_rtc_select m ∧
      (physical - 0x10000) mod 0x2000 = 0xa000 - 0xa000
  | _ => False
  end.
Proof.
  split; [reflexivity |].
  exact (external_window_spec one_mib_no_rtc (MkMbc3 true 2 1) 0xa000
           ltac:(split; cbn; lia)).
Defined.
