(* ===== verification/Timer.v ===== *)
(** * The divider and the programmable timer (crates/zksm83-core/src/dmg/timer.rs)

    One T-cycle advances the reload pipeline, then the 16-bit divider, then the falling-edge detector
    that clocks TIMA. The closed form [t_cycles_until_interrupt] is proved equal to ticking. *)
From S2P Require Import Prelude.

Definition TAC_UNUSED : Z := 0xf8.
Definition TIMER_INTERRUPT : Z := 0x04.

Record DmgTimerState := MkTimer {
  raw_div : Z; counter : Z; modulo : Z; control : Z; edge_latch : bool;
  (** Zero means idle; [1..=5] encode overflow ticks [0..=4]. *)
  reload_phase : Z
}.

Definition empty : DmgTimerState := MkTimer 0 0 0 0 false 0.
Definition dmg_post_boot : DmgTimerState := MkTimer 0xabcc 0 0 0 false 0.

Definition read (t : DmgTimerState) (address : Z) : option Z :=
  if address =? 0xff04 then Some (w8 (Z.shiftr (raw_div t) 8))
  else if (address =? 0xff05) && (reload_phase t =? 5) then Some (modulo t)
  else if address =? 0xff05 then Some (counter t)
  else if address =? 0xff06 then Some (modulo t)
  else if address =? 0xff07 then Some (Z.lor TAC_UNUSED (control t))
  else None.

Definition write_counter (t : DmgTimerState) (value : Z) : DmgTimerState :=
  if reload_phase t =? 5 then
    MkTimer (raw_div t) (modulo t) (modulo t) (control t) (edge_latch t) (reload_phase t)
  else MkTimer (raw_div t) value (modulo t) (control t) (edge_latch t) 0.

Definition write_modulo (t : DmgTimerState) (value : Z) : DmgTimerState :=
  MkTimer (raw_div t) (if reload_phase t =? 5 then value else counter t) value (control t)
    (edge_latch t) (reload_phase t).

(** The updated timer and the prior visible byte, or [None] when the address is not a timer
    register (the timer is then unchanged). *)
Definition write (t : DmgTimerState) (address value : Z) : option (DmgTimerState * Z) :=
  before ← read t address;
  if address =? 0xff04 then
    Some (MkTimer 0 (counter t) (modulo t) (control t) (edge_latch t) (reload_phase t), before)
  else if address =? 0xff05 then Some (write_counter t value, before)
  else if address =? 0xff06 then Some (write_modulo t value, before)
  else if address =? 0xff07 then
    Some (MkTimer (raw_div t) (counter t) (modulo t) (Z.land value 7) (edge_latch t)
            (reload_phase t), before)
  else None.

Definition detector_input (t : DmgTimerState) : bool :=
  let mask :=
    match Z.land (control t) 3 with
    | 0 => Z.shiftl 1 9
    | 1 => Z.shiftl 1 3
    | 2 => Z.shiftl 1 5
    | _ => Z.shiftl 1 7
    end in
  tst (control t) 4 && tst (raw_div t) mask.

Definition advance_reload_pipeline (t : DmgTimerState) : DmgTimerState * Z :=
  if reload_phase t =? 5 then
    (MkTimer (raw_div t) (modulo t) (modulo t) (control t) (edge_latch t) 0, TIMER_INTERRUPT)
  else
    (MkTimer (raw_div t) (counter t) (modulo t) (control t) (edge_latch t)
       (if negb (reload_phase t =? 0) then reload_phase t + 1 else reload_phase t), 0).

Definition increment_counter (t : DmgTimerState) : DmgTimerState :=
  if counter t =? 255 then MkTimer (raw_div t) 0 (modulo t) (control t) (edge_latch t) 1
  else MkTimer (raw_div t) (counter t + 1) (modulo t) (control t) (edge_latch t) (reload_phase t).

Definition tick (t : DmgTimerState) : DmgTimerState * Z :=
  let '(t, requested) := advance_reload_pipeline t in
  let t := MkTimer (w16 (raw_div t + 1)) (counter t) (modulo t) (control t) (edge_latch t)
             (reload_phase t) in
  let detector := detector_input t in
  let falling := edge_latch t && negb detector in
  let t := MkTimer (raw_div t) (counter t) (modulo t) (control t) detector (reload_phase t) in
  ((if falling then increment_counter t else t), requested).

Fixpoint advance_ticks (n : nat) (t : DmgTimerState) (requested : Z) : DmgTimerState * Z :=
  match n with
  | O => (t, requested)
  | S n => let '(t, bits) := tick t in advance_ticks n t (Z.lor requested bits)
  end.

Definition advance_t_cycles (t : DmgTimerState) (ticks : Z) : DmgTimerState * Z :=
  advance_ticks (Z.to_nat ticks) t 0.

Definition checked_add_u32 (a b : Z) : option Z :=
  if a + b <? 4294967296 then Some (a + b) else None.

Definition timer_period (t : DmgTimerState) : Z :=
  match Z.land (control t) 3 with 0 => 1024 | 1 => 16 | 2 => 64 | _ => 256 end.

Definition t_cycles_until_interrupt (t : DmgTimerState) : option Z :=
  if negb (tst (control t) 4) || negb (reload_phase t =? 0) ||
     negb (Bool.eqb (edge_latch t) (detector_input t))
  then None
  else
    let period := timer_period t in
    let remainder := Z.land (raw_div t) (period - 1) in
    let first_falling_edge := period - remainder in
    let later_falling_edges := (255 - counter t) * period in
    x ← checked_add_u32 first_falling_edge later_falling_edges;
    checked_add_u32 x 5.

(** ** Well-formed timers *)

Record timer_ok (t : DmgTimerState) : Prop := {
  ok_div : is_u16 (raw_div t);
  ok_counter : is_u8 (counter t);
  ok_modulo : is_u8 (modulo t);
  ok_control : 0 <= control t < 8;
  ok_phase : 0 <= reload_phase t <= 5
}.

Lemma timer_empty_ok : timer_ok empty.
Proof. split; cbn; lia. Qed.
Lemma timer_post_boot_ok : timer_ok dmg_post_boot.
Proof. split; cbn; lia. Qed.

Lemma write_timer_ok t address value t' before :
  timer_ok t → is_u8 value → write t address value = Some (t', before) → timer_ok t'.
Proof.
  intros [Hd Hc Hm Hk Hp] Hv. unfold write. destruct (read t address) as [b|]; cbn; [| done].
  pose proof (land_bound_r value 7) as Hl. unfold write_counter, write_modulo.
  repeat case_match; intros; simplify_eq; split; cbn; lia.
Qed.

Lemma tick_ok t : timer_ok t → timer_ok (tick t).1.
Proof.
  intros [Hd Hc Hm Hk Hp]. unfold tick, advance_reload_pipeline.
  destruct (Z.eqb_spec (reload_phase t) 5), (Z.eqb_spec (reload_phase t) 0); cbn;
    case_match; unfold increment_counter; cbn; repeat case_match; split; cbn;
    auto with bounds; lia.
Qed.

Lemma tick_bits t : (tick t).2 = 0 ∨ (tick t).2 = 4.
Proof. unfold tick, advance_reload_pipeline. destruct (reload_phase t =? 5); cbn; auto. Qed.

Lemma advance_ticks_ok n : ∀ t r,
  timer_ok t → (r = 0 ∨ r = 4) →
  timer_ok (advance_ticks n t r).1 ∧ ((advance_ticks n t r).2 = 0 ∨ (advance_ticks n t r).2 = 4).
Proof.
  induction n as [|n IH]; intros t r Ht Hr; [done |].
  cbn. pose proof (tick_ok t Ht). pose proof (tick_bits t) as Hb. destruct (tick t) as [t' b].
  cbn in *. apply IH; [done |]. by destruct Hr as [-> | ->], Hb as [-> | ->]; auto.
Qed.

Lemma advance_t_cycles_ok t ticks :
  timer_ok t →
  timer_ok (advance_t_cycles t ticks).1 ∧
  ((advance_t_cycles t ticks).2 = 0 ∨ (advance_t_cycles t ticks).2 = 4).
Proof. intros. by apply advance_ticks_ok; auto. Qed.
#[export] Hint Resolve timer_empty_ok timer_post_boot_ok tick_ok : bounds.

(** ** Ticking in closed form

    While the reload pipeline is idle and the edge latch agrees with the detector, [k] ticks count
    the falling edges of the selected divider bit. *)

Lemma timer_period_cases t :
  0 <= control t < 8 →
  (timer_period t = 1024 ∧ Z.land (control t) 3 = 0) ∨ (timer_period t = 16 ∧ Z.land (control t) 3 = 1) ∨
  (timer_period t = 64 ∧ Z.land (control t) 3 = 2) ∨ (timer_period t = 256 ∧ Z.land (control t) 3 = 3).
Proof.
  intros Hc. unfold timer_period. rewrite land_3.
  assert (control t mod 4 = 0 ∨ control t mod 4 = 1 ∨ control t mod 4 = 2 ∨ control t mod 4 = 3)
    as [-> | [-> | [-> | ->]]] by zlia; auto.
Qed.

Lemma period_mask t raw :
  0 <= control t < 8 → Z.land raw (timer_period t - 1) = raw mod timer_period t.
Proof.
  intros Hc. destruct (timer_period_cases t Hc) as [[-> _] | [[-> _] | [[-> _] | [-> _]]]].
  - apply (land_ones_mod _ 10). lia.
  - apply (land_ones_mod _ 4). lia.
  - apply (land_ones_mod _ 6). lia.
  - apply (land_ones_mod _ 8). lia.
Qed.

Lemma tst_div x n : 0 <= n → tst x (2 ^ n) = (x / 2 ^ n mod 2 =? 1).
Proof.
  intros. rewrite tst_pow2 by done. apply eq_true_iff_eq. rewrite Z.testbit_true, Z.eqb_eq by done.
  done.
Qed.

(** The detector is high in the second half of each period. *)
Lemma detector_input_half t :
  0 <= control t < 8 → tst (control t) 4 = true →
  detector_input t = (timer_period t / 2 <=? raw_div t mod timer_period t).
Proof.
  intros Hc He. unfold detector_input. rewrite He. cbn [andb].
  destruct (timer_period_cases t Hc) as [[-> ->] | [[-> ->] | [[-> ->] | [-> ->]]]].
  - change (Z.shiftl 1 9) with (2 ^ 9). rewrite tst_div by lia. change (2 ^ 9) with 512. zlia.
  - change (Z.shiftl 1 3) with (2 ^ 3). rewrite tst_div by lia. change (2 ^ 3) with 8. zlia.
  - change (Z.shiftl 1 5) with (2 ^ 5). rewrite tst_div by lia. change (2 ^ 5) with 32. zlia.
  - change (Z.shiftl 1 7) with (2 ^ 7). rewrite tst_div by lia. change (2 ^ 7) with 128. zlia.
Qed.

Lemma advance_ticks_acc n : ∀ t r,
  advance_ticks n t r = ((advance_ticks n t 0).1, Z.lor r (advance_ticks n t 0).2).
Proof.
  induction n as [|n IH]; intros t r; cbn [advance_ticks]; [by rewrite Z.lor_0_r |].
  destruct (tick t) as [t' b]. rewrite (IH t' (Z.lor r b)), (IH t' (Z.lor 0 b)). cbn.
  by rewrite Z.lor_0_l, Z.lor_assoc.
Qed.

Lemma advance_ticks_add a : ∀ b t r,
  advance_ticks (a + b) t r =
  advance_ticks b (advance_ticks a t r).1 (advance_ticks a t r).2.
Proof.
  induction a as [|a IH]; intros b t r; [done |].
  cbn [advance_ticks Nat.add]. destruct (tick t) as [t' bits]. apply IH.
Qed.

Lemma advance_ticks_quiet_mono a b t :
  (a <= b)%nat → (advance_ticks b t 0).2 = 0 → (advance_ticks a t 0).2 = 0.
Proof.
  intros Hab. replace b with (a + (b - a))%nat by lia.
  rewrite advance_ticks_add, advance_ticks_acc. cbn. by intros [? _]%Z.lor_eq_0_iff.
Qed.

(** A timer whose edge latch agrees with the detector. *)
Definition running (t : DmgTimerState) (raw c phase : Z) : DmgTimerState :=
  MkTimer raw c (modulo t) (control t) (timer_period t / 2 <=? raw mod timer_period t) phase.

Section enabled.
Context (t : DmgTimerState) (Hc : 0 <= control t < 8) (He : tst (control t) 4 = true).

Lemma detector_running raw c m e ph :
  detector_input (MkTimer raw c m (control t) e ph) =
  (timer_period t / 2 <=? raw mod timer_period t).
Proof. by rewrite detector_input_half. Qed.

(** The detector falls exactly when the divider reaches a multiple of the period. *)
Lemma falling_edge raw :
  (timer_period t / 2 <=? raw mod timer_period t) &&
  negb (timer_period t / 2 <=? w16 (raw + 1) mod timer_period t) =
  ((raw + 1) mod timer_period t =? 0).
Proof.
  unfold w16.
  destruct (timer_period_cases t Hc) as [[-> _] | [[-> _] | [[-> _] | [-> _]]]]; zlia.
Qed.

Lemma tick_running raw c phase :
  tick (running t raw c phase) =
  (let c0 := if phase =? 5 then modulo t else c in
   let phase0 := if phase =? 5 then 0 else if negb (phase =? 0) then phase + 1 else phase in
   let raw' := w16 (raw + 1) in
   if (raw + 1) mod timer_period t =? 0 then
     if c0 =? 255 then running t raw' 0 1 else running t raw' (c0 + 1) phase0
   else running t raw' c0 phase0,
   if phase =? 5 then TIMER_INTERRUPT else 0).
Proof.
  unfold tick, advance_reload_pipeline, running.
  destruct (phase =? 5) eqn:E5;
    cbn [raw_div counter modulo control edge_latch reload_phase]; rewrite E5;
    cbn [raw_div counter modulo control edge_latch reload_phase];
    rewrite detector_running, falling_edge; unfold increment_counter;
    cbn [raw_div counter modulo control edge_latch reload_phase]; f_equal;
    (destruct ((raw + 1) mod timer_period t =? 0); [| done]); repeat case_match; done.
Qed.

Lemma tick_idle raw c :
  tick (running t raw c 0) =
  (if (raw + 1) mod timer_period t =? 0 then
     if c =? 255 then running t (w16 (raw + 1)) 0 1 else running t (w16 (raw + 1)) (c + 1) 0
   else running t (w16 (raw + 1)) c 0, 0).
Proof. by rewrite tick_running. Qed.

Lemma idle_ticks n : ∀ raw c,
  0 <= raw → c + (raw mod timer_period t + Z.of_nat n) / timer_period t <= 255 →
  advance_ticks n (running t (w16 raw) c 0) 0 =
  (running t (w16 (raw + Z.of_nat n))
     (c + (raw mod timer_period t + Z.of_nat n) / timer_period t) 0, 0).
Proof.
  induction n as [|n IH]; intros raw c Hr Hb.
  { cbn [advance_ticks Z.of_nat]. rewrite !Z.add_0_r. f_equal. f_equal.
    destruct (timer_period_cases t Hc) as [[-> _] | [[-> _] | [[-> _] | [-> _]]]]; zlia. }
  cbn [advance_ticks]. rewrite tick_idle, Z.lor_0_l.
  assert (Hw : w16 (w16 raw + 1) = w16 (raw + 1)) by (unfold w16; zlia).
  rewrite Hw. replace (raw + Z.of_nat (S n)) with (raw + 1 + Z.of_nat n) by lia.
  assert (Hs : (w16 raw + 1) mod timer_period t = (raw + 1) mod timer_period t).
  { unfold w16.
    destruct (timer_period_cases t Hc) as [[-> _] | [[-> _] | [[-> _] | [-> _]]]]; zlia. }
  rewrite Hs. destruct (Z.eqb_spec ((raw + 1) mod timer_period t) 0) as [E | E].
  - assert (Hq : (raw mod timer_period t + Z.of_nat (S n)) / timer_period t =
                 1 + ((raw + 1) mod timer_period t + Z.of_nat n) / timer_period t).
    { rewrite E. clear - E Hr Hc.
      destruct (timer_period_cases t Hc) as [[Hp _] | [[Hp _] | [[Hp _] | [Hp _]]]];
        rewrite Hp in *; zlia. }
    assert (0 <= ((raw + 1) mod timer_period t + Z.of_nat n) / timer_period t).
    { rewrite E. apply Z.div_pos; [lia |].
        destruct (timer_period_cases t Hc) as [[-> _] | [[-> _] | [[-> _] | [-> _]]]]; lia. }
    rewrite (proj2 (Z.eqb_neq c 255)) by lia. rewrite IH by lia. f_equal. f_equal; lia.
  - assert (Hq : (raw mod timer_period t + Z.of_nat (S n)) / timer_period t =
                 ((raw + 1) mod timer_period t + Z.of_nat n) / timer_period t).
    { f_equal. clear - E Hr Hc.
      destruct (timer_period_cases t Hc) as [[Hp _] | [[Hp _] | [[Hp _] | [Hp _]]]];
        rewrite Hp in *; zlia. }
    rewrite IH by lia. f_equal. f_equal; lia.
Qed.

(** From the overflow tick on: four ticks of pipeline, then the reload and the interrupt. *)
Lemma reload_ticks raw :
  0 <= raw → raw mod timer_period t = 0 →
  advance_ticks 4 (running t (w16 raw) 0 1) 0 = (running t (w16 (raw + 4)) 0 5, 0) ∧
  tick (running t (w16 (raw + 4)) 0 5) = (running t (w16 (raw + 5)) (modulo t) 0, 4).
Proof.
  intros Hr Hm.
  assert (Hstep : ∀ k phase, 0 <= k < 5 → 1 <= phase <= 5 →
    tick (running t (w16 (raw + k)) 0 phase) =
    (running t (w16 (raw + (k + 1))) (if phase =? 5 then modulo t else 0)
       (if phase =? 5 then 0 else phase + 1), if phase =? 5 then 4 else 0)).
  { intros k phase Hk Hphase. rewrite tick_running.
    rewrite (proj2 (Z.eqb_neq phase 0)) by lia. cbn [negb].
    assert (Hs : (w16 (raw + k) + 1) mod timer_period t = k + 1).
    { unfold w16. destruct (timer_period_cases t Hc) as [[Hp _] | [[Hp _] | [[Hp _] | [Hp _]]]];
        rewrite Hp in *; zlia. }
    rewrite Hs, (proj2 (Z.eqb_neq (k + 1) 0)) by lia.
    assert (Hw : w16 (w16 (raw + k) + 1) = w16 (raw + (k + 1))) by (unfold w16; zlia).
    by rewrite Hw. }
  split.
  - replace raw with (raw + 0) at 1 by lia. cbn [advance_ticks].
    rewrite (Hstep 0 1) by lia. change (0 + 1) with 1. change (1 + 1) with 2.
    change (if 1 =? 5 then modulo t else 0) with 0. change (if 1 =? 5 then 0 else 2) with 2.
    change (if 1 =? 5 then 4 else 0) with 0.
    rewrite (Hstep 1 2) by lia. change (1 + 1) with 2. change (2 + 1) with 3.
    change (if 2 =? 5 then modulo t else 0) with 0. change (if 2 =? 5 then 0 else 3) with 3.
    change (if 2 =? 5 then 4 else 0) with 0.
    rewrite (Hstep 2 3) by lia. change (2 + 1) with 3. change (3 + 1) with 4.
    change (if 3 =? 5 then modulo t else 0) with 0. change (if 3 =? 5 then 0 else 4) with 4.
    change (if 3 =? 5 then 4 else 0) with 0.
    rewrite (Hstep 3 4) by lia. done.
  - rewrite (Hstep 4 5) by lia. done.
Qed.

(** The whole run to the next interrupt, from a divider [raw] and a counter [c]. *)
Lemma run_to_interrupt raw c n :
  is_u16 raw → is_u8 c →
  Z.of_nat n = (256 - c) * timer_period t - raw mod timer_period t + 4 →
  advance_ticks n (running t raw c 0) 0 = (running t (w16 (raw + Z.of_nat n)) 0 5, 0) ∧
  advance_ticks (S n) (running t raw c 0) 0 =
    (running t (w16 (raw + Z.of_nat n + 1)) (modulo t) 0, 4) ∧
  (raw + Z.of_nat n + 1) mod timer_period t = 5.
Proof.
  intros Hr Hcc Hn.
  assert (Hp : 16 <= timer_period t <= 1024 ∧ 65536 mod timer_period t = 0)
    by (destruct (timer_period_cases t Hc) as [[-> _] | [[-> _] | [[-> _] | [-> _]]]]; done).
  pose proof (Z.mod_pos_bound raw (timer_period t)) as Hm.
  set (m := Z.to_nat ((256 - c) * timer_period t - raw mod timer_period t - 1)).
  assert (Hmn : Z.of_nat m = (256 - c) * timer_period t - raw mod timer_period t - 1) by nia.
  assert (Hfull : (raw + Z.of_nat m + 1) mod timer_period t = 0).
  { rewrite Hmn, (Z.div_mod raw (timer_period t)) at 1 by lia.
    replace (_ + _ + _ + 1) with ((raw / timer_period t + (256 - c)) * timer_period t) by lia.
    apply Z.mod_mul. lia. }
  assert (Hdiv : (raw mod timer_period t + Z.of_nat m) / timer_period t = 255 - c).
  { symmetry. apply (Z.div_unique_pos _ _ _ (timer_period t - 1)); lia. }
  assert (Hover : advance_ticks (S m) (running t raw c 0) 0 =
                  (running t (w16 (raw + Z.of_nat m + 1)) 0 1, 0)).
  { replace (S m) with (m + 1)%nat by lia. rewrite advance_ticks_add.
    replace raw with (w16 raw) at 1 2 by (unfold w16; zlia).
    rewrite idle_ticks by (rewrite ?Hdiv; lia). cbn [fst snd advance_ticks].
    rewrite tick_idle, Hdiv.
    assert (Hs : (w16 (raw + Z.of_nat m) + 1) mod timer_period t = 0).
    { rewrite <- Hfull. unfold w16. clear - Hc.
      destruct (timer_period_cases t Hc) as [[-> _] | [[-> _] | [[-> _] | [-> _]]]]; zlia. }
    rewrite Hs, (proj2 (Z.eqb_eq (c + (255 - c)) 255)) by lia. cbn [Z.eqb].
    change (0 =? 0) with true. cbv iota. f_equal. f_equal. unfold w16. zlia. }
  destruct (reload_ticks (raw + Z.of_nat m + 1)) as [H4 H5]; [lia | done |].
  assert (Hq : advance_ticks n (running t raw c 0) 0 =
               (running t (w16 (raw + Z.of_nat n)) 0 5, 0)).
  { replace n with (S m + 4)%nat by lia. rewrite advance_ticks_add, Hover. cbn [fst snd].
    rewrite H4. f_equal. f_equal. f_equal. lia. }
  split; [exact Hq |]. split.
  - replace (S n) with (n + 1)%nat by lia. rewrite advance_ticks_add, Hq.
    cbn [fst snd advance_ticks].
    replace (raw + Z.of_nat n) with (raw + Z.of_nat m + 1 + 4) by lia.
    rewrite H5. f_equal. f_equal. f_equal. lia.
  - replace (raw + Z.of_nat n + 1) with (raw + Z.of_nat m + 1 + 5) by lia.
    rewrite Z.add_mod, Hfull by lia. rewrite Z.add_0_l, Z.mod_mod by lia.
    apply Z.mod_small. lia.
Qed.
End enabled.

(** What [t_cycles_until_interrupt] returns, as a number. *)
Lemma until_interrupt_value t n :
  timer_ok t → t_cycles_until_interrupt t = Some n →
  tst (control t) 4 = true ∧ t = running t (raw_div t) (counter t) 0 ∧
  n = (256 - counter t) * timer_period t - raw_div t mod timer_period t + 5.
Proof.
  intros [Hd Hcn Hm Hk Hph]. unfold t_cycles_until_interrupt.
  destruct (tst (control t) 4) eqn:He; cbn [negb orb]; [| done].
  destruct (Z.eqb_spec (reload_phase t) 0) as [E0 | _]; cbn [negb orb]; [| done].
  destruct (Bool.eqb _ _) eqn:Eb; cbn [negb]; [| done]. apply eqb_prop in Eb.
  unfold checked_add_u32. repeat case_match; cbn; intros; simplify_eq; repeat case_match; simplify_eq.
  split; [done |]. split.
  - destruct t; cbn in *. unfold running; cbn. rewrite E0, Eb. f_equal.
    by rewrite detector_input_half.
  - rewrite period_mask by done. lia.
Qed.

(** A stable enabled timer always has a distance; the [u32] arithmetic never overflows. *)
Lemma until_interrupt_running t raw c :
  timer_ok t → tst (control t) 4 = true → is_u8 c →
  t_cycles_until_interrupt (running t raw c 0) =
  Some ((256 - c) * timer_period t - raw mod timer_period t + 5).
Proof.
  intros [Hd Hcn Hm Hk Hph] He Hc. unfold t_cycles_until_interrupt, running.
  cbn [control reload_phase edge_latch raw_div counter]. rewrite He. cbn [negb orb].
  rewrite detector_running, Bool.eqb_reflx by done. change (negb (0 =? 0)) with false. cbn [negb orb].
  change (timer_period (MkTimer _ _ _ (control t) _ _)) with (timer_period t).
  rewrite period_mask by done. unfold checked_add_u32.
  assert (Hp : 16 <= timer_period t <= 1024)
    by (destruct (timer_period_cases t Hk) as [[-> _] | [[-> _] | [[-> _] | [-> _]]]]; lia).
  pose proof (Z.mod_pos_bound raw (timer_period t)).
  rewrite (proj2 (Z.ltb_lt _ _)) by nia. cbn. rewrite (proj2 (Z.ltb_lt _ _)) by nia. f_equal. lia.
Qed.

Lemma interrupt_exact t n :
  timer_ok t → t_cycles_until_interrupt t = Some n →
  5 < n ∧
  (∀ k, (k < Z.to_nat n)%nat → (advance_ticks k t 0).2 = 0) ∧
  ∃ raw, is_u16 raw ∧
    advance_ticks (Z.to_nat n) t 0 = (running t raw (modulo t) 0, TIMER_INTERRUPT) ∧
    raw mod timer_period t = 5.
Proof.
  intros Hok Hn. destruct (until_interrupt_value t n Hok Hn) as (He & Ht & Hv).
  destruct Hok as [Hd Hcn Hm Hk Hph].
  assert (Hp : 16 <= timer_period t <= 1024)
    by (destruct (timer_period_cases t Hk) as [[-> _] | [[-> _] | [[-> _] | [-> _]]]]; lia).
  pose proof (Z.mod_pos_bound (raw_div t) (timer_period t)).
  assert (5 < n) by nia. split; [done |].
  destruct (run_to_interrupt t Hk He (raw_div t) (counter t) (Z.to_nat n - 1)) as (Hq & Hs & Hr);
    [done | done | lia |].
  rewrite <- Ht in Hq, Hs. split.
  - intros k Hlt. apply (advance_ticks_quiet_mono k (Z.to_nat n - 1)); [lia |]. by rewrite Hq.
  - eexists. split; [apply w16_bound |].
    replace (Z.to_nat n) with (S (Z.to_nat n - 1)) by lia. split; [exact Hs |].
    rewrite <- Hr. unfold w16. clear - Hk.
    destruct (timer_period_cases t Hk) as [[-> _] | [[-> _] | [[-> _] | [-> _]]]]; zlia.
Qed.

(** C40. [t_cycles_until_interrupt] is exact: when it returns [n], ticking the timer raises no
    interrupt before the [n]-th T-cycle and raises TIMER there; TIMA has then been reloaded from TMA,
    the pipeline is idle and the timer is stable again, so the next interrupt follows after exactly
    [(256 - TMA)] periods of the selected divider bit. *)
Theorem t_cycles_until_interrupt_exact t n :
  timer_ok t → t_cycles_until_interrupt t = Some n →
  (∀ k, (k < Z.to_nat n)%nat → (advance_ticks k t 0).2 = 0) ∧
  let '(t', requested) := advance_ticks (Z.to_nat n) t 0 in
  requested = TIMER_INTERRUPT ∧ counter t' = modulo t ∧ reload_phase t' = 0 ∧
  modulo t' = modulo t ∧ control t' = control t ∧
  t_cycles_until_interrupt t' = Some ((256 - modulo t) * timer_period t).
Proof.
  intros Hok Hn. destruct (interrupt_exact t n Hok Hn) as (_ & Hq & raw & Hr & -> & Hm).
  destruct (until_interrupt_value t n Hok Hn) as (He & _ & _).
  split; [done |]. repeat split.
  rewrite until_interrupt_running by (try apply Hok; done). f_equal. lia.
Qed.

Lemma t_cycles_until_interrupt_exact_witness :
  let t := MkTimer 0 255 0x42 5 false 0 in
  t_cycles_until_interrupt t = Some 21 ∧
  (∀ k, (k < 21)%nat → (advance_ticks k t 0).2 = 0) ∧
  let '(t', requested) := advance_ticks 21 t 0 in
  requested = TIMER_INTERRUPT ∧ counter t' = 0x42 ∧ reload_phase t' = 0 ∧ modulo t' = 0x42 ∧
  control t' = 5 ∧ t_cycles_until_interrupt t' = Some ((256 - 0x42) * 16).
Proof.
  split; [reflexivity |].
  exact (t_cycles_until_interrupt_exact (MkTimer 0 255 0x42 5 false 0) 21
           ltac:(split; cbn; lia) eq_refl).
Defined.

(** The timer registers behave as memory-mapped registers: a write reports the prior visible
    byte and preserves well-formedness; afterwards DIV reads zero, TMA and TAC read what was stored
    (TAC with its unused bits set), TIMA reads the written byte except in the reload cycle, where the
    write is lost to TMA, and a TMA write in the reload cycle is forwarded to TIMA. *)
Theorem timer_write_read t address value :
  timer_ok t → is_u8 value → 0xff04 <= address <= 0xff07 →
  ∃ t' before, write t address value = Some (t', before) ∧ read t address = Some before ∧
    timer_ok t' ∧ edge_latch t' = edge_latch t ∧
    read t' address =
      Some (if address =? 0xff04 then 0
            else if address =? 0xff05 then (if reload_phase t =? 5 then modulo t else value)
            else if address =? 0xff06 then value
            else Z.lor 0xf8 (Z.land value 7)) ∧
    (address <> 0xff04 → raw_div t' = raw_div t) ∧
    (address = 0xff06 → reload_phase t = 5 → counter t' = value).
Proof.
  intros Hok Hv Ha.
  assert (Hcase : address = 0xff04 ∨ address = 0xff05 ∨ address = 0xff06 ∨ address = 0xff07) by lia.
  assert (Hw : ∃ t' before, write t address value = Some (t', before)).
  { unfold write, read. destruct Hcase as [-> | [-> | [-> | ->]]]; cbn; eauto.
    destruct (reload_phase t =? 5); cbn; eauto. }
  destruct Hw as (t' & before & Hw). exists t', before. split; [done |].
  pose proof (write_timer_ok t address value t' before Hok Hv Hw).
  revert Hw. unfold write. destruct (read t address) as [b|] eqn:Er; [| done]. cbn.
  destruct Hcase as [-> | [-> | [-> | ->]]]; cbn; intros [= <- ->].
  all: split; [done |]; split; [done |].
  - done.
  - unfold write_counter. destruct (reload_phase t =? 5) eqn:E; (split; [done |]);
      (split; [| done]); unfold read; cbn; by rewrite ?E.
  - unfold write_modulo. split; [done |]. split; [done |]. split; [done |].
    intros _ ->. done.
  - done.
Qed.

Lemma timer_write_read_witness :
  ∃ t' before, write empty 0xff06 7 = Some (t', before) ∧ read empty 0xff06 = Some before ∧
    timer_ok t' ∧ edge_latch t' = edge_latch empty ∧ read t' 0xff06 = Some 7 ∧
    (0xff06 <> 0xff04 → raw_div t' = raw_div empty) ∧
    (0xff06 = 0xff06 → reload_phase empty = 5 → counter t' = 7).
Proof. exact (timer_write_read empty 0xff06 7 timer_empty_ok ltac:(lia) ltac:(lia)). Defined.
