(* ===== verification/Apu.v ===== *)
(** * The audio registers (crates/zksm83-core/src/dmg/apu.rs)

    The fold-carried control registers FF10-FF26 and wave RAM, with the read masks, the power switch
    and the channel-status bits of NR52. *)
From S2P Require Import Prelude.

Definition REGISTER_START : Z := 0xff10.
Definition REGISTER_END : Z := 0xff26.
Definition WAVE_START : Z := 0xff30.
Definition WAVE_END : Z := 0xff3f.

Record DmgApuState := MkApu { registers : list Z; wave_ram : list Z }.

Definition empty : DmgApuState := MkApu (replicate 23 0) (replicate 16 0).
Definition dmg_post_boot : DmgApuState :=
  MkApu [0; 0x80; 0xf3; 0; 0; 0; 0; 0; 0; 0; 0; 0; 0; 0; 0; 0; 0; 0; 0; 0; 0x77; 0xf3; 0x81]
    (replicate 16 0).

Definition read_mask (address : Z) : Z :=
  if address =? 0xff10 then 0x80
  else if (address =? 0xff11) || (address =? 0xff16) then 0x3f
  else if (address =? 0xff13) || (address =? 0xff15) || (address =? 0xff18) ||
          (address =? 0xff1b) || (address =? 0xff1d) || (address =? 0xff1f) ||
          (address =? 0xff20) then 0xff
  else if (address =? 0xff14) || (address =? 0xff19) || (address =? 0xff1e) ||
          (address =? 0xff23) then 0xbf
  else if address =? 0xff1a then 0x7f
  else if address =? 0xff1c then 0x9f
  else if address =? 0xff26 then 0x70
  else 0.

Definition is_length_register (address : Z) : bool :=
  (address =? 0xff11) || (address =? 0xff16) || (address =? 0xff1b) || (address =? 0xff20).

Definition dac_register_channel (address : Z) : option Z :=
  if address =? 0xff12 then Some 0
  else if address =? 0xff17 then Some 1
  else if address =? 0xff21 then Some 3
  else None.

Definition trigger_register_channel (address : Z) : option Z :=
  if address =? 0xff14 then Some 0
  else if address =? 0xff19 then Some 1
  else if address =? 0xff1e then Some 2
  else if address =? 0xff23 then Some 3
  else None.

(** [u16::checked_sub] *)
Definition checked_sub_u16 (a b : Z) : option Z := if a <? b then None else Some (a - b).

Definition register_byte (a : DmgApuState) (address : Z) : option Z :=
  offset ← checked_sub_u16 address REGISTER_START;
  if REGISTER_END <? address then None else registers a !! Z.to_nat offset.

Definition set_register_byte (a : DmgApuState) (address value : Z) : option DmgApuState :=
  offset ← checked_sub_u16 address REGISTER_START;
  if REGISTER_END <? address then None
  else
    _ ← registers a !! Z.to_nat offset;
    Some (MkApu (<[Z.to_nat offset := value]> (registers a)) (wave_ram a)).

Definition wave_byte (a : DmgApuState) (address : Z) : option Z :=
  offset ← checked_sub_u16 address WAVE_START; wave_ram a !! Z.to_nat offset.

Definition set_wave_byte (a : DmgApuState) (address value : Z) : option DmgApuState :=
  offset ← checked_sub_u16 address WAVE_START;
  _ ← wave_ram a !! Z.to_nat offset;
  Some (MkApu (registers a) (<[Z.to_nat offset := value]> (wave_ram a))).

(** [Option::is_some_and] *)
Definition is_some_and {A} (f : A → bool) (o : option A) : bool :=
  match o with Some a => f a | None => false end.

Definition powered (a : DmgApuState) : bool :=
  is_some_and (λ value, tst value 0x80) (register_byte a 0xff26).

Definition write_power (a : DmgApuState) (value : Z) : DmgApuState :=
  if Z.land value 0x80 =? 0 then MkApu (map (λ _, 0) (registers a)) (wave_ram a)
  else
    match registers a !! 22%nat with
    | Some master => MkApu (<[22%nat := Z.lor master 0x80]> (registers a)) (wave_ram a)
    | None => a
    end.

Definition channel_dac_enabled (a : DmgApuState) (channel : Z) : bool :=
  let address :=
    match channel with 0 => 0xff12 | 1 => 0xff17 | 2 => 0xff1a | _ => 0xff21 end in
  is_some_and (λ value, if channel =? 2 then tst value 0x80 else tst value 0xf8)
    (register_byte a address).

Definition set_channel_active (a : DmgApuState) (channel : Z) (active : bool) : DmgApuState :=
  match registers a !! 22%nat with
  | Some master =>
      let mask := w8 (Z.shiftl 1 channel) in
      MkApu (<[22%nat := if active then Z.lor master mask else Z.land master (not8 mask)]>
               (registers a)) (wave_ram a)
  | None => a
  end.

Definition apply_dac_and_trigger (a : DmgApuState) (address value : Z) : DmgApuState :=
  let a :=
    match dac_register_channel address with
    | Some channel => if Z.land value 0xf8 =? 0 then set_channel_active a channel false else a
    | None => a
    end in
  let a :=
    if (address =? 0xff1a) && (Z.land value 0x80 =? 0) then set_channel_active a 2 false else a in
  match trigger_register_channel address with
  | Some channel =>
      if tst value 0x80 && channel_dac_enabled a channel then set_channel_active a channel true
      else a
  | None => a
  end.

Definition read (a : DmgApuState) (address : Z) : option Z :=
  if in_range 0xff27 0xff2f address then Some 0xff
  else if in_range WAVE_START WAVE_END address then wave_byte a address
  else stored ← register_byte a address; Some (Z.lor stored (read_mask address)).

(** The updated registers and the prior visible byte. *)
Definition write (a : DmgApuState) (address value : Z) : option (DmgApuState * Z) :=
  before ← read a address;
  if in_range 0xff27 0xff2f address then Some (a, before)
  else if in_range WAVE_START WAVE_END address then
    a ← set_wave_byte a address value; Some (a, before)
  else if address =? 0xff26 then Some (write_power a value, before)
  else if negb (powered a) && negb (is_length_register address) then Some (a, before)
  else
    let stored := Z.land value (not8 (read_mask address)) in
    a ← set_register_byte a address stored;
    Some (apply_dac_and_trigger a address value, before).

(** Packs up to eight bytes into one little-endian word, zero-padded. *)
Definition pack_eight (bytes : list Z) : Z := of_le_bytes (take 8 (bytes ++ replicate 8 0)).
Definition control_low_pack (a : DmgApuState) : Z := pack_eight (take 8 (registers a)).
Definition control_high_pack (a : DmgApuState) : Z := pack_eight (take 8 (drop 8 (registers a))).
Definition mixer_pack (a : DmgApuState) : Z := pack_eight (take 7 (drop 16 (registers a))).
Definition wave_low_pack (a : DmgApuState) : Z := pack_eight (take 8 (wave_ram a)).
Definition wave_high_pack (a : DmgApuState) : Z := pack_eight (take 8 (drop 8 (wave_ram a))).

(** ** The register file as a list *)

Definition dac_offset (channel : Z) : nat :=
  match channel with 0 => 2 | 1 => 7 | 2 => 10 | _ => 17 end.

Definition channel_active (a : DmgApuState) (channel : Z) : bool :=
  is_some_and (λ master, Z.testbit master channel) (registers a !! 22%nat).

Record apu_shape (a : DmgApuState) : Prop := {
  ok_registers : length (registers a) = 23%nat;
  ok_wave : length (wave_ram a) = 16%nat;
  ok_register_bytes : Forall (λ b, is_u8 b) (registers a);
  ok_wave_bytes : Forall (λ b, is_u8 b) (wave_ram a)
}.

Definition status_ok (a : DmgApuState) (c : Z) : Prop :=
  channel_active a c = true → channel_dac_enabled a c = true.

(** Besides the shape, NR52 never reports an active channel whose DAC is off. *)
Definition apu_ok (a : DmgApuState) : Prop := apu_shape a ∧ ∀ c, 0 <= c < 4 → status_ok a c.

Lemma apu_empty_ok : apu_ok empty.
Proof.
  split; [split; [done | done | by repeat constructor | by repeat constructor] |].
  intros c Hc. assert (c = 0 ∨ c = 1 ∨ c = 2 ∨ c = 3) as [-> | [-> | [-> | ->]]] by lia; done.
Qed.
Lemma apu_post_boot_ok : apu_ok dmg_post_boot.
Proof.
  split; [split; [done | done | by repeat constructor | by repeat constructor] |].
  intros c Hc. assert (c = 0 ∨ c = 1 ∨ c = 2 ∨ c = 3) as [-> | [-> | [-> | ->]]] by lia; done.
Qed.
#[export] Hint Resolve apu_empty_ok apu_post_boot_ok : bounds.

Lemma register_byte_lookup a address :
  0xff10 <= address <= 0xff26 →
  register_byte a address = registers a !! Z.to_nat (address - 0xff10).
Proof.
  intros. unfold register_byte, checked_sub_u16, REGISTER_START, REGISTER_END.
  rewrite (proj2 (Z.ltb_ge _ _)) by lia. cbn. by rewrite (proj2 (Z.ltb_ge _ _)) by lia.
Qed.

Lemma register_byte_none a address :
  ~ (0xff10 <= address <= 0xff26) → register_byte a address = None.
Proof.
  intros. unfold register_byte, checked_sub_u16, REGISTER_START, REGISTER_END.
  destruct (Z.ltb_spec address 0xff10); [done |]. cbn. by rewrite (proj2 (Z.ltb_lt _ _)) by lia.
Qed.

Lemma wave_byte_lookup a address :
  0xff30 <= address → wave_byte a address = wave_ram a !! Z.to_nat (address - 0xff30).
Proof.
  intros. unfold wave_byte, checked_sub_u16, WAVE_START.
  by rewrite (proj2 (Z.ltb_ge _ _)) by lia.
Qed.

Lemma dac_enabled_lookup a c :
  0 <= c < 4 →
  channel_dac_enabled a c =
  is_some_and (λ value, tst value (if c =? 2 then 0x80 else 0xf8)) (registers a !! dac_offset c).
Proof.
  intros Hc. assert (c = 0 ∨ c = 1 ∨ c = 2 ∨ c = 3) as [-> | [-> | [-> | ->]]] by lia; done.
Qed.

Lemma dac_offset_neq c : dac_offset c <> 22%nat.
Proof. unfold dac_offset. repeat case_match; done. Qed.

Lemma read_mask_byte address : is_u8 (read_mask address).
Proof. unfold read_mask. repeat case_match; lia. Qed.

(** ** The channel-status bits *)

Lemma shiftl1_byte c : 0 <= c < 8 → w8 (Z.shiftl 1 c) = 2 ^ c.
Proof.
  intros. unfold w8. rewrite Z.shiftl_1_l. apply Z.mod_small.
  split; [lia |]. apply (Z.lt_le_trans _ (2 ^ 8)); [apply Z.pow_lt_mono_r; lia | done].
Qed.

Lemma testbit_byte_high x n : is_u8 x → 8 <= n → Z.testbit x n = false.
Proof. intros. rewrite <- (Z.mod_small x (2 ^ 8)) by done. apply Z.mod_pow2_bits_high. lia. Qed.

Lemma set_channel_active_lookup a c on k :
  k <> 22%nat → registers (set_channel_active a c on) !! k = registers a !! k.
Proof.
  intros. unfold set_channel_active. case_match; [| done]. cbn. by rewrite list_lookup_insert_ne.
Qed.

Lemma set_channel_active_same a c on c' :
  length (registers a) = 23%nat → 0 <= c < 4 → 0 <= c' < 4 →
  channel_active (set_channel_active a c on) c' = if c =? c' then on else channel_active a c'.
Proof.
  intros Hl Hc Hc'. unfold channel_active, set_channel_active.
  destruct (lookup_lt_is_Some_2 (registers a) 22 ltac:(lia)) as [m Hm]. rewrite Hm. cbn.
  rewrite list_lookup_insert_eq by lia. cbn. rewrite shiftl1_byte by lia.
  destruct on.
  - rewrite Z.lor_spec, Z.pow2_bits_eqb by lia.
    destruct (c =? c'); [apply orb_true_r | apply orb_false_r].
  - unfold not8. rewrite Z.land_spec, Z.lxor_spec, Z.pow2_bits_eqb by lia.
    change 255 with (Z.ones 8). rewrite Z.ones_spec_low by lia.
    destruct (c =? c'); [apply andb_false_r | apply andb_true_r].
Qed.

Lemma set_channel_active_shape a c on : apu_shape a → apu_shape (set_channel_active a c on).
Proof.
  intros [Hr Hw Hb Hwb]. unfold set_channel_active. case_match eqn:E; [| done].
  split; cbn; [by rewrite length_insert | done | | done].
  apply Forall_insert; [done |]. pose proof (Forall_lookup_1 _ _ _ _ Hb E). cbn beta in *.
  destruct on; auto with bounds.
Qed.

Lemma set_channel_active_ok a c on :
  apu_shape a → (∀ c', 0 <= c' < 4 → c' <> c → status_ok a c') → 0 <= c < 4 →
  (on = true → channel_dac_enabled a c = true) →
  apu_ok (set_channel_active a c on).
Proof.
  intros Hs Ho Hc Hon. split; [by apply set_channel_active_shape |].
  intros c' Hc'. unfold status_ok.
  rewrite set_channel_active_same by (try apply Hs; lia).
  rewrite dac_enabled_lookup, set_channel_active_lookup by (try apply dac_offset_neq; lia).
  rewrite <- dac_enabled_lookup by lia.
  destruct (Z.eqb_spec c c') as [<- |]; [done | apply Ho; lia].
Qed.

(** Storing a control register. *)
Definition store (a : DmgApuState) (off : nat) (stored : Z) : DmgApuState :=
  MkApu (<[off := stored]> (registers a)) (wave_ram a).

Lemma set_register_byte_store a address stored :
  apu_shape a → 0xff10 <= address <= 0xff26 →
  set_register_byte a address stored = Some (store a (Z.to_nat (address - 0xff10)) stored).
Proof.
  intros Hs Ha. unfold set_register_byte, checked_sub_u16, REGISTER_START, REGISTER_END.
  rewrite (proj2 (Z.ltb_ge _ _)) by lia. cbn. rewrite (proj2 (Z.ltb_ge _ _)) by lia.
  destruct (lookup_lt_is_Some_2 (registers a) (Z.to_nat (address - 0xff10))) as [x Hx];
    [destruct Hs; lia |]. cbn. by rewrite Hx.
Qed.

Lemma store_shape a off stored : apu_shape a → is_u8 stored → apu_shape (store a off stored).
Proof.
  intros [Hr Hw Hb Hwb] Hs. split; cbn; [by rewrite length_insert | done | | done].
  by apply Forall_insert.
Qed.

Lemma store_status a off stored c :
  off <> 22%nat → off <> dac_offset c → 0 <= c < 4 → status_ok a c → status_ok (store a off stored) c.
Proof.
  intros H22 Hd Hc. unfold status_ok. rewrite !dac_enabled_lookup by lia.
  unfold channel_active, store. cbn. by rewrite !list_lookup_insert_ne.
Qed.

Lemma store_dac a c stored :
  apu_shape a → 0 <= c < 4 →
  channel_dac_enabled (store a (dac_offset c) stored) c = tst stored (if c =? 2 then 0x80 else 0xf8).
Proof.
  intros Hs Hc. rewrite dac_enabled_lookup by lia. unfold store. cbn.
  rewrite list_lookup_insert_eq; [done |]. rewrite (ok_registers _ Hs).
  unfold dac_offset. repeat case_match; lia.
Qed.

Lemma land_not8_0 x : is_u8 x → Z.land x (not8 0) = x.
Proof.
  intros. change (not8 0) with 255. rewrite land_255. by apply Z.mod_small.
Qed.

(** The control-register write proper. *)
Definition control_write (a : DmgApuState) (address value : Z) : DmgApuState :=
  apply_dac_and_trigger
    (store a (Z.to_nat (address - 0xff10)) (Z.land value (not8 (read_mask address)))) address value.

Lemma dac_write_ok a c value address :
  apu_ok a → is_u8 value → 0 <= c < 4 → c <> 2 → address = 0xff10 + Z.of_nat (dac_offset c) →
  apu_ok (if Z.land value 0xf8 =? 0 then set_channel_active (store a (dac_offset c) value) c false
          else store a (dac_offset c) value).
Proof.
  intros [Hs Ho] Hv Hc H2 Ha. pose proof (store_shape a (dac_offset c) value Hs Hv).
  assert (Hother : ∀ c', 0 <= c' < 4 → c' <> c → status_ok (store a (dac_offset c) value) c').
  { intros c' Hc' Hne. apply store_status; [apply dac_offset_neq | | lia | by apply Ho].
    intros E. apply Hne. revert E. clear - Hc Hc'.
    assert (c = 0 ∨ c = 1 ∨ c = 2 ∨ c = 3) as [-> | [-> | [-> | ->]]] by lia;
      assert (c' = 0 ∨ c' = 1 ∨ c' = 2 ∨ c' = 3) as [-> | [-> | [-> | ->]]] by lia; done. }
  destruct (Z.land value 0xf8 =? 0) eqn:E.
  - apply set_channel_active_ok; done.
  - split; [done |]. intros c' Hc'. destruct (decide (c' = c)) as [-> |]; [| auto].
    intros _. rewrite store_dac by done. rewrite (proj2 (Z.eqb_neq c 2)) by done.
    unfold tst. by rewrite E.
Qed.

Lemma trigger_write_ok a c off stored value :
  apu_ok a → is_u8 stored → 0 <= c < 4 → off <> 22%nat → (∀ c', off <> dac_offset c') →
  apu_ok (if tst value 0x80 && channel_dac_enabled (store a off stored) c
          then set_channel_active (store a off stored) c true else store a off stored).
Proof.
  intros [Hs Ho] Hv Hc H22 Hd. pose proof (store_shape a off stored Hs Hv).
  assert (Hall : ∀ c', 0 <= c' < 4 → status_ok (store a off stored) c')
    by (intros; apply store_status; auto).
  destruct (tst value 0x80 && channel_dac_enabled (store a off stored) c) eqn:E; [| done].
  apply andb_prop in E as [_ E]. apply set_channel_active_ok; auto.
Qed.

(** The three kinds of control-register addresses that touch the channel status. *)
Lemma control_write_ok a address value :
  apu_ok a → is_u8 value → 0xff10 <= address <= 0xff25 → apu_ok (control_write a address value).
Proof.
  intros Hok Hv Ha. unfold control_write, apply_dac_and_trigger.
  assert (Hst : is_u8 (Z.land value (not8 (read_mask address)))) by auto with bounds.
  destruct (decide (address = 0xff12 ∨ address = 0xff17 ∨ address = 0xff21)) as [Hd | Hd].
  { assert (Hd' : ∃ c, dac_register_channel address = Some c ∧ 0 <= c < 4 ∧ c <> 2 ∧
      address = 0xff10 + Z.of_nat (dac_offset c) ∧ (address =? 0xff1a) = false ∧
      trigger_register_channel address = None ∧ read_mask address = 0).
    { destruct Hd as [-> | [-> | ->]]; eexists; (split; [reflexivity |]); repeat split; try lia; done. }
    destruct Hd' as (c & -> & Hc & H2 & Haddr & -> & -> & ->). cbn [andb].
    rewrite land_not8_0 by done. replace (Z.to_nat (address - 0xff10)) with (dac_offset c) by lia.
    apply (dac_write_ok a c value address); done. }
  assert (Hnd : dac_register_channel address = None).
  { unfold dac_register_channel. repeat case_match; try done; lia. }
  rewrite Hnd. destruct (decide (address = 0xff1a)) as [-> | H1a].
  { change (0xff1a =? 0xff1a) with true. cbn [andb].
    change (trigger_register_channel 0xff1a) with (@None Z).
    change (Z.to_nat (0xff1a - 0xff10)) with (dac_offset 2).
    change (not8 (read_mask 0xff1a)) with 0x80 in *. destruct Hok as [Hs Ho].
    pose proof (store_shape a (dac_offset 2) (Z.land value 0x80) Hs Hst).
    assert (Hother : ∀ c', 0 <= c' < 4 → c' <> 2 → status_ok (store a (dac_offset 2) (Z.land value 0x80)) c').
    { intros c' Hc' Hne. apply store_status; [done | | lia | by apply Ho].
      assert (c' = 0 ∨ c' = 1 ∨ c' = 3) as [-> | [-> | ->]] by lia; done. }
    destruct (Z.land value 0x80 =? 0) eqn:E.
    - apply set_channel_active_ok; done.
    - split; [done |]. intros c' Hc'. destruct (decide (c' = 2)) as [-> |]; [| auto].
      intros _. rewrite store_dac by done. change (2 =? 2) with true. cbv iota. unfold tst.
      rewrite <- Z.land_assoc, Z.land_diag. by rewrite E. }
  rewrite (proj2 (Z.eqb_neq address 0xff1a)) by done. cbn [andb].
  assert (Hoff : Z.to_nat (address - 0xff10) <> 22%nat) by lia.
  assert (Hdo : ∀ c', Z.to_nat (address - 0xff10) <> dac_offset c').
  { intros c'. unfold dac_offset. repeat case_match; lia. }
  destruct (trigger_register_channel address) as [c|] eqn:Ht.
  - assert (0 <= c < 4) by (unfold trigger_register_channel in Ht; repeat case_match; simplify_eq; lia).
    apply trigger_write_ok; done.
  - destruct Hok as [Hs Ho]. split; [by apply store_shape |].
    intros c Hc. apply store_status; auto.
Qed.

Lemma write_power_ok a value : apu_ok a → apu_ok (write_power a value).
Proof.
  intros [[Hr Hw Hb Hwb] Ho]. unfold write_power. destruct (Z.land value 0x80 =? 0).
  - split; [split; cbn; [by rewrite length_map | done | | done] |].
    { apply Forall_fmap, Forall_true. done. }
    intros c Hc. unfold status_ok, channel_active. cbn. rewrite list_lookup_fmap.
    destruct (registers a !! 22%nat); cbn; [by rewrite Z.bits_0 | done].
  - destruct (registers a !! 22%nat) as [m|] eqn:E; [| done].
    pose proof (Forall_lookup_1 _ _ _ _ Hb E). cbn beta in *.
    split; [split; cbn; [by rewrite length_insert | done | | done] |].
    + apply Forall_insert; auto with bounds.
    + intros c Hc. unfold status_ok. rewrite dac_enabled_lookup by done. cbn.
      rewrite list_lookup_insert_ne by (pose proof (dac_offset_neq c); done).
      rewrite <- dac_enabled_lookup by done. intros Hact. apply Ho; [done |]. revert Hact.
      unfold channel_active. cbn. rewrite list_lookup_insert_eq, E by lia. cbn.
      change 0x80 with (2 ^ 7). rewrite Z.lor_spec, Z.pow2_bits_eqb by lia.
      rewrite (proj2 (Z.eqb_neq 7 c)) by lia. by rewrite orb_false_r.
Qed.

(** [write] by region, once the error branches are discharged. *)
Definition apu_write (a : DmgApuState) (address value : Z) : DmgApuState :=
  if in_range 0xff27 0xff2f address then a
  else if in_range WAVE_START WAVE_END address then
    MkApu (registers a) (<[Z.to_nat (address - 0xff30) := value]> (wave_ram a))
  else if address =? 0xff26 then write_power a value
  else if negb (powered a) && negb (is_length_register address) then a
  else control_write a address value.

Lemma read_some a address :
  apu_shape a → 0xff10 <= address <= 0xff3f → ∃ v, read a address = Some v ∧ is_u8 v.
Proof.
  intros Hs Ha. unfold read, in_range, WAVE_START, WAVE_END.
  destruct (Z.leb_spec 0xff27 address), (Z.leb_spec address 0xff2f),
    (Z.leb_spec 0xff30 address), (Z.leb_spec address 0xff3f); cbn [andb]; try lia;
    try (eexists; split; [done | lia]).
  - rewrite wave_byte_lookup by lia.
    destruct (lookup_lt_is_Some_2 (wave_ram a) (Z.to_nat (address - 0xff30))) as [x Hx];
      [rewrite (ok_wave _ Hs); lia |].
    exists x. split; [done | by apply (Forall_lookup_1 _ _ _ _ (ok_wave_bytes _ Hs) Hx)].
  - rewrite register_byte_lookup by lia.
    destruct (lookup_lt_is_Some_2 (registers a) (Z.to_nat (address - 0xff10))) as [x Hx];
      [rewrite (ok_registers _ Hs); lia |].
    rewrite Hx. eexists. split; [done |].
    apply lor_u8; [by apply (Forall_lookup_1 _ _ _ _ (ok_register_bytes _ Hs) Hx) |].
    apply read_mask_byte.
Qed.

Lemma write_apu_write a address value before :
  apu_shape a → 0xff10 <= address <= 0xff3f → read a address = Some before →
  write a address value = Some (apu_write a address value, before).
Proof.
  intros Hs Ha Hr. unfold write, apu_write. rewrite Hr. cbn.
  destruct (in_range 0xff27 0xff2f address) eqn:E1; [done |].
  destruct (in_range WAVE_START WAVE_END address) eqn:E2.
  - unfold set_wave_byte, checked_sub_u16. unfold in_range, WAVE_START, WAVE_END in *.
    rewrite (proj2 (Z.ltb_ge _ _)) by lia. cbn.
    destruct (lookup_lt_is_Some_2 (wave_ram a) (Z.to_nat (address - 0xff30))) as [x Hx];
      [rewrite (ok_wave _ Hs); lia |]. by rewrite Hx.
  - destruct (Z.eqb_spec address 0xff26); [done |].
    destruct (negb (powered a) && negb (is_length_register address)); [done |].
    unfold in_range, WAVE_START, WAVE_END in *.
    rewrite set_register_byte_store by (try done; lia). done.
Qed.

Lemma apu_write_ok a address value :
  apu_ok a → is_u8 value → 0xff10 <= address <= 0xff3f → apu_ok (apu_write a address value).
Proof.
  intros Hok Hv Ha. unfold apu_write.
  destruct (in_range 0xff27 0xff2f address) eqn:E1; [done |].
  destruct (in_range WAVE_START WAVE_END address) eqn:E2.
  - destruct Hok as [[Hr Hw Hb Hwb] Ho]. split; [| done].
    split; cbn; [done | by rewrite length_insert | done | by apply Forall_insert].
  - destruct (Z.eqb_spec address 0xff26); [by apply write_power_ok |].
    destruct (negb (powered a) && negb (is_length_register address)); [done |].
    unfold in_range, WAVE_START, WAVE_END in *. apply control_write_ok; [done | done | lia].
Qed.

Lemma read_outside a address : ~ (0xff10 <= address <= 0xff3f) → read a address = None.
Proof.
  intros Ha. unfold read, in_range, WAVE_START, WAVE_END.
  destruct (Z.leb_spec 0xff27 address), (Z.leb_spec address 0xff2f),
    (Z.leb_spec 0xff30 address), (Z.leb_spec address 0xff3f); cbn [andb]; try lia;
    rewrite register_byte_none by lia; done.
Qed.

(** APU writes are total on FF10-FF3F and refused elsewhere; they return the prior visible
    byte and preserve the register-file invariant: array lengths, byte ranges, and that NR52 reports
    a channel active only while that channel's DAC is enabled. *)
Theorem apu_write_preserves a address value :
  apu_ok a → is_u8 value →
  match write a address value with
  | Some (a', before) =>
      0xff10 <= address <= 0xff3f ∧ read a address = Some before ∧ is_u8 before ∧ apu_ok a'
  | None => ~ (0xff10 <= address <= 0xff3f)
  end.
Proof.
  intros Hok Hv. destruct (decide (0xff10 <= address <= 0xff3f)) as [Ha | Ha].
  - destruct (read_some a address (proj1 Hok) Ha) as (before & Hr & Hb).
    rewrite (write_apu_write a address value before) by (try done; apply Hok).
    split; [done |]. split; [done |]. split; [done |]. by apply apu_write_ok.
  - unfold write. by rewrite read_outside.
Qed.

Lemma apu_write_preserves_witness :
  match write dmg_post_boot 0xff12 0 with
  | Some (a', before) =>
      0xff10 <= 0xff12 <= 0xff3f ∧ read dmg_post_boot 0xff12 = Some before ∧ is_u8 before ∧ apu_ok a'
  | None => ~ (0xff10 <= 0xff12 <= 0xff3f)
  end.
Proof. exact (apu_write_preserves dmg_post_boot 0xff12 0 apu_post_boot_ok ltac:(lia)). Defined.

Lemma control_write_lookup a address value k :
  k <> 22%nat →
  registers (control_write a address value) !! k =
  registers (store a (Z.to_nat (address - 0xff10)) (Z.land value (not8 (read_mask address)))) !! k.
Proof.
  intros Hk. unfold control_write, apply_dac_and_trigger. cbv zeta.
  repeat case_match; by rewrite ?set_channel_active_lookup by done.
Qed.

Lemma control_write_wave a address value : wave_ram (control_write a address value) = wave_ram a.
Proof.
  unfold control_write, apply_dac_and_trigger, set_channel_active. cbv zeta.
  repeat case_match; done.
Qed.

Lemma control_read_back a address value :
  apu_ok a → is_u8 value → 0xff10 <= address <= 0xff25 →
  read (control_write a address value) address = Some (Z.lor value (read_mask address)).
Proof.
  intros Hok Hv Ha. unfold read, in_range, WAVE_START, WAVE_END.
  rewrite (proj2 (Z.leb_gt 0xff27 address)), (proj2 (Z.leb_gt 0xff30 address)) by lia.
  cbn [andb]. rewrite register_byte_lookup, control_write_lookup by lia. unfold store. cbn.
  rewrite list_lookup_insert_eq by (rewrite (ok_registers _ (proj1 Hok)); lia). cbn. f_equal.
  apply Z.bits_inj'. intros i Hi. rewrite !Z.lor_spec, Z.land_spec. unfold not8.
  rewrite Z.lxor_spec. destruct (decide (i < 8)).
  - change 255 with (Z.ones 8). rewrite Z.ones_spec_low by lia.
    by destruct (Z.testbit value i), (Z.testbit (read_mask address) i).
  - by rewrite (testbit_byte_high value) by (done || lia).
Qed.

Lemma wave_read_back a address value :
  apu_ok a → 0xff30 <= address <= 0xff3f →
  read (MkApu (registers a) (<[Z.to_nat (address - 0xff30) := value]> (wave_ram a))) address
  = Some value.
Proof.
  intros Hok Ha. unfold read, in_range, WAVE_START, WAVE_END.
  rewrite (proj2 (Z.leb_gt address 0xff2f)), (proj2 (Z.leb_le 0xff30 address)),
    (proj2 (Z.leb_le address 0xff3f)), andb_false_r by lia. cbn [andb].
  rewrite wave_byte_lookup by lia. cbn. apply list_lookup_insert_eq.
  rewrite (ok_wave _ (proj1 Hok)). lia.
Qed.

Lemma write_power_off a value :
  apu_ok a → Z.testbit value 7 = false → write_power a value = MkApu (replicate 23 0) (wave_ram a).
Proof.
  intros Hok Ht. unfold write_power. pose proof (tst_pow2 value 7 ltac:(lia)) as H.
  unfold tst in H. change (2 ^ 7) with 0x80 in H. rewrite Ht in H.
  apply negb_false_iff in H. rewrite H. f_equal. rewrite <- (ok_registers _ (proj1 Hok)).
  induction (registers a) as [|r rs IH]; cbn; [done | by rewrite IH].
Qed.

(** Power and read-back of the APU. While powered, a control register reads back the written
    byte with its unreadable bits set; while off, only the length registers accept writes; clearing
    NR52 bit 7 zeroes every control register; no control write touches wave RAM and no wave write
    touches the control registers; wave bytes read back exactly. *)
Theorem apu_read_back a address value :
  apu_ok a → is_u8 value → 0xff10 <= address <= 0xff3f →
  ∃ a' before, write a address value = Some (a', before) ∧
    (0xff10 <= address <= 0xff25 → powered a = true ∨ is_length_register address = true →
       read a' address = Some (Z.lor value (read_mask address)) ∧ wave_ram a' = wave_ram a) ∧
    (0xff10 <= address <= 0xff25 → powered a = false → is_length_register address = false → a' = a) ∧
    (address = 0xff26 → Z.testbit value 7 = false →
       registers a' = replicate 23 0 ∧ powered a' = false ∧ wave_ram a' = wave_ram a) ∧
    (0xff30 <= address → read a' address = Some value ∧ registers a' = registers a).
Proof.
  intros Hok Hv Ha. destruct (read_some a address (proj1 Hok) Ha) as (before & Hr & Hb).
  exists (apu_write a address value), before.
  split; [by apply write_apu_write; [apply Hok |..] |].
  unfold apu_write, in_range, WAVE_START, WAVE_END. split; [| split; [| split]].
  - intros Hc Hg. rewrite (proj2 (Z.leb_gt 0xff27 address)), (proj2 (Z.leb_gt 0xff30 address)),
      (proj2 (Z.eqb_neq address 0xff26)) by lia. cbn [andb].
    replace (_ && _) with false by (destruct Hg as [-> | ->]; by rewrite ?andb_false_r).
    split; [by apply control_read_back | by apply control_write_wave].
  - intros Hc Hp Hl. rewrite (proj2 (Z.leb_gt 0xff27 address)), (proj2 (Z.leb_gt 0xff30 address)),
      (proj2 (Z.eqb_neq address 0xff26)) by lia. cbn [andb]. by rewrite Hp, Hl.
  - intros -> Ht. by rewrite write_power_off.
  - intros Hw. rewrite (proj2 (Z.leb_gt address 0xff2f)), (proj2 (Z.leb_le 0xff30 address)),
      (proj2 (Z.leb_le address 0xff3f)), andb_false_r by lia. cbn [andb].
    split; [apply wave_read_back; [done | lia] | done].
Qed.

Lemma apu_read_back_witness :
  ∃ a' before, write dmg_post_boot 0xff26 0 = Some (a', before) ∧
    (0xff10 <= 0xff26 <= 0xff25 → powered dmg_post_boot = true ∨ is_length_register 0xff26 = true →
       read a' 0xff26 = Some (Z.lor 0 (read_mask 0xff26)) ∧ wave_ram a' = wave_ram dmg_post_boot) ∧
    (0xff10 <= 0xff26 <= 0xff25 → powered dmg_post_boot = false →
       is_length_register 0xff26 = false → a' = dmg_post_boot) ∧
    (0xff26 = 0xff26 → Z.testbit 0 7 = false →
       registers a' = replicate 23 0 ∧ powered a' = false ∧ wave_ram a' = wave_ram dmg_post_boot) ∧
    (0xff30 <= 0xff26 → read a' 0xff26 = Some 0 ∧ registers a' = registers dmg_post_boot).
Proof. exact (apu_read_back dmg_post_boot 0xff26 0 apu_post_boot_ok ltac:(lia) ltac:(lia)). Defined.
