(* ===== verification/Device.v ===== *)
(** * The DMG device block (crates/zksm83-core/src/dmg.rs)

    Interrupt requests, memory-mapped registers, serial port, PPU position, joypad and the OAM-DMA
    cursor. The timer and the audio registers are the components of [Timer] and [Apu]. *)
From S2P Require Import Prelude Timer Apu.

Definition INTERRUPT_MASK : Z := 0x1f.

Module Int.
Inductive DmgInterrupt := VBlank | LcdStat | Timer | Serial | Joypad.
End Int.
Abbreviation DmgInterrupt := Int.DmgInterrupt.

Definition interrupt_bit (i : DmgInterrupt) : Z :=
  match i with
  | Int.VBlank => 0 | Int.LcdStat => 1 | Int.Timer => 2 | Int.Serial => 3 | Int.Joypad => 4
  end.

Definition interrupt_vector (i : DmgInterrupt) : Z :=
  match i with
  | Int.VBlank => 0x40 | Int.LcdStat => 0x48 | Int.Timer => 0x50 | Int.Serial => 0x58
  | Int.Joypad => 0x60
  end.

Record DmgDeviceState := MkDevice {
  interrupt_request : Z; interrupt_enable : Z;
  serial_data : Z; serial_control : Z; serial_cycles_remaining : Z;
  timer : DmgTimerState; apu : DmgApuState;
  lcd_control : Z; lcd_status_control : Z; scroll_y : Z; scroll_x : Z;
  background_palette : Z; object_palette_zero : Z; object_palette_one : Z;
  window_y : Z; window_x : Z; line_compare : Z;
  ppu_line : Z; ppu_dot : Z;
  joypad_select : Z; joypad_buttons : Z;
  dma_source_high : Z; dma_index : Z; dma_active : bool; dma_owed : Z
}.

Global Instance eta_device : Eta DmgDeviceState := λ d,
  MkDevice (interrupt_request d) (interrupt_enable d) (serial_data d) (serial_control d)
    (serial_cycles_remaining d) (timer d) (apu d) (lcd_control d) (lcd_status_control d)
    (scroll_y d) (scroll_x d) (background_palette d) (object_palette_zero d)
    (object_palette_one d) (window_y d) (window_x d) (line_compare d) (ppu_line d) (ppu_dot d)
    (joypad_select d) (joypad_buttons d) (dma_source_high d) (dma_index d) (dma_active d)
    (dma_owed d).

Global Instance interrupt_eq_dec : EqDecision DmgInterrupt.
Proof. solve_decision. Defined.

Definition empty : DmgDeviceState :=
  MkDevice 0 0 0 0 0 Timer.empty Apu.empty 0 0 0 0 0 0 0 0 0 0 0 0 0 0 0 0 false 0.

Definition dmg_post_boot : DmgDeviceState :=
  MkDevice 0x01 0x00 0x00 0x7e 0 Timer.dmg_post_boot Apu.dmg_post_boot 0x91 0x00 0x00 0x00
    0xfc 0xff 0xff 0x00 0x00 0x00 0 0 0 0 0 0 false 0.

(** ** Interrupts *)

Definition pending_interrupt (d : DmgDeviceState) : option DmgInterrupt :=
  let pending := Z.land (interrupt_request d) (interrupt_enable d) in
  if tst pending 0x01 then Some Int.VBlank
  else if tst pending 0x02 then Some Int.LcdStat
  else if tst pending 0x04 then Some Int.Timer
  else if tst pending 0x08 then Some Int.Serial
  else if tst pending 0x10 then Some Int.Joypad
  else None.

Definition acknowledge_interrupt (d : DmgDeviceState) (i : DmgInterrupt) : DmgDeviceState :=
  d <| interrupt_request :=
         Z.land (interrupt_request d) (not8 (w8 (Z.shiftl 1 (interrupt_bit i)))) |>.

(** [self.interrupt_request |= bits] *)
Definition request (bits : Z) (d : DmgDeviceState) : DmgDeviceState :=
  d <| interrupt_request := Z.lor (interrupt_request d) bits |>.

(** ** Packs *)

Definition joypad_pack (d : DmgDeviceState) : Z := of_le_bytes [joypad_select d; joypad_buttons d].
Definition dma_pack (d : DmgDeviceState) : Z :=
  let active := if dma_active d then 1 else 0 in
  of_le_bytes [dma_source_high d; dma_index d; active; dma_owed d].
Definition low_register_pack (d : DmgDeviceState) : Z :=
  of_le_bytes [serial_data d; serial_control d; modulo (timer d); control (timer d);
    lcd_control d; lcd_status_control d; scroll_y d; scroll_x d].
Definition high_register_pack (d : DmgDeviceState) : Z :=
  of_le_bytes ([background_palette d; object_palette_zero d; object_palette_one d; window_y d;
    window_x d; line_compare d] ++ le_bytes 2 (serial_cycles_remaining d)).

(** ** OAM DMA *)

Definition dma_source_address (d : DmgDeviceState) : Z :=
  Z.lor (Z.shiftl (dma_source_high d) 8) (dma_index d).
Definition dma_destination_address (d : DmgDeviceState) : Z := Z.lor 0xfe00 (dma_index d).

Definition schedule_dma_bytes (d : DmgDeviceState) (m_cycles : Z) (active_at_start : bool) :
    DmgDeviceState :=
  if negb active_at_start then d <| dma_owed := 0 |>
  else
    let remaining := saturating_sub 160 (dma_index d) in
    d <| dma_owed := Z.min m_cycles remaining |>.

Definition complete_dma_byte (d : DmgDeviceState) : DmgDeviceState :=
  let d := d <| dma_owed := saturating_sub (dma_owed d) 1 |> in
  if dma_index d =? 159 then d <| dma_index := 160 |> <| dma_active := false |>
  else d <| dma_index := Z.min 255 (dma_index d + 1) |>.

(** ** LCD position and status *)

Definition lcd_enabled (d : DmgDeviceState) : bool := tst (lcd_control d) 0x80.

Definition ppu_mode (d : DmgDeviceState) : Z :=
  if negb (lcd_enabled d) then 0
  else if 144 <=? ppu_line d then 1
  else if ppu_dot d <? 80 then 2
  else if ppu_dot d <? 252 then 3
  else 0.

Definition visible_lcd_status (d : DmgDeviceState) : Z :=
  let coincidence := if ppu_line d =? line_compare d then 0x04 else 0 in
  Z.lor (Z.lor (Z.lor 0x80 (lcd_status_control d)) coincidence) (ppu_mode d).

Definition stat_signal (d : DmgDeviceState) : bool :=
  if negb (lcd_enabled d) then false
  else
    let mode := ppu_mode d in
    (tst (lcd_status_control d) 0x08 && (mode =? 0))
    || (tst (lcd_status_control d) 0x10 && (mode =? 1))
    || (tst (lcd_status_control d) 0x20 && (mode =? 2))
    || (tst (lcd_status_control d) 0x40 && (ppu_line d =? line_compare d)).

Definition request_stat_rising_edge (d : DmgDeviceState) (before : bool) : DmgDeviceState :=
  if negb before && stat_signal d then request 0x02 d else d.

Definition cpu_vram_blocked (d : DmgDeviceState) : bool := lcd_enabled d && (ppu_mode d =? 3).
Definition cpu_oam_blocked (d : DmgDeviceState) : bool :=
  lcd_enabled d && ((ppu_mode d =? 2) || (ppu_mode d =? 3)).

Definition advance_ppu_t_cycle (d : DmgDeviceState) : DmgDeviceState :=
  if negb (lcd_enabled d) then d <| ppu_line := 0 |> <| ppu_dot := 0 |>
  else
    let stat_before := stat_signal d in
    let d := d <| ppu_dot := ppu_dot d + 1 |> in
    let d :=
      if ppu_dot d =? 456 then
        let d := d <| ppu_dot := 0 |> in
        let d := d <| ppu_line := if ppu_line d =? 153 then 0 else ppu_line d + 1 |> in
        if ppu_line d =? 144 then request 0x01 d else d
      else d in
    request_stat_rising_edge d stat_before.

(** ** Joypad *)

Definition visible_joypad (d : DmgDeviceState) : Z :=
  let low := 0x0f in
  let low :=
    if Z.land (joypad_select d) 0x10 =? 0 then Z.land low (not8 (Z.land (joypad_buttons d) 0x0f))
    else low in
  let low :=
    if Z.land (joypad_select d) 0x20 =? 0 then
      Z.land low (not8 (Z.land (Z.shiftr (joypad_buttons d) 4) 0x0f))
    else low in
  Z.lor (Z.lor 0xc0 (joypad_select d)) low.

Definition request_joypad_falling_edge (d : DmgDeviceState) (before after : Z) : DmgDeviceState :=
  if tst (Z.land before (not8 after)) 0x0f then request 0x10 d else d.

Definition sample_joypad (d : DmgDeviceState) (buttons : Z) : DmgDeviceState * Z :=
  let before := visible_joypad d in
  let d := d <| joypad_buttons := buttons |> in
  let after := visible_joypad d in
  (request_joypad_falling_edge d before after, after).

(** ** Memory-mapped registers *)

Definition read_mmio (d : DmgDeviceState) (address : Z) : option Z :=
  if address =? 0xff00 then Some (visible_joypad d)
  else if address =? 0xff01 then Some (serial_data d)
  else if address =? 0xff02 then Some (serial_control d)
  else if in_range 0xff04 0xff07 address then Timer.read (timer d) address
  else if address =? 0xff0f then Some (Z.lor 0xe0 (interrupt_request d))
  else if in_range 0xff10 0xff3f address then Apu.read (apu d) address
  else if address =? 0xff40 then Some (lcd_control d)
  else if address =? 0xff41 then Some (visible_lcd_status d)
  else if address =? 0xff42 then Some (scroll_y d)
  else if address =? 0xff43 then Some (scroll_x d)
  else if address =? 0xff44 then Some (ppu_line d)
  else if address =? 0xff45 then Some (line_compare d)
  else if address =? 0xff46 then Some (dma_source_high d)
  else if address =? 0xff47 then Some (background_palette d)
  else if address =? 0xff48 then Some (object_palette_zero d)
  else if address =? 0xff49 then Some (object_palette_one d)
  else if address =? 0xff4a then Some (window_y d)
  else if address =? 0xff4b then Some (window_x d)
  else if address =? 0xffff then Some (interrupt_enable d)
  else None.

(** The [match] of [write_mmio] on the registers stored in the device itself; [None] is the
    fall-through arm. *)
Definition store_register (d : DmgDeviceState) (before address value : Z) :
    option DmgDeviceState :=
  if address =? 0xff00 then
    let d := d <| joypad_select := Z.land value 0x30 |> in
    let after := visible_joypad d in
    Some (request_joypad_falling_edge d before after)
  else if address =? 0xff01 then Some (d <| serial_data := value |>)
  else if address =? 0xff02 then
    Some (d <| serial_control := value |>
            <| serial_cycles_remaining := if Z.land value 0x81 =? 0x81 then 4096 else 0 |>)
  else if address =? 0xff0f then Some (d <| interrupt_request := Z.land value INTERRUPT_MASK |>)
  else if address =? 0xff40 then
    let d := d <| lcd_control := value |> in
    Some (if negb (lcd_enabled d) then d <| ppu_line := 0 |> <| ppu_dot := 0 |> else d)
  else if address =? 0xff41 then Some (d <| lcd_status_control := Z.land value 0x78 |>)
  else if address =? 0xff42 then Some (d <| scroll_y := value |>)
  else if address =? 0xff43 then Some (d <| scroll_x := value |>)
  else if address =? 0xff44 then Some d
  else if address =? 0xff45 then Some (d <| line_compare := value |>)
  else if address =? 0xff46 then
    Some (d <| dma_source_high := value |> <| dma_index := 0 |> <| dma_active := true |>
            <| dma_owed := 0 |>)
  else if address =? 0xff47 then Some (d <| background_palette := value |>)
  else if address =? 0xff48 then Some (d <| object_palette_zero := value |>)
  else if address =? 0xff49 then Some (d <| object_palette_one := value |>)
  else if address =? 0xff4a then Some (d <| window_y := value |>)
  else if address =? 0xff4b then Some (d <| window_x := value |>)
  else if address =? 0xffff then Some (d <| interrupt_enable := Z.land value INTERRUPT_MASK |>)
  else None.

(** The updated device and the prior visible byte. *)
Definition write_mmio (d : DmgDeviceState) (address value : Z) : option (DmgDeviceState * Z) :=
  before ← read_mmio d address;
  let stat_before := stat_signal d in
  if in_range 0xff04 0xff07 address then
    '(t, prior) ← Timer.write (timer d) address value; Some (d <| timer := t |>, prior)
  else if in_range 0xff10 0xff3f address then
    '(a, prior) ← Apu.write (apu d) address value; Some (d <| apu := a |>, prior)
  else
    d ← store_register d before address value;
    let d :=
      if (address =? 0xff40) || (address =? 0xff41) || (address =? 0xff45) then
        request_stat_rising_edge d stat_before
      else d in
    Some (d, before).

(** ** Clocking *)

Definition advance_serial_t_cycles (d : DmgDeviceState) (t_cycles : Z) : DmgDeviceState :=
  if serial_cycles_remaining d =? 0 then d
  else
    let d := d <| serial_cycles_remaining :=
                    saturating_sub (serial_cycles_remaining d) t_cycles |> in
    if serial_cycles_remaining d =? 0 then
      request 0x08 (d <| serial_control := Z.land (serial_control d) 0x7f |>
                      <| serial_data := 0xff |>)
    else d.

(** [u8::saturating_mul] *)
Definition saturating_mul_u8 (a b : Z) : Z := Z.min 255 (a * b).

Definition advance_m_cycles (d : DmgDeviceState) (m_cycles : Z) : DmgDeviceState :=
  let t_cycles := saturating_mul_u8 m_cycles 4 in
  let '(t, bits) := advance_t_cycles (timer d) t_cycles in
  let d := request bits (d <| timer := t |>) in
  let d := advance_serial_t_cycles d t_cycles in
  Nat.iter (Z.to_nat t_cycles) advance_ppu_t_cycle d.

(** ** The device invariant *)

Record device_ok (d : DmgDeviceState) : Prop := {
  ok_request : 0 <= interrupt_request d < 32;
  ok_enable : 0 <= interrupt_enable d < 32;
  ok_serial_data : is_u8 (serial_data d);
  ok_serial_control : is_u8 (serial_control d);
  ok_serial_cycles : 0 <= serial_cycles_remaining d <= 4096;
  ok_timer : timer_ok (timer d);
  ok_apu : apu_ok (apu d);
  ok_lcd_control : is_u8 (lcd_control d);
  ok_lcd_status : 0 <= lcd_status_control d < 128;
  ok_scroll_y : is_u8 (scroll_y d);
  ok_scroll_x : is_u8 (scroll_x d);
  ok_bgp : is_u8 (background_palette d);
  ok_obp0 : is_u8 (object_palette_zero d);
  ok_obp1 : is_u8 (object_palette_one d);
  ok_wy : is_u8 (window_y d);
  ok_wx : is_u8 (window_x d);
  ok_lyc : is_u8 (line_compare d);
  ok_line : 0 <= ppu_line d <= 153;
  ok_dot : 0 <= ppu_dot d < 456;
  ok_joypad_select : 0 <= joypad_select d < 64;
  ok_joypad_mask : Z.land (joypad_select d) 0x30 = joypad_select d;
  ok_joypad_buttons : is_u8 (joypad_buttons d);
  ok_dma_source : is_u8 (dma_source_high d);
  ok_dma_index : 0 <= dma_index d <= 160;
  (** An active transfer has bytes left; a debt never exceeds them. *)
  ok_dma_active : dma_active d = true → dma_index d < 160;
  ok_dma_owed : 0 <= dma_owed d <= 160 - dma_index d;
  ok_dma_debt : 0 < dma_owed d → dma_active d = true
}.

Ltac device_tac :=
  split; cbn; auto with bounds; try lia; try (intros; congruence).

Lemma device_empty_ok : device_ok empty.
Proof. split; cbn; auto with bounds; done || lia. Qed.
Lemma device_post_boot_ok : device_ok dmg_post_boot.
Proof. split; cbn; auto with bounds; done || lia. Qed.

Lemma lor5 a b : 0 <= a < 32 → 0 <= b < 32 → 0 <= Z.lor a b < 32.
Proof. intros. apply (lor_bound a b 5); cbn; lia. Qed.

Lemma request_ok d bits : device_ok d → 0 <= bits < 32 → device_ok (request bits d).
Proof. intros [] Hb. unfold request. split; cbn; auto using lor5. Qed.

Lemma acknowledge_ok d i : device_ok d → device_ok (acknowledge_interrupt d i).
Proof.
  intros []. unfold acknowledge_interrupt. split; cbn; auto.
  match goal with |- 0 <= Z.land ?a ?b < 32 => pose proof (land_bound_l a b) end. lia.
Qed.

Lemma schedule_ok d m active :
  device_ok d → 0 <= m → (active = true → dma_active d = true) →
  device_ok (schedule_dma_bytes d m active).
Proof.
  intros [] Hm Ha. unfold schedule_dma_bytes, saturating_sub. destruct active; cbn [negb];
    split; cbn; auto; lia.
Qed.

Lemma complete_ok d : device_ok d → 0 < dma_owed d → device_ok (complete_dma_byte d).
Proof.
  intros [] Ho. unfold complete_dma_byte, saturating_sub. cbn.
  destruct (Z.eqb_spec (dma_index d) 159); split; cbn; auto; try done; try lia.
Qed.

Lemma request_stat_ok d before : device_ok d → device_ok (request_stat_rising_edge d before).
Proof. intros. unfold request_stat_rising_edge. case_match; auto using request_ok with lia. Qed.

Lemma request_joypad_ok d before after :
  device_ok d → device_ok (request_joypad_falling_edge d before after).
Proof. intros. unfold request_joypad_falling_edge. case_match; auto using request_ok with lia. Qed.

Lemma sample_joypad_ok d buttons :
  device_ok d → is_u8 buttons → device_ok (sample_joypad d buttons).1.
Proof. intros [] Hb. apply request_joypad_ok. by split; cbn. Qed.

Lemma advance_ppu_ok d : device_ok d → device_ok (advance_ppu_t_cycle d).
Proof.
  intros Hd. unfold advance_ppu_t_cycle. destruct (lcd_enabled d); cbn [negb].
  - apply request_stat_ok. pose proof (ok_dot d Hd). pose proof (ok_line d Hd).
    destruct (Z.eqb_spec (ppu_dot d <| ppu_dot := ppu_dot d + 1 |>) 456) as [E | E]; cbn in E.
    + match goal with |- device_ok (if ?b then request _ ?x else _) =>
        assert (Hx : device_ok x); [| destruct b; [by apply request_ok; [| lia] | done]] end.
      destruct Hd. split; cbn; auto; try lia. destruct (Z.eqb_spec (ppu_line d) 153); lia.
    + destruct Hd. split; cbn; auto; lia.
  - destruct Hd. split; cbn; auto; lia.
Qed.

Lemma advance_serial_ok d n : device_ok d → 0 <= n → device_ok (advance_serial_t_cycles d n).
Proof.
  intros [] Hn. unfold advance_serial_t_cycles, saturating_sub.
  case_match; [done |]. cbn. case_match; [apply request_ok; [| lia] |]; split; cbn; auto with bounds.
Qed.

Lemma advance_m_cycles_ok d m : device_ok d → 0 <= m → device_ok (advance_m_cycles d m).
Proof.
  intros Hd Hm. unfold advance_m_cycles, saturating_mul_u8.
  destruct (advance_t_cycles_ok (timer d) (Z.min 255 (m * 4)) (ok_timer d Hd)) as [Ht Hb].
  destruct (advance_t_cycles _ _) as [t bits]. cbn [fst snd] in *.
  apply Nat.iter_ind; [| by auto using advance_ppu_ok].
  apply advance_serial_ok; [| lia]. apply request_ok; [| lia]. destruct Hd. by split; cbn.
Qed.
#[export] Hint Resolve device_empty_ok device_post_boot_ok acknowledge_ok schedule_ok complete_ok
  sample_joypad_ok advance_m_cycles_ok : bounds.

(** ** The joypad line and the readable registers *)

Lemma visible_joypad_bound d : device_ok d → is_u8 (visible_joypad d).
Proof.
  intros []. unfold visible_joypad. apply lor_u8; [apply lor_u8; lia |].
  repeat case_match; auto using land_u8 with lia.
Qed.

Lemma ppu_mode_bound d : 0 <= ppu_mode d <= 3.
Proof. unfold ppu_mode. repeat case_match; lia. Qed.

Lemma visible_lcd_status_bound d : device_ok d → is_u8 (visible_lcd_status d).
Proof.
  intros []. unfold visible_lcd_status. pose proof (ppu_mode_bound d).
  apply lor_u8; [apply lor_u8; [apply lor_u8; lia |] | lia]. case_match; lia.
Qed.

(** ** Interrupt priority *)

Definition requested_and_enabled (d : DmgDeviceState) (i : DmgInterrupt) : bool :=
  Z.testbit (interrupt_request d) (interrupt_bit i) && Z.testbit (interrupt_enable d) (interrupt_bit i).

Lemma pending_interrupt_bits d :
  pending_interrupt d =
  if requested_and_enabled d Int.VBlank then Some Int.VBlank
  else if requested_and_enabled d Int.LcdStat then Some Int.LcdStat
  else if requested_and_enabled d Int.Timer then Some Int.Timer
  else if requested_and_enabled d Int.Serial then Some Int.Serial
  else if requested_and_enabled d Int.Joypad then Some Int.Joypad
  else None.
Proof.
  unfold pending_interrupt, requested_and_enabled. cbn [interrupt_bit].
  rewrite (tst_pow2 _ 0), (tst_pow2 _ 1), (tst_pow2 _ 2), (tst_pow2 _ 3), (tst_pow2 _ 4) by lia.
  by rewrite !Z.land_spec.
Qed.

Lemma pending_none d :
  pending_interrupt d = None ↔ ∀ i, requested_and_enabled d i = false.
Proof.
  rewrite pending_interrupt_bits. split.
  - intros H i. repeat case_match; destruct i; congruence.
  - intros H. by rewrite !H.
Qed.

Lemma pending_some d i :
  pending_interrupt d = Some i ↔
  requested_and_enabled d i = true ∧
  ∀ j, interrupt_bit j < interrupt_bit i → requested_and_enabled d j = false.
Proof.
  rewrite pending_interrupt_bits. split.
  - intros H. repeat case_match; simplify_eq; (split; [done |]); intros []; cbn; auto; lia.
  - intros [Hi Hj].
    destruct i; rewrite ?(Hj Int.VBlank), ?(Hj Int.LcdStat), ?(Hj Int.Timer), ?(Hj Int.Serial) by done;
      by rewrite Hi.
Qed.

Lemma acknowledge_bit d i j :
  device_ok d →
  Z.testbit (interrupt_request (acknowledge_interrupt d i)) (interrupt_bit j) =
  Z.testbit (interrupt_request d) (interrupt_bit j) && negb (bool_decide (i = j)).
Proof.
  intros Hd. unfold acknowledge_interrupt. cbn.
  assert (Hb : ∀ k, 0 <= interrupt_bit k < 8) by (intros []; cbn; lia).
  rewrite Apu.shiftl1_byte by apply Hb. unfold not8.
  rewrite Z.land_spec, Z.lxor_spec, Z.pow2_bits_eqb by (specialize (Hb i); lia).
  change 255 with (Z.ones 8). rewrite Z.ones_spec_low by (specialize (Hb j); lia).
  by destruct i, j.
Qed.

(** [pending_interrupt] selects, among the sources both requested and enabled, the one of lowest
    bit, and [None] exactly when there is none; acknowledging the selected interrupt removes that
    request and no other, so a second enabled source is served next. *)
Theorem pending_interrupt_priority d :
  device_ok d →
  (pending_interrupt d = None ↔ ∀ i, requested_and_enabled d i = false) ∧
  (∀ i, pending_interrupt d = Some i →
     requested_and_enabled d i = true ∧
     (∀ j, interrupt_bit j < interrupt_bit i → requested_and_enabled d j = false) ∧
     device_ok (acknowledge_interrupt d i) ∧
     ∀ j, requested_and_enabled (acknowledge_interrupt d i) j =
          requested_and_enabled d j && negb (bool_decide (i = j))).
Proof.
  intros Hd. split; [apply pending_none |]. intros i Hi. pose proof (proj1 (pending_some d i) Hi) as [Hr Hl].
  split; [done |]. split; [done |]. split; [by apply acknowledge_ok |].
  intros j. unfold requested_and_enabled. rewrite acknowledge_bit by done.
  change (interrupt_enable (acknowledge_interrupt d i)) with (interrupt_enable d).
  by rewrite <- !andb_assoc, (andb_comm (negb _)).
Qed.

Lemma pending_interrupt_priority_witness :
  let d := dmg_post_boot <| interrupt_request := 0x14 |> <| interrupt_enable := 0x1f |> in
  pending_interrupt d = Some Int.Timer ∧
  requested_and_enabled d Int.Timer = true ∧
  (∀ j, interrupt_bit j < interrupt_bit Int.Timer → requested_and_enabled d j = false).
Proof.
  cbv zeta. split; [reflexivity |].
  assert (H : device_ok (dmg_post_boot <| interrupt_request := 0x14 |> <| interrupt_enable := 0x1f |>)).
  { destruct device_post_boot_ok. split; cbn; auto; lia. }
  destruct (pending_interrupt_priority _ H) as [_ Hs].
  destruct (Hs Int.Timer eq_refl) as (H1 & H2 & _). split; assumption.
Defined.

(** ** Register accesses *)

Definition is_mmio (address : Z) : bool :=
  in_range 0xff00 0xff02 address || in_range 0xff04 0xff07 address || (address =? 0xff0f) ||
  in_range 0xff10 0xff3f address || in_range 0xff40 0xff4b address || (address =? 0xffff).

Lemma timer_read_some t address :
  0xff04 <= address <= 0xff07 → timer_ok t → ∃ v, Timer.read t address = Some v ∧ is_u8 v.
Proof.
  intros Ha [Hd Hc Hm Hk Hp]. unfold Timer.read.
  repeat case_match; try (eexists; split; [done |]; auto with bounds); try (exfalso; lia).
  apply lor_u8; [unfold TAC_UNUSED |]; lia.
Qed.

Lemma read_mmio_some d address :
  device_ok d → is_mmio address = true → ∃ v, read_mmio d address = Some v ∧ is_u8 v.
Proof.
  intros Hd Ha. pose proof (visible_joypad_bound d Hd). pose proof (visible_lcd_status_bound d Hd).
  destruct (decide (0xff04 <= address <= 0xff07)) as [Ht | Ht].
  { destruct (timer_read_some (timer d) address Ht (ok_timer d Hd)) as (v & Hv & Hb).
    exists v. split; [| done]. unfold read_mmio, in_range. repeat case_match; try lia. done. }
  destruct (decide (0xff10 <= address <= 0xff3f)) as [Hp | Hp].
  { destruct (Apu.read_some (apu d) address (proj1 (ok_apu d Hd)) Hp) as (v & Hv & Hb).
    exists v. split; [| done]. unfold read_mmio, in_range. repeat case_match; try lia. done. }
  destruct Hd. unfold read_mmio, is_mmio, in_range in *.
  repeat case_match; try (eexists; split; [done |]; auto with bounds; apply lor_u8; lia);
    try (exfalso; lia).
Qed.

Lemma read_mmio_none d address : is_mmio address = false → read_mmio d address = None.
Proof.
  intros Ha. unfold read_mmio, is_mmio, in_range in *. repeat case_match; try done; exfalso; lia.
Qed.

Lemma store_register_ok d before address value :
  device_ok d → is_u8 value → is_mmio address = true →
  ~ (0xff04 <= address <= 0xff07) → ~ (0xff10 <= address <= 0xff3f) →
  ∃ d', store_register d before address value = Some d' ∧ device_ok d'.
Proof.
  intros Hd Hv Ha Ht Hp.
  pose proof (land_bound_r value 0x30). pose proof (land_bound_r value 0x1f).
  pose proof (land_bound_r value 0x78).
  unfold store_register, INTERRUPT_MASK, is_mmio, in_range in *.
  repeat case_match; try (exfalso; lia); (eexists; split; [reflexivity |]);
    try apply request_joypad_ok; destruct Hd; split; cbn; auto; first [lia | done | by rewrite <- Z.land_assoc].
Qed.

Lemma write_mmio_region d address value :
  write_mmio d address value =
  before ← read_mmio d address;
  if in_range 0xff04 0xff07 address then
    '(t, prior) ← Timer.write (timer d) address value; Some (d <| timer := t |>, prior)
  else if in_range 0xff10 0xff3f address then
    '(a, prior) ← Apu.write (apu d) address value; Some (d <| apu := a |>, prior)
  else
    d' ← store_register d before address value;
    Some (if (address =? 0xff40) || (address =? 0xff41) || (address =? 0xff45) then
            request_stat_rising_edge d' (stat_signal d) else d', before).
Proof. done. Qed.

Lemma timer_write_some t address value :
  timer_ok t → is_u8 value → 0xff04 <= address <= 0xff07 →
  ∃ t' before, Timer.write t address value = Some (t', before) ∧
    Timer.read t address = Some before ∧ is_u8 before ∧ timer_ok t'.
Proof.
  intros Ht Hv Ha. destruct (timer_read_some t address Ha Ht) as (v & Hr & Hb).
  assert (∃ t', Timer.write t address value = Some (t', v)) as [t' Hw].
  { unfold Timer.write. rewrite Hr. cbn. repeat case_match; eauto. lia. }
  exists t', v. do 3 (split; [done |]). exact (write_timer_ok t address value t' v Ht Hv Hw).
Qed.

Lemma write_mmio_some d address value :
  device_ok d → is_u8 value → is_mmio address = true →
  ∃ d' before, write_mmio d address value = Some (d', before) ∧
    read_mmio d address = Some before ∧ is_u8 before ∧ device_ok d'.
Proof.
  intros Hd Hv Ha. destruct (read_mmio_some d address Hd Ha) as (before & Hr & Hb).
  rewrite write_mmio_region, Hr. cbn [mbind option_bind].
  destruct (in_range 0xff04 0xff07 address) eqn:Et; [| destruct (in_range 0xff10 0xff3f address) eqn:Ep].
  - unfold in_range in Et. assert (Ht : 0xff04 <= address <= 0xff07) by lia.
    assert (Hr' : read_mmio d address = Timer.read (timer d) address).
    { unfold read_mmio, in_range. repeat case_match; try lia; done. }
    destruct (timer_write_some (timer d) address value (ok_timer d Hd) Hv Ht) as (t & p & Hw & Hrt & Hp & Hok).
    rewrite Hr', Hrt in Hr. injection Hr as <-. rewrite Hw.
    exists (d <| timer := t |>), p. do 3 (split; [done |]). destruct Hd. by split; cbn.
  - unfold in_range in Ep. assert (Hp : 0xff10 <= address <= 0xff3f) by lia.
    assert (Hr' : read_mmio d address = Apu.read (apu d) address).
    { unfold read_mmio, in_range. repeat case_match; try lia; done. }
    rewrite Hr in Hr'. symmetry in Hr'.
    rewrite (write_apu_write (apu d) address value before) by (try done; apply (ok_apu d Hd)).
    eexists _, before. split; [reflexivity |]. split; [done |]. split; [done |].
    pose proof (apu_write_ok (apu d) address value (ok_apu d Hd) Hv Hp). destruct Hd. by split; cbn.
  - unfold in_range in *.
    destruct (store_register_ok d before address value Hd Hv Ha) as (d' & Hs & Hok); [lia | lia |].
    rewrite Hs. eexists _, before. split; [reflexivity |]. split; [done |]. split; [done |].
    case_match; [by apply request_stat_ok | done].
Qed.

(** Memory-mapped writes succeed exactly on the implemented registers; they report the prior
    visible byte and preserve the whole device invariant. *)
Theorem write_mmio_total d address value :
  device_ok d → is_u8 value →
  match write_mmio d address value with
  | Some (d', before) =>
      is_mmio address = true ∧ read_mmio d address = Some before ∧ is_u8 before ∧ device_ok d'
  | None => is_mmio address = false
  end.
Proof.
  intros Hd Hv. destruct (is_mmio address) eqn:E.
  - destruct (write_mmio_some d address value Hd Hv E) as (d' & before & -> & Hr & Hb & Hok). done.
  - rewrite write_mmio_region, read_mmio_none by done. done.
Qed.

Lemma write_mmio_total_witness :
  match write_mmio dmg_post_boot 0xff46 0xc0 with
  | Some (d', before) =>
      is_mmio 0xff46 = true ∧ read_mmio dmg_post_boot 0xff46 = Some before ∧ is_u8 before ∧ device_ok d'
  | None => is_mmio 0xff46 = false
  end.
Proof. exact (write_mmio_total dmg_post_boot 0xff46 0xc0 device_post_boot_ok ltac:(lia)). Defined.

(** What a CPU read returns right after a write of [value]. *)
Definition read_back (d : DmgDeviceState) (address value : Z) : Z :=
  if address =? 0xff0f then Z.lor 0xe0 (Z.land value 0x1f)
  else if address =? 0xffff then Z.land value 0x1f
  else if address =? 0xff44 then ppu_line d
  else value.

Lemma request_stat_read d b address :
  address <> 0xff0f → read_mmio (request_stat_rising_edge d b) address = read_mmio d address.
Proof.
  intros Hn. unfold request_stat_rising_edge. case_match; [| done]. unfold read_mmio.
  by rewrite (proj2 (Z.eqb_neq address 0xff0f)).
Qed.

Lemma request_joypad_fields d b a :
  ∃ bits, request_joypad_falling_edge d b a = d <| interrupt_request := bits |>.
Proof.
  unfold request_joypad_falling_edge, request. case_match; [by eexists |].
  exists (interrupt_request d). by destruct d.
Qed.

Lemma request_stat_line d b : ppu_line (request_stat_rising_edge d b) = ppu_line d.
Proof. unfold request_stat_rising_edge. by case_match. Qed.
Lemma request_stat_dot d b : ppu_dot (request_stat_rising_edge d b) = ppu_dot d.
Proof. unfold request_stat_rising_edge. by case_match. Qed.

Lemma request_stat_monotone d d' b :
  interrupt_request d' = interrupt_request d →
  Z.land (interrupt_request d) (interrupt_request (request_stat_rising_edge d' b)) = interrupt_request d.
Proof.
  intros E. unfold request_stat_rising_edge. case_match; [cbn | by rewrite E, Z.land_diag].
  rewrite E. apply Z.bits_inj'. intros i Hi. rewrite Z.land_spec, Z.lor_spec.
  by destruct (Z.testbit _ i).
Qed.

(** Registers stored in the device read back as written, with IF and IE masked to five bits (IF
    with its upper bits set) and LY read-only; a DMA write starts a fresh transfer from page
    [value]; disabling the LCD resets its position; a serial write with bits 0 and 7 starts the
    4096-cycle countdown; and no write other than to IF ever clears an interrupt request. *)
Theorem mmio_read_back d address value d' before :
  device_ok d → is_u8 value →
  address ∈ [0xff01; 0xff02; 0xff0f; 0xff40; 0xff42; 0xff43; 0xff44; 0xff45; 0xff46; 0xff47; 0xff48;
             0xff49; 0xff4a; 0xff4b; 0xffff] →
  write_mmio d address value = Some (d', before) →
  read_mmio d' address = Some (read_back d address value) ∧
  (address = 0xff46 →
     dma_active d' = true ∧ dma_index d' = 0 ∧ dma_owed d' = 0 ∧
     dma_source_address d' = value * 256) ∧
  (address = 0xff40 → Z.testbit value 7 = false → ppu_line d' = 0 ∧ ppu_dot d' = 0) ∧
  (address = 0xff02 →
     serial_cycles_remaining d' = if Z.land value 0x81 =? 0x81 then 4096 else 0) ∧
  (address <> 0xff0f →
     Z.land (interrupt_request d) (interrupt_request d') = interrupt_request d).
Proof.
  intros Hd Hv Ha Hw. set_unfold in Ha.
  assert (Hr : in_range 0xff04 0xff07 address = false ∧ in_range 0xff10 0xff3f address = false)
    by (unfold in_range; lia).
  rewrite write_mmio_region in Hw. destruct Hr as [-> ->] in Hw.
  destruct (read_mmio d address) as [b|]; [cbn in Hw | done].
  destruct (store_register d b address value) as [s|] eqn:Es; [cbn in Hw | done].
  injection Hw as <- _. unfold store_register in Es.
  destruct_or! Ha; subst address; cbn in Es; injection Es as <-.
  all: match goal with |- context [if ?b then request_stat_rising_edge _ _ else _] =>
         let v := eval vm_compute in b in change b with v; cbv iota end.
  all: rewrite ?request_stat_read by lia.
  all: split; [| split; [| split; [| split]]]; try (intros; exfalso; lia); try (intros _; done).
  all: try done; try (intros _; apply Z.land_diag); try (intros _; by apply request_stat_monotone).
  - by destruct (negb (lcd_enabled d <| lcd_control := value |>)).
  - intros _ Hb. assert (He : lcd_enabled d <| lcd_control := value |> = false)
      by (rewrite <- Hb; exact (tst_pow2 value 7 ltac:(lia))).
    rewrite He. cbn [negb]. by rewrite request_stat_line, request_stat_dot.
  - intros _. apply request_stat_monotone. by destruct (negb (lcd_enabled d <| lcd_control := value |>)).
  - intros _. repeat (split; [done |]). unfold dma_source_address. cbn.
    by rewrite Z.lor_0_r, Z.shiftl_mul_pow2.
Qed.

Lemma mmio_read_back_witness :
  ∃ d' before, write_mmio dmg_post_boot 0xff46 0xc0 = Some (d', before) ∧
    read_mmio d' 0xff46 = Some 0xc0 ∧
    dma_active d' = true ∧ dma_index d' = 0 ∧ dma_owed d' = 0 ∧ dma_source_address d' = 0xc0 * 256.
Proof.
  eexists _, _. split; [reflexivity |].
  edestruct (mmio_read_back dmg_post_boot 0xff46 0xc0) as (H1 & H2 & _);
    [exact device_post_boot_ok | lia | set_unfold; lia | reflexivity |].
  split; [exact H1 | exact (H2 eq_refl)].
Defined.

(** ** Joypad lines and the DMA cursor *)

Lemma testbit_0x30 k : 0 <= k < 4 → Z.testbit 0x30 k = false ∧ Z.testbit 0xc0 k = false ∧ Z.testbit 0x0f k = true.
Proof. intros. assert (k = 0 ∨ k = 1 ∨ k = 2 ∨ k = 3) as [-> | [-> | [-> | ->]]] by lia; done. Qed.

Lemma not8_testbit x k : 0 <= k < 8 → Z.testbit (not8 x) k = negb (Z.testbit x k).
Proof.
  intros. unfold not8. rewrite Z.lxor_spec. change 255 with (Z.ones 8).
  by rewrite Z.ones_spec_low, xorb_true_r by lia.
Qed.

(** Button [k] of a selected group is pressed. *)
Definition line_low (d : DmgDeviceState) (k : Z) : bool :=
  (negb (Z.testbit (joypad_select d) 4) && Z.testbit (joypad_buttons d) k) ||
  (negb (Z.testbit (joypad_select d) 5) && Z.testbit (joypad_buttons d) (k + 4)).

Lemma land_bit x n : 0 <= n → (Z.land x (2 ^ n) =? 0) = negb (Z.testbit x n).
Proof. intros. rewrite <- tst_pow2 by done. unfold tst. by rewrite negb_involutive. Qed.

Lemma visible_joypad_line d k :
  device_ok d → 0 <= k < 4 → Z.testbit (visible_joypad d) k = negb (line_low d k).
Proof.
  intros Hd Hk. destruct (testbit_0x30 k Hk) as (H30 & Hc0 & H0f).
  assert (Hsel : Z.testbit (joypad_select d) k = false)
    by (rewrite <- (ok_joypad_mask d Hd), Z.land_spec, H30; apply andb_false_r).
  unfold visible_joypad, line_low. rewrite !Z.lor_spec, Hc0, Hsel. cbn [orb].
  change 0x10 with (2 ^ 4). change 0x20 with (2 ^ 5). rewrite !land_bit by lia.
  destruct (Z.testbit (joypad_select d) 4), (Z.testbit (joypad_select d) 5); cbn [negb andb orb];
    rewrite ?Z.land_spec, ?not8_testbit, ?Z.land_spec, ?Z.shiftr_spec, H0f by lia;
    rewrite ?andb_true_r; cbn [andb]; by rewrite ?orb_false_r, ?negb_orb.
Qed.

Lemma tst_nibble x : 0 <= x → tst x 0x0f = true ↔ ∃ k, 0 <= k < 4 ∧ Z.testbit x k = true.
Proof.
  intros Hx. unfold tst. rewrite negb_true_iff, Z.eqb_neq. split.
  - intros Hn. destruct (Z.testbit x 0) eqn:E0; [by exists 0 |].
    destruct (Z.testbit x 1) eqn:E1; [by exists 1 |].
    destruct (Z.testbit x 2) eqn:E2; [by exists 2 |].
    destruct (Z.testbit x 3) eqn:E3; [by exists 3 |].
    destruct Hn. apply Z.bits_inj'. intros i Hi.
    rewrite Z.land_spec, Z.bits_0. destruct (decide (i < 4)).
    + assert (i = 0 ∨ i = 1 ∨ i = 2 ∨ i = 3) as [-> | [-> | [-> | ->]]] by lia;
        by rewrite ?E0, ?E1, ?E2, ?E3.
    + change 0x0f with (Z.ones 4). by rewrite Z.ones_spec_high, andb_false_r by lia.
  - intros (k & Hk & Hb) H0. apply (f_equal (λ z, Z.testbit z k)) in H0.
    rewrite Z.land_spec, Hb, (proj2 (proj2 (testbit_0x30 k Hk))), Z.bits_0 in H0. done.
Qed.

(** The joypad register is active-low over the selected button groups, and sampling new buttons
    requests the joypad interrupt exactly when some visible line falls. *)
Theorem sample_joypad_edges d buttons :
  device_ok d → is_u8 buttons →
  let '(d', visible) := sample_joypad d buttons in
  device_ok d' ∧ joypad_buttons d' = buttons ∧ visible = visible_joypad d' ∧
  (∀ k, 0 <= k < 4 → Z.testbit visible k = negb (line_low d' k)) ∧
  (Z.testbit (interrupt_request d') 4 = true ↔
     Z.testbit (interrupt_request d) 4 = true ∨
     ∃ k, 0 <= k < 4 ∧ line_low d k = false ∧ line_low d' k = true).
Proof.
  intros Hd Hb. destruct (sample_joypad d buttons) as [d' visible] eqn:E.
  pose proof (sample_joypad_ok d buttons Hd Hb) as Hok. rewrite E in Hok. cbn [fst] in Hok.
  unfold sample_joypad in E. injection E as <- <-.
  set (e := d <| joypad_buttons := buttons |>) in *.
  assert (He : device_ok e) by (destruct Hd; by split; cbn).
  destruct (request_joypad_fields e (visible_joypad d) (visible_joypad e)) as [bits Hbits].
  assert (Hline : ∀ k, line_low (request_joypad_falling_edge e (visible_joypad d) (visible_joypad e)) k
                       = line_low e k) by (intros; by rewrite Hbits).
  split; [done |]. split; [by rewrite Hbits |]. split; [by rewrite Hbits |].
  split; [intros k Hk; rewrite Hline; by apply visible_joypad_line |].
  setoid_rewrite Hline. clear Hbits Hline bits.
  pose proof (visible_joypad_bound d Hd). pose proof (visible_joypad_bound e He).
  assert (Hfall : tst (Z.land (visible_joypad d) (not8 (visible_joypad e))) 0x0f = true ↔
                  ∃ k, 0 <= k < 4 ∧ line_low d k = false ∧ line_low e k = true).
  { rewrite tst_nibble by (apply Z.land_nonneg; lia). apply exist_proper. intros k.
    split; intros (Hk & Hkk); (split; [done |]);
      rewrite Z.land_spec, not8_testbit, !visible_joypad_line in * by (done || lia);
      destruct (line_low d k), (line_low e k); cbn in *; intuition congruence. }
  rewrite <- Hfall. unfold request_joypad_falling_edge. case_match eqn:Et.
  - cbn. rewrite Z.lor_spec. change (Z.testbit 0x10 4) with true. rewrite orb_true_r. intuition.
  - change (interrupt_request e) with (interrupt_request d). intuition congruence.
Qed.

Lemma sample_joypad_edges_witness :
  let '(d', visible) := sample_joypad dmg_post_boot 0x10 in
  visible = 0xce ∧
  (Z.testbit (interrupt_request d') 4 = true ↔
     Z.testbit (interrupt_request dmg_post_boot) 4 = true ∨
     ∃ k, 0 <= k < 4 ∧ line_low dmg_post_boot k = false ∧ line_low d' k = true).
Proof.
  pose proof (sample_joypad_edges dmg_post_boot 0x10 device_post_boot_ok ltac:(lia)) as H.
  cbn beta iota delta [sample_joypad] in *. split; [reflexivity |]. apply H.
Defined.

(** A freshly started OAM DMA copies the 160 bytes of its page in order: after [n] completed
    bytes the cursor addresses source [page * 256 + n] and destination [0xfe00 + n], and the transfer
    is active exactly while fewer than 160 bytes are done. *)
Theorem dma_transfer_sequence d page n d0 before :
  device_ok d → is_u8 page → write_mmio d 0xff46 page = Some (d0, before) → (n <= 160)%nat →
  let d' := Nat.iter n complete_dma_byte d0 in
  dma_index d' = Z.of_nat n ∧ (dma_active d' = true ↔ (n < 160)%nat) ∧
  dma_source_address d' = page * 256 + Z.of_nat n ∧
  dma_destination_address d' = 0xfe00 + Z.of_nat n.
Proof.
  intros Hd Hp Hw Hn.
  assert (H0 : dma_index d0 = 0 ∧ dma_active d0 = true ∧ dma_source_high d0 = page).
  { rewrite write_mmio_region in Hw. destruct (read_mmio d 0xff46); [| done].
    cbn in Hw. by injection Hw as <- _. }
  clear Hw. cbv zeta. set (d' := Nat.iter n complete_dma_byte d0).
  assert (H : dma_index d' = Z.of_nat n ∧ (dma_active d' = true ↔ (n < 160)%nat) ∧
              dma_source_high d' = page).
  { subst d'. induction n as [|n IH].
    - cbn. destruct H0 as (-> & -> & ->). split; [done |]. split; [| done]. split; [lia | done].
    - destruct IH as (Hi & Ha & Hs); [lia |]. rewrite Nat.iter_succ.
      set (e := Nat.iter n complete_dma_byte d0) in *. unfold complete_dma_byte.
      change (dma_index e <| dma_owed := saturating_sub (dma_owed e) 1 |>) with (dma_index e).
      destruct (Z.eqb_spec (dma_index e) 159); cbn.
      + split; [lia |]. split; [| done]. split; [done | lia].
      + split; [lia |]. split; [| done]. rewrite Ha. lia. }
  destruct H as (Hi & Ha & Hs). split; [done |]. split; [done |].
  unfold dma_source_address, dma_destination_address. rewrite Hi, Hs.
  rewrite lor_shiftl_add by (cbn; lia). split; [done |].
  apply (lor_add 0xfe (Z.of_nat n) 8); cbn; lia.
Qed.

Lemma dma_transfer_sequence_witness :
  ∃ d0 before, write_mmio dmg_post_boot 0xff46 0xc1 = Some (d0, before) ∧
    let d' := Nat.iter 159 complete_dma_byte d0 in
    dma_index d' = Z.of_nat 159 ∧ (dma_active d' = true ↔ (159 < 160)%nat) ∧
    dma_source_address d' = 0xc1 * 256 + Z.of_nat 159 ∧
    dma_destination_address d' = 0xfe00 + Z.of_nat 159.
Proof.
  eexists _, _. split; [reflexivity |].
  eapply (dma_transfer_sequence dmg_post_boot 0xc1 159); [exact device_post_boot_ok | lia | reflexivity | lia].
Defined.
