(* ===== verification/Halt.v ===== *)
(** * HALT skips (crates/zksm83-core/src/dmg.rs)

    The idle batch and the three long skips that fast-forward a halted CPU to the next VBlank, serial
    or timer interrupt. Each skip is proved equal to single M-cycle stepping and exact: nothing is
    pending before its last M-cycle, and the announced interrupt is pending at its end. *)
From S2P Require Import Prelude Timer Apu Device.

Fixpoint halt_idle_loop (n : nat) (elapsed : Z) (projected : DmgDeviceState) : Z :=
  match n with
  | O => 6
  | S n =>
      let projected := advance_m_cycles projected 1 in
      if bool_decide (is_Some (pending_interrupt projected)) then elapsed
      else halt_idle_loop n (elapsed + 1) projected
  end.

Definition halt_idle_m_cycles (d : DmgDeviceState) : Z := halt_idle_loop 6 1 d.

Definition LINE_T_CYCLES : Z := 456.
Definition FRAME_T_CYCLES : Z := 154 * LINE_T_CYCLES.
Definition VBLANK_T_CYCLE : Z := 144 * LINE_T_CYCLES.

(** [u16::try_from(..).ok()] *)
Definition try_u16 (x : Z) : option Z := if x <? 65536 then Some x else None.

Definition halt_until_vblank_m_cycles (d : DmgDeviceState) : option Z :=
  if bool_decide (is_Some (pending_interrupt d))
     || negb (lcd_enabled d)
     || (Z.land (interrupt_enable d) 0x01 =? 0)
     || negb (Z.land (interrupt_enable d) 0x10 =? 0)
     || negb (lcd_status_control d =? 0)
     || negb (Z.land (control (timer d)) 0x04 =? 0)
     || negb (reload_phase (timer d) =? 0)
     || edge_latch (timer d)
     || negb (serial_cycles_remaining d =? 0)
     || negb (Z.land (serial_control d) 0x80 =? 0)
     || dma_active d
     || negb (dma_owed d =? 0)
  then None
  else
    let position := ppu_line d * LINE_T_CYCLES + ppu_dot d in
    let remaining :=
      if position <? VBLANK_T_CYCLE then VBLANK_T_CYCLE - position
      else FRAME_T_CYCLES - position + VBLANK_T_CYCLE in
    if (remaining =? 0) || negb (remaining mod 4 =? 0) then None
    else try_u16 (remaining / 4).

Definition halt_until_serial_m_cycles (d : DmgDeviceState) : option Z :=
  if bool_decide (is_Some (pending_interrupt d))
     || (Z.land (interrupt_enable d) 0x08 =? 0)
     || lcd_enabled d
     || negb (Z.land (control (timer d)) 0x04 =? 0)
     || negb (reload_phase (timer d) =? 0)
     || edge_latch (timer d)
     || negb (Z.land (serial_control d) 0x81 =? 0x81)
     || (serial_cycles_remaining d =? 0)
     || (4096 <? serial_cycles_remaining d)
     || negb (serial_cycles_remaining d mod 4 =? 0)
     || dma_active d
     || negb (dma_owed d =? 0)
  then None
  else Some (serial_cycles_remaining d / 4).

Definition halt_until_timer_m_cycles (d : DmgDeviceState) : option Z :=
  if bool_decide (is_Some (pending_interrupt d))
     || (Z.land (interrupt_enable d) 0x04 =? 0)
     || lcd_enabled d
     || negb (serial_cycles_remaining d =? 0)
     || negb (Z.land (serial_control d) 0x80 =? 0)
     || dma_active d
     || negb (dma_owed d =? 0)
  then None
  else
    t_cycles ← t_cycles_until_interrupt (timer d);
    rounded ← checked_add_u32 t_cycles 3;
    Some (rounded / 4).

(** The chunked [while] loop; the fuel is the number of M-cycles, and every chunk takes at least
    one. *)
Fixpoint advance_quiet_loop (fuel : nat) (d : DmgDeviceState) (m_cycles : Z) : DmgDeviceState :=
  match fuel with
  | O => d
  | S fuel =>
      if m_cycles =? 0 then d
      else
        let chunk := Z.min m_cycles 63 in
        advance_quiet_loop fuel (advance_m_cycles d chunk) (m_cycles - chunk)
  end.

Definition advance_quiet_long (d : DmgDeviceState) (m_cycles : Z) : DmgDeviceState :=
  advance_quiet_loop (Z.to_nat m_cycles) d m_cycles.

Definition advance_halt_until_vblank (d : DmgDeviceState) (m_cycles : Z) := advance_quiet_long d m_cycles.
Definition advance_halt_until_serial (d : DmgDeviceState) (m_cycles : Z) := advance_quiet_long d m_cycles.
Definition advance_halt_until_timer (d : DmgDeviceState) (m_cycles : Z) := advance_quiet_long d m_cycles.

(** ** Clocking is additive

    The three clocked parts touch disjoint fields, apart from the request bits they set. *)

Definition timer_part (n : nat) (d : DmgDeviceState) : DmgDeviceState :=
  request (advance_ticks n (timer d) 0).2 (d <| timer := (advance_ticks n (timer d) 0).1 |>).
Definition serial_part (n : nat) (d : DmgDeviceState) : DmgDeviceState :=
  advance_serial_t_cycles d (Z.of_nat n).
Definition ppu_part (n : nat) (d : DmgDeviceState) : DmgDeviceState :=
  Nat.iter n advance_ppu_t_cycle d.
Definition advance_t (n : nat) (d : DmgDeviceState) : DmgDeviceState :=
  ppu_part n (serial_part n (timer_part n d)).

Lemma advance_m_cycles_t d m :
  0 <= m <= 63 → advance_m_cycles d m = advance_t (Z.to_nat (4 * m)) d.
Proof.
  intros. unfold advance_m_cycles, saturating_mul_u8, advance_t, ppu_part, serial_part, timer_part,
    advance_t_cycles.
  replace (Z.min 255 (m * 4)) with (4 * m) by lia.
  destruct (advance_ticks _ _ _) as [t bits]. cbn [fst snd]. by rewrite Z2Nat.id by lia.
Qed.

Lemma timer_part_add a b d : timer_part (a + b) d = timer_part b (timer_part a d).
Proof.
  unfold timer_part, request. cbn. rewrite advance_ticks_add, advance_ticks_acc. cbn.
  by rewrite Z.lor_assoc.
Qed.

Lemma serial_part_add a b d :
  0 <= serial_cycles_remaining d → serial_part (a + b) d = serial_part b (serial_part a d).
Proof.
  intros Hr. unfold serial_part, advance_serial_t_cycles, saturating_sub.
  destruct (Z.eqb_spec (serial_cycles_remaining d) 0) as [E | E]; cbn.
  { by rewrite (proj2 (Z.eqb_eq _ _) E). }
  set (x := Z.max 0 (serial_cycles_remaining d - Z.of_nat a)).
  set (y := Z.max 0 (serial_cycles_remaining d - Z.of_nat (a + b))).
  assert (Hy : Z.max 0 (x - Z.of_nat b) = y) by lia.
  assert (Hx : x = 0 → y = 0) by lia. clearbody x y.
  destruct (Z.eqb_spec x 0) as [-> | Ex]; cbn.
  - by rewrite Hx.
  - rewrite (proj2 (Z.eqb_neq x 0) Ex), Hy. by destruct (y =? 0).
Qed.

Lemma ppu_part_add a b d : ppu_part (a + b) d = ppu_part b (ppu_part a d).
Proof. unfold ppu_part. rewrite Nat.add_comm. apply Nat.iter_add. Qed.

Lemma lor_swap x a b : Z.lor (Z.lor x a) b = Z.lor (Z.lor x b) a.
Proof. by rewrite <- !Z.lor_assoc, (Z.lor_comm a). Qed.

Lemma timer_serial_comm m n d :
  timer_part m (serial_part n d) = serial_part n (timer_part m d).
Proof.
  unfold timer_part, serial_part, advance_serial_t_cycles, request. cbn.
  destruct (serial_cycles_remaining d =? 0); cbn; [done |].
  destruct (_ =? 0); cbn; [| done]. by rewrite lor_swap.
Qed.

Lemma request_0 d : request 0 d = d.
Proof. destruct d. unfold request. cbn. by rewrite Z.lor_0_r. Qed.

Lemma request_request a b d : request b (request a d) = request (Z.lor a b) d.
Proof. unfold request. cbn. by rewrite Z.lor_assoc. Qed.

(** One dot: the next position and the request bits it raises. *)
Definition next_dot (d : DmgDeviceState) : Z :=
  if negb (lcd_enabled d) || (ppu_dot d + 1 =? 456) then 0 else ppu_dot d + 1.
Definition next_line (d : DmgDeviceState) : Z :=
  if negb (lcd_enabled d) then 0
  else if ppu_dot d + 1 =? 456 then (if ppu_line d =? 153 then 0 else ppu_line d + 1)
  else ppu_line d.
Definition moved (d : DmgDeviceState) : DmgDeviceState :=
  d <| ppu_line := next_line d |> <| ppu_dot := next_dot d |>.
Definition ppu_bits (d : DmgDeviceState) : Z :=
  if lcd_enabled d then
    Z.lor (if (ppu_dot d + 1 =? 456) && (next_line d =? 144) then 1 else 0)
          (if negb (stat_signal d) && stat_signal (moved d) then 2 else 0)
  else 0.

Lemma request_stat_eq d before :
  request_stat_rising_edge d before =
  request (if negb before && stat_signal d then 2 else 0) d.
Proof. unfold request_stat_rising_edge. case_match; [done | by rewrite request_0]. Qed.

Lemma advance_ppu_eq d : advance_ppu_t_cycle d = request (ppu_bits d) (moved d).
Proof.
  unfold advance_ppu_t_cycle, ppu_bits, moved, next_line, next_dot.
  destruct (lcd_enabled d) eqn:El; cbn [negb orb]; [| by rewrite request_0].
  change (ppu_dot d <| ppu_dot := ppu_dot d + 1 |>) with (ppu_dot d + 1).
  rewrite request_stat_eq. destruct (ppu_dot d + 1 =? 456); cbn [andb].
  - change (ppu_line (d <| ppu_dot := ppu_dot d + 1 |> <| ppu_dot := 0 |>)) with (ppu_line d).
    set (l := if ppu_line d =? 153 then 0 else ppu_line d + 1).
    change (ppu_line (d <| ppu_dot := ppu_dot d + 1 |> <| ppu_dot := 0 |> <| ppu_line := l |>)) with l.
    destruct (l =? 144); [| by rewrite Z.lor_0_l].
    by rewrite request_request.
  - rewrite Z.lor_0_l. by destruct d.
Qed.

Lemma request_ppu_comm bits d :
  request bits (advance_ppu_t_cycle d) = advance_ppu_t_cycle (request bits d).
Proof.
  rewrite !advance_ppu_eq. unfold request. cbn. by rewrite lor_swap.
Qed.

Lemma timer_ppu_comm m n d : timer_part m (ppu_part n d) = ppu_part n (timer_part m d).
Proof.
  unfold ppu_part. induction n as [|n IH]; [done |]. rewrite !Nat.iter_succ, <- IH.
  generalize (Nat.iter n advance_ppu_t_cycle d). clear. intros d.
  rewrite !advance_ppu_eq. unfold timer_part, request. cbn. by rewrite lor_swap.
Qed.

Lemma serial_ppu_comm m n d : serial_part m (ppu_part n d) = ppu_part n (serial_part m d).
Proof.
  unfold ppu_part. induction n as [|n IH]; [done |]. rewrite !Nat.iter_succ, <- IH.
  generalize (Nat.iter n advance_ppu_t_cycle d). clear. intros d.
  rewrite !advance_ppu_eq. unfold serial_part, advance_serial_t_cycles, request. cbn.
  destruct (serial_cycles_remaining d =? 0); cbn; [done |].
  destruct (_ =? 0); cbn; [| done]. by rewrite lor_swap.
Qed.

Lemma advance_t_add a b d :
  0 <= serial_cycles_remaining d → advance_t (a + b) d = advance_t b (advance_t a d).
Proof.
  intros Hr. unfold advance_t.
  rewrite timer_ppu_comm, timer_serial_comm, serial_ppu_comm, <- ppu_part_add.
  rewrite timer_part_add, serial_part_add by done. done.
Qed.

(** ** The chunked loop is single stepping *)

Definition m_cycle (d : DmgDeviceState) : DmgDeviceState := advance_m_cycles d 1.

Lemma advance_t_0 d : 0 <= serial_cycles_remaining d <= 4096 → advance_t 0 d = d.
Proof.
  intros Hr. unfold advance_t, ppu_part. cbn [Nat.iter nat_rect].
  assert (Ht : timer_part 0 d = d)
    by (unfold timer_part; cbn [advance_ticks fst snd]; rewrite request_0; by destruct d).
  rewrite Ht. unfold serial_part, advance_serial_t_cycles, saturating_sub.
  destruct (Z.eqb_spec (serial_cycles_remaining d) 0) as [E | E]; [done |].
  replace (Z.max 0 (serial_cycles_remaining d - Z.of_nat 0)) with (serial_cycles_remaining d) by lia.
  replace (d <| serial_cycles_remaining := serial_cycles_remaining d |>) with d by (by destruct d).
  by rewrite (proj2 (Z.eqb_neq _ 0) E).
Qed.

Lemma advance_t_iter n d :
  device_ok d → advance_t (4 * n) d = Nat.iter n m_cycle d.
Proof.
  intros Hd. induction n as [|n IH].
  { apply advance_t_0. by destruct Hd. }
  replace (4 * S n)%nat with (4 * n + 4)%nat by lia.
  rewrite advance_t_add by (destruct Hd; lia). rewrite IH, Nat.iter_succ.
  unfold m_cycle at 2. by rewrite advance_m_cycles_t by lia.
Qed.

Lemma m_cycle_ok d : device_ok d → device_ok (m_cycle d).
Proof. intros. apply advance_m_cycles_ok; [done | lia]. Qed.

Lemma m_cycles_ok n d : device_ok d → device_ok (Nat.iter n m_cycle d).
Proof. intros. apply Nat.iter_ind; auto using m_cycle_ok. Qed.

Lemma advance_m_cycles_iter d m :
  device_ok d → 0 <= m <= 63 → advance_m_cycles d m = Nat.iter (Z.to_nat m) m_cycle d.
Proof.
  intros Hd Hm. rewrite advance_m_cycles_t, <- advance_t_iter by done. f_equal. lia.
Qed.

Lemma quiet_loop_iter fuel : ∀ d m,
  device_ok d → 0 <= m <= Z.of_nat fuel →
  advance_quiet_loop fuel d m = Nat.iter (Z.to_nat m) m_cycle d.
Proof.
  induction fuel as [|fuel IH]; intros d m Hd Hm; [by replace m with 0 by lia |].
  cbn [advance_quiet_loop]. destruct (Z.eqb_spec m 0) as [-> | Hn]; [done |].
  rewrite IH by (try apply advance_m_cycles_ok; try done; lia).
  rewrite advance_m_cycles_iter by (done || lia). rewrite <- Nat.iter_add. f_equal. lia.
Qed.

Lemma quiet_long_iter d m :
  device_ok d → 0 <= m → advance_quiet_long d m = Nat.iter (Z.to_nat m) m_cycle d.
Proof. intros. apply quiet_loop_iter; [done | lia]. Qed.

(** ** Pending interrupts across quiet intervals *)

Lemma pending_ext d d' :
  interrupt_request d' = interrupt_request d → interrupt_enable d' = interrupt_enable d →
  pending_interrupt d' = pending_interrupt d.
Proof. unfold pending_interrupt. by intros -> ->. Qed.

Lemma pending_becomes d d' i :
  pending_interrupt d = None → tst (interrupt_enable d) (2 ^ interrupt_bit i) = true →
  interrupt_request d' = Z.lor (interrupt_request d) (2 ^ interrupt_bit i) →
  interrupt_enable d' = interrupt_enable d → pending_interrupt d' = Some i.
Proof.
  rewrite pending_none. intros Hn He Hr Hie. apply pending_some.
  assert (Hb : ∀ j, 0 <= interrupt_bit j) by (intros []; cbn; lia).
  assert (Hj : ∀ j, requested_and_enabled d' j = (interrupt_bit i =? interrupt_bit j) &&
                    Z.testbit (interrupt_enable d) (interrupt_bit j)).
  { intros j. specialize (Hn j). unfold requested_and_enabled in *.
    rewrite Hr, Hie, Z.lor_spec, Z.pow2_bits_eqb by apply Hb.
    destruct (_ =? _); [by rewrite orb_true_r | by rewrite orb_false_r]. }
  split; [rewrite Hj, Z.eqb_refl, <- tst_pow2 by apply Hb; done |].
  intros j Hlt. rewrite Hj, (proj2 (Z.eqb_neq _ _)) by lia. done.
Qed.

Lemma not_pending d : bool_decide (is_Some (pending_interrupt d)) = false → pending_interrupt d = None.
Proof. intros H%bool_decide_eq_false. by destruct (pending_interrupt d); [destruct H |]. Qed.

Record quiet_timer (t : DmgTimerState) : Prop := {
  quiet_control : Z.land (control t) 4 = 0;
  quiet_phase : reload_phase t = 0;
  quiet_latch : edge_latch t = false
}.

Lemma quiet_tick t : quiet_timer t → (tick t).2 = 0 ∧ quiet_timer (tick t).1.
Proof.
  intros [Hc Hp Hl]. unfold tick, advance_reload_pipeline. rewrite Hp.
  change (0 =? 5) with false. change (negb (0 =? 0)) with false. cbn [fst snd]. cbn.
  rewrite Hl. cbn [andb]. split; [done |]. split; cbn; [done | done |].
  unfold detector_input. cbn. unfold tst. by rewrite Hc.
Qed.

Lemma quiet_ticks n : ∀ t, quiet_timer t → (advance_ticks n t 0).2 = 0.
Proof.
  induction n as [|n IH]; intros t Ht; [done |]. cbn [advance_ticks].
  destruct (quiet_tick t Ht) as [Hb Hq]. destruct (tick t) as [t' b]. cbn in Hb, Hq. subst b. by apply IH.
Qed.

(** The request and enable registers after [n] T-cycles, by part. *)
Lemma timer_part_request n d :
  interrupt_request (timer_part n d) = Z.lor (interrupt_request d) (advance_ticks n (timer d) 0).2.
Proof. done. Qed.

Lemma serial_part_idle n d : serial_cycles_remaining d = 0 → serial_part n d = d.
Proof.
  intros H. unfold serial_part, advance_serial_t_cycles. by rewrite (proj2 (Z.eqb_eq _ _) H).
Qed.

Lemma serial_part_request n d :
  serial_cycles_remaining d <> 0 →
  interrupt_request (serial_part n d) =
  if serial_cycles_remaining d <=? Z.of_nat n then Z.lor (interrupt_request d) 8
  else interrupt_request d.
Proof.
  intros H. unfold serial_part, advance_serial_t_cycles, saturating_sub.
  rewrite (proj2 (Z.eqb_neq _ _) H). cbn.
  destruct (Z.leb_spec (serial_cycles_remaining d) (Z.of_nat n)).
  - by rewrite (proj2 (Z.eqb_eq _ _)) by lia.
  - by rewrite (proj2 (Z.eqb_neq _ _)) by lia.
Qed.

Lemma ppu_part_off n d :
  lcd_enabled d = false →
  interrupt_request (ppu_part n d) = interrupt_request d ∧ lcd_enabled (ppu_part n d) = false.
Proof.
  intros Hl. unfold ppu_part. induction n as [|n [IH1 IH2]]; [done |].
  rewrite Nat.iter_succ, advance_ppu_eq. unfold ppu_bits. rewrite IH2, request_0.
  by split; [rewrite <- IH1 |].
Qed.

Lemma advance_t_enable n d : interrupt_enable (advance_t n d) = interrupt_enable d.
Proof.
  unfold advance_t.
  assert (Hs : interrupt_enable (serial_part n (timer_part n d)) = interrupt_enable d).
  { unfold serial_part, advance_serial_t_cycles. repeat case_match; done. }
  rewrite <- Hs. generalize (serial_part n (timer_part n d)). clear. intros d.
  unfold ppu_part. induction n as [|n IH]; [done |]. by rewrite Nat.iter_succ, advance_ppu_eq.
Qed.

(** ** PPU position *)

Definition position (d : DmgDeviceState) : Z := ppu_line d * 456 + ppu_dot d.

Lemma position_step d :
  device_ok d → lcd_enabled d = true → position (moved d) = (position d + 1) mod 70224.
Proof.
  intros Hd Hl. pose proof (ok_line d Hd). pose proof (ok_dot d Hd).
  unfold position, moved, next_line, next_dot. rewrite Hl. cbn.
  destruct (Z.eqb_spec (ppu_dot d + 1) 456), (Z.eqb_spec (ppu_line d) 153); zlia.
Qed.

Lemma stat_quiet d : lcd_status_control d = 0 → stat_signal d = false.
Proof.
  intros H. unfold stat_signal. rewrite H. change (tst 0 8) with false. change (tst 0 16) with false.
  change (tst 0 32) with false. change (tst 0 64) with false. by destruct (lcd_enabled d).
Qed.

Lemma ppu_bits_quiet d :
  device_ok d → lcd_enabled d = true → lcd_status_control d = 0 →
  ppu_bits d = if position d + 1 =? 65664 then 1 else 0.
Proof.
  intros Hd Hl Hs. pose proof (ok_line d Hd). pose proof (ok_dot d Hd).
  unfold ppu_bits. rewrite Hl, (stat_quiet (moved d)), andb_false_r, Z.lor_0_r by done.
  unfold position, next_line. rewrite Hl. cbn [negb].
  destruct (Z.eqb_spec (ppu_dot d + 1) 456), (Z.eqb_spec (ppu_line d) 153),
    (Z.eqb_spec (ppu_line d * 456 + ppu_dot d + 1) 65664); cbn [andb]; try done;
    repeat case_match; lia.
Qed.

(** The distance to the next VBlank line, in dots. *)
Definition vblank_distance (d : DmgDeviceState) : Z :=
  if position d <? 65664 then 65664 - position d else 70224 - position d + 65664.

Lemma ppu_run n d :
  device_ok d → lcd_enabled d = true → lcd_status_control d = 0 →
  Z.of_nat n <= vblank_distance d →
  let d' := ppu_part n d in
  device_ok d' ∧ lcd_enabled d' = true ∧ lcd_status_control d' = 0 ∧
  position d' = (position d + Z.of_nat n) mod 70224 ∧
  interrupt_request d' =
    if Z.of_nat n =? vblank_distance d then Z.lor (interrupt_request d) 1 else interrupt_request d.
Proof.
  intros Hd Hl Hs. pose proof (ok_line d Hd). pose proof (ok_dot d Hd).
  assert (Hpos : 0 <= position d < 70224) by (unfold position; lia).
  assert (Hv : 0 < vblank_distance d) by (unfold vblank_distance; case_match; lia).
  unfold ppu_part. induction n as [|n IH]; intros Hn; cbv zeta.
  { rewrite (proj2 (Z.eqb_neq _ _)) by lia. change (Nat.iter 0 advance_ppu_t_cycle d) with d.
    do 3 (split; [done |]). split; [| done]. change (position d = (position d + 0) mod 70224). zlia. }
  destruct IH as (Hok & Hl' & Hs' & Hp & Hr); [lia |].
  rewrite Nat.iter_succ. set (e := Nat.iter n advance_ppu_t_cycle d) in *. clearbody e.
  rewrite (proj2 (Z.eqb_neq (Z.of_nat n) _)) in Hr by lia.
  split; [by apply advance_ppu_ok |]. rewrite advance_ppu_eq, ppu_bits_quiet by done.
  split; [done |]. split; [done |]. split.
  - change (position (moved e) = (position d + Z.of_nat (S n)) mod 70224).
    rewrite position_step, Hp by done. zlia.
  - change (interrupt_request (request ?b (moved e))) with (Z.lor (interrupt_request e) b).
    rewrite Hr, Hp.
    assert (Hb : ((position d + Z.of_nat n) mod 70224 + 1 =? 65664) =
                 (Z.of_nat (S n) =? vblank_distance d)).
    { clear - Hn Hpos. revert Hn. unfold vblank_distance.
      rewrite Nat2Z.inj_succ. intros Hn. apply eq_true_iff_eq. rewrite !Z.eqb_eq. revert Hn.
      destruct (Z.ltb_spec (position d) 65664); intros; zlia. }
    rewrite Hb. case_match; [done | by rewrite Z.lor_0_r].
Qed.

(** ** Exactness of the skips *)

(** A skip of [n] M-cycles is exact for [i]: the fast-forward equals single stepping, nothing is
    pending after any smaller number of M-cycles, and [i] is what is pending at the end. *)
Definition exact_skip (d : DmgDeviceState) (n : Z) (i : DmgInterrupt) (after : DmgDeviceState) : Prop :=
  0 < n ∧ after = Nat.iter (Z.to_nat n) m_cycle d ∧
  (∀ k, (k < Z.to_nat n)%nat → pending_interrupt (Nat.iter k m_cycle d) = None) ∧
  pending_interrupt after = Some i.

Lemma exact_skip_intro d n i :
  device_ok d → 0 < n → pending_interrupt d = None →
  tst (interrupt_enable d) (2 ^ interrupt_bit i) = true →
  (∀ k, (k < Z.to_nat n)%nat → interrupt_request (advance_t (4 * k) d) = interrupt_request d) →
  interrupt_request (advance_t (4 * Z.to_nat n) d) = Z.lor (interrupt_request d) (2 ^ interrupt_bit i) →
  exact_skip d n i (advance_quiet_long d n).
Proof.
  intros Hd Hn Hp He Hq Hend. unfold exact_skip. rewrite quiet_long_iter by (done || lia).
  split; [done |]. split; [done |]. split.
  - intros k Hk. rewrite <- advance_t_iter, <- Hp by done.
    apply pending_ext; [by apply Hq | apply advance_t_enable].
  - rewrite <- advance_t_iter by done. eapply pending_becomes; [exact Hp | exact He | exact Hend |].
    apply advance_t_enable.
Qed.

Lemma or_guard {A} (a b : bool) (x : option A) v :
  (if a || b then None else x) = Some v → a = false ∧ (if b then None else x) = Some v.
Proof. by destruct a, b. Qed.

Lemma land_tst x m : (Z.land x m =? 0) = false → tst x m = true.
Proof. unfold tst. by intros ->. Qed.

Lemma timer_part_quiet n d :
  quiet_timer (timer d) → timer_part n d = d <| timer := (advance_ticks n (timer d) 0).1 |>.
Proof. intros Hq. unfold timer_part. by rewrite quiet_ticks, request_0. Qed.

(** The guard of a skip, read off its [Some]. *)
Lemma vblank_guard d n :
  halt_until_vblank_m_cycles d = Some n →
  pending_interrupt d = None ∧ lcd_enabled d = true ∧ tst (interrupt_enable d) 1 = true ∧
  lcd_status_control d = 0 ∧ quiet_timer (timer d) ∧ serial_cycles_remaining d = 0 ∧
  4 * n = vblank_distance d.
Proof.
  unfold halt_until_vblank_m_cycles. rewrite <- !orb_assoc. intros H.
  repeat apply or_guard in H as [? H].
  repeat match goal with E : negb _ = false |- _ => apply negb_false_iff in E end.
  destruct (negb (dma_owed d =? 0)); [done |].
  assert (Hd : (if ppu_line d * LINE_T_CYCLES + ppu_dot d <? VBLANK_T_CYCLE
                then VBLANK_T_CYCLE - (ppu_line d * LINE_T_CYCLES + ppu_dot d)
                else FRAME_T_CYCLES - (ppu_line d * LINE_T_CYCLES + ppu_dot d) + VBLANK_T_CYCLE)
               = vblank_distance d) by done.
  rewrite Hd in H. clear Hd. apply or_guard in H as [_ H].
  destruct (negb (vblank_distance d mod 4 =? 0)) eqn:E4; [done |]. unfold try_u16 in H.
  destruct (_ <? _); [| done]. injection H as <-.
  split; [by apply not_pending |]. split; [done |]. split; [by apply land_tst |].
  split; [lia |]. split; [split; [lia | lia | done] |]. split; [lia |]. zlia.
Qed.

Lemma vblank_distance_pos d : device_ok d → 0 < vblank_distance d.
Proof.
  intros Hd. pose proof (ok_line d Hd). pose proof (ok_dot d Hd). unfold vblank_distance, position.
  case_match; lia.
Qed.

Lemma vblank_run d n k :
  device_ok d → lcd_enabled d = true → lcd_status_control d = 0 → quiet_timer (timer d) →
  serial_cycles_remaining d = 0 → 4 * n = vblank_distance d → (k <= Z.to_nat n)%nat →
  interrupt_request (advance_t (4 * k) d) =
    (if Z.of_nat k =? n then Z.lor (interrupt_request d) 1 else interrupt_request d) ∧
  position (advance_t (4 * k) d) = (position d + 4 * Z.of_nat k) mod 70224 ∧
  device_ok (advance_t (4 * k) d).
Proof.
  intros Hd Hl Hs Hq Hser Hn Hk. unfold advance_t. rewrite timer_part_quiet by done.
  rewrite serial_part_idle by done.
  set (e := d <| timer := (advance_ticks (4 * k) (timer d) 0).1 |>).
  assert (He : device_ok e).
  { pose proof (advance_ticks_ok (4 * k) (timer d) 0 (ok_timer d Hd) (or_introl eq_refl)) as [Ht _].
    destruct Hd. by split; cbn. }
  change (position d) with (position e). change (vblank_distance d) with (vblank_distance e) in Hn.
  pose proof (vblank_distance_pos e He).
  destruct (ppu_run (4 * k) e He Hl Hs ltac:(lia)) as (Hok & _ & _ & Hp & Hr).
  split; [| split; [rewrite Hp; f_equal; lia | done]].
  rewrite Hr. change (interrupt_request e) with (interrupt_request d).
  replace (Z.of_nat (4 * k) =? vblank_distance e) with (Z.of_nat k =? n); [done |].
  apply eq_true_iff_eq. rewrite !Z.eqb_eq. lia.
Qed.

(** The long HALT skip to VBlank is exact: whenever it is offered, fast-forwarding equals
    stepping one M-cycle at a time, no interrupt becomes pending earlier, VBlank is pending at the
    end, and the LCD has just entered line 144. *)
Lemma halt_until_vblank_exact d n :
  device_ok d → halt_until_vblank_m_cycles d = Some n →
  exact_skip d n Int.VBlank (advance_halt_until_vblank d n) ∧
  ppu_line (advance_halt_until_vblank d n) = 144 ∧ ppu_dot (advance_halt_until_vblank d n) = 0.
Proof.
  intros Hd H. destruct (vblank_guard d n H) as (Hp & Hl & He & Hs & Hq & Hser & Hn).
  pose proof (vblank_distance_pos d Hd) as Hv.
  split.
  - apply exact_skip_intro; [done | lia | done | done | |].
    + intros k Hk. destruct (vblank_run d n k) as (-> & _); try done; [lia |].
      by rewrite (proj2 (Z.eqb_neq _ _)) by lia.
    + destruct (vblank_run d n (Z.to_nat n)) as (-> & _); try done.
      by rewrite (proj2 (Z.eqb_eq _ _)) by lia.
  - unfold advance_halt_until_vblank. rewrite quiet_long_iter, <- advance_t_iter by (done || lia).
    destruct (vblank_run d n (Z.to_nat n)) as (_ & Hpos & Hok); try done.
    pose proof (ok_line _ Hok). pose proof (ok_dot _ Hok).
    assert (Hpos' : position (advance_t (4 * Z.to_nat n) d) = 65664).
    { rewrite Hpos. clear - Hn Hd Hv. pose proof (ok_line d Hd). pose proof (ok_dot d Hd).
      assert (0 <= position d < 70224) by (unfold position; lia). revert Hn. unfold vblank_distance.
      destruct (Z.ltb_spec (position d) 65664); intros; zlia. }
    unfold position in Hpos'. lia.
Qed.

Lemma halt_until_vblank_exact_witness :
  let d := dmg_post_boot <| interrupt_request := 0 |> <| interrupt_enable := 1 |> in
  halt_until_vblank_m_cycles d = Some 16416 ∧
  (exact_skip d 16416 Int.VBlank (advance_halt_until_vblank d 16416) ∧
   ppu_line (advance_halt_until_vblank d 16416) = 144 ∧
   ppu_dot (advance_halt_until_vblank d 16416) = 0).
Proof.
  cbv zeta. split; [reflexivity |]. apply halt_until_vblank_exact; [| reflexivity].
  destruct device_post_boot_ok. split; cbn; auto; lia.
Defined.

Lemma serial_guard d n :
  halt_until_serial_m_cycles d = Some n →
  pending_interrupt d = None ∧ tst (interrupt_enable d) 8 = true ∧ lcd_enabled d = false ∧
  quiet_timer (timer d) ∧ serial_cycles_remaining d <> 0 ∧ 4 * n = serial_cycles_remaining d.
Proof.
  unfold halt_until_serial_m_cycles. rewrite <- !orb_assoc. intros H.
  repeat apply or_guard in H as [? H].
  repeat match goal with E : negb _ = false |- _ => apply negb_false_iff in E end.
  destruct (negb (dma_owed d =? 0)); [done |]. injection H as <-.
  split; [by apply not_pending |]. split; [by apply land_tst |]. split; [done |].
  split; [split; [lia | lia | done] |]. split; [lia | zlia].
Qed.

Lemma lcd_off_request n d :
  lcd_enabled d = false → quiet_timer (timer d) → 0 < serial_cycles_remaining d →
  interrupt_request (advance_t n d) =
  if serial_cycles_remaining d <=? Z.of_nat n then Z.lor (interrupt_request d) 8
  else interrupt_request d.
Proof.
  intros Hl Hq Hs. unfold advance_t.
  assert (Hl' : ∀ e, lcd_enabled (serial_part n e) = lcd_enabled e).
  { intros e. unfold serial_part, advance_serial_t_cycles. repeat case_match; done. }
  rewrite (proj1 (ppu_part_off n (serial_part n (timer_part n d)) (eq_trans (Hl' (timer_part n d)) Hl))).
  rewrite timer_part_quiet by done. by rewrite serial_part_request by (cbn; lia).
Qed.

(** The long HALT skip to serial completion is exact: fast-forwarding equals single stepping,
    nothing becomes pending earlier and the serial interrupt is pending at its end. *)
Lemma halt_until_serial_exact d n :
  device_ok d → halt_until_serial_m_cycles d = Some n →
  exact_skip d n Int.Serial (advance_halt_until_serial d n).
Proof.
  intros Hd H. destruct (serial_guard d n H) as (Hp & He & Hl & Hq & Hs & Hn).
  pose proof (ok_serial_cycles d Hd). apply exact_skip_intro; [done | lia | done | done | |].
  - intros k Hk. rewrite lcd_off_request by (done || lia). by rewrite (proj2 (Z.leb_gt _ _)) by lia.
  - rewrite lcd_off_request by (done || lia). by rewrite (proj2 (Z.leb_le _ _)) by lia.
Qed.

Lemma halt_until_serial_exact_witness :
  let d := dmg_post_boot <| interrupt_request := 0 |> <| interrupt_enable := 8 |>
             <| lcd_control := 0 |> <| serial_control := 0x81 |>
             <| serial_cycles_remaining := 4096 |> in
  halt_until_serial_m_cycles d = Some 1024 ∧
  exact_skip d 1024 Int.Serial (advance_halt_until_serial d 1024).
Proof.
  cbv zeta. split; [reflexivity |]. apply halt_until_serial_exact; [| reflexivity].
  destruct device_post_boot_ok. split; cbn; auto; lia.
Defined.

Lemma timer_guard d n :
  timer_ok (timer d) → halt_until_timer_m_cycles d = Some n →
  pending_interrupt d = None ∧ tst (interrupt_enable d) 4 = true ∧ lcd_enabled d = false ∧
  serial_cycles_remaining d = 0 ∧
  ∃ t, t_cycles_until_interrupt (timer d) = Some t ∧ n = (t + 3) / 4.
Proof.
  intros Ht. unfold halt_until_timer_m_cycles. rewrite <- !orb_assoc. intros H.
  repeat apply or_guard in H as [? H].
  repeat match goal with E : negb _ = false |- _ => apply negb_false_iff in E end.
  destruct (negb (dma_owed d =? 0)); [done |].
  destruct (t_cycles_until_interrupt (timer d)) as [t|] eqn:E; [cbn in H | done].
  unfold checked_add_u32 in H. destruct (_ <? _); [cbn in H | done]. injection H as <-.
  split; [by apply not_pending |]. split; [by apply land_tst |]. split; [done |]. split; [lia |].
  by exists t.
Qed.

Lemma timer_only_request n d :
  lcd_enabled d = false → serial_cycles_remaining d = 0 →
  interrupt_request (advance_t n d) = Z.lor (interrupt_request d) (advance_ticks n (timer d) 0).2.
Proof.
  intros Hl Hs. unfold advance_t. rewrite serial_part_idle by done.
  by rewrite (proj1 (ppu_part_off n (timer_part n d) Hl)).
Qed.

(** The long HALT skip to the timer interrupt is exact to the M-cycle: fast-forwarding equals
    single stepping, nothing becomes pending in an earlier M-cycle and TIMER is pending at its end. *)
Lemma halt_until_timer_exact d n :
  device_ok d → halt_until_timer_m_cycles d = Some n →
  exact_skip d n Int.Timer (advance_halt_until_timer d n).
Proof.
  intros Hd H. destruct (timer_guard d n (ok_timer d Hd) H) as (Hp & He & Hl & Hs & t & Ht & ->).
  destruct (interrupt_exact (timer d) t (ok_timer d Hd) Ht) as (Hpos & Hq & raw & _ & Hfire & _).
  assert (Hbound : t <= 4 * ((t + 3) / 4) < t + 4) by zlia.
  apply exact_skip_intro; [done | lia | done | done | |].
  - intros k Hk. rewrite timer_only_request by done. rewrite Hq by lia. apply Z.lor_0_r.
  - rewrite timer_only_request by done.
    replace (4 * Z.to_nat ((t + 3) / 4))%nat
      with (Z.to_nat t + (4 * Z.to_nat ((t + 3) / 4) - Z.to_nat t))%nat by lia.
    rewrite advance_ticks_add, Hfire. cbn [fst snd]. rewrite advance_ticks_acc. cbn [snd].
    set (r := running (timer d) raw (modulo (timer d)) 0).
    destruct (advance_ticks_ok (Z.to_nat t) (timer d) 0 (ok_timer d Hd) (or_introl eq_refl)) as [Hr _].
    rewrite Hfire in Hr. cbn [fst] in Hr. fold r in Hr.
    destruct (advance_ticks_ok (4 * Z.to_nat ((t + 3) / 4) - Z.to_nat t) r 0 Hr (or_introl eq_refl))
      as [_ [-> | ->]]; done.
Qed.

Lemma halt_until_timer_exact_witness :
  let d := dmg_post_boot <| interrupt_request := 0 |> <| interrupt_enable := 4 |>
             <| lcd_control := 0 |> <| timer := MkTimer 0 255 0x42 5 false 0 |> in
  halt_until_timer_m_cycles d = Some 6 ∧
  exact_skip d 6 Int.Timer (advance_halt_until_timer d 6).
Proof.
  cbv zeta. split; [reflexivity |]. apply halt_until_timer_exact; [| reflexivity].
  destruct device_post_boot_ok. split; cbn; auto; try lia. split; cbn; lia.
Defined.

Lemma halt_idle_loop_spec n : ∀ e d,
  ∃ k, (1 <= k <= S n)%nat ∧
    (∀ j, (1 <= j < k)%nat → pending_interrupt (Nat.iter j m_cycle d) = None) ∧
    ((k <= n)%nat → is_Some (pending_interrupt (Nat.iter k m_cycle d))) ∧
    halt_idle_loop n e d = if (k <=? n)%nat then e + Z.of_nat k - 1 else 6.
Proof.
  induction n as [|n IH]; intros e d; [exists 1%nat; repeat split; lia |].
  cbn [halt_idle_loop]. fold (m_cycle d).
  destruct (bool_decide (is_Some (pending_interrupt (m_cycle d)))) eqn:E.
  - apply bool_decide_eq_true in E. exists 1%nat.
    repeat split; try lia; [done |]. cbn. lia.
  - apply not_pending in E. destruct (IH (e + 1) (m_cycle d)) as (k & Hk & Hq & Hp & Hv).
    exists (S k). split; [lia |]. split; [| split].
    + intros [|[|j]] Hj; [lia | done |]. rewrite Nat.iter_succ_r. apply Hq. lia.
    + intros Hle. rewrite Nat.iter_succ_r. apply Hp. lia.
    + rewrite Hv. change (S k <=? S n)%nat with (k <=? n)%nat. case_match; lia.
Qed.

(** The idle HALT batch: between one and six M-cycles, with nothing pending strictly inside the
    batch, and an interrupt pending at its end unless the full six M-cycles stayed quiet. *)
Lemma idle_first_pending d :
  let k := halt_idle_m_cycles d in
  1 <= k <= 6 ∧
  (∀ j, 1 <= j < k → pending_interrupt (Nat.iter (Z.to_nat j) m_cycle d) = None) ∧
  (k < 6 → is_Some (pending_interrupt (Nat.iter (Z.to_nat k) m_cycle d))).
Proof.
  cbv zeta. unfold halt_idle_m_cycles. destruct (halt_idle_loop_spec 6 1 d) as (k & Hk & Hq & Hp & ->).
  destruct (Nat.leb_spec k 6).
  - split; [lia |]. split; [intros; apply Hq; lia |]. intros _.
    replace (Z.to_nat (1 + Z.of_nat k - 1)) with k by lia. apply Hp. lia.
  - split; [lia |]. split; [intros; apply Hq; lia | lia].
Qed.
