(* ===== verification/Address.v ===== *)
(** * Address ownership (crates/zksm83-memory/src/address.rs)

    Which component owns each CPU address, for the clean machine profile and for the DMG profile. *)
From S2P Require Import Prelude.

Module Own.
Inductive AddressOwner := Rom | Memory | Input | Output | DmgMmio | DmgEcho | Unowned.
End Own.
Abbreviation AddressOwner := Own.AddressOwner.

Global Instance owner_eq_dec : EqDecision AddressOwner.
Proof. solve_decision. Defined.

Definition INPUT_PORT : Z := 0xfff0.
Definition OUTPUT_PORT : Z := 0xfff1.

Definition owner (address : Z) : AddressOwner :=
  if in_range 0x0000 0x7fff address then Own.Rom
  else if in_range 0x8000 0xffef address then Own.Memory
  else if address =? INPUT_PORT then Own.Input
  else if address =? OUTPUT_PORT then Own.Output
  else Own.Unowned.

Definition dmg_owner (address : Z) : AddressOwner :=
  if in_range 0x0000 0x7fff address then Own.Rom
  else if in_range 0x8000 0xdfff address || in_range 0xfe00 0xfe9f address ||
          in_range 0xff80 0xfffe address then Own.Memory
  else if in_range 0xe000 0xfdff address then Own.DmgEcho
  else if in_range 0xff00 0xff7f address || (address =? 0xffff) then Own.DmgMmio
  else Own.Unowned.

Ltac owner_cases := unfold owner, dmg_owner, in_range, INPUT_PORT, OUTPUT_PORT in *;
  repeat case_match; simplify_eq; lia.

Lemma owner_rom a : 0 <= a → owner a = Own.Rom ↔ a < 0x8000.
Proof. intros. split; intros; [owner_cases |]. unfold owner, in_range. repeat case_match; done || lia. Qed.

Lemma owner_memory a : 0 <= a → owner a = Own.Memory ↔ 0x8000 <= a <= 0xffef.
Proof. intros. split; intros; [owner_cases |]. unfold owner, in_range. repeat case_match; done || lia. Qed.

Lemma owner_input a : owner a = Own.Input ↔ a = 0xfff0.
Proof. split; intros H; [| by subst]. owner_cases. Qed.
Lemma owner_output a : owner a = Own.Output ↔ a = 0xfff1.
Proof. split; intros H; [| by subst]. owner_cases. Qed.

Lemma dmg_owner_rom a : 0 <= a → dmg_owner a = Own.Rom ↔ a < 0x8000.
Proof. intros. split; intros; [owner_cases |]. unfold dmg_owner, in_range. repeat case_match; done || lia. Qed.

Lemma dmg_owner_echo a : dmg_owner a = Own.DmgEcho ↔ 0xe000 <= a <= 0xfdff.
Proof. split; intros; [owner_cases |]. unfold dmg_owner, in_range. repeat case_match; done || lia. Qed.

Lemma dmg_owner_mmio a : dmg_owner a = Own.DmgMmio ↔ 0xff00 <= a <= 0xff7f ∨ a = 0xffff.
Proof. split; intros; [owner_cases |]. unfold dmg_owner, in_range. repeat case_match; done || lia. Qed.

Lemma dmg_owner_memory a :
  dmg_owner a = Own.Memory ↔ 0x8000 <= a <= 0xdfff ∨ 0xfe00 <= a <= 0xfe9f ∨ 0xff80 <= a <= 0xfffe.
Proof. split; intros; [owner_cases |]. unfold dmg_owner, in_range. repeat case_match; done || lia. Qed.

(** The echo window is a copy of plain memory: subtracting 0x2000 from an echo address always gives
    an address owned by memory. *)
Lemma echo_target a : dmg_owner a = Own.DmgEcho → dmg_owner (a - 0x2000) = Own.Memory.
Proof. rewrite dmg_owner_echo, dmg_owner_memory. lia. Qed.
