(* ===== verification/Commitment.v ===== *)
(** * Domain-separated commitments (crates/zksm83-memory/src/commitment.rs)

    SHA-256 itself is a function of the environment; everything around it, the protocol tag, the
    domain codes and the length framing of the two parts, is modelled byte by byte, so that two
    hashed inputs are equal only if their domains and parts are. *)
From Stdlib Require Ascii.
From S2P Require Import Prelude.

(** [sha2::Sha256]: bytes to a 32-byte digest. *)
Class Sha256 := sha256 : list Z → list Z.
(** The digest is [\[u8; 32\]]. *)
Class Sha256Digest `{Sha256} := sha256_length : ∀ m, length (sha256 m) = 32%nat.

Definition string_bytes (s : string) : list Z :=
  map (λ a, Z.of_N (Ascii.N_of_ascii a)) (String.list_ascii_of_string s).

Definition HASH_PROTOCOL : list Z := string_bytes "zksm83/witness-auth-sha256/v1".

(** [CommitmentRoot(\[u8; 32\])]. *)
Definition CommitmentRoot : Type := list Z.
Definition zero_root : CommitmentRoot := replicate 32 0.

Module Dom.
Inductive HashDomain :=
| RomLeaf | MemoryLeaf | RomNode (level : Z) | MemoryNode (level : Z)
| InputEmpty | OutputEmpty | InputElement | OutputElement
| BusTranscriptEmpty | BusTranscriptElement | IsaTranscriptEmpty | IsaTranscriptElement.
End Dom.
Abbreviation HashDomain := Dom.HashDomain.

Definition domain_code (d : HashDomain) : Z :=
  match d with
  | Dom.RomLeaf => 0x1000 | Dom.MemoryLeaf => 0x2000
  | Dom.RomNode level => 0x3000 + level | Dom.MemoryNode level => 0x4000 + level
  | Dom.InputEmpty => 0x5000 | Dom.OutputEmpty => 0x6000
  | Dom.InputElement => 0x7000 | Dom.OutputElement => 0x8000
  | Dom.BusTranscriptEmpty => 0x9000 | Dom.BusTranscriptElement => 0xa000
  | Dom.IsaTranscriptEmpty => 0xb000 | Dom.IsaTranscriptElement => 0xc000
  end.

(** The bytes fed to the hasher. *)
Definition hash_input (domain : HashDomain) (left right : list Z) : list Z :=
  HASH_PROTOCOL ++ le_bytes 2 (domain_code domain) ++
  le_bytes 16 (Z.of_nat (length left)) ++ left ++
  le_bytes 16 (Z.of_nat (length right)) ++ right.

Definition hash_parts `{Sha256} (domain : HashDomain) (left right : list Z) : CommitmentRoot :=
  sha256 (hash_input domain left right).

(** ** Framing is injective *)

(** The node level is a [u8]. *)
Definition domain_ok (d : HashDomain) : Prop :=
  match d with Dom.RomNode l | Dom.MemoryNode l => is_u8 l | _ => True end.

Lemma domain_code_bound d : domain_ok d → is_u16 (domain_code d).
Proof. destruct d; cbn; lia. Qed.

Lemma domain_code_inj d d' : domain_ok d → domain_ok d' → domain_code d = domain_code d' → d = d'.
Proof. destruct d, d'; cbn; intros; try done; try lia; f_equal; lia. Qed.

(** A part's length fits in the sixteen framing bytes. *)
Definition part_ok (l : list Z) : Prop := Z.of_nat (length l) < 2 ^ 128.

Lemma part_bound l : part_ok l → 0 <= Z.of_nat (length l) < 2 ^ (8 * Z.of_nat 16).
Proof. unfold part_ok. change (8 * Z.of_nat 16) with 128. lia. Qed.

Lemma app_framed_inj n x y (l l' r r' : list Z) :
  0 <= x < 2 ^ (8 * Z.of_nat n) → 0 <= y < 2 ^ (8 * Z.of_nat n) →
  (x = y → length l = length l') →
  le_bytes n x ++ l ++ r = le_bytes n y ++ l' ++ r' → x = y ∧ l = l' ∧ r = r'.
Proof.
  intros Hx Hy Hl H. apply app_inj_1 in H as [H1 H2]; [| by rewrite !le_bytes_length].
  apply le_bytes_inj in H1; [| done | done]. subst y.
  apply app_inj_1 in H2 as [-> ->]; auto.
Qed.

Lemma hash_input_inj d l r d' l' r' :
  domain_ok d → domain_ok d' → part_ok l → part_ok l' → part_ok r → part_ok r' →
  hash_input d l r = hash_input d' l' r' → d = d' ∧ l = l' ∧ r = r'.
Proof.
  intros Hd Hd' Hl Hl' Hr Hr' H. unfold hash_input in H. apply app_inv_head in H.
  apply (app_framed_inj 2 _ _ [] []) in H as (Hc & _ & H);
    [| by apply domain_code_bound | by apply domain_code_bound | done].
  apply domain_code_inj in Hc; [| done | done]. split; [done |].
  apply app_framed_inj in H as (_ & Hll & H); [| by apply part_bound | by apply part_bound | lia].
  split; [done |]. apply app_inj_1 in H as [_ Hrr]; [done |]. by rewrite !le_bytes_length.
Qed.

(** ** Collisions

    Binding statements produce an explicit pair of hashed inputs instead of assuming the hash
    collision-free. *)

Section collisions.
Context `{Sha256}.

Definition collision (x y : list Z) : Prop := x <> y ∧ sha256 x = sha256 y.

(** Two lists of hashed byte strings contain a collision. *)
Definition collides (xs ys : list (list Z)) : Prop := ∃ x y, x ∈ xs ∧ y ∈ ys ∧ collision x y.
Lemma collides_cons x y xs ys : collides xs ys → collides (x :: xs) (y :: ys).
Proof. intros (a & b & Ha & Hb & Hc). exists a, b. split; [by right | split; [by right | done]]. Qed.
Lemma collides_head x y xs ys : collision x y → collides (x :: xs) (y :: ys).
Proof. intros Hc. exists x, y. split; [by left |]. split; [by left | done]. Qed.
Lemma collides_mono xs ys xs' ys' : xs ⊆ xs' → ys ⊆ ys' → collides xs ys → collides xs' ys'.
Proof. intros Hx Hy (x & y & Hin & Hin' & Hc). exists x, y. auto. Qed.

Lemma hash_parts_inj d l r d' l' r' :
  domain_ok d → domain_ok d' → part_ok l → part_ok l' → part_ok r → part_ok r' →
  hash_parts d l r = hash_parts d' l' r' →
  (d = d' ∧ l = l' ∧ r = r') ∨ collision (hash_input d l r) (hash_input d' l' r').
Proof.
  intros Hd Hd' Hl Hl' Hr Hr' He.
  destruct (decide (hash_input d l r = hash_input d' l' r')) as [E | E].
  - left. by apply hash_input_inj.
  - right. by split.
Qed.

Lemma hash_parts_length `{!Sha256Digest} d l r : length (hash_parts d l r) = 32%nat.
Proof. apply sha256_length. Qed.
End collisions.

(** Domain separation: for canonical domains and parts, equal commitments come from the same
    domain and the same two parts, or the two hashed byte strings are a SHA-256 collision. *)
Theorem hash_parts_binding `{Sha256} d l r d' l' r' :
  domain_ok d → domain_ok d' → part_ok l → part_ok l' → part_ok r → part_ok r' →
  hash_parts d l r = hash_parts d' l' r' →
  (d = d' ∧ l = l' ∧ r = r') ∨ collision (hash_input d l r) (hash_input d' l' r').
Proof. apply hash_parts_inj. Qed.

Definition toy_sha256 : Sha256 := λ m, take 32 (rev m ++ replicate 32 0).
Lemma toy_sha256_length : @Sha256Digest toy_sha256.
Proof.
  intros m. unfold sha256, toy_sha256. rewrite length_take, length_app, length_replicate. lia.
Qed.

Lemma hash_parts_binding_witness :
  (Dom.RomLeaf = Dom.RomLeaf ∧ [7] = [7] ∧ @nil Z = []) ∨
  @collision toy_sha256 (hash_input Dom.RomLeaf [7] []) (hash_input Dom.RomLeaf [7] []).
Proof.
  apply (@hash_parts_binding toy_sha256); try done.
Defined.
