(* ===== verification/Merkle.v ===== *)
(** * Authenticated accesses (crates/zksm83-memory/src/transcript.rs)

    Merkle paths of depth twenty, the ROM and memory witnesses with their verification, the
    thread-local verification caches as explicit state, and the root-threaded transcript. *)
From S2P Require Import Prelude Address Commitment.

Definition ROM_VERIFICATION_CACHE_CAPACITY : Z := 32768.
Definition MEMORY_VERIFICATION_CACHE_CAPACITY : Z := 8192.

Definition TREE_LEVELS : nat := 20.

(** [siblings: \[CommitmentRoot; 20\]], bottom level first. *)
Record MerklePath := MkPath { siblings : list CommitmentRoot }.

Definition lookup_placeholder : MerklePath := MkPath (replicate TREE_LEVELS zero_root).

(** [<\[CommitmentRoot; 20\]>::try_from]. *)
Definition path_from_slice (values : list CommitmentRoot) : option MerklePath :=
  if (length values =? TREE_LEVELS)%nat then Some (MkPath values) else None.

Record RomRead := MkRomRead {
  rr_address : Z; rr_physical_address : Z; rr_value : Z; rr_path : MerklePath
}.
Record MemoryRead := MkMemoryRead {
  mr_address : Z; mr_physical_address : Z; mr_value : Z; mr_path : MerklePath
}.
Record MemoryWrite := MkMemoryWrite {
  mw_address : Z; mw_physical_address : Z; mw_before : Z; mw_after : Z; mw_path : MerklePath
}.

Module RErr.
Inductive RomReadError :=
| AddressNotRom (address : Z)
| PhysicalAddressOutOfRange (address : Z)
| RootMismatch (expected actual : CommitmentRoot).
End RErr.

Module TErr.
Inductive MemoryTranscriptError :=
| AddressNotMutable (address : Z)
| PhysicalAddressOutOfRange (address : Z)
| RootMismatch (expected actual : CommitmentRoot).
End TErr.

Global Instance path_eq_dec : EqDecision MerklePath.
Proof. solve_decision. Defined.
Global Instance rom_read_eq_dec : EqDecision RomRead.
Proof. solve_decision. Defined.
Global Instance memory_read_eq_dec : EqDecision MemoryRead.
Proof. solve_decision. Defined.
Global Instance memory_write_eq_dec : EqDecision MemoryWrite.
Proof. solve_decision. Defined.
Global Instance root_eq_dec : EqDecision CommitmentRoot.
Proof. unfold CommitmentRoot. apply _. Defined.
Global Instance root_countable : Countable CommitmentRoot.
Proof. unfold CommitmentRoot. apply _. Defined.

(** ** Validation *)

Definition validate_physical_address (address : Z) : result RErr.RomReadError () :=
  if Z.shiftl 1 20 <=? address then Err (RErr.PhysicalAddressOutOfRange address) else Ok ().
Definition validate_physical_memory_address (address : Z) : result TErr.MemoryTranscriptError () :=
  if Z.shiftl 1 20 <=? address then Err (TErr.PhysicalAddressOutOfRange address) else Ok ().
Definition memory_owned (address : Z) : bool :=
  bool_decide (owner address = Own.Memory) || bool_decide (dmg_owner address = Own.Memory).
Definition validate_memory_address (address : Z) : result TErr.MemoryTranscriptError () :=
  if negb (memory_owned address) then Err (TErr.AddressNotMutable address) else Ok ().
Definition require_root (expected actual : CommitmentRoot) : result TErr.MemoryTranscriptError () :=
  if negb (bool_decide (actual = expected)) then Err (TErr.RootMismatch expected actual) else Ok ().

(** ** Verification caches

    The thread-local [HashMap]s, threaded explicitly; a key is the expected root with the physical
    address (and the written value). *)

Record VerificationCaches := MkCaches {
  rom_cache : gmap (CommitmentRoot * Z) (Z * list CommitmentRoot);
  read_cache : gmap (CommitmentRoot * Z) (Z * list CommitmentRoot);
  write_cache : gmap (CommitmentRoot * Z * Z) (Z * list CommitmentRoot * CommitmentRoot)
}.

Definition no_caches : VerificationCaches := MkCaches ∅ ∅ ∅.

Definition cache_verified_rom_witness (c : VerificationCaches) (key : CommitmentRoot * Z)
    (witness : Z * list CommitmentRoot) : VerificationCaches :=
  if Z.of_nat (size (rom_cache c)) <? ROM_VERIFICATION_CACHE_CAPACITY then
    MkCaches (<[key := witness]> (rom_cache c)) (read_cache c) (write_cache c)
  else c.

Definition insert_bounded {K V} `{Countable K} (cache : gmap K V) (key : K) (value : V) : gmap K V :=
  let cache := if MEMORY_VERIFICATION_CACHE_CAPACITY <=? Z.of_nat (size cache) then ∅ else cache in
  <[key := value]> cache.

Definition cache_verified_memory_read (c : VerificationCaches) (key : CommitmentRoot * Z)
    (witness : Z * list CommitmentRoot) : VerificationCaches :=
  MkCaches (rom_cache c) (insert_bounded (read_cache c) key witness) (write_cache c).
Definition cache_verified_memory_write (c : VerificationCaches) (key : CommitmentRoot * Z * Z)
    (witness : Z * list CommitmentRoot * CommitmentRoot) : VerificationCaches :=
  MkCaches (rom_cache c) (read_cache c) (insert_bounded (write_cache c) key witness).

Section merkle.
Context `{Sha256}.

(** The loop of [derive_root] from [level] on. *)
Fixpoint derive_from (node_domain : Z → HashDomain) (level : Z) (address_bits : Z)
    (current : CommitmentRoot) (path : list CommitmentRoot) : CommitmentRoot :=
  match path with
  | [] => current
  | sibling :: path =>
      let '(left_, right_) :=
        if Z.land address_bits 1 =? 0 then (current, sibling) else (sibling, current) in
      derive_from node_domain (level + 1) (Z.shiftr address_bits 1)
        (hash_parts (node_domain level) left_ right_) path
  end.

Definition derive_root (leaf_domain : HashDomain) (node_domain : Z → HashDomain)
    (address value : Z) (path : MerklePath) : CommitmentRoot :=
  derive_from node_domain 0 address (hash_parts leaf_domain [value] []) (siblings path).

Definition rom_root (address value : Z) (path : MerklePath) : CommitmentRoot :=
  derive_root Dom.RomLeaf Dom.RomNode address value path.
Definition mutable_root (address value : Z) (path : MerklePath) : CommitmentRoot :=
  derive_root Dom.MemoryLeaf Dom.MemoryNode address value path.

(** [RomRead::verify] *)
Definition rom_verify (c : VerificationCaches) (r : RomRead) (expected_root : CommitmentRoot) :
    result RErr.RomReadError () * VerificationCaches :=
  if negb (bool_decide (owner (rr_address r) = Own.Rom)) then
    (Err (RErr.AddressNotRom (rr_address r)), c)
  else
    match validate_physical_address (rr_physical_address r) with
    | Err e => (Err e, c)
    | Ok _ =>
        let key := (expected_root, rr_physical_address r) in
        let witness := (rr_value r, siblings (rr_path r)) in
        if bool_decide (rom_cache c !! key = Some witness) then (Ok (), c)
        else
          let actual := rom_root (rr_physical_address r) (rr_value r) (rr_path r) in
          if negb (bool_decide (actual = expected_root)) then
            (Err (RErr.RootMismatch expected_root actual), c)
          else (Ok (), cache_verified_rom_witness c key witness)
    end.

(** [MemoryRead::verify] *)
Definition read_verify (c : VerificationCaches) (r : MemoryRead) (expected_root : CommitmentRoot) :
    result TErr.MemoryTranscriptError () * VerificationCaches :=
  match
    _ ← validate_memory_address (mr_address r);
    validate_physical_memory_address (mr_physical_address r)
  with
  | Err e => (Err e, c)
  | Ok _ =>
      let key := (expected_root, mr_physical_address r) in
      let witness := (mr_value r, siblings (mr_path r)) in
      if bool_decide (read_cache c !! key = Some witness) then (Ok (), c)
      else
        let actual := mutable_root (mr_physical_address r) (mr_value r) (mr_path r) in
        match require_root expected_root actual with
        | Err e => (Err e, c)
        | Ok _ => (Ok (), cache_verified_memory_read c key witness)
        end
  end.

(** [MemoryWrite::verify] *)
Definition write_verify (c : VerificationCaches) (w : MemoryWrite) (expected_root : CommitmentRoot) :
    result TErr.MemoryTranscriptError CommitmentRoot * VerificationCaches :=
  match
    _ ← validate_memory_address (mw_address w);
    validate_physical_memory_address (mw_physical_address w)
  with
  | Err e => (Err e, c)
  | Ok _ =>
      let key := (expected_root, mw_physical_address w, mw_after w) in
      let miss :=
        let before_root := mutable_root (mw_physical_address w) (mw_before w) (mw_path w) in
        match require_root expected_root before_root with
        | Err e => (Err e, c)
        | Ok _ =>
            let after_root := mutable_root (mw_physical_address w) (mw_after w) (mw_path w) in
            (Ok after_root,
             cache_verified_memory_write c key (mw_before w, siblings (mw_path w), after_root))
        end in
      match write_cache c !! key with
      | Some (before, path, after_root) =>
          if (before =? mw_before w) && bool_decide (path = siblings (mw_path w)) then (Ok after_root, c)
          else miss
      | None => miss
      end
  end.

(** [MemoryTranscript]: the root threaded through an ordered list of accesses. *)
Inductive MemoryAccess := Read (read : MemoryRead) | Write (write : MemoryWrite).

Record MemoryTranscript := MkTranscript {
  initial_root : CommitmentRoot; current_root : CommitmentRoot; accesses : list MemoryAccess
}.

Definition transcript_new (root : CommitmentRoot) : MemoryTranscript := MkTranscript root root [].

(** A failed verification leaves the transcript unchanged. *)
Definition transcript_read (c : VerificationCaches) (t : MemoryTranscript) (r : MemoryRead) :
    result TErr.MemoryTranscriptError MemoryTranscript * VerificationCaches :=
  match read_verify c r (current_root t) with
  | (Err e, c) => (Err e, c)
  | (Ok _, c) => (Ok (MkTranscript (initial_root t) (current_root t) (accesses t ++ [Read r])), c)
  end.

Definition transcript_write (c : VerificationCaches) (t : MemoryTranscript) (w : MemoryWrite) :
    result TErr.MemoryTranscriptError MemoryTranscript * VerificationCaches :=
  match write_verify c w (current_root t) with
  | (Err e, c) => (Err e, c)
  | (Ok root, c) => (Ok (MkTranscript (initial_root t) root (accesses t ++ [Write w])), c)
  end.

(** ** Caches are transparent *)

(** Every cached entry was verified: it re-derives the root it is filed under. *)
Record caches_ok (c : VerificationCaches) : Prop := {
  ok_rom_cache : ∀ root a v p,
    rom_cache c !! (root, a) = Some (v, p) → rom_root a v (MkPath p) = root;
  ok_read_cache : ∀ root a v p,
    read_cache c !! (root, a) = Some (v, p) → mutable_root a v (MkPath p) = root;
  ok_write_cache : ∀ root a after before p after_root,
    write_cache c !! (root, a, after) = Some (before, p, after_root) →
    mutable_root a before (MkPath p) = root ∧ mutable_root a after (MkPath p) = after_root;
  ok_rom_size : Z.of_nat (size (rom_cache c)) <= ROM_VERIFICATION_CACHE_CAPACITY;
  ok_read_size : Z.of_nat (size (read_cache c)) <= MEMORY_VERIFICATION_CACHE_CAPACITY;
  ok_write_size : Z.of_nat (size (write_cache c)) <= MEMORY_VERIFICATION_CACHE_CAPACITY
}.

Lemma no_caches_ok : caches_ok no_caches.
Proof. split; intros; cbn in *; try by simplify_map_eq. all: rewrite map_size_empty; done. Qed.

Lemma insert_bounded_lookup {K V} `{Countable K} (m : gmap K V) k v k' v' :
  insert_bounded m k v !! k' = Some v' → (k' = k ∧ v' = v) ∨ m !! k' = Some v'.
Proof.
  unfold insert_bounded. destruct (decide (k' = k)) as [-> | Hne].
  - rewrite lookup_insert_eq. intros [= ->]. by left.
  - rewrite lookup_insert_ne by done. case_match; [by rewrite lookup_empty | by right].
Qed.

Lemma insert_bounded_size {K V} `{Countable K} (m : gmap K V) k v :
  Z.of_nat (size (insert_bounded m k v)) <= MEMORY_VERIFICATION_CACHE_CAPACITY.
Proof.
  unfold insert_bounded, MEMORY_VERIFICATION_CACHE_CAPACITY.
  destruct (Z.leb_spec 8192 (Z.of_nat (size m))).
  - rewrite insert_empty, map_size_singleton. lia.
  - rewrite map_size_insert. case_match; cbn; lia.
Qed.

Lemma rom_insert_ok c root a v p :
  caches_ok c → rom_root a v (MkPath p) = root →
  caches_ok (cache_verified_rom_witness c (root, a) (v, p)).
Proof.
  intros [Hr Hm Hw Hrs Hms Hws] Hd. unfold cache_verified_rom_witness.
  case_match; [| by split]. split; cbn; try done.
  - intros root' a' v' p' Hl. destruct (decide ((root', a') = (root, a))) as [[= -> ->] | Hne].
    + rewrite lookup_insert_eq in Hl. by simplify_eq.
    + rewrite lookup_insert_ne in Hl by done. eauto.
  - rewrite map_size_insert. unfold ROM_VERIFICATION_CACHE_CAPACITY in *. case_match; cbn; lia.
Qed.

Lemma read_insert_ok c root a v p :
  caches_ok c → mutable_root a v (MkPath p) = root →
  caches_ok (cache_verified_memory_read c (root, a) (v, p)).
Proof.
  intros [Hr Hm Hw Hrs Hms Hws] Hd. split; cbn; try done; [| apply insert_bounded_size].
  intros root' a' v' p' [[[= -> ->] [= -> ->]] | Hl]%insert_bounded_lookup; eauto.
Qed.

Lemma write_insert_ok c root a after before p :
  caches_ok c → mutable_root a before (MkPath p) = root →
  caches_ok (cache_verified_memory_write c (root, a, after)
               (before, p, mutable_root a after (MkPath p))).
Proof.
  intros [Hr Hm Hw Hrs Hms Hws] Hd. split; cbn; try done; [| apply insert_bounded_size].
  intros root' a' after' v' p' ar [[[= -> -> ->] [= -> -> ->]] | Hl]%insert_bounded_lookup; eauto.
Qed.

(** What verification means without caches. *)
Definition rom_valid (r : RomRead) (root : CommitmentRoot) : Prop :=
  owner (rr_address r) = Own.Rom ∧ rr_physical_address r < 2 ^ 20 ∧
  rom_root (rr_physical_address r) (rr_value r) (rr_path r) = root.
Definition read_valid (r : MemoryRead) (root : CommitmentRoot) : Prop :=
  memory_owned (mr_address r) = true ∧ mr_physical_address r < 2 ^ 20 ∧
  mutable_root (mr_physical_address r) (mr_value r) (mr_path r) = root.
Definition write_valid (w : MemoryWrite) (root after_root : CommitmentRoot) : Prop :=
  memory_owned (mw_address w) = true ∧ mw_physical_address w < 2 ^ 20 ∧
  mutable_root (mw_physical_address w) (mw_before w) (mw_path w) = root ∧
  mutable_root (mw_physical_address w) (mw_after w) (mw_path w) = after_root.

Lemma path_eta p : MkPath (siblings p) = p.
Proof. by destruct p. Qed.

Lemma rom_verify_spec c r root :
  caches_ok c →
  caches_ok (rom_verify c r root).2 ∧ ((rom_verify c r root).1 = Ok () ↔ rom_valid r root) ∧
  (rom_verify c r root).1 = (rom_verify no_caches r root).1.
Proof.
  intros Hc. unfold rom_verify, rom_valid, validate_physical_address. rewrite Z.shiftl_1_l.
  destruct (bool_decide_reflect (owner (rr_address r) = Own.Rom)); cbn [negb];
    [| split; [done |]; split; [| done]; split; [done | by intros (? & _)]].
  destruct (Z.leb_spec (2 ^ 20) (rr_physical_address r)); [split; [done |]; split; [| done]; split; [done | lia] |].
  change (rom_cache no_caches !! _) with (@None (Z * list CommitmentRoot)).
  rewrite (bool_decide_eq_false_2 (None = Some _)) by done.
  set (actual := rom_root _ _ _).
  assert (Hhit : rom_cache c !! (root, rr_physical_address r) =
    Some (rr_value r, siblings (rr_path r)) → actual = root).
  { intros Hl. apply (ok_rom_cache _ Hc) in Hl. by rewrite path_eta in Hl. }
  destruct (bool_decide_reflect (actual = root)) as [E | E]; cbn [negb].
  - destruct (bool_decide _); cbn; (split; [| split; [split; done | done]]); [done |].
    apply rom_insert_ok; [done |]. by rewrite path_eta.
  - rewrite bool_decide_eq_false_2 by auto. cbn. split; [done |]. split; [| done].
    split; [done | by intros (_ & _ & ?)].
Qed.

Lemma validate_memory a p :
  (_ ← validate_memory_address a; validate_physical_memory_address p) =
  if negb (memory_owned a) then Err (TErr.AddressNotMutable a)
  else if 2 ^ 20 <=? p then Err (TErr.PhysicalAddressOutOfRange p) else Ok ().
Proof.
  unfold validate_memory_address, validate_physical_memory_address. rewrite Z.shiftl_1_l.
  by destruct (negb (memory_owned a)).
Qed.

Lemma read_verify_spec c r root :
  caches_ok c →
  caches_ok (read_verify c r root).2 ∧ ((read_verify c r root).1 = Ok () ↔ read_valid r root) ∧
  (read_verify c r root).1 = (read_verify no_caches r root).1.
Proof.
  intros Hc. unfold read_verify, read_valid, require_root. rewrite validate_memory.
  destruct (memory_owned (mr_address r)); cbn [negb]; [| split; [done |]; split; [| done]; split; [done | by intros (? & _)]].
  destruct (Z.leb_spec (2 ^ 20) (mr_physical_address r)); [split; [done |]; split; [| done]; split; [done | lia] |].
  change (read_cache no_caches !! _) with (@None (Z * list CommitmentRoot)).
  rewrite (bool_decide_eq_false_2 (None = Some _)) by done.
  set (actual := mutable_root _ _ _).
  assert (Hhit : read_cache c !! (root, mr_physical_address r) =
    Some (mr_value r, siblings (mr_path r)) → actual = root).
  { intros Hl. apply (ok_read_cache _ Hc) in Hl. by rewrite path_eta in Hl. }
  destruct (bool_decide_reflect (actual = root)) as [E | E]; cbn [negb].
  - destruct (bool_decide _); cbn; (split; [| split; [split; done | done]]); [done |].
    apply read_insert_ok; [done |]. by rewrite path_eta.
  - rewrite bool_decide_eq_false_2 by auto. cbn. split; [done |]. split; [| done].
    split; [done | by intros (_ & _ & ?)].
Qed.

Lemma write_verify_spec c w root :
  caches_ok c →
  caches_ok (write_verify c w root).2 ∧
  (∀ after_root, (write_verify c w root).1 = Ok after_root ↔ write_valid w root after_root) ∧
  (write_verify c w root).1 = (write_verify no_caches w root).1.
Proof.
  intros Hc. unfold write_verify, write_valid, require_root. rewrite validate_memory.
  destruct (memory_owned (mw_address w)); cbn [negb];
    [| split; [done |]; split; [| done]; split; [done | by intros (? & _)]].
  destruct (Z.leb_spec (2 ^ 20) (mw_physical_address w));
    [split; [done |]; split; [| done]; split; [done | lia] |].
  change (write_cache no_caches !! _) with (@None (Z * list CommitmentRoot * CommitmentRoot)).
  set (actual := mutable_root _ (mw_before w) _).
  set (after := mutable_root _ (mw_after w) _).
  set (miss := match (if negb (bool_decide (actual = root)) then _ else _) with
               | Ok _ => _ | Err e => (Err e, c) end).
  assert (Hmiss : caches_ok miss.2 ∧
    (∀ after_root, miss.1 = Ok after_root ↔
       true = true ∧ mw_physical_address w < 2 ^ 20 ∧ actual = root ∧ after = after_root) ∧
    miss.1 = if negb (bool_decide (actual = root)) then Err (TErr.RootMismatch root actual)
             else Ok after).
  { subst miss. destruct (bool_decide_reflect (actual = root)) as [E | E]; cbn.
    - split; [| split; [split; [by intros [= ->] | by intros (_ & _ & _ & ->)] | done]].
      pose proof (write_insert_ok c root (mw_physical_address w) (mw_after w) (mw_before w)
        (siblings (mw_path w)) Hc) as Hi. rewrite path_eta in Hi. by apply Hi.
    - split; [done |]. split; [| done]. split; [done | by intros (_ & _ & ? & _)]. }
  destruct Hmiss as (Hok & Hval & Hres).
  assert (Hno : (match (if negb (bool_decide (actual = root)) then Err (TErr.RootMismatch root actual)
                        else Ok ()) with
                 | Ok _ => (Ok after, cache_verified_memory_write no_caches
                     (root, mw_physical_address w, mw_after w)
                     (mw_before w, siblings (mw_path w), after))
                 | Err e => (Err e, no_caches) end).1 =
                if negb (bool_decide (actual = root)) then Err (TErr.RootMismatch root actual)
                else Ok after) by (by destruct (bool_decide (actual = root))).
  rewrite Hno, <- Hres. clear Hno Hres.
  destruct (write_cache c !! _) as [[[before path] after']|] eqn:El; [| done].
  destruct (Z.eqb_spec before (mw_before w)) as [-> | _]; [| done].
  destruct (bool_decide_reflect (path = siblings (mw_path w))) as [-> | _]; [cbn [andb] | done].
  destruct (ok_write_cache c Hc _ _ _ _ _ _ El) as [H1 H2]. rewrite path_eta in H1, H2.
  assert (Hm : miss.1 = Ok after) by (by apply Hval).
  rewrite Hm. fold actual after in H1, H2. cbn. rewrite H2.
  split; [done |]. split; [| done]. split; [by intros [= ->] | by intros (_ & _ & _ & ->)].
Qed.

(** C37. Verification is a function of the witness and the root alone: with any caches reachable
    from empty ones, every verification returns what it returns without caches, accepts exactly the
    witnesses whose address is owned and in range and whose path re-derives the root (for writes,
    returning the root derived from the new value), and keeps the caches sound and within their
    capacities. *)
Theorem verification_caches_transparent c :
  caches_ok c →
  (∀ r root, caches_ok (rom_verify c r root).2 ∧
     (rom_verify c r root).1 = (rom_verify no_caches r root).1 ∧
     ((rom_verify c r root).1 = Ok () ↔ rom_valid r root)) ∧
  (∀ r root, caches_ok (read_verify c r root).2 ∧
     (read_verify c r root).1 = (read_verify no_caches r root).1 ∧
     ((read_verify c r root).1 = Ok () ↔ read_valid r root)) ∧
  (∀ w root, caches_ok (write_verify c w root).2 ∧
     (write_verify c w root).1 = (write_verify no_caches w root).1 ∧
     ∀ after, (write_verify c w root).1 = Ok after ↔ write_valid w root after).
Proof.
  intros Hc. split; [| split].
  - intros r root. by destruct (rom_verify_spec c r root Hc) as (? & ? & ?).
  - intros r root. by destruct (read_verify_spec c r root Hc) as (? & ? & ?).
  - intros w root. by destruct (write_verify_spec c w root Hc) as (? & ? & ?).
Qed.

(** ** Binding *)

(** The inputs hashed by [derive_from] and [derive_root]. *)
Fixpoint derive_inputs (node_domain : Z → HashDomain) (level address_bits : Z)
    (current : CommitmentRoot) (path : list CommitmentRoot) : list (list Z) :=
  match path with
  | [] => []
  | sibling :: path =>
      let '(left_, right_) :=
        if Z.land address_bits 1 =? 0 then (current, sibling) else (sibling, current) in
      hash_input (node_domain level) left_ right_ ::
      derive_inputs node_domain (level + 1) (Z.shiftr address_bits 1)
        (hash_parts (node_domain level) left_ right_) path
  end.

Definition root_inputs (leaf_domain : HashDomain) (node_domain : Z → HashDomain)
    (address value : Z) (path : MerklePath) : list (list Z) :=
  hash_input leaf_domain [value] [] ::
  derive_inputs node_domain 0 address (hash_parts leaf_domain [value] []) (siblings path).

(** [\[CommitmentRoot; 20\]] with 32-byte elements. *)
Definition path_ok (p : MerklePath) : Prop :=
  length (siblings p) = TREE_LEVELS ∧ Forall (λ s, length s = 32%nat) (siblings p).

Lemma part_ok_32 (l : list Z) : length l = 32%nat → part_ok l.
Proof. unfold part_ok. intros ->. done. Qed.

Context `{!Sha256Digest}.

Lemma derive_binding nd path : ∀ level bits cur path' cur',
  (∀ l, is_u8 l → domain_ok (nd l)) → 0 <= level → level + Z.of_nat (length path) <= 256 →
  length path = length path' →
  Forall (λ s, length s = 32%nat) path → Forall (λ s, length s = 32%nat) path' →
  length cur = 32%nat → length cur' = 32%nat →
  derive_from nd level bits cur path = derive_from nd level bits cur' path' →
  (cur = cur' ∧ path = path') ∨
  collides (derive_inputs nd level bits cur path) (derive_inputs nd level bits cur' path').
Proof.
  induction path as [|s path IH]; intros level bits cur [|s' path'] cur' Hnd Hl0 Hl Hlen Hp Hp' Hc Hc' He;
    try done; [by left |].
  cbn [length] in *. apply Forall_cons in Hp as [Hs Hp]. apply Forall_cons in Hp' as [Hs' Hp'].
  cbn [derive_from derive_inputs] in *.
  assert (Hdom : domain_ok (nd level)) by (apply Hnd; lia).
  destruct (Z.land bits 1 =? 0); cbv beta iota zeta in *.
  - apply IH in He; try done; try lia; try apply hash_parts_length.
    destruct He as [[He ->] | He]; [| right; by apply collides_cons].
    apply hash_parts_inj in He; auto using part_ok_32.
    destruct He as [(_ & -> & ->) | He]; [by left | right].
    eexists _, _. split; [by left |]. split; [by left | done].
  - apply IH in He; try done; try lia; try apply hash_parts_length.
    destruct He as [[He ->] | He]; [| right; by apply collides_cons].
    apply hash_parts_inj in He; auto using part_ok_32.
    destruct He as [(_ & -> & ->) | He]; [by left | right].
    eexists _, _. split; [by left |]. split; [by left | done].
Qed.

Lemma root_binding leaf nd a v p v' p' :
  domain_ok leaf → (∀ l, is_u8 l → domain_ok (nd l)) → path_ok p → path_ok p' →
  derive_root leaf nd a v p = derive_root leaf nd a v' p' →
  (v = v' ∧ p = p') ∨ collides (root_inputs leaf nd a v p) (root_inputs leaf nd a v' p').
Proof.
  intros Hleaf Hnd [Hl Hp] [Hl' Hp'] He. unfold derive_root in He.
  assert (Heq : length (siblings p) = length (siblings p')) by congruence.
  assert (Hlen : 0 + Z.of_nat (length (siblings p)) <= 256) by (rewrite Hl; unfold TREE_LEVELS; lia).
  apply derive_binding in He; try done; try apply hash_parts_length; try congruence.
  destruct He as [[He Hpp] | He]; [| right; by apply collides_cons].
  apply hash_parts_inj in He; try done; try (unfold part_ok; cbn; lia).
  destruct He as [(_ & [= ->] & _) | He].
  - left. split; [done |]. destruct p, p'. cbn in Hpp. by rewrite Hpp.
  - right. eexists _, _. split; [by left |]. split; [by left | done].
Qed.

(** C36. A root authenticates one value per address: two ROM witnesses accepted for the same root and
    physical address, two memory reads, or a read and the prior value of a write, carry the same
    value and path, or the inputs hashed by the two verifications contain a SHA-256 collision. *)
Theorem authentication_binding root a :
  (∀ r r', path_ok (rr_path r) → path_ok (rr_path r') →
     rr_physical_address r = a → rr_physical_address r' = a →
     (rom_verify no_caches r root).1 = Ok () → (rom_verify no_caches r' root).1 = Ok () →
     (rr_value r = rr_value r' ∧ rr_path r = rr_path r') ∨
     collides (root_inputs Dom.RomLeaf Dom.RomNode a (rr_value r) (rr_path r))
              (root_inputs Dom.RomLeaf Dom.RomNode a (rr_value r') (rr_path r'))) ∧
  (∀ r r', path_ok (mr_path r) → path_ok (mr_path r') →
     mr_physical_address r = a → mr_physical_address r' = a →
     (read_verify no_caches r root).1 = Ok () → (read_verify no_caches r' root).1 = Ok () →
     (mr_value r = mr_value r' ∧ mr_path r = mr_path r') ∨
     collides (root_inputs Dom.MemoryLeaf Dom.MemoryNode a (mr_value r) (mr_path r))
              (root_inputs Dom.MemoryLeaf Dom.MemoryNode a (mr_value r') (mr_path r'))) ∧
  (∀ r w after, path_ok (mr_path r) → path_ok (mw_path w) →
     mr_physical_address r = a → mw_physical_address w = a →
     (read_verify no_caches r root).1 = Ok () → (write_verify no_caches w root).1 = Ok after →
     (mr_value r = mw_before w ∧ mr_path r = mw_path w) ∨
     collides (root_inputs Dom.MemoryLeaf Dom.MemoryNode a (mr_value r) (mr_path r))
              (root_inputs Dom.MemoryLeaf Dom.MemoryNode a (mw_before w) (mw_path w))).
Proof.
  split; [| split].
  - intros r r' Hp Hp' Ha Ha' H1%rom_verify_spec H2%rom_verify_spec; try apply no_caches_ok.
    destruct H1 as (_ & _ & H1), H2 as (_ & _ & H2). rewrite Ha in H1. rewrite Ha' in H2.
    apply root_binding; try done. unfold rom_root in *. congruence.
  - intros r r' Hp Hp' Ha Ha' H1%read_verify_spec H2%read_verify_spec; try apply no_caches_ok.
    destruct H1 as (_ & _ & H1), H2 as (_ & _ & H2). rewrite Ha in H1. rewrite Ha' in H2.
    apply root_binding; try done. unfold mutable_root in *. congruence.
  - intros r w after Hp Hp' Ha Ha' H1%read_verify_spec H2%write_verify_spec; try apply no_caches_ok.
    destruct H1 as (_ & _ & H1), H2 as (_ & _ & H2 & _). rewrite Ha in H1. rewrite Ha' in H2.
    apply root_binding; try done. unfold mutable_root in *. congruence.
Qed.
End merkle.

Section witnesses.
#[local] Existing Instance toy_sha256.
#[local] Existing Instance toy_sha256_length.

Lemma authentication_binding_witness :
  let r := MkMemoryRead 0xc000 0xc000 7 lookup_placeholder in
  (mr_value r = mr_value r ∧ mr_path r = mr_path r) ∨
  collides (root_inputs Dom.MemoryLeaf Dom.MemoryNode 0xc000 (mr_value r) (mr_path r))
    (root_inputs Dom.MemoryLeaf Dom.MemoryNode 0xc000 (mr_value r) (mr_path r)).
Proof.
  set (r := MkMemoryRead 0xc000 0xc000 7 lookup_placeholder).
  set (root := mutable_root 0xc000 7 lookup_placeholder).
  assert (Hp : path_ok (mr_path r)) by (split; [done | by repeat constructor]).
  assert (Hv : (read_verify no_caches r root).1 = Ok ()).
  { apply read_verify_spec; [apply no_caches_ok |]. split; [done |]. by split. }
  exact (proj1 (proj2 (authentication_binding root 0xc000)) r r Hp Hp eq_refl eq_refl Hv Hv).
Defined.

Lemma verification_caches_transparent_witness :
  caches_ok no_caches ∧
  ∀ r root, (rom_verify no_caches r root).1 = Ok () ↔ rom_valid r root.
Proof.
  split; [apply no_caches_ok |]. intros r root.
  exact (proj2 (proj2 (proj1 (verification_caches_transparent no_caches no_caches_ok) r root))).
Defined.
End witnesses.
