(* ===== verification/Image.v ===== *)
(** * Committed images (crates/zksm83-memory/src/image.rs)

    The prover's Merkle trees over ROM and mutable memory: construction with shared zero subtrees,
    authentication paths, incremental updates, and the two images built on them. The tree kept by the
    code is proved to be a function of the stored bytes, and every access it produces to be accepted
    by the verifier of [Merkle], so that an image behaves as an array of bytes. *)
From S2P Require Import Prelude Address Commitment Merkle.

Definition CPU_ADDRESS_SPACE_BYTES : Z := 65536.
Definition ROM_BYTES : Z := 1048576.
Definition MUTABLE_BYTES : Z := 32752.
Definition MUTABLE_COMMITMENT_BYTES : Z := 131072.
Definition BATTERY_SRAM_START : Z := 0x10000.
Definition BATTERY_SRAM_BYTES : Z := 32768.
Definition MIN_TREE_DEPTH : nat := 16.
Definition TREE_DEPTH : nat := 20.

Module Kind.
Inductive TreeKind := Rom | Memory.
End Kind.
Abbreviation TreeKind := Kind.TreeKind.

Definition leaf_domain (k : TreeKind) : HashDomain :=
  match k with Kind.Rom => Dom.RomLeaf | Kind.Memory => Dom.MemoryLeaf end.
Definition node_domain (k : TreeKind) (level : Z) : HashDomain :=
  match k with Kind.Rom => Dom.RomNode level | Kind.Memory => Dom.MemoryNode level end.

Module TreeErr.
Inductive TreeShapeError := TreeShape.
End TreeErr.
Abbreviation tree_result := (result TreeErr.TreeShapeError).

Record MerkleTree := MkTree {
  tree_kind : TreeKind; tree_bytes : list Z; levels : list (list CommitmentRoot);
  zero_roots : list CommitmentRoot; stored_depth : nat; tree_root : CommitmentRoot
}.

(** [Vec::get(..).ok_or(TreeShapeError)] *)
Definition get {A} (l : list A) (position : Z) : tree_result A :=
  ok_or (l !! Z.to_nat position) TreeErr.TreeShape.

(** [usize::is_power_of_two] *)
Definition is_power_of_two (n : Z) : bool := (0 <? n) && (Z.land n (n - 1) =? 0).
(** [usize::next_power_of_two] *)
Definition next_power_of_two (n : Z) : Z := 2 ^ Z.log2_up n.
(** [Vec::resize(n, 0)] for [n] at least the length *)
Definition resize (bytes : list Z) (n : Z) : list Z :=
  bytes ++ replicate (Z.to_nat n - length bytes) 0.

(** [usize::checked_next_power_of_two], on 64-bit words *)
Definition checked_next_power_of_two (n : Z) : option Z :=
  if next_power_of_two n <? 2 ^ 64 then Some (next_power_of_two n) else None.

Module RomErr.
Inductive RomImageError :=
| EmptyProgram
| ProgramTooLarge (actual maximum : Z)
| AddressNotRom (address : Z)
| PhysicalAddressOutOfRange (physical_address : Z)
| CommitmentInvariant.
End RomErr.

Module MemErr.
Inductive MemoryImageError :=
| InitialMemoryTooLarge (actual maximum : Z)
| InvalidCheckpointLength (actual expected : Z)
| InvalidBatterySramLength (actual expected : Z)
| AddressNotMutable (address : Z)
| PhysicalAddressOutOfRange (physical_address : Z)
| CommitmentInvariant.
End MemErr.

Record RomImage := MkRom { rom_tree : MerkleTree }.
Record MemoryImage := MkMemory { memory_tree : MerkleTree }.
Definition rom_image_root (i : RomImage) : CommitmentRoot := tree_root (rom_tree i).
Definition memory_image_root (i : MemoryImage) : CommitmentRoot := tree_root (memory_tree i).

Section image.
Context `{Sha256}.

Definition leaf (k : TreeKind) (value : Z) : CommitmentRoot := hash_parts (leaf_domain k) [value] [].
Definition node (k : TreeKind) (level : Z) (left right : CommitmentRoot) : CommitmentRoot :=
  hash_parts (node_domain k level) left right.

(** One level of parents, pairing with [chunks_exact(2)] and sharing the zero subtree. *)
Fixpoint parents (k : TreeKind) (level : Z) (zero_child zero_parent : CommitmentRoot)
    (current : list CommitmentRoot) : list CommitmentRoot :=
  match current with
  | l :: r :: rest =>
      (if bool_decide (l = zero_child) && bool_decide (r = zero_child) then zero_parent
       else node k level l r) :: parents k level zero_child zero_parent rest
  | _ => []
  end.

(** The stored levels, from [level] on, for [n] more levels. *)
Fixpoint build_levels (k : TreeKind) (n : nat) (level : Z) (built : list (list CommitmentRoot))
    (zero_child : CommitmentRoot) (zeros : list CommitmentRoot) :
    tree_result (list (list CommitmentRoot) * CommitmentRoot * list CommitmentRoot) :=
  match n with
  | O => Ok (built, zero_child, zeros)
  | S n =>
      current ← ok_or (last built) TreeErr.TreeShape;
      let zero_parent := node k level zero_child zero_child in
      let built := built ++ [parents k level zero_child zero_parent current] in
      build_levels k n (level + 1) built zero_parent (zeros ++ [zero_parent])
  end.

(** The virtual levels above the stored ones: the right sibling is a zero subtree. *)
Fixpoint extend_root (k : TreeKind) (n : nat) (level : Z) (root zero_child : CommitmentRoot)
    (zeros : list CommitmentRoot) : CommitmentRoot * list CommitmentRoot :=
  match n with
  | O => (root, zeros)
  | S n =>
      let root := node k level root zero_child in
      let zero_child := node k level zero_child zero_child in
      extend_root k n (level + 1) root zero_child (zeros ++ [zero_child])
  end.

Definition tree_build (k : TreeKind) (bytes : list Z) : tree_result MerkleTree :=
  let len := Z.of_nat (length bytes) in
  if negb (is_power_of_two len) || (len <? CPU_ADDRESS_SPACE_BYTES) || (ROM_BYTES <? len) then
    Err TreeErr.TreeShape
  else
    let depth := Z.to_nat (Z.log2 len) in
    if negb ((MIN_TREE_DEPTH <=? depth)%nat && (depth <=? TREE_DEPTH)%nat) then
      Err TreeErr.TreeShape
    else
      let zero_leaf := leaf k 0 in
      let leaves := map (λ value, if value =? 0 then zero_leaf else leaf k value) bytes in
      '(built, zero_child, zeros) ← build_levels k depth 0 [leaves] zero_leaf [zero_leaf];
      top ← ok_or (last built ≫= head) TreeErr.TreeShape;
      let '(root, zeros) := extend_root k (TREE_DEPTH - depth) (Z.of_nat depth) top zero_child zeros in
      Ok (MkTree k bytes built zeros depth root).

(** The siblings of the stored levels, bottom up. *)
Fixpoint stored_siblings (stored : list (list CommitmentRoot)) (position : Z) :
    tree_result (list CommitmentRoot) :=
  match stored with
  | [] => Ok []
  | level :: stored =>
      sibling ← get level (Z.lxor position 1);
      rest ← stored_siblings stored (Z.shiftr position 1);
      Ok (sibling :: rest)
  end.

(** The zero siblings of [n] virtual levels. *)
Fixpoint zero_siblings (zeros : list CommitmentRoot) (n : nat) (level : Z) :
    tree_result (list CommitmentRoot) :=
  match n with
  | O => Ok []
  | S n =>
      sibling ← get zeros level;
      rest ← zero_siblings zeros n (level + 1);
      Ok (sibling :: rest)
  end.

Definition tree_read (t : MerkleTree) (address : Z) : tree_result (Z * MerklePath) :=
  value ← get (tree_bytes t) address;
  stored ← stored_siblings (take (stored_depth t) (levels t)) address;
  above ← zero_siblings (zero_roots t) (TREE_DEPTH - stored_depth t) (Z.of_nat (stored_depth t));
  path ← ok_or (path_from_slice (stored ++ above)) TreeErr.TreeShape;
  Ok (value, path).

Definition parent (k : TreeKind) (stored : list (list CommitmentRoot)) (level_number level_index : Z)
    (position : Z) : tree_result CommitmentRoot :=
  level ← get stored level_index;
  let even_position := Z.ldiff position 1 in
  left_ ← get level even_position;
  right_ ← get level (even_position + 1);
  Ok (node k level_number left_ right_).

(** The update loop of [write]; [level_number] and [next_level - 1] advance together. *)
Fixpoint update_levels (k : TreeKind) (n : nat) (level_number position : Z)
    (stored : list (list CommitmentRoot)) : tree_result (list (list CommitmentRoot)) :=
  match n with
  | O => Ok stored
  | S n =>
      p ← parent k stored level_number level_number position;
      let position := Z.shiftr position 1 in
      let next_level := level_number + 1 in
      level ← get stored next_level;
      _ ← get level position;
      let stored := <[Z.to_nat next_level := <[Z.to_nat position := p]> level]> stored in
      update_levels k n next_level position stored
  end.

Fixpoint reroot (k : TreeKind) (zeros : list CommitmentRoot) (n : nat) (level : Z)
    (root : CommitmentRoot) : tree_result CommitmentRoot :=
  match n with
  | O => Ok root
  | S n => zero ← get zeros level; reroot k zeros n (level + 1) (node k level root zero)
  end.

Definition tree_write (t : MerkleTree) (address value : Z) : tree_result MerkleTree :=
  _ ← get (tree_bytes t) address;
  let bytes := <[Z.to_nat address := value]> (tree_bytes t) in
  first_level ← get (levels t) 0;
  _ ← get first_level address;
  let stored := <[0%nat := <[Z.to_nat address := leaf (tree_kind t) value]> first_level]> (levels t) in
  stored ← update_levels (tree_kind t) (stored_depth t) 0 address stored;
  top ← ok_or (last stored ≫= head) TreeErr.TreeShape;
  root ← reroot (tree_kind t) (zero_roots t) (TREE_DEPTH - stored_depth t)
           (Z.of_nat (stored_depth t)) top;
  Ok (MkTree (tree_kind t) bytes stored (zero_roots t) (stored_depth t) root).

(** ** ROM image *)

Definition rom_new (program : list Z) : result RomErr.RomImageError RomImage :=
  let len := Z.of_nat (length program) in
  if len =? 0 then Err RomErr.EmptyProgram
  else if ROM_BYTES <? len then Err (RomErr.ProgramTooLarge len ROM_BYTES)
  else
    power ← ok_or (checked_next_power_of_two len) RomErr.CommitmentInvariant;
    let stored_bytes := Z.max power CPU_ADDRESS_SPACE_BYTES in
    let bytes := resize program stored_bytes in
    tree ← map_err (λ _, RomErr.CommitmentInvariant) (tree_build Kind.Rom bytes);
    Ok (MkRom tree).

Definition rom_read_mapped (i : RomImage) (address physical_address : Z) :
    result RomErr.RomImageError RomRead :=
  if negb (bool_decide (owner address = Own.Rom)) then Err (RomErr.AddressNotRom address)
  else
    '(value, path) ← map_err (λ _, RomErr.PhysicalAddressOutOfRange physical_address)
                       (tree_read (rom_tree i) physical_address);
    Ok (MkRomRead address physical_address value path).
Definition rom_read (i : RomImage) (address : Z) := rom_read_mapped i address address.

(** ** Mutable memory image *)

Definition memory_build (bytes : list Z) : result MemErr.MemoryImageError MemoryImage :=
  tree ← map_err (λ _, MemErr.CommitmentInvariant) (tree_build Kind.Memory bytes);
  Ok (MkMemory tree).

(** The zip of the address range [0x8000..=0xffef] with the initial bytes. *)
Fixpoint fill (bytes : list Z) (address : Z) (initial : list Z) :
    result MemErr.MemoryImageError (list Z) :=
  match initial with
  | [] => Ok bytes
  | value :: initial =>
      if 0xffef <? address then Ok bytes
      else
        _ ← ok_or (bytes !! Z.to_nat address) MemErr.CommitmentInvariant;
        fill (<[Z.to_nat address := value]> bytes) (address + 1) initial
  end.

Definition memory_new (initial_bytes : list Z) : result MemErr.MemoryImageError MemoryImage :=
  let len := Z.of_nat (length initial_bytes) in
  if MUTABLE_BYTES <? len then Err (MemErr.InitialMemoryTooLarge len MUTABLE_BYTES)
  else
    bytes ← fill (replicate (Z.to_nat MUTABLE_COMMITMENT_BYTES) 0) 0x8000 initial_bytes;
    memory_build bytes.
Definition memory_zeroed : result MemErr.MemoryImageError MemoryImage := memory_new [].

Definition from_checkpoint_bytes (bytes : list Z) : result MemErr.MemoryImageError MemoryImage :=
  let len := Z.of_nat (length bytes) in
  if negb (len =? MUTABLE_COMMITMENT_BYTES) then
    Err (MemErr.InvalidCheckpointLength len MUTABLE_COMMITMENT_BYTES)
  else memory_build bytes.

Definition with_battery_sram (sram : list Z) : result MemErr.MemoryImageError MemoryImage :=
  let len := Z.of_nat (length sram) in
  if negb (len =? BATTERY_SRAM_BYTES) then
    Err (MemErr.InvalidBatterySramLength len BATTERY_SRAM_BYTES)
  else
    let zeroed := replicate (Z.to_nat MUTABLE_COMMITMENT_BYTES) 0 in
    let stop := BATTERY_SRAM_START + BATTERY_SRAM_BYTES in
    if Z.of_nat (length zeroed) <? stop then Err MemErr.CommitmentInvariant
    else memory_build (take (Z.to_nat BATTERY_SRAM_START) zeroed ++ sram ++
                       drop (Z.to_nat stop) zeroed).

Definition checkpoint_bytes (i : MemoryImage) : list Z := tree_bytes (memory_tree i).

Definition battery_sram_bytes (i : MemoryImage) : result MemErr.MemoryImageError (list Z) :=
  let bytes := tree_bytes (memory_tree i) in
  let stop := BATTERY_SRAM_START + BATTERY_SRAM_BYTES in
  if Z.of_nat (length bytes) <? stop then Err MemErr.CommitmentInvariant
  else Ok (take (Z.to_nat BATTERY_SRAM_BYTES) (drop (Z.to_nat BATTERY_SRAM_START) bytes)).

Definition validate_mutable_address (address : Z) : result MemErr.MemoryImageError () :=
  if negb (bool_decide (owner address = Own.Memory)) && negb (bool_decide (dmg_owner address = Own.Memory))
  then Err (MemErr.AddressNotMutable address) else Ok ().

Definition memory_read_mapped (i : MemoryImage) (address physical_address : Z) :
    result MemErr.MemoryImageError MemoryRead :=
  _ ← validate_mutable_address address;
  '(value, path) ← map_err (λ _, MemErr.PhysicalAddressOutOfRange physical_address)
                     (tree_read (memory_tree i) physical_address);
  Ok (MkMemoryRead address physical_address value path).
Definition memory_read (i : MemoryImage) (address : Z) := memory_read_mapped i address address.

Definition preview_write_mapped (i : MemoryImage) (address physical_address after : Z) :
    result MemErr.MemoryImageError MemoryWrite :=
  _ ← validate_mutable_address address;
  '(before, path) ← map_err (λ _, MemErr.PhysicalAddressOutOfRange physical_address)
                      (tree_read (memory_tree i) physical_address);
  Ok (MkMemoryWrite address physical_address before after path).
Definition preview_write (i : MemoryImage) (address after : Z) :=
  preview_write_mapped i address address after.

(** The updated image and the write witness. *)
Definition memory_write_mapped (i : MemoryImage) (address physical_address after : Z) :
    result MemErr.MemoryImageError (MemoryWrite * MemoryImage) :=
  witness ← preview_write_mapped i address physical_address after;
  tree ← map_err (λ _, MemErr.PhysicalAddressOutOfRange physical_address)
           (tree_write (memory_tree i) physical_address after);
  Ok (witness, MkMemory tree).
Definition memory_write (i : MemoryImage) (address after : Z) :=
  memory_write_mapped i address address after.

(** ** The tree as a function of its bytes *)

(** Pairing without the zero shortcut. *)
Fixpoint pairs (f : CommitmentRoot → CommitmentRoot → CommitmentRoot) (l : list CommitmentRoot) :
    list CommitmentRoot :=
  match l with a :: b :: rest => f a b :: pairs f rest | _ => [] end.

(** Level [n] of the full tree over [bytes]. *)
Fixpoint level_of (k : TreeKind) (bytes : list Z) (n : nat) : list CommitmentRoot :=
  match n with
  | O => map (leaf k) bytes
  | S n => pairs (node k (Z.of_nat n)) (level_of k bytes n)
  end.

(** The root of an all-zero subtree of height [n]. *)
Fixpoint zero_of (k : TreeKind) (n : nat) : CommitmentRoot :=
  match n with O => leaf k 0 | S n => node k (Z.of_nat n) (zero_of k n) (zero_of k n) end.

(** The root above level [d]. *)
Fixpoint extended (k : TreeKind) (n d : nat) (root : CommitmentRoot) : CommitmentRoot :=
  match n with
  | O => root
  | S n => extended k n (S d) (node k (Z.of_nat d) root (zero_of k d))
  end.

Definition top_of (k : TreeKind) (bytes : list Z) (d : nat) : CommitmentRoot :=
  default [] (head (level_of k bytes d)).
Definition root_of (k : TreeKind) (bytes : list Z) (d : nat) : CommitmentRoot :=
  extended k (TREE_DEPTH - d) d (top_of k bytes d).

Definition tree_of (k : TreeKind) (bytes : list Z) (d : nat) : MerkleTree :=
  MkTree k bytes (map (level_of k bytes) (seq 0 (S d))) (map (zero_of k) (seq 0 (S TREE_DEPTH))) d
    (root_of k bytes d).

Lemma list_pair_ind {A} (P : list A → Prop) :
  P [] → (∀ a, P [a]) → (∀ a b l, P l → P (a :: b :: l)) → ∀ l, P l.
Proof.
  intros H0 H1 H2 l. cut (P l ∧ ∀ a, P (a :: l)); [by intros [? _] |].
  induction l as [|b l [IH1 IH2]]; [by split |]. split; [apply IH2 |]. intros a. by apply H2.
Qed.

Lemma length_pairs f l : length (pairs f l) = Nat.div2 (length l).
Proof. induction l using list_pair_ind; cbn; auto. Qed.

Lemma pairs_lookup f l : ∀ i a b,
  l !! (2 * i)%nat = Some a → l !! (2 * i + 1)%nat = Some b → pairs f l !! i = Some (f a b).
Proof.
  induction l as [| c | c e l IH] using list_pair_ind; intros [|i] a b Ha Hb; try done.
  - cbn in Ha, Hb. by simplify_eq.
  - cbn [pairs]. change ((f c e :: pairs f l) !! S i) with (pairs f l !! i).
    replace (2 * S i)%nat with (S (S (2 * i))) in * by lia. apply IH; [done |].
    by replace (S (S (2 * i)) + 1)%nat with (S (S (2 * i + 1))) in Hb by lia.
Qed.

Lemma pairs_insert f l : ∀ p x a b,
  let l' := <[p := x]> l in
  l' !! (2 * Nat.div2 p)%nat = Some a → l' !! (2 * Nat.div2 p + 1)%nat = Some b →
  pairs f l' = <[Nat.div2 p := f a b]> (pairs f l).
Proof.
  induction l as [| c | c e l IH] using list_pair_ind; intros [|[|p]] x a b; cbv zeta; intros Ha Hb;
    try done.
  - cbn in Ha, Hb. by simplify_eq.
  - cbn in Ha, Hb. by simplify_eq.
  - change (Nat.div2 (S (S p))) with (S (Nat.div2 p)) in *.
    replace (2 * S (Nat.div2 p))%nat with (S (S (2 * Nat.div2 p))) in * by lia.
    replace (S (S (2 * Nat.div2 p)) + 1)%nat with (S (S (2 * Nat.div2 p + 1))) in Hb by lia.
    cbn [list_insert insert pairs] in *. cbn. f_equal. by apply IH.
Qed.

Lemma parents_pairs k level zc current :
  parents k level zc (node k level zc zc) current = pairs (node k level) current.
Proof.
  induction current as [| c | c e l IH] using list_pair_ind; [done | done |]. cbn. rewrite IH.
  destruct (bool_decide_reflect (c = zc)) as [-> |], (bool_decide_reflect (e = zc)) as [-> |]; done.
Qed.

Section fixed.
Context (k : TreeKind).

Lemma length_level bytes d n :
  length bytes = (2 ^ d)%nat → (n <= d)%nat → length (level_of k bytes n) = (2 ^ (d - n))%nat.
Proof.
  intros Hl. induction n as [|n IH]; intros Hn; cbn [level_of].
  - rewrite length_map. by rewrite Nat.sub_0_r.
  - rewrite length_pairs, IH by lia. replace (d - n)%nat with (S (d - S n)) by lia.
    rewrite Nat.pow_succ_r'. apply Nat.div2_double.
Qed.

Lemma map_seq_last {A} (f : nat → A) m : last (map f (seq 0 (S m))) = Some (f m).
Proof. rewrite seq_S, map_app. apply last_snoc. Qed.

Lemma map_seq_snoc {A} (f : nat → A) m : map f (seq 0 (S m)) ++ [f (S m)] = map f (seq 0 (S (S m))).
Proof. by rewrite (seq_S (S m)), map_app. Qed.

Lemma build_levels_of bytes n : ∀ m,
  build_levels k n (Z.of_nat m) (map (level_of k bytes) (seq 0 (S m))) (zero_of k m)
    (map (zero_of k) (seq 0 (S m))) =
  Ok (map (level_of k bytes) (seq 0 (S (m + n))), zero_of k (m + n),
      map (zero_of k) (seq 0 (S (m + n)))).
Proof.
  induction n as [|n IH]; intros m; [by rewrite Nat.add_0_r |]. cbn [build_levels].
  rewrite map_seq_last. cbn [ok_or mbind result_bind]. rewrite parents_pairs.
  change (pairs (node k (Z.of_nat m)) (level_of k bytes m)) with (level_of k bytes (S m)).
  change (node k (Z.of_nat m) (zero_of k m) (zero_of k m)) with (zero_of k (S m)).
  rewrite !map_seq_snoc. replace (Z.of_nat m + 1) with (Z.of_nat (S m)) by lia.
  rewrite IH. by replace (S m + n)%nat with (m + S n)%nat by lia.
Qed.

Lemma extend_root_of n : ∀ d root,
  extend_root k n (Z.of_nat d) root (zero_of k d) (map (zero_of k) (seq 0 (S d))) =
  (extended k n d root, map (zero_of k) (seq 0 (S (d + n)))).
Proof.
  induction n as [|n IH]; intros d root; [by rewrite Nat.add_0_r |]. cbn [extend_root extended].
  change (node k (Z.of_nat d) (zero_of k d) (zero_of k d)) with (zero_of k (S d)).
  rewrite map_seq_snoc. replace (Z.of_nat d + 1) with (Z.of_nat (S d)) by lia.
  rewrite IH. by replace (S d + n)%nat with (d + S n)%nat by lia.
Qed.

Lemma top_some bytes d :
  length bytes = (2 ^ d)%nat → head (level_of k bytes d) = Some (top_of k bytes d).
Proof.
  intros Hl. pose proof (length_level bytes d d Hl ltac:(lia)) as H1.
  rewrite Nat.sub_diag in H1. unfold top_of. by destruct (level_of k bytes d).
Qed.

Lemma power_of_two_depth (bytes : list Z) d :
  (16 <= d <= 20)%nat → length bytes = (2 ^ d)%nat →
  let len := Z.of_nat (length bytes) in
  is_power_of_two len = true ∧ CPU_ADDRESS_SPACE_BYTES <= len <= ROM_BYTES ∧
  Z.to_nat (Z.log2 len) = d.
Proof.
  intros Hd Hl len. subst len. rewrite Hl, Nat2Z.inj_pow. change (Z.of_nat 2) with 2.
  assert (H1 : 2 ^ 16 <= 2 ^ Z.of_nat d) by (apply Z.pow_le_mono_r; lia).
  assert (H2 : 2 ^ Z.of_nat d <= 2 ^ 20) by (apply Z.pow_le_mono_r; lia).
  change (2 ^ 16) with 65536 in H1. change (2 ^ 20) with 1048576 in H2.
  unfold is_power_of_two, CPU_ADDRESS_SPACE_BYTES, ROM_BYTES. split; [| split; [lia |]].
  - rewrite land_ones_mod, Z.mod_same by lia. rewrite andb_true_r. lia.
  - rewrite Z.log2_pow2 by lia. lia.
Qed.

Lemma tree_build_of bytes d :
  (16 <= d <= 20)%nat → length bytes = (2 ^ d)%nat → tree_build k bytes = Ok (tree_of k bytes d).
Proof.
  intros Hd Hl. unfold tree_build.
  destruct (power_of_two_depth bytes d Hd Hl) as (Hp & Hb & Hlog). rewrite Hp, Hlog.
  rewrite (proj2 (Z.ltb_ge _ _)) by lia. rewrite (proj2 (Z.ltb_ge _ _)) by lia. cbn [negb orb].
  unfold MIN_TREE_DEPTH, TREE_DEPTH.
  rewrite (proj2 (Nat.leb_le 16 d)), (proj2 (Nat.leb_le d 20)) by lia. cbn [negb andb].
  assert (Hleaves : map (λ value, if value =? 0 then leaf k 0 else leaf k value) bytes = level_of k bytes 0).
  { apply map_ext. intros v. by destruct (Z.eqb_spec v 0) as [-> |]. }
  rewrite Hleaves. pose proof (build_levels_of bytes d 0) as Hb0. cbn [Nat.add] in Hb0.
  change (map (level_of k bytes) (seq 0 1)) with [level_of k bytes 0] in Hb0.
  change (map (zero_of k) (seq 0 1)) with [leaf k 0] in Hb0. change (zero_of k 0) with (leaf k 0) in Hb0.
  change (Z.of_nat 0) with 0 in Hb0. rewrite Hb0. cbn [mbind result_bind].
  rewrite map_seq_last. cbn [mbind option_bind]. rewrite top_some by done. cbn [ok_or mbind result_bind].
  rewrite extend_root_of. unfold tree_of, root_of, TREE_DEPTH.
  by replace (d + (20 - d))%nat with 20%nat by lia.
Qed.

(** ** Paths *)

Lemma get_ok {A} (l : list A) i x : l !! Z.to_nat i = Some x → get l i = Ok x.
Proof. unfold get. by intros ->. Qed.

Lemma map_seq_lookup {A} (f : nat → A) n i : (i < n)%nat → map f (seq 0 n) !! i = Some (f i).
Proof. intros. change (map f (seq 0 n)) with (f <$> seq 0 n). by rewrite list_lookup_fmap, lookup_seq_lt. Qed.

Lemma even_part p : 0 <= p → Z.ldiff p 1 = 2 * (p / 2) ∧ 0 <= Z.ldiff p 1.
Proof.
  intros. assert (E : Z.ldiff p 1 = 2 * (p / 2)).
  { change 1 with (Z.ones 1) at 1. rewrite Z.ldiff_ones_r, Z.shiftl_mul_pow2, Z.shiftr_div_pow2 by lia.
    change (2 ^ 1) with 2. lia. }
  rewrite E. split; [done | zlia].
Qed.

Lemma sibling_position p : 0 <= p → Z.lxor p 1 = if Z.land p 1 =? 0 then p + 1 else p - 1.
Proof.
  intros Hp. rewrite land_1.
  assert (He : ∀ q, q mod 2 = 0 → Z.lxor q 1 = q + 1).
  { intros q Hq. rewrite <- Z.add_nocarry_lxor; [done |].
    change (Z.land q 1) with (Z.land q 1). by rewrite land_1. }
  destruct (Z.eqb_spec (p mod 2) 0); [by apply He |].
  replace p with (p - 1 + 1) at 1 by lia. rewrite <- (He (p - 1)) by zlia.
  by rewrite Z.lxor_assoc, Z.lxor_nilpotent, Z.lxor_0_r.
Qed.

(** Indices of a level and of its parent level. *)
Lemma shift_index p : 0 <= p → Z.to_nat (Z.shiftr p 1) = Nat.div2 (Z.to_nat p).
Proof.
  intros. rewrite Z.shiftr_div_pow2, Nat.div2_div by lia. change (2 ^ 1) with 2.
  by rewrite Z2Nat.inj_div by lia.
Qed.

Lemma level_bound bytes d n p :
  length bytes = (2 ^ d)%nat → (n <= d)%nat → 0 <= p < 2 ^ Z.of_nat (d - n) →
  is_Some (level_of k bytes n !! Z.to_nat p).
Proof.
  intros Hl Hn Hp. apply lookup_lt_is_Some_2. rewrite (length_level bytes d n) by done.
  apply Nat2Z.inj_lt. rewrite Nat2Z.inj_pow. rewrite Z2Nat.id by lia. lia.
Qed.

Lemma sibling_bound m p :
  0 <= p < 2 ^ Z.of_nat (S m) → 0 <= Z.lxor p 1 < 2 ^ Z.of_nat (S m) ∧
  0 <= Z.shiftr p 1 < 2 ^ Z.of_nat m.
Proof.
  intros Hp. rewrite sibling_position, land_1, Z.shiftr_div_pow2 by lia. change (2 ^ 1) with 2.
  rewrite Nat2Z.inj_succ, Z.pow_succ_r in * by lia.
  destruct (Z.eqb_spec (p mod 2) 0); split; zlia.
Qed.

(** The parent of a level-[n] position, whichever side it is on. *)
Lemma parent_value bytes d n p x s :
  length bytes = (2 ^ d)%nat → (S n <= d)%nat → 0 <= p < 2 ^ Z.of_nat (d - n) →
  level_of k bytes n !! Z.to_nat p = Some x →
  level_of k bytes n !! Z.to_nat (Z.lxor p 1) = Some s →
  level_of k bytes (S n) !! Z.to_nat (Z.shiftr p 1) =
  Some (let '(l, r) := if Z.land p 1 =? 0 then (x, s) else (s, x) in node k (Z.of_nat n) l r).
Proof.
  intros Hl Hn Hp Hx Hs. rewrite sibling_position in Hs by lia.
  rewrite land_1 in *. cbn [level_of]. rewrite Z.shiftr_div_pow2 by lia. change (2 ^ 1) with 2.
  destruct (Z.eqb_spec (p mod 2) 0); apply pairs_lookup.
  - rewrite <- Hx. f_equal. zlia.
  - rewrite <- Hs. f_equal. zlia.
  - rewrite <- Hs. f_equal. zlia.
  - rewrite <- Hx. f_equal. zlia.
Qed.

Lemma stored_path bytes d m : ∀ n q x,
  length bytes = (2 ^ d)%nat → (n + m <= d)%nat → 0 <= q < 2 ^ Z.of_nat (d - n) →
  level_of k bytes n !! Z.to_nat q = Some x →
  ∃ sibs x' q',
    stored_siblings (map (level_of k bytes) (seq n m)) q = Ok sibs ∧ length sibs = m ∧
    Forall (λ s, ∃ i, s ∈ level_of k bytes i) sibs ∧
    0 <= q' < 2 ^ Z.of_nat (d - (n + m)) ∧ level_of k bytes (n + m) !! Z.to_nat q' = Some x' ∧
    ∀ rest, derive_from (node_domain k) (Z.of_nat n) q x (sibs ++ rest) =
            derive_from (node_domain k) (Z.of_nat (n + m)) q' x' rest.
Proof.
  induction m as [|m IH]; intros n q x Hl Hn Hq Hx.
  { exists [], x, q. rewrite Nat.add_0_r. repeat split; try done; try lia. }
  assert (Hdn : (d - n = S (d - S n))%nat) by lia.
  destruct (sibling_bound (d - S n) q) as [Hs Hp]; [by rewrite <- Hdn |].
  destruct (level_bound bytes d n (Z.lxor q 1) Hl) as [s Hsib]; [lia | by rewrite Hdn |].
  pose proof (parent_value bytes d n q x s Hl ltac:(lia) Hq Hx Hsib) as Hpar.
  set (y := let '(l, r) := if Z.land q 1 =? 0 then (x, s) else (s, x) in node k (Z.of_nat n) l r) in *.
  destruct (IH (S n) (Z.shiftr q 1) y Hl ltac:(lia) Hp Hpar)
    as (sibs & x' & q' & Hss & Hlen & Hall & Hq' & Hx' & Hder).
  exists (s :: sibs), x', q'. replace (n + S m)%nat with (S n + m)%nat by lia.
  split; [cbn [seq map stored_siblings]; rewrite (get_ok _ _ s Hsib); cbn; by rewrite Hss |].
  split; [cbn; by rewrite Hlen |].
  split; [constructor; [exists n; by eapply list_elem_of_lookup_2 | done] |].
  split; [done |]. split; [done |]. intros rest. rewrite <- Hder. cbn [app derive_from].
  replace (Z.of_nat n + 1) with (Z.of_nat (S n)) by lia.
  subst y. by destruct (Z.land q 1 =? 0).
Qed.

Lemma zero_path m : ∀ d,
  (d + m <= 20)%nat →
  zero_siblings (map (zero_of k) (seq 0 (S TREE_DEPTH))) m (Z.of_nat d) = Ok (map (zero_of k) (seq d m)).
Proof.
  induction m as [|m IH]; intros d Hd; [done |]. cbn [zero_siblings].
  rewrite (get_ok _ _ (zero_of k d))
    by (rewrite Nat2Z.id; apply map_seq_lookup; unfold TREE_DEPTH; lia).
  cbn [mbind result_bind]. replace (Z.of_nat d + 1) with (Z.of_nat (S d)) by lia.
  by rewrite IH by lia.
Qed.

Lemma derive_zero m : ∀ d root,
  derive_from (node_domain k) (Z.of_nat d) 0 root (map (zero_of k) (seq d m)) = extended k m d root.
Proof.
  induction m as [|m IH]; intros d root; [done |]. cbn [seq map derive_from extended].
  change (Z.land 0 1 =? 0) with true. change (Z.shiftr 0 1) with 0. cbv iota.
  replace (Z.of_nat d + 1) with (Z.of_nat (S d)) by lia. apply IH.
Qed.

Definition kind_root (a v : Z) (p : MerklePath) : CommitmentRoot :=
  derive_root (leaf_domain k) (node_domain k) a v p.

Lemma zero_of_length `{!Sha256Digest} n : length (zero_of k n) = 32%nat.
Proof. destruct n; apply hash_parts_length. Qed.

Lemma level_of_length `{!Sha256Digest} bytes n s : s ∈ level_of k bytes n → length s = 32%nat.
Proof.
  destruct n as [|n]; cbn [level_of].
  - intros (v & -> & _)%list_elem_of_fmap. apply hash_parts_length.
  - induction (level_of k bytes n) as [| c | c e l IH] using list_pair_ind;
      [by intros ?%elem_of_nil | by intros ?%elem_of_nil |].
    intros [-> | Hs]%elem_of_cons; [apply hash_parts_length | by apply IH].
Qed.

Lemma tree_read_of bytes d p v :
  (16 <= d <= 20)%nat → length bytes = (2 ^ d)%nat → 0 <= p → bytes !! Z.to_nat p = Some v →
  ∃ path, tree_read (tree_of k bytes d) p = Ok (v, path) ∧
    (Sha256Digest → path_ok path) ∧
    kind_root p v path = root_of k bytes d.
Proof.
  intros Hd Hl Hp Hv.
  assert (Hpb : 0 <= p < 2 ^ Z.of_nat (d - 0)).
  { apply lookup_lt_Some in Hv. rewrite Hl in Hv. apply Nat2Z.inj_lt in Hv.
    rewrite Nat2Z.inj_pow, Z2Nat.id in Hv by lia. rewrite Nat.sub_0_r. lia. }
  assert (Hx : level_of k bytes 0 !! Z.to_nat p = Some (leaf k v)).
  { cbn [level_of]. change (map (leaf k) bytes) with (leaf k <$> bytes).
    by rewrite list_lookup_fmap, Hv. }
  destruct (stored_path bytes d d 0 p (leaf k v) Hl ltac:(lia) Hpb Hx)
    as (sibs & x' & q' & Hss & Hlen & Hall & Hq' & Hx' & Hder).
  cbn [Nat.add] in *. rewrite Nat.sub_diag in Hq'. assert (q' = 0) by (cbn in Hq'; lia). subst q'.
  exists (MkPath (sibs ++ map (zero_of k) (seq d (20 - d)))).
  assert (Hlen20 : length (sibs ++ map (zero_of k) (seq d (20 - d))) = TREE_LEVELS).
  { rewrite length_app, length_map, length_seq, Hlen. unfold TREE_LEVELS. lia. }
  split; [| split].
  - unfold tree_read, tree_of. cbn [tree_bytes levels zero_roots stored_depth].
    rewrite (get_ok _ _ v Hv). cbn [mbind result_bind].
    rewrite firstn_map, take_seq, Nat.min_l, Hss by lia. cbn [mbind result_bind].
    rewrite zero_path by (unfold TREE_DEPTH; lia). cbn [mbind result_bind].
    unfold path_from_slice, TREE_DEPTH. rewrite Hlen20. done.
  - intros ?. split; [done |]. cbn [siblings]. apply Forall_app. split.
    + eapply Forall_impl; [exact Hall |]. intros s [i Hs]. by eapply level_of_length.
    + apply Forall_fmap, Forall_true. intros. apply zero_of_length.
  - unfold kind_root, derive_root. cbn [siblings].
    change (hash_parts (leaf_domain k) [v] []) with (leaf k v).
    change 0 with (Z.of_nat 0) at 1. rewrite Hder, derive_zero. unfold root_of. f_equal.
    unfold top_of. pose proof (length_level bytes d d Hl ltac:(lia)) as H1. rewrite Nat.sub_diag in H1.
    destruct (level_of k bytes d) as [|y l]; [done |]. change (Some y = Some x') in Hx'.
    by injection Hx' as ->.
Qed.

(** ** Updates *)

(** The stored levels while the update loop runs: levels below [n] already belong to the new
    bytes. *)
Definition mixed (bytes bytes' : list Z) (d n : nat) : list (list CommitmentRoot) :=
  map (λ j, if (j <=? n)%nat then level_of k bytes' j else level_of k bytes j) (seq 0 (S d)).

Lemma mixed_lookup bytes bytes' d n j :
  (j <= d)%nat → mixed bytes bytes' d n !! j =
  Some (if (j <=? n)%nat then level_of k bytes' j else level_of k bytes j).
Proof. intros. unfold mixed. by rewrite map_seq_lookup by lia. Qed.

Lemma mixed_step bytes bytes' d n :
  (S n <= d)%nat →
  <[S n := level_of k bytes' (S n)]> (mixed bytes bytes' d n) = mixed bytes bytes' d (S n).
Proof.
  intros Hn. apply list_eq. intros j. destruct (decide (j <= d)%nat).
  - rewrite list_lookup_insert, !mixed_lookup by done.
    assert (length (mixed bytes bytes' d n) = S d) by (unfold mixed; by rewrite length_map, length_seq).
    case_decide as E; [destruct E as [<- _]; by rewrite Nat.leb_refl |].
    destruct (Nat.leb_spec j n), (Nat.leb_spec j (S n)); try done; [lia |].
    destruct E. lia.
  - rewrite !lookup_ge_None_2; try done; unfold mixed;
      rewrite ?length_insert, ?length_map, ?length_seq; lia.
Qed.

(** Level [n] of the updated bytes differs from the old one in one slot. *)
Definition slot_updated (bytes bytes' : list Z) (n : nat) (q : Z) : Prop :=
  ∃ x, level_of k bytes' n = <[Z.to_nat q := x]> (level_of k bytes n).

Lemma slot_step bytes bytes' n q x l r :
  0 <= q → level_of k bytes' n = <[Z.to_nat q := x]> (level_of k bytes n) →
  level_of k bytes' n !! Z.to_nat (2 * (q / 2)) = Some l →
  level_of k bytes' n !! Z.to_nat (2 * (q / 2) + 1) = Some r →
  <[Z.to_nat (Z.shiftr q 1) := node k (Z.of_nat n) l r]> (level_of k bytes (S n)) =
  level_of k bytes' (S n).
Proof.
  intros Hq Hx Hleft Hright. pose proof (shift_index q Hq) as Hsh.
  assert (Hq2n : Nat.div2 (Z.to_nat q) = Z.to_nat (q / 2))
    by (rewrite <- Hsh, Z.shiftr_div_pow2 by lia; done).
  assert (0 <= q / 2) by zlia.
  cbn [level_of]. rewrite Hx, Hsh. symmetry. apply pairs_insert; rewrite <- Hx, Hq2n.
  - rewrite <- Hleft. f_equal. lia.
  - rewrite <- Hright. f_equal. lia.
Qed.

Lemma update_levels_of bytes bytes' d m : ∀ n q,
  length bytes = (2 ^ d)%nat → length bytes' = (2 ^ d)%nat → (n + m = d)%nat →
  0 <= q < 2 ^ Z.of_nat (d - n) → slot_updated bytes bytes' n q →
  update_levels k m (Z.of_nat n) q (mixed bytes bytes' d n) = Ok (mixed bytes bytes' d d).
Proof.
  induction m as [|m IH]; intros n q Hl Hl' Hn Hq [x Hx].
  { cbn [update_levels]. by replace n with d by lia. }
  cbn [update_levels]. unfold parent.
  assert (Hdn : (d - n = S (d - S n))%nat) by lia.
  destruct (even_part q) as [He He0]; [lia |]. rewrite He.
  assert (Hq2 : 0 <= q / 2 < 2 ^ Z.of_nat (d - S n)).
  { rewrite Hdn, Nat2Z.inj_succ, Z.pow_succ_r in Hq by lia. zlia. }
  rewrite (get_ok _ (Z.of_nat n) (level_of k bytes' n))
    by (rewrite Nat2Z.id, mixed_lookup, Nat.leb_refl by lia; done).
  cbn [mbind result_bind].
  destruct (level_bound bytes' d n (2 * (q / 2)) Hl') as [l Hleft];
    [lia | rewrite Hdn, Nat2Z.inj_succ, Z.pow_succ_r by lia; lia |].
  destruct (level_bound bytes' d n (2 * (q / 2) + 1) Hl') as [r Hright];
    [lia | rewrite Hdn, Nat2Z.inj_succ, Z.pow_succ_r by lia; lia |].
  rewrite (get_ok _ _ l Hleft), (get_ok _ _ r Hright). cbn [mbind result_bind].
  replace (Z.of_nat n + 1) with (Z.of_nat (S n)) by lia.
  rewrite (get_ok _ (Z.of_nat (S n)) (level_of k bytes (S n))).
  2: { rewrite Nat2Z.id, mixed_lookup by lia. by rewrite (proj2 (Nat.leb_gt _ _)) by lia. }
  cbn [mbind result_bind].
  destruct (level_bound bytes d (S n) (Z.shiftr q 1) Hl) as [old Hold];
    [lia | rewrite Z.shiftr_div_pow2 by lia; exact Hq2 |].
  rewrite (get_ok _ _ old Hold). cbn [mbind result_bind].
  pose proof (slot_step bytes bytes' n q x l r ltac:(lia) Hx Hleft Hright) as Hnew.
  rewrite Hnew, Nat2Z.id, mixed_step by lia.
  apply IH; [done | done | lia | rewrite Z.shiftr_div_pow2 by lia; exact Hq2 |].
  eexists. symmetry. exact Hnew.
Qed.

Lemma reroot_of m : ∀ d root,
  (d + m <= 20)%nat →
  reroot k (map (zero_of k) (seq 0 (S TREE_DEPTH))) m (Z.of_nat d) root = Ok (extended k m d root).
Proof.
  induction m as [|m IH]; intros d root Hd; [done |]. cbn [reroot extended].
  rewrite (get_ok _ _ (zero_of k d))
    by (rewrite Nat2Z.id; apply map_seq_lookup; unfold TREE_DEPTH; lia).
  cbn [mbind result_bind]. replace (Z.of_nat d + 1) with (Z.of_nat (S d)) by lia.
  apply IH. lia.
Qed.

Lemma tree_write_of bytes d p v w :
  (16 <= d <= 20)%nat → length bytes = (2 ^ d)%nat → 0 <= p → bytes !! Z.to_nat p = Some v →
  tree_write (tree_of k bytes d) p w = Ok (tree_of k (<[Z.to_nat p := w]> bytes) d).
Proof.
  intros Hd Hl Hp Hv. set (bytes' := <[Z.to_nat p := w]> bytes).
  assert (Hl' : length bytes' = (2 ^ d)%nat) by (subst bytes'; by rewrite length_insert).
  assert (Hpb : 0 <= p < 2 ^ Z.of_nat (d - 0)).
  { apply lookup_lt_Some in Hv. rewrite Hl in Hv. apply Nat2Z.inj_lt in Hv.
    rewrite Nat2Z.inj_pow, Z2Nat.id in Hv by lia. rewrite Nat.sub_0_r. lia. }
  unfold tree_write, tree_of. cbn [tree_kind tree_bytes levels zero_roots stored_depth].
  rewrite (get_ok _ _ v Hv). cbn [mbind result_bind].
  rewrite (get_ok _ 0 (level_of k bytes 0)) by (apply map_seq_lookup; lia). cbn [mbind result_bind].
  assert (Hx : level_of k bytes 0 !! Z.to_nat p = Some (leaf k v)).
  { cbn [level_of]. change (map (leaf k) bytes) with (leaf k <$> bytes).
    by rewrite list_lookup_fmap, Hv. }
  rewrite (get_ok _ _ _ Hx). cbn [mbind result_bind].
  assert (Hlev0 : <[Z.to_nat p := leaf k w]> (level_of k bytes 0) = level_of k bytes' 0).
  { cbn [level_of]. subst bytes'. symmetry. apply list_fmap_insert. }
  assert (Hmix : <[0%nat := <[Z.to_nat p := leaf k w]> (level_of k bytes 0)]>
            (map (level_of k bytes) (seq 0 (S d))) = mixed bytes bytes' d 0).
  { rewrite Hlev0. unfold mixed. rewrite <- (cons_seq d 0). cbn [map]. cbn. f_equal.
    apply map_ext_in. intros j [Hj _]%in_seq. by rewrite (proj2 (Nat.leb_gt j 0)) by lia. }
  rewrite Hmix. change 0 with (Z.of_nat 0) at 1.
  rewrite (update_levels_of bytes bytes' d d 0 p); try done; [| by eexists].
  cbn [mbind result_bind].
  assert (Hdone : mixed bytes bytes' d d = map (level_of k bytes') (seq 0 (S d))).
  { apply map_ext_in. intros j [_ Hj]%in_seq. by rewrite (proj2 (Nat.leb_le j d)) by lia. }
  rewrite Hdone, map_seq_last. cbn [mbind option_bind]. rewrite top_some by done.
  cbn [ok_or mbind result_bind]. by rewrite reroot_of by (unfold TREE_DEPTH; lia).
Qed.

(** A byte update leaves its own authentication path unchanged. *)
Lemma same_siblings bytes bytes' d m : ∀ n q,
  length bytes = (2 ^ d)%nat → length bytes' = (2 ^ d)%nat → (n + m <= d)%nat →
  0 <= q < 2 ^ Z.of_nat (d - n) → slot_updated bytes bytes' n q →
  stored_siblings (map (level_of k bytes') (seq n m)) q =
  stored_siblings (map (level_of k bytes) (seq n m)) q.
Proof.
  induction m as [|m IH]; intros n q Hl Hl' Hn Hq [x Hx]; [done |]. cbn [seq map stored_siblings].
  assert (Hdn : (d - n = S (d - S n))%nat) by lia.
  destruct (sibling_bound (d - S n) q) as [Hs Hp]; [by rewrite <- Hdn |].
  assert (Hq2 : 0 <= q / 2 < 2 ^ Z.of_nat (d - S n)).
  { rewrite Hdn, Nat2Z.inj_succ, Z.pow_succ_r in Hq by lia. zlia. }
  destruct (level_bound bytes' d n (2 * (q / 2)) Hl') as [l Hleft];
    [lia | rewrite Hdn, Nat2Z.inj_succ, Z.pow_succ_r by lia; lia |].
  destruct (level_bound bytes' d n (2 * (q / 2) + 1) Hl') as [r Hright];
    [lia | rewrite Hdn, Nat2Z.inj_succ, Z.pow_succ_r by lia; lia |].
  assert (Hnext : slot_updated bytes bytes' (S n) (Z.shiftr q 1)).
  { eexists. symmetry. by apply (slot_step bytes bytes' n q x l r); [lia | ..]. }
  rewrite (IH (S n) _ Hl Hl') by (done || lia).
  assert (Hsib : get (level_of k bytes' n) (Z.lxor q 1) = get (level_of k bytes n) (Z.lxor q 1)).
  { unfold get. rewrite Hx, list_lookup_insert_ne; [done |].
    rewrite sibling_position in Hs |- * by lia. case_match; lia. }
  by rewrite Hsib.
Qed.

(** Reading and updating through one path. *)
Lemma tree_access bytes d p v :
  (16 <= d <= 20)%nat → length bytes = (2 ^ d)%nat → 0 <= p → bytes !! Z.to_nat p = Some v →
  ∃ path, tree_read (tree_of k bytes d) p = Ok (v, path) ∧ (Sha256Digest → path_ok path) ∧
    kind_root p v path = root_of k bytes d ∧
    ∀ w, tree_write (tree_of k bytes d) p w = Ok (tree_of k (<[Z.to_nat p := w]> bytes) d) ∧
         kind_root p w path = root_of k (<[Z.to_nat p := w]> bytes) d.
Proof.
  intros Hd Hl Hp Hv. destruct (tree_read_of bytes d p v Hd Hl Hp Hv) as (path & Hr & Hok & Hroot).
  exists path. split; [done |]. split; [done |]. split; [done |]. intros w.
  split; [by apply (tree_write_of bytes d p v w) |].
  pose proof (lookup_lt_Some _ _ _ Hv) as Hlt. rewrite Hl in Hlt.
  set (bytes' := <[Z.to_nat p := w]> bytes).
  assert (Hl' : length bytes' = (2 ^ d)%nat) by (subst bytes'; by rewrite length_insert).
  destruct (tree_read_of bytes' d p w Hd Hl' Hp) as (path' & Hr' & _ & Hroot');
    [apply list_lookup_insert_eq; lia |].
  assert (path' = path) as ->; [| exact Hroot'].
  assert (Hpb : 0 <= p < 2 ^ Z.of_nat (d - 0)).
  { apply Nat2Z.inj_lt in Hlt. rewrite Nat2Z.inj_pow, Z2Nat.id in Hlt by lia.
    rewrite Nat.sub_0_r. lia. }
  assert (Hs : slot_updated bytes bytes' 0 p) by (exists (leaf k w); apply list_fmap_insert).
  pose proof (same_siblings bytes bytes' d d 0 p Hl Hl' ltac:(lia) Hpb Hs) as Hsame.
  unfold tree_read, tree_of in Hr, Hr'. cbn [tree_bytes levels zero_roots stored_depth] in Hr, Hr'.
  rewrite firstn_map, take_seq, Nat.min_l in Hr, Hr' by lia. rewrite Hsame in Hr'.
  destruct (get bytes p), (get bytes' p); cbn [mbind result_bind] in *; try done.
  destruct (stored_siblings _ _); cbn [mbind result_bind] in *; [| done].
  destruct (zero_siblings _ _ _); cbn [mbind result_bind] in *; [| done].
  destruct (path_from_slice _); cbn in *; [| done]. congruence.
Qed.
(** *** Padding

    Above the stored levels the tree continues with zero subtrees, so its root is that of the full tree over
    the bytes and zeros. *)

Lemma pairs_app f l : ∀ l', Nat.even (length l) = true → pairs f (l ++ l') = pairs f l ++ pairs f l'.
Proof. induction l as [| c | c e l IH] using list_pair_ind; intros l' Hl; [done | done |]. cbn. by rewrite IH. Qed.
Lemma pairs_replicate f x n : pairs f (replicate (2 * n) x) = replicate n (f x x).
Proof.
  induction n as [| n IH]; [done |]. replace (2 * S n)%nat with (S (S (2 * n))) by lia. cbn [replicate pairs].
  by rewrite IH.
Qed.
Lemma level_padded bytes d n : length bytes = (2 ^ d)%nat → (n <= d)%nat →
  level_of k (bytes ++ replicate (2 ^ d) 0) n = level_of k bytes n ++ replicate (2 ^ (d - n)) (zero_of k n).
Proof.
  intros Hl. induction n as [| n IH]; intros Hn; cbn [level_of zero_of].
  - rewrite map_app, Nat.sub_0_r. f_equal. change (map (leaf k)) with (fmap (M := list) (leaf k)). by rewrite fmap_replicate.
  - assert (E : (2 ^ (d - n) = 2 * 2 ^ (d - S n))%nat)
      by (replace (d - n)%nat with (S (d - S n)) by lia; apply Nat.pow_succ_r').
    rewrite IH by lia. rewrite pairs_app, E, pairs_replicate; [done |].
    rewrite (length_level bytes d n Hl) by lia. rewrite E. apply Nat.even_mul.
Qed.
Lemma root_doubled bytes d : length bytes = (2 ^ d)%nat → (d < TREE_DEPTH)%nat →
  root_of k (bytes ++ replicate (2 ^ d) 0) (S d) = root_of k bytes d.
Proof.
  intros Hl Hd. unfold root_of. replace (TREE_DEPTH - d)%nat with (S (TREE_DEPTH - S d)) by lia. cbn [extended]. f_equal.
  unfold top_of. cbn [level_of]. rewrite level_padded, Nat.sub_diag by (done || lia).
  pose proof (length_level bytes d d Hl ltac:(lia)) as H1. rewrite Nat.sub_diag in H1. cbn in H1.
  destruct (level_of k bytes d) as [| top [| ? ?]]; done.
Qed.
Lemma root_padded m : ∀ bytes d, length bytes = (2 ^ d)%nat → (d + m <= TREE_DEPTH)%nat →
  root_of k (bytes ++ replicate (2 ^ (d + m) - 2 ^ d) 0) (d + m) = root_of k bytes d.
Proof.
  induction m as [| m IH]; intros bytes d Hl Hd.
  - by rewrite Nat.add_0_r, Nat.sub_diag, app_nil_r.
  - rewrite <- (root_doubled bytes d Hl) by lia. rewrite <- (IH (bytes ++ replicate (2 ^ d) 0) (S d)) by
      (rewrite ?length_app, ?length_replicate, ?Hl, ?Nat.pow_succ_r'; lia).
    replace (S d + m)%nat with (d + S m)%nat by lia. f_equal. rewrite <- app_assoc. f_equal.
    rewrite <- replicate_add. f_equal. rewrite Nat.pow_succ_r'.
    assert (2 ^ S d <= 2 ^ (d + S m))%nat by (apply Nat.pow_le_mono_r; lia). rewrite Nat.pow_succ_r' in *. lia.
Qed.
End fixed.

(** ** The ROM image as an array *)

Lemma resize_length bytes n :
  Z.of_nat (length bytes) <= n → Z.of_nat (length (resize bytes n)) = n.
Proof. intros. unfold resize. rewrite length_app, length_replicate. lia. Qed.

(** The depth of the tree stored for a program. *)
Definition rom_depth (program : list Z) : nat :=
  Z.to_nat (Z.max (Z.log2_up (Z.of_nat (length program))) 16).

Lemma rom_stored program :
  0 < Z.of_nat (length program) <= ROM_BYTES →
  let stored := Z.max (next_power_of_two (Z.of_nat (length program))) CPU_ADDRESS_SPACE_BYTES in
  (16 <= rom_depth program <= 20)%nat ∧ stored = 2 ^ Z.of_nat (rom_depth program) ∧
  Z.of_nat (length program) <= stored ∧
  checked_next_power_of_two (Z.of_nat (length program)) =
    Some (next_power_of_two (Z.of_nat (length program))).
Proof.
  unfold ROM_BYTES, CPU_ADDRESS_SPACE_BYTES, next_power_of_two, rom_depth, checked_next_power_of_two.
  set (n := Z.of_nat (length program)). intros Hn. cbv zeta.
  assert (Hu : 0 <= Z.log2_up n <= 20).
  { split; [apply Z.log2_up_nonneg |]. change 20 with (Z.log2_up (2 ^ 20)).
    apply Z.log2_up_le_mono. change (2 ^ 20) with 1048576. lia. }
  assert (Hle : n <= 2 ^ Z.log2_up n).
  { destruct (decide (n = 1)) as [-> | ?]; [done |]. apply Z.log2_up_spec. lia. }
  unfold next_power_of_two.
  assert (Hmax : Z.max (2 ^ Z.log2_up n) 65536 = 2 ^ Z.max (Z.log2_up n) 16).
  { change 65536 with (2 ^ 16). destruct (Z.max_spec (Z.log2_up n) 16) as [[? ->] | [? ->]].
    - apply Z.max_r, Z.pow_le_mono_r; lia.
    - apply Z.max_l, Z.pow_le_mono_r; lia. }
  rewrite Hmax, Z2Nat.id by lia. split; [lia |]. split; [done |]. split; [lia |].
  rewrite (proj2 (Z.ltb_lt _ _)); [done |]. apply Z.pow_lt_mono_r; lia.
Qed.

Lemma rom_new_ok program :
  0 < Z.of_nat (length program) <= ROM_BYTES →
  ∃ bytes, length bytes = (2 ^ rom_depth program)%nat ∧
    rom_new program = Ok (MkRom (tree_of Kind.Rom bytes (rom_depth program))) ∧
    ∀ i, bytes !! i = if (i <? 2 ^ rom_depth program)%nat then Some (default 0 (program !! i)) else None.
Proof.
  intros Hn. destruct (rom_stored program Hn) as (Hd & Hs & Hle & Hp). rewrite Hs in Hle.
  exists (resize program (2 ^ Z.of_nat (rom_depth program))).
  assert (Hlen : length (resize program (2 ^ Z.of_nat (rom_depth program))) = (2 ^ rom_depth program)%nat).
  { apply Nat2Z.inj. rewrite resize_length by done. by rewrite Nat2Z.inj_pow. }
  split; [done |]. split.
  - unfold rom_new. rewrite (proj2 (Z.eqb_neq _ _)) by lia. rewrite (proj2 (Z.ltb_ge _ _)) by lia.
    rewrite Hp. cbn [ok_or mbind result_bind]. rewrite Hs. by rewrite (tree_build_of _ _ (rom_depth program)).
  - intros i. destruct (Nat.ltb_spec i (2 ^ rom_depth program)) as [Hi | Hi].
    + unfold resize. destruct (decide (i < length program)%nat) as [Hlt | Hge].
      * rewrite lookup_app_l by done. destruct (lookup_lt_is_Some_2 program i Hlt) as [x Hx]. by rewrite Hx.
      * rewrite (lookup_ge_None_2 program) by lia. rewrite lookup_app_r by lia. cbn [default from_option].
        apply lookup_replicate. split; [done |]. rewrite <- Hlen in Hi. unfold resize in Hi.
        rewrite length_app, length_replicate in Hi. lia.
    + apply lookup_ge_None_2. by rewrite Hlen.
Qed.

Lemma tree_read_outside k bytes d p :
  length bytes = (2 ^ d)%nat → 2 ^ Z.of_nat d <= p → tree_read (tree_of k bytes d) p = Err TreeErr.TreeShape.
Proof.
  intros Hl Hp. unfold tree_read, tree_of. cbn [tree_bytes]. unfold get.
  rewrite lookup_ge_None_2; [done |]. rewrite Hl. apply Nat2Z.inj_le.
  rewrite Nat2Z.inj_pow, Z2Nat.id by lia. done.
Qed.

Lemma pow2_20 d p : (d <= 20)%nat → p < 2 ^ Z.of_nat d → p < 2 ^ 20.
Proof.
  intros Hd Hp. apply (Z.lt_le_trans _ _ _ Hp). apply Z.pow_le_mono_r; lia.
Qed.

(** The byte strings hashed to open an address of the tree over [bytes]: the leaf and the nodes of the path
    the image serves. *)
Definition opening (k : TreeKind) (bytes : list Z) (d : nat) (p : Z) : list (list Z) :=
  match tree_read (tree_of k bytes d) p with
  | Ok (v, path) => root_inputs (leaf_domain k) (node_domain k) p v path
  | Err _ => []
  end.
Lemma honest_or_collision `{!Sha256Digest} k bytes d p v v' path' :
  (16 <= d <= 20)%nat → length bytes = (2 ^ d)%nat → 0 <= p → bytes !! Z.to_nat p = Some v →
  path_ok path' → kind_root k p v' path' = root_of k bytes d →
  (v' = v ∧ ∀ w, kind_root k p w path' = root_of k (<[Z.to_nat p := w]> bytes) d) ∨
  collides (opening k bytes d p) (root_inputs (leaf_domain k) (node_domain k) p v' path').
Proof.
  intros Hd Hl Hp Hv Hok' Hr'.
  destruct (tree_access k bytes d p v Hd Hl Hp Hv) as (path & Hread & Hok & Hr & Hw). unfold opening. rewrite Hread.
  rewrite <- Hr in Hr'. symmetry in Hr'. apply root_binding in Hr'; [| by destruct k | by destruct k | auto | done].
  destruct Hr' as [[<- <-] | Hc]; [left | by right]. split; [done |]. apply Hw.
Qed.

(** A program with zeros up to the mebibyte that the ROM root commits to. *)
Definition padded_program (program : list Z) : list Z := program ++ replicate (2 ^ TREE_DEPTH - length program) 0.
Lemma lookup_padded_program program p : Z.of_nat (length program) <= ROM_BYTES → 0 <= p < 2 ^ 20 →
  padded_program program !! Z.to_nat p = Some (default 0 (program !! Z.to_nat p)).
Proof.
  intros Hn Hp. unfold padded_program. destruct (program !! Z.to_nat p) as [v |] eqn:E; cbn [default].
  - rewrite lookup_app_l; [done | by apply lookup_lt_Some in E].
  - apply lookup_ge_None in E. rewrite lookup_app_r by lia. apply lookup_replicate. split; [done |].
    apply Nat2Z.inj_lt. assert (Z.of_nat (2 ^ TREE_DEPTH) = 2 ^ 20) by (by rewrite Nat2Z.inj_pow).
    unfold ROM_BYTES in Hn. change (2 ^ 20) with 1048576 in *. lia.
Qed.
Lemma length_padded_program program : Z.of_nat (length program) <= ROM_BYTES → length (padded_program program) = (2 ^ TREE_DEPTH)%nat.
Proof.
  intros Hn. unfold padded_program. rewrite length_app, length_replicate. apply Nat2Z.inj.
  assert (Z.of_nat (2 ^ TREE_DEPTH) = 2 ^ 20) by (by rewrite Nat2Z.inj_pow). unfold ROM_BYTES in Hn.
  change (2 ^ 20) with 1048576 in *. lia.
Qed.
Lemma rom_root_padded_program program image : 0 < Z.of_nat (length program) <= ROM_BYTES → rom_new program = Ok image →
  rom_image_root image = root_of Kind.Rom (padded_program program) TREE_DEPTH.
Proof.
  intros Hn Himg. destruct (rom_new_ok program Hn) as (bytes & Hl & Hnew & Hbytes).
  destruct (rom_stored program Hn) as (Hd & _). rewrite Hnew in Himg. injection Himg as <-.
  change (rom_image_root _) with (root_of Kind.Rom bytes (rom_depth program)).
  rewrite <- (root_padded Kind.Rom (TREE_DEPTH - rom_depth program) bytes (rom_depth program) Hl) by (unfold TREE_DEPTH; lia).
  replace (rom_depth program + (TREE_DEPTH - rom_depth program))%nat with TREE_DEPTH by (unfold TREE_DEPTH; lia).
  f_equal. apply list_eq_same_length with (n := (2 ^ TREE_DEPTH)%nat).
  - apply length_padded_program. lia.
  - rewrite length_app, length_replicate, Hl. assert (2 ^ rom_depth program <= 2 ^ TREE_DEPTH)%nat
      by (apply Nat.pow_le_mono_r; unfold TREE_DEPTH; lia). lia.
  - intros i x y Hi Hx Hy. assert (Hp : 0 <= Z.of_nat i < 2 ^ 20).
    { split; [lia |]. assert (E : Z.of_nat (2 ^ TREE_DEPTH) = 2 ^ 20) by (by rewrite Nat2Z.inj_pow). rewrite <- E. lia. }
    pose proof (lookup_padded_program program (Z.of_nat i) ltac:(lia) Hp) as Hf. rewrite Nat2Z.id in Hf.
    rewrite Hf in Hy. injection Hy as <-. destruct (decide (i < 2 ^ rom_depth program)%nat) as [Hlt | Hge].
    + rewrite lookup_app_l in Hx by lia. rewrite Hbytes, (proj2 (Nat.ltb_lt _ _)) in Hx by done. congruence.
    + rewrite lookup_app_r in Hx by lia. apply lookup_replicate in Hx as [-> _].
      rewrite (lookup_ge_None_2 program); [done |]. assert (Hs : Z.of_nat (length program) <= Z.of_nat (2 ^ rom_depth program)).
      { destruct (rom_stored program Hn) as (_ & Hst & Hle & _). rewrite Hst in Hle. by rewrite Nat2Z.inj_pow. }
      lia.
Qed.

(** What the opening of a program byte hashes, and what the verification of a ROM witness hashes. *)
Definition rom_opening (program : list Z) (p : Z) : list (list Z) := opening Kind.Rom (padded_program program) TREE_DEPTH p.
Definition rom_inputs (r : RomRead) : list (list Z) :=
  root_inputs Dom.RomLeaf Dom.RomNode (rr_physical_address r) (rr_value r) (rr_path r).

(** An accepted ROM witness carries the program byte. *)
Lemma rom_valid_value `{!Sha256Digest} program image r :
  0 < Z.of_nat (length program) <= ROM_BYTES → rom_new program = Ok image → path_ok (rr_path r) →
  0 <= rr_physical_address r → rom_valid r (rom_image_root image) →
  rr_value r = default 0 (program !! Z.to_nat (rr_physical_address r)) ∨
  collides (rom_opening program (rr_physical_address r)) (rom_inputs r).
Proof.
  intros Hn Himg Hok Hp (_ & Hlt & Hr). rewrite (rom_root_padded_program program image Hn Himg) in Hr.
  destruct (honest_or_collision Kind.Rom (padded_program program) TREE_DEPTH _ _ (rr_value r) (rr_path r) ltac:(unfold TREE_DEPTH; lia)
    (length_padded_program program ltac:(lia)) Hp (lookup_padded_program program _ ltac:(lia) (conj Hp Hlt)) Hok Hr) as [[E _] | Hc]; [by left | by right].
Qed.

(** C16. A ROM image is the program. Every non-empty program of at most one mebibyte has an image;
    each read it serves carries the program byte at the physical address (zero beyond the program)
    and is accepted against the image root; reads outside the stored bytes or outside the ROM window
    are refused; and any witness accepted for that root, at any address, carries the program byte there (zero
    beyond the program), unless what its verification hashes and what opening that byte of the program hashes
    contain a SHA-256 collision. *)
Theorem rom_image_authenticates `{!Sha256Digest} program :
  0 < Z.of_nat (length program) <= ROM_BYTES →
  ∃ image, rom_new program = Ok image ∧
    (∀ address physical, 0 <= physical →
       match rom_read_mapped image address physical with
       | Ok r => owner address = Own.Rom ∧ physical < 2 ^ Z.of_nat (rom_depth program) ∧
           rr_value r = default 0 (program !! Z.to_nat physical) ∧
           (rom_verify no_caches r (rom_image_root image)).1 = Ok ()
       | Err e => (owner address <> Own.Rom ∧ e = RomErr.AddressNotRom address) ∨
           (2 ^ Z.of_nat (rom_depth program) <= physical ∧ e = RomErr.PhysicalAddressOutOfRange physical)
       end) ∧
    (∀ r, path_ok (rr_path r) → 0 <= rr_physical_address r →
       (rom_verify no_caches r (rom_image_root image)).1 = Ok () →
       rr_value r = default 0 (program !! Z.to_nat (rr_physical_address r)) ∨
       collides (rom_opening program (rr_physical_address r)) (rom_inputs r)).
Proof.
  intros Hn. destruct (rom_new_ok program Hn) as (bytes & Hl & Hnew & Hbytes).
  destruct (rom_stored program Hn) as (Hd & _).
  assert (Hb : ∀ p, 0 <= p < 2 ^ Z.of_nat (rom_depth program) →
                    bytes !! Z.to_nat p = Some (default 0 (program !! Z.to_nat p))).
  { intros p Hp. rewrite Hbytes, (proj2 (Nat.ltb_lt _ _)); [done |].
    apply Nat2Z.inj_lt. rewrite Nat2Z.inj_pow, Z2Nat.id by lia. apply Hp. }
  eexists. split; [exact Hnew |]. split.
  - intros address p Hp. unfold rom_read_mapped. cbn [rom_tree].
    destruct (bool_decide_reflect (owner address = Own.Rom)) as [Ho | Ho]; cbn [negb]; [| by left].
    destruct (decide (p < 2 ^ Z.of_nat (rom_depth program))) as [Hlt | Hge].
    + destruct (tree_access Kind.Rom bytes _ p _ Hd Hl Hp (Hb p (conj Hp Hlt))) as (path & -> & _ & Hr & _).
      cbn. split; [done |]. split; [done |]. split; [done |].
      apply rom_verify_spec; [apply no_caches_ok |]. split; [done |].
      split; [by apply (pow2_20 (rom_depth program)); [lia |] | exact Hr].
    + rewrite tree_read_outside by (done || lia). cbn. right. split; [lia | done].
  - intros r Hok Hp Hv. apply rom_verify_spec in Hv; [| apply no_caches_ok].
    by apply (rom_valid_value program _ r Hn Hnew).
Qed.

(** ** Mutable memory as an array *)

Definition MEMORY_DEPTH : nat := 17.
Lemma memory_depth_bound : (16 <= MEMORY_DEPTH <= 20)%nat.
Proof. unfold MEMORY_DEPTH. lia. Qed.
Lemma memory_depth_pow : 2 ^ Z.of_nat MEMORY_DEPTH = MUTABLE_COMMITMENT_BYTES.
Proof. done. Qed.
#[local] Opaque MEMORY_DEPTH.
Definition image_of (bytes : list Z) : MemoryImage := MkMemory (tree_of Kind.Memory bytes MEMORY_DEPTH).
Definition memory_bytes (bytes : list Z) : Prop := length bytes = (2 ^ MEMORY_DEPTH)%nat.

Lemma memory_bytes_length bytes :
  memory_bytes bytes ↔ Z.of_nat (length bytes) = MUTABLE_COMMITMENT_BYTES.
Proof.
  unfold memory_bytes. rewrite <- memory_depth_pow. change 2 with (Z.of_nat 2).
  rewrite <- Nat2Z.inj_pow, Nat2Z.inj_iff. done.
Qed.

Lemma memory_build_ok bytes : memory_bytes bytes → memory_build bytes = Ok (image_of bytes).
Proof.
  intros Hl. unfold memory_build. by rewrite (tree_build_of _ _ MEMORY_DEPTH memory_depth_bound Hl).
Qed.

Lemma memory_lookup bytes p :
  memory_bytes bytes → 0 <= p < MUTABLE_COMMITMENT_BYTES → ∃ v, bytes !! Z.to_nat p = Some v.
Proof. intros Hl%memory_bytes_length Hp. apply lookup_lt_is_Some_2. lia. Qed.

Lemma validate_owned address :
  validate_mutable_address address = if memory_owned address then Ok () else Err (MemErr.AddressNotMutable address).
Proof.
  unfold validate_mutable_address, memory_owned.
  by destruct (bool_decide (owner address = Own.Memory)), (bool_decide (dmg_owner address = Own.Memory)).
Qed.

(** C15. A memory image refines an array of 131072 bytes: it can be built from any such array and
    gives it back; a read returns the array's byte, and a write returns the array's byte as its prior
    value and leads to the image of the updated array; the witness of either is accepted by the
    verifier, a write yielding exactly the root of the new image; accesses to addresses not owned by
    memory, or beyond the array, are refused. *)
Theorem memory_image_refines bytes address physical after :
  memory_bytes bytes → 0 <= physical →
  from_checkpoint_bytes bytes = Ok (image_of bytes) ∧ checkpoint_bytes (image_of bytes) = bytes ∧
  match memory_read_mapped (image_of bytes) address physical with
  | Ok r => memory_owned address = true ∧ bytes !! Z.to_nat physical = Some (mr_value r) ∧
      (read_verify no_caches r (memory_image_root (image_of bytes))).1 = Ok ()
  | Err e => (memory_owned address = false ∧ e = MemErr.AddressNotMutable address) ∨
      (MUTABLE_COMMITMENT_BYTES <= physical ∧ e = MemErr.PhysicalAddressOutOfRange physical)
  end ∧
  match memory_write_mapped (image_of bytes) address physical after with
  | Ok (w, image') => memory_owned address = true ∧ bytes !! Z.to_nat physical = Some (mw_before w) ∧
      image' = image_of (<[Z.to_nat physical := after]> bytes) ∧
      (write_verify no_caches w (memory_image_root (image_of bytes))).1 = Ok (memory_image_root image')
  | Err e => (memory_owned address = false ∧ e = MemErr.AddressNotMutable address) ∨
      (MUTABLE_COMMITMENT_BYTES <= physical ∧ e = MemErr.PhysicalAddressOutOfRange physical)
  end.
Proof.
  intros Hl Hp. split; [| split; [done |]].
  { unfold from_checkpoint_bytes. rewrite (proj1 (memory_bytes_length bytes) Hl). by apply memory_build_ok. }
  unfold memory_read_mapped, memory_write_mapped, preview_write_mapped. rewrite validate_owned.
  destruct (memory_owned address) eqn:Ho; cbn [mbind result_bind]; [| split; by left].
  pose proof memory_depth_bound as Hd.
  destruct (decide (physical < MUTABLE_COMMITMENT_BYTES)) as [Hlt | Hge].
  - destruct (memory_lookup bytes physical Hl (conj Hp Hlt)) as [v Hv].
    destruct (tree_access Kind.Memory bytes MEMORY_DEPTH physical v Hd Hl Hp Hv) as (path & Hr & _ & Hroot & Hw).
    destruct (Hw after) as [Hwrite Hafter].
    cbn [image_of memory_tree]. rewrite Hr. cbn [map_err mbind result_bind]. rewrite Hwrite. cbn.
    assert (physical < 2 ^ 20) by (unfold MUTABLE_COMMITMENT_BYTES in Hlt; change (2 ^ 20) with 1048576; lia).
    split; (split; [done |]); (split; [done |]).
    + by apply read_verify_spec; [apply no_caches_ok |].
    + split; [done |]. by apply write_verify_spec; [apply no_caches_ok |].
  - cbn [image_of memory_tree]. rewrite (tree_read_outside _ _ _ _ Hl) by (rewrite memory_depth_pow; lia).
    cbn. split; right; (split; [lia | done]).
Qed.

(** ** Transcripts over an image *)

(** The array semantics of an access list: [None] when a recorded value is not the array's. *)
Fixpoint array_run (bytes : list Z) (l : list MemoryAccess) : option (list Z) :=
  match l with
  | [] => Some bytes
  | Read r :: l =>
      if bool_decide (bytes !! Z.to_nat (mr_physical_address r) = Some (mr_value r))
      then array_run bytes l else None
  | Write w :: l =>
      if bool_decide (bytes !! Z.to_nat (mw_physical_address w) = Some (mw_before w))
      then array_run (<[Z.to_nat (mw_physical_address w) := mw_after w]> bytes) l else None
  end.

(** Appending a list of accesses to a transcript, stopping at the first rejected one. *)
Fixpoint transcript_run (c : VerificationCaches) (t : MemoryTranscript) (l : list MemoryAccess) :
    result TErr.MemoryTranscriptError MemoryTranscript * VerificationCaches :=
  match l with
  | [] => (Ok t, c)
  | a :: l =>
      match (match a with Read r => transcript_read c t r | Write w => transcript_write c t w end) with
      | (Ok t, c) => transcript_run c t l
      | (Err e, c) => (Err e, c)
      end
  end.

(** An access inside the stored array, with a path of the declared shape. *)
Definition access_ok (a : MemoryAccess) : Prop :=
  match a with
  | Read r => path_ok (mr_path r) ∧ 0 <= mr_physical_address r < MUTABLE_COMMITMENT_BYTES
  | Write w => path_ok (mw_path w) ∧ 0 <= mw_physical_address w < MUTABLE_COMMITMENT_BYTES
  end.

(** A forgery: some access of the list, accepted on the bytes the accesses before it leave, was verified with
    strings that collide with those the image of these bytes hashes to open its address. *)
Definition access_physical (a : MemoryAccess) : Z :=
  match a with Read r => mr_physical_address r | Write w => mw_physical_address w end.
Definition access_inputs (a : MemoryAccess) : list (list Z) :=
  match a with
  | Read r => root_inputs Dom.MemoryLeaf Dom.MemoryNode (mr_physical_address r) (mr_value r) (mr_path r)
  | Write w => root_inputs Dom.MemoryLeaf Dom.MemoryNode (mw_physical_address w) (mw_before w) (mw_path w)
  end.
Definition forged (bytes : list Z) (l : list MemoryAccess) : Prop :=
  ∃ before a after bytes', l = before ++ a :: after ∧ array_run bytes before = Some bytes' ∧
    collides (opening Kind.Memory bytes' MEMORY_DEPTH (access_physical a)) (access_inputs a).
Lemma forged_here bytes a l :
  collides (opening Kind.Memory bytes MEMORY_DEPTH (access_physical a)) (access_inputs a) → forged bytes (a :: l).
Proof. intros Hc. by exists [], a, l, bytes. Qed.
Lemma forged_later bytes bytes1 a l : (∀ l, array_run bytes (a :: l) = array_run bytes1 l) → forged bytes1 l → forged bytes (a :: l).
Proof.
  intros Ha (before & b & after & bytes' & -> & Hr & Hc). exists (a :: before), b, after, bytes'. split; [done |]. by rewrite Ha.
Qed.

Lemma transcript_run_sound `{!Sha256Digest} l : ∀ c bytes t t',
  caches_ok c → memory_bytes bytes → Forall access_ok l →
  current_root t = memory_image_root (image_of bytes) →
  (transcript_run c t l).1 = Ok t' →
  (∃ bytes', array_run bytes l = Some bytes' ∧ memory_bytes bytes' ∧
     current_root t' = memory_image_root (image_of bytes') ∧ accesses t' = accesses t ++ l) ∨
  forged bytes l.
Proof.
  pose proof memory_depth_bound as Hd.
  induction l as [|a l IH]; intros c bytes t t' Hc Hl Hall Hroot Hrun.
  { cbn in Hrun. injection Hrun as <-. left. exists bytes. by rewrite app_nil_r. }
  apply Forall_cons in Hall as [Ha Hall]. cbn [transcript_run array_run] in *.
  destruct a as [r | w]; destruct Ha as [Hpath Hp];
    destruct (memory_lookup bytes _ Hl Hp) as [v Hv].
  - unfold transcript_read in Hrun. destruct (read_verify_spec c r (current_root t) Hc) as (Hc' & Hvalid & _).
    destruct (read_verify c r (current_root t)) as [[[] | e] c']; cbn [fst snd] in *; [| done].
    destruct (proj1 Hvalid eq_refl) as (_ & _ & Hr). rewrite Hroot in Hr.
    destruct (honest_or_collision Kind.Memory bytes MEMORY_DEPTH _ v _ _ Hd Hl (proj1 Hp) Hv Hpath Hr)
      as [[E _] | Hcol]; [| right; by apply forged_here].
    assert (Hstep : ∀ l, array_run bytes (Read r :: l) = array_run bytes l)
      by (intros l'; cbn [array_run]; by rewrite E, Hv, bool_decide_eq_true_2 by done).
    rewrite E, Hv, bool_decide_eq_true_2 by done.
    apply (IH c' bytes) in Hrun; try done.
    destruct Hrun as [(bytes' & Ha & Hl' & Hr' & Happ) | ?]; [left | right; by eapply forged_later].
    exists bytes'. cbn in Happ. by rewrite <- app_assoc in Happ.
  - unfold transcript_write in Hrun. destruct (write_verify_spec c w (current_root t) Hc) as (Hc' & Hvalid & _).
    destruct (write_verify c w (current_root t)) as [[root | e] c']; cbn [fst snd] in *; [| done].
    destruct (proj1 (Hvalid root) eq_refl) as (_ & _ & Hr & Hr2). rewrite Hroot in Hr.
    destruct (honest_or_collision Kind.Memory bytes MEMORY_DEPTH _ v _ _ Hd Hl (proj1 Hp) Hv Hpath Hr)
      as [[E Hw] | Hcol]; [| right; by apply forged_here].
    assert (Hstep : ∀ l, array_run bytes (Write w :: l) = array_run (<[Z.to_nat (mw_physical_address w) := mw_after w]> bytes) l)
      by (intros l'; cbn [array_run]; by rewrite E, Hv, bool_decide_eq_true_2 by done).
    rewrite E, Hv, bool_decide_eq_true_2 by done.
    apply (IH c' (<[Z.to_nat (mw_physical_address w) := mw_after w]> bytes)) in Hrun; try done.
    + destruct Hrun as [(bytes' & Ha & Hl' & Hr' & Happ) | ?]; [left | right; by eapply forged_later].
      exists bytes'. cbn in Happ. by rewrite <- app_assoc in Happ.
    + unfold memory_bytes. by rewrite length_insert.
    + cbn. rewrite <- Hr2. apply Hw.
Qed.

(** The witness an image produces for a write is accepted by a transcript at its root. *)
Lemma honest_write_accepted `{!Sha256Digest} bytes v after :
  memory_bytes bytes → bytes !! Z.to_nat 0xc000 = Some v →
  ∃ w t', Forall access_ok [Write w] ∧ mw_after w = after ∧
    (transcript_run no_caches (transcript_new (memory_image_root (image_of bytes))) [Write w]).1 = Ok t'.
Proof.
  intros Hl Hv. pose proof memory_depth_bound as Hd.
  destruct (tree_access Kind.Memory bytes MEMORY_DEPTH 0xc000 v Hd Hl ltac:(lia) Hv)
    as (path & _ & Hpath & Hroot & _).
  set (w := MkMemoryWrite 0xc000 0xc000 v after path).
  assert (Hw : (write_verify no_caches w (memory_image_root (image_of bytes))).1 =
               Ok (mutable_root 0xc000 after path)).
  { apply write_verify_spec; [apply no_caches_ok |]. split; [done |]. split; [done |]. by split. }
  exists w. cbn [transcript_run]. unfold transcript_write.
  change (current_root (transcript_new ?r)) with r.
  destruct (write_verify no_caches w _) as [res c]. cbn [fst] in Hw. subst res. eexists.
  split; [| split; [done | reflexivity]].
  constructor; [| constructor]. split; [by apply Hpath | unfold MUTABLE_COMMITMENT_BYTES; cbn; lia].
Qed.

(** Memory checking is sound. A transcript that starts at the root of an image and accepts every
    access of a list, whatever the verification caches contain, describes the array: each read
    carries the current byte, each write its prior byte, and the final root is the root of the
    updated array. Otherwise an access is forged: its verification
    and the opening of its address hash strings that collide. *)
Theorem memory_checking_sound `{!Sha256Digest} c bytes l t' :
  caches_ok c → memory_bytes bytes → Forall access_ok l →
  (transcript_run c (transcript_new (memory_image_root (image_of bytes))) l).1 = Ok t' →
  (∃ bytes', array_run bytes l = Some bytes' ∧
     current_root t' = memory_image_root (image_of bytes') ∧ accesses t' = l ∧
     initial_root t' = memory_image_root (image_of bytes)) ∨
  forged bytes l.
Proof.
  intros Hc Hl Hall Hrun.
  assert (Hinit : ∀ l c t, (transcript_run c t l).1 = Ok t' → initial_root t' = initial_root t).
  { clear. induction l as [|a l IH]; intros c t Hrun; cbn in Hrun; [by injection Hrun as <- |].
    destruct a as [r | w]; unfold transcript_read, transcript_write in Hrun;
      [destruct (read_verify _ _ _) as [[] ?] | destruct (write_verify _ _ _) as [[] ?]]; try done;
      by apply IH in Hrun. }
  apply Hinit in Hrun as Hi. apply (transcript_run_sound _ _ bytes) in Hrun; try done.
  destruct Hrun as [(bytes' & ? & ? & ? & ?) | ?]; [left | by right]. exists bytes'. auto.
Qed.
End image.

Section witnesses.
#[local] Existing Instance toy_sha256.
#[local] Existing Instance toy_sha256_length.

Definition zero_bytes : list Z := replicate (Z.to_nat MUTABLE_COMMITMENT_BYTES) 0.
Lemma zero_bytes_ok : memory_bytes zero_bytes.
Proof.
  apply memory_bytes_length. unfold zero_bytes.
  rewrite length_replicate, Z2Nat.id by (unfold MUTABLE_COMMITMENT_BYTES; lia). done.
Qed.
#[local] Opaque zero_bytes.

Lemma rom_image_authenticates_witness :
  ∃ image, rom_new [0x3e; 0x2a] = Ok image ∧
    match rom_read_mapped image 1 1 with
    | Ok r => owner 1 = Own.Rom ∧ 1 < 2 ^ Z.of_nat (rom_depth [0x3e; 0x2a]) ∧ rr_value r = 0x2a ∧
        (rom_verify no_caches r (rom_image_root image)).1 = Ok ()
    | Err e => (owner 1 <> Own.Rom ∧ e = RomErr.AddressNotRom 1) ∨
        (2 ^ Z.of_nat (rom_depth [0x3e; 0x2a]) <= 1 ∧ e = RomErr.PhysicalAddressOutOfRange 1)
    end.
Proof.
  destruct (rom_image_authenticates [0x3e; 0x2a]) as (image & Hn & Hr & _);
    [cbn; unfold ROM_BYTES; lia |].
  exists image. split; [exact Hn | exact (Hr 1 1 ltac:(lia))].
Defined.

Lemma memory_image_refines_witness :
  match memory_write_mapped (image_of zero_bytes) 0xc000 0xc000 7 with
  | Ok (w, image') => memory_owned 0xc000 = true ∧ zero_bytes !! Z.to_nat 0xc000 = Some (mw_before w) ∧
      image' = image_of (<[Z.to_nat 0xc000 := 7]> zero_bytes) ∧
      (write_verify no_caches w (memory_image_root (image_of zero_bytes))).1 = Ok (memory_image_root image')
  | Err e => (memory_owned 0xc000 = false ∧ e = MemErr.AddressNotMutable 0xc000) ∨
      (MUTABLE_COMMITMENT_BYTES <= 0xc000 ∧ e = MemErr.PhysicalAddressOutOfRange 0xc000)
  end.
Proof.
  pose proof (memory_image_refines zero_bytes 0xc000 0xc000 7 zero_bytes_ok ltac:(lia)) as Hw.
  destruct Hw as (_ & _ & _ & Hw). exact Hw.
Defined.

Lemma memory_checking_sound_witness :
  ∃ w t', mw_after w = 7 ∧
    (transcript_run no_caches (transcript_new (memory_image_root (image_of zero_bytes))) [Write w]).1 = Ok t' ∧
    ((∃ bytes', array_run zero_bytes [Write w] = Some bytes' ∧
        current_root t' = memory_image_root (image_of bytes') ∧ accesses t' = [Write w] ∧
        initial_root t' = memory_image_root (image_of zero_bytes)) ∨
     forged zero_bytes [Write w]).
Proof.
  destruct (memory_lookup zero_bytes 0xc000 zero_bytes_ok
    ltac:(unfold MUTABLE_COMMITMENT_BYTES; lia)) as [v Hv].
  destruct (honest_write_accepted zero_bytes v 7 zero_bytes_ok Hv) as (w & t' & Hok & Ha & Hrun).
  exists w, t'. split; [exact Ha |]. split; [exact Hrun |].
  exact (memory_checking_sound no_caches zero_bytes [Write w] t' no_caches_ok zero_bytes_ok Hok Hrun).
Defined.
End witnesses.
