(* ===== verification/Logs.v ===== *)
(** * Ordered logs and transcripts (crates/zksm83-memory/src/{log,bus_transcript,isa_transcript}.rs)

    Three hash chains: the input and output logs, the bus transcript and the ISA transcript. Each
    absorbs its running index with every element; one generic chain argument shows that a root binds
    the kind, the length, the order and every element. *)
From S2P Require Import Prelude Commitment.

(** ** Input and output logs *)

Module LogKind.
Inductive LogKind := Input | Output.
End LogKind.

Module LogErr.
Inductive LogError := IndexOverflow.
End LogErr.

Global Instance log_kind_eq_dec : EqDecision LogKind.LogKind.
Proof. solve_decision. Defined.

Record LogAccumulator := MkLog {
  log_kind : LogKind.LogKind; log_next_index : Z; log_root : CommitmentRoot
}.

(** ** Bus transcript *)

Record BusTranscriptEvent := MkBusEvent {
  bt_kind : Z; bt_address : Z; bt_physical_address : Z; bt_before : Z; bt_auxiliary : Z;
  bt_value : Z; bt_index : Z
}.

Module BusErr.
Inductive BusTranscriptError := IndexOverflow | NonCanonicalEvent.
End BusErr.

Record BusTranscriptAccumulator := MkBusTranscript {
  bus_next_index : Z; bus_root : CommitmentRoot
}.

Definition canonical_bytes (e : BusTranscriptEvent) (transcript_index : Z) : list Z :=
  [bt_kind e] ++ le_bytes 2 (bt_address e) ++ le_bytes 4 (bt_physical_address e) ++
  [bt_before e] ++ [bt_auxiliary e] ++ [bt_value e] ++ le_bytes 8 (bt_index e) ++
  le_bytes 8 transcript_index.

(** ** ISA transcript *)

Definition PACKED_ROW_BITS : Z := 106.
Definition PACKED_ROW_LIMIT : Z := Z.shiftl 1 PACKED_ROW_BITS.

Module IsaErr.
Inductive IsaTranscriptError := IndexOverflow | NonCanonicalRow.
End IsaErr.

Record IsaTranscriptAccumulator := MkIsaTranscript {
  isa_next_index : Z; isa_root : CommitmentRoot
}.

Section logs.
Context `{Sha256}.

Definition log_empty (kind : LogKind.LogKind) : LogAccumulator :=
  let domain :=
    match kind with LogKind.Input => Dom.InputEmpty | LogKind.Output => Dom.OutputEmpty end in
  MkLog kind 0 (hash_parts domain [] []).

Definition log_append (l : LogAccumulator) (value : Z) : result LogErr.LogError LogAccumulator :=
  next_index ← ok_or (checked_add_u64 (log_next_index l) 1) LogErr.IndexOverflow;
  let domain :=
    match log_kind l with
    | LogKind.Input => Dom.InputElement | LogKind.Output => Dom.OutputElement
    end in
  let element := le_bytes 8 (log_next_index l) ++ [value] in
  let root := hash_parts domain (log_root l) element in
  Ok (MkLog (log_kind l) next_index root).

(** [Iterator::try_fold] *)
Fixpoint log_append_all (l : LogAccumulator) (values : list Z) : result LogErr.LogError LogAccumulator :=
  match values with
  | [] => Ok l
  | value :: values => l ← log_append l value; log_append_all l values
  end.

Definition log_commit (kind : LogKind.LogKind) (values : list Z) :
    result LogErr.LogError LogAccumulator := log_append_all (log_empty kind) values.

Definition bus_empty : BusTranscriptAccumulator :=
  MkBusTranscript 0 (hash_parts Dom.BusTranscriptEmpty [] []).

Definition bus_append (a : BusTranscriptAccumulator) (e : BusTranscriptEvent) :
    result BusErr.BusTranscriptError BusTranscriptAccumulator :=
  if (19 <=? bt_kind e) || (Z.shiftl 1 20 <=? bt_physical_address e) then
    Err BusErr.NonCanonicalEvent
  else
    next_index ← ok_or (checked_add_u64 (bus_next_index a) 1) BusErr.IndexOverflow;
    let encoded := canonical_bytes e (bus_next_index a) in
    let root := hash_parts Dom.BusTranscriptElement (bus_root a) encoded in
    Ok (MkBusTranscript next_index root).

Definition isa_empty : IsaTranscriptAccumulator :=
  MkIsaTranscript 0 (hash_parts Dom.IsaTranscriptEmpty [] []).

Definition isa_append (a : IsaTranscriptAccumulator) (packed_row : Z) :
    result IsaErr.IsaTranscriptError IsaTranscriptAccumulator :=
  if PACKED_ROW_LIMIT <=? packed_row then Err IsaErr.NonCanonicalRow
  else
    next_index ← ok_or (checked_add_u64 (isa_next_index a) 1) IsaErr.IndexOverflow;
    let row := le_bytes 8 (isa_next_index a) ++ le_bytes 16 packed_row in
    let root := hash_parts Dom.IsaTranscriptElement (isa_root a) row in
    Ok (MkIsaTranscript next_index root).

Fixpoint bus_append_all (a : BusTranscriptAccumulator) (l : list BusTranscriptEvent) :=
  match l with [] => Ok a | e :: l => a ← bus_append a e; bus_append_all a l end.
Fixpoint isa_append_all (a : IsaTranscriptAccumulator) (l : list Z) :=
  match l with [] => Ok a | r :: l => a ← isa_append a r; isa_append_all a l end.

(** ** The generic chain *)

Section chain.
Context {A : Type} (start element : HashDomain) (encode : Z → A → list Z) (good : A → Prop).
Context (Hstart : domain_ok start) (Helement : domain_ok element) (Hsep : start <> element)
  (Hpart : ∀ i x, part_ok (encode i x))
  (Hinj : ∀ i j x y, is_u64 i → is_u64 j → good x → good y →
    encode i x = encode j y → i = j ∧ x = y).

(** The root after absorbing a list whose first element is the last absorbed. *)
Fixpoint chain (rev_items : list A) : CommitmentRoot :=
  match rev_items with
  | [] => hash_parts start [] []
  | x :: l => hash_parts element (chain l) (encode (Z.of_nat (length l)) x)
  end.

Lemma chain_length `{!Sha256Digest} l : length (chain l) = 32%nat.
Proof. destruct l; apply hash_parts_length. Qed.

Lemma chain_part `{!Sha256Digest} l : part_ok (chain l).
Proof. unfold part_ok. by rewrite chain_length. Qed.

(** The byte strings hashed to absorb it. *)
Fixpoint chain_inputs (rev_items : list A) : list (list Z) :=
  match rev_items with
  | [] => [hash_input start [] []]
  | x :: l => hash_input element (chain l) (encode (Z.of_nat (length l)) x) :: chain_inputs l
  end.

Lemma chain_binding `{!Sha256Digest} l : ∀ l',
  Forall good l → Forall good l' →
  is_u64 (Z.of_nat (length l)) → is_u64 (Z.of_nat (length l')) →
  chain l = chain l' → l = l' ∨ collides (chain_inputs l) (chain_inputs l').
Proof.
  induction l as [|x l IH]; intros [|x' l'] Hg Hg' Hl Hl' He; [by left | | |].
  - right. apply hash_parts_inj in He as [(? & _) | ?]; try done; try apply chain_part; try apply Hpart.
    by apply collides_head.
  - right. apply hash_parts_inj in He as [(? & _) | ?]; try done; try apply chain_part; try apply Hpart.
    by apply collides_head.
  - apply Forall_cons in Hg as [Hx Hg]. apply Forall_cons in Hg' as [Hx' Hg']. cbn [length] in *.
    apply hash_parts_inj in He as [(_ & Hc & He) | ?]; try done; try apply chain_part; try apply Hpart;
      [| right; by apply collides_head].
    apply Hinj in He as [Hi ->]; [| lia | lia | done | done].
    destruct (IH l') as [-> | ?]; auto; try lia. right. by apply collides_cons.
Qed.
End chain.

(** Chains of disjoint domains never share a root without a collision. *)
Lemma chain_disjoint `{!Sha256Digest} {A B} s e s' e' (enc : Z → A → list Z) (enc' : Z → B → list Z) l l' :
  domain_ok s → domain_ok e → domain_ok s' → domain_ok e' →
  s <> s' → s <> e' → e <> s' → e <> e' →
  (∀ i x, part_ok (enc i x)) → (∀ i x, part_ok (enc' i x)) →
  chain s e enc l = chain s' e' enc' l' → collides (chain_inputs s e enc l) (chain_inputs s' e' enc' l').
Proof.
  intros ? ? ? ? ? ? ? ? Hp Hp' He.
  destruct l, l'; cbn [chain chain_inputs] in *; apply hash_parts_inj in He as [(? & _) | ?];
    try done; try apply chain_part; auto; by apply collides_head.
Qed.

(** ** Input and output logs *)

Definition log_start (k : LogKind.LogKind) : HashDomain :=
  match k with LogKind.Input => Dom.InputEmpty | LogKind.Output => Dom.OutputEmpty end.
Definition log_element (k : LogKind.LogKind) : HashDomain :=
  match k with LogKind.Input => Dom.InputElement | LogKind.Output => Dom.OutputElement end.
Definition log_encode (i : Z) (value : Z) : list Z := le_bytes 8 i ++ [value].
Definition log_chain (k : LogKind.LogKind) (l : list Z) : CommitmentRoot :=
  chain (log_start k) (log_element k) log_encode l.

Lemma short_part (l : list Z) : (length l < 256)%nat → part_ok l.
Proof. unfold part_ok. intros. apply (Z.lt_trans _ 256); [lia | done]. Qed.

Lemma log_encode_part i x : part_ok (log_encode i x).
Proof. apply short_part. unfold log_encode. rewrite length_app, le_bytes_length. cbn. lia. Qed.

Lemma log_encode_inj i j x y :
  is_u64 i → is_u64 j → log_encode i x = log_encode j y → i = j ∧ x = y.
Proof.
  intros Hi Hj Heq. apply app_inj_1 in Heq as [He [= ->]]; [| by rewrite !le_bytes_length].
  split; [| done]. by apply (le_bytes_inj 8).
Qed.

Lemma log_append_chain k prev values :
  Z.of_nat (length prev + length values) < 2 ^ 64 →
  log_append_all (MkLog k (Z.of_nat (length prev)) (log_chain k prev)) values =
  Ok (MkLog k (Z.of_nat (length prev + length values)) (log_chain k (rev values ++ prev))).
Proof.
  change (2 ^ 64) with 18446744073709551616. revert prev.
  induction values as [|v values IH]; intros prev Hl; cbn [log_append_all length rev] in *.
  { by rewrite Nat.add_0_r. }
  unfold log_append. cbn [log_next_index log_kind log_root]. unfold checked_add_u64.
  rewrite (proj2 (Z.ltb_lt _ _)) by lia. cbn [ok_or mbind result_bind].
  change (match k with LogKind.Input => Dom.InputElement | LogKind.Output => Dom.OutputElement end)
    with (log_element k).
  replace (Z.of_nat (length prev) + 1) with (Z.of_nat (length (v :: prev))) by (cbn [length]; lia).
  change (hash_parts (log_element k) (log_chain k prev) (le_bytes 8 (Z.of_nat (length prev)) ++ [v]))
    with (log_chain k (v :: prev)).
  rewrite IH by (cbn [length]; lia). rewrite <- app_assoc. cbn [length app].
  by replace (S (length prev) + length values)%nat with (length prev + S (length values))%nat by lia.
Qed.

Lemma log_commit_chain k values :
  Z.of_nat (length values) < 2 ^ 64 →
  log_commit k values = Ok (MkLog k (Z.of_nat (length values)) (log_chain k (rev values))).
Proof.
  intros Hl. pose proof (log_append_chain k [] values Hl) as E. by rewrite app_nil_r in E.
Qed.

(** The byte strings hashed to commit to a list, and to absorb bus events and ISA rows. *)
Definition log_inputs (k : LogKind.LogKind) (values : list Z) : list (list Z) :=
  chain_inputs (log_start k) (log_element k) log_encode (rev values).

(** Log commitments bind kind, order and content: committing any list that a 64-bit index can
    count succeeds with the list's length as next index, and two logs with the same root are logs of
    the same kind over the same list, unless their inputs contain a SHA-256 collision. *)
Theorem log_commit_binding `{!Sha256Digest} k k' values values' :
  Z.of_nat (length values) < 2 ^ 64 → Z.of_nat (length values') < 2 ^ 64 →
  ∃ a a', log_commit k values = Ok a ∧ log_commit k' values' = Ok a' ∧
    log_kind a = k ∧ log_next_index a = Z.of_nat (length values) ∧
    (log_root a = log_root a' → (k = k' ∧ values = values') ∨ collides (log_inputs k values) (log_inputs k' values')).
Proof.
  intros Hl Hl'. rewrite !log_commit_chain by done. eexists _, _.
  split; [reflexivity |]. split; [reflexivity |]. split; [done |]. split; [done |]. cbn.
  change (2 ^ 64) with 18446744073709551616 in *. intros He.
  destruct (decide (k = k')) as [<- | Hk].
  - apply (chain_binding _ _ _ (λ _, True)) in He; try assumption.
    + destruct He as [He | ?]; [left | by right]. split; [done |].
      rewrite <- (rev_involutive values), He. apply rev_involutive.
    + by destruct k.
    + by destruct k.
    + by destruct k.
    + intros. apply log_encode_part.
    + intros i j x y Hi Hj _ _. by apply log_encode_inj.
    + by apply Forall_true.
    + by apply Forall_true.
    + rewrite length_rev. lia.
    + rewrite length_rev. lia.
  - right. unfold log_chain in He.
    apply chain_disjoint in He; try done; try (by destruct k); try (by destruct k');
      try (by destruct k, k'); intros; apply log_encode_part.
Qed.

(** ** Bus and ISA transcripts *)

Record event_ok (e : BusTranscriptEvent) : Prop := {
  ok_kind : 0 <= bt_kind e < 19;
  ok_address : is_u16 (bt_address e);
  ok_physical : 0 <= bt_physical_address e < 2 ^ 20;
  ok_index : is_u64 (bt_index e)
}.

Lemma le_split n i j (r r' : list Z) :
  0 <= i < 2 ^ (8 * Z.of_nat n) → 0 <= j < 2 ^ (8 * Z.of_nat n) →
  le_bytes n i ++ r = le_bytes n j ++ r' → i = j ∧ r = r'.
Proof. intros Hi Hj He. apply (app_framed_inj n i j [] [] r r') in He as (-> & _ & ->); auto. Qed.

Lemma canonical_bytes_inj i j e e' :
  is_u64 i → is_u64 j → event_ok e → event_ok e' →
  canonical_bytes e i = canonical_bytes e' j → i = j ∧ e = e'.
Proof.
  intros Hi Hj [Hk Ha Hp Hx] [Hk' Ha' Hp' Hx'] He. unfold canonical_bytes in He.
  change (2 ^ 20) with 1048576 in *.
  apply cons_eq_inj in He as [Ek He].
  apply (le_split 2) in He as [Ea He]; [| done | done].
  apply (le_split 4) in He as [Ep He];
    [| change (2 ^ (8 * Z.of_nat 4)) with 4294967296; lia | change (2 ^ (8 * Z.of_nat 4)) with 4294967296; lia].
  apply cons_eq_inj in He as [Eb He]. apply cons_eq_inj in He as [Eu He].
  apply cons_eq_inj in He as [Ev He]. apply (le_split 8) in He as [Ex He]; [| done | done].
  apply (le_bytes_inj 8) in He; [| done | done]. split; [done |].
  destruct e, e'; cbn in *. by subst.
Qed.

Definition bus_chain (l : list BusTranscriptEvent) : CommitmentRoot :=
  chain Dom.BusTranscriptEmpty Dom.BusTranscriptElement (λ i e, canonical_bytes e i) l.

Definition bus_inputs (l : list BusTranscriptEvent) : list (list Z) :=
  chain_inputs Dom.BusTranscriptEmpty Dom.BusTranscriptElement (λ i e, canonical_bytes e i) (rev l).

Lemma bus_append_chain prev l :
  Forall event_ok l → Z.of_nat (length prev + length l) < 2 ^ 64 →
  bus_append_all (MkBusTranscript (Z.of_nat (length prev)) (bus_chain prev)) l =
  Ok (MkBusTranscript (Z.of_nat (length prev + length l)) (bus_chain (rev l ++ prev))).
Proof.
  change (2 ^ 64) with 18446744073709551616. revert prev.
  induction l as [|e l IH]; intros prev Hok Hl; cbn [bus_append_all length rev] in *.
  { by rewrite Nat.add_0_r. }
  apply Forall_cons in Hok as [He Hok]. unfold bus_append. rewrite Z.shiftl_1_l.
  rewrite (proj2 (Z.leb_gt _ _)) by apply He. rewrite (proj2 (Z.leb_gt _ _)) by apply He. cbn [orb].
  cbn [bus_next_index bus_root]. unfold checked_add_u64.
  rewrite (proj2 (Z.ltb_lt _ _)) by lia. cbn [ok_or mbind result_bind].
  replace (Z.of_nat (length prev) + 1) with (Z.of_nat (length (e :: prev))) by (cbn [length]; lia).
  change (hash_parts Dom.BusTranscriptElement (bus_chain prev) (canonical_bytes e (Z.of_nat (length prev))))
    with (bus_chain (e :: prev)).
  rewrite IH by (done || cbn [length]; lia). rewrite <- app_assoc. cbn [length app].
  by replace (S (length prev) + length l)%nat with (length prev + S (length l))%nat by lia.
Qed.

Definition isa_chain (l : list Z) : CommitmentRoot :=
  chain Dom.IsaTranscriptEmpty Dom.IsaTranscriptElement (λ i r, le_bytes 8 i ++ le_bytes 16 r) l.

Definition isa_inputs (l : list Z) : list (list Z) :=
  chain_inputs Dom.IsaTranscriptEmpty Dom.IsaTranscriptElement (λ i r, le_bytes 8 i ++ le_bytes 16 r) (rev l).

Lemma isa_append_chain prev l :
  Forall (λ r, 0 <= r < PACKED_ROW_LIMIT) l → Z.of_nat (length prev + length l) < 2 ^ 64 →
  isa_append_all (MkIsaTranscript (Z.of_nat (length prev)) (isa_chain prev)) l =
  Ok (MkIsaTranscript (Z.of_nat (length prev + length l)) (isa_chain (rev l ++ prev))).
Proof.
  change (2 ^ 64) with 18446744073709551616. revert prev.
  induction l as [|r l IH]; intros prev Hok Hl; cbn [isa_append_all length rev] in *.
  { by rewrite Nat.add_0_r. }
  apply Forall_cons in Hok as [Hr Hok]. unfold isa_append.
  rewrite (proj2 (Z.leb_gt _ _)) by apply Hr. cbn [isa_next_index isa_root]. unfold checked_add_u64.
  rewrite (proj2 (Z.ltb_lt _ _)) by lia. cbn [ok_or mbind result_bind].
  replace (Z.of_nat (length prev) + 1) with (Z.of_nat (length (r :: prev))) by (cbn [length]; lia).
  change (hash_parts Dom.IsaTranscriptElement (isa_chain prev) (le_bytes 8 (Z.of_nat (length prev)) ++ le_bytes 16 r))
    with (isa_chain (r :: prev)).
  rewrite IH by (done || cbn [length]; lia). rewrite <- app_assoc. cbn [length app].
  by replace (S (length prev) + length l)%nat with (length prev + S (length l))%nat by lia.
Qed.

Lemma rev_eq {A} (l l' : list A) : rev l = rev l' → l = l'.
Proof. intros E. rewrite <- (rev_involutive l), E. apply rev_involutive. Qed.

Lemma bus_root_binding `{!Sha256Digest} l l' :
  Forall event_ok l → Forall event_ok l' → Z.of_nat (length l) < 2 ^ 64 → Z.of_nat (length l') < 2 ^ 64 →
  bus_chain (rev l) = bus_chain (rev l') → l = l' ∨ collides (bus_inputs l) (bus_inputs l').
Proof.
  intros Hg Hg' Hl Hl' He. change (2 ^ 64) with 18446744073709551616 in *.
  apply (chain_binding _ _ _ event_ok) in He; try assumption; try done.
  - destruct He as [He%rev_eq | ?]; auto.
  - intros. by apply canonical_bytes_inj.
  - by apply Forall_rev.
  - by apply Forall_rev.
  - rewrite length_rev. lia.
  - rewrite length_rev. lia.
Qed.

Lemma isa_root_binding `{!Sha256Digest} l l' :
  Forall (λ r, 0 <= r < PACKED_ROW_LIMIT) l → Forall (λ r, 0 <= r < PACKED_ROW_LIMIT) l' →
  Z.of_nat (length l) < 2 ^ 64 → Z.of_nat (length l') < 2 ^ 64 →
  isa_chain (rev l) = isa_chain (rev l') → l = l' ∨ collides (isa_inputs l) (isa_inputs l').
Proof.
  intros Hg Hg' Hl Hl' He. change (2 ^ 64) with 18446744073709551616 in *.
  apply (chain_binding _ _ _ (λ r, 0 <= r < PACKED_ROW_LIMIT)) in He; try assumption; try done.
  - destruct He as [He%rev_eq | ?]; auto.
  - intros i j x y Hi Hj Hx Hy Eq. apply (le_split 8) in Eq as [-> Eq]; [| done | done].
    split; [done |]. unfold PACKED_ROW_LIMIT in *.
    assert (Hlim : Z.shiftl 1 PACKED_ROW_BITS < 2 ^ (8 * Z.of_nat 16)) by done.
    apply (le_bytes_inj 16) in Eq; [done | lia | lia].
  - by apply Forall_rev.
  - by apply Forall_rev.
  - rewrite length_rev. lia.
  - rewrite length_rev. lia.
Qed.

(** The proof relation's transcripts bind their rows: every list of canonical bus events, and
    every list of ISA rows below [2 ^ 106], can be absorbed, with the number of rows as next index,
    and equal roots mean equal lists in the same order or a SHA-256 collision; a non-canonical
    event or row is refused. *)
Theorem transcript_binding `{!Sha256Digest} :
  (∀ l l', Forall event_ok l → Forall event_ok l' →
     Z.of_nat (length l) < 2 ^ 64 → Z.of_nat (length l') < 2 ^ 64 →
     ∃ a a', bus_append_all bus_empty l = Ok a ∧ bus_append_all bus_empty l' = Ok a' ∧
       bus_next_index a = Z.of_nat (length l) ∧
       (bus_root a = bus_root a' → l = l' ∨ collides (bus_inputs l) (bus_inputs l'))) ∧
  (∀ l l', Forall (λ r, 0 <= r < PACKED_ROW_LIMIT) l → Forall (λ r, 0 <= r < PACKED_ROW_LIMIT) l' →
     Z.of_nat (length l) < 2 ^ 64 → Z.of_nat (length l') < 2 ^ 64 →
     ∃ a a', isa_append_all isa_empty l = Ok a ∧ isa_append_all isa_empty l' = Ok a' ∧
       isa_next_index a = Z.of_nat (length l) ∧
       (isa_root a = isa_root a' → l = l' ∨ collides (isa_inputs l) (isa_inputs l'))) ∧
  (∀ a e, 19 <= bt_kind e ∨ 2 ^ 20 <= bt_physical_address e →
     bus_append a e = Err BusErr.NonCanonicalEvent) ∧
  (∀ a r, PACKED_ROW_LIMIT <= r → isa_append a r = Err IsaErr.NonCanonicalRow).
Proof.
  split; [| split; [| split]].
  - intros l l' Hg Hg' Hl Hl'.
    pose proof (bus_append_chain [] l Hg Hl) as E. pose proof (bus_append_chain [] l' Hg' Hl') as E'.
    rewrite app_nil_r in E, E'. eexists _, _. split; [exact E |]. split; [exact E' |].
    split; [done |]. cbn [bus_root]. by apply bus_root_binding.
  - intros l l' Hg Hg' Hl Hl'.
    pose proof (isa_append_chain [] l Hg Hl) as E. pose proof (isa_append_chain [] l' Hg' Hl') as E'.
    rewrite app_nil_r in E, E'. eexists _, _. split; [exact E |]. split; [exact E' |].
    split; [done |]. cbn [isa_root]. by apply isa_root_binding.
  - intros a e Hbad. unfold bus_append. rewrite Z.shiftl_1_l.
    destruct (Z.leb_spec 19 (bt_kind e)), (Z.leb_spec (2 ^ 20) (bt_physical_address e)); cbn; done || lia.
  - intros a r Hbad. unfold isa_append. by rewrite (proj2 (Z.leb_le _ _)).
Qed.
End logs.

Section witnesses.
#[local] Existing Instance toy_sha256.
#[local] Existing Instance toy_sha256_length.

Lemma log_commit_binding_witness :
  ∃ a a', log_commit LogKind.Input [1; 2] = Ok a ∧ log_commit LogKind.Input [1; 2] = Ok a' ∧
    log_kind a = LogKind.Input ∧ log_next_index a = Z.of_nat (length [1; 2]) ∧
    (log_root a = log_root a' →
       (LogKind.Input = LogKind.Input ∧ [1; 2] = [1; 2]) ∨
       collides (log_inputs LogKind.Input [1; 2]) (log_inputs LogKind.Input [1; 2])).
Proof. exact (log_commit_binding LogKind.Input LogKind.Input [1; 2] [1; 2] eq_refl eq_refl). Defined.

Lemma transcript_binding_witness :
  let e := MkBusEvent 4 0xc123 0xc123 0 0 7 0 in
  ∃ a a', bus_append_all bus_empty [e] = Ok a ∧ bus_append_all bus_empty [e; e] = Ok a' ∧
    bus_next_index a = Z.of_nat (length [e]) ∧
    (bus_root a = bus_root a' → [e] = [e; e] ∨ collides (bus_inputs [e]) (bus_inputs [e; e])).
Proof.
  intros e. assert (He : event_ok e) by (split; cbn; lia).
  exact (proj1 transcript_binding [e] [e; e] ltac:(by repeat constructor)
           ltac:(by repeat constructor) eq_refl eq_refl).
Defined.
End witnesses.
