(* ===== verification/State.v ===== *)
(** * CPU and VM state (crates/zksm83-core/src/state.rs)

    Machine profiles, the CPU snapshot, the complete VM snapshot with its constructors, and the
    invariant every transition preserves. The flag register is the component of [Flags]. *)
From S2P Require Import Prelude Flags Mbc3 Timer Apu Device Commitment Logs.

(** ** Machine profiles *)

Module Profile.
Inductive MachineProfile :=
| CleanCoreV1
| DmgPostBootMbc3V1
| DmgPostBootMbc3Rom256KiBNoRtcV1
| DmgPostBootMbc3Rom256KiBRtcV1
| DmgPostBootMbc3Rom1MiBRtcV1.
End Profile.
Abbreviation MachineProfile := Profile.MachineProfile.

Definition profile_code (p : MachineProfile) : Z :=
  match p with
  | Profile.CleanCoreV1 => 0
  | Profile.DmgPostBootMbc3V1 => 1
  | Profile.DmgPostBootMbc3Rom256KiBNoRtcV1 => 2
  | Profile.DmgPostBootMbc3Rom256KiBRtcV1 => 3
  | Profile.DmgPostBootMbc3Rom1MiBRtcV1 => 4
  end.

Definition is_dmg_post_boot_mbc3 (p : MachineProfile) : bool :=
  match p with
  | Profile.CleanCoreV1 => false
  | Profile.DmgPostBootMbc3V1
  | Profile.DmgPostBootMbc3Rom256KiBNoRtcV1
  | Profile.DmgPostBootMbc3Rom256KiBRtcV1
  | Profile.DmgPostBootMbc3Rom1MiBRtcV1 => true
  end.

Definition mbc3_cartridge_profile (p : MachineProfile) : Mbc3CartridgeProfile :=
  match p with
  | Profile.CleanCoreV1 | Profile.DmgPostBootMbc3V1 => one_mib_no_rtc
  | Profile.DmgPostBootMbc3Rom256KiBNoRtcV1 => MkProfile RomSize.Rom256KiB Rtc.NoRtc
  | Profile.DmgPostBootMbc3Rom256KiBRtcV1 => MkProfile RomSize.Rom256KiB Rtc.RtcCapable
  | Profile.DmgPostBootMbc3Rom1MiBRtcV1 => MkProfile RomSize.Rom1MiB Rtc.RtcCapable
  end.

Definition dmg_post_boot_for_cartridge (profile : Mbc3CartridgeProfile) : MachineProfile :=
  match rom_size profile, rtc profile with
  | RomSize.Rom256KiB, Rtc.NoRtc => Profile.DmgPostBootMbc3Rom256KiBNoRtcV1
  | RomSize.Rom256KiB, Rtc.RtcCapable => Profile.DmgPostBootMbc3Rom256KiBRtcV1
  | RomSize.Rom1MiB, Rtc.NoRtc => Profile.DmgPostBootMbc3V1
  | RomSize.Rom1MiB, Rtc.RtcCapable => Profile.DmgPostBootMbc3Rom1MiBRtcV1
  end.

Record MachineContext := MkContext { mc_profile : MachineProfile; mc_dmg_devices : DmgDeviceState }.

(** ** CPU state *)

Record Registers := MkRegisters {
  reg_a : Z; reg_b : Z; reg_c : Z; reg_d : Z; reg_e : Z; reg_h : Z; reg_l : Z
}.

Module Ime.
Inductive ImeState := Disabled | EnablePending | Enabled.
End Ime.
Abbreviation ImeState := Ime.ImeState.

Definition ime_code (i : ImeState) : Z :=
  match i with Ime.Disabled => 0 | Ime.EnablePending => 1 | Ime.Enabled => 2 end.

Module Run.
Inductive RunState := Running | Halted | Stopped | HaltBug.
End Run.
Abbreviation RunState := Run.RunState.

Definition run_code (r : RunState) : Z :=
  match r with Run.Running => 0 | Run.Halted => 1 | Run.Stopped => 2 | Run.HaltBug => 3 end.

Definition can_execute_instruction (r : RunState) : bool :=
  match r with Run.Running | Run.HaltBug => true | _ => false end.

Record CpuState := MkCpu {
  registers : Registers; flags : Flags; pc : Z; sp : Z; ime : ImeState; run_state : RunState;
  m_cycles : Z
}.

Global Instance eta_registers : Eta Registers := λ r,
  MkRegisters (reg_a r) (reg_b r) (reg_c r) (reg_d r) (reg_e r) (reg_h r) (reg_l r).
Global Instance eta_cpu : Eta CpuState := λ c,
  MkCpu (registers c) (flags c) (pc c) (sp c) (ime c) (run_state c) (m_cycles c).

Global Instance profile_eq_dec : EqDecision MachineProfile.
Proof. solve_decision. Defined.
Global Instance ime_eq_dec : EqDecision ImeState.
Proof. solve_decision. Defined.
Global Instance run_state_eq_dec : EqDecision RunState.
Proof. solve_decision. Defined.

Module Cpu.
Definition profile_initial : CpuState :=
  MkCpu (MkRegisters 0 0 0 0 0 0 0) (MkFlags 0) 0 0xff00 Ime.Disabled Run.Running 0.
Definition dmg_post_boot_initial : CpuState :=
  MkCpu (MkRegisters 0x01 0x00 0x13 0x00 0xd8 0x01 0x4d) (MkFlags 0xb0) 0x0100 0xfffe
    Ime.Disabled Run.Running 0.
End Cpu.

(** ** VM state *)

Record VmState := MkVm {
  profile : MachineProfile; cpu : CpuState; mbc3 : Mbc3State; dmg_devices : DmgDeviceState;
  vm_rom_root : CommitmentRoot; memory_root : CommitmentRoot;
  input_log : LogAccumulator; output_log : LogAccumulator;
  bus_transcript : BusTranscriptAccumulator; isa_transcript : IsaTranscriptAccumulator
}.

Global Instance eta_vm : Eta VmState := λ s,
  MkVm (profile s) (cpu s) (mbc3 s) (dmg_devices s) (vm_rom_root s) (memory_root s) (input_log s)
    (output_log s) (bus_transcript s) (isa_transcript s).

Module VErr.
Inductive VmStateError :=
| InvalidFlags (value : Z)
| WrongInputLogDomain
| WrongOutputLogDomain
| InvalidMbc3 (e : MErr.Mbc3StateError)
| UnsupportedMachineProfile (profile : MachineProfile).
End VErr.

(** [Flags::from_byte] reports its failure as a [VmStateError]. *)
Definition flags_from_byte (value : Z) : result VErr.VmStateError Flags :=
  map_err (λ e, match e with InvalidFlags v => VErr.InvalidFlags v end) (from_byte value).

Module Vm.
Section constructors.
Context `{Sha256}.

Definition profile_initial (rom_root memory_root : CommitmentRoot) : VmState :=
  MkVm Profile.CleanCoreV1 Cpu.profile_initial Mbc3.profile_initial Device.empty rom_root memory_root
    (log_empty LogKind.Input) (log_empty LogKind.Output) bus_empty isa_empty.

Definition dmg_post_boot_mbc3_unchecked (profile : MachineProfile)
    (rom_root memory_root : CommitmentRoot) : VmState :=
  MkVm profile Cpu.dmg_post_boot_initial Mbc3.profile_initial Device.dmg_post_boot rom_root
    memory_root (log_empty LogKind.Input) (log_empty LogKind.Output) bus_empty isa_empty.

Definition dmg_post_boot_mbc3_initial (rom_root memory_root : CommitmentRoot) : VmState :=
  dmg_post_boot_mbc3_unchecked Profile.DmgPostBootMbc3V1 rom_root memory_root.

Definition dmg_post_boot_mbc3_profile_initial (profile : MachineProfile)
    (rom_root memory_root : CommitmentRoot) : result VErr.VmStateError VmState :=
  if negb (is_dmg_post_boot_mbc3 profile) then Err (VErr.UnsupportedMachineProfile profile)
  else Ok (dmg_post_boot_mbc3_unchecked profile rom_root memory_root).

Definition from_parts (cpu : CpuState) (rom_root memory_root : CommitmentRoot)
    (input_log output_log : LogAccumulator) : result VErr.VmStateError VmState :=
  if negb (bool_decide (log_kind input_log = LogKind.Input)) then Err VErr.WrongInputLogDomain
  else if negb (bool_decide (log_kind output_log = LogKind.Output)) then
    Err VErr.WrongOutputLogDomain
  else
    Ok (MkVm Profile.CleanCoreV1 cpu Mbc3.profile_initial Device.empty rom_root memory_root
          input_log output_log bus_empty isa_empty).

Definition from_parts_with_mbc3 (cpu : CpuState) (mbc3_state : Mbc3State)
    (rom_root memory_root : CommitmentRoot) (input_log output_log : LogAccumulator) :
    result VErr.VmStateError VmState :=
  state ← from_parts cpu rom_root memory_root input_log output_log;
  Ok (state <| mbc3 := mbc3_state |>).

Definition from_profile_parts (machine : MachineContext) (cpu : CpuState) (mbc3_state : Mbc3State)
    (rom_root memory_root : CommitmentRoot) (input_log output_log : LogAccumulator) :
    result VErr.VmStateError VmState :=
  state ← from_parts_with_mbc3 cpu mbc3_state rom_root memory_root input_log output_log;
  Ok (state <| profile := mc_profile machine |> <| dmg_devices := mc_dmg_devices machine |>).
End constructors.
End Vm.

(** ** The state invariant *)

Record registers_ok (r : Registers) : Prop := {
  ok_a : is_u8 (reg_a r); ok_b : is_u8 (reg_b r); ok_c : is_u8 (reg_c r); ok_d : is_u8 (reg_d r);
  ok_e : is_u8 (reg_e r); ok_h : is_u8 (reg_h r); ok_l : is_u8 (reg_l r)
}.

Record cpu_ok (c : CpuState) : Prop := {
  ok_registers : registers_ok (registers c);
  ok_flags : flags_ok (flags c);
  ok_pc : is_u16 (pc c);
  ok_sp : is_u16 (sp c);
  ok_m_cycles : is_u64 (m_cycles c)
}.

Record vm_ok (s : VmState) : Prop := {
  ok_cpu : cpu_ok (cpu s);
  ok_mbc3 : mbc3_ok (mbc3_cartridge_profile (profile s)) (mbc3 s);
  ok_devices : device_ok (dmg_devices s);
  ok_input_kind : log_kind (input_log s) = LogKind.Input;
  ok_output_kind : log_kind (output_log s) = LogKind.Output;
  ok_input_index : is_u64 (log_next_index (input_log s));
  ok_output_index : is_u64 (log_next_index (output_log s));
  ok_bus_index : is_u64 (bus_next_index (bus_transcript s));
  ok_isa_index : is_u64 (isa_next_index (isa_transcript s))
}.

Lemma cpu_initial_ok : cpu_ok Cpu.profile_initial.
Proof. split; [split | ..]; cbn; try lia. by split; cbn. Qed.
Lemma cpu_post_boot_ok : cpu_ok Cpu.dmg_post_boot_initial.
Proof. split; [split | ..]; cbn; try lia. by split; cbn. Qed.

Section initial.
Context `{Sha256}.

Lemma profile_initial_vm_ok rom mem : vm_ok (Vm.profile_initial rom mem).
Proof.
  split; cbn; auto using cpu_initial_ok, device_empty_ok, Mbc3.profile_initial_ok; lia.
Qed.
Lemma post_boot_vm_ok p rom mem : vm_ok (Vm.dmg_post_boot_mbc3_unchecked p rom mem).
Proof.
  split; cbn; auto using cpu_post_boot_ok, device_post_boot_ok, Mbc3.profile_initial_ok; lia.
Qed.
End initial.

Lemma profile_of_cartridge c : mbc3_cartridge_profile (dmg_post_boot_for_cartridge c) = c.
Proof. by destruct c as [[] []]. Qed.
