(* ===== verification/Bus.v ===== *)
(** * Bus events and the step executor (crates/zksm83-core/src/bus.rs)

    Witnesses, requests and ordered events; the errors of the transition relation; and the executor,
    an explicit state-and-error monad over the VM state, the unconsumed witnesses and the emitted
    events. Merkle authentication calls the verifiers of [Merkle] with empty caches: what a cache
    holds never changes a result ([Merkle.verification_caches_transparent]). *)
From S2P Require Import Prelude IsaTypes Metadata Alignment Address Commitment Merkle Logs Mbc3 Device.
From S2P Require Import State.

(** ** Witnesses *)

Module Role.
Inductive BusRole := OpcodeFetch | ImmediateRead | DataRead | DataWrite.
End Role.
Abbreviation BusRole := Role.BusRole.

Module Wit.
Inductive BusWitness :=
| Rom (read : RomRead)
| MemoryRead (read : Merkle.MemoryRead)
| MemoryWrite (write : Merkle.MemoryWrite)
| InputByte (value : Z).
End Wit.
Abbreviation BusWitness := Wit.BusWitness.

Module WK.
Inductive WitnessKind := Rom | MemoryRead | MemoryWrite | InputByte.
End WK.
Abbreviation WitnessKind := WK.WitnessKind.

Module Req.
Inductive WitnessRequest :=
| Rom (address physical_address : Z) (role : BusRole)
| MemoryRead (address physical_address : Z)
| MemoryWrite (address physical_address value : Z)
| InputByte.
End Req.
Abbreviation WitnessRequest := Req.WitnessRequest.

Definition witness_kind (w : BusWitness) : WitnessKind :=
  match w with
  | Wit.Rom _ => WK.Rom | Wit.MemoryRead _ => WK.MemoryRead | Wit.MemoryWrite _ => WK.MemoryWrite
  | Wit.InputByte _ => WK.InputByte
  end.

Definition request_kind (r : WitnessRequest) : WitnessKind :=
  match r with
  | Req.Rom _ _ _ => WK.Rom | Req.MemoryRead _ _ => WK.MemoryRead
  | Req.MemoryWrite _ _ _ => WK.MemoryWrite | Req.InputByte => WK.InputByte
  end.

Global Instance witness_kind_eq_dec : EqDecision WitnessKind.
Proof. solve_decision. Defined.

(** ** Events *)

Module Ev.
Inductive BusEvent :=
| OpcodeFetch (read : RomRead)
| ImmediateRead (read : RomRead)
| MemoryOpcodeFetch (read : Merkle.MemoryRead)
| MemoryImmediateRead (read : Merkle.MemoryRead)
| RomRead (read : Merkle.RomRead)
| MemoryRead (read : Merkle.MemoryRead)
| DmgDmaRomRead (read : Merkle.RomRead)
| DmgDmaMemoryRead (read : Merkle.MemoryRead)
| DmgDmaWrite (write : Merkle.MemoryWrite)
| MemoryWrite (write : Merkle.MemoryWrite)
| Mbc3ControlWrite (address value : Z)
| Mbc3OpenBusRead (address value : Z)
| Mbc3IgnoredWrite (address value : Z)
| InputRead (index value : Z)
| OutputWrite (index value : Z)
| DmgMmioRead (address value : Z)
| DmgMmioWrite (address before value : Z)
| DmgJoypadRead (index before_buttons buttons value : Z).
End Ev.
Abbreviation BusEvent := Ev.BusEvent.

Module EK.
Inductive BusEventKind :=
| Unused | OpcodeFetch | ImmediateRead | RomRead | MemoryRead | MemoryWrite | InputRead
| OutputWrite | Mbc3ControlWrite | Mbc3OpenBusRead | Mbc3IgnoredWrite | DmgMmioRead
| DmgMmioWrite | DmgJoypadRead | MemoryOpcodeFetch | MemoryImmediateRead | DmgDmaRomRead
| DmgDmaMemoryRead | DmgDmaWrite.
End EK.
Abbreviation BusEventKind := EK.BusEventKind.

Definition kind_code (k : BusEventKind) : Z :=
  match k with
  | EK.Unused => 0 | EK.OpcodeFetch => 1 | EK.ImmediateRead => 2 | EK.RomRead => 3
  | EK.MemoryRead => 4 | EK.MemoryWrite => 5 | EK.InputRead => 6 | EK.OutputWrite => 7
  | EK.Mbc3ControlWrite => 8 | EK.Mbc3OpenBusRead => 9 | EK.Mbc3IgnoredWrite => 10
  | EK.DmgMmioRead => 11 | EK.DmgMmioWrite => 12 | EK.DmgJoypadRead => 13
  | EK.MemoryOpcodeFetch => 14 | EK.MemoryImmediateRead => 15 | EK.DmgDmaRomRead => 16
  | EK.DmgDmaMemoryRead => 17 | EK.DmgDmaWrite => 18
  end.

Record BusEventKindError := MkKindError { kind_error_code : Z }.

(** [BusEventKind::try_from] *)
Definition kind_try_from (code : Z) : result BusEventKindError BusEventKind :=
  match code with
  | 0 => Ok EK.Unused
  | 1 => Ok EK.OpcodeFetch
  | 2 => Ok EK.ImmediateRead
  | 3 => Ok EK.RomRead
  | 4 => Ok EK.MemoryRead
  | 5 => Ok EK.MemoryWrite
  | 6 => Ok EK.InputRead
  | 7 => Ok EK.OutputWrite
  | 8 => Ok EK.Mbc3ControlWrite
  | 9 => Ok EK.Mbc3OpenBusRead
  | 10 => Ok EK.Mbc3IgnoredWrite
  | 11 => Ok EK.DmgMmioRead
  | 12 => Ok EK.DmgMmioWrite
  | 13 => Ok EK.DmgJoypadRead
  | 14 => Ok EK.MemoryOpcodeFetch
  | 15 => Ok EK.MemoryImmediateRead
  | 16 => Ok EK.DmgDmaRomRead
  | 17 => Ok EK.DmgDmaMemoryRead
  | 18 => Ok EK.DmgDmaWrite
  | _ => Err (MkKindError code)
  end.

Definition event_kind (e : BusEvent) : BusEventKind :=
  match e with
  | Ev.OpcodeFetch _ => EK.OpcodeFetch
  | Ev.ImmediateRead _ => EK.ImmediateRead
  | Ev.MemoryOpcodeFetch _ => EK.MemoryOpcodeFetch
  | Ev.MemoryImmediateRead _ => EK.MemoryImmediateRead
  | Ev.RomRead _ => EK.RomRead
  | Ev.MemoryRead _ => EK.MemoryRead
  | Ev.DmgDmaRomRead _ => EK.DmgDmaRomRead
  | Ev.DmgDmaMemoryRead _ => EK.DmgDmaMemoryRead
  | Ev.DmgDmaWrite _ => EK.DmgDmaWrite
  | Ev.MemoryWrite _ => EK.MemoryWrite
  | Ev.Mbc3ControlWrite _ _ => EK.Mbc3ControlWrite
  | Ev.Mbc3OpenBusRead _ _ => EK.Mbc3OpenBusRead
  | Ev.Mbc3IgnoredWrite _ _ => EK.Mbc3IgnoredWrite
  | Ev.InputRead _ _ => EK.InputRead
  | Ev.OutputWrite _ _ => EK.OutputWrite
  | Ev.DmgMmioRead _ _ => EK.DmgMmioRead
  | Ev.DmgMmioWrite _ _ _ => EK.DmgMmioWrite
  | Ev.DmgJoypadRead _ _ _ _ => EK.DmgJoypadRead
  end.

(** The tuple the bus transcript absorbs; a field the source does not assign stays zero. *)
Definition transcript_event (e : BusEvent) : BusTranscriptEvent :=
  let k := kind_code (event_kind e) in
  match e with
  | Ev.OpcodeFetch read | Ev.ImmediateRead read | Ev.RomRead read | Ev.DmgDmaRomRead read =>
      MkBusEvent k (rr_address read) (rr_physical_address read) 0 0 (rr_value read) 0
  | Ev.MemoryOpcodeFetch read | Ev.MemoryImmediateRead read | Ev.MemoryRead read
  | Ev.DmgDmaMemoryRead read =>
      MkBusEvent k (mr_address read) (mr_physical_address read) 0 0 (mr_value read) 0
  | Ev.MemoryWrite write | Ev.DmgDmaWrite write =>
      MkBusEvent k (mw_address write) (mw_physical_address write) (mw_before write) 0
        (mw_after write) 0
  | Ev.Mbc3ControlWrite address value | Ev.Mbc3OpenBusRead address value
  | Ev.Mbc3IgnoredWrite address value | Ev.DmgMmioRead address value =>
      MkBusEvent k address 0 0 0 value 0
  | Ev.InputRead index value => MkBusEvent k INPUT_PORT 0 0 0 value index
  | Ev.OutputWrite index value => MkBusEvent k OUTPUT_PORT 0 0 0 value index
  | Ev.DmgMmioWrite address before value => MkBusEvent k address 0 before 0 value 0
  | Ev.DmgJoypadRead index before_buttons buttons value =>
      MkBusEvent k 0xff00 0 before_buttons buttons value index
  end.

(** ** Step results *)

Module SK.
Inductive StepKind :=
| Instruction | HaltIdle | HaltUntilVBlank | HaltUntilSerial | HaltUntilTimer | HaltWake
| InterruptDispatch (interrupt : DmgInterrupt) | DmaByte.
End SK.
Abbreviation StepKind := SK.StepKind.

Record StepEffects := MkEffects {
  se_kind : StepKind; se_instruction : DecodedInstruction; se_branch_taken : bool;
  se_bus_events : list BusEvent
}.

(** [StepEffects::new], [StepEffects::machine] *)
Definition effects_new (instruction : DecodedInstruction) (branch_taken : bool)
    (bus_events : list BusEvent) : StepEffects :=
  MkEffects SK.Instruction instruction branch_taken bus_events.
Definition effects_machine (kind : StepKind) (instruction : DecodedInstruction)
    (bus_events : list BusEvent) : StepEffects :=
  MkEffects kind instruction false bus_events.

(** [StepError] (transition.rs) *)
Module SErr.
Inductive StepError :=
| CpuNotRunning (state : RunState)
| MissingWitness (request : WitnessRequest)
| UnexpectedWitness (request : WitnessRequest) (actual : WitnessKind)
| WitnessKindInvariant
| AddressMismatch (role : BusRole) (expected actual : Z)
| PhysicalAddressMismatch (role : BusRole) (expected actual : Z)
| WriteValueMismatch (expected actual : Z)
| SurplusWitnesses (remaining : Z)
| RomAuthentication (e : RErr.RomReadError)
| MemoryAuthentication (e : TErr.MemoryTranscriptError)
| Mbc3RtcRegisterUnavailable (select : Z)
| LogCommitment (e : LogErr.LogError)
| BusTranscriptCommitment (e : BusErr.BusTranscriptError)
| IsaTranscriptCommitment (e : IsaErr.IsaTranscriptError)
| AlignmentPacking (e : AlignmentPackingError)
| InvalidState (e : VErr.VmStateError)
| UndefinedOpcode (opcode : Z)
| InstructionMetadataInvariant
| MissingImmediateByte
| InvalidStopPadding (value : Z)
| UndispatchedCbPrefix
| WriteToRom (address : Z)
| WriteToInputPort
| ReadFromOutputPort
| UnownedRead (address : Z)
| UnownedInstructionFetch (address : Z)
| UnownedWrite (address : Z)
| DmgMmioUnavailable (address : Z)
| DmgDmaCpuBusUnavailable (address : Z)
| DmgDmaSourceUnavailable (address : Z)
| DmgPpuCpuBusUnavailable (address : Z)
| DmgEchoUnavailable (address : Z)
| CycleCountOverflow
| MachineEventMarkerInvariant.
End SErr.
Abbreviation StepError := SErr.StepError.

(** ** The executor *)

Module Auth.
Inductive BusAuthentication := Merkle | Lookup.
End Auth.
Abbreviation BusAuthentication := Auth.BusAuthentication.

Global Instance authentication_eq_dec : EqDecision BusAuthentication.
Proof. solve_decision. Defined.

Record Executor := MkExecutor {
  ex_state : VmState; ex_witnesses : list BusWitness; ex_events : list BusEvent;
  ex_authentication : BusAuthentication
}.

Global Instance eta_executor : Eta Executor := λ x,
  MkExecutor (ex_state x) (ex_witnesses x) (ex_events x) (ex_authentication x).

Definition executor_new (state : VmState) (input : list BusWitness)
    (authentication : BusAuthentication) : Executor := MkExecutor state input [] authentication.

(** Methods that take [&mut self] and may fail. A failing method loses the executor, as [?] does. *)
Definition M (A : Type) : Type := Executor → result StepError (A * Executor).

Global Instance M_ret : MRet M := λ A a x, Ok (a, x).
Global Instance M_bind : MBind M := λ A B f m x,
  match m x with Ok (a, x) => f a x | Err e => Err e end.

Definition fail {A} (e : StepError) : M A := λ _, Err e.
(** A fallible computation that does not touch the executor. *)
Definition lift {A} (r : result StepError A) : M A := λ x,
  match r with Ok a => Ok (a, x) | Err e => Err e end.
Definition get : M Executor := λ x, Ok (x, x).
Definition put (x : Executor) : M () := λ _, Ok ((), x).
Definition state : M VmState := λ x, Ok (ex_state x, x).
Definition modify_state (f : VmState → VmState) : M () := λ x,
  Ok ((), x <| ex_state := f (ex_state x) |>).
(** [executor.state().cpu()], [executor.state_mut().cpu_mut()], [.dmg_devices_mut()] *)
Definition get_cpu : M CpuState := λ x, Ok (cpu (ex_state x), x).
Definition modify_cpu (f : CpuState → CpuState) : M () :=
  modify_state (λ s, s <| cpu := f (cpu s) |>).
Definition modify_devices (f : DmgDeviceState → DmgDeviceState) : M () :=
  modify_state (λ s, s <| dmg_devices := f (dmg_devices s) |>).
Definition push_event (e : BusEvent) : M () := λ x, Ok ((), x <| ex_events := ex_events x ++ [e] |>).

(** ** Executor methods *)

Definition state_owner (s : VmState) (address : Z) : AddressOwner :=
  if is_dmg_post_boot_mbc3 (profile s) then dmg_owner address else owner address.

Definition require_address (expected actual : Z) (role : BusRole) : result StepError () :=
  if negb (actual =? expected) then Err (SErr.AddressMismatch role expected actual) else Ok ().
Definition require_physical_address (expected actual : Z) (role : BusRole) : result StepError () :=
  if negb (actual =? expected) then Err (SErr.PhysicalAddressMismatch role expected actual)
  else Ok ().

Definition cpu_dma_access (s : VmState) (address : Z) : result StepError () :=
  if is_dmg_post_boot_mbc3 (profile s) && dma_active (dmg_devices s) &&
     negb (in_range 0xff80 0xfffe address)
  then Err (SErr.DmgDmaCpuBusUnavailable address) else Ok ().

Definition cpu_ppu_access (s : VmState) (address : Z) : result StepError () :=
  if negb (is_dmg_post_boot_mbc3 (profile s)) then Ok ()
  else
    let devices := dmg_devices s in
    let blocked :=
      (in_range 0x8000 0x9fff address && cpu_vram_blocked devices) ||
      (in_range 0xfe00 0xfe9f address && cpu_oam_blocked devices) in
    if blocked then Err (SErr.DmgPpuCpuBusUnavailable address) else Ok ().

Definition require_cpu_dma_access (address : Z) : M () := s ← state; lift (cpu_dma_access s address).
Definition require_cpu_ppu_access (address : Z) : M () := s ← state; lift (cpu_ppu_access s address).

(** [Executor::next] *)
Definition next_witness (request : WitnessRequest) : M BusWitness :=
  x ← get;
  match ex_witnesses x with
  | [] => fail (SErr.MissingWitness request)
  | witness :: rest =>
      _ ← put (x <| ex_witnesses := rest |>);
      let actual := witness_kind witness in
      if negb (bool_decide (actual = request_kind request)) then
        fail (SErr.UnexpectedWitness request actual)
      else mret witness
  end.

Section executor.
Context `{Sha256}.

(** The guarded verifications: only under Merkle authentication. *)
Definition authenticate_rom (read : RomRead) : M () :=
  x ← get;
  if decide (ex_authentication x = Auth.Merkle) then
    lift (map_err SErr.RomAuthentication (rom_verify no_caches read (vm_rom_root (ex_state x))).1)
  else mret ().
Definition authenticate_read (read : MemoryRead) : M () :=
  x ← get;
  if decide (ex_authentication x = Auth.Merkle) then
    lift (map_err SErr.MemoryAuthentication
            (read_verify no_caches read (memory_root (ex_state x))).1)
  else mret ().
Definition authenticate_write (write : MemoryWrite) : M () :=
  x ← get;
  if decide (ex_authentication x = Auth.Merkle) then
    next_root ← lift (map_err SErr.MemoryAuthentication
                        (write_verify no_caches write (memory_root (ex_state x))).1);
    modify_state (λ s, s <| memory_root := next_root |>)
  else mret ().

Definition take_rom_read (address physical_address : Z) (role : BusRole) : M RomRead :=
  witness ← next_witness (Req.Rom address physical_address role);
  match witness with
  | Wit.Rom read =>
      _ ← lift (require_address address (rr_address read) role);
      _ ← lift (require_physical_address physical_address (rr_physical_address read) role);
      _ ← authenticate_rom read;
      mret read
  | _ => fail SErr.WitnessKindInvariant
  end.

Definition take_memory_read (address physical_address : Z) (role : BusRole) : M MemoryRead :=
  witness ← next_witness (Req.MemoryRead address physical_address);
  match witness with
  | Wit.MemoryRead read =>
      _ ← lift (require_address address (mr_address read) role);
      _ ← lift (require_physical_address physical_address (mr_physical_address read) role);
      _ ← authenticate_read read;
      mret read
  | _ => fail SErr.WitnessKindInvariant
  end.

Definition take_memory_write (address physical_address value : Z) : M MemoryWrite :=
  witness ← next_witness (Req.MemoryWrite address physical_address value);
  match witness with
  | Wit.MemoryWrite write =>
      _ ← lift (require_address address (mw_address write) Role.DataWrite);
      _ ← lift (require_physical_address physical_address (mw_physical_address write) Role.DataWrite);
      if negb (mw_after write =? value) then
        fail (SErr.WriteValueMismatch value (mw_after write))
      else mret write
  | _ => fail SErr.WitnessKindInvariant
  end.

Definition fetch (address : Z) (role : BusRole) : M Z :=
  s ← state;
  let physical_address := map_rom_for (mbc3 s) (mbc3_cartridge_profile (profile s)) address in
  read ← take_rom_read address physical_address role;
  let value := rr_value read in
  _ ← match role with
      | Role.OpcodeFetch => push_event (Ev.OpcodeFetch read)
      | Role.ImmediateRead => push_event (Ev.ImmediateRead read)
      | Role.DataRead => push_event (Ev.RomRead read)
      | Role.DataWrite => fail SErr.InstructionMetadataInvariant
      end;
  mret value.

Definition read_memory (address physical_address : Z) : M Z :=
  read ← take_memory_read address physical_address Role.DataRead;
  let value := mr_value read in
  _ ← push_event (Ev.MemoryRead read);
  mret value.

Definition read_instruction_memory (address : Z) (role : BusRole) : M Z :=
  read ← take_memory_read address address role;
  let value := mr_value read in
  _ ← match role with
      | Role.OpcodeFetch => push_event (Ev.MemoryOpcodeFetch read)
      | Role.ImmediateRead => push_event (Ev.MemoryImmediateRead read)
      | Role.DataRead | Role.DataWrite => fail SErr.InstructionMetadataInvariant
      end;
  mret value.

Definition fetch_instruction (address : Z) (role : BusRole) : M Z :=
  _ ← require_cpu_dma_access address;
  _ ← require_cpu_ppu_access address;
  s ← state;
  match state_owner s address with
  | Own.Rom => fetch address role
  | Own.Memory => read_instruction_memory address role
  | Own.Input | Own.Output | Own.DmgMmio | Own.DmgEcho | Own.Unowned =>
      fail (SErr.UnownedInstructionFetch address)
  end.

Definition read_input : M Z :=
  witness ← next_witness Req.InputByte;
  match witness with
  | Wit.InputByte value =>
      s ← state;
      let index := log_next_index (input_log s) in
      next ← lift (map_err SErr.LogCommitment (log_append (input_log s) value));
      _ ← modify_state (λ s, s <| input_log := next |>);
      _ ← push_event (Ev.InputRead index value);
      mret value
  | _ => fail SErr.WitnessKindInvariant
  end.

Definition read_dmg_mmio (address : Z) : M Z :=
  s ← state;
  value ← lift (ok_or (read_mmio (dmg_devices s) address) (SErr.DmgMmioUnavailable address));
  _ ← push_event (Ev.DmgMmioRead address value);
  mret value.

Definition read_dmg_joypad : M Z :=
  witness ← next_witness Req.InputByte;
  match witness with
  | Wit.InputByte buttons =>
      s ← state;
      let index := log_next_index (input_log s) in
      next ← lift (map_err SErr.LogCommitment (log_append (input_log s) buttons));
      let before_buttons := joypad_buttons (dmg_devices s) in
      let '(devices, value) := sample_joypad (dmg_devices s) buttons in
      _ ← modify_devices (λ _, devices);
      _ ← modify_state (λ s, s <| input_log := next |>);
      _ ← push_event (Ev.DmgJoypadRead index before_buttons buttons value);
      mret value
  | _ => fail SErr.WitnessKindInvariant
  end.

Definition write_dmg_mmio (address value : Z) : M () :=
  s ← state;
  '(devices, before) ← lift (ok_or (write_mmio (dmg_devices s) address value)
                               (SErr.DmgMmioUnavailable address));
  _ ← modify_devices (λ _, devices);
  push_event (Ev.DmgMmioWrite address before value).

Definition write_memory (address physical_address value : Z) : M () :=
  write ← take_memory_write address physical_address value;
  _ ← authenticate_write write;
  push_event (Ev.MemoryWrite write).

Definition write_output (value : Z) : M () :=
  s ← state;
  let index := log_next_index (output_log s) in
  next ← lift (map_err SErr.LogCommitment (log_append (output_log s) value));
  _ ← modify_state (λ s, s <| output_log := next |>);
  push_event (Ev.OutputWrite index value).

(** Both windows of [0xa000..=0xbfff] ask the mapper of the current profile. *)
Definition external_window (s : VmState) (address : Z) : Win.Mbc3ExternalWindow :=
  external_window_for (mbc3 s) (mbc3_cartridge_profile (profile s)) address.

Definition read_data (address : Z) : M Z :=
  _ ← require_cpu_dma_access address;
  _ ← require_cpu_ppu_access address;
  s ← state;
  if is_dmg_post_boot_mbc3 (profile s) && (address =? 0xff00) then read_dmg_joypad
  else if in_range 0xa000 0xbfff address then
    match external_window s address with
    | Win.Ram physical_address => read_memory address physical_address
    | Win.RtcRegister select => fail (SErr.Mbc3RtcRegisterUnavailable select)
    | Win.Unavailable =>
        let value := 0xff in
        _ ← push_event (Ev.Mbc3OpenBusRead address value);
        mret value
    end
  else
    match state_owner s address with
    | Own.Rom => fetch address Role.DataRead
    | Own.Memory => read_memory address address
    | Own.Input => read_input
    | Own.Output => fail SErr.ReadFromOutputPort
    | Own.DmgMmio => read_dmg_mmio address
    | Own.DmgEcho => fail (SErr.DmgEchoUnavailable address)
    | Own.Unowned => fail (SErr.UnownedRead address)
    end.

Definition write_data (address value : Z) : M () :=
  _ ← require_cpu_dma_access address;
  _ ← require_cpu_ppu_access address;
  s ← state;
  if address <=? 0x7fff then
    let profile := mbc3_cartridge_profile (profile s) in
    _ ← modify_state (λ s, s <| mbc3 := apply_control_write_for (mbc3 s) profile address value |>);
    push_event (Ev.Mbc3ControlWrite address value)
  else if in_range 0xa000 0xbfff address then
    match external_window s address with
    | Win.Ram physical_address => write_memory address physical_address value
    | Win.RtcRegister select => fail (SErr.Mbc3RtcRegisterUnavailable select)
    | Win.Unavailable => push_event (Ev.Mbc3IgnoredWrite address value)
    end
  else
    match state_owner s address with
    | Own.Memory => write_memory address address value
    | Own.Output => write_output value
    | Own.Rom => fail (SErr.WriteToRom address)
    | Own.Input => fail SErr.WriteToInputPort
    | Own.DmgMmio => write_dmg_mmio address value
    | Own.DmgEcho => fail (SErr.DmgEchoUnavailable address)
    | Own.Unowned => fail (SErr.UnownedWrite address)
    end.

(** The source byte of one OAM-DMA copy, with its event. *)
Definition dma_source_byte (source : Z) : M Z :=
  s ← state;
  match state_owner s source with
  | Own.Rom =>
      let physical := map_rom_for (mbc3 s) (mbc3_cartridge_profile (profile s)) source in
      read ← take_rom_read source physical Role.DataRead;
      let value := rr_value read in
      _ ← push_event (Ev.DmgDmaRomRead read);
      mret value
  | Own.Memory =>
      physical ←
        (if in_range 0xa000 0xbfff source then
           match external_window s source with
           | Win.Ram physical => mret physical
           | Win.RtcRegister select => fail (SErr.Mbc3RtcRegisterUnavailable select)
           | Win.Unavailable => fail (SErr.DmgDmaSourceUnavailable source)
           end
         else mret source);
      read ← take_memory_read source physical Role.DataRead;
      let value := mr_value read in
      _ ← push_event (Ev.DmgDmaMemoryRead read);
      mret value
  | Own.Input | Own.Output | Own.DmgMmio | Own.DmgEcho | Own.Unowned =>
      fail (SErr.DmgDmaSourceUnavailable source)
  end.

Definition copy_dma_byte : M () :=
  s ← state;
  let source := dma_source_address (dmg_devices s) in
  let destination := dma_destination_address (dmg_devices s) in
  if 0xdf9f <? source then fail (SErr.DmgDmaSourceUnavailable source)
  else
    value ← dma_source_byte source;
    write ← take_memory_write destination destination value;
    _ ← authenticate_write write;
    _ ← push_event (Ev.DmgDmaWrite write);
    modify_devices complete_dma_byte.

(** ** Finishing a step *)

Definition finalize (x : Executor) (i : DecodedInstruction) : result StepError (VmState * list BusEvent) :=
  let remaining := Z.of_nat (length (ex_witnesses x)) in
  if negb (remaining =? 0) then Err (SErr.SurplusWitnesses remaining)
  else if decide (ex_authentication x = Auth.Merkle) then
    transcript ← map_err SErr.BusTranscriptCommitment
                   (bus_append_all (bus_transcript (ex_state x)) (map transcript_event (ex_events x)));
    let s := (ex_state x) <| bus_transcript := transcript |> in
    aligned_row ← map_err SErr.AlignmentPacking (packed (from_decoded i));
    isa ← map_err SErr.IsaTranscriptCommitment (isa_append (isa_transcript s) aligned_row);
    Ok (s <| isa_transcript := isa |>, ex_events x)
  else Ok (ex_state x, ex_events x).

Definition finish (x : Executor) (i : DecodedInstruction) (branch_taken : bool) :
    result StepError (VmState * StepEffects) :=
  '(s, events) ← finalize x i; Ok (s, effects_new i branch_taken events).

Definition finish_machine (x : Executor) (kind : StepKind) (i : DecodedInstruction) :
    result StepError (VmState * StepEffects) :=
  '(s, events) ← finalize x i; Ok (s, effects_machine kind i events).
End executor.
