(* ===== verification/Execute.v ===== *)
(** * Instruction semantics (crates/zksm83-core/src/execute.rs)

    One handler per instruction class over the executor monad of [Bus]. A register access that the
    source writes on the executor is a function of the CPU state, read with [get_cpu] and written
    with [modify_cpu]. *)
From S2P Require Import Prelude IsaTypes Metadata Flags Alu Commitment State Bus.

(** ** Immediate bytes *)

Record ImmediateBytes := MkImmediate { first : option Z; second : option Z }.

Definition no_immediate : ImmediateBytes := MkImmediate None None.

Definition push (b : ImmediateBytes) (value : Z) : result StepError ImmediateBytes :=
  match first b with
  | None => Ok (MkImmediate (Some value) (second b))
  | Some _ =>
      match second b with
      | None => Ok (MkImmediate (first b) (Some value))
      | Some _ => Err SErr.InstructionMetadataInvariant
      end
  end.

Definition byte (b : ImmediateBytes) : result StepError Z := ok_or (first b) SErr.MissingImmediateByte.

Definition word (b : ImmediateBytes) : result StepError Z :=
  low ← ok_or (first b) SErr.MissingImmediateByte;
  high ← ok_or (second b) SErr.MissingImmediateByte;
  Ok (be16 high low).

(** ** Registers *)

Definition register8 (c : CpuState) (r : R8.Register8) : Z :=
  let g := registers c in
  match r with
  | R8.A => reg_a g | R8.B => reg_b g | R8.C => reg_c g | R8.D => reg_d g | R8.E => reg_e g
  | R8.H => reg_h g | R8.L => reg_l g
  end.

Definition set_register8 (r : R8.Register8) (value : Z) (c : CpuState) : CpuState :=
  let g := registers c in
  c <| registers :=
    match r with
    | R8.A => g <| reg_a := value |> | R8.B => g <| reg_b := value |>
    | R8.C => g <| reg_c := value |> | R8.D => g <| reg_d := value |>
    | R8.E => g <| reg_e := value |> | R8.H => g <| reg_h := value |>
    | R8.L => g <| reg_l := value |>
    end |>.

Definition register16 (c : CpuState) (r : R16.Register16) : Z :=
  let g := registers c in
  match r with
  | R16.Bc => be16 (reg_b g) (reg_c g)
  | R16.De => be16 (reg_d g) (reg_e g)
  | R16.Hl => be16 (reg_h g) (reg_l g)
  | R16.Sp => sp c
  end.

Definition set_register16 (r : R16.Register16) (value : Z) (c : CpuState) : CpuState :=
  let high := hi8 value in
  let low := lo8 value in
  let g := registers c in
  match r with
  | R16.Bc => c <| registers := g <| reg_b := high |> <| reg_c := low |> |>
  | R16.De => c <| registers := g <| reg_d := high |> <| reg_e := low |> |>
  | R16.Hl => c <| registers := g <| reg_h := high |> <| reg_l := low |> |>
  | R16.Sp => c <| sp := value |>
  end.

Definition stack_register (c : CpuState) (r : SR.StackRegister16) : Z :=
  match r with
  | SR.Bc => register16 c R16.Bc
  | SR.De => register16 c R16.De
  | SR.Hl => register16 c R16.Hl
  | SR.Af => be16 (reg_a (registers c)) (flags_byte (flags c))
  end.

Definition set_a (value : Z) : CpuState → CpuState := set_register8 R8.A value.
Definition set_flags (f : Flags) (c : CpuState) : CpuState := c <| flags := f |>.
Definition set_pc (value : Z) (c : CpuState) : CpuState := c <| pc := value |>.
Definition set_sp (value : Z) (c : CpuState) : CpuState := c <| sp := value |>.
Definition set_ime (value : ImeState) (c : CpuState) : CpuState := c <| ime := value |>.
Definition set_run_state (value : RunState) (c : CpuState) : CpuState := c <| run_state := value |>.
Definition set_m_cycles (value : Z) (c : CpuState) : CpuState := c <| m_cycles := value |>.

Definition set_stack_register (r : SR.StackRegister16) (value : Z) : M () :=
  match r with
  | SR.Bc => modify_cpu (set_register16 R16.Bc value)
  | SR.De => modify_cpu (set_register16 R16.De value)
  | SR.Hl => modify_cpu (set_register16 R16.Hl value)
  | SR.Af =>
      let accumulator := hi8 value in
      let low := lo8 value in
      _ ← modify_cpu (set_a accumulator);
      f ← lift (map_err SErr.InvalidState (flags_from_byte (Z.land low 0xf0)));
      modify_cpu (set_flags f)
  end.

Definition condition_holds (c : CpuState) (condition : Cond.Condition) : bool :=
  match condition with
  | Cond.NotZero => negb (f_zero (flags c))
  | Cond.Zero => f_zero (flags c)
  | Cond.NotCarry => negb (f_carry (flags c))
  | Cond.Carry => f_carry (flags c)
  end.

(** [condition.is_none_or(...)] *)
Definition is_taken (c : CpuState) (condition : option Cond.Condition) : bool :=
  match condition with None => true | Some predicate => condition_holds c predicate end.

Definition indirect_address (c : CpuState) (address : Ind.IndirectAddress) : Z :=
  match address with
  | Ind.Bc => register16 c R16.Bc
  | Ind.De => register16 c R16.De
  | Ind.HlIncrement | Ind.HlDecrement => register16 c R16.Hl
  end.

Definition update_hl_after_indirect (address : Ind.IndirectAddress) (c : CpuState) : CpuState :=
  let current := register16 c R16.Hl in
  match address with
  | Ind.HlIncrement => set_register16 R16.Hl (w16 (current + 1)) c
  | Ind.HlDecrement => set_register16 R16.Hl (w16 (current - 1)) c
  | Ind.Bc | Ind.De => c
  end.

(** [1_u8.checked_shl] *)
Definition bit_mask (bit : Z) : result StepError Z :=
  if bit <? 8 then Ok (w8 (Z.shiftl 1 bit)) else Err SErr.InstructionMetadataInvariant.

Section execute.
Context `{Sha256}.

Definition read_operand (operand : Opd.Operand8) (immediate : ImmediateBytes) : M Z :=
  c ← get_cpu;
  match operand with
  | Opd.Register r => mret (register8 c r)
  | Opd.Immediate => lift (byte immediate)
  | Opd.IndirectHl => read_data (register16 c R16.Hl)
  end.

Definition write_operand (operand : Opd.Operand8) (value : Z) : M () :=
  c ← get_cpu;
  match operand with
  | Opd.Register r => modify_cpu (set_register8 r value)
  | Opd.Immediate => fail SErr.InstructionMetadataInvariant
  | Opd.IndirectHl => write_data (register16 c R16.Hl) value
  end.

Definition transfer_accumulator (address : Z) (direction : Dir.TransferDirection) : M () :=
  match direction with
  | Dir.IntoAccumulator => value ← read_data address; modify_cpu (set_a value)
  | Dir.FromAccumulator => c ← get_cpu; write_data address (reg_a (registers c))
  end.

Definition store_sp_absolute (address : Z) : M () :=
  c ← get_cpu;
  _ ← write_data address (lo8 (sp c));
  write_data (w16 (address + 1)) (hi8 (sp c)).

Definition push_word (value : Z) : M () :=
  c ← get_cpu;
  let high_address := w16 (sp c - 1) in
  _ ← write_data high_address (hi8 value);
  _ ← modify_cpu (set_sp high_address);
  let low_address := w16 (high_address - 1) in
  _ ← write_data low_address (lo8 value);
  modify_cpu (set_sp low_address).

Definition pop_word : M Z :=
  c ← get_cpu;
  let low_address := sp c in
  low ← read_data low_address;
  let high_address := w16 (low_address + 1) in
  high ← read_data high_address;
  _ ← modify_cpu (set_sp (w16 (high_address + 1)));
  mret (be16 high low).

(** ** Class handlers *)

(** [cpu.registers_mut().a = result.value; cpu.set_flags(result.flags)] *)
Definition write_result (r : ByteResult) (c : CpuState) : CpuState :=
  set_flags (br_flags r) (set_a (br_value r) c).

Definition execute_control (operation : Op.Operation) : M bool :=
  c ← get_cpu;
  let f := flags c in
  _ ← match operation with
      | Op.Nop => mret ()
      | Op.DecimalAdjust => modify_cpu (write_result (decimal_adjust (reg_a (registers c)) f))
      | Op.ComplementAccumulator =>
          modify_cpu (λ c, set_flags (from_bits (f_zero f) true true (f_carry f))
                             (set_a (not8 (reg_a (registers c))) c))
      | Op.SetCarry => modify_cpu (set_flags (from_bits (f_zero f) false false true))
      | Op.ComplementCarry =>
          modify_cpu (set_flags (from_bits (f_zero f) false false (negb (f_carry f))))
      | _ => fail SErr.InstructionMetadataInvariant
      end;
  mret false.

Definition execute_load (operation : Op.Operation) (immediate : ImmediateBytes) : M bool :=
  c ← get_cpu;
  _ ← match operation with
      | Op.StoreSpAbsolute => address ← lift (word immediate); store_sp_absolute address
      | Op.Load16Immediate r => value ← lift (word immediate); modify_cpu (set_register16 r value)
      | Op.LoadAccumulatorIndirect address direction =>
          _ ← transfer_accumulator (indirect_address c address) direction;
          modify_cpu (update_hl_after_indirect address)
      | Op.Load8Immediate target => value ← lift (byte immediate); write_operand target value
      | Op.Load8 destination source =>
          value ← read_operand source immediate; write_operand destination value
      | Op.HighImmediateLoad direction =>
          low ← lift (byte immediate); transfer_accumulator (Z.lor 0xff00 low) direction
      | Op.LoadHlSpOffset =>
          offset ← lift (byte immediate);
          let '(value, f) := add_signed_to_sp (sp c) offset in
          modify_cpu (λ c, set_flags f (set_register16 R16.Hl value c))
      | Op.LoadSpHl => modify_cpu (set_sp (register16 c R16.Hl))
      | Op.HighCLoad direction =>
          transfer_accumulator (Z.lor 0xff00 (reg_c (registers c))) direction
      | Op.AbsoluteAccumulatorLoad direction =>
          address ← lift (word immediate); transfer_accumulator address direction
      | _ => fail SErr.InstructionMetadataInvariant
      end;
  mret false.

Definition execute_alu8 (operation : Op.Operation) (immediate : ImmediateBytes) : M bool :=
  _ ← match operation with
      | Op.Increment8 target =>
          before ← read_operand target immediate;
          c ← get_cpu;
          let r := increment before (flags c) in
          _ ← write_operand target (br_value r);
          modify_cpu (set_flags (br_flags r))
      | Op.Decrement8 target =>
          before ← read_operand target immediate;
          c ← get_cpu;
          let r := decrement before (flags c) in
          _ ← write_operand target (br_value r);
          modify_cpu (set_flags (br_flags r))
      | Op.Alu8 alu source =>
          operand ← read_operand source immediate;
          c ← get_cpu;
          let r := apply_alu alu (reg_a (registers c)) operand (flags c) in
          _ ← (if decide (alu = AluOp.Compare) then mret () else modify_cpu (set_a (br_value r)));
          modify_cpu (set_flags (br_flags r))
      | _ => fail SErr.InstructionMetadataInvariant
      end;
  mret false.

Definition execute_alu16 (operation : Op.Operation) (immediate : ImmediateBytes) : M bool :=
  c ← get_cpu;
  _ ← match operation with
      | Op.AddHl source =>
          let '(value, f) := add_hl (register16 c R16.Hl) (register16 c source) (flags c) in
          modify_cpu (λ c, set_flags f (set_register16 R16.Hl value c))
      | Op.Increment16 target =>
          modify_cpu (set_register16 target (w16 (register16 c target + 1)))
      | Op.Decrement16 target =>
          modify_cpu (set_register16 target (w16 (register16 c target - 1)))
      | Op.AddSpOffset =>
          offset ← lift (byte immediate);
          let '(value, f) := add_signed_to_sp (sp c) offset in
          modify_cpu (λ c, set_flags f (set_sp value c))
      | _ => fail SErr.InstructionMetadataInvariant
      end;
  mret false.

Definition execute_rotate (operation : Op.Operation) (immediate : ImmediateBytes) : M bool :=
  _ ← match operation with
      | Op.RotateAccumulator rotate =>
          c ← get_cpu;
          r ← lift (ok_or (rotate_shift rotate (reg_a (registers c)) (f_carry (flags c)) false)
                      SErr.InstructionMetadataInvariant);
          modify_cpu (write_result r)
      | Op.Cb rotate target =>
          before ← read_operand target immediate;
          c ← get_cpu;
          r ← lift (ok_or (rotate_shift rotate before (f_carry (flags c)) true)
                      SErr.InstructionMetadataInvariant);
          _ ← write_operand target (br_value r);
          modify_cpu (set_flags (br_flags r))
      | _ => fail SErr.InstructionMetadataInvariant
      end;
  mret false.

Definition execute_bit (operation : Op.Operation) (immediate : ImmediateBytes) : M bool :=
  match operation with
  | Op.Cb cb target =>
      value ← read_operand target immediate;
      _ ← match cb with
          | CbOp.TestBit bit =>
              mask ← lift (bit_mask bit);
              c ← get_cpu;
              modify_cpu (set_flags (from_bits (Z.land value mask =? 0) false true
                                       (f_carry (flags c))))
          | CbOp.ResetBit bit =>
              mask ← lift (bit_mask bit); write_operand target (Z.land value (not8 mask))
          | CbOp.SetBit bit =>
              mask ← lift (bit_mask bit); write_operand target (Z.lor value mask)
          | _ => fail SErr.InstructionMetadataInvariant
          end;
      mret false
  | _ => fail SErr.InstructionMetadataInvariant
  end.

Definition execute_jump (operation : Op.Operation) (immediate : ImmediateBytes) : M bool :=
  c ← get_cpu;
  match operation with
  | Op.RelativeJump condition =>
      let taken := is_taken c condition in
      _ ← (if taken then
             offset ← lift (byte immediate);
             modify_cpu (set_pc (w16 (pc c + i8_of offset)))
           else mret ());
      mret taken
  | Op.JumpHl => _ ← modify_cpu (set_pc (register16 c R16.Hl)); mret true
  | Op.Jump condition =>
      let taken := is_taken c condition in
      _ ← (if taken then target ← lift (word immediate); modify_cpu (set_pc target) else mret ());
      mret taken
  | _ => fail SErr.InstructionMetadataInvariant
  end.

Definition execute_call_return (operation : Op.Operation) (immediate : ImmediateBytes) : M bool :=
  c ← get_cpu;
  match operation with
  | Op.Return condition =>
      let taken := is_taken c condition in
      _ ← (if taken then target ← pop_word; modify_cpu (set_pc target) else mret ());
      mret taken
  | Op.ReturnFromInterrupt =>
      target ← pop_word;
      _ ← modify_cpu (set_pc target);
      _ ← modify_cpu (set_ime Ime.Enabled);
      mret true
  | Op.Call condition =>
      let taken := is_taken c condition in
      _ ← (if taken then
             _ ← push_word (pc c);
             target ← lift (word immediate);
             modify_cpu (set_pc target)
           else mret ());
      mret taken
  | Op.Restart vector => _ ← push_word (pc c); _ ← modify_cpu (set_pc vector); mret true
  | _ => fail SErr.InstructionMetadataInvariant
  end.

Definition execute_stack (operation : Op.Operation) : M bool :=
  _ ← match operation with
      | Op.Pop r => value ← pop_word; set_stack_register r value
      | Op.Push r => c ← get_cpu; push_word (stack_register c r)
      | _ => fail SErr.InstructionMetadataInvariant
      end;
  mret false.

Definition execute_interrupt (operation : Op.Operation) : M bool :=
  i ← match operation with
      | Op.DisableInterrupts => mret Ime.Disabled
      | Op.EnableInterrupts => mret Ime.EnablePending
      | _ => fail SErr.InstructionMetadataInvariant
      end;
  _ ← modify_cpu (set_ime i);
  mret false.

Definition execute_low_power (operation : Op.Operation) (immediate : ImmediateBytes) : M bool :=
  r ← match operation with
      | Op.Halt => mret Run.Halted
      | Op.Stop =>
          padding ← lift (byte immediate);
          if negb (padding =? 0) then fail (SErr.InvalidStopPadding padding) else mret Run.Stopped
      | _ => fail SErr.InstructionMetadataInvariant
      end;
  _ ← modify_cpu (set_run_state r);
  mret false.

Definition execute (i : DecodedInstruction) (immediate : ImmediateBytes) : M bool :=
  match class i with
  | Cls.Control => execute_control (operation i)
  | Cls.Load => execute_load (operation i) immediate
  | Cls.Alu8 => execute_alu8 (operation i) immediate
  | Cls.Alu16 => execute_alu16 (operation i) immediate
  | Cls.RotateShift => execute_rotate (operation i) immediate
  | Cls.Bit => execute_bit (operation i) immediate
  | Cls.Jump => execute_jump (operation i) immediate
  | Cls.CallReturn => execute_call_return (operation i) immediate
  | Cls.Stack => execute_stack (operation i)
  | Cls.Interrupt => execute_interrupt (operation i)
  | Cls.LowPower => execute_low_power (operation i) immediate
  | Cls.Prefix => fail SErr.UndispatchedCbPrefix
  end.
End execute.
