(* ===== verification/Transition.v ===== *)
(** * The step relation (crates/zksm83-core/src/transition.rs)

    One transition of the machine: an opcode step or a DMG machine event (interrupt dispatch, HALT
    wake and skips, one OAM-DMA byte), under Merkle or lookup authentication. *)
From S2P Require Import Prelude IsaTypes Metadata Decode Commitment Device Halt State Bus Execute.

Module Machine.
Inductive DmgMachineEvent :=
| Interrupt (i : DmgInterrupt)
| HaltWake
| HaltUntilVBlank (increment : Z)
| HaltUntilSerial (increment : Z)
| HaltUntilTimer (increment : Z)
| HaltIdle.
End Machine.
Abbreviation DmgMachineEvent := Machine.DmgMachineEvent.

Definition classify_dmg_machine_event (s : VmState) : result StepError (option DmgMachineEvent) :=
  let pending := pending_interrupt (dmg_devices s) in
  match run_state (cpu s) with
  | Run.Stopped => Err (SErr.CpuNotRunning Run.Stopped)
  | Run.Running | Run.HaltBug =>
      if decide (ime (cpu s) = Ime.Enabled) then Ok (Machine.Interrupt <$> pending) else Ok None
  | Run.Halted =>
      match pending with
      | Some interrupt =>
          if decide (ime (cpu s) = Ime.Enabled) then Ok (Some (Machine.Interrupt interrupt))
          else Ok (Some Machine.HaltWake)
      | None =>
          let devices := dmg_devices s in
          let event :=
            match halt_until_vblank_m_cycles devices with
            | Some increment => Machine.HaltUntilVBlank increment
            | None =>
                match halt_until_serial_m_cycles devices with
                | Some increment => Machine.HaltUntilSerial increment
                | None =>
                    match halt_until_timer_m_cycles devices with
                    | Some increment => Machine.HaltUntilTimer increment
                    | None => Machine.HaltIdle
                    end
                end
            end in
          Ok (Some event)
      end
  end.

Definition machine_event_marker (opcode : Z) : result StepError DecodedInstruction :=
  match decode_primary opcode with
  | Classified.Defined_ i => Ok i
  | Classified.Undefined _ => Err SErr.MachineEventMarkerInvariant
  end.

(** [m_cycles().checked_add(..).ok_or(CycleCountOverflow)], then [set_m_cycles] *)
Definition add_cycles (increment : Z) : M () :=
  c ← get_cpu;
  next ← lift (ok_or (checked_add_u64 (m_cycles c) increment) SErr.CycleCountOverflow);
  modify_cpu (set_m_cycles next).

Section transition.
Context `{Sha256}.

(** Running a method chain on a fresh executor, then its consuming [finish]. *)
Definition run {A B} (m : M A) (x : Executor) (k : A → Executor → result StepError B) :
    result StepError B :=
  match m x with Ok (a, x) => k a x | Err e => Err e end.

Definition add_timing (i : DecodedInstruction) (branch_taken dma_active_at_start : bool) : M () :=
  let increment :=
    if branch_taken then
      match taken_m_cycles (timing i) with
      | None => base_m_cycles (timing i) | Some cycles => cycles
      end
    else base_m_cycles (timing i) in
  _ ← add_cycles increment;
  _ ← modify_devices (λ d, advance_m_cycles d increment);
  modify_devices (λ d, schedule_dma_bytes d increment dma_active_at_start).

Definition add_machine_timing (increment : Z) : M () :=
  s ← state;
  let dma_active_at_start := dma_active (dmg_devices s) in
  _ ← add_cycles increment;
  _ ← modify_devices (λ d, advance_m_cycles d increment);
  modify_devices (λ d, schedule_dma_bytes d increment dma_active_at_start).

Definition push_interrupt_return (value : Z) : M () :=
  c ← get_cpu;
  let high_address := w16 (sp c - 1) in
  _ ← write_data high_address (hi8 value);
  _ ← modify_cpu (set_sp high_address);
  let low_address := w16 (high_address - 1) in
  _ ← write_data low_address (lo8 value);
  modify_cpu (set_sp low_address).

Definition interrupt_body (interrupt : DmgInterrupt) : M () :=
  _ ← modify_cpu (set_run_state Run.Running);
  _ ← modify_cpu (set_ime Ime.Disabled);
  _ ← modify_devices (λ d, acknowledge_interrupt d interrupt);
  c ← get_cpu;
  _ ← push_interrupt_return (pc c);
  _ ← modify_cpu (set_pc (interrupt_vector interrupt));
  add_machine_timing 5.

(** [finish_machine(kind, machine_event_marker(opcode)?)] *)
Definition finish_event (kind : StepKind) (opcode : Z) (_a : ()) (x : Executor) :
    result StepError (VmState * StepEffects) :=
  marker ← machine_event_marker opcode; finish_machine x kind marker.

Definition dispatch_interrupt (s : VmState) (input : list BusWitness) (interrupt : DmgInterrupt)
    (authentication : BusAuthentication) : result StepError (VmState * StepEffects) :=
  run (interrupt_body interrupt) (executor_new s input authentication)
    (finish_event (SK.InterruptDispatch interrupt) 0xff).

Definition halt_wake (s : VmState) (input : list BusWitness) (authentication : BusAuthentication) :
    result StepError (VmState * StepEffects) :=
  run (modify_cpu (set_run_state Run.Running)) (executor_new s input authentication)
    (finish_event SK.HaltWake 0x76).

Definition halt_until_vblank (s : VmState) (input : list BusWitness) (increment : Z)
    (authentication : BusAuthentication) : result StepError (VmState * StepEffects) :=
  run (_ ← add_cycles increment; modify_devices (λ d, advance_halt_until_vblank d increment))
    (executor_new s input authentication) (finish_event SK.HaltUntilVBlank 0x76).

Definition halt_until_serial (s : VmState) (input : list BusWitness) (increment : Z)
    (authentication : BusAuthentication) : result StepError (VmState * StepEffects) :=
  run (_ ← add_cycles increment; modify_devices (λ d, advance_halt_until_serial d increment))
    (executor_new s input authentication) (finish_event SK.HaltUntilSerial 0x76).

Definition halt_until_timer (s : VmState) (input : list BusWitness) (increment : Z)
    (authentication : BusAuthentication) : result StepError (VmState * StepEffects) :=
  run (_ ← add_cycles increment; modify_devices (λ d, advance_halt_until_timer d increment))
    (executor_new s input authentication) (finish_event SK.HaltUntilTimer 0x76).

Definition halt_idle (s : VmState) (input : list BusWitness) (authentication : BusAuthentication) :
    result StepError (VmState * StepEffects) :=
  let increment := halt_idle_m_cycles (dmg_devices s) in
  run (add_machine_timing increment) (executor_new s input authentication)
    (finish_event SK.HaltIdle 0x76).

Definition dma_byte (s : VmState) (input : list BusWitness) (authentication : BusAuthentication) :
    result StepError (VmState * StepEffects) :=
  run copy_dma_byte (executor_new s input authentication) (finish_event SK.DmaByte 0x00).

(** ** Fetching *)

Definition fetch_and_advance (role : BusRole) : M Z :=
  c ← get_cpu;
  let address := pc c in
  value ← fetch_instruction address role;
  _ ← modify_cpu (set_pc (w16 (address + 1)));
  mret value.

Definition fetch_first_opcode (halt_bug : bool) : M Z :=
  c ← get_cpu;
  let address := pc c in
  value ← fetch_instruction address Role.OpcodeFetch;
  _ ← (if halt_bug then modify_cpu (set_run_state Run.Running)
       else modify_cpu (set_pc (w16 (address + 1))));
  mret value.

(** The loop of [fetch_immediates], [n] iterations from the accumulated bytes. *)
Fixpoint fetch_immediates_loop (n : nat) (immediate : ImmediateBytes) : M ImmediateBytes :=
  match n with
  | O => mret immediate
  | S n =>
      value ← fetch_and_advance Role.ImmediateRead;
      immediate ← lift (push immediate value);
      fetch_immediates_loop n immediate
  end.

Definition fetch_immediates (instruction_len : Z) : M ImmediateBytes :=
  fetch_immediates_loop (Z.to_nat (saturating_sub instruction_len 1)) no_immediate.

Definition fetch_and_decode (halt_bug : bool) : M (DecodedInstruction * ImmediateBytes) :=
  opcode ← fetch_first_opcode halt_bug;
  if opcode =? 0xcb then
    secondary ← fetch_and_advance Role.OpcodeFetch;
    mret (decode_cb secondary, no_immediate)
  else
    match decode_primary opcode with
    | Classified.Defined_ i => immediate ← fetch_immediates (byte_len i); mret (i, immediate)
    | Classified.Undefined u => fail (SErr.UndefinedOpcode (undefined_byte u))
    end.

Definition apply_delayed_ime (operation : Op.Operation) (enable_after_step : bool) : M () :=
  if enable_after_step && negb (bool_decide (operation = Op.DisableInterrupts)) then
    modify_cpu (set_ime Ime.Enabled)
  else mret ().

(** The part of [apply] that executes an instruction on a fresh executor. *)
Definition instruction_body (s : VmState) : M (DecodedInstruction * bool) :=
  let enable_after_step := bool_decide (ime (cpu s) = Ime.EnablePending) in
  let dma_active_at_start := dma_active (dmg_devices s) in
  let halt_bug_fetch := bool_decide (run_state (cpu s) = Run.HaltBug) in
  '(i, immediate) ← fetch_and_decode halt_bug_fetch;
  branch_taken ← execute i immediate;
  _ ← apply_delayed_ime (operation i) enable_after_step;
  _ ← add_timing i branch_taken dma_active_at_start;
  _ ← (if bool_decide (operation i = Op.Halt) && negb (bool_decide (ime (cpu s) = Ime.Enabled)) &&
          bool_decide (is_Some (pending_interrupt (dmg_devices s)))
       then modify_cpu (set_run_state Run.HaltBug) else mret ());
  mret (i, branch_taken).

Definition execute_instruction (s : VmState) (input : list BusWitness)
    (authentication : BusAuthentication) : result StepError (VmState * StepEffects) :=
  if negb (can_execute_instruction (run_state (cpu s))) then
    Err (SErr.CpuNotRunning (run_state (cpu s)))
  else
    run (instruction_body s) (executor_new s input authentication)
      (λ '(i, branch_taken) x, finish x i branch_taken).

Definition apply (s : VmState) (input : list BusWitness) (authentication : BusAuthentication) :
    result StepError (VmState * StepEffects) :=
  if is_dmg_post_boot_mbc3 (profile s) then
    if negb (dma_owed (dmg_devices s) =? 0) then dma_byte s input authentication
    else
      event ← classify_dmg_machine_event s;
      match event with
      | Some (Machine.Interrupt interrupt) => dispatch_interrupt s input interrupt authentication
      | Some Machine.HaltWake => halt_wake s input authentication
      | Some (Machine.HaltUntilVBlank increment) => halt_until_vblank s input increment authentication
      | Some (Machine.HaltUntilSerial increment) => halt_until_serial s input increment authentication
      | Some (Machine.HaltUntilTimer increment) => halt_until_timer s input increment authentication
      | Some Machine.HaltIdle => halt_idle s input authentication
      | None => execute_instruction s input authentication
      end
  else execute_instruction s input authentication.

(** [StepRelation::apply], [LookupStepRelation::apply] *)
Definition step_relation_apply (s : VmState) (input : list BusWitness) := apply s input Auth.Merkle.
Definition lookup_step_relation_apply (s : VmState) (input : list BusWitness) :=
  apply s input Auth.Lookup.
End transition.
