(* ===== verification/Access.v ===== *)
(** * Bus accesses: the specification of the executor's methods

    [access x e x'] says what one bus event does to the executor, event kind by event kind, and [wp]
    is the weakest precondition of the executor monad, whose error outcome excludes the errors the
    source calls internal. The lemmas [read_data_wp], [write_data_wp] and [fetch_instruction_wp]
    show that every method of [Bus] either performs one access of its kind at the requested address
    or fails with an ordinary error. *)
From S2P Require Import Prelude Address Commitment Merkle Logs Mbc3 Device State Bus.

(** ** Internal errors *)

(** The errors that report a broken invariant of the implementation, not a property of the input. *)
Definition internal_error (e : StepError) : bool :=
  match e with
  | SErr.WitnessKindInvariant | SErr.InstructionMetadataInvariant | SErr.MissingImmediateByte
  | SErr.UndispatchedCbPrefix | SErr.MachineEventMarkerInvariant
  | SErr.InvalidState _ | SErr.AlignmentPacking _ | SErr.WriteToRom _
  | SErr.BusTranscriptCommitment BusErr.NonCanonicalEvent
  | SErr.IsaTranscriptCommitment IsaErr.NonCanonicalRow => true
  | _ => false
  end.

(** The errors that blame the supplied witnesses: none, or not the one requested. *)
Definition witness_error (e : StepError) : bool :=
  match e with
  | SErr.MissingWitness _ | SErr.UnexpectedWitness _ _ | SErr.AddressMismatch _ _ _
  | SErr.PhysicalAddressMismatch _ _ _ | SErr.WriteValueMismatch _ _ | SErr.SurplusWitnesses _
  | SErr.RomAuthentication _ | SErr.MemoryAuthentication _ => true
  | _ => false
  end.
(** The errors left: the machine itself cannot go on from this state. *)
Definition machine_error (e : StepError) : bool := negb (internal_error e) && negb (witness_error e).
Lemma machine_not_internal e : machine_error e = true → internal_error e = false.
Proof. unfold machine_error. by destruct (internal_error e). Qed.
Lemma machine_not_witness e : machine_error e = true → witness_error e = false.
Proof. unfold machine_error. by destruct (internal_error e), (witness_error e). Qed.

(** ** Weakest preconditions *)

Definition wp {A} (m : M A) (x : Executor) (Q : A → Executor → Prop) : Prop :=
  match m x with Ok (a, x') => Q a x' | Err e => internal_error e = false end.

Lemma wp_ret {A} (a : A) x (Q : A → Executor → Prop) : Q a x → wp (mret a) x Q.
Proof. done. Qed.
Lemma wp_fail {A} e x (Q : A → Executor → Prop) : internal_error e = false → wp (fail e) x Q.
Proof. done. Qed.
Lemma wp_bind {A B} (m : M A) (f : A → M B) x Q :
  wp m x (λ a x', wp (f a) x' Q) → wp (m ≫= f) x Q.
Proof. unfold wp, mbind, M_bind. by destruct (m x) as [[a x'] |]. Qed.
Lemma wp_mono {A} (m : M A) x (P Q : A → Executor → Prop) :
  wp m x P → (∀ a x', P a x' → Q a x') → wp m x Q.
Proof. unfold wp. destruct (m x) as [[a x'] |]; auto. Qed.
Lemma wp_lift {A} (r : result StepError A) x (Q : A → Executor → Prop) :
  (∀ a, r = Ok a → Q a x) → (∀ e, r = Err e → internal_error e = false) → wp (lift r) x Q.
Proof. unfold wp, lift. destruct r; auto. Qed.
Lemma wp_state x Q : Q (ex_state x) x → wp state x Q.
Proof. done. Qed.
Lemma wp_get x Q : Q x x → wp get x Q.
Proof. done. Qed.
Lemma wp_get_cpu x Q : Q (cpu (ex_state x)) x → wp get_cpu x Q.
Proof. done. Qed.
Lemma wp_put x y Q : Q () y → wp (put y) x Q.
Proof. done. Qed.
Lemma wp_modify_state f x Q : Q () (x <| ex_state := f (ex_state x) |>) → wp (modify_state f) x Q.
Proof. done. Qed.
Lemma wp_push_event e x Q : Q () (x <| ex_events := ex_events x ++ [e] |>) → wp (push_event e) x Q.
Proof. done. Qed.

(** What an accepted run says, and that it does not fail internally. *)
Lemma wp_ok {A} (m : M A) x Q a x' : wp m x Q → m x = Ok (a, x') → Q a x'.
Proof. unfold wp. intros HQ E. by rewrite E in HQ. Qed.
Lemma wp_err {A} (m : M A) x Q e : wp m x Q → m x = Err e → internal_error e = false.
Proof. unfold wp. intros HQ E. by rewrite E in HQ. Qed.

(** ** One bus access *)

(** The kind of access an instruction's bus pattern counts. *)
Module Shape.
Inductive AccessShape := Fetch | Immediate | DataRead | DataWrite | Dma.
End Shape.
Abbreviation AccessShape := Shape.AccessShape.

Definition shape_of (e : BusEvent) : AccessShape :=
  match e with
  | Ev.OpcodeFetch _ | Ev.MemoryOpcodeFetch _ => Shape.Fetch
  | Ev.ImmediateRead _ | Ev.MemoryImmediateRead _ => Shape.Immediate
  | Ev.RomRead _ | Ev.MemoryRead _ | Ev.Mbc3OpenBusRead _ _ | Ev.InputRead _ _
  | Ev.DmgMmioRead _ _ | Ev.DmgJoypadRead _ _ _ _ => Shape.DataRead
  | Ev.MemoryWrite _ | Ev.Mbc3ControlWrite _ _ | Ev.Mbc3IgnoredWrite _ _ | Ev.OutputWrite _ _
  | Ev.DmgMmioWrite _ _ _ => Shape.DataWrite
  | Ev.DmgDmaRomRead _ | Ev.DmgDmaMemoryRead _ | Ev.DmgDmaWrite _ => Shape.Dma
  end.

Definition event_address (e : BusEvent) : Z := bt_address (transcript_event e).
Definition event_value (e : BusEvent) : Z := bt_value (transcript_event e).

(** Whether the event stores a byte chosen by the machine. *)
Definition writes_value (e : BusEvent) : bool :=
  match e with
  | Ev.MemoryWrite _ | Ev.Mbc3ControlWrite _ _ | Ev.Mbc3IgnoredWrite _ _ | Ev.OutputWrite _ _
  | Ev.DmgMmioWrite _ _ _ | Ev.DmgDmaWrite _ => true
  | _ => false
  end.

Definition rom_read_of (e : BusEvent) : option RomRead :=
  match e with
  | Ev.OpcodeFetch r | Ev.ImmediateRead r | Ev.RomRead r | Ev.DmgDmaRomRead r => Some r
  | _ => None
  end.
Definition memory_access_of (e : BusEvent) : option MemoryAccess :=
  match e with
  | Ev.MemoryOpcodeFetch r | Ev.MemoryImmediateRead r | Ev.MemoryRead r | Ev.DmgDmaMemoryRead r =>
      Some (Read r)
  | Ev.MemoryWrite w | Ev.DmgDmaWrite w => Some (Write w)
  | _ => None
  end.

(** The physical byte of a data access: the mapper's in the external window, else the address. *)
Definition data_physical (s : VmState) (address : Z) : option Z :=
  if in_range 0xa000 0xbfff address then
    match external_window s address with Win.Ram physical => Some physical | _ => None end
  else Some address.
(** The physical byte of a memory event: an instruction fetch bypasses the mapper. *)
Definition event_physical (s : VmState) (e : BusEvent) : option Z :=
  match e with
  | Ev.MemoryOpcodeFetch _ | Ev.MemoryImmediateRead _ => Some (event_address e)
  | _ => data_physical s (event_address e)
  end.

Section access.
Context `{Sha256}.

Definition is_merkle (x : Executor) : Prop := ex_authentication x = Auth.Merkle.
Definition emit (e : BusEvent) (x : Executor) : Executor := x <| ex_events := ex_events x ++ [e] |>.
Definition with_state (s : VmState) (x : Executor) : Executor := x <| ex_state := s |>.
Definition with_witnesses (l : list BusWitness) (x : Executor) : Executor := x <| ex_witnesses := l |>.

Inductive access (x : Executor) (e : BusEvent) : Executor → Prop :=
| acc_rom read rest :
    ex_witnesses x = Wit.Rom read :: rest → rom_read_of e = Some read →
    owner (rr_address read) = Own.Rom →
    rr_physical_address read =
      map_rom_for (mbc3 (ex_state x)) (mbc3_cartridge_profile (profile (ex_state x))) (rr_address read) →
    (is_merkle x → rom_valid read (vm_rom_root (ex_state x))) →
    access x e (emit e (with_witnesses rest x))
| acc_read read rest :
    ex_witnesses x = Wit.MemoryRead read :: rest → memory_access_of e = Some (Read read) →
    state_owner (ex_state x) (mr_address read) = Own.Memory →
    event_physical (ex_state x) e = Some (mr_physical_address read) →
    (is_merkle x → read_valid read (memory_root (ex_state x))) →
    access x e (emit e (with_witnesses rest x))
| acc_write write rest root :
    ex_witnesses x = Wit.MemoryWrite write :: rest → memory_access_of e = Some (Write write) →
    state_owner (ex_state x) (mw_address write) = Own.Memory →
    event_physical (ex_state x) e = Some (mw_physical_address write) →
    (is_merkle x → write_valid write (memory_root (ex_state x)) root) →
    (¬ is_merkle x → root = memory_root (ex_state x)) →
    access x e (emit e (with_state ((ex_state x) <| memory_root := root |>) (with_witnesses rest x)))
| acc_control address value :
    e = Ev.Mbc3ControlWrite address value → address <= 0x7fff →
    access x e (emit e (with_state ((ex_state x) <| mbc3 :=
      apply_control_write_for (mbc3 (ex_state x)) (mbc3_cartridge_profile (profile (ex_state x)))
        address value |>) x))
| acc_open address :
    e = Ev.Mbc3OpenBusRead address 0xff → external_window (ex_state x) address = Win.Unavailable →
    in_range 0xa000 0xbfff address = true → access x e (emit e x)
| acc_ignored address value :
    e = Ev.Mbc3IgnoredWrite address value → external_window (ex_state x) address = Win.Unavailable →
    in_range 0xa000 0xbfff address = true → access x e (emit e x)
| acc_input value rest next :
    ex_witnesses x = Wit.InputByte value :: rest →
    e = Ev.InputRead (log_next_index (input_log (ex_state x))) value →
    log_append (input_log (ex_state x)) value = Ok next →
    access x e (emit e (with_state ((ex_state x) <| input_log := next |>) (with_witnesses rest x)))
| acc_joypad buttons rest next devices value :
    ex_witnesses x = Wit.InputByte buttons :: rest →
    is_dmg_post_boot_mbc3 (profile (ex_state x)) = true →
    sample_joypad (dmg_devices (ex_state x)) buttons = (devices, value) →
    e = Ev.DmgJoypadRead (log_next_index (input_log (ex_state x)))
          (joypad_buttons (dmg_devices (ex_state x))) buttons value →
    log_append (input_log (ex_state x)) buttons = Ok next →
    access x e (emit e (with_state ((ex_state x) <| dmg_devices := devices |> <| input_log := next |>)
                          (with_witnesses rest x)))
| acc_output value next :
    e = Ev.OutputWrite (log_next_index (output_log (ex_state x))) value →
    log_append (output_log (ex_state x)) value = Ok next →
    access x e (emit e (with_state ((ex_state x) <| output_log := next |>) x))
| acc_mmio_read address value :
    e = Ev.DmgMmioRead address value → dmg_owner address = Own.DmgMmio →
    is_dmg_post_boot_mbc3 (profile (ex_state x)) = true →
    read_mmio (dmg_devices (ex_state x)) address = Some value →
    access x e (emit e x)
| acc_mmio_write address before value devices :
    e = Ev.DmgMmioWrite address before value → dmg_owner address = Own.DmgMmio →
    is_dmg_post_boot_mbc3 (profile (ex_state x)) = true →
    write_mmio (dmg_devices (ex_state x)) address value = Some (devices, before) →
    access x e (emit e (with_state ((ex_state x) <| dmg_devices := devices |>) x)).

(** ** Specifications of the methods *)

Lemma next_witness_wp r x Q :
  (∀ w rest, ex_witnesses x = w :: rest → witness_kind w = request_kind r →
     Q w (with_witnesses rest x)) →
  wp (next_witness r) x Q.
Proof.
  intros HQ. apply wp_bind, wp_get. destruct (ex_witnesses x) as [|w rest] eqn:E; [done |].
  apply wp_bind, wp_put. cbn. case_bool_decide as Hk; [| done]. apply wp_ret. by apply HQ.
Qed.

Lemma require_address_wp a b role x Q :
  (b = a → Q () x) → wp (lift (require_address a b role)) x Q.
Proof. intros HQ. unfold require_address. destruct (Z.eqb_spec b a); [by apply HQ | done]. Qed.
Lemma require_physical_wp a b role x Q :
  (b = a → Q () x) → wp (lift (require_physical_address a b role)) x Q.
Proof. intros HQ. unfold require_physical_address. destruct (Z.eqb_spec b a); [by apply HQ | done]. Qed.

Lemma authenticate_rom_wp read x Q :
  ((is_merkle x → rom_valid read (vm_rom_root (ex_state x))) → Q () x) →
  wp (authenticate_rom read) x Q.
Proof.
  intros HQ. apply wp_bind, wp_get. destruct (decide _) as [Hm | Hm]; [| by apply HQ].
  pose proof (rom_verify_spec no_caches read (vm_rom_root (ex_state x)) no_caches_ok) as (_ & Hv & _).
  apply wp_lift; [| by destruct (rom_verify _ _ _).1; intros ? [= <-]].
  intros []. destruct (rom_verify _ _ _).1 as [[] |]; [| done]. intros _. apply HQ. intros _. by apply Hv.
Qed.

Lemma authenticate_read_wp read x Q :
  ((is_merkle x → read_valid read (memory_root (ex_state x))) → Q () x) →
  wp (authenticate_read read) x Q.
Proof.
  intros HQ. apply wp_bind, wp_get. destruct (decide _) as [Hm | Hm]; [| by apply HQ].
  pose proof (read_verify_spec no_caches read (memory_root (ex_state x)) no_caches_ok) as (_ & Hv & _).
  apply wp_lift; [| by destruct (read_verify _ _ _).1; intros ? [= <-]].
  intros []. destruct (read_verify _ _ _).1 as [[] |]; [| done]. intros _. apply HQ. intros _. by apply Hv.
Qed.

Lemma set_memory_root_same s : s <| memory_root := memory_root s |> = s.
Proof. by destruct s. Qed.
Lemma with_state_same x : with_state (ex_state x) x = x.
Proof. by destruct x. Qed.

Lemma authenticate_write_wp write x Q :
  (∀ root, (is_merkle x → write_valid write (memory_root (ex_state x)) root) →
     (¬ is_merkle x → root = memory_root (ex_state x)) →
     Q () (with_state ((ex_state x) <| memory_root := root |>) x)) →
  wp (authenticate_write write) x Q.
Proof.
  intros HQ. apply wp_bind, wp_get. destruct (decide _) as [Hm | Hm].
  - pose proof (write_verify_spec no_caches write (memory_root (ex_state x)) no_caches_ok) as (_ & Hv & _).
    apply wp_bind, wp_lift; [| by destruct (write_verify _ _ _).1; intros ? [= <-]].
    intros root Hr. apply wp_modify_state, HQ; [| done]. intros _. apply Hv.
    destruct (write_verify _ _ _).1; [by injection Hr as -> | done].
  - apply wp_ret. specialize (HQ (memory_root (ex_state x))).
    rewrite set_memory_root_same, with_state_same in HQ. by apply HQ.
Qed.

Lemma take_rom_read_wp a p role x Q :
  (∀ read rest, ex_witnesses x = Wit.Rom read :: rest → rr_address read = a →
     rr_physical_address read = p → (is_merkle x → rom_valid read (vm_rom_root (ex_state x))) →
     Q read (with_witnesses rest x)) →
  wp (take_rom_read a p role) x Q.
Proof.
  intros HQ. apply wp_bind, next_witness_wp. intros [read | | |] rest Hw Hk; try done.
  apply wp_bind, require_address_wp. intros Ha. apply wp_bind, require_physical_wp. intros Hp.
  apply wp_bind, authenticate_rom_wp. intros Hv. by apply wp_ret, HQ.
Qed.

Lemma take_memory_read_wp a p role x Q :
  (∀ read rest, ex_witnesses x = Wit.MemoryRead read :: rest → mr_address read = a →
     mr_physical_address read = p → (is_merkle x → read_valid read (memory_root (ex_state x))) →
     Q read (with_witnesses rest x)) →
  wp (take_memory_read a p role) x Q.
Proof.
  intros HQ. apply wp_bind, next_witness_wp. intros [| read | |] rest Hw Hk; try done.
  apply wp_bind, require_address_wp. intros Ha. apply wp_bind, require_physical_wp. intros Hp.
  apply wp_bind, authenticate_read_wp. intros Hv. by apply wp_ret, HQ.
Qed.

Lemma take_memory_write_wp a p v x Q :
  (∀ write rest, ex_witnesses x = Wit.MemoryWrite write :: rest → mw_address write = a →
     mw_physical_address write = p → mw_after write = v → Q write (with_witnesses rest x)) →
  wp (take_memory_write a p v) x Q.
Proof.
  intros HQ. apply wp_bind, next_witness_wp. intros [| | write |] rest Hw Hk; try done.
  apply wp_bind, require_address_wp. intros Ha. apply wp_bind, require_physical_wp. intros Hp.
  destruct (Z.eqb_spec (mw_after write) v); [| done]. by apply wp_ret, HQ.
Qed.

(** The post-condition shared by the accesses of an instruction: one event of the given shape at the
    given address. *)
Definition accessed (shape : AccessShape) (address : Z) (Q : Z → Executor → Prop) (x : Executor) : Prop :=
  ∀ e x', access x e x' → shape_of e = shape → event_address e = address → Q (event_value e) x'.

Lemma state_owner_rom s a : 0 <= a → state_owner s a = Own.Rom → owner a = Own.Rom.
Proof.
  unfold state_owner. case_match; [| done]. intros ? ?%dmg_owner_rom; [| done]. by apply owner_rom.
Qed.
Lemma window_owner s a : in_range 0xa000 0xbfff a = true → state_owner s a = Own.Memory.
Proof.
  unfold in_range. intros Ha. unfold state_owner. case_match.
  - apply dmg_owner_memory. lia.
  - apply owner_memory; lia.
Qed.
Lemma data_physical_plain s a : in_range 0xa000 0xbfff a = false → data_physical s a = Some a.
Proof. unfold data_physical. by intros ->. Qed.
Lemma data_physical_ram s a p :
  in_range 0xa000 0xbfff a = true → external_window s a = Win.Ram p → data_physical s a = Some p.
Proof. unfold data_physical. by intros -> ->. Qed.

Lemma fetch_wp a role shape x Q :
  0 <= a → state_owner (ex_state x) a = Own.Rom →
  match role with
  | Role.OpcodeFetch => Shape.Fetch | Role.ImmediateRead => Shape.Immediate
  | _ => Shape.DataRead
  end = shape → role ≠ Role.DataWrite →
  accessed shape a Q x → wp (fetch a role) x Q.
Proof.
  intros Ha Ho <- Hr HQ. apply state_owner_rom in Ho; [| done].
  apply wp_bind, wp_state, wp_bind, take_rom_read_wp. intros read rest Hw Hra Hp Hv.
  assert (Hacc : ∀ e, rom_read_of e = Some read → access x e (emit e (with_witnesses rest x))).
  { intros e He. eapply acc_rom; rewrite ?Hra; done. }
  apply wp_bind. destruct role; try done; apply wp_push_event, wp_ret.
  - by apply (HQ _ _ (Hacc (Ev.OpcodeFetch read) eq_refl)).
  - by apply (HQ _ _ (Hacc (Ev.ImmediateRead read) eq_refl)).
  - by apply (HQ _ _ (Hacc (Ev.RomRead read) eq_refl)).
Qed.

Lemma read_memory_wp a p x Q :
  state_owner (ex_state x) a = Own.Memory → data_physical (ex_state x) a = Some p →
  accessed Shape.DataRead a Q x → wp (read_memory a p) x Q.
Proof.
  intros Ho Hd HQ. apply wp_bind, take_memory_read_wp. intros read rest Hw Hra Hp Hv.
  apply wp_bind, wp_push_event, wp_ret.
  apply (HQ (Ev.MemoryRead read) (emit _ (with_witnesses rest x))); [| done | done].
  eapply acc_read; rewrite ?Hra; try done. cbn. unfold event_address. cbn. by rewrite Hra, Hp.
Qed.

Lemma read_instruction_memory_wp a role shape x Q :
  state_owner (ex_state x) a = Own.Memory →
  (role = Role.OpcodeFetch ∧ shape = Shape.Fetch ∨ role = Role.ImmediateRead ∧ shape = Shape.Immediate) →
  accessed shape a Q x → wp (read_instruction_memory a role) x Q.
Proof.
  intros Ho Hr HQ. apply wp_bind, take_memory_read_wp. intros read rest Hw Hra Hp Hv.
  apply wp_bind. destruct Hr as [[-> ->] | [-> ->]]; apply wp_push_event, wp_ret.
  - apply (HQ (Ev.MemoryOpcodeFetch read) (emit _ (with_witnesses rest x))); [| done | done].
    eapply acc_read; rewrite ?Hra; try done. cbn. unfold event_address. cbn. by rewrite Hra, Hp.
  - apply (HQ (Ev.MemoryImmediateRead read) (emit _ (with_witnesses rest x))); [| done | done].
    eapply acc_read; rewrite ?Hra; try done. cbn. unfold event_address. cbn. by rewrite Hra, Hp.
Qed.

Lemma write_memory_wp a p v x Q :
  state_owner (ex_state x) a = Own.Memory → data_physical (ex_state x) a = Some p →
  (∀ e x', access x e x' → shape_of e = Shape.DataWrite → event_address e = a → event_value e = v →
     Q () x') →
  wp (write_memory a p v) x Q.
Proof.
  intros Ho Hd HQ. apply wp_bind, take_memory_write_wp. intros write rest Hw Ha Hp Hv.
  apply wp_bind, authenticate_write_wp. intros root Hm Hn. apply wp_push_event.
  apply (HQ (Ev.MemoryWrite write)
          (emit _ (with_state ((ex_state x) <| memory_root := root |>) (with_witnesses rest x))));
    [| done | done | done].
  eapply acc_write; rewrite ?Ha; try done. cbn. unfold event_address. cbn. by rewrite Ha, Hp.
Qed.

Lemma log_append_wp l v x Q :
  (∀ next, log_append l v = Ok next → Q next x) →
  wp (lift (map_err SErr.LogCommitment (log_append l v))) x Q.
Proof.
  intros HQ. apply wp_lift; destruct (log_append l v); intros ? [= <-]; [by apply HQ | done].
Qed.

Lemma read_input_wp x Q : accessed Shape.DataRead INPUT_PORT Q x → wp read_input x Q.
Proof.
  intros HQ. apply wp_bind, next_witness_wp. intros [| | | v] rest Hw Hk; try done.
  apply wp_bind, wp_state, wp_bind, log_append_wp. intros next Hn.
  apply wp_bind, wp_modify_state, wp_bind, wp_push_event, wp_ret.
  apply (HQ (Ev.InputRead (log_next_index (input_log (ex_state x))) v)
    (emit _ (with_state ((ex_state x) <| input_log := next |>) (with_witnesses rest x)))); [| done | done].
  by eapply acc_input.
Qed.

Lemma read_dmg_joypad_wp x Q :
  is_dmg_post_boot_mbc3 (profile (ex_state x)) = true →
  accessed Shape.DataRead 0xff00 Q x → wp read_dmg_joypad x Q.
Proof.
  intros Hd HQ. apply wp_bind, next_witness_wp. intros [| | | v] rest Hw Hk; try done.
  apply wp_bind, wp_state, wp_bind, log_append_wp. intros next Hn.
  destruct (sample_joypad _ _) as [devices value] eqn:Es.
  apply wp_bind, wp_modify_state, wp_bind, wp_modify_state, wp_bind, wp_push_event, wp_ret.
  apply (HQ (Ev.DmgJoypadRead (log_next_index (input_log (ex_state x)))
          (joypad_buttons (dmg_devices (ex_state x))) v value)
    (emit _ (with_state ((ex_state x) <| dmg_devices := devices |> <| input_log := next |>)
               (with_witnesses rest x)))); [| done | done].
  by eapply acc_joypad.
Qed.

Lemma dmg_state_owner s a : state_owner s a = Own.DmgMmio →
  is_dmg_post_boot_mbc3 (profile s) = true ∧ dmg_owner a = Own.DmgMmio.
Proof. unfold state_owner. case_match; [done |]. intros Ho. exfalso. owner_cases. Qed.

Lemma read_dmg_mmio_wp a x Q :
  state_owner (ex_state x) a = Own.DmgMmio →
  accessed Shape.DataRead a Q x → wp (read_dmg_mmio a) x Q.
Proof.
  intros [Hd Ho]%dmg_state_owner HQ. apply wp_bind, wp_state, wp_bind, wp_lift;
    destruct (read_mmio _ a) as [v |] eqn:E; intros ? [= <-]; try done.
  apply wp_bind, wp_push_event, wp_ret.
  apply (HQ (Ev.DmgMmioRead a v) (emit _ x)); [| done | done]. by eapply acc_mmio_read.
Qed.

Lemma write_dmg_mmio_wp a v x Q :
  state_owner (ex_state x) a = Own.DmgMmio →
  (∀ e x', access x e x' → shape_of e = Shape.DataWrite → event_address e = a → event_value e = v →
     Q () x') →
  wp (write_dmg_mmio a v) x Q.
Proof.
  intros [Hd Ho]%dmg_state_owner HQ. apply wp_bind, wp_state, wp_bind, wp_lift;
    destruct (write_mmio _ a v) as [[devices before] |] eqn:E; intros ? [= <-]; try done.
  apply wp_bind, wp_modify_state, wp_push_event.
  apply (HQ (Ev.DmgMmioWrite a before v)
    (emit _ (with_state ((ex_state x) <| dmg_devices := devices |>) x))); try done.
  by eapply acc_mmio_write.
Qed.

Lemma write_output_wp v x Q :
  (∀ e x', access x e x' → shape_of e = Shape.DataWrite → event_address e = OUTPUT_PORT →
     event_value e = v → Q () x') →
  wp (write_output v) x Q.
Proof.
  intros HQ. apply wp_bind, wp_state, wp_bind, log_append_wp. intros next Hn.
  apply wp_bind, wp_modify_state, wp_push_event.
  apply (HQ (Ev.OutputWrite (log_next_index (output_log (ex_state x))) v)
    (emit _ (with_state ((ex_state x) <| output_log := next |>) x))); try done.
  by eapply acc_output.
Qed.

Lemma cpu_access_wp a x (Q : () → Executor → Prop) :
  Q () x → wp (require_cpu_dma_access a) x Q ∧ wp (require_cpu_ppu_access a) x Q.
Proof.
  intros HQ. split; apply wp_bind, wp_state.
  - unfold cpu_dma_access. by case_match.
  - unfold cpu_ppu_access. by repeat case_match.
Qed.

(** ** The three entry points *)

Lemma fetch_instruction_wp a role shape x Q :
  0 <= a →
  (role = Role.OpcodeFetch ∧ shape = Shape.Fetch ∨ role = Role.ImmediateRead ∧ shape = Shape.Immediate) →
  accessed shape a Q x → wp (fetch_instruction a role) x Q.
Proof.
  intros Ha Hr HQ. apply wp_bind, cpu_access_wp, wp_bind, cpu_access_wp, wp_bind, wp_state.
  destruct (state_owner (ex_state x) a) eqn:Eo; try done.
  - eapply fetch_wp; eauto; by destruct Hr as [[-> ->] | [-> ->]].
  - by eapply read_instruction_memory_wp.
Qed.

Lemma read_data_wp a x Q :
  0 <= a → accessed Shape.DataRead a Q x → wp (read_data a) x Q.
Proof.
  intros Ha HQ. apply wp_bind, cpu_access_wp, wp_bind, cpu_access_wp, wp_bind, wp_state.
  destruct (is_dmg_post_boot_mbc3 _ && _) eqn:Ej.
  { apply andb_true_iff in Ej as [Hd ->%Z.eqb_eq]. by apply read_dmg_joypad_wp. }
  destruct (in_range 0xa000 0xbfff a) eqn:Er.
  - destruct (external_window _ a) eqn:Ew; [| done |].
    + apply read_memory_wp; [by apply window_owner | by apply data_physical_ram | done].
    + apply wp_bind, wp_push_event, wp_ret.
      apply (HQ (Ev.Mbc3OpenBusRead a 0xff) (emit _ x)); [by eapply acc_open | done | done].
  - destruct (state_owner (ex_state x) a) eqn:Eo; try done.
    + by eapply fetch_wp.
    + apply read_memory_wp; [done | by apply data_physical_plain | done].
    + apply read_input_wp. unfold state_owner in Eo. case_match; [owner_cases |].
      by apply owner_input in Eo as ->.
    + by apply read_dmg_mmio_wp.
Qed.

Lemma write_data_wp a v x Q :
  0 <= a →
  (∀ e x', access x e x' → shape_of e = Shape.DataWrite → event_address e = a → event_value e = v →
     Q () x') →
  wp (write_data a v) x Q.
Proof.
  intros Ha HQ. apply wp_bind, cpu_access_wp, wp_bind, cpu_access_wp, wp_bind, wp_state.
  destruct (Z.leb_spec a 0x7fff).
  { apply wp_bind, wp_modify_state, wp_push_event.
    apply (HQ (Ev.Mbc3ControlWrite a v) (emit _ (with_state ((ex_state x) <| mbc3 :=
      apply_control_write_for (mbc3 (ex_state x)) (mbc3_cartridge_profile (profile (ex_state x))) a v |>) x)));
      try done. by eapply acc_control. }
  destruct (in_range 0xa000 0xbfff a) eqn:Er.
  - destruct (external_window _ a) eqn:Ew; [| done |].
    + apply write_memory_wp; [by apply window_owner | by apply data_physical_ram | done].
    + apply wp_push_event.
      apply (HQ (Ev.Mbc3IgnoredWrite a v) (emit _ x)); try done. by eapply acc_ignored.
  - destruct (state_owner (ex_state x) a) eqn:Eo; try done.
    + apply state_owner_rom, owner_rom in Eo; lia.
    + apply write_memory_wp; [done | by apply data_physical_plain | done].
    + apply write_output_wp. unfold state_owner in Eo. case_match; [owner_cases |].
      by apply owner_output in Eo as ->.
    + by apply write_dmg_mmio_wp.
Qed.

(** ** One OAM-DMA byte *)

Definition dma_accessed (source destination : Z) (Q : Executor → Prop) (x : Executor) : Prop :=
  ∀ e1 x1 e2 x2, access x e1 x1 → shape_of e1 = Shape.Dma → event_address e1 = source →
    writes_value e1 = false → dmg_devices (ex_state x2) = dmg_devices (ex_state x) →
    access x1 e2 x2 → shape_of e2 = Shape.Dma → event_address e2 = destination →
    event_value e2 = event_value e1 →
    Q (with_state ((ex_state x2) <| dmg_devices := complete_dma_byte (dmg_devices (ex_state x2)) |>) x2).

Lemma dma_source_byte_wp a x (Q : Z → Executor → Prop) :
  0 <= a →
  (∀ e x', access x e x' → shape_of e = Shape.Dma → event_address e = a → writes_value e = false →
     ex_state x' = ex_state x → Q (event_value e) x') →
  wp (dma_source_byte a) x Q.
Proof.
  intros Ha HQ. apply wp_bind, wp_state. destruct (state_owner (ex_state x) a) eqn:Eo; try done.
  - apply state_owner_rom in Eo; [| done].
    apply wp_bind, take_rom_read_wp. intros read rest Hw Hra Hp Hv. apply wp_bind, wp_push_event, wp_ret.
    apply (HQ (Ev.DmgDmaRomRead read) (emit _ (with_witnesses rest x))); try done.
    by eapply acc_rom; rewrite ?Hra.
  - apply wp_bind. eapply (wp_mono _ _ (λ p x', x' = x ∧ data_physical (ex_state x) a = Some p)).
    { destruct (in_range 0xa000 0xbfff a) eqn:Er.
      - destruct (external_window _ a) eqn:Ew; try done. apply wp_ret. split; [done |].
        by apply data_physical_ram.
      - apply wp_ret. split; [done |]. by apply data_physical_plain. }
    intros p ? [-> Hd]. apply wp_bind, take_memory_read_wp. intros read rest Hw Hra Hp Hv.
    apply wp_bind, wp_push_event, wp_ret.
    apply (HQ (Ev.DmgDmaMemoryRead read) (emit _ (with_witnesses rest x))); try done.
    eapply acc_read; rewrite ?Hra; try done. cbn. unfold event_address. cbn. by rewrite Hra, Hp.
Qed.

Lemma copy_dma_byte_wp x (Q : () → Executor → Prop) :
  let d := dmg_devices (ex_state x) in
  let destination := dma_destination_address d in
  0 <= dma_source_address d → state_owner (ex_state x) destination = Own.Memory →
  in_range 0xa000 0xbfff destination = false →
  dma_accessed (dma_source_address d) destination (Q ()) x →
  wp copy_dma_byte x Q.
Proof.
  intros d destination Hs Ho Hr HQ. apply wp_bind, wp_state. cbv beta zeta. case_match; [done |].
  apply wp_bind, dma_source_byte_wp; [done |]. intros e1 x1 Ha Hsh Had Hwv1 Hst.
  apply wp_bind, take_memory_write_wp. intros write rest Hw Hwa Hwp Hwv.
  apply wp_bind, authenticate_write_wp. intros root Hm Hn.
  apply wp_bind, wp_push_event, wp_modify_state.
  apply (HQ e1 x1 (Ev.DmgDmaWrite write) (emit (Ev.DmgDmaWrite write)
    (with_state ((ex_state x1) <| memory_root := root |>) (with_witnesses rest x1))));
    try done; [cbn; by rewrite Hst |].
  eapply acc_write; rewrite ?Hwa; try done; [by rewrite Hst |].
  cbn. unfold event_address. cbn. rewrite Hwa, Hwp. by apply data_physical_plain.
Qed.
End access.
