(* ===== verification/StepLogic.v ===== *)
(** * The executor invariant and the logic of instruction bodies

    [good s0 active x] is the invariant of an executor started from [s0]. [StepLogic] is the interface
    of a program logic for executor methods: any family of predicates closed under the monad, under
    CPU updates that keep the CPU well formed and under the three bus methods. [execute_logic] shows
    once and for all that every instruction handler is in every such logic. *)
From S2P Require Import Prelude IsaTypes Metadata Decode Flags Alu Address Commitment Merkle Image Logs.
From S2P Require Import Mbc3 Timer Apu Device State Bus Execute Access.

(** ** Bounds of the mapper and of the device registers *)

Lemma map_rom_bound p m a :
  mbc3_ok p m → 0 <= a < 0x8000 → 0 <= map_rom_for m p a < byte_length (rom_size p).
Proof.
  intros [Hb _] Ha. pose proof (max_bank_bound (rom_size p)). rewrite <- max_bank_length.
  unfold map_rom_for, ROM_BANK_BYTES. case_match; lia.
Qed.
Lemma byte_length_bound c : byte_length c <= 2 ^ 20.
Proof. by destruct c. Qed.

Lemma window_ram_bound p m a q :
  mbc3_ok p m → external_window_for m p a = Win.Ram q → 0x10000 <= q < 0x18000.
Proof.
  intros [_ Hs]. unfold external_window_for, SRAM_PHYSICAL_BASE, SRAM_BANK_BYTES, in_range.
  repeat case_match; intros; simplify_eq; try done. lia.
Qed.

Lemma store_register_active d before address value d' :
  store_register d before address value = Some d' → dma_active d = true → dma_active d' = true.
Proof.
  unfold store_register, request_joypad_falling_edge, request.
  repeat case_match; intros [= <-]; cbn; auto.
Qed.

Lemma request_stat_active d b : dma_active (request_stat_rising_edge d b) = dma_active d.
Proof. unfold request_stat_rising_edge, request. by case_match. Qed.

(** A register write never stops a transfer. *)
Lemma write_mmio_active d address value d' before :
  write_mmio d address value = Some (d', before) → dma_active d = true → dma_active d' = true.
Proof.
  rewrite write_mmio_region. destruct (read_mmio d address) as [p |]; [| done]. cbn [mbind option_bind].
  case_match; [| case_match].
  - destruct (Timer.write _ _ _) as [[t q] |]; [| done]. cbn. by intros [= <- <-].
  - destruct (Apu.write _ _ _) as [[t q] |]; [| done]. cbn. by intros [= <- <-].
  - destruct (store_register _ _ _ _) as [e |] eqn:E; [| done]. cbn. intros [= <- <-] Ha.
    apply store_register_active in E; [| done]. case_match; [by rewrite request_stat_active | done].
Qed.

Lemma sample_joypad_fields d b : let '(d', v) := sample_joypad d b in
  dma_active d' = dma_active d ∧ dma_owed d' = dma_owed d.
Proof. unfold sample_joypad, request_joypad_falling_edge, request. by case_match. Qed.

Lemma sample_joypad_bound d b : device_ok d → is_u8 b → is_u8 (sample_joypad d b).2.
Proof.
  intros Hd Hb. apply (visible_joypad_bound (d <| joypad_buttons := b |>)). destruct Hd. by split; cbn.
Qed.

Lemma read_mmio_bound d a v : device_ok d → read_mmio d a = Some v → is_u8 v.
Proof.
  intros Hd Hr. destruct (is_mmio a) eqn:E; [| by rewrite read_mmio_none in Hr].
  destruct (read_mmio_some d a Hd E) as (w & Hw & Hb). rewrite Hr in Hw. by injection Hw as ->.
Qed.

Lemma write_mmio_ok d a v d' before :
  device_ok d → is_u8 v → write_mmio d a v = Some (d', before) → device_ok d'.
Proof.
  intros Hd Hv Hw. destruct (is_mmio a) eqn:E.
  - destruct (write_mmio_some d a v Hd Hv E) as (? & ? & Hw' & _ & _ & ?). congruence.
  - rewrite write_mmio_region, read_mmio_none in Hw by done. done.
Qed.

Section invariant.
Context `{Sha256}.

Lemma log_append_ok l v next :
  log_append l v = Ok next → is_u64 (log_next_index l) →
  log_kind next = log_kind l ∧ is_u64 (log_next_index next).
Proof.
  unfold log_append, checked_add_u64. destruct (Z.ltb_spec (log_next_index l + 1) 18446744073709551616);
    cbn; intros [= <-] Hl. cbn. split; [done | lia].
Qed.

(** ** Good executors *)

(** The ranges the types of a witness impose. *)
Definition witness_ok (w : BusWitness) : Prop :=
  match w with
  | Wit.Rom r => is_u8 (rr_value r) ∧ path_ok (rr_path r)
  | Wit.MemoryRead r => is_u8 (mr_value r) ∧ path_ok (mr_path r)
  | Wit.MemoryWrite w => is_u8 (mw_before w) ∧ path_ok (mw_path w)
  | Wit.InputByte v => is_u8 v
  end.

(** What every emitted event satisfies: it is canonical for the transcript, its witness lies in the
    cartridge or in the committed memory, and it carries a byte. *)
Record event_good (s0 : VmState) (e : BusEvent) : Prop := {
  eg_canonical : event_ok (transcript_event e);
  eg_memory : ∀ a, memory_access_of e = Some a → access_ok a;
  eg_rom : ∀ r, rom_read_of e = Some r → path_ok (rr_path r) ∧
    0 <= rr_physical_address r < byte_length (rom_size (mbc3_cartridge_profile (profile s0)));
  eg_value : is_u8 (event_value e)
}.

Record good (s0 : VmState) (active : bool) (x : Executor) : Prop := {
  good_vm : vm_ok (ex_state x);
  good_profile : profile (ex_state x) = profile s0;
  good_rom : vm_rom_root (ex_state x) = vm_rom_root s0;
  good_bus : bus_transcript (ex_state x) = bus_transcript s0;
  good_isa : isa_transcript (ex_state x) = isa_transcript s0;
  good_active : active = true → dma_active (dmg_devices (ex_state x)) = true;
  good_witnesses : Forall witness_ok (ex_witnesses x);
  good_events : Forall (event_good s0) (ex_events x)
}.

Lemma kind_code_bound k : 0 <= kind_code k < 19.
Proof. destruct k; cbn; lia. Qed.

Lemma event_physical_bound s e p :
  vm_ok s → is_u16 (event_address e) → event_physical s e = Some p → 0 <= p < MUTABLE_COMMITMENT_BYTES.
Proof.
  intros Hs Ha. unfold MUTABLE_COMMITMENT_BYTES.
  assert (data_physical s (event_address e) = Some p → 0 <= p < 131072).
  { unfold data_physical. case_match; [| intros [= <-]; lia].
    unfold external_window. destruct (external_window_for _ _ _) eqn:E; intros [= <-].
    apply (window_ram_bound _ _ _ _ (ok_mbc3 s Hs)) in E. lia. }
  unfold event_physical. destruct e; auto; intros [= <-]; lia.
Qed.

(** The step from one good executor to the next, given the bytes the CPU supplies. *)
Local Ltac event_tac :=
  unfold event_address, event_value in *; split; cbn in *; change (2 ^ 20) with 1048576 in *; try done; lia.

Lemma with_witnesses_same x : with_witnesses (ex_witnesses x) x = x.
Proof. by destruct x. Qed.

Lemma emit_good s0 active x e s rest :
  good s0 active x → event_good s0 e → vm_ok s → profile s = profile s0 →
  vm_rom_root s = vm_rom_root s0 → bus_transcript s = bus_transcript s0 →
  isa_transcript s = isa_transcript s0 →
  (dma_active (dmg_devices (ex_state x)) = true → dma_active (dmg_devices s) = true) →
  Forall witness_ok rest →
  good s0 active (emit e (with_state s (with_witnesses rest x))).
Proof.
  intros [] He Hs ? ? ? ? Ha Hr. split; cbn; auto. apply Forall_app. split; [done |]. by constructor.
Qed.

Lemma access_value s0 active x e x' :
  good s0 active x → access x e x' → (writes_value e = true → is_u8 (event_value e)) → is_u8 (event_value e).
Proof.
  intros Hg Hacc Hv. pose proof (good_vm _ _ _ Hg) as Hs. pose proof (good_witnesses _ _ _ Hg) as Hw.
  destruct Hacc as [read rest Hx He | read rest Hx He | write rest root Hx He | | address -> | | value rest next Hx ->
    | buttons rest next devices value Hx Hd Hsam -> | | address value -> Ho Hd Hr |]; subst; auto.
  - rewrite Hx in Hw. apply Forall_cons in Hw as [[Hb _] _]. by destruct e; try done; injection He as <-.
  - rewrite Hx in Hw. apply Forall_cons in Hw as [[Hb _] _]. by destruct e; try done; injection He as ->.
  - apply Hv. by destruct e.
  - cbn. lia.
  - rewrite Hx in Hw. by apply Forall_cons in Hw as [Hb _].
  - rewrite Hx in Hw. apply Forall_cons in Hw as [Hb _].
    pose proof (sample_joypad_bound _ _ (ok_devices _ Hs) Hb) as Hval. by rewrite Hsam in Hval.
  - by eapply read_mmio_bound; [apply Hs |].
Qed.

Lemma access_event_good s0 active x e x' :
  good s0 active x → access x e x' → is_u16 (event_address e) → is_u8 (event_value e) → event_good s0 e.
Proof.
  intros Hg Hacc Ha Hval. pose proof (good_vm _ _ _ Hg) as Hs.
  pose proof (good_witnesses _ _ _ Hg) as Hw. pose proof (ok_input_index _ Hs) as Hin.
  pose proof (ok_output_index _ Hs) as Hout.
  assert (Hk := kind_code_bound (event_kind e)).
  destruct Hacc as [read rest Hx He Ho Hp _ | read rest Hx He Ho Hp _ | write rest root Hx He Ho Hp _ _
    | address value -> Hle | address -> Hwin Hr | address value -> Hwin Hr | value rest next Hx -> Hl
    | buttons rest next devices value Hx Hd Hsam -> Hl | value next -> Hl | address value -> Ho Hd Hr
    | address before value devices -> Ho Hd Hw'];
    try (split; [event_tac | intros ? [=] | intros ? [=] | exact Hval]).
  - rewrite Hx in Hw. apply Forall_cons in Hw as [[Hb Hpath] Hrest].
    apply owner_rom in Ho; [| destruct e; try done; injection He as <-; apply Ha].
    pose proof (map_rom_bound _ _ (rr_address read) (ok_mbc3 _ Hs)) as Hm. rewrite <- Hp in Hm.
    rewrite (good_profile _ _ _ Hg) in Hm.
    pose proof (byte_length_bound (rom_size (mbc3_cartridge_profile (profile s0)))) as Hlen.
    destruct e; try done; injection He as <-; unfold event_address in Ha; cbn in Ha;
      specialize (Hm ltac:(lia));
      (split; [event_tac | intros ? [=] | intros ? [= <-]; by split | exact Hval]).
  - rewrite Hx in Hw. apply Forall_cons in Hw as [[Hb Hpath] Hrest].
    pose proof (event_physical_bound _ _ _ Hs Ha Hp) as Hq. unfold MUTABLE_COMMITMENT_BYTES in Hq.
    destruct e; try done; injection He as ->;
      (split; [event_tac | intros ? [= <-]; by split | intros ? [=] | exact Hval]).
  - rewrite Hx in Hw. apply Forall_cons in Hw as [[Hb Hpath] Hrest].
    pose proof (event_physical_bound _ _ _ Hs Ha Hp) as Hq. unfold MUTABLE_COMMITMENT_BYTES in Hq.
    destruct e; try done; injection He as ->;
      (split; [event_tac | intros ? [= <-]; by split | intros ? [=] | exact Hval]).
Qed.

Lemma access_good s0 active x e x' :
  good s0 active x → access x e x' → is_u16 (event_address e) →
  (writes_value e = true → is_u8 (event_value e)) →
  good s0 active x' ∧ is_u8 (event_value e).
Proof.
  intros Hg Hacc Ha Hv. pose proof (access_value _ _ _ _ _ Hg Hacc Hv) as Hval.
  pose proof (access_event_good _ _ _ _ _ Hg Hacc Ha Hval) as Heg. split; [| done].
  pose proof (good_vm _ _ _ Hg) as Hs. pose proof (good_witnesses _ _ _ Hg) as Hw.
  destruct Hacc as [read rest Hx He Ho Hp _ | read rest Hx He Ho Hp _ | write rest root Hx He Ho Hp _ _
    | address value -> Hle | address -> Hwin Hr | address value -> Hwin Hr | value rest next Hx -> Hl
    | buttons rest next devices value Hx Hd Hsam -> Hl | value next -> Hl | address value -> Ho Hd Hr
    | address before value devices -> Ho Hd Hw'].
  - rewrite Hx in Hw. apply Forall_cons in Hw as [_ Hrest].
    rewrite <- (with_state_same (with_witnesses rest x)). apply emit_good; try apply Hg; done.
  - rewrite Hx in Hw. apply Forall_cons in Hw as [_ Hrest].
    rewrite <- (with_state_same (with_witnesses rest x)). apply emit_good; try apply Hg; done.
  - rewrite Hx in Hw. apply Forall_cons in Hw as [_ Hrest].
    apply emit_good; try apply Hg; try done. destruct Hs. by split.
  - rewrite <- (with_witnesses_same x). apply emit_good; try apply Hg; try done.
    destruct Hs. split; cbn; auto. by apply apply_control_write_ok; [| cbn in Hval; lia].
  - rewrite <- (with_state_same x) at 1. rewrite <- (with_witnesses_same x).
    apply emit_good; try apply Hg; done.
  - rewrite <- (with_state_same x) at 1. rewrite <- (with_witnesses_same x).
    apply emit_good; try apply Hg; done.
  - rewrite Hx in Hw. apply Forall_cons in Hw as [_ Hrest].
    destruct (log_append_ok _ _ _ Hl (ok_input_index _ Hs)) as [Hkind Hidx].
    apply emit_good; try apply Hg; try done. destruct Hs. split; cbn; auto. congruence.
  - rewrite Hx in Hw. apply Forall_cons in Hw as [Hb Hrest].
    destruct (log_append_ok _ _ _ Hl (ok_input_index _ Hs)) as [Hkind Hidx].
    pose proof (sample_joypad_ok _ _ (ok_devices _ Hs) Hb) as Hdev.
    pose proof (sample_joypad_fields (dmg_devices (ex_state x)) buttons) as Hfld.
    rewrite Hsam in Hdev, Hfld. cbn [fst snd] in *. destruct Hfld as [Hfld _].
    apply emit_good; try apply Hg; try done.
    + destruct Hs. split; cbn; auto. congruence.
    + cbn. by rewrite Hfld.
  - destruct (log_append_ok _ _ _ Hl (ok_output_index _ Hs)) as [Hkind Hidx].
    rewrite <- (with_witnesses_same x). apply emit_good; try apply Hg; try done.
    destruct Hs. split; cbn; auto. congruence.
  - rewrite <- (with_state_same x) at 1. rewrite <- (with_witnesses_same x).
    apply emit_good; try apply Hg; done.
  - rewrite <- (with_witnesses_same x). apply emit_good; try apply Hg; try done.
    + pose proof (write_mmio_ok _ _ _ _ _ (ok_devices _ Hs) Hval Hw'). destruct Hs. by split.
    + intros Hact. cbn. by eapply write_mmio_active.
Qed.

(** ** Register updates keep the CPU well formed *)

Lemma register8_bound c r : cpu_ok c → is_u8 (register8 c r).
Proof. intros [[] _ _ _ _]. by destruct r. Qed.
Lemma register16_bound c r : cpu_ok c → is_u16 (register16 c r).
Proof. intros [[] _ _ Hsp _]. destruct r; cbn; auto with bounds. Qed.
Lemma stack_register_bound c r : cpu_ok c → is_u16 (stack_register c r).
Proof.
  intros Hc. destruct r; try by apply register16_bound.
  destruct Hc as [[] [] _ _ _]. apply be16_bound; done.
Qed.
Lemma set_register8_ok c r v : cpu_ok c → is_u8 v → cpu_ok (set_register8 r v c).
Proof. intros [[] ? ? ? ?] Hv. split; cbn; auto. by destruct r; split; cbn. Qed.
Lemma set_a_ok c v : cpu_ok c → is_u8 v → cpu_ok (set_a v c).
Proof. apply set_register8_ok. Qed.
Lemma a_bound c : cpu_ok c → is_u8 (reg_a (registers c)).
Proof. apply (register8_bound c R8.A). Qed.
Lemma c_bound c : cpu_ok c → is_u8 (reg_c (registers c)).
Proof. apply (register8_bound c R8.C). Qed.
Lemma set_register16_ok c r v : cpu_ok c → is_u16 v → cpu_ok (set_register16 r v c).
Proof.
  intros [[] ? ? ? ?] Hv. pose proof (hi8_bound v Hv). pose proof (lo8_bound v).
  destruct r; split; cbn; auto; by split; cbn.
Qed.
Lemma set_flags_ok c f : cpu_ok c → flags_ok f → cpu_ok (set_flags f c).
Proof. intros [] ?. by split. Qed.
Lemma set_pc_ok c v : cpu_ok c → is_u16 v → cpu_ok (set_pc v c).
Proof. intros [] ?. by split. Qed.
Lemma set_sp_ok c v : cpu_ok c → is_u16 v → cpu_ok (set_sp v c).
Proof. intros [] ?. by split. Qed.
Lemma set_ime_ok c v : cpu_ok c → cpu_ok (set_ime v c).
Proof. intros []. by split. Qed.
Lemma set_run_state_ok c v : cpu_ok c → cpu_ok (set_run_state v c).
Proof. intros []. by split. Qed.
Lemma write_result_ok c r : cpu_ok c → byte_result_ok r → cpu_ok (write_result r c).
Proof. intros Hc []. apply set_flags_ok; [by apply set_register8_ok | done]. Qed.
Lemma update_hl_ok c a : cpu_ok c → cpu_ok (update_hl_after_indirect a c).
Proof. intros Hc. destruct a; try done; apply set_register16_ok; auto with bounds. Qed.
Lemma indirect_address_bound c a : cpu_ok c → is_u16 (indirect_address c a).
Proof. intros Hc. destruct a; by apply register16_bound. Qed.
Lemma high_page_bound v : is_u8 v → is_u16 (Z.lor 0xff00 v).
Proof. intros. apply (lor_bound 0xff00 v 16); cbn; lia. Qed.
Lemma bit_mask_ok bit : 0 <= bit < 8 → ∃ m, bit_mask bit = Ok m ∧ is_u8 m.
Proof. intros Hb. unfold bit_mask. rewrite (proj2 (Z.ltb_lt _ _)) by lia. eauto with bounds. Qed.
Lemma flags_from_masked v :
  is_u8 v → ∃ f, flags_from_byte (Z.land v 0xf0) = Ok f ∧ flags_ok f ∧ flags_byte f = Z.land v 0xf0.
Proof.
  intros Hv. unfold flags_from_byte, from_byte.
  assert (E : Z.land (Z.land v 0xf0) 15 = 0) by (rewrite <- Z.land_assoc; apply Z.land_0_r).
  rewrite E. cbn. eexists. split; [reflexivity |]. split; [| done]. split; [| done].
  cbn. pose proof (land_bound_r v 0xf0). lia.
Qed.

End invariant.
#[export] Hint Resolve register8_bound register16_bound stack_register_bound set_register8_ok
  set_a_ok a_bound c_bound ok_sp ok_pc ok_flags set_register16_ok set_flags_ok set_pc_ok set_sp_ok set_ime_ok set_run_state_ok write_result_ok
  update_hl_ok indirect_address_bound high_page_bound : bounds.

(** ... and leave the cycle counter alone. *)
Lemma set_register8_cycles r v c : m_cycles (set_register8 r v c) = m_cycles c.
Proof. by destruct r. Qed.
Lemma set_register16_cycles r v c : m_cycles (set_register16 r v c) = m_cycles c.
Proof. by destruct r. Qed.
Lemma update_hl_cycles a c : m_cycles (update_hl_after_indirect a c) = m_cycles c.
Proof. by destruct a. Qed.
Create Rewrite HintDb cycles.
#[export] Hint Rewrite set_register8_cycles set_register16_cycles update_hl_cycles : cycles.

(** ** Executable instructions *)

(** How many immediate bytes an operation reads. *)
Definition needs (o : Op.Operation) : Z :=
  match o with
  | Op.StoreSpAbsolute | Op.Load16Immediate _ | Op.AbsoluteAccumulatorLoad _ | Op.Jump _
  | Op.Call _ => 2
  | Op.Load8Immediate _ | Op.Load8 _ Opd.Immediate | Op.HighImmediateLoad _ | Op.LoadHlSpOffset
  | Op.Alu8 _ Opd.Immediate | Op.AddSpOffset | Op.RelativeJump _ | Op.Stop => 1
  | _ => 0
  end.

Definition is_bit (cb : CbOp.CbOperation) : bool :=
  match cb with CbOp.TestBit _ | CbOp.ResetBit _ | CbOp.SetBit _ => true | _ => false end.

(** Operations whose operands the handlers accept. *)
Definition operands_ok (o : Op.Operation) : bool :=
  match o with
  | Op.Increment8 Opd.Immediate | Op.Decrement8 Opd.Immediate | Op.Load8Immediate Opd.Immediate
  | Op.Load8 Opd.Immediate _ | Op.Cb _ Opd.Immediate | Op.PrefixCb => false
  | Op.Cb (CbOp.TestBit bit) _ | Op.Cb (CbOp.ResetBit bit) _ | Op.Cb (CbOp.SetBit bit) _ =>
      (0 <=? bit) && (bit <? 8)
  | Op.RotateAccumulator cb => negb (is_bit cb)
  | Op.Restart vector => (0 <=? vector) && (vector <? 65536)
  | _ => true
  end.

Definition executable (i : DecodedInstruction) : bool :=
  operands_ok (operation i) && (needs (operation i) <=? immediate_reads (bus i)) &&
  bool_decide (class i = class_of (operation i)).

Lemma defined_executable i :
  defined_instruction i → operation i ≠ Op.PrefixCb → executable i = true.
Proof.
  intros Hi Hp. pose proof (defined_forall (λ i,
    bool_decide (operation i = Op.PrefixCb) || executable i) ltac:(by vm_compute) i Hi) as E.
  cbv beta in E. rewrite bool_decide_eq_false_2 in E by done. exact E.
Qed.

(** At least [n] fetched immediate bytes. *)
Definition immediate_ok (n : Z) (b : ImmediateBytes) : Prop :=
  (1 <= n → ∃ v, first b = Some v ∧ is_u8 v) ∧ (2 <= n → ∃ v, second b = Some v ∧ is_u8 v).

(** ** The interface of a logic for executor methods *)

Class StepLogic `{Sha256} (P : ∀ A, (A → Prop) → M A → Prop) := {
  sl_ret A (V : A → Prop) a : V a → P A V (mret a);
  sl_fail A (V : A → Prop) e : machine_error e = true → P A V (fail e);
  sl_bind A B (V : A → Prop) (W : B → Prop) m f :
    P A V m → (∀ a, V a → P B W (f a)) → P B W (m ≫= f);
  sl_get_cpu : P CpuState cpu_ok get_cpu;
  sl_modify_cpu f :
    (∀ c, cpu_ok c → cpu_ok (f c) ∧ m_cycles (f c) = m_cycles c) → P unit (λ _, True) (modify_cpu f);
  sl_fetch a role :
    is_u16 a → role = Role.OpcodeFetch ∨ role = Role.ImmediateRead →
    P Z (λ v, is_u8 v) (fetch_instruction a role);
  sl_read a : is_u16 a → P Z (λ v, is_u8 v) (read_data a);
  sl_write a v : is_u16 a → is_u8 v → P unit (λ _, True) (write_data a v)
}.


Section logic.
Context `{StepLogic P}.

Local Abbreviation ok m := (P _ (λ _, True) m).

Lemma sl_lift {A} (V : A → Prop) r :
  (∀ a, r = Ok a → V a) → (∀ e, r = Err e → machine_error e = true) → P A V (lift r).
Proof.
  intros Ha He. destruct r as [a | e]; [apply (sl_ret A V a); auto | apply (sl_fail A V e); auto].
Qed.

Lemma sl_byte n b : immediate_ok n b → 1 <= n → P Z (λ v, is_u8 v) (lift (byte b)).
Proof.
  intros [H1 _] Hn. destruct (H1 Hn) as (v & E & Hv). unfold byte. rewrite E. by apply sl_ret.
Qed.
Lemma sl_word n b : immediate_ok n b → 2 <= n → P Z (λ v, is_u16 v) (lift (word b)).
Proof.
  intros [H1 H2] Hn. destruct (H1 ltac:(lia)) as (v & E & Hv), (H2 Hn) as (w & E' & Hw).
  unfold word. rewrite E, E'. apply sl_ret. by apply be16_bound.
Qed.
Lemma sl_bit_mask bit : 0 <= bit < 8 → P Z (λ v, is_u8 v) (lift (bit_mask bit)).
Proof. intros Hb. destruct (bit_mask_ok bit Hb) as (m & -> & Hm). by apply sl_ret. Qed.

Lemma sl_update f : (∀ c, cpu_ok c → cpu_ok (f c) ∧ m_cycles (f c) = m_cycles c) → ok (modify_cpu f).
Proof. apply sl_modify_cpu. Qed.

Lemma sl_finish {B} (b : B) (m : M ()) : ok m → ok (_ ← m; mret b).
Proof. intros Hm. eapply sl_bind; [exact Hm |]. intros. by apply sl_ret. Qed.

End logic.

(** Symbolic execution of a handler: follow the monad, close the bounds with the hint database. *)
Ltac cycles_tac := autorewrite with cycles; reflexivity.
Ltac sl_step :=
  cbv beta in *;
  match goal with
  | |- ?P _ _ (_ ≫= _) => eapply sl_bind; [| intros ? ?]
  | |- ?P _ _ (mret _) => apply sl_ret; cbv beta; auto with bounds
  | |- ?P _ _ get_cpu => apply sl_get_cpu
  | |- ?P _ _ (modify_cpu _) =>
      apply sl_update; intros ? ?; split; [auto with bounds | cycles_tac]
  | |- ?P _ _ (read_data _) => apply sl_read; auto with bounds
  | |- ?P _ _ (write_data _ _) => apply sl_write; auto with bounds
  | |- ?P _ _ (lift (byte _)) => eapply sl_byte; [eassumption | lia]
  | |- ?P _ _ (lift (word _)) => eapply sl_word; [eassumption | lia]
  end.
Ltac sl_run := repeat sl_step.

(** The operations of one class. *)
Ltac class_cases o :=
  destruct o; try done; try (exfalso; match goal with
    | Hc : class_of (Op.Cb ?cb _) = _ |- _ => by destruct cb end).

Section handlers.
Context `{StepLogic P}.

Local Abbreviation ok m := (P _ (λ _, True) m).

Lemma read_operand_logic n o b :
  immediate_ok n b → (o = Opd.Immediate → 1 <= n) → P Z (λ v, is_u8 v) (read_operand o b).
Proof. intros Hb Hn. unfold read_operand. sl_step; [sl_step |]. destruct o; [| specialize (Hn eq_refl) |]; sl_run. Qed.

Lemma write_operand_logic o v : o ≠ Opd.Immediate → is_u8 v → ok (write_operand o v).
Proof. intros Ho Hv. unfold write_operand. sl_step; [sl_step |]. destruct o; [sl_run | done | sl_run]. Qed.

Lemma transfer_logic a d : is_u16 a → ok (transfer_accumulator a d).
Proof.
  intros Ha. destruct d; cbn [transfer_accumulator]; sl_run.
Qed.

Lemma store_sp_logic a : is_u16 a → ok (store_sp_absolute a).
Proof.
  intros Ha. unfold store_sp_absolute. sl_run.
Qed.

Lemma push_word_logic v : is_u16 v → ok (push_word v).
Proof. intros Hv. unfold push_word. sl_run. Qed.

Lemma pop_word_logic : P Z (λ v, is_u16 v) pop_word.
Proof.
  unfold pop_word. sl_run.
Qed.

Lemma set_stack_logic r v : is_u16 v → ok (set_stack_register r v).
Proof.
  intros Hv. destruct r; cbn [set_stack_register]; [sl_run | sl_run | sl_run |].
  sl_step; [sl_step |]. apply (sl_bind _ _ (λ f, flags_ok f)); [| intros; cbv beta in *; sl_step].
  destruct (flags_from_masked (lo8 v) (lo8_bound v)) as (f & -> & Hf & _). by apply sl_ret.
Qed.

Lemma control_logic o : class_of o = Cls.Control → ok (execute_control o).
Proof.
  intros Hc. unfold execute_control. sl_step; [sl_step |].
  apply sl_finish. class_cases o; sl_run.
Qed.

Lemma load_logic n o b :
  class_of o = Cls.Load → operands_ok o = true → needs o <= n → immediate_ok n b →
  ok (execute_load o b).
Proof.
  intros Hc Ho Hn Hb. unfold execute_load. sl_step; [sl_step |]. apply sl_finish.
  class_cases o; cbn [needs] in Hn.
  - sl_step; [sl_step | by apply store_sp_logic].
  - sl_run.
  - sl_step; [apply transfer_logic; auto with bounds |]. sl_run.
  - sl_step; [sl_step | apply write_operand_logic; [by destruct operand |]; auto].
  - sl_step; [eapply read_operand_logic; [done |]; intros ->; cbn in Hn; lia |].
    apply write_operand_logic; [by destruct destination |]; auto.
  - sl_step; [sl_step | apply transfer_logic; auto with bounds].
  - sl_step; [sl_step |]. destruct (add_signed_to_sp _ _) as [v f] eqn:E.
    pose proof (add_signed_to_sp_ok (sp a) a0) as Hr. rewrite E in Hr. destruct Hr. sl_run.
  - sl_run.
  - apply transfer_logic; auto with bounds.
  - sl_step; [sl_step | apply transfer_logic; auto with bounds].
Qed.

Lemma alu8_logic n o b :
  class_of o = Cls.Alu8 → operands_ok o = true → needs o <= n → immediate_ok n b →
  ok (execute_alu8 o b).
Proof.
  intros Hc Ho Hn Hb. unfold execute_alu8. apply sl_finish. class_cases o.
  - sl_step; [eapply read_operand_logic; [done |]; by intros -> |]. sl_step; [sl_step |].
    cbv beta in *. match goal with |- context [increment ?v ?f] => destruct (increment_ok v f) end.
    sl_step; [apply write_operand_logic; [by destruct operand | done] | sl_run].
  - sl_step; [eapply read_operand_logic; [done |]; by intros -> |]. sl_step; [sl_step |].
    cbv beta in *. match goal with |- context [decrement ?v ?f] => destruct (decrement_ok v f) end.
    sl_step; [apply write_operand_logic; [by destruct operand | done] | sl_run].
  - sl_step; [eapply read_operand_logic; [done |]; intros ->; cbn in Hn; lia |]. sl_step; [sl_step |].
    cbv beta in *.
    match goal with |- context [apply_alu ?o ?a ?v ?f] =>
      destruct (apply_alu_ok o a v f); [auto with bounds | done |] end.
    apply (sl_bind _ _ (λ _, True)); [case_match; sl_run | intros; sl_run].
Qed.

Lemma alu16_logic n o b :
  class_of o = Cls.Alu16 → needs o <= n → immediate_ok n b → ok (execute_alu16 o b).
Proof.
  intros Hc Hn Hb. unfold execute_alu16. sl_step; [sl_step |]. apply sl_finish.
  class_cases o; cbn [needs] in Hn.
  - cbv beta in *. match goal with |- context [add_hl ?l ?r ?f] => destruct (add_hl_ok l r f) end.
    destruct (add_hl _ _ _). sl_run.
  - sl_run.
  - sl_run.
  - sl_step; [sl_step |]. cbv beta in *.
    match goal with |- context [add_signed_to_sp ?s ?o] => destruct (add_signed_to_sp_ok s o) end.
    destruct (add_signed_to_sp _ _). sl_run.
Qed.

Lemma rotate_some cb v c z : is_bit cb = false → ∃ r, rotate_shift cb v c z = Some r.
Proof. destruct cb; try done; intros _; cbn; repeat case_match; eauto. Qed.

Lemma rotate_logic o b :
  class_of o = Cls.RotateShift → operands_ok o = true → immediate_ok 0 b → ok (execute_rotate o b).
Proof.
  intros Hc Ho Hb. unfold execute_rotate. apply sl_finish. class_cases o; cbn in Ho.
  - sl_step; [sl_step |]. cbv beta in *.
    match goal with |- context [rotate_shift ?cb ?v ?c false] =>
      destruct (rotate_some cb v c false) as [r Hr]; [by destruct (is_bit cb) | rewrite Hr] end.
    apply (sl_bind _ _ byte_result_ok); [apply sl_ret | intros; sl_run].
    eapply rotate_shift_ok; [| exact Hr]. auto with bounds.
  - sl_step; [eapply read_operand_logic; [done |]; by intros ->; destruct cb |]. sl_step; [sl_step |].
    cbv beta in *.
    match goal with |- context [rotate_shift _ ?v ?c true] =>
      destruct (rotate_some cb v c true) as [r Hr]; [by destruct cb | rewrite Hr] end.
    apply (sl_bind _ _ byte_result_ok); [apply sl_ret; by eapply rotate_shift_ok |]. intros q [Hv Hf].
    sl_step; [apply write_operand_logic; [by destruct operand, cb | done] | sl_run].
Qed.

Lemma bit_logic o b :
  class_of o = Cls.Bit → operands_ok o = true → immediate_ok 0 b → ok (execute_bit o b).
Proof.
  intros Hc Ho Hb. destruct o; try done. unfold execute_bit.
  assert (operand ≠ Opd.Immediate) by (by destruct operand, cb).
  sl_step; [eapply read_operand_logic; [done |]; done |]. apply sl_finish. cbv beta in *.
  destruct cb; try done; (assert (0 <= bit < 8) by (destruct operand; cbn in Ho; lia || done));
    (sl_step; [by apply sl_bit_mask |]).
  - sl_run.
  - cbv beta in *. apply write_operand_logic; auto with bounds.
  - cbv beta in *. apply write_operand_logic; auto with bounds.
Qed.

Lemma jump_logic n o b :
  class_of o = Cls.Jump → needs o <= n → immediate_ok n b → ok (execute_jump o b).
Proof.
  intros Hc Hn Hb. unfold execute_jump. sl_step; [sl_step |]. class_cases o; cbn [needs] in Hn;
    apply sl_finish; try case_match; sl_run.
Qed.

Lemma call_return_logic n o b :
  class_of o = Cls.CallReturn → operands_ok o = true → needs o <= n → immediate_ok n b →
  ok (execute_call_return o b).
Proof.
  intros Hc Ho Hn Hb. unfold execute_call_return. sl_step; [sl_step |].
  class_cases o; cbn [needs] in Hn; cbv beta in *.
  - apply sl_finish. case_match; [| sl_run]. sl_step; [apply pop_word_logic | sl_run].
  - sl_step; [apply pop_word_logic | sl_run].
  - apply sl_finish. case_match; [| sl_run]. sl_step; [apply push_word_logic; auto with bounds | sl_run].
  - sl_step; [apply push_word_logic; auto with bounds |]. cbn in Ho. sl_run.
Qed.

Lemma stack_logic o : class_of o = Cls.Stack → ok (execute_stack o).
Proof.
  intros Hc. unfold execute_stack. apply sl_finish. class_cases o.
  - sl_step; [apply pop_word_logic |]. cbv beta in *. by apply set_stack_logic.
  - sl_step; [sl_step |]. cbv beta in *. apply push_word_logic; auto with bounds.
Qed.

Lemma interrupt_logic o : class_of o = Cls.Interrupt → ok (execute_interrupt o).
Proof.
  intros Hc. unfold execute_interrupt. class_cases o;
    (apply (sl_bind _ _ (λ _, True)); [by apply sl_ret | intros; apply sl_finish; sl_run]).
Qed.

Lemma low_power_logic n o b :
  class_of o = Cls.LowPower → needs o <= n → immediate_ok n b → ok (execute_low_power o b).
Proof.
  intros Hc Hn Hb. unfold execute_low_power. class_cases o; cbn [needs] in Hn.
  - sl_step; [sl_step; [sl_step |]; cbv beta in *; case_match; [by apply sl_fail | by apply (sl_ret _ (λ _, True))] |].
    apply sl_finish. sl_run.
  - apply (sl_bind _ _ (λ _, True)); [by apply sl_ret | intros; apply sl_finish; sl_run].
Qed.

(** Every handler is in every logic. *)
Lemma execute_logic i b :
  executable i = true → immediate_ok (immediate_reads (bus i)) b → ok (execute i b).
Proof.
  unfold executable. rewrite !andb_true_iff, bool_decide_eq_true. intros [[Ho Hn%Z.leb_le] Hc] Hb.
  assert (H0' : immediate_ok 0 b) by (split; lia).
  unfold execute. destruct (class i) eqn:E.
  - by apply control_logic.
  - by eapply load_logic.
  - by eapply alu8_logic.
  - by eapply alu16_logic.
  - by apply rotate_logic.
  - by apply bit_logic.
  - by eapply jump_logic.
  - by eapply call_return_logic.
  - by apply stack_logic.
  - by apply interrupt_logic.
  - by eapply low_power_logic.
  - destruct (operation i); try done. by destruct cb.
Qed.

End handlers.

(** ** Clocking leaves the OAM-DMA cursor alone *)

Definition dma_cursor (d : DmgDeviceState) : Z * Z * bool * Z :=
  (dma_source_high d, dma_index d, dma_active d, dma_owed d).

Lemma request_dma bits d : dma_cursor (request bits d) = dma_cursor d.
Proof. done. Qed.
Lemma serial_dma d n : dma_cursor (advance_serial_t_cycles d n) = dma_cursor d.
Proof. unfold advance_serial_t_cycles. case_match; [done |]. cbv zeta. by case_match. Qed.
Lemma ppu_dma d : dma_cursor (advance_ppu_t_cycle d) = dma_cursor d.
Proof.
  unfold advance_ppu_t_cycle, request_stat_rising_edge, request.
  repeat (case_match; cbv zeta); done.
Qed.
Lemma advance_dma d m : dma_cursor (advance_m_cycles d m) = dma_cursor d.
Proof.
  unfold advance_m_cycles. destruct (advance_t_cycles _ _) as [t bits].
  induction (Z.to_nat (saturating_mul_u8 m 4)) as [|n IH]; [cbn; by rewrite serial_dma |].
  by rewrite Nat.iter_succ, ppu_dma.
Qed.
