(* ===== verification/StepTrace.v ===== *)
(** * The trace of a step

    [traced x x'] relates the executors before and after a run of methods: the events appended, the
    witnesses they consumed, the roots the memory accesses chain through, the logs. It is preserved
    by every access, so [StepLogic] lifts it to whole instruction bodies; [step_outcome] states it for
    a complete transition. *)
From S2P Require Import Prelude IsaTypes Metadata Decode Alignment Address Commitment Merkle Logs Mbc3.
From S2P Require Import Timer Apu Device Halt State Bus Execute Transition Access StepLogic.

(** ** Fetching, decoding and executing, in any logic *)

Lemma defined_bytes i : defined_instruction i → Z.to_nat (saturating_sub (byte_len i) 1) = Z.to_nat (byte_len i - 1) ∧
  1 <= byte_len i <= 3.
Proof.
  intros Hi. pose proof (defined_forall (λ i, (1 <=? byte_len i) && (byte_len i <=? 3))
    ltac:(by vm_compute) i Hi) as E. cbv beta in E. unfold saturating_sub. lia.
Qed.

Definition primary_immediates (i : DecodedInstruction) : bool :=
  match encoding i with
  | Enc.Primary _ => immediate_reads (bus i) =? saturating_sub (byte_len i) 1
  | Enc.Cb _ => immediate_reads (bus i) =? 0
  end.
Lemma defined_immediates i : defined_instruction i → primary_immediates i = true.
Proof. apply defined_forall. by vm_compute. Qed.

Section logic.
Context `{StepLogic P}.

Lemma fetch_and_advance_logic role :
  role = Role.OpcodeFetch ∨ role = Role.ImmediateRead →
  P Z (λ v, is_u8 v) (fetch_and_advance role).
Proof.
  intros Hr. unfold fetch_and_advance. sl_step; [sl_step |]. cbv beta in *.
  sl_step; [apply sl_fetch; auto with bounds |]. sl_run.
Qed.

Lemma fetch_first_opcode_logic halt_bug : P Z (λ v, is_u8 v) (fetch_first_opcode halt_bug).
Proof.
  unfold fetch_first_opcode. sl_step; [sl_step |]. cbv beta in *.
  sl_step; [apply sl_fetch; auto with bounds |]. destruct halt_bug; sl_run.
Qed.

(** The bytes fetched so far fill the immediate from the front. *)
Definition filled (n : nat) (b : ImmediateBytes) : Prop :=
  match n with
  | 0%nat => b = no_immediate
  | 1%nat => ∃ v, is_u8 v ∧ b = MkImmediate (Some v) None
  | _ => ∃ v w, is_u8 v ∧ is_u8 w ∧ b = MkImmediate (Some v) (Some w)
  end.

Lemma filled_push n b v :
  (n < 2)%nat → filled n b → is_u8 v → ∃ b', push b v = Ok b' ∧ filled (S n) b'.
Proof.
  intros Hn Hb Hv. destruct n as [|[|n]]; cbn in *; [| | lia].
  - subst. cbn. eauto 6.
  - destruct Hb as (w & ? & ->). cbn. eauto 8.
Qed.

Lemma filled_ok n b : filled n b → immediate_ok (Z.of_nat n) b.
Proof.
  intros Hb. split; intros Hn; (destruct n as [|[|n]]; [lia | | ]); cbn in Hb; try lia.
  - destruct Hb as (v & ? & ->). eauto.
  - destruct Hb as (v & w & ? & ? & ->). eauto.
  - destruct Hb as (v & w & ? & ? & ->). eauto.
Qed.

Lemma fetch_immediates_loop_logic n : ∀ k b,
  (n + k <= 2)%nat → filled k b → P ImmediateBytes (filled (n + k)) (fetch_immediates_loop n b).
Proof.
  induction n as [|n IH]; intros k b Hk Hb; cbn [fetch_immediates_loop]; [by apply sl_ret |].
  sl_step; [by apply fetch_and_advance_logic; right |]. cbv beta in *.
  destruct (filled_push k b a ltac:(lia) Hb H1) as (b' & -> & Hb').
  apply (sl_bind _ _ (filled (S k))); [by apply sl_ret |]. intros c Hc.
  replace (S n + k)%nat with (n + S k)%nat by lia. apply IH; [lia | done].
Qed.

(** What a decoded instruction is known to satisfy. *)
Definition decoded (p : DecodedInstruction * ImmediateBytes) : Prop :=
  defined_instruction p.1 ∧ executable p.1 = true ∧ immediate_ok (immediate_reads (bus p.1)) p.2.

Lemma cb_not_prefix b : is_u8 b → operation (decode_cb b) ≠ Op.PrefixCb.
Proof.
  intros Hb. pose proof (forallb_bytes (λ b, negb (bool_decide (operation (decode_cb b) = Op.PrefixCb)))
    ltac:(by vm_compute) b Hb) as E. cbv beta in E. by case_bool_decide.
Qed.
Lemma primary_not_prefix b i :
  is_u8 b → b ≠ 0xcb → decode_primary b = Classified.Defined_ i → operation i ≠ Op.PrefixCb.
Proof.
  intros Hb Hn Hi. pose proof (forallb_bytes (λ b, (b =? 0xcb) ||
    match decode_primary b with
    | Classified.Defined_ i => negb (bool_decide (operation i = Op.PrefixCb)) | _ => true end)
    ltac:(by vm_compute) b Hb) as E. cbv beta in E. rewrite Hi in E.
  rewrite (proj2 (Z.eqb_neq _ _) Hn) in E. by case_bool_decide.
Qed.
Lemma primary_encoding b i : is_u8 b → decode_primary b = Classified.Defined_ i →
  ∃ o, encoding i = Enc.Primary o.
Proof.
  intros Hb Hi. pose proof (forallb_bytes (λ b,
    match decode_primary b with
    | Classified.Defined_ i => match encoding i with Enc.Primary _ => true | _ => false end
    | _ => true end) ltac:(by vm_compute) b Hb) as E. cbv beta in E. rewrite Hi in E.
  destruct (encoding i); [eauto | done].
Qed.

Lemma fetch_and_decode_logic halt_bug : P _ decoded (fetch_and_decode halt_bug).
Proof.
  unfold fetch_and_decode. sl_step; [apply fetch_first_opcode_logic |]. cbv beta in *. rename a into b.
  destruct (Z.eqb_spec b 0xcb) as [| Hb].
  - sl_step; [apply fetch_and_advance_logic; by left |]. apply sl_ret. cbv beta in *.
    assert (Hi : defined_instruction (decode_cb a)) by (right; eauto).
    split; [done |]. split; [by apply defined_executable, cb_not_prefix |].
    assert (E : immediate_reads (bus (decode_cb a)) = 0).
    { pose proof (defined_immediates _ Hi) as E. by apply Z.eqb_eq in E. }
    cbn [fst snd]. rewrite E. split; lia.
  - destruct (decode_primary b) as [i | u] eqn:Ed; [| by apply sl_fail].
    assert (Hi : defined_instruction i) by (left; eauto).
    pose proof (defined_bytes i Hi) as [Hn Hlen].
    apply (sl_bind _ _ (filled (Z.to_nat (byte_len i - 1)))).
    { unfold fetch_immediates. rewrite Hn.
      rewrite <- (Nat.add_0_r (Z.to_nat (byte_len i - 1))) at 1.
      apply fetch_immediates_loop_logic; [lia | done]. }
    intros c Hc. apply sl_ret. split; [done |]. split.
    + by eapply defined_executable, primary_not_prefix.
    + apply filled_ok in Hc. rewrite Z2Nat.id in Hc by lia. cbn [fst snd].
      pose proof (defined_immediates i Hi) as E. unfold primary_immediates in E.
      destruct (primary_encoding b i) as [o Ho]; [done | done |]. rewrite Ho in E.
      apply Z.eqb_eq in E. rewrite E. unfold saturating_sub. by replace (Z.max 0 (byte_len i - 1)) with (byte_len i - 1) by lia.
Qed.

Lemma delayed_ime_logic o e : P _ (λ _, True) (apply_delayed_ime o e).
Proof. unfold apply_delayed_ime. case_match; sl_run. Qed.
End logic.

(** ** Traces *)

(** The witness an event consumes. *)
Definition witness_of (e : BusEvent) : list BusWitness :=
  match e with
  | Ev.OpcodeFetch r | Ev.ImmediateRead r | Ev.RomRead r | Ev.DmgDmaRomRead r => [Wit.Rom r]
  | Ev.MemoryOpcodeFetch r | Ev.MemoryImmediateRead r | Ev.MemoryRead r | Ev.DmgDmaMemoryRead r =>
      [Wit.MemoryRead r]
  | Ev.MemoryWrite w | Ev.DmgDmaWrite w => [Wit.MemoryWrite w]
  | Ev.InputRead _ v | Ev.DmgJoypadRead _ _ v _ => [Wit.InputByte v]
  | _ => []
  end.

Definition input_of (e : BusEvent) : option Z :=
  match e with Ev.InputRead _ v | Ev.DmgJoypadRead _ _ v _ => Some v | _ => None end.
Definition output_of (e : BusEvent) : option Z :=
  match e with Ev.OutputWrite _ v => Some v | _ => None end.

Section trace.
Context `{Sha256}.

(** Memory accesses chain from one root to another. *)
Fixpoint memory_chain (root : CommitmentRoot) (l : list MemoryAccess) (root' : CommitmentRoot) : Prop :=
  match l with
  | [] => root' = root
  | Read r :: l => read_valid r root ∧ memory_chain root l root'
  | Write w :: l => ∃ mid, write_valid w root mid ∧ memory_chain mid l root'
  end.

Lemma memory_chain_app l : ∀ root mid l' root',
  memory_chain root l mid → memory_chain mid l' root' → memory_chain root (l ++ l') root'.
Proof.
  induction l as [|[r | w] l IH]; cbn; intros root mid l' root' Hl Hl'.
  - by subst.
  - destruct Hl. split; [done | by eapply IH].
  - destruct Hl as (m & ? & ?). exists m. split; [done | by eapply IH].
Qed.

Lemma log_append_all_app l vs : ∀ a ws b,
  log_append_all a vs = Ok l → log_append_all l ws = Ok b → log_append_all a (vs ++ ws) = Ok b.
Proof.
  induction vs as [|v vs IH]; cbn; intros a ws b Ha Hb; [by injection Ha as -> |].
  destruct (log_append a v); cbn in *; [by eapply IH | done].
Qed.

(** ** What a list of events did *)

Record traced_by (x x' : Executor) (evs : list BusEvent) (cost : Z) : Prop := {
  tr_events : ex_events x' = ex_events x ++ evs;
  tr_witnesses : ex_witnesses x = (evs ≫= witness_of) ++ ex_witnesses x';
  tr_auth : ex_authentication x' = ex_authentication x;
  tr_memory : is_merkle x →
    memory_chain (memory_root (ex_state x)) (omap memory_access_of evs) (memory_root (ex_state x'));
  tr_lookup : ¬ is_merkle x → memory_root (ex_state x') = memory_root (ex_state x);
  tr_rom : is_merkle x → ∀ e r, e ∈ evs → rom_read_of e = Some r → rom_valid r (vm_rom_root (ex_state x));
  tr_root : vm_rom_root (ex_state x') = vm_rom_root (ex_state x);
  tr_input : log_append_all (input_log (ex_state x)) (omap input_of evs) = Ok (input_log (ex_state x'));
  tr_output : log_append_all (output_log (ex_state x)) (omap output_of evs) = Ok (output_log (ex_state x'));
  tr_cycles : m_cycles (cpu (ex_state x')) = m_cycles (cpu (ex_state x)) + cost
}.
Definition traced (x x' : Executor) : Prop := ∃ evs, traced_by x x' evs 0.

Lemma traced_app x y z evs evs' n n' :
  traced_by x y evs n → traced_by y z evs' n' → traced_by x z (evs ++ evs') (n + n').
Proof.
  intros [] []. unfold is_merkle in *.
  assert (Hm : ex_authentication x = Auth.Merkle → ex_authentication y = Auth.Merkle) by congruence.
  split.
  - rewrite app_assoc. congruence.
  - rewrite bind_app, <- app_assoc. congruence.
  - congruence.
  - intros Hx. rewrite omap_app. eapply memory_chain_app; eauto.
  - intros Hx. rewrite tr_lookup1; [by apply tr_lookup0 | congruence].
  - intros Hx e r [He | He]%elem_of_app Hr; [by eapply tr_rom0 |]. rewrite <- tr_root0. eauto.
  - congruence.
  - rewrite omap_app. by eapply log_append_all_app.
  - rewrite omap_app. by eapply log_append_all_app.
  - lia.
Qed.

Lemma traced_refl x : traced_by x x [] 0.
Proof. split; try done; cbn; try lia; [by rewrite app_nil_r | intros ? e r He; by apply elem_of_nil in He]. Qed.

(** A change of the state that the trace does not speak of. *)
Lemma traced_state x s n :
  memory_root s = memory_root (ex_state x) → vm_rom_root s = vm_rom_root (ex_state x) →
  input_log s = input_log (ex_state x) → output_log s = output_log (ex_state x) →
  m_cycles (cpu s) = m_cycles (cpu (ex_state x)) + n → traced_by x (with_state s x) [] n.
Proof.
  intros Hm Hr Hi Ho Hc. split; cbn; try done; try congruence.
  - by rewrite app_nil_r.
  - intros ? e r He. by apply elem_of_nil in He.
Qed.

(** One event: its field of every list is a singleton or nothing. *)
Lemma traced_one x e rest s :
  ex_witnesses x = witness_of e ++ rest →
  (is_merkle x → memory_chain (memory_root (ex_state x)) (omap memory_access_of [e]) (memory_root s)) →
  (¬ is_merkle x → memory_root s = memory_root (ex_state x)) →
  (is_merkle x → ∀ r, rom_read_of e = Some r → rom_valid r (vm_rom_root (ex_state x))) →
  vm_rom_root s = vm_rom_root (ex_state x) →
  log_append_all (input_log (ex_state x)) (omap input_of [e]) = Ok (input_log s) →
  log_append_all (output_log (ex_state x)) (omap output_of [e]) = Ok (output_log s) →
  m_cycles (cpu s) = m_cycles (cpu (ex_state x)) →
  traced_by x (emit e (with_state s (with_witnesses rest x))) [e] 0.
Proof.
  intros. split; cbn [ex_events ex_witnesses ex_authentication ex_state emit with_state with_witnesses];
    try done; try lia.
  - cbn. by rewrite app_nil_r.
  - intros Hm e' r ->%list_elem_of_singleton. eauto.
  - cbn. lia.
Qed.

Lemma access_traced x e x' : access x e x' → traced_by x x' [e] 0.
Proof.
  intros Hacc.
  assert (Hs : ∀ y, y = with_state (ex_state y) (with_witnesses (ex_witnesses y) y)) by (by intros []).
  destruct Hacc as [read rest Hx He _ _ Hv | read rest Hx He _ _ Hv | write rest root Hx He _ _ Hv Hn
    | address value -> _ | address -> _ _ | address value -> _ _ | value rest next Hx -> Hl
    | buttons rest next devices value Hx _ _ -> Hl | value next -> Hl | address value -> _ _ _
    | address before value devices -> _ _ _].
  - rewrite <- (with_state_same (with_witnesses rest x)).
    destruct e; try done; injection He as ->; apply traced_one; try done; intros Hm r [= <-]; by apply Hv.
  - rewrite <- (with_state_same (with_witnesses rest x)).
    destruct e; try done; injection He as ->; apply traced_one; try done; cbn; intros Hm; by split; [apply Hv |].
  - destruct e; try done; injection He as ->; apply traced_one; try done; cbn; intros Hm;
      exists root; by split; [apply Hv |].
  - rewrite <- (with_witnesses_same x) at 3. by apply traced_one.
  - rewrite (Hs x) at 2. by apply traced_one.
  - rewrite (Hs x) at 2. by apply traced_one.
  - apply traced_one; try done. cbn. by rewrite Hl.
  - apply traced_one; try done. cbn. by rewrite Hl.
  - rewrite <- (with_witnesses_same x) at 3. apply traced_one; try done. cbn. by rewrite Hl.
  - rewrite (Hs x) at 2. by apply traced_one.
  - rewrite <- (with_witnesses_same x) at 3. by apply traced_one.
Qed.
(** ** The instance *)

Lemma good_state s0 active x s :
  good s0 active x → vm_ok s → profile s = profile (ex_state x) →
  vm_rom_root s = vm_rom_root (ex_state x) → bus_transcript s = bus_transcript (ex_state x) →
  isa_transcript s = isa_transcript (ex_state x) →
  (dma_active (dmg_devices (ex_state x)) = true → dma_active (dmg_devices s) = true) →
  good s0 active (with_state s x).
Proof. intros [] ? ? ? ? ? ?. split; cbn; auto; congruence. Qed.

Lemma good_cpu s0 active x c :
  good s0 active x → cpu_ok c → good s0 active (with_state ((ex_state x) <| cpu := c |>) x).
Proof. intros Hg Hc. apply good_state; try done. destruct (good_vm _ _ _ Hg). by split. Qed.

(** What a logic of traces needs of the relation between the executors before and after. *)
Class TraceRelation (R : Executor → Executor → Prop) := {
  tr_reflexive x : R x x;
  tr_transitive x y z : R x y → R y z → R x z;
  tr_cpu x c : m_cycles c = m_cycles (cpu (ex_state x)) → R x (with_state ((ex_state x) <| cpu := c |>) x);
  tr_access x e x' : access x e x' → R x x'
}.

(** The predicate of the logic: from every good executor the method is safe, returns a value in [V],
    and leaves a good executor in the relation. *)
Definition steps_by (R : Executor → Executor → Prop) (s0 : VmState) (active : bool) (A : Type) (V : A → Prop)
    (m : M A) : Prop :=
  ∀ x, good s0 active x → wp m x (λ a x', V a ∧ good s0 active x' ∧ R x x').

Section by_relation.
Context `{TraceRelation R}.

Lemma steps_ret s0 active A (V : A → Prop) a : V a → steps_by R s0 active A V (mret a).
Proof. intros Hv x Hg. apply wp_ret. split; [done |]. split; [done |]. apply tr_reflexive. Qed.

Lemma steps_bind s0 active A B (V : A → Prop) (W : B → Prop) m f :
  steps_by R s0 active A V m → (∀ a, V a → steps_by R s0 active B W (f a)) → steps_by R s0 active B W (m ≫= f).
Proof.
  intros Hm Hf x Hg. apply wp_bind. eapply wp_mono; [by apply Hm |].
  intros a y (Hv & Hy & Hl). cbv beta. eapply wp_mono; [by apply (Hf a) |].
  intros b z (Hw & Hz & Hl'). split; [done |]. split; [done |]. by eapply tr_transitive.
Qed.

Lemma steps_access s0 active {A} (V : A → Prop) (m : M A) :
  (∀ x Q, good s0 active x →
     (∀ a e x', access x e x' → is_u16 (event_address e) →
        (writes_value e = true → is_u8 (event_value e)) → (is_u8 (event_value e) → V a) → Q a x') →
     wp m x Q) →
  steps_by R s0 active A V m.
Proof.
  intros Hm x Hg. apply Hm; [done |]. intros a e x' Hacc Ha Hw Hv.
  destruct (access_good _ _ _ _ _ Hg Hacc Ha Hw) as [Hg' He].
  split; [auto |]. split; [done |]. by eapply tr_access.
Qed.

Lemma writes_value_shape e : writes_value e = true → shape_of e = Shape.DataWrite ∨ shape_of e = Shape.Dma.
Proof. destruct e; auto; done. Qed.

#[export] Instance steps_logic s0 active : StepLogic (steps_by R s0 active).
Proof.
  split.
  - apply steps_ret.
  - intros A V e He x Hg. by apply wp_fail, machine_not_internal.
  - apply steps_bind.
  - intros x Hg. apply wp_get_cpu. split; [apply (ok_cpu _ (good_vm _ _ _ Hg)) |].
    split; [done |]. apply tr_reflexive.
  - intros f Hf x Hg. apply wp_modify_state. destruct (Hf _ (ok_cpu _ (good_vm _ _ _ Hg))) as [Hc Hm].
    split; [done |]. split; [by apply good_cpu |]. by apply (tr_cpu x).
  - intros a role Ha Hr. apply steps_access. intros x Q Hg HQ.
    eapply (fetch_instruction_wp a role
      (match role with Role.OpcodeFetch => Shape.Fetch | _ => Shape.Immediate end)); [lia | |].
    { destruct Hr as [-> | ->]; auto. }
    intros e x' Hacc Hsh Had. apply (HQ _ e); [done | by rewrite Had | | done].
    intros [Hw | Hw]%writes_value_shape; destruct Hr as [-> | ->]; congruence.
  - intros a Ha. apply steps_access. intros x Q Hg HQ. apply read_data_wp; [lia |].
    intros e x' Hacc Hsh Had. apply (HQ _ e); [done | by rewrite Had | | done].
    intros [Hw | Hw]%writes_value_shape; congruence.
  - intros a v Ha Hv. apply steps_access. intros x Q Hg HQ. apply write_data_wp; [lia |].
    intros e x' Hacc Hsh Had Hev. apply (HQ _ e); [done | by rewrite Had | by rewrite Hev | done].
Qed.
End by_relation.

#[export] Instance traced_relation : TraceRelation traced.
Proof.
  split.
  - intros x. exists []. apply traced_refl.
  - intros x y z [l Hl] [l' Hl']. exists (l ++ l'). by apply (traced_app x y z l l' 0 0).
  - intros x c Hc. exists []. apply traced_state; try done. cbn. lia.
  - intros x e x' Hacc. exists [e]. by apply access_traced.
Qed.
End trace.
Abbreviation steps := (steps_by traced).

