(* ===== verification/Step.v ===== *)
(** * Complete transitions

    [step_spec] characterises every outcome of [Transition.apply] from a well-formed state: an
    accepted step is described by [stepped] (the next state, its events and their effect on roots,
    logs and transcripts), a rejected one reports an ordinary error. *)
From S2P Require Import Prelude IsaTypes Metadata Decode Alignment Address Commitment Merkle Logs Mbc3.
From S2P Require Import Timer Apu Device Halt State Bus Execute Transition Access StepLogic StepTrace.

(** M-cycles of an instruction with its branch outcome. *)
Definition instruction_cycles (i : DecodedInstruction) (branch_taken : bool) : Z :=
  if branch_taken then default (base_m_cycles (timing i)) (taken_m_cycles (timing i))
  else base_m_cycles (timing i).

Lemma instruction_cycles_bound i b : defined_instruction i → 1 <= instruction_cycles i b <= 6.
Proof.
  intros Hi. pose proof (defined_shape i Hi) as E. unfold instruction_shape in E.
  rewrite !andb_true_iff in E. destruct E as [[[_ ?] ?] E].
  unfold instruction_cycles. destruct b, (taken_m_cycles (timing i)); unfold default, id; lia.
Qed.

(** M-cycles a step takes. *)
Definition step_cycles (s : VmState) (eff : StepEffects) : Z :=
  match se_kind eff with
  | SK.Instruction => instruction_cycles (se_instruction eff) (se_branch_taken eff)
  | SK.HaltIdle => halt_idle_m_cycles (dmg_devices s)
  | SK.HaltUntilVBlank => default 0 (halt_until_vblank_m_cycles (dmg_devices s))
  | SK.HaltUntilSerial => default 0 (halt_until_serial_m_cycles (dmg_devices s))
  | SK.HaltUntilTimer => default 0 (halt_until_timer_m_cycles (dmg_devices s))
  | SK.HaltWake | SK.DmaByte => 0
  | SK.InterruptDispatch _ => 5
  end.

Section step.
Context `{Sha256}.

(** ** What an accepted step did *)

Record stepped (s : VmState) (input : list BusWitness) (authentication : BusAuthentication)
    (s' : VmState) (eff : StepEffects) : Prop := {
  st_vm : vm_ok s';
  st_profile : profile s' = profile s;
  st_root : vm_rom_root s' = vm_rom_root s;
  st_input : input = se_bus_events eff ≫= witness_of;
  st_events : Forall (event_good s) (se_bus_events eff);
  st_memory : authentication = Auth.Merkle →
    memory_chain (memory_root s) (omap memory_access_of (se_bus_events eff)) (memory_root s');
  st_lookup : authentication = Auth.Lookup → memory_root s' = memory_root s;
  st_rom : authentication = Auth.Merkle →
    ∀ e r, e ∈ se_bus_events eff → rom_read_of e = Some r → rom_valid r (vm_rom_root s);
  st_input_log :
    log_append_all (input_log s) (omap input_of (se_bus_events eff)) = Ok (input_log s');
  st_output_log :
    log_append_all (output_log s) (omap output_of (se_bus_events eff)) = Ok (output_log s');
  st_bus : authentication = Auth.Merkle →
    bus_append_all (bus_transcript s) (map transcript_event (se_bus_events eff)) = Ok (bus_transcript s');
  st_isa : authentication = Auth.Merkle →
    ∃ row, packed (from_decoded (se_instruction eff)) = Ok row ∧
      isa_append (isa_transcript s) row = Ok (isa_transcript s');
  st_transcripts : authentication = Auth.Lookup →
    bus_transcript s' = bus_transcript s ∧ isa_transcript s' = isa_transcript s;
  st_cycles : m_cycles (cpu s') = m_cycles (cpu s) + step_cycles s eff;
  st_defined : defined_instruction (se_instruction eff)
}.

(** ** Finishing *)

Lemma bus_append_all_ok l : ∀ a,
  Forall event_ok l → is_u64 (bus_next_index a) →
  match bus_append_all a l with
  | Ok b => is_u64 (bus_next_index b)
  | Err e => e = BusErr.IndexOverflow
  end.
Proof.
  induction l as [|e l IH]; intros a Hl Ha; cbn [bus_append_all]; [done |].
  apply Forall_cons in Hl as [[Hk _ Hp _] Hl]. unfold bus_append.
  rewrite (proj2 (Z.leb_gt _ _)) by lia.
  rewrite (proj2 (Z.leb_gt _ _)) by (rewrite Z.shiftl_1_l; lia). cbn [orb].
  unfold checked_add_u64. destruct (Z.ltb_spec (bus_next_index a + 1) 18446744073709551616); [| done].
  cbn [ok_or mbind result_bind]. apply IH; [done | cbn; lia].
Qed.

Lemma isa_append_ok a row :
  0 <= row < 2 ^ 106 → is_u64 (isa_next_index a) →
  match isa_append a row with
  | Ok b => is_u64 (isa_next_index b)
  | Err e => e = IsaErr.IndexOverflow
  end.
Proof.
  intros Hr Ha. unfold isa_append, PACKED_ROW_LIMIT, PACKED_ROW_BITS. rewrite Z.shiftl_1_l.
  rewrite (proj2 (Z.leb_gt _ _)) by lia. unfold checked_add_u64.
  destruct (Z.ltb_spec (isa_next_index a + 1) 18446744073709551616); [| done]. cbn. lia.
Qed.

(** A good executor with a trace of known cost, ready to be finished. *)
Definition ready (s : VmState) (active : bool) (input : list BusWitness)
    (authentication : BusAuthentication) (n : Z) (x : Executor) : Prop :=
  good s active x ∧ ∃ evs, traced_by (executor_new s input authentication) x evs n.

Lemma finalize_spec s active input authentication n x i kind branch :
  ready s active input authentication n x → defined_instruction i →
  n = step_cycles s (MkEffects kind i branch (ex_events x)) →
  match finalize x i with
  | Ok (s', events) => stepped s input authentication s' (MkEffects kind i branch events)
  | Err e => internal_error e = false
  end.
Proof.
  intros [[Hvm Hp Hr Hb Hi Ha Hw He] [evs [Tev Twit Tauth Tmem Tlook Trom Troot Tin Tout Tcyc]]] Hdef Hn.
  cbn [ex_events ex_witnesses ex_authentication ex_state executor_new app] in *. unfold is_merkle in *.
  cbn [ex_authentication] in *. unfold finalize.
  destruct (Z.eqb_spec (Z.of_nat (length (ex_witnesses x))) 0) as [E | E]; cbn [negb]; [| done].
  assert (Hnil : ex_witnesses x = []) by (destruct (ex_witnesses x); [done | cbn in E; lia]).
  rewrite Hnil, app_nil_r in Twit. subst evs n.
  destruct (decide (ex_authentication x = Auth.Merkle)) as [Hm | Hm].
  - assert (Hev : Forall event_ok (map transcript_event (ex_events x))).
    { apply Forall_map. eapply Forall_impl; [exact He |]. by intros e []. }
    pose proof (bus_append_all_ok _ (bus_transcript (ex_state x)) Hev (ok_bus_index _ Hvm)) as Hbus.
    destruct (bus_append_all _ _) as [t | e] eqn:Et;
      [rewrite map_err_ok, bind_of_ok | rewrite map_err_err, bind_of_err; by subst].
    destruct (defined_row_fits i Hdef) as [Hu [row Hrow]]. cbv zeta.
    rewrite Hrow, map_err_ok, bind_of_ok.
    pose proof (isa_append_ok (isa_transcript (ex_state x)) row (packed_bound _ _ Hu Hrow)
      (ok_isa_index _ Hvm)) as Hisa.
    change (isa_transcript ((ex_state x) <| bus_transcript := t |>)) with (isa_transcript (ex_state x)).
    destruct (isa_append _ _) as [q | e] eqn:Eq;
      [rewrite map_err_ok, bind_of_ok | rewrite map_err_err, bind_of_err; by subst].
    rewrite Tauth in Hm. subst authentication.
    split; cbn [se_bus_events se_instruction]; try assumption; try (intros; discriminate); auto.
    + destruct Hvm. by split.
    + by rewrite Hm.
    + intros _. rewrite <- Hb. exact Et.
    + intros _. exists row. split; [done |]. rewrite <- Hi. exact Eq.
    + by rewrite Hm.
  - rewrite Tauth in Hm.
    split; cbn [se_bus_events se_instruction]; try assumption; auto; intros; try (by destruct Hm).
Qed.

(** ** Timing *)

Lemma ready_trace s active input authentication n x x' :
  ready s active input authentication n x → good s active x' → traced x x' →
  ready s active input authentication n x'.
Proof.
  intros [_ [evs Hevs]] Hg [evs' Hevs']. split; [done |]. exists (evs ++ evs').
  rewrite <- (Z.add_0_r n). by eapply traced_app.
Qed.

(** A change of the CPU and the devices that takes [k] cycles. *)
Lemma ready_state s active input authentication n k x c d :
  ready s active input authentication n x → cpu_ok c → device_ok d →
  (active = true → dma_active d = true) → m_cycles c = m_cycles (cpu (ex_state x)) + k →
  ready s active input authentication (n + k)
    (with_state ((ex_state x) <| cpu := c |> <| dmg_devices := d |>) x).
Proof.
  intros [Hg [evs Hevs]] Hc Hd Ha Hm. split.
  - destruct Hg as [[] ? ? ? ? ? ? ?]. split; cbn; auto. by split; cbn.
  - exists (evs ++ []). eapply traced_app; [exact Hevs |]. by apply traced_state.
Qed.

Lemma add_cycles_wp k x Q :
  (m_cycles (cpu (ex_state x)) + k < 18446744073709551616 →
   Q () (with_state ((ex_state x) <| cpu := set_m_cycles (m_cycles (cpu (ex_state x)) + k) (cpu (ex_state x)) |>) x)) →
  wp (add_cycles k) x Q.
Proof.
  intros HQ. apply wp_bind, wp_get_cpu, wp_bind. unfold checked_add_u64.
  destruct (Z.ltb_spec (m_cycles (cpu (ex_state x)) + k) 18446744073709551616); [| done].
  apply wp_lift; [| done]. intros a [= <-]. apply wp_modify_state. by apply HQ.
Qed.

Lemma set_m_cycles_ok c v : cpu_ok c → is_u64 v → cpu_ok (set_m_cycles v c).
Proof. intros [] ?. by split. Qed.

Lemma schedule_active d m b : dma_active (schedule_dma_bytes d m b) = dma_active d.
Proof. by destruct b. Qed.

(** Clocking [k] cycles: counter, devices, DMA debt. *)
Lemma clocked_wp s active input authentication n k b x (Q : () → Executor → Prop) :
  ready s active input authentication n x → 0 <= k →
  (b = true → dma_active (dmg_devices (ex_state x)) = true) →
  (∀ x', ready s active input authentication (n + k) x' → Q () x') →
  wp (_ ← add_cycles k; _ ← modify_devices (λ d, advance_m_cycles d k);
      modify_devices (λ d, schedule_dma_bytes d k b)) x Q.
Proof.
  intros Hr Hk Hb HQ. apply wp_bind, add_cycles_wp. intros Hlt.
  apply wp_bind, wp_modify_state, wp_modify_state.
  pose proof (good_vm _ _ _ (proj1 Hr)) as [[] ? Hd ? ? ? ? ? ?].
  assert (Ha : dma_active (advance_m_cycles (dmg_devices (ex_state x)) k) = dma_active (dmg_devices (ex_state x)))
    by (pose proof (advance_dma (dmg_devices (ex_state x)) k) as E; by injection E).
  apply HQ. refine (ready_state s active input authentication n k x _ _ Hr _ _ _ _).
  - apply set_m_cycles_ok; [by apply (good_vm _ _ _ (proj1 Hr)) | lia].
  - apply schedule_ok; [by apply advance_m_cycles_ok | done |]. intros Hb'. etrans; [exact Ha | auto].
  - intros Hact. rewrite schedule_active. etrans; [exact Ha |]. by apply (good_active _ _ _ (proj1 Hr)).
  - done.
Qed.

Lemma add_timing_wp s active input authentication n i b x (Q : () → Executor → Prop) :
  ready s active input authentication n x → defined_instruction i →
  (∀ x', ready s active input authentication (n + instruction_cycles i b) x' → Q () x') →
  wp (add_timing i b active) x Q.
Proof.
  intros Hr Hi HQ. pose proof (instruction_cycles_bound i b Hi).
  assert (E : instruction_cycles i b = if b then match taken_m_cycles (timing i) with
    | None => base_m_cycles (timing i) | Some cycles => cycles end else base_m_cycles (timing i)).
  { unfold instruction_cycles. by destruct b, (taken_m_cycles (timing i)). }
  unfold add_timing. rewrite <- E.
  eapply clocked_wp; [exact Hr | lia | apply (good_active _ _ _ (proj1 Hr)) | done].
Qed.

Lemma add_machine_timing_wp s active input authentication n k x (Q : () → Executor → Prop) :
  ready s active input authentication n x → 0 <= k →
  (∀ x', ready s active input authentication (n + k) x' → Q () x') →
  wp (add_machine_timing k) x Q.
Proof.
  intros Hr Hk HQ. apply wp_bind, wp_state. eapply clocked_wp; try done.
Qed.

(** ** The bodies *)

Lemma steps_ready s active input authentication n x {A} (V : A → Prop) (m : M A) Q :
  steps s active A V m → ready s active input authentication n x →
  (∀ a x', V a → ready s active input authentication n x' → Q a x') → wp m x Q.
Proof.
  intros Hm Hr HQ. eapply wp_mono; [by apply Hm, Hr |].
  intros a x' (Hv & Hg & Ht). apply HQ; [done | by eapply ready_trace].
Qed.

Lemma ready_new s active input authentication :
  vm_ok s → Forall witness_ok input → (active = true → dma_active (dmg_devices s) = true) →
  ready s active input authentication 0 (executor_new s input authentication).
Proof.
  intros Hs Hw Ha. split; [split; cbn; try done; by constructor |]. exists []. apply traced_refl.
Qed.

Lemma ready_cpu s active input authentication n x f (Q : () → Executor → Prop) :
  ready s active input authentication n x →
  (∀ c, cpu_ok c → cpu_ok (f c) ∧ m_cycles (f c) = m_cycles c) →
  (∀ x', ready s active input authentication n x' → Q () x') → wp (modify_cpu f) x Q.
Proof.
  intros Hr Hf HQ. eapply steps_ready; [by apply (sl_modify_cpu f) | exact Hr |]. intros [] x' _. apply HQ.
Qed.

Lemma instruction_body_wp s input authentication x :
  let active := dma_active (dmg_devices s) in
  ready s active input authentication 0 x →
  wp (instruction_body s) x (λ '(i, taken) x', defined_instruction i ∧
    ready s active input authentication (instruction_cycles i taken) x').
Proof.
  intros active Hr. unfold instruction_body. fold active.
  apply wp_bind. eapply steps_ready; [apply fetch_and_decode_logic | exact Hr |].
  intros [i b] x1 (Hi & Hex & Hb) Hr1. cbn [fst snd] in *.
  apply wp_bind. eapply steps_ready; [by apply execute_logic | exact Hr1 |]. intros taken x2 _ Hr2.
  apply wp_bind. eapply steps_ready; [apply delayed_ime_logic | exact Hr2 |]. intros [] x3 _ Hr3.
  apply wp_bind. eapply add_timing_wp; [exact Hr3 | done |]. intros x4 Hr4. rewrite Z.add_0_l in Hr4.
  apply wp_bind. case_match.
  - eapply ready_cpu; [exact Hr4 | intros; by auto with bounds |]. intros x5 Hr5. by apply wp_ret.
  - apply wp_ret, wp_ret. done.
Qed.

Lemma push_return_logic P `{StepLogic P} v : is_u16 v → P _ (λ _, True) (push_interrupt_return v).
Proof. intros Hv. unfold push_interrupt_return. sl_run. Qed.

Lemma ready_devices s active input authentication n x f (Q : () → Executor → Prop) :
  ready s active input authentication n x →
  (∀ d, device_ok d → device_ok (f d) ∧ dma_active (f d) = dma_active d) →
  (∀ x', ready s active input authentication n x' → Q () x') → wp (modify_devices f) x Q.
Proof.
  intros Hr Hf HQ. apply wp_modify_state, HQ.
  pose proof (good_vm _ _ _ (proj1 Hr)) as Hvm. destruct (Hf _ (ok_devices _ Hvm)) as [Hd Ha].
  rewrite <- (Z.add_0_r n).
  refine (ready_state s active input authentication n 0 x (cpu (ex_state x)) _ Hr _ _ _ _);
    [apply Hvm | done | | lia].
  intros Hact. rewrite Ha. by apply (good_active _ _ _ (proj1 Hr)).
Qed.

Lemma interrupt_vector_bound i : is_u16 (interrupt_vector i).
Proof. destruct i; cbn; lia. Qed.

Lemma interrupt_body_wp s input authentication i x :
  ready s false input authentication 0 x →
  wp (interrupt_body i) x (λ _ x', ready s false input authentication 5 x').
Proof.
  intros Hr. unfold interrupt_body.
  apply wp_bind. eapply ready_cpu; [exact Hr | intros; by auto with bounds |]. intros x1 Hr1.
  apply wp_bind. eapply ready_cpu; [exact Hr1 | intros; by auto with bounds |]. intros x2 Hr2.
  apply wp_bind. eapply ready_devices; [exact Hr2 | intros d Hd; by split; [apply acknowledge_ok |] |].
  intros x3 Hr3. apply wp_bind, wp_get_cpu, wp_bind.
  eapply steps_ready; [apply (push_return_logic (steps s false)) | exact Hr3 |].
  { apply (ok_pc _ (ok_cpu _ (good_vm _ _ _ (proj1 Hr3)))). }
  intros [] x4 _ Hr4. apply wp_bind. eapply ready_cpu; [exact Hr4 | |].
  { intros. pose proof (interrupt_vector_bound i). by auto with bounds. }
  intros x5 Hr5. by eapply add_machine_timing_wp; [exact Hr5 | lia |].
Qed.

Lemma skip_wp s input authentication k f x :
  ready s false input authentication 0 x → 0 <= k →
  (∀ d, device_ok d → device_ok (f d)) →
  wp (_ ← add_cycles k; modify_devices f) x (λ _ x', ready s false input authentication k x').
Proof.
  intros Hr Hk Hf. apply wp_bind, add_cycles_wp. intros Hlt. apply wp_modify_state.
  pose proof (good_vm _ _ _ (proj1 Hr)) as Hvm. pose proof (ok_m_cycles _ (ok_cpu _ Hvm)).
  refine (ready_state s false input authentication 0 k x _ _ Hr _ _ _ _); [| | done | done].
  - apply set_m_cycles_ok; [apply Hvm | lia].
  - apply Hf, Hvm.
Qed.

Lemma dma_destination_eq d : 0 <= dma_index d < 256 → dma_destination_address d = 0xfe00 + dma_index d.
Proof.
  intros Hi. unfold dma_destination_address. change 0xfe00 with (Z.shiftl 254 8).
  by rewrite lor_shiftl_add by (cbn; lia).
Qed.
Lemma dma_source_eq d : 0 <= dma_index d < 256 →
  dma_source_address d = dma_source_high d * 256 + dma_index d.
Proof. intros Hi. unfold dma_source_address. by rewrite lor_shiftl_add by (cbn; lia). Qed.

Lemma dma_body_wp s input authentication x :
  let d := dmg_devices (ex_state x) in
  ready s false input authentication 0 x → is_dmg_post_boot_mbc3 (profile s) = true → dma_owed d ≠ 0 →
  wp copy_dma_byte x (λ _ x', ready s false input authentication 0 x').
Proof.
  intros d Hr Hdmg Ho. pose proof (good_vm _ _ _ (proj1 Hr)) as Hvm.
  pose proof (ok_devices _ Hvm) as Hd. fold d in Hd. destruct (Hd) as [].
  assert (Hidx : dma_index d < 160) by auto with lia.
  pose proof (dma_destination_eq d) as Ed. pose proof (dma_source_eq d) as Es.
  apply copy_dma_byte_wp; fold d; rewrite ?Ed, ?Es by lia.
  - lia.
  - unfold state_owner. rewrite (good_profile _ _ _ (proj1 Hr)), Hdmg. apply dmg_owner_memory. lia.
  - unfold in_range. lia.
  - intros e1 x1 e2 x2 Ha1 Hsh1 Had1 Hw1 Hdev Ha2 Hsh2 Had2 Hval.
    destruct (access_good s false x e1 x1) as [Hg1 Hv1]; [apply Hr | done | lia | congruence |].
    destruct (access_good s false x1 e2 x2) as [Hg2 _]; [done | done | lia | by rewrite Hval |].
    assert (Hr2 : ready s false input authentication 0 x2).
    { eapply ready_trace; [exact Hr | done |]. exists ([e1] ++ [e2]).
      apply (traced_app x x1 x2 [e1] [e2] 0 0); by apply access_traced. }
    pose proof (good_vm _ _ _ Hg2) as Hvm2.
    refine (ready_state s false input authentication 0 0 x2 (cpu (ex_state x2)) _ Hr2 _ _ _ _);
      [apply Hvm2 | | done | lia].
    apply complete_ok; [apply Hvm2 |]. rewrite Hdev. fold d. lia.
Qed.

(** ** Every outcome of a transition *)

Definition step_post (s : VmState) (input : list BusWitness) (authentication : BusAuthentication)
    (r : result StepError (VmState * StepEffects)) : Prop :=
  match r with
  | Ok (s', eff) => stepped s input authentication s' eff
  | Err e => internal_error e = false
  end.

Lemma finish_event_spec s active input authentication kind opcode n x :
  ready s active input authentication n x → is_u8 opcode →
  is_ok (machine_event_marker opcode) = true →
  (∀ i evs, n = step_cycles s (MkEffects kind i false evs)) →
  step_post s input authentication (finish_event kind opcode () x).
Proof.
  intros Hr Ho Hok Hn. unfold finish_event.
  destruct (machine_event_marker opcode) as [i | e] eqn:Em; [| done]. rewrite bind_of_ok.
  assert (Hi : defined_instruction i).
  { left. exists opcode. split; [done |]. unfold machine_event_marker in Em.
    destruct (decode_primary opcode); [by injection Em as -> | done]. }
  pose proof (finalize_spec s active input authentication n x i kind false Hr Hi (Hn _ _)) as Hf.
  unfold finish_machine. destruct (finalize x i) as [[s' evs] | e]; [by rewrite bind_of_ok | done].
Qed.

Lemma run_spec {A B} (m : M A) x (k : A → Executor → result StepError B) Q (P : result StepError B → Prop) :
  wp m x Q → (∀ a x', Q a x' → P (k a x')) → (∀ e, internal_error e = false → P (Err e)) → P (run m x k).
Proof. unfold wp, run. intros Hm Hk He. destruct (m x) as [[a x'] | e]; auto. Qed.

Lemma execute_instruction_spec s input authentication :
  vm_ok s → Forall witness_ok input → step_post s input authentication (execute_instruction s input authentication).
Proof.
  intros Hs Hw. unfold execute_instruction. case_match; [done |].
  eapply run_spec; [apply (instruction_body_wp s input authentication), ready_new; auto | | done].
  intros [i taken] x [Hi Hr].
  pose proof (finalize_spec s _ input authentication _ x i SK.Instruction taken Hr Hi eq_refl) as Hf.
  unfold finish. destruct (finalize x i) as [[s' evs] | e]; [by rewrite bind_of_ok | done].
Qed.

(** When each machine event is selected. *)
Definition event_condition (s : VmState) (event : DmgMachineEvent) : Prop :=
  let d := dmg_devices s in
  match event with
  | Machine.Interrupt i =>
      pending_interrupt d = Some i ∧ ime (cpu s) = Ime.Enabled ∧ run_state (cpu s) ≠ Run.Stopped
  | Machine.HaltWake =>
      is_Some (pending_interrupt d) ∧ ime (cpu s) ≠ Ime.Enabled ∧ run_state (cpu s) = Run.Halted
  | Machine.HaltUntilVBlank n =>
      pending_interrupt d = None ∧ run_state (cpu s) = Run.Halted ∧ halt_until_vblank_m_cycles d = Some n
  | Machine.HaltUntilSerial n =>
      pending_interrupt d = None ∧ run_state (cpu s) = Run.Halted ∧ halt_until_vblank_m_cycles d = None ∧
      halt_until_serial_m_cycles d = Some n
  | Machine.HaltUntilTimer n =>
      pending_interrupt d = None ∧ run_state (cpu s) = Run.Halted ∧ halt_until_vblank_m_cycles d = None ∧
      halt_until_serial_m_cycles d = None ∧ halt_until_timer_m_cycles d = Some n
  | Machine.HaltIdle =>
      pending_interrupt d = None ∧ run_state (cpu s) = Run.Halted ∧ halt_until_vblank_m_cycles d = None ∧
      halt_until_serial_m_cycles d = None ∧ halt_until_timer_m_cycles d = None
  end.

Lemma classify_some s event :
  classify_dmg_machine_event s = Ok (Some event) → event_condition s event.
Proof.
  unfold classify_dmg_machine_event, event_condition.
  destruct (run_state (cpu s)); [| | done |];
    destruct (pending_interrupt (dmg_devices s)) as [i |]; cbn [fmap option_fmap option_map];
    try (destruct (decide (ime (cpu s) = Ime.Enabled)); by intros [= <-]; eauto).
  destruct (halt_until_vblank_m_cycles _); [intros [= <-]; eauto |].
  destruct (halt_until_serial_m_cycles _); [intros [= <-]; eauto |].
  destruct (halt_until_timer_m_cycles _); intros [= <-]; eauto 7.
Qed.

Lemma classify_none s :
  classify_dmg_machine_event s = Ok None →
  can_execute_instruction (run_state (cpu s)) = true ∧
  (ime (cpu s) = Ime.Enabled → pending_interrupt (dmg_devices s) = None).
Proof.
  unfold classify_dmg_machine_event.
  destruct (pending_interrupt (dmg_devices s)) as [i |]; cbn [fmap option_fmap option_map];
    destruct (run_state (cpu s)); try done; destruct (decide (ime (cpu s) = Ime.Enabled)); done.
Qed.

Lemma skip_spec s input authentication k f kind :
  vm_ok s → Forall witness_ok input → 0 <= k → (∀ d, device_ok d → device_ok (f d)) →
  (∀ i evs, k = step_cycles s (MkEffects kind i false evs)) →
  step_post s input authentication
    (run (_ ← add_cycles k; modify_devices f) (executor_new s input authentication)
       (finish_event kind 0x76)).
Proof.
  intros Hs Hw Hk Hf Hn. eapply run_spec; [eapply skip_wp; [by apply ready_new | done | done] | | done].
  intros [] x Hr. eapply finish_event_spec; [exact Hr | lia | done | done].
Qed.

Lemma quiet_long_ok d n : device_ok d → 0 <= n → device_ok (advance_quiet_long d n).
Proof. intros. rewrite quiet_long_iter by done. by apply m_cycles_ok. Qed.

Lemma halt_idle_bound d : 0 <= halt_idle_m_cycles d <= 6.
Proof.
  unfold halt_idle_m_cycles. destruct (halt_idle_loop_spec 6 1 d) as (k & Hk & _ & _ & ->).
  destruct (Nat.leb_spec k 6); lia.
Qed.

Lemma apply_spec s input authentication :
  vm_ok s → Forall witness_ok input → step_post s input authentication (apply s input authentication).
Proof.
  intros Hs Hw. pose proof (ok_devices _ Hs) as Hd.
  unfold apply, dma_byte, dispatch_interrupt, halt_wake, halt_until_vblank, halt_until_serial,
    halt_until_timer, halt_idle.
  destruct (is_dmg_post_boot_mbc3 (profile s)) eqn:Ep; [| by apply execute_instruction_spec].
  destruct (Z.eqb_spec (dma_owed (dmg_devices s)) 0) as [Ho | Ho]; cbn [negb].
  2: { eapply run_spec; [apply (dma_body_wp s input authentication); [by apply ready_new | done | done] | | done].
       intros [] x Hr. eapply finish_event_spec; [exact Hr | lia | done | done]. }
  destruct (classify_dmg_machine_event s) as [event | e] eqn:Ec.
  2: { unfold classify_dmg_machine_event in Ec. rewrite bind_of_err.
       repeat case_match; simplify_eq; done. }
  rewrite bind_of_ok. destruct event as [event |]; [| by apply execute_instruction_spec].
  apply classify_some in Ec. destruct event as [i | | n | n | n |]; cbn in Ec.
  - eapply run_spec; [eapply interrupt_body_wp; by apply ready_new | | done].
    intros [] x Hr. eapply finish_event_spec; [exact Hr | lia | done | done].
  - apply (run_spec _ _ _ (λ _ x', ready s false input authentication 0 x')); [| | done].
    { eapply ready_cpu; [by apply (ready_new s false) | intros; by auto with bounds | done]. }
    intros [] x Hr. eapply finish_event_spec; [exact Hr | lia | done | done].
  - destruct Ec as (_ & _ & E).
    pose proof (vblank_guard _ _ E) as (_ & _ & _ & _ & _ & _ & Hk).
    pose proof (vblank_distance_pos _ Hd). apply skip_spec; try done; [lia | | ].
    + intros. by apply quiet_long_ok; [| lia].
    + intros. unfold step_cycles. cbn [se_kind]. by rewrite E.
  - destruct Ec as (_ & _ & _ & E).
    pose proof (serial_guard _ _ E) as (_ & _ & _ & _ & _ & Hk).
    pose proof (ok_serial_cycles _ Hd). apply skip_spec; try done; [lia | | ].
    + intros. by apply quiet_long_ok; [| lia].
    + intros. unfold step_cycles. cbn [se_kind]. by rewrite E.
  - destruct Ec as (_ & _ & _ & _ & E).
    pose proof (timer_guard _ _ (ok_timer _ Hd) E) as (_ & _ & _ & _ & t & Ht & Hk).
    destruct (interrupt_exact (timer (dmg_devices s)) t (ok_timer _ Hd) Ht) as (Hpos & _).
    assert (0 <= n) by (subst; apply Z.div_pos; lia). apply skip_spec; try done.
    + intros. by apply quiet_long_ok.
    + intros. unfold step_cycles. cbn [se_kind]. by rewrite E.
  - apply (run_spec _ _ _ (λ _ x', ready s false input authentication
      (0 + halt_idle_m_cycles (dmg_devices s)) x')); [| | done].
    + eapply add_machine_timing_wp; [by apply (ready_new s false) | apply halt_idle_bound | done].
    + intros [] x Hr. eapply finish_event_spec; [exact Hr | lia | done | done].
Qed.
End step.
