(* ===== verification/Runs.v ===== *)
(** * Runs of the machine

    Sequences of accepted transitions: the state invariant and its monotone quantities, the absence of
    internal errors, the memory and ROM that a Merkle run proves it used, and the transcripts that bind
    its history. *)
From S2P Require Import Prelude IsaTypes Metadata Decode Alignment Address Commitment Merkle Image Logs.
From S2P Require Import Mbc3 Timer Apu Device Halt State Bus Execute Transition Access StepLogic.
From S2P Require Import StepTrace Step.

Section run.
Context `{Sha256}.

(** Every input of a run is applied to the state left by the previous one. *)
Fixpoint run_steps (authentication : BusAuthentication) (s : VmState) (inputs : list (list BusWitness)) :
    result StepError (VmState * list StepEffects) :=
  match inputs with
  | [] => Ok (s, [])
  | input :: inputs =>
      '(s, eff) ← apply s input authentication;
      '(s, effs) ← run_steps authentication s inputs;
      Ok (s, eff :: effs)
  end.

Definition inputs_ok (inputs : list (list BusWitness)) : Prop := Forall (Forall witness_ok) inputs.
Definition run_events (effs : list StepEffects) : list BusEvent := effs ≫= se_bus_events.

Lemma run_events_cons eff effs : run_events (eff :: effs) = se_bus_events eff ++ run_events effs.
Proof. done. Qed.

(** What an accepted run did, as one record of the same shape as [stepped]. *)
Record ran (s : VmState) (authentication : BusAuthentication) (s' : VmState) (effs : list StepEffects) :
    Prop := {
  rn_vm : vm_ok s';
  rn_profile : profile s' = profile s;
  rn_root : vm_rom_root s' = vm_rom_root s;
  rn_events : Forall (event_good s) (run_events effs);
  rn_memory : authentication = Auth.Merkle →
    memory_chain (memory_root s) (omap memory_access_of (run_events effs)) (memory_root s');
  rn_rom : authentication = Auth.Merkle →
    ∀ e r, e ∈ run_events effs → rom_read_of e = Some r → rom_valid r (vm_rom_root s);
  rn_input_log : log_append_all (input_log s) (omap input_of (run_events effs)) = Ok (input_log s');
  rn_output_log : log_append_all (output_log s) (omap output_of (run_events effs)) = Ok (output_log s');
  rn_bus : authentication = Auth.Merkle →
    bus_append_all (bus_transcript s) (map transcript_event (run_events effs)) = Ok (bus_transcript s');
  rn_isa : authentication = Auth.Merkle →
    ∃ rows, Forall2 (λ eff row, packed (from_decoded (se_instruction eff)) = Ok row) effs rows ∧
      isa_append_all (isa_transcript s) rows = Ok (isa_transcript s');
  rn_cycles : m_cycles (cpu s) <= m_cycles (cpu s');
  rn_defined : Forall (λ eff, defined_instruction (se_instruction eff)) effs
}.

Lemma step_cycles_nonneg s eff :
  vm_ok s → defined_instruction (se_instruction eff) → 0 <= step_cycles s eff.
Proof.
  intros Hs Hi. pose proof (ok_devices _ Hs) as Hd. unfold step_cycles. destruct (se_kind eff); try lia.
  - pose proof (instruction_cycles_bound (se_instruction eff) (se_branch_taken eff) Hi). lia.
  - apply halt_idle_bound.
  - destruct (halt_until_vblank_m_cycles _) eqn:E; cbn [default]; [| lia].
    pose proof (vblank_guard _ _ E) as (_ & _ & _ & _ & _ & _ & Hk).
    pose proof (vblank_distance_pos _ Hd). unfold id. lia.
  - destruct (halt_until_serial_m_cycles _) eqn:E; cbn [default]; [| lia].
    pose proof (serial_guard _ _ E) as (_ & _ & _ & _ & _ & Hk).
    pose proof (ok_serial_cycles _ Hd). unfold id. lia.
  - destruct (halt_until_timer_m_cycles _) eqn:E; cbn [default]; [| lia].
    pose proof (timer_guard _ _ (ok_timer _ Hd) E) as (_ & _ & _ & _ & t & Ht & ->).
    destruct (interrupt_exact (timer (dmg_devices s)) t (ok_timer _ Hd) Ht) as (Hpos & _).
    apply Z.div_pos; lia.
Qed.

Lemma log_append_all_split a l l' b c :
  log_append_all a l = Ok b → log_append_all b l' = Ok c → log_append_all a (l ++ l') = Ok c.
Proof. apply log_append_all_app. Qed.
Lemma bus_append_all_app l : ∀ a l' b c,
  bus_append_all a l = Ok b → bus_append_all b l' = Ok c → bus_append_all a (l ++ l') = Ok c.
Proof.
  induction l as [|e l IH]; cbn; intros a l' b c Hb Hc; [by injection Hb as -> |].
  destruct (bus_append a e); cbn in *; [by eapply IH | done].
Qed.

Lemma ran_nil s authentication : vm_ok s → ran s authentication s [].
Proof.
  intros Hs. split; cbn; try done; try lia; [by intros _ e r He; apply elem_of_nil in He |].
  intros _. by exists [].
Qed.

Lemma ran_cons s input authentication s1 eff s' effs :
  vm_ok s → stepped s input authentication s1 eff → ran s1 authentication s' effs →
  ran s authentication s' (eff :: effs).
Proof.
  intros Hvm Hst Hr. pose proof (step_cycles_nonneg s eff Hvm (st_defined _ _ _ _ _ Hst)) as Hpos.
  destruct Hst, Hr.
  split; rewrite ?run_events_cons; auto; try congruence; try lia.
  - apply Forall_app. split; [done |]. eapply Forall_impl; [exact rn_events0 |].
    intros e []. split; auto. by rewrite <- st_profile.
  - intros Hm. rewrite omap_app. eapply memory_chain_app; eauto.
  - intros Hm e r [He | He]%elem_of_app Her; [eauto |]. rewrite <- st_root. eauto.
  - rewrite omap_app. by eapply log_append_all_app.
  - rewrite omap_app. by eapply log_append_all_app.
  - intros Hm. rewrite map_app. eapply bus_append_all_app; eauto.
  - intros Hm. destruct (st_isa Hm) as (row & Hp & Ha), (rn_isa0 Hm) as (rows & Hrows & Hall).
    exists (row :: rows). split; [by constructor |]. cbn. by rewrite Ha.
Qed.

Lemma run_ran authentication inputs : ∀ s s' effs,
  vm_ok s → inputs_ok inputs → run_steps authentication s inputs = Ok (s', effs) →
  ran s authentication s' effs.
Proof.
  induction inputs as [|input inputs IH]; intros s s' effs Hs Hin Hrun; cbn [run_steps] in Hrun.
  { injection Hrun as <- <-. by apply ran_nil. }
  apply Forall_cons in Hin as [Hi Hin].
  pose proof (apply_spec s input authentication Hs Hi) as Hstep.
  destruct (apply s input authentication) as [[s1 eff] |]; [rewrite bind_of_ok in Hrun | done].
  destruct (run_steps authentication s1 inputs) as [[s2 effs'] |] eqn:E; [rewrite bind_of_ok in Hrun | done].
  injection Hrun as <- <-. eapply ran_cons; [done | exact Hstep |]. apply IH; [apply Hstep | done | done].
Qed.

(** ** Memory along a run *)

Lemma chain_transcript l : ∀ c root root' t,
  caches_ok c → current_root t = root → memory_chain root l root' →
  ∃ t', (transcript_run c t l).1 = Ok t' ∧ current_root t' = root'.
Proof.
  induction l as [|[r | w] l IH]; intros c root root' t Hc Ht Hl; cbn [memory_chain transcript_run] in *.
  - subst. eauto.
  - destruct Hl as [Hv Hl]. unfold transcript_read. rewrite Ht.
    destruct (read_verify_spec c r root Hc) as (Hc' & Hiff & _).
    destruct (read_verify c r root) as [[[] | e] c']; cbn [fst snd] in *.
    + by eapply IH; [| |exact Hl].
    + by apply proj2 in Hiff; specialize (Hiff Hv).
  - destruct Hl as (mid & Hv & Hl). unfold transcript_write. rewrite Ht.
    destruct (write_verify_spec c w root Hc) as (Hc' & Hiff & _).
    destruct (write_verify c w root) as [[q | e] c']; cbn [fst snd] in *.
    + pose proof (proj2 (Hiff mid) Hv) as E. injection E as ->. by eapply IH; [| |exact Hl].
    + by pose proof (proj2 (Hiff mid) Hv).
Qed.

Lemma chain_array_run `{!Sha256Digest} l bytes root' :
  memory_bytes bytes → Forall access_ok l → memory_chain (memory_image_root (image_of bytes)) l root' →
  (∃ bytes', array_run bytes l = Some bytes' ∧ root' = memory_image_root (image_of bytes')) ∨
  forged bytes l.
Proof.
  intros Hb Hl Hchain.
  destruct (chain_transcript l no_caches _ root' (transcript_new (memory_image_root (image_of bytes)))
    no_caches_ok eq_refl Hchain) as (t' & Hrun & <-).
  destruct (transcript_run_sound l _ bytes _ _ no_caches_ok Hb Hl eq_refl Hrun)
    as [(bytes' & ? & _ & ? & _) | ?]; [left; eauto | by right].
Qed.

Lemma good_accesses s evs : Forall (event_good s) evs → Forall access_ok (omap memory_access_of evs).
Proof.
  intros Hevs. apply Forall_forall. intros a (e & He & Ha)%list_elem_of_omap.
  rewrite Forall_forall in Hevs. by apply (eg_memory s e (Hevs e He)).
Qed.

Lemma good_transcript s evs : Forall (event_good s) evs → Forall event_ok (map transcript_event evs).
Proof. intros He. apply Forall_map. eapply Forall_impl; [exact He |]. by intros e []. Qed.

(** ** Histories *)

Lemma bus_append_all_index l : ∀ a b,
  bus_append_all a l = Ok b → bus_next_index b = bus_next_index a + Z.of_nat (length l).
Proof.
  induction l as [|e l IH]; intros a b; cbn [bus_append_all length]; [intros [= ->]; lia |].
  intros (c & Hc & Hb)%bind_ok. apply IH in Hb. revert Hc. unfold bus_append, checked_add_u64.
  case_match; [done |]. case_match; [| done]. intros [= <-]. cbn in Hb. lia.
Qed.
Lemma isa_append_all_index l : ∀ a b,
  isa_append_all a l = Ok b → isa_next_index b = isa_next_index a + Z.of_nat (length l).
Proof.
  induction l as [|e l IH]; intros a b; cbn [isa_append_all length]; [intros [= ->]; lia |].
  intros (c & Hc & Hb)%bind_ok. apply IH in Hb. revert Hc. unfold isa_append, checked_add_u64.
  case_match; [done |]. case_match; [| done]. intros [= <-]. cbn in Hb. lia.
Qed.

(** A state whose transcripts are the ones every constructor starts from. *)
Definition unrecorded (s : VmState) : Prop := bus_transcript s = bus_empty ∧ isa_transcript s = isa_empty.

Lemma ran_bus_root s s' effs :
  unrecorded s → ran s Auth.Merkle s' effs →
  bus_root (bus_transcript s') = bus_chain (rev (map transcript_event (run_events effs))) ∧
  Z.of_nat (length (map transcript_event (run_events effs))) < 2 ^ 64.
Proof.
  intros [Hb _] Hr. pose proof (rn_bus _ _ _ _ Hr eq_refl) as E. rewrite Hb in E.
  pose proof (bus_append_all_index _ _ _ E) as Hi. pose proof (ok_bus_index _ (rn_vm _ _ _ _ Hr)).
  cbn [bus_next_index bus_empty] in Hi. change (2 ^ 64) with 18446744073709551616. split; [| lia].
  pose proof (bus_append_chain [] _ (good_transcript _ _ (rn_events _ _ _ _ Hr)) ltac:(cbn [length]; lia)) as Ec.
  change (MkBusTranscript (Z.of_nat (length [])) (bus_chain [])) with bus_empty in Ec.
  rewrite E, app_nil_r in Ec. by injection Ec as ->.
Qed.

Lemma ran_isa_root s s' effs :
  unrecorded s → ran s Auth.Merkle s' effs →
  ∃ rows, Forall2 (λ eff row, packed (from_decoded (se_instruction eff)) = Ok row) effs rows ∧
    isa_root (isa_transcript s') = isa_chain (rev rows) ∧ Z.of_nat (length rows) < 2 ^ 64 ∧
    Forall (λ r, 0 <= r < PACKED_ROW_LIMIT) rows.
Proof.
  intros [_ Hb] Hr. destruct (rn_isa _ _ _ _ Hr eq_refl) as (rows & Hrows & E). rewrite Hb in E.
  pose proof (isa_append_all_index _ _ _ E) as Hi. pose proof (ok_isa_index _ (rn_vm _ _ _ _ Hr)).
  cbn [isa_next_index isa_empty] in Hi. change (2 ^ 64) with 18446744073709551616.
  assert (Hbound : Forall (λ r, 0 <= r < PACKED_ROW_LIMIT) rows).
  { pose proof (rn_defined _ _ _ _ Hr) as Hdef. clear - Hrows Hdef.
    induction Hrows as [| eff row effs rows Hp Hrows IH]; constructor; apply Forall_cons in Hdef as [Hi Hdef].
    - apply (packed_bound _ _ (proj1 (defined_row_fits _ Hi)) Hp).
    - by apply IH. }
  exists rows. split; [done |]. split; [| split; [lia | done]].
  pose proof (isa_append_chain [] rows Hbound ltac:(cbn [length]; lia)) as Ec.
  change (MkIsaTranscript (Z.of_nat (length [])) (isa_chain [])) with isa_empty in Ec.
  rewrite E, app_nil_r in Ec. by injection Ec as ->.
Qed.

(** The rows that a run absorbs into the ISA transcript. *)
Definition isa_rows (effs : list StepEffects) : list Z :=
  omap (λ eff, match packed (from_decoded (se_instruction eff)) with Ok row => Some row | Err _ => None end) effs.
Lemma isa_rows_packed effs rows :
  Forall2 (λ eff row, packed (from_decoded (se_instruction eff)) = Ok row) effs rows → isa_rows effs = rows.
Proof. induction 1 as [| eff row effs rows Hp _ IH]; [done |]. unfold isa_rows in *. cbn [omap list_omap]. by rewrite Hp, IH. Qed.

Lemma rows_instructions effs rows : ∀ effs',
  Forall (λ eff, defined_instruction (se_instruction eff)) effs →
  Forall (λ eff, defined_instruction (se_instruction eff)) effs' →
  Forall2 (λ eff row, packed (from_decoded (se_instruction eff)) = Ok row) effs rows →
  Forall2 (λ eff row, packed (from_decoded (se_instruction eff)) = Ok row) effs' rows →
  map se_instruction effs = map se_instruction effs'.
Proof.
  intros effs' Hd Hd' Hrows. revert effs' Hd'.
  induction Hrows as [| eff row effs rows Hp Hrows IH]; intros effs' Hd' Hrows'.
  - by inversion Hrows'.
  - inversion Hrows' as [| eff' ? effs'' ? Hp']; subst.
    apply Forall_cons in Hd as [Hi Hd], Hd' as [Hi' Hd']. cbn [map].
    rewrite (defined_row_injective _ _ row Hi Hi' Hp Hp'). f_equal. by apply IH.
Qed.

(** ** Reachable states *)

Inductive vm_step (authentication : BusAuthentication) (s s' : VmState) : Prop :=
| vm_step_intro input eff :
    Forall witness_ok input → apply s input authentication = Ok (s', eff) → vm_step authentication s s'.

(** The states the constructors of the program produce. *)
Inductive initial_vm : VmState → Prop :=
| initial_clean rom memory : initial_vm (Vm.profile_initial rom memory)
| initial_dmg p rom memory s :
    Vm.dmg_post_boot_mbc3_profile_initial p rom memory = Ok s → initial_vm s.

Lemma initial_vm_ok s : initial_vm s → vm_ok s.
Proof.
  intros [| p rom memory s' E]; [apply profile_initial_vm_ok |].
  unfold Vm.dmg_post_boot_mbc3_profile_initial in E. case_match; [done |]. injection E as <-.
  apply post_boot_vm_ok.
Qed.

Lemma vm_step_stepped authentication s s' :
  vm_ok s → vm_step authentication s s' → ∃ input eff, stepped s input authentication s' eff.
Proof.
  intros Hs [input eff Hin E]. exists input, eff. pose proof (apply_spec s input authentication Hs Hin) as H1.
  by rewrite E in H1.
Qed.
End run.

Section claims.
Context `{Sha256}.

(** C4. Every reachable state is well formed. From a state the program constructs, after any number
    of accepted transitions whose witnesses are bytes with paths of the declared shape, registers,
    flags, PC and SP are in range, the MBC3 selectors fit the cartridge, the device registers and
    counters are within their bounds, the log domains are kept and every counter is a u64; the
    machine profile and the ROM root are those of the start, and the cycle counter never decreases. *)
Theorem reachable_state_invariant authentication s s' :
  initial_vm s → relations.rtc (vm_step authentication) s s' →
  vm_ok s' ∧ profile s' = profile s ∧ vm_rom_root s' = vm_rom_root s ∧ m_cycles (cpu s) <= m_cycles (cpu s').
Proof.
  intros Hs%initial_vm_ok Hrun. revert Hs. induction Hrun as [s | s s1 s' Hstep _ IH]; [auto with lia |].
  intros Hs. destruct (vm_step_stepped _ _ _ Hs Hstep) as (input & eff & Hst).
  destruct (IH (st_vm _ _ _ _ _ Hst)) as (? & -> & -> & ?).
  pose proof (step_cycles_nonneg s eff Hs (st_defined _ _ _ _ _ Hst)). destruct Hst. auto with lia.
Qed.

(** C8. Step accounting. From a well-formed state every outcome of the transition function is
    ordinary: an accepted step advances the cycle counter by exactly the cycles of the instruction
    (with its branch outcome) or machine event it reports, uses up its input, which is the list of the
    witnesses of its bus events in order, appends exactly the input and output bytes of those events
    to the logs, and reports an instruction of the decoder; a rejected step never reports one of the
    errors the code reserves for broken internal invariants. *)
Theorem step_accounting s input authentication :
  vm_ok s → Forall witness_ok input →
  match apply s input authentication with
  | Ok (s', eff) =>
      m_cycles (cpu s') = m_cycles (cpu s) + step_cycles s eff ∧ 0 <= step_cycles s eff ∧
      input = se_bus_events eff ≫= witness_of ∧
      log_append_all (input_log s) (omap input_of (se_bus_events eff)) = Ok (input_log s') ∧
      log_append_all (output_log s) (omap output_of (se_bus_events eff)) = Ok (output_log s') ∧
      defined_instruction (se_instruction eff)
  | Err e => internal_error e = false
  end.
Proof.
  intros Hs Hin. pose proof (apply_spec s input authentication Hs Hin) as Hst.
  destruct (apply s input authentication) as [[s' eff] |]; [| done].
  pose proof (step_cycles_nonneg s eff Hs (st_defined _ _ _ _ _ Hst)). by destruct Hst.
Qed.

(** C1. Memory and ROM checking along a run. A Merkle run from the root of a memory array answers every memory
    access as that array would: reads and the old values of writes are its contents, and the final root is the
    root of the updated array; otherwise some access of the run is forged: the byte strings its verification
    hashes and those the image of the memory at that point hashes to open the same address contain a SHA-256
    collision. And for every program whose image has the ROM root, every byte fetched or read from ROM, at any
    physical address, is the byte of the program there (zero beyond its end), or the strings that its
    verification hashes and those that opening the program's byte hashes contain a collision. *)
Theorem run_memory_sound `{!Sha256Digest} s inputs s' effs bytes :
  vm_ok s → inputs_ok inputs → run_steps Auth.Merkle s inputs = Ok (s', effs) →
  memory_bytes bytes → memory_root s = memory_image_root (image_of bytes) →
  let accesses := omap memory_access_of (run_events effs) in
  ((∃ bytes', array_run bytes accesses = Some bytes' ∧ memory_root s' = memory_image_root (image_of bytes')) ∨
   forged bytes accesses) ∧
  (∀ program image, 0 < Z.of_nat (length program) <= ROM_BYTES → rom_new program = Ok image →
     vm_rom_root s = rom_image_root image →
     ∀ e r, e ∈ run_events effs → rom_read_of e = Some r →
       rr_value r = default 0 (program !! Z.to_nat (rr_physical_address r)) ∨
       collides (rom_opening program (rr_physical_address r)) (rom_inputs r)).
Proof.
  intros Hs Hin Hrun Hb Hroot accesses. pose proof (run_ran _ _ _ _ _ Hs Hin Hrun) as Hr. split.
  - pose proof (rn_memory _ _ _ _ Hr eq_refl) as Hchain. rewrite Hroot in Hchain.
    apply chain_array_run; [done | exact (good_accesses _ _ (rn_events _ _ _ _ Hr)) | done].
  - intros program image Hn Himg Hrom e r He Her.
    pose proof (rn_events _ _ _ _ Hr) as Hgood. rewrite Forall_forall in Hgood.
    destruct (eg_rom s e (Hgood e He) r Her) as [Hp Hphys].
    apply (rom_valid_value program image r); try done; [lia |].
    rewrite <- Hrom. by apply (rn_rom _ _ _ _ Hr eq_refl e r).
Qed.

(** C7. The transcripts bind the history. Two Merkle runs from unrecorded states that end with the same bus root
    performed the same bus events in the same order, up to the Merkle paths, which the transcript does not
    contain, or the byte strings hashed to absorb the events of the one run and those of the other contain a
    SHA-256 collision; two that end with the same ISA root executed the same instructions in the same order,
    or the strings hashed to absorb their rows do. The runs may start from different states, under different
    programs. *)
Theorem run_history_binding `{!Sha256Digest} s inputs s1 effs t inputs' t1 effs' :
  vm_ok s → inputs_ok inputs → unrecorded s → run_steps Auth.Merkle s inputs = Ok (s1, effs) →
  vm_ok t → inputs_ok inputs' → unrecorded t → run_steps Auth.Merkle t inputs' = Ok (t1, effs') →
  (bus_root (bus_transcript s1) = bus_root (bus_transcript t1) →
   map transcript_event (run_events effs) = map transcript_event (run_events effs') ∨
   collides (bus_inputs (map transcript_event (run_events effs))) (bus_inputs (map transcript_event (run_events effs')))) ∧
  (isa_root (isa_transcript s1) = isa_root (isa_transcript t1) →
   map se_instruction effs = map se_instruction effs' ∨
   collides (isa_inputs (isa_rows effs)) (isa_inputs (isa_rows effs'))).
Proof.
  intros Hs Hin Hu Hrun Ht Hin' Hu' Hrun'.
  pose proof (run_ran _ _ _ _ _ Hs Hin Hrun) as Hr. pose proof (run_ran _ _ _ _ _ Ht Hin' Hrun') as Hr'. split.
  - destruct (ran_bus_root _ _ _ Hu Hr) as [-> Hl], (ran_bus_root _ _ _ Hu' Hr') as [-> Hl'].
    apply bus_root_binding; [| | done | done]; [apply (good_transcript _ _ (rn_events _ _ _ _ Hr)) |
      apply (good_transcript _ _ (rn_events _ _ _ _ Hr'))].
  - destruct (ran_isa_root _ _ _ Hu Hr) as (rows & Hrows & -> & Hn & Hg),
      (ran_isa_root _ _ _ Hu' Hr') as (rows' & Hrows' & -> & Hn' & Hg').
    rewrite (isa_rows_packed _ _ Hrows), (isa_rows_packed _ _ Hrows').
    intros Hisa. destruct (isa_root_binding _ _ Hg Hg' Hn Hn' Hisa) as [-> | ?]; [left | by right].
    by eapply rows_instructions; [apply Hr | apply Hr' | |].
Qed.
End claims.

(** The kind codes of bus events: [TryFrom] inverts the discriminant and rejects, with the
    code, exactly the numbers that are not the code of a kind. *)
Theorem kind_code_roundtrip :
  (∀ k, kind_try_from (kind_code k) = Ok k) ∧
  (∀ c, match kind_try_from c with
        | Ok k => kind_code k = c
        | Err e => e = MkKindError c ∧ ∀ k, kind_code k ≠ c
        end).
Proof.
  split; [by intros [] |]. intros c.
  assert (Hout : 0 <= c < 19 ∨ kind_try_from c = Err (MkKindError c) ∧ ∀ k, kind_code k ≠ c).
  { destruct (decide (0 <= c < 19)) as [| Hc]; [by left | right].
    split; [| by intros [] <-; cbn in Hc; lia].
    destruct c as [| p | p]; [lia | | done]. by do 5 (try destruct p as [p | p |]); try lia. }
  destruct Hout as [Hc | [-> Hk]]; [| done].
  by assert (Hcases : c ∈ seqZ 0 19) by (by apply elem_of_seqZ);
    repeat (apply elem_of_cons in Hcases as [-> | Hcases]); [.. | by apply elem_of_nil in Hcases].
Qed.

(** ** Witnesses *)

(** Two instructions, [LD A,7] and [LD (0xc000),A], run from the clean initial state. The digest is
    the constant one, so that every path is accepted. *)
Section witnesses.
Definition const_sha256 : Sha256 := λ _, replicate 32 0.
#[local] Existing Instance const_sha256.

Lemma const_sha256_length : @Sha256Digest const_sha256.
Proof. by intros m. Qed.
#[local] Existing Instance const_sha256_length.

Definition demo_rom (address value : Z) : BusWitness :=
  Wit.Rom (MkRomRead address address value lookup_placeholder).
Definition demo_inputs : list (list BusWitness) :=
  [[demo_rom 0 0x3e; demo_rom 1 7];
   [demo_rom 2 0xea; demo_rom 3 0x00; demo_rom 4 0xc0;
    Wit.MemoryWrite (MkMemoryWrite 0xc000 0xc000 0 7 lookup_placeholder)]].
Definition demo_start : VmState := Vm.profile_initial (replicate 32 0) (replicate 32 0).

Lemma placeholder_ok : path_ok lookup_placeholder.
Proof. split; [done |]. by repeat (apply Forall_cons; split; [done |]). Qed.
Lemma demo_inputs_ok : inputs_ok demo_inputs.
Proof.
  pose proof placeholder_ok.
  repeat (apply Forall_cons; split); try apply Forall_nil; try done; split; try done; cbn; lia.
Qed.
Lemma demo_start_ok : vm_ok demo_start.
Proof. apply profile_initial_vm_ok. Qed.

Lemma demo_unrecorded : unrecorded demo_start.
Proof. exact (conj eq_refl eq_refl). Qed.

Lemma demo_run authentication : is_ok (run_steps authentication demo_start demo_inputs) = true.
Proof. destruct authentication; vm_compute; reflexivity. Qed.

Lemma zero_image_root : memory_root demo_start = memory_image_root (image_of zero_bytes).
Proof. reflexivity. Qed.

Lemma reachable_state_invariant_witness :
  ∃ s', relations.rtc (vm_step Auth.Merkle) demo_start s' ∧ reg_a (registers (cpu s')) = 7 ∧
    vm_ok s' ∧ profile s' = profile demo_start ∧ vm_rom_root s' = vm_rom_root demo_start ∧
    m_cycles (cpu demo_start) <= m_cycles (cpu s').
Proof.
  assert (Hstep : ∃ s', vm_step Auth.Merkle demo_start s' ∧ reg_a (registers (cpu s')) = 7).
  { destruct (apply demo_start [demo_rom 0 0x3e; demo_rom 1 7] Auth.Merkle) as [[s' eff] | e] eqn:E;
      [| by vm_compute in E].
    exists s'. split; [| by vm_compute in E; injection E as <- _].
    apply (vm_step_intro _ _ _ [demo_rom 0 0x3e; demo_rom 1 7] eff); [| exact E].
    pose proof demo_inputs_ok as Hin. by apply Forall_cons in Hin as [Hin _]. }
  destruct Hstep as (s' & Hstep & Ha). exists s'.
  assert (Hrun : relations.rtc (vm_step Auth.Merkle) demo_start s') by (by apply relations.rtc_once).
  split; [exact Hrun |]. split; [exact Ha |].
  exact (reachable_state_invariant Auth.Merkle demo_start s' (initial_clean _ _) Hrun).
Defined.

Lemma step_accounting_witness :
  match apply demo_start [demo_rom 0 0x3e; demo_rom 1 7] Auth.Merkle with
  | Ok (s', eff) =>
      m_cycles (cpu s') = m_cycles (cpu demo_start) + step_cycles demo_start eff ∧ 0 <= step_cycles demo_start eff ∧
      [demo_rom 0 0x3e; demo_rom 1 7] = se_bus_events eff ≫= witness_of ∧
      log_append_all (input_log demo_start) (omap input_of (se_bus_events eff)) = Ok (input_log s') ∧
      log_append_all (output_log demo_start) (omap output_of (se_bus_events eff)) = Ok (output_log s') ∧
      defined_instruction (se_instruction eff)
  | Err e => internal_error e = false
  end.
Proof.
  apply (step_accounting demo_start); [apply demo_start_ok |].
  pose proof demo_inputs_ok as Hin. by apply Forall_cons in Hin as [Hin _].
Defined.

End witnesses.

(** ** Witnesses with real paths

    A digest that mixes every byte of its input, a program, and a run that opens its bytes and a byte of zeroed
    memory with the paths of their trees. *)
Section mixing.
Definition mix_sha256 : Sha256 := λ m,
  le_bytes 4 (foldl (λ h b, Z.land (h * 65599 + b + 1) 0xffffffff) 0 m) ++ replicate 28 0.
#[local] Existing Instance mix_sha256.
Lemma mix_sha256_length : @Sha256Digest mix_sha256.
Proof. intros m. unfold sha256, mix_sha256. by rewrite length_app, le_bytes_length, length_replicate. Qed.
#[local] Existing Instance mix_sha256_length.

(** The roots of the zero subtrees from height [n] down. *)
Fixpoint zero_stack (k : TreeKind) (n : nat) : list CommitmentRoot :=
  match n with
  | O => [leaf k 0]
  | S n => let zeros := zero_stack k n in let z := default [] (head zeros) in node k (Z.of_nat n) z z :: zeros
  end.
Lemma zero_stack_spec k n : zero_stack k n = rev (map (zero_of k) (seq 0 (S n))).
Proof.
  induction n as [| n IH]; [done |]. rewrite seq_S, map_app, rev_app_distr. cbn [zero_stack]. rewrite IH.
  by rewrite seq_S, map_app, rev_app_distr.
Qed.
Definition zeros_above (k : TreeKind) (d : nat) : list CommitmentRoot := drop d (rev (zero_stack k 19)).
Lemma zeros_above_spec k d : zeros_above k d = map (zero_of k) (seq d (20 - d)).
Proof. unfold zeros_above. rewrite zero_stack_spec, rev_involutive, skipn_map, drop_seq. done. Qed.
Lemma extended_zero k n : ∀ d, extended k n d (zero_of k d) = zero_of k (d + n).
Proof.
  induction n as [| n IH]; intros d; [by rewrite Nat.add_0_r |]. cbn [extended].
  change (node k (Z.of_nat d) (zero_of k d) (zero_of k d)) with (zero_of k (S d)). rewrite IH. f_equal. lia.
Qed.

(** Zeroed memory. *)
Definition mixed_memory_root : CommitmentRoot := default [] (head (zero_stack Kind.Memory 20)).
Lemma zeroes_root k m : (m <= TREE_DEPTH)%nat → root_of k (replicate (2 ^ m) 0) m = zero_of k TREE_DEPTH.
Proof.
  intros Hm. assert (E : replicate (2 ^ m) 0 = [0] ++ replicate (2 ^ (0 + m) - 2 ^ 0) 0).
  { assert (Ht : ∀ n, replicate (S n) 0 = [0] ++ replicate n 0) by done. rewrite <- Ht. f_equal.
    rewrite Nat.pow_0_r, Nat.add_0_l. pose proof (Nat.pow_nonzero 2 m ltac:(done)). lia. }
  rewrite E. rewrite (root_padded k m [0] 0 eq_refl Hm).
  change (root_of k [0] 0) with (extended k TREE_DEPTH 0 (zero_of k 0)). apply extended_zero.
Qed.
Lemma image_root bytes : memory_image_root (image_of bytes) = root_of Kind.Memory bytes MEMORY_DEPTH.
Proof. done. Qed.
Lemma zero_bytes_pow : zero_bytes = replicate (2 ^ MEMORY_DEPTH) 0.
Proof. symmetry. apply replicate_as_Forall_2; [exact zero_bytes_ok | by apply Forall_replicate]. Qed.
Lemma mixed_memory_root_spec : mixed_memory_root = zero_of Kind.Memory TREE_DEPTH.
Proof. unfold mixed_memory_root. by rewrite zero_stack_spec, seq_S, map_app, rev_app_distr. Qed.
Lemma mixed_memory : mixed_memory_root = memory_image_root (image_of zero_bytes).
Proof.
  rewrite image_root, zero_bytes_pow, zeroes_root; [apply mixed_memory_root_spec |].
  pose proof memory_depth_bound. unfold TREE_DEPTH. lia.
Qed.

(** A program of eight bytes: its root, and the path to each of its bytes. *)
Definition mixed_rom_root (program : list Z) : CommitmentRoot :=
  derive_from (node_domain Kind.Rom) 3 0 (default [] (head (level_of Kind.Rom program 3))) (zeros_above Kind.Rom 3).
Lemma mixed_rom program image : length program = 8%nat → rom_new program = Ok image → mixed_rom_root program = rom_image_root image.
Proof.
  intros Hl Himg. rewrite (rom_root_padded_program program image) by (done || unfold ROM_BYTES; lia).
  unfold padded_program. rewrite Hl. change 8%nat with (2 ^ 3)%nat. change TREE_DEPTH with (3 + 17)%nat.
  rewrite (root_padded Kind.Rom 17 program 3) by (done || unfold TREE_DEPTH; lia).
  unfold mixed_rom_root, root_of, top_of. rewrite zeros_above_spec. apply (derive_zero Kind.Rom 17 3).
Qed.
Definition mixed_path (program : list Z) (p : Z) : MerklePath :=
  MkPath (map (λ j, default [] (level_of Kind.Rom program j !! Z.to_nat (Z.lxor (Z.shiftr p (Z.of_nat j)) 1))) (seq 0 3) ++
    zeros_above Kind.Rom 3).
Definition mixed_read (program : list Z) (p : Z) : BusWitness :=
  Wit.Rom (MkRomRead p p (default 0 (program !! Z.to_nat p)) (mixed_path program p)).
Definition path_check (p : MerklePath) : bool :=
  (length (siblings p) =? TREE_LEVELS)%nat && forallb (λ s, length s =? 32)%nat (siblings p).
Lemma path_checked p : path_check p = true → path_ok p.
Proof.
  unfold path_check. intros [Hl%Nat.eqb_eq Hs]%andb_true_iff. split; [done |]. apply Forall_forall. intros s Hin.
  rewrite forallb_forall in Hs. by apply Nat.eqb_eq, Hs, list_elem_of_In.
Qed.

Definition mixed_start (program : list Z) : VmState := Vm.profile_initial (mixed_rom_root program) mixed_memory_root.
(** [LD A,7] and [LD (0xc000),A]; and a program that begins alike. *)
Definition store_program : list Z := [0x3e; 7; 0xea; 0x00; 0xc0; 0; 0; 0].
Definition other_program : list Z := [0x3e; 7; 0x11; 0x22; 0x33; 0x44; 0x55; 0x66].
Definition mixed_load (program : list Z) : list BusWitness := [mixed_read program 0; mixed_read program 1].
Definition mixed_store : list BusWitness :=
  [mixed_read store_program 2; mixed_read store_program 3; mixed_read store_program 4;
   Wit.MemoryWrite (MkMemoryWrite 0xc000 0xc000 0 7 (MkPath (zeros_above Kind.Memory 0)))].
Lemma mixed_load_ok program : path_check (mixed_path program 0) = true → path_check (mixed_path program 1) = true →
  is_u8 (default 0 (program !! 0%nat)) → is_u8 (default 0 (program !! 1%nat)) → inputs_ok [mixed_load program].
Proof.
  intros Hp0%path_checked Hp1%path_checked H0 H1. unfold mixed_load, mixed_read.
  apply Forall_cons; split; [| apply Forall_nil; exact I]. apply Forall_cons; split; [exact (conj H0 Hp0) |].
  apply Forall_cons; split; [exact (conj H1 Hp1) | apply Forall_nil; exact I].
Qed.
Lemma mixed_inputs_ok : inputs_ok [mixed_load store_program; mixed_store].
Proof.
  apply Forall_cons. split.
  - pose proof (mixed_load_ok store_program eq_refl eq_refl ltac:(by split) ltac:(by split)) as Hl. by apply Forall_cons in Hl as [Hl _].
  - unfold mixed_store, mixed_read. repeat (apply Forall_cons; split); try (apply Forall_nil; exact I);
      (split; [by split | apply path_checked; vm_compute; reflexivity]).
Qed.
Lemma mixed_run : match run_steps Auth.Merkle (mixed_start store_program) [mixed_load store_program; mixed_store] with
  | Ok (_, effs) => length (omap rom_read_of (run_events effs)) = 5%nat
  | Err _ => False
  end.
Proof. vm_compute. reflexivity. Qed.
Lemma mixed_runs : match run_steps Auth.Merkle (mixed_start store_program) [mixed_load store_program],
    run_steps Auth.Merkle (mixed_start other_program) [mixed_load other_program] with
  | Ok (s', _), Ok (t', _) =>
      bus_root (bus_transcript s') = bus_root (bus_transcript t') ∧ isa_root (isa_transcript s') = isa_root (isa_transcript t')
  | _, _ => False
  end.
Proof. vm_compute. split; reflexivity. Qed.
Lemma mixed_roots : mixed_rom_root store_program ≠ mixed_rom_root other_program.
Proof. by vm_compute. Qed.

Lemma run_memory_sound_witness :
  ∃ s' effs image, run_steps Auth.Merkle (mixed_start store_program) [mixed_load store_program; mixed_store] = Ok (s', effs) ∧
  rom_new store_program = Ok image ∧ vm_rom_root (mixed_start store_program) = rom_image_root image ∧
  length (omap rom_read_of (run_events effs)) = 5%nat ∧
  let accesses := omap memory_access_of (run_events effs) in
  ((∃ bytes', array_run zero_bytes accesses = Some bytes' ∧ memory_root s' = memory_image_root (image_of bytes')) ∨
   forged zero_bytes accesses) ∧
  (∀ e r, e ∈ run_events effs → rom_read_of e = Some r →
     rr_value r = default 0 (store_program !! Z.to_nat (rr_physical_address r)) ∨
     collides (rom_opening store_program (rr_physical_address r)) (rom_inputs r)).
Proof.
  pose proof mixed_run as Hok.
  destruct (run_steps Auth.Merkle (mixed_start store_program) _) as [[s' effs] |] eqn:E; [| destruct Hok].
  destruct (rom_new_ok store_program ltac:(unfold ROM_BYTES; cbn; lia)) as (bytes & _ & Himg & _).
  eexists s', effs, _. split; [reflexivity |]. split; [exact Himg |].
  pose proof (mixed_rom store_program _ eq_refl Himg) as Hroot. split; [exact Hroot |].
  split; [exact Hok |].
  destruct (run_memory_sound (mixed_start store_program) _ s' effs zero_bytes (profile_initial_vm_ok _ _) mixed_inputs_ok E
    zero_bytes_ok mixed_memory) as [Hmem Hrom].
  split; [exact Hmem |]. exact (Hrom store_program _ ltac:(unfold ROM_BYTES; cbn; lia) Himg Hroot).
Defined.

Lemma run_history_binding_witness :
  mixed_rom_root store_program ≠ mixed_rom_root other_program ∧
  ∃ s' effs t' effs', run_steps Auth.Merkle (mixed_start store_program) [mixed_load store_program] = Ok (s', effs) ∧
    run_steps Auth.Merkle (mixed_start other_program) [mixed_load other_program] = Ok (t', effs') ∧
    (map transcript_event (run_events effs) = map transcript_event (run_events effs') ∨
     collides (bus_inputs (map transcript_event (run_events effs))) (bus_inputs (map transcript_event (run_events effs')))) ∧
    (map se_instruction effs = map se_instruction effs' ∨ collides (isa_inputs (isa_rows effs)) (isa_inputs (isa_rows effs'))).
Proof.
  split; [exact mixed_roots |]. pose proof mixed_runs as Hok.
  destruct (run_steps Auth.Merkle (mixed_start store_program) [mixed_load store_program]) as [[s' effs] |] eqn:E; [| destruct Hok].
  destruct (run_steps Auth.Merkle (mixed_start other_program) [mixed_load other_program]) as [[t' effs'] |] eqn:E'; [| destruct Hok].
  exists s', effs, t', effs'. split; [reflexivity |]. split; [reflexivity |].
  destruct (run_history_binding (mixed_start store_program) _ s' effs (mixed_start other_program) _ t' effs'
    (profile_initial_vm_ok _ _) (mixed_load_ok store_program eq_refl eq_refl ltac:(by split) ltac:(by split)) (conj eq_refl eq_refl) E
    (profile_initial_vm_ok _ _) (mixed_load_ok other_program eq_refl eq_refl ltac:(by split) ltac:(by split)) (conj eq_refl eq_refl) E')
    as [Hbus Hisa].
  split; [exact (Hbus (proj1 Hok)) | exact (Hisa (proj2 Hok))].
Defined.
End mixing.
