(* ===== verification/Refine.v ===== *)
(** * Merkle steps refine lookup steps

    The two step relations of [Transition] run the same code under the two bus authentications. Here
    they are compared: a Merkle transition is a lookup transition of the same state with other roots,
    and the only extra outcomes of the former are errors of the commitments. *)
From S2P Require Import Prelude IsaTypes Metadata Decode Alignment Commitment Merkle Logs Device Halt.
From S2P Require Import State Bus Execute Transition Runs.

(** Errors that only the Merkle relation can report. *)
Definition commitment_error (e : StepError) : bool :=
  match e with
  | SErr.RomAuthentication _ | SErr.MemoryAuthentication _ | SErr.BusTranscriptCommitment _
  | SErr.IsaTranscriptCommitment _ | SErr.AlignmentPacking _ => true
  | _ => false
  end.

(** The same state with other commitments. *)
Definition with_roots (m : CommitmentRoot) (b : BusTranscriptAccumulator) (i : IsaTranscriptAccumulator)
    (s : VmState) : VmState :=
  MkVm (profile s) (cpu s) (mbc3 s) (dmg_devices s) (vm_rom_root s) m (input_log s) (output_log s) b i.
Definition lookup_twin (m : CommitmentRoot) (b : BusTranscriptAccumulator) (i : IsaTranscriptAccumulator)
    (x : Executor) : Executor :=
  MkExecutor (with_roots m b i (ex_state x)) (ex_witnesses x) (ex_events x) Auth.Lookup.

Section refine.
Context `{Sha256}.

(** A method that the lookup relation runs as the Merkle relation does. *)
Definition sim {A} (f : M A) : Prop := ∀ m b i x, ex_authentication x = Auth.Merkle →
  match f x with
  | Ok (a, x') => ex_authentication x' = Auth.Merkle ∧ f (lookup_twin m b i x) = Ok (a, lookup_twin m b i x')
  | Err e => commitment_error e = true ∨ f (lookup_twin m b i x) = Err e
  end.

(** ** The rules *)

Lemma sim_ret {A} (a : A) : sim (mret a).
Proof. by intros m b i x. Qed.
Lemma sim_fail {A} e : sim (fail (A := A) e).
Proof. intros m b i x _. by right. Qed.
Lemma sim_lift {A} (r : result StepError A) : sim (lift r).
Proof. intros m b i x Hx. unfold lift. destruct r; auto. Qed.
Lemma sim_bind {A B} (f : M A) (g : A → M B) : sim f → (∀ a, sim (g a)) → sim (f ≫= g).
Proof.
  intros Hf Hg m b i x Hx. unfold mbind, M_bind. specialize (Hf m b i x Hx).
  destruct (f x) as [[a x'] | e]; [| destruct Hf as [? | ->]; auto].
  destruct Hf as [Hx' ->]. by apply Hg.
Qed.
Lemma sim_get_cpu : sim get_cpu.
Proof. by intros m b i x. Qed.
Lemma sim_modify_cpu f : sim (modify_cpu f).
Proof. by intros m b i x. Qed.
Lemma sim_modify_devices f : sim (modify_devices f).
Proof. by intros m b i x. Qed.
Lemma sim_push_event e : sim (push_event e).
Proof. by intros m b i x. Qed.

(** A state read is simulated when what follows does not look at the commitments. *)
Lemma sim_state {A} (f : VmState → M A) :
  (∀ m b i s, f (with_roots m b i s) = f s) → (∀ s, sim (f s)) → sim (s ← state; f s).
Proof.
  intros Hf Hs m b i x Hx. unfold mbind, M_bind, state. cbn [ex_state lookup_twin]. rewrite Hf. by apply Hs.
Qed.
Lemma sim_modify_state f :
  (∀ m b i s, f (with_roots m b i s) = with_roots m b i (f s)) → sim (modify_state f).
Proof.
  intros Hf m b i x Hx. split; [done |]. unfold modify_state, lookup_twin. cbn. by rewrite Hf.
Qed.

Lemma sim_next_witness request : sim (next_witness request).
Proof.
  intros m b i x Hx. unfold next_witness, mbind, M_bind, get, put. cbn [ex_witnesses lookup_twin].
  destruct (ex_witnesses x) as [| w rest]; [by right |]. cbv beta iota zeta. destruct (negb _); [by right | done].
Qed.

(** The authentications: the lookup relation skips them. *)
Lemma sim_authenticate_rom r : sim (authenticate_rom r).
Proof.
  intros m b i x Hx. unfold authenticate_rom, mbind, M_bind, get. cbn [ex_authentication lookup_twin].
  rewrite decide_True by done. unfold lift. destruct (rom_verify _ _ _).1 as [[] | e]; cbn; auto.
Qed.
Lemma sim_authenticate_read r : sim (authenticate_read r).
Proof.
  intros m b i x Hx. unfold authenticate_read, mbind, M_bind, get. cbn [ex_authentication lookup_twin].
  rewrite decide_True by done. unfold lift. destruct (read_verify _ _ _).1 as [[] | e]; cbn; auto.
Qed.
Lemma sim_authenticate_write w : sim (authenticate_write w).
Proof.
  intros m b i x Hx. unfold authenticate_write, mbind, M_bind, get. cbn [ex_authentication lookup_twin].
  rewrite decide_True by done. unfold lift. destruct (write_verify _ _ _).1 as [r | e]; cbn; auto.
Qed.

Create HintDb sim.
#[local] Hint Resolve sim_ret sim_fail sim_lift sim_get_cpu sim_modify_cpu sim_modify_devices sim_push_event
  sim_next_witness sim_authenticate_rom sim_authenticate_read sim_authenticate_write : sim.

(** Goes through a method by the rules; the names of handlers already treated are hints. *)
Ltac sim_step :=
  first
    [ solve [auto with sim nocore]
    | apply sim_state; [reflexivity | intros ?]
    | apply sim_modify_state; reflexivity
    | apply sim_bind; [| intros ?]
    | case_match ].
Ltac sim_run := repeat (sim_step; cbv beta zeta).

(** ** The executor methods *)

Lemma sim_take_rom_read a p role : sim (take_rom_read a p role).
Proof. unfold take_rom_read. sim_run. Qed.
Lemma sim_take_memory_read a p role : sim (take_memory_read a p role).
Proof. unfold take_memory_read. sim_run. Qed.
Lemma sim_take_memory_write a p v : sim (take_memory_write a p v).
Proof. unfold take_memory_write. sim_run. Qed.
Lemma sim_require_dma a : sim (require_cpu_dma_access a).
Proof. unfold require_cpu_dma_access. sim_run. Qed.
Lemma sim_require_ppu a : sim (require_cpu_ppu_access a).
Proof. unfold require_cpu_ppu_access. sim_run. Qed.
#[local] Hint Resolve sim_take_rom_read sim_take_memory_read sim_take_memory_write sim_require_dma
  sim_require_ppu : sim.

Lemma sim_fetch_instruction a role : sim (fetch_instruction a role).
Proof. unfold fetch_instruction, fetch, read_instruction_memory. sim_run. Qed.
Lemma sim_read_data a : sim (read_data a).
Proof. unfold read_data, read_dmg_joypad, fetch, read_memory, read_input, read_dmg_mmio. sim_run. Qed.
Lemma sim_write_data a v : sim (write_data a v).
Proof. unfold write_data, write_memory, write_output, write_dmg_mmio. sim_run. Qed.
Lemma sim_copy_dma_byte : sim copy_dma_byte.
Proof. unfold copy_dma_byte, dma_source_byte. sim_run. Qed.
#[local] Hint Resolve sim_fetch_instruction sim_read_data sim_write_data sim_copy_dma_byte : sim.

Lemma sim_execute d immediate : sim (execute d immediate).
Proof.
  unfold execute. destruct (class d);
    unfold execute_control, execute_load, execute_alu8, execute_alu16, execute_rotate, execute_bit,
      execute_jump, execute_call_return, execute_stack, execute_interrupt, execute_low_power,
      read_operand, write_operand, transfer_accumulator, store_sp_absolute, push_word, pop_word,
      set_stack_register; sim_run.
Qed.
#[local] Hint Resolve sim_execute : sim.

Lemma sim_fetch_immediates n d : sim (fetch_immediates_loop n d).
Proof.
  revert d. induction n as [| n IH]; intros d; cbn [fetch_immediates_loop]; [apply sim_ret |].
  unfold fetch_and_advance. sim_run.
Qed.
#[local] Hint Resolve sim_fetch_immediates : sim.

Lemma sim_instruction_body s : sim (instruction_body s).
Proof.
  unfold instruction_body, fetch_and_decode, fetch_first_opcode, fetch_and_advance, fetch_immediates,
    apply_delayed_ime, add_timing, add_cycles. sim_run.
Qed.
Lemma sim_interrupt_body d : sim (interrupt_body d).
Proof. unfold interrupt_body, push_interrupt_return, add_machine_timing, add_cycles. sim_run. Qed.
Lemma sim_add_machine_timing n : sim (add_machine_timing n).
Proof. unfold add_machine_timing, add_cycles. sim_run. Qed.
Lemma sim_add_cycles n : sim (add_cycles n).
Proof. unfold add_cycles. sim_run. Qed.
#[local] Hint Resolve sim_instruction_body sim_interrupt_body sim_add_machine_timing sim_add_cycles : sim.

(** ** Outcomes *)

(** [lookup] is the lookup outcome that corresponds to the Merkle outcome [merkle]. *)
Definition refines {A} m b i (merkle lookup : result StepError (VmState * A)) : Prop :=
  match merkle with
  | Ok (s, a) => lookup = Ok (with_roots m b i s, a)
  | Err e => commitment_error e = true ∨ lookup = Err e
  end.

Lemma finalize_refines m b i x d :
  ex_authentication x = Auth.Merkle → refines m b i (finalize x d) (finalize (lookup_twin m b i x) d).
Proof.
  intros Hx. unfold finalize. cbn [ex_witnesses ex_authentication lookup_twin].
  rewrite Hx. case_match; [by right |]. rewrite decide_True by done.
  destruct (bus_append_all _ _); [rewrite map_err_ok, bind_of_ok | by left]. cbv zeta.
  destruct (packed _); [rewrite map_err_ok, bind_of_ok | by left].
  destruct (isa_append _ _); [rewrite map_err_ok, bind_of_ok; reflexivity | by left].
Qed.

Lemma run_refines {A B} m b i (f : M A) s input (k : A → Executor → result StepError (VmState * B)) :
  sim f → (∀ a x, ex_authentication x = Auth.Merkle → refines m b i (k a x) (k a (lookup_twin m b i x))) →
  refines m b i (run f (executor_new s input Auth.Merkle) k)
    (run f (executor_new (with_roots m b i s) input Auth.Lookup) k).
Proof.
  intros Hf Hk. unfold run. specialize (Hf m b i (executor_new s input Auth.Merkle) eq_refl).
  change (lookup_twin m b i (executor_new s input Auth.Merkle))
    with (executor_new (with_roots m b i s) input Auth.Lookup) in Hf.
  destruct (f _) as [[a x] | e]; [| destruct Hf as [? | ->]; [by left | by right]].
  destruct Hf as [Hx ->]. by apply Hk.
Qed.

Lemma finish_refines m b i x d kind taken :
  ex_authentication x = Auth.Merkle →
  refines m b i ('(s, events) ← finalize x d; Ok (s, MkEffects kind d taken events))
    ('(s, events) ← finalize (lookup_twin m b i x) d; Ok (s, MkEffects kind d taken events)).
Proof.
  intros Hx. pose proof (finalize_refines m b i x d Hx) as Hf.
  destruct (finalize x d) as [[s events] | e]; cbn [refines] in Hf.
  - rewrite Hf, !bind_of_ok. reflexivity.
  - rewrite bind_of_err. destruct Hf as [? | ->]; [by left |]. rewrite bind_of_err. by right.
Qed.

Lemma finish_event_refines m b i kind opcode a x :
  ex_authentication x = Auth.Merkle →
  refines m b i (finish_event kind opcode a x) (finish_event kind opcode a (lookup_twin m b i x)).
Proof.
  intros Hx. unfold finish_event. destruct (machine_event_marker opcode); [| by right].
  rewrite !bind_of_ok. by apply finish_refines.
Qed.

Lemma execute_instruction_refines m b i s input :
  refines m b i (execute_instruction s input Auth.Merkle)
    (execute_instruction (with_roots m b i s) input Auth.Lookup).
Proof.
  unfold execute_instruction. cbn [cpu with_roots]. case_match; [by right |].
  apply run_refines; [apply sim_instruction_body |]. intros [d taken] x Hx. by apply finish_refines.
Qed.

Lemma apply_refines m b i s input :
  refines m b i (apply s input Auth.Merkle) (apply (with_roots m b i s) input Auth.Lookup).
Proof.
  unfold apply. cbn [profile dmg_devices with_roots].
  destruct (is_dmg_post_boot_mbc3 (profile s)); [| apply execute_instruction_refines].
  case_match; [apply run_refines; auto using finish_event_refines with sim |].
  change (classify_dmg_machine_event (with_roots m b i s)) with (classify_dmg_machine_event s).
  destruct (classify_dmg_machine_event s) as [event | e]; [rewrite !bind_of_ok | by right].
  destruct event as [[] |]; [.. | apply execute_instruction_refines];
    (apply run_refines; [sim_run | intros; by apply finish_event_refines]).
Qed.

Lemma run_steps_refines m b i inputs : ∀ s,
  refines m b i (run_steps Auth.Merkle s inputs) (run_steps Auth.Lookup (with_roots m b i s) inputs).
Proof.
  induction inputs as [| input inputs IH]; intros s; cbn [run_steps]; [reflexivity |].
  pose proof (apply_refines m b i s input) as Ha. destruct (apply s input Auth.Merkle) as [[s1 eff] | e].
  - cbn [refines] in Ha. rewrite Ha, !bind_of_ok. cbv beta iota. specialize (IH s1).
    destruct (run_steps Auth.Merkle s1 inputs) as [[s2 effs] | e]; cbn [refines] in IH.
    + rewrite IH, !bind_of_ok. reflexivity.
    + rewrite bind_of_err. destruct IH as [? | ->]; [by left |]. rewrite bind_of_err. by right.
  - rewrite bind_of_err. destruct Ha as [? | ->]; [by left |]. rewrite bind_of_err. by right.
Qed.

(** C2. The Merkle relation refines the lookup relation. Whatever roots and transcripts the lookup
    machine starts with, a Merkle run of the same inputs from the same machine state is mirrored by the
    lookup run: the same effects in the same order, the same final CPU, mapper, devices and logs, with
    the commitments of the lookup machine untouched; a rejected Merkle run fails with an error of the
    commitments, or the lookup run fails with the very same error. So an external proof of the memory
    accesses is all that the lookup relation leaves out. *)
Theorem merkle_refines_lookup m b i s inputs :
  match run_steps Auth.Merkle s inputs with
  | Ok (s', effs) =>
      run_steps Auth.Lookup (with_roots m b i s) inputs = Ok (with_roots m b i s', effs)
  | Err e =>
      commitment_error e = true ∨ run_steps Auth.Lookup (with_roots m b i s) inputs = Err e
  end.
Proof. apply run_steps_refines. Qed.
End refine.
