(* ===== verification/Effects.v ===== *)
(** * The CPU and bus effect of a method

    Symbolic execution of the handlers on what the CPU sees: [eff m c Q] says that from CPU state [c]
    an accepted run of [m] ends in a CPU state and with a list of bus accesses (shape, address, byte)
    that satisfy [Q]. The rules are exact, so [Q] may speak of every register and every access. *)
From S2P Require Import Prelude IsaTypes Metadata Decode Flags Alu Address Commitment Merkle Logs Mbc3.
From S2P Require Import Device State Bus Execute Transition Access.

Global Instance shape_eq_dec : EqDecision AccessShape.
Proof. solve_decision. Defined.

(** One access of the CPU bus. *)
Definition bus_access : Type := AccessShape * Z * Z.
Definition access_of (e : BusEvent) : bus_access := (shape_of e, event_address e, event_value e).

Section eff.
Context `{Sha256}.

Definition eff {A} (m : M A) (c : CpuState) (Q : A → CpuState → list bus_access → Prop) : Prop :=
  ∀ x, cpu (ex_state x) = c →
  match m x with
  | Ok (a, x') => ∃ evs, ex_events x' = ex_events x ++ evs ∧ Q a (cpu (ex_state x')) (map access_of evs)
  | Err _ => True
  end.

(** ** The rules *)

Lemma eff_ret {A} (a : A) c (Q : A → CpuState → list bus_access → Prop) : Q a c [] → eff (mret a) c Q.
Proof. intros HQ x <-. exists []. by rewrite app_nil_r. Qed.
Lemma eff_fail {A} e c (Q : A → CpuState → list bus_access → Prop) : eff (fail e) c Q.
Proof. done. Qed.
Lemma eff_lift {A} (r : result StepError A) c (Q : A → CpuState → list bus_access → Prop) :
  (∀ a, r = Ok a → Q a c []) → eff (lift r) c Q.
Proof. intros HQ x <-. unfold lift. destruct r; [| done]. exists []. rewrite app_nil_r. auto. Qed.
Lemma eff_bind {A B} (m : M A) (f : A → M B) c (Q : B → CpuState → list bus_access → Prop) :
  eff m c (λ a c' l, eff (f a) c' (λ b c'' l', Q b c'' (l ++ l'))) → eff (m ≫= f) c Q.
Proof.
  intros Hm x Hx. unfold mbind, M_bind. specialize (Hm x Hx). destruct (m x) as [[a y] |]; [| done].
  destruct Hm as (evs & Hev & Hf). specialize (Hf y eq_refl). destruct (f a y) as [[b z] |]; [| done].
  destruct Hf as (evs' & Hev' & HQ). exists (evs ++ evs'). split; [by rewrite app_assoc, <- Hev |].
  by rewrite map_app.
Qed.
Lemma eff_mono {A} (m : M A) c (P Q : A → CpuState → list bus_access → Prop) :
  eff m c P → (∀ a c' l, P a c' l → Q a c' l) → eff m c Q.
Proof.
  intros Hm HQ x Hx. specialize (Hm x Hx). destruct (m x) as [[a y] |]; [| done].
  destruct Hm as (evs & ? & ?). exists evs. auto.
Qed.
Lemma eff_and {A} (m : M A) c (P Q : A → CpuState → list bus_access → Prop) :
  eff m c P → eff m c Q → eff m c (λ a c' l, P a c' l ∧ Q a c' l).
Proof.
  intros HP HQ x Hx. specialize (HP x Hx). specialize (HQ x Hx). destruct (m x) as [[a y] |]; [| done].
  destruct HP as (evs & E & HP), HQ as (evs' & E' & HQ). exists evs. split; [done |].
  rewrite E in E'. apply app_inv_head in E' as <-. done.
Qed.
Lemma eff_get_cpu c (Q : CpuState → CpuState → list bus_access → Prop) : Q c c [] → eff get_cpu c Q.
Proof. intros HQ x <-. exists []. by rewrite app_nil_r. Qed.
Lemma eff_modify_cpu f c (Q : () → CpuState → list bus_access → Prop) : Q () (f c) [] → eff (modify_cpu f) c Q.
Proof. intros HQ x <-. exists []. by rewrite app_nil_r. Qed.
Lemma eff_modify_devices f c (Q : () → CpuState → list bus_access → Prop) : Q () c [] → eff (modify_devices f) c Q.
Proof. intros HQ x <-. exists []. by rewrite app_nil_r. Qed.
Lemma eff_state c (Q : VmState → CpuState → list bus_access → Prop) : (∀ s, cpu s = c → Q s c []) → eff state c Q.
Proof. intros HQ x <-. exists []. rewrite app_nil_r. auto. Qed.

(** ** Bus methods *)

(** A method that leaves the CPU and the events alone. *)
Definition silent {A} (m : M A) (V : A → Prop) : Prop := ∀ c, eff m c (λ a c' l, c' = c ∧ l = [] ∧ V a).

Lemma eff_silent {A B} (m : M A) V (f : A → M B) c Q :
  silent m V → (∀ a, V a → eff (f a) c Q) → eff (m ≫= f) c Q.
Proof.
  intros Hm Hf. apply eff_bind. eapply eff_mono; [apply Hm |]. intros a c' l (-> & -> & Hv). by apply Hf.
Qed.
Lemma silent_of {A} (m : M A) (V : A → Prop) :
  (∀ x, match m x with
        | Ok (a, x') => ex_events x' = ex_events x ∧ cpu (ex_state x') = cpu (ex_state x) ∧ V a
        | Err _ => True
        end) → silent m V.
Proof.
  intros Hm c x <-. specialize (Hm x). destruct (m x) as [[a y] |]; [| done].
  destruct Hm as (-> & -> & ?). exists []. by rewrite app_nil_r.
Qed.

Lemma silent_next r : silent (next_witness r) (λ _, True).
Proof.
  apply silent_of. intros x. unfold next_witness, mbind, M_bind, get, put.
  destruct (ex_witnesses x); [done |]. cbv beta iota zeta. by destruct (negb _).
Qed.
Lemma silent_lift {A} (r : result StepError A) : silent (lift r) (λ a, r = Ok a).
Proof. intros c. apply eff_lift. auto. Qed.
Lemma silent_state : silent state (λ _, True).
Proof. intros c. apply eff_state. auto. Qed.
Lemma silent_modify_state f : (∀ s, cpu (f s) = cpu s) → silent (modify_state f) (λ _, True).
Proof. intros Hf. apply silent_of. intros x. cbn. auto. Qed.
Lemma silent_authenticate_rom r : silent (authenticate_rom r) (λ _, True).
Proof.
  apply silent_of. intros x. unfold authenticate_rom, mbind, M_bind, get, lift.
  destruct (decide _); [| done]. by destruct (rom_verify _ _ _).1 as [[] |].
Qed.
Lemma silent_authenticate_read r : silent (authenticate_read r) (λ _, True).
Proof.
  apply silent_of. intros x. unfold authenticate_read, mbind, M_bind, get, lift.
  destruct (decide _); [| done]. by destruct (read_verify _ _ _).1 as [[] |].
Qed.
Lemma silent_authenticate_write w : silent (authenticate_write w) (λ _, True).
Proof.
  apply silent_of. intros x. unfold authenticate_write, mbind, M_bind, get, lift.
  destruct (decide _); [| done]. by destruct (write_verify _ _ _).1.
Qed.
Lemma silent_bind {A B} (m : M A) (f : A → M B) V W :
  silent m V → (∀ a, V a → silent (f a) W) → silent (m ≫= f) W.
Proof. intros Hm Hf c. eapply eff_silent; [exact Hm |]. intros a Ha. by apply Hf. Qed.
Lemma silent_ret {A} (a : A) (V : A → Prop) : V a → silent (mret a) V.
Proof. intros Hv c. by apply eff_ret. Qed.
Lemma silent_fail {A} e V : silent (fail (A := A) e) V.
Proof. done. Qed.

Lemma eff_push e c (Q : () → CpuState → list bus_access → Prop) :
  Q () c [access_of e] → eff (push_event e) c Q.
Proof. intros HQ x <-. by exists [e]. Qed.

Lemma require_address_eq a b role : require_address a b role = Ok () → b = a.
Proof. unfold require_address. destruct (Z.eqb_spec b a); auto; done. Qed.

Lemma silent_take_rom a p role : silent (take_rom_read a p role) (λ r, rr_address r = a).
Proof.
  eapply silent_bind; [apply silent_next |]. intros [r | | |] _; try apply silent_fail.
  eapply silent_bind; [apply silent_lift |]. intros [] Ha%require_address_eq.
  eapply silent_bind; [apply silent_lift |]. intros _ _.
  eapply silent_bind; [apply silent_authenticate_rom |]. intros _ _. by apply silent_ret.
Qed.
Lemma silent_take_read a p role : silent (take_memory_read a p role) (λ r, mr_address r = a).
Proof.
  eapply silent_bind; [apply silent_next |]. intros [| r | |] _; try apply silent_fail.
  eapply silent_bind; [apply silent_lift |]. intros [] Ha%require_address_eq.
  eapply silent_bind; [apply silent_lift |]. intros _ _.
  eapply silent_bind; [apply silent_authenticate_read |]. intros _ _. by apply silent_ret.
Qed.
Lemma silent_take_write a p v : silent (take_memory_write a p v) (λ w, mw_address w = a ∧ mw_after w = v).
Proof.
  eapply silent_bind; [apply silent_next |]. intros [| | w |] _; try apply silent_fail.
  eapply silent_bind; [apply silent_lift |]. intros [] Ha%require_address_eq.
  eapply silent_bind; [apply silent_lift |]. intros _ _.
  destruct (Z.eqb_spec (mw_after w) v); [by apply silent_ret | apply silent_fail].
Qed.
Lemma silent_require_dma a : silent (require_cpu_dma_access a) (λ _, True).
Proof.
  eapply silent_bind; [apply silent_state |]. intros s _ c.
  eapply eff_mono; [apply silent_lift |]. cbn. intuition.
Qed.
Lemma silent_require_ppu a : silent (require_cpu_ppu_access a) (λ _, True).
Proof.
  eapply silent_bind; [apply silent_state |]. intros s _ c.
  eapply eff_mono; [apply silent_lift |]. cbn. intuition.
Qed.

(** One step of a bus method: its silent part, then the event. *)
Ltac bus_step :=
  first
    [ eapply eff_silent; [first [apply silent_require_dma | apply silent_require_ppu | apply silent_state
        | apply silent_lift | apply silent_next | apply silent_take_rom | apply silent_take_read
        | apply silent_take_write | apply silent_authenticate_write
        | apply silent_modify_state; done] | intros ? ?; cbv beta zeta in *]
    | apply eff_fail
    | apply eff_bind, eff_push
    | apply eff_bind, eff_modify_devices
    | apply eff_push
    | apply eff_ret
    | case_match ].

Lemma state_owner_port s a :
  (state_owner s a = Own.Input → a = INPUT_PORT) ∧ (state_owner s a = Own.Output → a = OUTPUT_PORT).
Proof. unfold state_owner. split; intros Ho; case_match; owner_cases. Qed.

(** The access of a CPU read and of a CPU write. *)
Lemma eff_fetch_instruction a role c (Q : Z → CpuState → list bus_access → Prop) :
  (∀ v, Q v c [(match role with Role.OpcodeFetch => Shape.Fetch | _ => Shape.Immediate end, a, v)]) →
  role = Role.OpcodeFetch ∨ role = Role.ImmediateRead → eff (fetch_instruction a role) c Q.
Proof.
  intros HQ Hr. unfold fetch_instruction, fetch, read_instruction_memory.
  destruct Hr as [-> | ->]; repeat bus_step; unfold access_of; cbn; subst; apply HQ.
Qed.

Lemma eff_read_data a c (Q : Z → CpuState → list bus_access → Prop) :
  (∀ v, Q v c [(Shape.DataRead, a, v)]) → eff (read_data a) c Q.
Proof.
  intros HQ. unfold read_data, fetch, read_memory, read_input, read_dmg_joypad, read_dmg_mmio.
  repeat bus_step; unfold access_of; cbn; subst; rewrite ?andb_true_iff, ?Z.eqb_eq in *;
    try (destruct_and!; subst); try apply HQ.
  rewrite <- (proj1 (state_owner_port _ a)) by eassumption. apply HQ.
Qed.

Lemma eff_write_data a v c (Q : () → CpuState → list bus_access → Prop) :
  Q () c [(Shape.DataWrite, a, v)] → eff (write_data a v) c Q.
Proof.
  intros HQ. unfold write_data, write_memory, write_output, write_dmg_mmio.
  repeat bus_step; unfold access_of; cbn; destruct_and?; subst; try exact HQ.
  all: by rewrite <- (proj2 (state_owner_port _ a)) by eassumption.
Qed.

(** ** The metadata of an operation as a specification *)

Definition component_value (k : SC.StateComponent) (c : CpuState) : Z :=
  match k with
  | SC.A => reg_a (registers c) | SC.B => reg_b (registers c) | SC.C => reg_c (registers c)
  | SC.D => reg_d (registers c) | SC.E => reg_e (registers c) | SC.H => reg_h (registers c)
  | SC.L => reg_l (registers c) | SC.F => flags_byte (flags c) | SC.Pc => pc c | SC.Sp => sp c
  | SC.Ime => ime_code (ime c) | SC.RunState => run_code (run_state c) | SC.MCycles => m_cycles c
  end.

(** No component outside the declared write set changes. *)
Definition frame (a : StateAccess) (c c' : CpuState) : Prop :=
  ∀ k, writes a k = false → component_value k c' = component_value k c.

Definition action_ok (a : FA.FlagAction) (before after : bool) : Prop :=
  match a with
  | FA.Preserve => after = before
  | FA.Clear => after = false
  | FA.Set_ => after = true
  | FA.Derived => True
  end.
Definition flags_conform (e : FlagEffect) (f f' : Flags) : Prop :=
  action_ok (fe_zero e) (f_zero f) (f_zero f') ∧ action_ok (fe_subtract e) (f_subtract f) (f_subtract f') ∧
  action_ok (fe_half_carry e) (f_half_carry f) (f_half_carry f') ∧
  action_ok (fe_carry e) (f_carry f) (f_carry f').

(** The data accesses a pattern declares: reads, then writes. *)
Definition data_shapes (p : BusAccessPattern) (taken : bool) : list AccessShape :=
  replicate (Z.to_nat (data_reads p + if taken then taken_data_reads p else 0)) Shape.DataRead ++
  replicate (Z.to_nat (data_writes p + if taken then taken_data_writes p else 0)) Shape.DataWrite.

Definition shape (a : bus_access) : AccessShape := a.1.1.

Definition op_pattern (o : Op.Operation) : BusAccessPattern :=
  let '(r, w, tr, tw) := data_bus o in MkBusPattern 0 0 r w tr tw.

(** The control state an operation leaves. *)
Definition ime_after (o : Op.Operation) (i : ImeState) : ImeState :=
  match o with
  | Op.DisableInterrupts => Ime.Disabled
  | Op.EnableInterrupts => Ime.EnablePending
  | Op.ReturnFromInterrupt => Ime.Enabled
  | _ => i
  end.
Definition run_after (o : Op.Operation) (r : RunState) : RunState :=
  match o with Op.Halt => Run.Halted | Op.Stop => Run.Stopped | _ => r end.
Definition control_ok (o : Op.Operation) (c : CpuState) (taken : bool) (c' : CpuState) : Prop :=
  (taken = false → pc c' = pc c) ∧ ime c' = ime_after o (ime c) ∧ run_state c' = run_after o (run_state c).

Definition op_post (o : Op.Operation) (c : CpuState) (taken : bool) (c' : CpuState) (l : list bus_access) : Prop :=
  map shape l = data_shapes (op_pattern o) taken ∧ control_ok o c taken c' ∧
  frame (state_access_of o) c c' ∧ flags_conform (flag_effect o) (flags c) (flags c').

Lemma decimal_adjust_flags a f : ∃ v z k, decimal_adjust a f = MkByteResult v (from_bits z (f_subtract f) false k).
Proof. unfold decimal_adjust. destruct (f_subtract f); eauto. Qed.
Lemma add_flags a b k : ∃ v z h k', add a b k = MkByteResult v (from_bits z false h k').
Proof. unfold add. destruct (overflowing_add8 a b), (overflowing_add8 _ _). eauto. Qed.
Lemma subtract_flags a b k : ∃ v z h k', subtract a b k = MkByteResult v (from_bits z true h k').
Proof. unfold subtract. destruct (overflowing_sub8 a b), (overflowing_sub8 _ _). eauto. Qed.
Lemma rotate_flags o v k z r :
  rotate_shift o v k z = Some r →
  ∃ v' z' k', r = MkByteResult v' (from_bits z' false false k') ∧ (z = false → z' = false).
Proof. unfold rotate_shift. destruct o; try done; intros [= <-]; do 3 eexists; (split; [done |]); by intros ->. Qed.

End eff.

(** One rule of the logic. *)
Ltac eff_step :=
  lazymatch goal with
  | |- eff (mbind _ _) _ _ => apply eff_bind
  | |- eff get_cpu _ _ => apply eff_get_cpu
  | |- eff (modify_cpu _) _ _ => apply eff_modify_cpu
  | |- eff (modify_devices _) _ _ => apply eff_modify_devices
  | |- eff (mret _) _ _ => apply eff_ret
  | |- eff (fail _) _ _ => apply eff_fail
  | |- eff (read_data _) _ _ => apply eff_read_data; intros ?
  | |- eff (write_data _ _) _ _ => apply eff_write_data
  | |- eff (lift _) _ _ => apply eff_lift; intros ? ?
  | |- eff (if decide ?P then _ else _) _ _ => destruct (decide P)
  | |- eff _ _ _ => case_match
  end; cbv beta zeta.
Ltac eff_run := repeat eff_step.

Lemma ok_or_ok {A E} (o : option A) (e : E) a : ok_or o e = Ok a → o = Some a.
Proof. destruct o; [by intros [= ->] | done]. Qed.

(** The flags of computed results. *)
Ltac result_flags :=
  repeat match goal with
    | |- context [decimal_adjust ?a ?f] => destruct (decimal_adjust_flags a f) as (? & ? & ? & ->)
    | |- context [add ?a ?b ?k] => destruct (add_flags a b k) as (? & ? & ? & ? & ->)
    | |- context [subtract ?a ?b ?k] => destruct (subtract_flags a b k) as (? & ? & ? & ? & ->)
    | E : ok_or (rotate_shift _ _ _ _) _ = Ok _ |- _ =>
        apply ok_or_ok in E; apply rotate_flags in E as (? & ? & ? & -> & ?)
    end.

(** The three parts of [op_post] on a computed final state. *)
Ltac op_done :=
  try discriminate; (result_flags;
  split; [reflexivity | split; [by split_and!; intros | split;
    [ intros []; solve [done | intros E; vm_compute in E; discriminate E]
    | unfold flags_conform; cbn; autorewrite with flags; auto ]]]).

Section effects.
Context `{Sha256}.

Lemma control_effect o c : eff (execute_control o) c (op_post o c).
Proof. unfold execute_control. destruct o; eff_run; op_done. Qed.

Ltac split_operands :=
  repeat match goal with
    | o : Opd.Operand8 |- _ => destruct o
    | r : R8.Register8 |- _ => destruct r
    | r : R16.Register16 |- _ => destruct r
    | d : Dir.TransferDirection |- _ => destruct d
    | a : Ind.IndirectAddress |- _ => destruct a
    | a : SR.StackRegister16 |- _ => destruct a
    | a : option Cond.Condition |- _ => destruct a
    | a : AluOp.AluOperation |- _ => destruct a
    | a : CbOp.CbOperation |- _ => destruct a
    end.

Lemma load_effect o d c :
  eff (execute_load o d) c (λ taken c' l, o ≠ Op.Load8 Opd.IndirectHl Opd.IndirectHl → op_post o c taken c' l).
Proof.
  unfold execute_load, transfer_accumulator, store_sp_absolute, read_operand, write_operand, add_signed_to_sp.
  destruct o; split_operands; eff_run; intros ?; try done; op_done.
Qed.
Lemma alu8_effect o d c : eff (execute_alu8 o d) c (op_post o c).
Proof.
  unfold execute_alu8, read_operand, write_operand.
  destruct o; split_operands; try done; eff_run; op_done.
Qed.
Lemma alu16_effect o d c : eff (execute_alu16 o d) c (op_post o c).
Proof.
  unfold execute_alu16, add_hl, add_signed_to_sp.
  destruct o; split_operands; try done; eff_run; op_done.
Qed.
Lemma rotate_effect o d c : eff (execute_rotate o d) c (op_post o c).
Proof.
  unfold execute_rotate, read_operand, write_operand.
  destruct o; split_operands; try done; eff_run; op_done.
Qed.
Lemma bit_effect o d c : eff (execute_bit o d) c (op_post o c).
Proof.
  unfold execute_bit, read_operand, write_operand.
  destruct o; split_operands; try done; eff_run; op_done.
Qed.
Lemma jump_effect o d c : eff (execute_jump o d) c (op_post o c).
Proof.
  unfold execute_jump.
  destruct o; split_operands; try done; eff_run; op_done.
Qed.
Lemma call_return_effect o d c : eff (execute_call_return o d) c (op_post o c).
Proof.
  unfold execute_call_return, push_word, pop_word.
  destruct o; split_operands; try done; eff_run; op_done.
Qed.
Lemma stack_effect o c : eff (execute_stack o) c (op_post o c).
Proof.
  unfold execute_stack, push_word, pop_word, set_stack_register.
  destruct o; split_operands; try done; eff_run; op_done.
Qed.
Lemma interrupt_effect o c : eff (execute_interrupt o) c (op_post o c).
Proof. unfold execute_interrupt. destruct o; eff_run; op_done. Qed.
Lemma low_power_effect o d c : eff (execute_low_power o d) c (op_post o c).
Proof. unfold execute_low_power. destruct o; eff_run; op_done. Qed.

Lemma execute_effect i d c :
  eff (execute i d) c (λ taken c' l,
    operation i ≠ Op.Load8 Opd.IndirectHl Opd.IndirectHl → op_post (operation i) c taken c' l).
Proof.
  assert (Hw : ∀ m, eff m c (op_post (operation i) c) → eff m c (λ taken c' l,
    operation i ≠ Op.Load8 Opd.IndirectHl Opd.IndirectHl → op_post (operation i) c taken c' l)).
  { intros m Hm. eapply eff_mono; [exact Hm |]. auto. }
  unfold execute. destruct (class i); auto using control_effect, load_effect, alu8_effect,
    alu16_effect, rotate_effect, bit_effect, jump_effect, call_return_effect, stack_effect,
    interrupt_effect, low_power_effect, eff_fail.
Qed.

(** ** Fetching *)

(** The shapes and addresses of fetching [n] bytes of code: after HALT's bug the first byte is fetched
    without moving the program counter. *)
Definition code_shapes (p : BusAccessPattern) : list AccessShape :=
  replicate (Z.to_nat (opcode_fetches p)) Shape.Fetch ++ replicate (Z.to_nat (immediate_reads p)) Shape.Immediate.
Fixpoint code_addresses (n : nat) (pc : Z) : list Z :=
  match n with O => [] | S n => pc :: code_addresses n (w16 (pc + 1)) end.
Definition fetch_addresses (halt_bug : bool) (n : nat) (pc : Z) : list Z :=
  match n with
  | O => []
  | S n => pc :: code_addresses n (if halt_bug then pc else w16 (pc + 1))
  end.
Definition address (a : bus_access) : Z := a.1.2.
Definition value (a : bus_access) : Z := a.2.
(** The byte of the first access of a kind. *)
Definition first_value (k : AccessShape) (l : list bus_access) : option Z :=
  value <$> find (λ a, bool_decide (shape a = k)) l.

Lemma fetch_and_advance_effect role c (Q : Z → CpuState → list bus_access → Prop) :
  role = Role.OpcodeFetch ∨ role = Role.ImmediateRead →
  (∀ v, Q v (set_pc (w16 (pc c + 1)) c)
     [(match role with Role.OpcodeFetch => Shape.Fetch | _ => Shape.Immediate end, pc c, v)]) →
  eff (fetch_and_advance role) c Q.
Proof.
  intros Hr HQ. unfold fetch_and_advance. apply eff_bind, eff_get_cpu. cbv zeta.
  apply eff_bind, eff_fetch_instruction; [| done]. intros v.
  apply eff_bind, eff_modify_cpu, eff_ret. apply HQ.
Qed.

(** The program counter after [n] bytes. *)
Fixpoint advanced (n : nat) (pc : Z) : Z := match n with O => pc | S n => advanced n (w16 (pc + 1)) end.

Lemma advanced_eq n : ∀ p, is_u16 p → advanced n p = w16 (p + Z.of_nat n).
Proof.
  induction n as [| n IH]; intros p Hp; cbn [advanced].
  - unfold w16. rewrite Z.mod_small; lia.
  - rewrite IH by (unfold w16; apply Z.mod_pos_bound; lia). unfold w16.
    rewrite Zplus_mod_idemp_l. f_equal. lia.
Qed.

Lemma fetch_loop_effect n : ∀ d c (Q : ImmediateBytes → CpuState → list bus_access → Prop),
  (∀ d' l, map shape l = replicate n Shape.Immediate → map address l = code_addresses n (pc c) →
     first d' = (match first d with Some v => Some v | None => first_value Shape.Immediate l end) →
     Q d' (set_pc (advanced n (pc c)) c) l) →
  eff (fetch_immediates_loop n d) c Q.
Proof.
  induction n as [| n IH]; intros d c Q HQ; cbn [fetch_immediates_loop].
  { apply eff_ret. specialize (HQ d [] eq_refl eq_refl). destruct c. apply HQ. by destruct (first d). }
  apply eff_bind, fetch_and_advance_effect; [by right |]. intros v.
  apply eff_bind, eff_lift. intros d' Hd. apply IH. intros d'' l Hs Ha Hf.
  apply (HQ d'' ((Shape.Immediate, pc c, v) :: l)); cbn [map]; [by rewrite Hs | by rewrite Ha |].
  rewrite Hf. unfold push in Hd. destruct (first d); [| by injection Hd as <-].
  destruct (second d); [done |]. by injection Hd as <-.
Qed.

Lemma primary_form b i :
  decode_primary b = Classified.Defined_ i → ∃ e o n k t, i = instruction (Enc.Primary e) o n k t.
Proof.
  unfold decode_primary. destruct (is_undefined b); [done |]. intros [= <-].
  unfold decode_defined_primary. cbv zeta.
  lazymatch goal with |- ∃ _ _ _ _ _, (match ?d with _ => _ end) = _ => destruct d as [[[? ?] ?] ?] end.
  by do 5 eexists.
Qed.

Lemma decoded_pattern i :
  (∃ b, decode_primary b = Classified.Defined_ i) ∨ (∃ b, i = decode_cb b) →
  class i = class_of (operation i) ∧ flags_effect i = flag_effect (operation i) ∧
  state_access i = state_access_of (operation i) ∧
  bus i = bus_pattern (encoding i) (operation i) (byte_len i).
Proof.
  intros [[b (? & ? & ? & ? & ? & ->)%primary_form] | [b ->]]; done.
Qed.

Lemma primary_code b i :
  decode_primary b = Classified.Defined_ i →
  code_shapes (bus i) = Shape.Fetch :: replicate (Z.to_nat (saturating_sub (byte_len i) 1)) Shape.Immediate.
Proof.
  intros (? & ? & ? & ? & ? & ->)%primary_form. unfold code_shapes, instruction, bus_pattern.
  cbn [bus byte_len]. by destruct (data_bus _) as [[[? ?] ?] ?].
Qed.

Lemma cb_code b : code_shapes (bus (decode_cb b)) = [Shape.Fetch; Shape.Fetch].
Proof.
  unfold decode_cb, instruction, code_shapes, bus_pattern. cbn [bus]. by destruct (data_bus _) as [[[? ?] ?] ?].
Qed.

Lemma data_pattern i taken :
  bus i = bus_pattern (encoding i) (operation i) (byte_len i) →
  data_shapes (bus i) taken = data_shapes (op_pattern (operation i)) taken.
Proof.
  intros ->. unfold bus_pattern, op_pattern, data_shapes. by destruct (data_bus _) as [[[? ?] ?] ?].
Qed.

(** What fetching and decoding did: the declared code accesses at consecutive addresses, whose opcode
    bytes decode to the instruction, and nothing else than moving the program counter. *)
Definition fetched (halt_bug : bool) (c : CpuState) (i : DecodedInstruction) (c' : CpuState)
    (l : list bus_access) : Prop :=
  ((∃ b, decode_primary b = Classified.Defined_ i) ∨ (∃ b, i = decode_cb b)) ∧
  dispatch (default 0 (map value l !! 0%nat)) (default 0 (map value l !! 1%nat)) = Some i ∧
  map shape l = code_shapes (bus i) ∧
  map address l = fetch_addresses halt_bug (length l) (pc c) ∧
  c' = set_pc (advanced (length l - if halt_bug then 1 else 0) (pc c))
         (if halt_bug then set_run_state Run.Running c else c).

Lemma length_shapes l n s s' :
  map shape l = s :: replicate n s' → length l = S n.
Proof. intros E. apply (f_equal length) in E. cbn in E. by rewrite length_map, length_replicate in E. Qed.

Lemma fetch_and_decode_effect halt_bug c :
  eff (fetch_and_decode halt_bug) c
    (λ '(i, d) c' l, fetched halt_bug c i c' l ∧ first d = first_value Shape.Immediate l).
Proof.
  unfold fetch_and_decode, fetch_first_opcode. apply eff_bind, eff_bind, eff_get_cpu. cbv zeta.
  apply eff_bind, eff_fetch_instruction; [| by left]. intros b.
  set (c1 := set_pc (if halt_bug then pc c else w16 (pc c + 1)) (if halt_bug then set_run_state Run.Running c else c)).
  assert (Hc : ∀ (Q : () → CpuState → list bus_access → Prop), Q () c1 [] →
    eff (if halt_bug then modify_cpu (set_run_state Run.Running) else modify_cpu (set_pc (w16 (pc c + 1)))) c Q).
  { intros Q HQ. destruct halt_bug; apply eff_modify_cpu; [| done]. unfold c1 in HQ. by destruct c. }
  apply eff_bind, Hc, eff_ret. cbn [app].
  assert (Hpc : pc c1 = if halt_bug then pc c else w16 (pc c + 1)) by (by destruct halt_bug).
  destruct (Z.eqb_spec b 0xcb) as [-> | Hb].
  - apply eff_bind, fetch_and_advance_effect; [by left |]. intros v. apply eff_ret. cbn [app].
    rewrite Hpc. split; [| done]. split; [eauto |]. split; [done |]. split; [by rewrite cb_code |].
    split; [by destruct halt_bug |].
    unfold c1. by destruct halt_bug, c.
  - destruct (decode_primary b) as [i | u] eqn:Ed; [| apply eff_fail].
    unfold fetch_immediates. apply eff_bind, fetch_loop_effect. intros d l Hs Ha Hd. apply eff_ret. split; [| rewrite app_nil_r; exact Hd].
    rewrite app_nil_r. cbn [app]. rewrite Hpc in *. pose proof (primary_code b i Ed) as Hcode.
    assert (Hl : length l = Z.to_nat (saturating_sub (byte_len i) 1)).
    { apply (f_equal length) in Hs. by rewrite length_map, length_replicate in Hs. }
    split; [eauto |]. split; [cbn; unfold dispatch; by rewrite (proj2 (Z.eqb_neq _ _) Hb), Ed |].
    split; [cbn [map]; by rewrite Hcode, Hs |]. rewrite <- Hl in *. cbn [length map].
    split; [by rewrite Ha; destruct halt_bug |].
    unfold c1. destruct halt_bug, c; cbn; by rewrite ?Nat.sub_0_r.
Qed.
End effects.
