(* ===== verification/Conform.v ===== *)
(** * Transitions against the instruction metadata

    What an executed instruction does to the CPU and the bus, for all 501 decoded rows, as the tables of
    [Metadata] declare it; and what an interrupt dispatch does. *)
From S2P Require Import Prelude IsaTypes Metadata Decode Alignment Flags Alu Address Commitment Merkle.
From S2P Require Import Logs Mbc3 Timer Device Halt State Bus Execute Transition Access StepLogic.
From S2P Require Import StepTrace Step Effects Runs.

(** [HALT] before a pending interrupt with IME off fetches the next byte twice. *)
Definition halt_bug_entry (s : VmState) (o : Op.Operation) : bool :=
  bool_decide (o = Op.Halt) && negb (bool_decide (ime (cpu s) = Ime.Enabled)) &&
  bool_decide (is_Some (pending_interrupt (dmg_devices s))).
(** [EI] takes effect after the instruction that follows it, unless that is [DI]. *)
Definition enables_ime (s : VmState) (o : Op.Operation) : bool :=
  bool_decide (ime (cpu s) = Ime.EnablePending) && negb (bool_decide (o = Op.DisableInterrupts)).

Section conform.
Context `{Sha256}.

Lemma add_timing_effect i taken active c (Q : () → CpuState → list bus_access → Prop) :
  (∀ n, Q () (set_m_cycles n c) []) → eff (add_timing i taken active) c Q.
Proof.
  intros HQ. unfold add_timing, add_cycles. eff_step. eff_step. eff_step. eff_step. eff_step. eff_step.
  repeat eff_step. apply HQ.
Qed.

(** The CPU state and accesses an instruction leaves: fetched, executed, then finished. *)
Definition finished (s : VmState) (i : DecodedInstruction) (n : Z) (c : CpuState) : CpuState :=
  let c := if enables_ime s (operation i) then set_ime Ime.Enabled c else c in
  let c := set_m_cycles n c in
  if halt_bug_entry s (operation i) then set_run_state Run.HaltBug c else c.

Definition body_post (s : VmState) (c : CpuState) (r : DecodedInstruction * bool) (c' : CpuState)
    (l : list bus_access) : Prop :=
  ∃ c1 l1 c2 l2 n, fetched (bool_decide (run_state (cpu s) = Run.HaltBug)) c r.1 c1 l1 ∧
    op_post (operation r.1) c1 r.2 c2 l2 ∧ l = l1 ++ l2 ∧ c' = finished s r.1 n c2.

Lemma cpu_if (b : bool) f c (Q : () → CpuState → list bus_access → Prop) :
  Q () (if b then f c else c) [] → eff (if b then modify_cpu f else mret ()) c Q.
Proof. destruct b; [apply eff_modify_cpu | apply eff_ret]. Qed.

Lemma instruction_body_effect s c :
  eff (instruction_body s) c (λ r c' l,
    operation r.1 ≠ Op.Load8 Opd.IndirectHl Opd.IndirectHl → body_post s c r c' l).
Proof.
  unfold instruction_body, apply_delayed_ime.
  apply eff_bind. eapply eff_mono; [apply fetch_and_decode_effect |]. intros [i d] c1 l1 [Hf _].
  apply eff_bind. eapply eff_mono; [apply execute_effect |]. intros taken c2 l2 Ho.
  apply eff_bind, cpu_if, eff_bind, add_timing_effect. intros n. apply eff_bind, cpu_if, eff_ret.
  intros Hload. exists c1, l1, c2, l2, n. rewrite !app_nil_r. auto.
Qed.

(** ** From a body to its transition *)

Lemma finalize_out x i s evs :
  finalize x i = Ok (s, evs) → evs = ex_events x ∧ cpu s = cpu (ex_state x).
Proof.
  unfold finalize. case_match; [done |]. destruct (decide _); [| by intros [= <- <-]].
  destruct (bus_append_all _ _); [rewrite map_err_ok, bind_of_ok | done]. cbv zeta.
  destruct (packed _); [rewrite map_err_ok, bind_of_ok | done].
  destruct (isa_append _ _); [rewrite map_err_ok, bind_of_ok | done]. by intros [= <- <-].
Qed.

Lemma finish_out x i kind taken s eff :
  ('(s, events) ← finalize x i; Ok (s, MkEffects kind i taken events)) = Ok (s, eff) →
  eff = MkEffects kind i taken (ex_events x) ∧ cpu s = cpu (ex_state x).
Proof.
  destruct (finalize x i) as [[s1 evs] |] eqn:E; [rewrite bind_of_ok | done].
  intros [= <- <-]. by apply finalize_out in E as [-> ->].
Qed.

(** The outcome of a body whose effect is known. *)
Lemma run_out {A} (m : M A) s input authentication (k : A → Executor → result StepError (VmState * StepEffects))
    Q (P : VmState → StepEffects → Prop) s' eff :
  Effects.eff m (cpu s) Q →
  (∀ a x, Q a (cpu (ex_state x)) (map access_of (ex_events x)) → k a x = Ok (s', eff) → P s' eff) →
  run m (executor_new s input authentication) k = Ok (s', eff) → P s' eff.
Proof.
  intros Hm Hk. unfold run. specialize (Hm (executor_new s input authentication) eq_refl).
  destruct (m _) as [[a x] |]; [| done]. destruct Hm as (evs & Hev & HQ). cbn in Hev. subst evs.
  by apply Hk.
Qed.

Lemma execute_instruction_out {Q s input authentication s' eff} :
  Effects.eff (instruction_body s) (cpu s) Q →
  execute_instruction s input authentication = Ok (s', eff) →
  can_execute_instruction (run_state (cpu s)) = true ∧ se_kind eff = SK.Instruction ∧
  Q (se_instruction eff, se_branch_taken eff) (cpu s') (map access_of (se_bus_events eff)).
Proof.
  intros Hbody. unfold execute_instruction. destruct (can_execute_instruction _); cbn [negb]; [| done].
  intros Hr. split; [done |].
  refine (run_out _ _ _ _ _ _ (λ s' eff, se_kind eff = SK.Instruction ∧
    Q (se_instruction eff, se_branch_taken eff) (cpu s') (map access_of (se_bus_events eff))) s' eff Hbody _ Hr).
  intros [i taken] x HQ Hk. unfold finish in Hk. apply finish_out in Hk as [-> Hc]. split; [done |]. rewrite Hc. exact HQ.
Qed.

Lemma finish_event_out kind opcode a x s eff :
  finish_event kind opcode a x = Ok (s, eff) →
  se_kind eff = kind ∧ se_bus_events eff = ex_events x ∧ cpu s = cpu (ex_state x).
Proof.
  unfold finish_event. destruct (machine_event_marker opcode); [rewrite bind_of_ok | done].
  intros Hk. by apply finish_out in Hk as [-> ?].
Qed.

Lemma run_event_kind {A} (m : M A) x (k : A → Executor → result StepError (VmState * StepEffects)) kind s' eff :
  (∀ a y, k a y = Ok (s', eff) → se_kind eff = kind) → run m x k = Ok (s', eff) → se_kind eff = kind.
Proof. intros Hk. unfold run. destruct (m x) as [[a y] |]; [apply Hk | done]. Qed.

Lemma event_kind_out {m : M ()} {x kind opcode s' eff} :
  run m x (finish_event kind opcode) = Ok (s', eff) → se_kind eff = kind.
Proof. apply run_event_kind. by intros a y (-> & _)%finish_event_out. Qed.

(** What an accepted instruction step did follows from the effect of its body. *)
Lemma apply_instruction_out {Q s input authentication s' eff} :
  Effects.eff (instruction_body s) (cpu s) Q →
  apply s input authentication = Ok (s', eff) → se_kind eff = SK.Instruction →
  can_execute_instruction (run_state (cpu s)) = true ∧
  Q (se_instruction eff, se_branch_taken eff) (cpu s') (map access_of (se_bus_events eff)).
Proof.
  unfold apply, dma_byte, dispatch_interrupt, halt_wake, halt_until_vblank, halt_until_serial,
    halt_until_timer, halt_idle. intros Hbody Ha Hk.
  assert (Hinstr : execute_instruction s input authentication = Ok (s', eff) →
    can_execute_instruction (run_state (cpu s)) = true ∧
    Q (se_instruction eff, se_branch_taken eff) (cpu s') (map access_of (se_bus_events eff))).
  { by intros (? & _ & ?)%(execute_instruction_out Hbody). }
  destruct (is_dmg_post_boot_mbc3 (profile s)); [| by apply Hinstr].
  destruct (negb _); [apply event_kind_out in Ha; congruence |].
  destruct (classify_dmg_machine_event s) as [event |]; [rewrite bind_of_ok in Ha | done].
  destruct event as [[] |]; [.. | by apply Hinstr]; apply event_kind_out in Ha; congruence.
Qed.

Lemma defined_not_transfer i :
  defined_instruction i → operation i ≠ Op.Load8 Opd.IndirectHl Opd.IndirectHl.
Proof.
  intros Hi. pose proof (defined_forall
    (λ i, negb (bool_decide (operation i = Op.Load8 Opd.IndirectHl Opd.IndirectHl))) ltac:(by vm_compute) i Hi)
    as E. cbv beta in E. by case_bool_decide.
Qed.

Lemma accepted_body s input authentication s' eff :
  vm_ok s → Forall witness_ok input → apply s input authentication = Ok (s', eff) →
  se_kind eff = SK.Instruction →
  can_execute_instruction (run_state (cpu s)) = true ∧ defined_instruction (se_instruction eff) ∧
  body_post s (cpu s) (se_instruction eff, se_branch_taken eff) (cpu s') (map access_of (se_bus_events eff)).
Proof.
  intros Hs Hin Ha Hk. pose proof (apply_spec s input authentication Hs Hin) as Hst. rewrite Ha in Hst.
  destruct (apply_instruction_out (instruction_body_effect s (cpu s)) Ha Hk) as [Hc Hp].
  split; [done |]. split; [apply Hst |]. apply Hp, defined_not_transfer, Hst.
Qed.

Lemma code_length i l : defined_instruction i → map shape l = code_shapes (bus i) → length l = Z.to_nat (byte_len i).
Proof.
  intros Hi El. apply (f_equal length) in El. rewrite length_map in El. rewrite El.
  unfold code_shapes. rewrite length_app, !length_replicate.
  pose proof (defined_forall (λ i, (byte_len i =? opcode_fetches (bus i) + immediate_reads (bus i)) &&
    (0 <=? opcode_fetches (bus i)) && (0 <=? immediate_reads (bus i))) ltac:(by vm_compute) i Hi) as E.
  cbv beta in E. lia.
Qed.

(** C5. An instruction's bus accesses are the ones its metadata declares. Every accepted instruction
    step performs, in this order and nothing else, the declared opcode fetches and immediate reads, then
    the declared data reads and data writes of its branch outcome. The code bytes are fetched at the
    program counter and the addresses after it (twice at the program counter after HALT's bug), and the
    opcode bytes among them decode to the instruction that was executed. *)
Theorem instruction_bus_conforms s input authentication s' eff :
  vm_ok s → Forall witness_ok input → apply s input authentication = Ok (s', eff) →
  se_kind eff = SK.Instruction →
  let i := se_instruction eff in
  let l := map access_of (se_bus_events eff) in
  let n := Z.to_nat (byte_len i) in
  map shape l = code_shapes (bus i) ++ data_shapes (bus i) (se_branch_taken eff) ∧
  map address (take n l) = fetch_addresses (bool_decide (run_state (cpu s) = Run.HaltBug)) n (pc (cpu s)) ∧
  dispatch (default 0 (map value (take n l) !! 0%nat)) (default 0 (map value (take n l) !! 1%nat)) = Some i.
Proof.
  intros Hs Hin Ha Hk i l n. destruct (accepted_body _ _ _ _ _ Hs Hin Ha Hk) as (_ & Hi & Hb).
  fold i l in Hb, Hi. cbn [fst snd] in Hb.
  destruct Hb as (c1 & l1 & c2 & l2 & m & (Hdec & Hdis & Hshape & Haddr & _) & (Hdata & _) & -> & _).
  cbn [fst snd] in *. pose proof (code_length i l1 Hi Hshape) as Hlen. fold n in Hlen.
  rewrite take_app_length' by done. rewrite map_app, Hshape, Hdata, Haddr, Hlen.
  split; [| done]. f_equal. symmetry. apply data_pattern. by apply decoded_pattern.
Qed.

Lemma always_writes i k :
  defined_instruction i → k = SC.Pc ∨ k = SC.Ime ∨ k = SC.MCycles → writes (state_access i) k = true.
Proof.
  intros Hi Hk. pose proof (defined_forall (λ i, writes (state_access i) SC.Pc &&
    (writes (state_access i) SC.Ime && writes (state_access i) SC.MCycles)) ltac:(by vm_compute) i Hi) as E.
  cbv beta in E. rewrite !andb_true_iff in E. by destruct E as (? & ? & ?), Hk as [-> | [-> | ->]].
Qed.

(** Finishing only touches IME, the cycle counter and the run state. *)
Lemma finished_component s i n c k :
  k ≠ SC.Ime → k ≠ SC.MCycles → k ≠ SC.RunState → component_value k (finished s i n c) = component_value k c.
Proof. unfold finished. destruct k; try done; by destruct (enables_ime _ _), (halt_bug_entry _ _). Qed.

(** C6. An instruction changes the CPU as its metadata declares. No register outside the declared
    write set changes (the run state apart, which HALT's bug also clears); the flags follow the declared
    action of each bit; when no branch is taken the program counter moves over the instruction's bytes
    (one less after HALT's bug); IME becomes enabled one instruction after EI unless that is DI, and
    otherwise changes only by DI, EI and RETI; and HALT and STOP, only they, stop the CPU, HALT with a
    pending interrupt and IME off entering the double-fetch state instead. *)
Theorem instruction_state_conforms s input authentication s' eff :
  vm_ok s → Forall witness_ok input → apply s input authentication = Ok (s', eff) →
  se_kind eff = SK.Instruction →
  let i := se_instruction eff in
  let c := cpu s in
  let c' := cpu s' in
  (∀ k, k ≠ SC.RunState → writes (state_access i) k = false → component_value k c' = component_value k c) ∧
  flags_conform (flags_effect i) (flags c) (flags c') ∧
  (se_branch_taken eff = false →
     pc c' = w16 (pc c + byte_len i - (if decide (run_state c = Run.HaltBug) then 1 else 0))) ∧
  ime c' = (if enables_ime s (operation i) then Ime.Enabled else ime_after (operation i) (ime c)) ∧
  run_state c' = (if halt_bug_entry s (operation i) then Run.HaltBug else run_after (operation i) Run.Running).
Proof.
  intros Hs Hin Ha Hk i c c'. destruct (accepted_body _ _ _ _ _ Hs Hin Ha Hk) as (Hrun & Hi & Hb).
  fold i c c' in Hb, Hi, Hrun.
  destruct Hb as (c1 & l1 & c2 & l2 & m & (Hdec & _ & Hshape & _ & Hc1) & (_ & (Hpc & Hime & Hrs) & Hframe & Hflags) & _ & Hc').
  cbn [fst snd] in *. pose proof (code_length i l1 Hi Hshape) as Hlen.
  destruct (decoded_pattern i Hdec) as (_ & Hfe & Hsa & _). pose proof (defined_bytes i Hi) as [_ Hbytes].
  fold c in Hc1.
  assert (Hrun1 : run_state c1 = Run.Running ∧ flags c1 = flags c ∧ ime c1 = ime c ∧
    pc c1 = w16 (pc c + byte_len i - (if decide (run_state c = Run.HaltBug) then 1 else 0)) ∧
    ∀ k, k ≠ SC.RunState → k ≠ SC.Pc → component_value k c1 = component_value k c).
  { pose proof (advanced_eq (length l1) (pc c) (ok_pc _ (ok_cpu _ Hs))) as Ea.
    pose proof (advanced_eq (length l1 - 1) (pc c) (ok_pc _ (ok_cpu _ Hs))) as Ea1.
    rewrite Hlen in *. subst c1. destruct (decide (run_state c = Run.HaltBug)) as [Hb | Hb].
    - rewrite bool_decide_eq_true_2 by done. cbn [pc set_pc]. rewrite Ea1.
      split_and!; try done; [cbn; f_equal; lia | by intros []].
    - rewrite bool_decide_eq_false_2 by done. rewrite Nat.sub_0_r, Ea.
      assert (Hr : run_state c = Run.Running) by (revert Hb Hrun; by destruct (run_state c)).
      split_and!; try done; [cbn; f_equal; lia | by intros []]. }
  destruct Hrun1 as (Hrun1 & Hf1 & Hi1 & Hpc1 & Hc1c).
  assert (Hfin : flags c' = flags c2 ∧ pc c' = pc c2 ∧
    ime c' = (if enables_ime s (operation i) then Ime.Enabled else ime c2) ∧
    run_state c' = (if halt_bug_entry s (operation i) then Run.HaltBug else run_state c2)).
  { rewrite Hc'. unfold finished. by destruct (enables_ime _ _), (halt_bug_entry _ _). }
  destruct Hfin as (-> & -> & -> & ->). split_and!.
  - intros k Hk1 Hw. rewrite Hc'.
    assert (Hne : k ≠ SC.Pc ∧ k ≠ SC.Ime ∧ k ≠ SC.MCycles).
    { split_and!; intros ->; by rewrite always_writes in Hw by auto. }
    rewrite finished_component by tauto. rewrite Hframe by (by rewrite <- Hsa). apply Hc1c; tauto.
  - by rewrite Hfe, <- Hf1.
  - intros Ht. by rewrite Hpc.
  - by rewrite Hime, Hi1.
  - by rewrite Hrs, Hrun1.
Qed.

(** ** Machine events *)

Definition interrupt_cpu (i : DmgInterrupt) (c : CpuState) : CpuState :=
  set_m_cycles (m_cycles c + 5) (set_pc (interrupt_vector i) (set_sp (w16 (w16 (sp c - 1) - 1))
    (set_ime Ime.Disabled (set_run_state Run.Running c)))).
Definition interrupt_accesses (c : CpuState) : list bus_access :=
  [(Shape.DataWrite, w16 (sp c - 1), hi8 (pc c)); (Shape.DataWrite, w16 (w16 (sp c - 1) - 1), lo8 (pc c))].

Lemma interrupt_body_effect i c :
  eff (interrupt_body i) c (λ _ c' l, c' = interrupt_cpu i c ∧ l = interrupt_accesses c).
Proof.
  unfold interrupt_body, push_interrupt_return, add_machine_timing, add_cycles.
  do 6 eff_step. repeat (first [eff_step | apply eff_state; intros ? ?]).
  match goal with E : ok_or (checked_add_u64 _ _) _ = Ok _ |- _ => revert E end.
  unfold checked_add_u64. case_match; [| done]. intros [= <-]. done.
Qed.

(** The machine state that selects the dispatch of [i]. *)
Definition dispatches (s : VmState) (i : DmgInterrupt) : Prop :=
  is_dmg_post_boot_mbc3 (profile s) = true ∧ dma_owed (dmg_devices s) = 0 ∧
  run_state (cpu s) ≠ Run.Stopped ∧ ime (cpu s) = Ime.Enabled ∧ pending_interrupt (dmg_devices s) = Some i.

Lemma classify_interrupt s i :
  classify_dmg_machine_event s = Ok (Some (Machine.Interrupt i)) ↔
  run_state (cpu s) ≠ Run.Stopped ∧ ime (cpu s) = Ime.Enabled ∧ pending_interrupt (dmg_devices s) = Some i.
Proof.
  unfold classify_dmg_machine_event. split.
  - destruct (run_state (cpu s)), (pending_interrupt (dmg_devices s));
      cbn [fmap option_fmap option_map]; cbv zeta; repeat case_match; intros [=]; by subst.
  - intros (Hr & Hi & ->). destruct (run_state (cpu s)); try done; by rewrite decide_True.
Qed.

Lemma execute_instruction_kind s input authentication s' eff :
  execute_instruction s input authentication = Ok (s', eff) → se_kind eff = SK.Instruction.
Proof. by intros (_ & ? & _)%(execute_instruction_out (instruction_body_effect s (cpu s))). Qed.

(** C9. Interrupts. An accepted step is the dispatch of interrupt [i] exactly when the DMG machine
    owes no DMA byte, is not stopped, has IME enabled and [i] is the pending interrupt of highest
    priority, whether it was running or halted. The dispatch takes five M-cycles, writes the return
    address to the two bytes below SP, high byte first, and leaves the CPU running at the vector of [i]
    with IME off, SP moved by two and every other register unchanged. *)
Theorem interrupt_dispatch_exact s input authentication s' eff i :
  apply s input authentication = Ok (s', eff) →
  (se_kind eff = SK.InterruptDispatch i ↔ dispatches s i) ∧
  (dispatches s i → cpu s' = interrupt_cpu i (cpu s) ∧
     map access_of (se_bus_events eff) = interrupt_accesses (cpu s)).
Proof.
  intros Ha. unfold dispatches.
  assert (Hdis : ∀ j, is_dmg_post_boot_mbc3 (profile s) = true → dma_owed (dmg_devices s) = 0 →
    classify_dmg_machine_event s = Ok (Some (Machine.Interrupt j)) →
    se_kind eff = SK.InterruptDispatch j ∧ cpu s' = interrupt_cpu j (cpu s) ∧
    map access_of (se_bus_events eff) = interrupt_accesses (cpu s)).
  { intros j Hp Ho Hc. unfold apply in Ha. rewrite Hp, Ho, Hc in Ha. cbn [negb Z.eqb] in Ha.
    rewrite bind_of_ok in Ha. refine (run_out _ _ _ _ _ _ (λ s' eff, se_kind eff = _ ∧ cpu s' = _ ∧
      map access_of (se_bus_events eff) = _) s' eff (interrupt_body_effect j (cpu s)) _ Ha).
    by intros a x [Hcpu Hev] (-> & -> & ->)%finish_event_out. }
  split.
  - split.
    + intros Hk. unfold apply, dma_byte, dispatch_interrupt, halt_wake, halt_until_vblank,
        halt_until_serial, halt_until_timer, halt_idle in Ha.
      destruct (is_dmg_post_boot_mbc3 (profile s)) eqn:Hp; [| apply execute_instruction_kind in Ha; congruence].
      destruct (Z.eqb_spec (dma_owed (dmg_devices s)) 0) as [Ho | Ho]; cbn [negb] in Ha;
        [| apply event_kind_out in Ha; congruence].
      destruct (classify_dmg_machine_event s) as [event |] eqn:Hc; [rewrite bind_of_ok in Ha | done].
      destruct event as [[j | | | | |] |]; try (apply event_kind_out in Ha; congruence);
        [| apply execute_instruction_kind in Ha; congruence].
      apply event_kind_out in Ha. rewrite Ha in Hk. injection Hk as ->.
      split; [done |]. split; [done |]. by apply classify_interrupt.
    + intros (Hp & Ho & Hc%classify_interrupt). by apply Hdis.
  - intros (Hp & Ho & Hc%classify_interrupt). by apply Hdis.
Qed.

(** ** HALT *)

(** The batches of M-cycles a halted machine waits in one step. *)
Definition waits (k : StepKind) : bool :=
  match k with SK.HaltIdle | SK.HaltUntilVBlank | SK.HaltUntilSerial | SK.HaltUntilTimer => true | _ => false end.
Definition awaited (k : StepKind) : option DmgInterrupt :=
  match k with
  | SK.HaltUntilVBlank => Some Int.VBlank
  | SK.HaltUntilSerial => Some Int.Serial
  | SK.HaltUntilTimer => Some Int.Timer
  | _ => None
  end.

Lemma finalize_devices x i s evs :
  finalize x i = Ok (s, evs) → ex_witnesses x = [] ∧ dmg_devices s = dmg_devices (ex_state x).
Proof.
  unfold finalize. destruct (ex_witnesses x); [| done]. cbn [length Z.of_nat Z.eqb negb].
  destruct (decide _); [| by intros [= <- <-]].
  destruct (bus_append_all _ _); [rewrite map_err_ok, bind_of_ok | done]. cbv zeta.
  destruct (packed _); [rewrite map_err_ok, bind_of_ok | done].
  destruct (isa_append _ _); [rewrite map_err_ok, bind_of_ok | done]. by intros [= <- <-].
Qed.

(** What a batch of [k] M-cycles without bus traffic leaves. *)
Record waited (s : VmState) (input : list BusWitness) (kind : StepKind) (k : Z)
    (f : DmgDeviceState → DmgDeviceState) (s' : VmState) (eff : StepEffects) : Prop := {
  wt_input : input = [];
  wt_kind : se_kind eff = kind;
  wt_events : se_bus_events eff = [];
  wt_cpu : cpu s' = set_m_cycles (m_cycles (cpu s) + k) (cpu s);
  wt_devices : dmg_devices s' = f (dmg_devices s)
}.

Lemma wait_out (m : M ()) s input authentication kind opcode k f s' eff :
  (∀ x, m x = match checked_add_u64 (m_cycles (cpu (ex_state x))) k with
     | Some n => Ok ((), x <| ex_state := (ex_state x) <| cpu := set_m_cycles n (cpu (ex_state x)) |>
                                            <| dmg_devices := f (dmg_devices (ex_state x)) |> |>)
     | None => Err SErr.CycleCountOverflow
     end) →
  run m (executor_new s input authentication) (finish_event kind opcode) = Ok (s', eff) →
  waited s input kind k f s' eff.
Proof.
  intros Hm. unfold run. rewrite Hm. cbn [ex_state executor_new]. unfold checked_add_u64.
  destruct (_ <? _); [| done]. intros Hf. pose proof (finish_event_out _ _ _ _ _ _ Hf) as (? & Hev & Hcpu).
  unfold finish_event in Hf. destruct (machine_event_marker opcode) as [i |]; [rewrite bind_of_ok in Hf | done].
  unfold finish_machine in Hf. destruct (finalize _ i) as [[s1 evs] |] eqn:E; [rewrite bind_of_ok in Hf | done].
  injection Hf as -> <-. apply finalize_devices in E as [Hw Hd]. by split.
Qed.

Lemma skip_out s input authentication kind opcode k f s' eff :
  run (_ ← add_cycles k; modify_devices f) (executor_new s input authentication) (finish_event kind opcode) =
    Ok (s', eff) → waited s input kind k f s' eff.
Proof.
  apply wait_out. intros x. unfold add_cycles, mbind, M_bind, get_cpu, lift, checked_add_u64.
  cbv beta iota zeta. by destruct (_ <? _).
Qed.

Lemma idle_out s input authentication kind opcode k s' eff :
  run (add_machine_timing k) (executor_new s input authentication) (finish_event kind opcode) = Ok (s', eff) →
  waited s input kind k (λ d, schedule_dma_bytes (advance_m_cycles d k) k (dma_active d)) s' eff.
Proof.
  apply wait_out. intros x.
  unfold add_machine_timing, add_cycles, mbind, M_bind, get_cpu, lift, checked_add_u64, state.
  cbv beta iota zeta. by destruct (_ <? _).
Qed.

Lemma apply_wait_out s input authentication s' eff :
  apply s input authentication = Ok (s', eff) → waits (se_kind eff) = true →
  let d := dmg_devices s in
  ∃ event f, event_condition s event ∧ waited s input (se_kind eff) (step_cycles s eff) f s' eff ∧
    match event with
    | Machine.HaltUntilVBlank n => se_kind eff = SK.HaltUntilVBlank ∧ n = step_cycles s eff ∧ f = λ d, advance_halt_until_vblank d n
    | Machine.HaltUntilSerial n => se_kind eff = SK.HaltUntilSerial ∧ n = step_cycles s eff ∧ f = λ d, advance_halt_until_serial d n
    | Machine.HaltUntilTimer n => se_kind eff = SK.HaltUntilTimer ∧ n = step_cycles s eff ∧ f = λ d, advance_halt_until_timer d n
    | Machine.HaltIdle => se_kind eff = SK.HaltIdle ∧
        f = λ d, schedule_dma_bytes (advance_m_cycles d (step_cycles s eff)) (step_cycles s eff) (dma_active d)
    | _ => False
    end.
Proof.
  intros Ha Hk d. unfold apply, dma_byte, dispatch_interrupt, halt_wake, halt_until_vblank,
    halt_until_serial, halt_until_timer, halt_idle in Ha.
  destruct (is_dmg_post_boot_mbc3 (profile s));
    [| apply execute_instruction_kind in Ha; by rewrite Ha in Hk].
  destruct (negb _); [apply event_kind_out in Ha; by rewrite Ha in Hk |].
  destruct (classify_dmg_machine_event s) as [event |] eqn:Hc; [rewrite bind_of_ok in Ha | done].
  destruct event as [event |]; [| apply execute_instruction_kind in Ha; by rewrite Ha in Hk].
  apply classify_some in Hc. exists event.
  destruct event as [j | | n | n | n |]; try (apply event_kind_out in Ha; by rewrite Ha in Hk);
    [apply skip_out in Ha | apply skip_out in Ha | apply skip_out in Ha | apply idle_out in Ha];
    eexists; (split; [exact Hc |]); pose proof (wt_kind _ _ _ _ _ _ _ Ha) as E; unfold step_cycles; rewrite E;
    cbn in Hc; destruct_and?; repeat match goal with Hh : _ = Some n |- _ => rewrite Hh end; cbn [default id];
    (split; [exact Ha | auto]).
Qed.

(** C10. Waiting in HALT is exact and stops at the first interrupt. A step in which the halted DMG machine
    waits consumes no witness, touches no bus and changes nothing in the CPU but the cycle counter; the
    devices are those of as many single M-cycles (and owe the DMA bytes of that time); no interrupt is
    pending at the start or after fewer M-cycles. After a long skip the awaited interrupt is the one
    pending, and an idle batch shorter than six M-cycles ended because an interrupt came up. *)
Theorem halt_wait_exact s input authentication s' eff :
  vm_ok s → apply s input authentication = Ok (s', eff) → waits (se_kind eff) = true →
  let d := dmg_devices s in
  let k := step_cycles s eff in
  let clocked := Nat.iter (Z.to_nat k) m_cycle d in
  run_state (cpu s) = Run.Halted ∧ input = [] ∧ se_bus_events eff = [] ∧ 1 <= k ∧
  cpu s' = set_m_cycles (m_cycles (cpu s) + k) (cpu s) ∧
  dmg_devices s' = match se_kind eff with
                    | SK.HaltIdle => schedule_dma_bytes clocked k (dma_active d) | _ => clocked end ∧
  (∀ j, (j < Z.to_nat k)%nat → pending_interrupt (Nat.iter j m_cycle d) = None) ∧
  (∀ i, awaited (se_kind eff) = Some i → pending_interrupt clocked = Some i) ∧
  (se_kind eff = SK.HaltIdle → k < 6 → is_Some (pending_interrupt clocked)).
Proof.
  intros Hs Ha Hk d k clocked. pose proof (ok_devices _ Hs) as Hd. fold d in Hd.
  destruct (apply_wait_out _ _ _ _ _ Ha Hk) as (event & f & Hc & [Hin _ Hev Hcpu Hdev] & He).
  fold d k in Hc, Hcpu, Hdev, He.
  assert (Hf : f d = match se_kind eff with
      | SK.HaltIdle => schedule_dma_bytes clocked k (dma_active d) | _ => clocked end ∧ run_state (cpu s) = Run.Halted ∧ 1 <= k ∧
    (∀ j, (j < Z.to_nat k)%nat → pending_interrupt (Nat.iter j m_cycle d) = None) ∧
    (∀ i, awaited (se_kind eff) = Some i → pending_interrupt clocked = Some i) ∧
    (se_kind eff = SK.HaltIdle → k < 6 → is_Some (pending_interrupt clocked))).
  2: { rewrite Hdev. destruct Hf as (-> & ? & ? & ? & ? & ?). by split_and!. }
  clear Hdev Hcpu Ha. destruct event; try done; cbn in Hc.
  - destruct He as (Hkind & -> & ->), Hc as (? & ? & Hc). rewrite Hkind. destruct_and?.
    destruct (halt_until_vblank_exact d k Hd ltac:(done)) as [(? & E & ? & Hend) _]. fold clocked in E. rewrite E in Hend.
    split_and!; try done; [lia | by intros ? [= <-]].
  - destruct He as (Hkind & -> & ->), Hc as (? & ? & Hc). rewrite Hkind. destruct_and?.
    destruct (halt_until_serial_exact d k Hd ltac:(done)) as (? & E & ? & Hend). fold clocked in E. rewrite E in Hend.
    split_and!; try done; [lia | by intros ? [= <-]].
  - destruct He as (Hkind & -> & ->), Hc as (? & ? & Hc). rewrite Hkind. destruct_and?.
    destruct (halt_until_timer_exact d k Hd ltac:(done)) as (? & E & ? & Hend). fold clocked in E. rewrite E in Hend.
    split_and!; try done; [lia | by intros ? [= <-]].
  - destruct He as (Hkind & ->), Hc as (? & ? & Hc). rewrite Hkind.
    assert (Ek : k = halt_idle_m_cycles d) by (unfold k, step_cycles; by rewrite Hkind).
    destruct (idle_first_pending d) as (Hk1 & Hquiet & Hend). rewrite <- Ek in *.
    rewrite advance_m_cycles_iter by (done || lia).
    split; [done |]. split; [done |]. split; [lia |]. split; [| split; [done | auto]].
    intros [| j] Hj; [done |]. specialize (Hquiet (Z.of_nat (S j)) ltac:(lia)). by rewrite Nat2Z.id in Hquiet.
Qed.
End conform.

(** ** Witnesses *)

Section witnesses.
#[local] Existing Instance const_sha256.

Definition demo_load : list BusWitness := [demo_rom 0 0x3e; demo_rom 1 7].
Lemma demo_load_ok : Forall witness_ok demo_load.
Proof. pose proof demo_inputs_ok as Hin. by apply Forall_cons in Hin as [Hin _]. Qed.

Lemma demo_load_step :
  ∃ s' eff, apply demo_start demo_load Auth.Merkle = Ok (s', eff) ∧ se_kind eff = SK.Instruction.
Proof.
  destruct (apply demo_start demo_load Auth.Merkle) as [[s' eff] |] eqn:E; [| by vm_compute in E].
  exists s', eff. split; [done |]. by vm_compute in E; injection E as _ <-.
Qed.

Lemma instruction_bus_conforms_witness :
  ∃ s' eff, apply demo_start demo_load Auth.Merkle = Ok (s', eff) ∧
    let i := se_instruction eff in
    let l := map access_of (se_bus_events eff) in
    let n := Z.to_nat (byte_len i) in
    map shape l = code_shapes (bus i) ++ data_shapes (bus i) (se_branch_taken eff) ∧
    map address (take n l) =
      fetch_addresses (bool_decide (run_state (cpu demo_start) = Run.HaltBug)) n (pc (cpu demo_start)) ∧
    dispatch (default 0 (map value (take n l) !! 0%nat)) (default 0 (map value (take n l) !! 1%nat)) = Some i.
Proof.
  destruct demo_load_step as (s' & eff & Ha & Hk). exists s', eff. split; [exact Ha |].
  exact (instruction_bus_conforms demo_start demo_load Auth.Merkle s' eff demo_start_ok demo_load_ok Ha Hk).
Defined.

Lemma instruction_state_conforms_witness :
  ∃ s' eff, apply demo_start demo_load Auth.Merkle = Ok (s', eff) ∧
    let i := se_instruction eff in
    let c := cpu demo_start in
    let c' := cpu s' in
    (∀ k, k ≠ SC.RunState → writes (state_access i) k = false → component_value k c' = component_value k c) ∧
    flags_conform (flags_effect i) (flags c) (flags c') ∧
    (se_branch_taken eff = false →
       pc c' = w16 (pc c + byte_len i - (if decide (run_state c = Run.HaltBug) then 1 else 0))) ∧
    ime c' = (if enables_ime demo_start (operation i) then Ime.Enabled else ime_after (operation i) (ime c)) ∧
    run_state c' =
      (if halt_bug_entry demo_start (operation i) then Run.HaltBug else run_after (operation i) Run.Running).
Proof.
  destruct demo_load_step as (s' & eff & Ha & Hk). exists s', eff. split; [exact Ha |].
  exact (instruction_state_conforms demo_start demo_load Auth.Merkle s' eff demo_start_ok demo_load_ok Ha Hk).
Defined.

Definition demo_dmg (r : RunState) (i : ImeState) (d : DmgDeviceState) : VmState :=
  let s := Vm.dmg_post_boot_mbc3_initial (replicate 32 0) (replicate 32 0) in
  s <| cpu := set_run_state r (set_ime i (cpu s)) |> <| dmg_devices := d |>.
Definition demo_write (address value : Z) : BusWitness :=
  Wit.MemoryWrite (MkMemoryWrite address address 0 value lookup_placeholder).

Lemma interrupt_dispatch_exact_witness :
  let s := demo_dmg Run.Halted Ime.Enabled (dmg_post_boot <| interrupt_request := 4 |> <| interrupt_enable := 4 |>) in
  ∃ s' eff, apply s [demo_write 0xfffd 0x01; demo_write 0xfffc 0x00] Auth.Merkle = Ok (s', eff) ∧
    (se_kind eff = SK.InterruptDispatch Int.Timer ↔ dispatches s Int.Timer) ∧
    (dispatches s Int.Timer → cpu s' = interrupt_cpu Int.Timer (cpu s) ∧
       map access_of (se_bus_events eff) = interrupt_accesses (cpu s)).
Proof.
  cbv zeta. destruct (apply _ _ _) as [[s' eff] |] eqn:E; [| by vm_compute in E].
  exists s', eff. split; [reflexivity |]. exact (interrupt_dispatch_exact _ _ _ s' eff Int.Timer E).
Defined.

Definition demo_timer : DmgDeviceState :=
  dmg_post_boot <| interrupt_request := 0 |> <| interrupt_enable := 4 |> <| lcd_control := 0 |>
    <| timer := MkTimer 0 255 0x42 5 false 0 |>.
Lemma demo_timer_ok : device_ok demo_timer.
Proof. destruct device_post_boot_ok. split; cbn; auto; try lia. split; cbn; lia. Qed.
Lemma demo_halted_ok : vm_ok (demo_dmg Run.Halted Ime.Disabled demo_timer).
Proof.
  destruct (post_boot_vm_ok Profile.DmgPostBootMbc3V1 (replicate 32 0) (replicate 32 0)).
  split; try assumption; [by destruct ok_cpu | apply demo_timer_ok].
Qed.

Lemma halt_wait_exact_witness :
  let s := demo_dmg Run.Halted Ime.Disabled demo_timer in
  ∃ s' eff, apply s [] Auth.Merkle = Ok (s', eff) ∧ se_kind eff = SK.HaltUntilTimer ∧
  let d := dmg_devices s in
  let k := step_cycles s eff in
  let clocked := Nat.iter (Z.to_nat k) m_cycle d in
  run_state (cpu s) = Run.Halted ∧ @nil BusWitness = [] ∧ se_bus_events eff = [] ∧ 1 <= k ∧
  cpu s' = set_m_cycles (m_cycles (cpu s) + k) (cpu s) ∧
  dmg_devices s' = match se_kind eff with
                    | SK.HaltIdle => schedule_dma_bytes clocked k (dma_active d) | _ => clocked end ∧
  (∀ j, (j < Z.to_nat k)%nat → pending_interrupt (Nat.iter j m_cycle d) = None) ∧
  (∀ i, awaited (se_kind eff) = Some i → pending_interrupt clocked = Some i) ∧
  (se_kind eff = SK.HaltIdle → k < 6 → is_Some (pending_interrupt clocked)).
Proof.
  intros s. destruct (apply s [] Auth.Merkle) as [[s' eff] |] eqn:E; [| by vm_compute in E].
  assert (Hk : se_kind eff = SK.HaltUntilTimer) by (by vm_compute in E; injection E as _ <-).
  exists s', eff. split; [exact eq_refl |]. split; [exact Hk |].
  refine (halt_wait_exact s [] Auth.Merkle s' eff demo_halted_ok E _). by rewrite Hk.
Defined.
End witnesses.
