(* ===== verification/Trace.v ===== *)
(** * Trace rows, chunks and witnesses (crates/zksm83-trace/src/model.rs)

    The validated containers of an execution, the execution metrics and the program-counter profile.
    A [TraceChunk] is its list of rows, built only by [chunk_new]. *)
From stdpp Require Import sorting.
From S2P Require Import Prelude Commitment Merkle Logs Mbc3 Timer Apu Device State Bus Transition Access StepLogic StepTrace Step Runs.

Global Instance registers_eq_dec : EqDecision Registers.
Proof. solve_decision. Defined.
Global Instance timer_state_eq_dec : EqDecision DmgTimerState.
Proof. solve_decision. Defined.
Global Instance apu_state_eq_dec : EqDecision DmgApuState.
Proof. solve_decision. Defined.
Global Instance device_state_eq_dec : EqDecision DmgDeviceState.
Proof. solve_decision. Defined.
Global Instance cpu_state_eq_dec : EqDecision CpuState.
Proof. solve_decision. Defined.
Global Instance log_eq_dec : EqDecision LogAccumulator.
Proof. solve_decision. Defined.
Global Instance bus_transcript_eq_dec : EqDecision BusTranscriptAccumulator.
Proof. solve_decision. Defined.
Global Instance isa_transcript_eq_dec : EqDecision IsaTranscriptAccumulator.
Proof. solve_decision. Defined.
Global Instance vm_state_eq_dec : EqDecision VmState.
Proof. solve_decision. Defined.

Record TraceRow := MkRow { row_before : VmState; row_after : VmState; row_effects : StepEffects }.

Module TraceErr.
Inductive TraceError :=
| Step (e : StepError)
| EmptyChunk
| DiscontinuousRow (index : Z)
| ChunkShapeInvariant
| EmptyWitness
| DiscontinuousChunk (index : Z)
| WitnessShapeInvariant
| StepCountOverflow
| MetricOverflow
| CycleRegression.
End TraceErr.
Abbreviation TraceError := TraceErr.TraceError.

(** ** Rows *)

(** [TraceRow::execute] *)
Definition row_execute `{Sha256} (before : VmState) (input : list BusWitness) : result TraceError TraceRow :=
  '(after, effects) ← map_err TraceErr.Step (step_relation_apply before input);
  Ok (MkRow before after effects).

(** ** Chunks *)

Record TraceChunk := MkChunk { chunk_rows : list TraceRow }.

(** The loop over [rows.windows(2).enumerate()]; a window has exactly its two rows. *)
Fixpoint check_rows (index : Z) (rows : list TraceRow) : result TraceError () :=
  match rows with
  | before :: (after :: _) as rest =>
      if negb (bool_decide (row_after before = row_before after)) then
        Err (TraceErr.DiscontinuousRow index)
      else check_rows (index + 1) rest
  | _ => Ok ()
  end.

Definition chunk_new (rows : list TraceRow) : result TraceError TraceChunk :=
  match rows with
  | [] => Err TraceErr.EmptyChunk
  | _ => _ ← check_rows 0 rows; Ok (MkChunk rows)
  end.

Definition chunk_initial_state (c : TraceChunk) : result TraceError VmState :=
  ok_or (row_before <$> head (chunk_rows c)) TraceErr.EmptyChunk.
Definition chunk_final_state (c : TraceChunk) : result TraceError VmState :=
  ok_or (row_after <$> last (chunk_rows c)) TraceErr.EmptyChunk.
Definition chunk_len (c : TraceChunk) : Z := Z.of_nat (length (chunk_rows c)).

(** ** Witnesses *)

Record Witness := MkWitness {
  w_chunks : list TraceChunk; w_initial_state : VmState; w_final_state : VmState; w_step_count : Z
}.

Fixpoint check_chunks (index : Z) (chunks : list TraceChunk) : result TraceError () :=
  match chunks with
  | before :: (after :: _) as rest =>
      final ← chunk_final_state before;
      initial ← chunk_initial_state after;
      if negb (bool_decide (final = initial)) then Err (TraceErr.DiscontinuousChunk index)
      else check_chunks (index + 1) rest
  | _ => Ok ()
  end.

(** The checked fold of the chunk lengths; a length always fits u64. *)
Fixpoint count_steps (total : Z) (chunks : list TraceChunk) : result TraceError Z :=
  match chunks with
  | [] => Ok total
  | chunk :: chunks =>
      total ← ok_or (checked_add_u64 total (chunk_len chunk)) TraceErr.StepCountOverflow;
      count_steps total chunks
  end.

Definition witness_new (chunks : list TraceChunk) : result TraceError Witness :=
  first ← ok_or (head chunks) TraceErr.EmptyWitness;
  final ← ok_or (last chunks) TraceErr.EmptyWitness;
  _ ← check_chunks 0 chunks;
  step_count ← count_steps 0 chunks;
  initial_state ← chunk_initial_state first;
  final_state ← chunk_final_state final;
  Ok (MkWitness chunks initial_state final_state step_count).

Definition from_rows (rows : list TraceRow) : result TraceError Witness :=
  chunk ← chunk_new rows; witness_new [chunk].

(** [Witness::rows] and [Witness::into_rows] *)
Definition witness_rows (w : Witness) : list TraceRow := w_chunks w ≫= chunk_rows.

(** ** Metrics *)

Record ExecutionMetrics := MkMetrics {
  relation_steps : Z; instructions : Z;
  halt_idle_steps : Z; halt_idle_m_cycles : Z;
  halt_until_vblank_steps : Z; halt_until_vblank_m_cycles : Z;
  halt_until_serial_steps : Z; halt_until_serial_m_cycles : Z;
  halt_until_timer_steps : Z; halt_until_timer_m_cycles : Z;
  halt_wake_steps : Z; interrupt_dispatches : Z; dma_byte_steps : Z;
  bus_events : Z; rom_reads : Z; memory_reads : Z; memory_writes : Z;
  input_events : Z; output_events : Z; isa_rows : Z;
  joypad_samples : Z; battery_sram_writes : Z; dma_starts : Z
}.

Global Instance eta_metrics : Eta ExecutionMetrics := λ m,
  MkMetrics (relation_steps m) (instructions m) (halt_idle_steps m) (halt_idle_m_cycles m)
    (halt_until_vblank_steps m) (halt_until_vblank_m_cycles m) (halt_until_serial_steps m)
    (halt_until_serial_m_cycles m) (halt_until_timer_steps m) (halt_until_timer_m_cycles m)
    (halt_wake_steps m) (interrupt_dispatches m) (dma_byte_steps m) (bus_events m) (rom_reads m)
    (memory_reads m) (memory_writes m) (input_events m) (output_events m) (isa_rows m)
    (joypad_samples m) (battery_sram_writes m) (dma_starts m).

Definition metrics_default : ExecutionMetrics :=
  MkMetrics 0 0 0 0 0 0 0 0 0 0 0 0 0 0 0 0 0 0 0 0 0 0 0.

Definition increment (value : Z) : result TraceError Z :=
  ok_or (checked_add_u64 value 1) TraceErr.MetricOverflow.

(** The elapsed M-cycles of a HALT row added to its counter. *)
Definition add_elapsed (row : TraceRow) (total : Z) : result TraceError Z :=
  let before := m_cycles (cpu (row_before row)) in
  let after := m_cycles (cpu (row_after row)) in
  elapsed ← ok_or (if before <=? after then Some (after - before) else None) TraceErr.CycleRegression;
  ok_or (checked_add_u64 total elapsed) TraceErr.MetricOverflow.

Definition record_bus_event (m : ExecutionMetrics) (e : BusEvent) : result TraceError ExecutionMetrics :=
  n ← increment (bus_events m);
  let m := m <| bus_events := n |> in
  m ← match e with
      | Ev.OpcodeFetch _ | Ev.ImmediateRead _ | Ev.RomRead _ | Ev.DmgDmaRomRead _ =>
          n ← increment (rom_reads m); Ok (m <| rom_reads := n |>)
      | Ev.MemoryOpcodeFetch _ | Ev.MemoryImmediateRead _ | Ev.MemoryRead _ | Ev.DmgDmaMemoryRead _ =>
          n ← increment (memory_reads m); Ok (m <| memory_reads := n |>)
      | Ev.MemoryWrite _ | Ev.DmgDmaWrite _ =>
          n ← increment (memory_writes m); Ok (m <| memory_writes := n |>)
      | Ev.InputRead _ _ | Ev.DmgJoypadRead _ _ _ _ =>
          n ← increment (input_events m); Ok (m <| input_events := n |>)
      | Ev.OutputWrite _ _ => n ← increment (output_events m); Ok (m <| output_events := n |>)
      | _ => Ok m
      end;
  match e with
  | Ev.DmgJoypadRead _ _ _ _ => n ← increment (joypad_samples m); Ok (m <| joypad_samples := n |>)
  | Ev.MemoryWrite write =>
      if in_range 0x10000 0x17fff (mw_physical_address write) then
        n ← increment (battery_sram_writes m); Ok (m <| battery_sram_writes := n |>)
      else Ok m
  | Ev.DmgMmioWrite address _ _ =>
      if address =? 0xff46 then n ← increment (dma_starts m); Ok (m <| dma_starts := n |>) else Ok m
  | _ => Ok m
  end.

Fixpoint record_bus_events (m : ExecutionMetrics) (events : list BusEvent) :
    result TraceError ExecutionMetrics :=
  match events with
  | [] => Ok m
  | e :: events => m ← record_bus_event m e; record_bus_events m events
  end.

Definition record_kind (m : ExecutionMetrics) (row : TraceRow) : result TraceError ExecutionMetrics :=
  match se_kind (row_effects row) with
  | SK.Instruction => n ← increment (instructions m); Ok (m <| instructions := n |>)
  | SK.HaltIdle =>
      n ← increment (halt_idle_steps m);
      t ← add_elapsed row (halt_idle_m_cycles m);
      Ok (m <| halt_idle_steps := n |> <| halt_idle_m_cycles := t |>)
  | SK.HaltUntilVBlank =>
      n ← increment (halt_until_vblank_steps m);
      t ← add_elapsed row (halt_until_vblank_m_cycles m);
      Ok (m <| halt_until_vblank_steps := n |> <| halt_until_vblank_m_cycles := t |>)
  | SK.HaltUntilSerial =>
      n ← increment (halt_until_serial_steps m);
      t ← add_elapsed row (halt_until_serial_m_cycles m);
      Ok (m <| halt_until_serial_steps := n |> <| halt_until_serial_m_cycles := t |>)
  | SK.HaltUntilTimer =>
      n ← increment (halt_until_timer_steps m);
      t ← add_elapsed row (halt_until_timer_m_cycles m);
      Ok (m <| halt_until_timer_steps := n |> <| halt_until_timer_m_cycles := t |>)
  | SK.HaltWake => n ← increment (halt_wake_steps m); Ok (m <| halt_wake_steps := n |>)
  | SK.InterruptDispatch _ =>
      n ← increment (interrupt_dispatches m); Ok (m <| interrupt_dispatches := n |>)
  | SK.DmaByte => n ← increment (dma_byte_steps m); Ok (m <| dma_byte_steps := n |>)
  end.

(** [ExecutionMetrics::record]; the failing path discards the partial update with its builder. *)
Definition metrics_record (m : ExecutionMetrics) (row : TraceRow) : result TraceError ExecutionMetrics :=
  n ← increment (relation_steps m);
  let m := m <| relation_steps := n |> in
  n ← increment (isa_rows m);
  let m := m <| isa_rows := n |> in
  m ← record_kind m row;
  record_bus_events m (se_bus_events (row_effects row)).

(** ** Program-counter profile *)

Record ProgramCounterCount := MkPcCount {
  pcc_pc : Z; pcc_rom_bank : option Z; pcc_physical_pc : Z; pcc_count : Z
}.

(** [BTreeMap<u32, u64>] *)
Definition ProgramCounterProfile : Type := gmap Z Z.

Definition row_physical_pc (s : VmState) : Z :=
  let pc := pc (cpu s) in
  if in_range 0x0000 0x3fff pc then pc
  else if in_range 0x4000 0x7fff pc then rom_bank (mbc3 s) * 0x4000 + (pc - 0x4000)
  else Z.shiftl 1 20 + pc.

Definition profile_record (p : ProgramCounterProfile) (row : TraceRow) : result TraceError ProgramCounterProfile :=
  match se_kind (row_effects row) with
  | SK.Instruction =>
      let physical_pc := row_physical_pc (row_before row) in
      count ← increment (default 0 (p !! physical_pc));
      Ok (<[physical_pc := count]> p)
  | _ => Ok p
  end.

(** The entry of [top] for one counter, [None] when a conversion fails. *)
Definition profile_entry (physical_pc count : Z) : option ProgramCounterCount :=
  if physical_pc <? Z.shiftl 1 20 then
    bank ← (let bank := physical_pc / 0x4000 in if bank <? 256 then Some bank else None);
    offset ← (let offset := physical_pc mod 0x4000 in if offset <? 65536 then Some offset else None);
    let pc := if bank =? 0 then offset else 0x4000 + offset in
    Some (MkPcCount pc (Some bank) physical_pc count)
  else
    pc ← (let pc := physical_pc - Z.shiftl 1 20 in if pc <? 65536 then Some pc else None);
    Some (MkPcCount pc None physical_pc count).

(** [ProgramCounterProfile::top]: counts downwards, then addresses upwards. The map has one entry per
    address, so the order is total and the sort's stability does not matter. *)
Definition entry_le (left right : ProgramCounterCount) : Prop :=
  pcc_count right < pcc_count left ∨
  pcc_count left = pcc_count right ∧ pcc_physical_pc left <= pcc_physical_pc right.
Global Instance entry_le_dec : RelDecision entry_le.
Proof. intros left right. unfold entry_le. apply _. Defined.
Definition top (p : ProgramCounterProfile) (limit : nat) : list ProgramCounterCount :=
  take limit (merge_sort entry_le (omap (λ e : Z * Z, profile_entry e.1 e.2) (map_to_list p))).

(** ** Continuity *)

Fixpoint linked (rows : list TraceRow) : Prop :=
  match rows with
  | before :: (after :: _) as rest => row_after before = row_before after ∧ linked rest
  | _ => True
  end.

Lemma check_rows_linked rows : ∀ index, check_rows index rows = Ok () ↔ linked rows.
Proof.
  induction rows as [| before [| after rest] IH]; intros index; [done | done |].
  change (check_rows index (before :: after :: rest)) with
    (if negb (bool_decide (row_after before = row_before after)) then Err (TraceErr.DiscontinuousRow index)
     else check_rows (index + 1) (after :: rest)).
  change (linked (before :: after :: rest)) with
    (row_after before = row_before after ∧ linked (after :: rest)).
  rewrite <- (IH (index + 1)). case_bool_decide; cbn [negb]; [tauto |]. split; [done | by intros []].
Qed.

Lemma linked_app l r l' :
  linked (l ++ [r]) → linked l' → (∀ r', head l' = Some r' → row_after r = row_before r') →
  linked ((l ++ [r]) ++ l').
Proof.
  induction l as [| x [| y l] IH]; intros Hl Hl' Hr.
  - destruct l' as [| r' l']; [done |]. split; [by apply Hr | done].
  - destruct Hl as [Hx _]. split; [done |]. by apply (IH I).
  - destruct Hl as [Hx Hl]. split; [done |]. by apply IH.
Qed.

Definition chunk_valid (c : TraceChunk) : Prop := chunk_rows c ≠ [] ∧ linked (chunk_rows c).

Lemma chunk_new_valid rows c : chunk_new rows = Ok c → chunk_rows c = rows ∧ chunk_valid c.
Proof.
  unfold chunk_new. destruct rows as [| r rows]; [done |]. intros ([] & Hc & [= <-])%bind_ok.
  split; [done |]. split; [done |]. by apply (check_rows_linked _ 0).
Qed.

Lemma nonempty_last {A} (l : list A) : l ≠ [] → ∃ l' x, l = l' ++ [x].
Proof. intros Hl. destruct l as [| x l] using rev_ind; [done |]. eauto. Qed.

Lemma check_chunks_linked chunks : ∀ index,
  Forall chunk_valid chunks → check_chunks index chunks = Ok () → linked (chunks ≫= chunk_rows).
Proof.
  induction chunks as [| c [| c' chunks] IH]; intros index Hv Hc; [done | |].
  - apply Forall_cons in Hv as [[_ Hl] _]. cbn. by rewrite app_nil_r.
  - apply Forall_cons in Hv as [[Hne Hl] Hv].
    change (check_chunks index (c :: c' :: chunks)) with
      (final ← chunk_final_state c; initial ← chunk_initial_state c';
       if negb (bool_decide (final = initial)) then Err (TraceErr.DiscontinuousChunk index)
       else check_chunks (index + 1) (c' :: chunks)) in Hc.
    apply bind_ok in Hc as (final & Hf & (initial & Hi & Hc)%bind_ok).
    case_bool_decide as Heq; [cbn [negb] in Hc | done]. subst initial.
    change ((c :: c' :: chunks) ≫= chunk_rows) with (chunk_rows c ++ ((c' :: chunks) ≫= chunk_rows)).
    destruct (nonempty_last _ Hne) as (l & r & E). rewrite E in *.
    apply linked_app; [done | by eapply IH |].
    unfold chunk_final_state in Hf. rewrite E, last_snoc in Hf. injection Hf as <-.
    apply Forall_cons in Hv as [[Hne' _] _]. unfold chunk_initial_state in Hi.
    change ((c' :: chunks) ≫= chunk_rows) with (chunk_rows c' ++ (chunks ≫= chunk_rows)).
    destruct (chunk_rows c') as [| r0 l0]; [done |]. cbn in Hi. injection Hi as Hi. intros r' [= <-]. done.
Qed.

(** [TraceChunk::new] on each group of rows. *)
Definition chunks_new (groups : list (list TraceRow)) (chunks : list TraceChunk) : Prop :=
  Forall2 (λ rows c, chunk_new rows = Ok c) groups chunks.
Lemma chunks_new_rows groups chunks : chunks_new groups chunks → Forall chunk_valid chunks ∧ chunks ≫= chunk_rows = concat groups.
Proof.
  induction 1 as [| rows c groups chunks Hc _ [Hv Hr]]; [by split |].
  destruct (chunk_new_valid _ _ Hc) as [Ec Hvc]. split; [by constructor |]. cbn. by rewrite Ec, Hr.
Qed.
Lemma linked_prefix l l' : linked (l ++ l') → linked l ∧ linked l'.
Proof.
  induction l as [| x [| y l] IH]; intros Hl; [by split | destruct l'; [by split | by destruct Hl] |].
  destruct Hl as [Hx Hl]. apply IH in Hl as [Hl ?]. by split; [split |].
Qed.
Lemma chunks_new_linked groups : Forall (λ rows, rows ≠ []) groups → linked (concat groups) → ∃ chunks, chunks_new groups chunks.
Proof.
  induction groups as [| rows groups IH]; intros Hn Hl; [by exists []; constructor |].
  apply Forall_cons in Hn as [Hr Hn]. cbn [concat] in Hl. apply linked_prefix in Hl as [Hrows Hl].
  destruct (IH Hn Hl) as [chunks Hc]. exists (MkChunk rows :: chunks). constructor; [| done].
  unfold chunk_new. destruct rows as [| r rows]; [done |]. by rewrite (proj2 (check_rows_linked _ 0) Hrows), bind_of_ok.
Qed.
Lemma linked_step l r r' l' : linked ((l ++ [r]) ++ r' :: l') → row_after r = row_before r'.
Proof. induction l as [| x [| y l] IH]; intros Hl; [apply Hl | apply IH, Hl | apply IH, Hl]. Qed.
Lemma check_chunks_of_linked chunks : ∀ index,
  Forall chunk_valid chunks → linked (chunks ≫= chunk_rows) → check_chunks index chunks = Ok ().
Proof.
  induction chunks as [| c [| c' chunks] IH]; intros index Hv Hl; [done | done |].
  apply Forall_cons in Hv as [[Hne _] Hv]. pose proof Hv as [[Hne' _] _]%Forall_cons.
  change ((c :: c' :: chunks) ≫= chunk_rows) with (chunk_rows c ++ ((c' :: chunks) ≫= chunk_rows)) in Hl.
  pose proof (proj2 (linked_prefix _ _ Hl)) as Hrest.
  change (check_chunks index (c :: c' :: chunks)) with
    (final ← chunk_final_state c; initial ← chunk_initial_state c';
     if negb (bool_decide (final = initial)) then Err (TraceErr.DiscontinuousChunk index)
     else check_chunks (index + 1) (c' :: chunks)).
  destruct (nonempty_last _ Hne) as (l & r & E). unfold chunk_final_state, chunk_initial_state. rewrite E, last_snoc in *.
  cbn [fmap option_fmap option_map ok_or]. rewrite bind_of_ok.
  change ((c' :: chunks) ≫= chunk_rows) with (chunk_rows c' ++ (chunks ≫= chunk_rows)) in Hl.
  destruct (chunk_rows c') as [| r' l'] eqn:E'; [done |]. cbn [head fmap option_fmap option_map ok_or]. rewrite bind_of_ok.
  rewrite (linked_step l r r' (l' ++ (chunks ≫= chunk_rows)) Hl), bool_decide_eq_true_2 by done. cbn [negb]. by apply IH.
Qed.

Lemma count_steps_sum chunks : ∀ total n,
  count_steps total chunks = Ok n → n = total + Z.of_nat (length (chunks ≫= chunk_rows)).
Proof.
  induction chunks as [| c chunks IH]; intros total n; cbn [count_steps]; [intros [= ->]; cbn; lia |].
  intros (t & Ht & Hn)%bind_ok. apply IH in Hn. revert Ht. unfold checked_add_u64, chunk_len.
  case_match; [| done]. intros [= <-]. change ((c :: chunks) ≫= chunk_rows) with (chunk_rows c ++ (chunks ≫= chunk_rows)).
  rewrite length_app. lia.
Qed.

Section trace.
Context `{Sha256}.

(** A row that the step relation accepted. *)
Definition accepted (authentication : BusAuthentication) (r : TraceRow) : Prop :=
  ∃ input, Forall witness_ok input ∧ apply (row_before r) input authentication = Ok (row_after r, row_effects r).

Lemma linked_run authentication rows : ∀ s,
  Forall (accepted authentication) rows → linked rows → (∀ r, head rows = Some r → row_before r = s) →
  ∃ inputs, inputs_ok inputs ∧
    run_steps authentication s inputs = Ok (default s (row_after <$> last rows), map row_effects rows).
Proof.
  induction rows as [| r rows IH]; intros s Ha Hl Hs; [exists []; split; [constructor | done] |].
  apply Forall_cons in Ha as [(input & Hin & Happ) Ha]. specialize (Hs r eq_refl). subst s.
  destruct (IH (row_after r) Ha) as (inputs & Hins & Hrun).
  { destruct rows; [done | apply Hl]. }
  { intros r' Hr'. destruct rows; [done |]. injection Hr' as ->. by destruct Hl as [-> _]. }
  exists (input :: inputs). split; [by constructor |]. cbn [run_steps]. rewrite Happ, bind_of_ok.
  cbv beta iota. rewrite Hrun, bind_of_ok. cbv beta iota. rewrite last_cons. by destruct (last rows).
Qed.

Lemma witness_run authentication chunks w rows :
  Forall chunk_valid chunks → chunks ≫= chunk_rows = rows → witness_new chunks = Ok w →
  Forall (accepted authentication) rows →
  witness_rows w = rows ∧ w_step_count w = Z.of_nat (length (witness_rows w)) ∧ 0 < w_step_count w ∧
  ∃ inputs, inputs_ok inputs ∧
    run_steps authentication (w_initial_state w) inputs = Ok (w_final_state w, map row_effects (witness_rows w)).
Proof.
  intros Hv <- Hw Ha. unfold witness_new in Hw. unfold witness_rows in *.
  apply bind_ok in Hw as (c0 & Hc0 & (c1 & Hc1 & ([] & Hck & (n & Hn & Hw)%bind_ok)%bind_ok)%bind_ok).
  apply bind_ok in Hw as (s0 & Hs0 & (s1 & Hs1 & [= <-])%bind_ok). cbn [w_chunks w_step_count w_initial_state w_final_state] in *.
  apply count_steps_sum in Hn as ->. pose proof (check_chunks_linked _ _ Hv Hck) as Hl. split; [done |].
  assert (Hhead : row_before <$> head (chunks ≫= chunk_rows) = Some s0).
  { destruct chunks as [| c chunks]; [done |]. cbn in Hc0. injection Hc0 as <-. apply Forall_cons in Hv as [[Hne _] _].
    unfold chunk_initial_state in Hs0. change ((c :: chunks) ≫= chunk_rows) with (chunk_rows c ++ (chunks ≫= chunk_rows)).
    destruct (chunk_rows c); [done |]. cbn in *. by injection Hs0 as <-. }
  assert (Hlast : row_after <$> last (chunks ≫= chunk_rows) = Some s1).
  { destruct chunks as [| chunks c _] using rev_ind; [done |]. rewrite last_snoc in Hc1. injection Hc1 as <-.
    apply Forall_app in Hv as [_ [[Hne _] _]%Forall_cons]. unfold chunk_final_state in Hs1.
    rewrite bind_app. cbn. rewrite app_nil_r. destruct (nonempty_last _ Hne) as (l & r & E). rewrite E in *.
    rewrite last_snoc in Hs1. rewrite app_assoc, last_snoc. by injection Hs1 as <-. }
  destruct (linked_run authentication _ s0 Ha Hl) as (inputs & Hins & Hrun).
  { intros r Hr. rewrite Hr in Hhead. by injection Hhead. }
  split; [lia |]. split; [destruct (chunks ≫= chunk_rows); [done | cbn [length]; lia] |].
  exists inputs. split; [done |]. by rewrite Hlast in Hrun.
Qed.
Lemma count_steps_room chunks : ∀ total, 0 <= total → total + Z.of_nat (length (chunks ≫= chunk_rows)) < 2 ^ 64 →
  ∃ n, count_steps total chunks = Ok n.
Proof.
  change (2 ^ 64) with 18446744073709551616. induction chunks as [| c chunks IH]; intros total H0 Hn; [by exists total |].
  change ((c :: chunks) ≫= chunk_rows) with (chunk_rows c ++ (chunks ≫= chunk_rows)) in Hn. rewrite length_app in Hn.
  cbn [count_steps]. unfold checked_add_u64, chunk_len. rewrite (proj2 (Z.ltb_lt _ _)) by lia. cbn [ok_or]. rewrite bind_of_ok.
  apply IH; lia.
Qed.
Lemma witness_new_linked chunks : chunks ≠ [] → Forall chunk_valid chunks → linked (chunks ≫= chunk_rows) →
  Z.of_nat (length (chunks ≫= chunk_rows)) < 2 ^ 64 → ∃ w, witness_new chunks = Ok w.
Proof.
  intros Hne Hv Hl Hn. unfold witness_new. rewrite (check_chunks_of_linked chunks 0 Hv Hl).
  destruct (count_steps_room chunks 0 ltac:(lia) ltac:(lia)) as [n ->].
  destruct (nonempty_last _ Hne) as (l & c1 & E). destruct chunks as [| c0 chunks]; [done |].
  cbn [head ok_or]. rewrite bind_of_ok, E, last_snoc. cbn [ok_or]. rewrite !bind_of_ok.
  pose proof Hv as [[H0 _] _]%Forall_cons. rewrite E in Hv. apply Forall_app in Hv as [_ [[H1 _] _]%Forall_cons].
  unfold chunk_initial_state, chunk_final_state. destruct (chunk_rows c0); [done |]. cbn [head fmap option_fmap option_map ok_or].
  rewrite bind_of_ok. destruct (nonempty_last _ H1) as (l1 & r1 & ->). rewrite last_snoc. by eexists.
Qed.

(** C11. A witness is one run of the machine, and exactly one run. When [TraceChunk::new] accepts each group
    of rows and [Witness::new] accepts the chunks, and every row was accepted by the step relation, the rows
    of the groups in order form a single run from the witness's initial state to its final state, through
    exactly [step_count] steps with the recorded effects; a witness is never empty. Conversely the
    constructors accept every non-empty list of non-empty groups whose rows, in order, are linked and fewer
    than 2^64. *)
Theorem witness_is_run authentication groups :
  Forall (Forall (accepted authentication)) groups →
  (∀ chunks w, chunks_new groups chunks → witness_new chunks = Ok w →
     witness_rows w = concat groups ∧ w_step_count w = Z.of_nat (length (witness_rows w)) ∧ 0 < w_step_count w ∧
     ∃ inputs, inputs_ok inputs ∧
       run_steps authentication (w_initial_state w) inputs = Ok (w_final_state w, map row_effects (witness_rows w))) ∧
  (groups ≠ [] → Forall (λ rows, rows ≠ []) groups → linked (concat groups) →
   Z.of_nat (length (concat groups)) < 2 ^ 64 →
   ∃ chunks w, chunks_new groups chunks ∧ witness_new chunks = Ok w).
Proof.
  intros Ha%Forall_concat. split.
  - intros chunks w (Hv & Hrows)%chunks_new_rows Hw. exact (witness_run authentication chunks w _ Hv Hrows Hw Ha).
  - intros Hne Hn Hl Hlen. destruct (chunks_new_linked groups Hn Hl) as [chunks Hc].
    pose proof (chunks_new_rows _ _ Hc) as [Hv Hrows].
    exists chunks.
    assert (Hcn : chunks ≠ []) by (intros ->; by inversion Hc).
    destruct (witness_new_linked chunks Hcn Hv) as [w Hw]; [by rewrite Hrows | by rewrite Hrows | by exists w].
Qed.
End trace.

(** ** What the metrics count *)

Fixpoint record_rows (m : ExecutionMetrics) (rows : list TraceRow) : result TraceError ExecutionMetrics :=
  match rows with [] => Ok m | r :: rows => m ← metrics_record m r; record_rows m rows end.

Definition zsum {A} (f : A → Z) (l : list A) : Z := foldr (λ x n, f x + n) 0 l.

Definition on_kind (f : StepKind → bool) (r : TraceRow) : Z := b2z (f (se_kind (row_effects r))).
Definition elapsed_on (f : StepKind → bool) (r : TraceRow) : Z :=
  if f (se_kind (row_effects r)) then m_cycles (cpu (row_after r)) - m_cycles (cpu (row_before r)) else 0.
Definition is_kind (k k' : StepKind) : bool :=
  match k, k' with
  | SK.Instruction, SK.Instruction | SK.HaltIdle, SK.HaltIdle | SK.HaltUntilVBlank, SK.HaltUntilVBlank
  | SK.HaltUntilSerial, SK.HaltUntilSerial | SK.HaltUntilTimer, SK.HaltUntilTimer
  | SK.HaltWake, SK.HaltWake | SK.InterruptDispatch _, SK.InterruptDispatch _ | SK.DmaByte, SK.DmaByte => true
  | _, _ => false
  end.
Definition some_event {A} (f : BusEvent → option A) (e : BusEvent) : Z :=
  match f e with Some _ => 1 | None => 0 end.

(** Every counter with what a row and what an event of it add. *)
Definition metric_meaning : list ((ExecutionMetrics → Z) * (TraceRow → Z) * (BusEvent → Z)) :=
  let none {A} (_ : A) := 0 in
  [ (relation_steps, λ _, 1, none); (isa_rows, λ _, 1, none);
    (instructions, on_kind (is_kind SK.Instruction), none);
    (halt_idle_steps, on_kind (is_kind SK.HaltIdle), none);
    (halt_idle_m_cycles, elapsed_on (is_kind SK.HaltIdle), none);
    (halt_until_vblank_steps, on_kind (is_kind SK.HaltUntilVBlank), none);
    (halt_until_vblank_m_cycles, elapsed_on (is_kind SK.HaltUntilVBlank), none);
    (halt_until_serial_steps, on_kind (is_kind SK.HaltUntilSerial), none);
    (halt_until_serial_m_cycles, elapsed_on (is_kind SK.HaltUntilSerial), none);
    (halt_until_timer_steps, on_kind (is_kind SK.HaltUntilTimer), none);
    (halt_until_timer_m_cycles, elapsed_on (is_kind SK.HaltUntilTimer), none);
    (halt_wake_steps, on_kind (is_kind SK.HaltWake), none);
    (interrupt_dispatches, on_kind (is_kind (SK.InterruptDispatch Int.VBlank)), none);
    (dma_byte_steps, on_kind (is_kind SK.DmaByte), none);
    (bus_events, none, λ _, 1); (rom_reads, none, some_event rom_read_of);
    (memory_reads, none, λ e, match memory_access_of e with Some (Read _) => 1 | _ => 0 end);
    (memory_writes, none, λ e, match memory_access_of e with Some (Write _) => 1 | _ => 0 end);
    (input_events, none, some_event input_of); (output_events, none, some_event output_of);
    (joypad_samples, none, λ e, match e with Ev.DmgJoypadRead _ _ _ _ => 1 | _ => 0 end);
    (battery_sram_writes, none, λ e, match e with
       | Ev.MemoryWrite w => b2z (in_range 0x10000 0x17fff (mw_physical_address w)) | _ => 0 end);
    (dma_starts, none, λ e, match e with Ev.DmgMmioWrite a _ _ => b2z (a =? 0xff46) | _ => 0 end) ].

(** [m'] is [m] plus one row's share, or one event's, on every counter. *)
Definition counts_event (m m' : ExecutionMetrics) (l : list BusEvent) : Prop :=
  Forall (λ '(f, _, w), f m' = f m + zsum w l) metric_meaning.
Definition counts_rows (m m' : ExecutionMetrics) (l : list TraceRow) : Prop :=
  Forall (λ '(f, v, w), f m' = f m + zsum (λ r, v r + zsum w (se_bus_events (row_effects r))) l) metric_meaning.

Lemma counter_increment_ok v n : increment v = Ok n → n = v + 1.
Proof. unfold increment, checked_add_u64. case_match; [by intros [= ->] | done]. Qed.

Lemma add_elapsed_ok r t n :
  add_elapsed r t = Ok n → n = t + (m_cycles (cpu (row_after r)) - m_cycles (cpu (row_before r))).
Proof.
  unfold add_elapsed. intros (e & He & Hn)%bind_ok. revert He Hn. unfold checked_add_u64.
  case_match; [| done]. intros [= <-]. case_match; [by intros [= <-] | done].
Qed.

Ltac metric_step :=
  repeat match goal with
    | E : (_ ≫= _) = Ok _ |- _ => apply bind_ok in E as (? & ? & E)
    | E : increment _ = Ok _ |- _ => apply counter_increment_ok in E; subst
    | E : add_elapsed _ _ = Ok _ |- _ => apply add_elapsed_ok in E; subst
    | E : Ok _ = Ok _ |- _ => injection E as <-
    | E : context [match ?b with true => _ | false => _ end] |- _ => destruct b eqn:?
    end.
Ltac metric_done :=
  repeat (apply Forall_cons; split); try apply Forall_nil; cbn -[Z.add b2z];
  repeat match goal with
    | E : _ = true |- _ => rewrite E
    | E : _ = false |- _ => rewrite E
    | E : se_kind _ = _ |- _ => rewrite E
    end;
  cbn [b2z]; rewrite ?Z.add_0_r; try reflexivity; try lia.

Lemma record_bus_event_counts m e m' : record_bus_event m e = Ok m' → counts_event m m' [e].
Proof.
  unfold record_bus_event. intros E. apply bind_ok in E as (n & Hn & E). apply counter_increment_ok in Hn as ->.
  unfold counts_event, metric_meaning, some_event.
  destruct e; metric_step; metric_done.
Qed.

Lemma zsum_app {A} (f : A → Z) l l' : zsum f (l ++ l') = zsum f l + zsum f l'.
Proof. induction l as [| x l IH]; [done |]. change (f x + zsum f (l ++ l') = f x + zsum f l + zsum f l'). lia. Qed.
Lemma zsum_one {A} (f : A → Z) x : zsum f [x] = f x.
Proof. apply Z.add_0_r. Qed.

Lemma counts_event_app m m1 m2 l l' :
  counts_event m m1 l → counts_event m1 m2 l' → counts_event m m2 (l ++ l').
Proof.
  unfold counts_event. rewrite !Forall_forall. intros H1 H2 [[f v] w] Hf.
  specialize (H1 _ Hf). specialize (H2 _ Hf). cbn in *. rewrite zsum_app. lia.
Qed.
Lemma counts_rows_app m m1 m2 l l' :
  counts_rows m m1 l → counts_rows m1 m2 l' → counts_rows m m2 (l ++ l').
Proof.
  unfold counts_rows. rewrite !Forall_forall. intros H1 H2 [[f v] w] Hf.
  specialize (H1 _ Hf). specialize (H2 _ Hf). cbn in *. rewrite zsum_app. lia.
Qed.

Lemma record_bus_events_counts l : ∀ m m', record_bus_events m l = Ok m' → counts_event m m' l.
Proof.
  induction l as [| e l IH]; intros m m' E; cbn [record_bus_events] in E.
  - injection E as <-. apply Forall_forall. intros [[f v] w] _. symmetry. apply Z.add_0_r.
  - apply bind_ok in E as (m1 & H1 & E). apply (counts_event_app m m1 m' [e] l); [| by apply IH].
    by apply record_bus_event_counts.
Qed.

(** The share of a row before its events. *)
Definition counts_kind (m m' : ExecutionMetrics) (r : TraceRow) : Prop :=
  Forall (λ '(f, v, _), f m' = f m + v r) metric_meaning.

Lemma record_kind_counts m r m' :
  record_kind (m <| relation_steps := relation_steps m + 1 |> <| isa_rows := isa_rows m + 1 |>) r = Ok m' →
  counts_kind m m' r.
Proof.
  unfold record_kind, counts_kind, metric_meaning, on_kind, elapsed_on. intros E.
  destruct (se_kind (row_effects r)) eqn:K; metric_step; metric_done.
Qed.

Lemma metrics_record_counts m r m' : metrics_record m r = Ok m' → counts_rows m m' [r].
Proof.
  intros E. unfold metrics_record in E. apply bind_ok in E as (n & ->%counter_increment_ok & E).
  apply bind_ok in E as (n & Hn & (m1 & Hk & He)%bind_ok). cbn in Hn. apply counter_increment_ok in Hn as ->.
  apply record_kind_counts in Hk. apply record_bus_events_counts in He. revert Hk He.
  unfold counts_kind, counts_event, counts_rows. rewrite !Forall_forall. intros Hk He [[f v] w] Hf.
  specialize (Hk _ Hf). specialize (He _ Hf). cbn beta iota in *. rewrite zsum_one. lia.
Qed.

Lemma record_rows_counts l : ∀ m m', record_rows m l = Ok m' → counts_rows m m' l.
Proof.
  induction l as [| r l IH]; intros m m' E; cbn [record_rows] in E.
  - injection E as <-. apply Forall_forall. intros [[f v] w] _. symmetry. apply Z.add_0_r.
  - apply bind_ok in E as (m1 & H1 & E). apply (counts_rows_app m m1 m' [r] l); [| by apply IH].
    by apply metrics_record_counts.
Qed.

(** ** The metrics never overflow before the cycle counter does *)

Definition count_fields : list (ExecutionMetrics → Z) :=
  [relation_steps; isa_rows; instructions; halt_idle_steps; halt_until_vblank_steps; halt_until_serial_steps;
   halt_until_timer_steps; halt_wake_steps; interrupt_dispatches; dma_byte_steps; bus_events; rom_reads;
   memory_reads; memory_writes; input_events; output_events; joypad_samples; battery_sram_writes; dma_starts].
Definition cycle_fields : list (ExecutionMetrics → Z) :=
  [halt_idle_m_cycles; halt_until_vblank_m_cycles; halt_until_serial_m_cycles; halt_until_timer_m_cycles].
(** [n] more rows or events and [c] more cycles fit the counters. *)
Definition room (m : ExecutionMetrics) (n c : Z) : Prop :=
  Forall (λ f, f m + n < 18446744073709551616) count_fields ∧
  Forall (λ f, f m + c < 18446744073709551616) cycle_fields.

Lemma increment_fits v : v + 1 < 18446744073709551616 → increment v = Ok (v + 1).
Proof. intros Hv. unfold increment, checked_add_u64. by rewrite (proj2 (Z.ltb_lt _ _) Hv). Qed.
Lemma add_elapsed_fits r t :
  let k := m_cycles (cpu (row_after r)) - m_cycles (cpu (row_before r)) in
  0 <= k → t + k < 18446744073709551616 → add_elapsed r t = Ok (t + k).
Proof.
  intros k Hk Ht. unfold add_elapsed, checked_add_u64.
  subst k. rewrite (proj2 (Z.leb_le _ _)) by lia. cbn [ok_or]. rewrite bind_of_ok.
  by rewrite (proj2 (Z.ltb_lt _ _) Ht).
Qed.

Ltac room_step :=
  repeat first
    [ rewrite bind_of_ok
    | rewrite increment_fits by (cbn; lia)
    | rewrite add_elapsed_fits by (cbn; lia)
    | case_match; [| | ..] ].
Ltac room_done :=
  eexists; split; [reflexivity |]; split; repeat (apply Forall_cons; split); try apply Forall_nil; cbn; lia.
Ltac room_open H :=
  destruct H as [Hcount Hcycle]; repeat apply Forall_cons in Hcount as [? Hcount];
  repeat apply Forall_cons in Hcycle as [? Hcycle].

Lemma record_bus_event_room m e n c :
  room m n c → 1 <= n → 0 <= c → ∃ m', record_bus_event m e = Ok m' ∧ room m' (n - 1) c.
Proof.
  intros Hr Hn Hc. room_open Hr. unfold record_bus_event.
  destruct e; room_step; room_done.
Qed.

Lemma record_bus_events_room l : ∀ m n c,
  room m n c → Z.of_nat (length l) <= n → 0 <= c →
  ∃ m', record_bus_events m l = Ok m' ∧ room m' (n - Z.of_nat (length l)) c.
Proof.
  induction l as [| e l IH]; intros m n c Hr Hn Hc; cbn [length record_bus_events] in *.
  - exists m. split; [done |]. by rewrite Z.sub_0_r.
  - destruct (record_bus_event_room m e n c) as (m1 & -> & H1); [done | lia.. |]. rewrite bind_of_ok.
    destruct (IH m1 (n - 1) c) as (m' & -> & H'); [done | lia.. |]. exists m'. split; [done |].
    by replace (n - Z.of_nat (S (length l))) with (n - 1 - Z.of_nat (length l)) by lia.
Qed.

Lemma metrics_record_room m r n c :
  let k := m_cycles (cpu (row_after r)) - m_cycles (cpu (row_before r)) in
  let l := Z.of_nat (length (se_bus_events (row_effects r))) in
  room m n c → 1 + l <= n → 0 <= k <= c →
  ∃ m', metrics_record m r = Ok m' ∧ room m' (n - 1 - l) (c - k).
Proof.
  intros k l Hr Hn Hk. unfold metrics_record.
  assert (∃ m', record_kind (m <| relation_steps := relation_steps m + 1 |> <| isa_rows := isa_rows m + 1 |>) r
    = Ok m' ∧ room m' (n - 1) (c - k)) as (m1 & Hkind & H1).
  { room_open Hr. unfold record_kind. destruct (se_kind (row_effects r)); subst k; room_step; room_done. }
  destruct (record_bus_events_room (se_bus_events (row_effects r)) m1 (n - 1) (c - k)) as (m' & He & H');
    [done | lia.. |].
  room_open Hr. rewrite increment_fits by lia. rewrite bind_of_ok. rewrite increment_fits by (cbn; lia).
  rewrite bind_of_ok. change (isa_rows (m <| relation_steps := relation_steps m + 1 |>)) with (isa_rows m).
  rewrite Hkind, bind_of_ok, He. by exists m'.
Qed.

Section claims.
Context `{Sha256}.

Lemma accepted_cycles authentication r :
  vm_ok (row_before r) → accepted authentication r →
  vm_ok (row_after r) ∧ m_cycles (cpu (row_before r)) <= m_cycles (cpu (row_after r)).
Proof.
  intros Hs (input & Hin & E). pose proof (apply_spec _ input authentication Hs Hin) as Hst. rewrite E in Hst.
  split; [apply Hst |]. pose proof (step_cycles_nonneg _ _ Hs (st_defined _ _ _ _ _ Hst)).
  rewrite (st_cycles _ _ _ _ _ Hst). lia.
Qed.

(** Rows and events of a row list. *)
Definition row_work (r : TraceRow) : Z := 1 + Z.of_nat (length (se_bus_events (row_effects r))).

Lemma record_rows_room authentication l : ∀ m n s,
  vm_ok s → Forall (accepted authentication) l → linked l → (∀ r, head l = Some r → row_before r = s) →
  room m n (18446744073709551615 - m_cycles (cpu s)) → zsum row_work l <= n → is_ok (record_rows m l) = true.
Proof.
  induction l as [| r l IH]; intros m n s Hs Ha Hl Hh Hr Hn; [done |]. cbn [record_rows].
  apply Forall_cons in Ha as [Har Ha]. specialize (Hh r eq_refl). subst s.
  destruct (accepted_cycles _ _ Hs Har) as [Hs' Hc]. pose proof (ok_m_cycles _ (ok_cpu _ Hs')) as Hmax.
  change (zsum row_work (r :: l)) with (row_work r + zsum row_work l) in Hn.
  assert (0 <= zsum row_work l) by (clear; induction l as [| x l IH]; [done |]; change (zsum row_work (x :: l))
    with (row_work x + zsum row_work l); unfold row_work at 1; lia).
  unfold row_work in Hn at 1. destruct Hmax as [_ Hmax].
  destruct (metrics_record_room m r n (18446744073709551615 - m_cycles (cpu (row_before r))) Hr)
    as (m' & -> & H'); [lia.. |].
  rewrite bind_of_ok. eapply (IH m' _ (row_after r)); [done | done | by destruct l; [| apply Hl] | | |].
  - intros r' Hr'. destruct l; [done |]. injection Hr' as ->. by destruct Hl as [-> _].
  - replace (18446744073709551615 - m_cycles (cpu (row_after r))) with
      (18446744073709551615 - m_cycles (cpu (row_before r)) -
       (m_cycles (cpu (row_after r)) - m_cycles (cpu (row_before r)))) by lia. exact H'.
  - lia.
Qed.

(** The execution metrics of a run are exact and never fail. Over rows that the step relation
    accepted one after the other from a well-formed state, recording succeeds while the rows and
    events together fit a u64, whatever the cycles skipped by HALT (no [CycleRegression], no
    [MetricOverflow]), and every one of the 23 counters is the number of rows, events or elapsed
    HALT cycles it names. *)
Theorem metrics_exact authentication s rows :
  vm_ok s → Forall (accepted authentication) rows → linked rows →
  (∀ r, head rows = Some r → row_before r = s) → zsum row_work rows < 2 ^ 64 →
  ∃ m, record_rows metrics_default rows = Ok m ∧ counts_rows metrics_default m rows.
Proof.
  intros Hs Ha Hl Hh Hn. change (2 ^ 64) with 18446744073709551616 in Hn.
  pose proof (ok_m_cycles _ (ok_cpu _ Hs)) as [Hc _].
  assert (Hok : is_ok (record_rows metrics_default rows) = true).
  { eapply (record_rows_room authentication rows _ 18446744073709551615 s); try done; [| lia].
    split; repeat (apply Forall_cons; split); try apply Forall_nil; cbn; lia. }
  destruct (record_rows metrics_default rows) as [m |] eqn:E; [| done].
  exists m. split; [done |]. by apply record_rows_counts.
Qed.
End claims.

(** ** Witnesses *)

Section witnesses.
#[local] Existing Instance const_sha256.
#[local] Existing Instance const_sha256_length.

(** The rows of the two-instruction run of [Runs.v]. *)
Fixpoint rows_of (s : VmState) (inputs : list (list BusWitness)) : list TraceRow :=
  match inputs with
  | [] => []
  | input :: inputs =>
      match row_execute s input with Ok r => r :: rows_of (row_after r) inputs | Err _ => [] end
  end.
Definition demo_rows : list TraceRow := rows_of demo_start demo_inputs.

Lemma rows_of_accepted inputs : ∀ s, inputs_ok inputs → Forall (accepted Auth.Merkle) (rows_of s inputs).
Proof.
  induction inputs as [| input inputs IH]; intros s Hin; [constructor |]. apply Forall_cons in Hin as [Hi Hin].
  cbn [rows_of]. unfold row_execute, step_relation_apply.
  destruct (apply s input Auth.Merkle) as [[s' eff] | e] eqn:E; cbn [map_err]; [rewrite bind_of_ok | constructor].
  constructor; [| by apply IH]. by exists input.
Qed.
Lemma demo_rows_accepted : Forall (accepted Auth.Merkle) demo_rows.
Proof. apply rows_of_accepted, demo_inputs_ok. Qed.
Lemma demo_rows_linked : linked demo_rows.
Proof. apply (proj1 (check_rows_linked demo_rows 0)). vm_compute. reflexivity. Qed.
Lemma demo_rows_head r : head demo_rows = Some r → row_before r = demo_start.
Proof. vm_compute. by intros [= <-]. Qed.

Lemma metrics_exact_witness :
  length demo_rows = 2%nat ∧
  ∃ m, record_rows metrics_default demo_rows = Ok m ∧ counts_rows metrics_default m demo_rows.
Proof.
  split; [reflexivity |].
  exact (metrics_exact Auth.Merkle demo_start demo_rows demo_start_ok demo_rows_accepted demo_rows_linked
    demo_rows_head eq_refl).
Defined.

(** Two chunks: the two rows of the run, then a third row that executes [LD A,7] again where the run stopped. *)
Definition demo_groups : list (list TraceRow) :=
  [demo_rows; rows_of (default demo_start (row_after <$> last demo_rows)) [[demo_rom 5 0x3e; demo_rom 6 7]]].
Lemma demo_groups_accepted : Forall (Forall (accepted Auth.Merkle)) demo_groups.
Proof.
  constructor; [apply demo_rows_accepted |]. constructor; [| constructor]. apply rows_of_accepted.
  pose proof placeholder_ok. repeat (apply Forall_cons; split); try apply Forall_nil; split; try done; cbn; lia.
Qed.
Lemma demo_groups_linked : map length demo_groups = [2; 1]%nat ∧ linked (concat demo_groups).
Proof. split; [vm_compute; reflexivity |]. apply (proj1 (check_rows_linked _ 0)). vm_compute. reflexivity. Qed.

Lemma witness_is_run_witness :
  map length demo_groups = [2; 1]%nat ∧
  (∃ chunks w, chunks_new demo_groups chunks ∧ witness_new chunks = Ok w ∧
     witness_rows w = concat demo_groups ∧ w_step_count w = Z.of_nat (length (witness_rows w)) ∧ 0 < w_step_count w ∧
     ∃ inputs, inputs_ok inputs ∧
       run_steps Auth.Merkle (w_initial_state w) inputs = Ok (w_final_state w, map row_effects (witness_rows w))).
Proof.
  destruct demo_groups_linked as [Hlen Hl]. split; [exact Hlen |].
  destruct (witness_is_run Auth.Merkle demo_groups demo_groups_accepted) as [Hrun Hnew].
  destruct Hnew as (chunks & w & Hc & Hw).
  - discriminate.
  - apply Forall_forall. intros rows Hin ->. apply (list_elem_of_fmap_2 length) in Hin.
    change (length <$> demo_groups) with (map length demo_groups) in Hin. rewrite Hlen in Hin.
    repeat (apply elem_of_cons in Hin as [Hin | Hin]; [discriminate Hin |]). by apply elem_of_nil in Hin.
  - exact Hl.
  - vm_compute. reflexivity.
  - exists chunks, w. split; [exact Hc |]. split; [exact Hw |]. exact (Hrun chunks w Hc Hw).
Defined.
End witnesses.
