(* ===== verification/Records.v ===== *)
(** * Execution-lookup records (crates/zksm83-trace/src/execution_lookup.rs)

    The byte-level table queries that prove an accepted instruction row, derived from the row alone:
    registers before, immediate byte and data byte read give the query, registers after, data byte
    written and branch outcome must agree with the table's output. *)
From S2P Require Import Prelude IsaTypes Metadata Decode ExecPlan Flags Alu Lookup.
From S2P Require Import Commitment Logs State Bus Execute Transition Access StepLogic StepTrace Step.
From S2P Require Import Effects Conform Runs Trace.

Record InstructionLookupRecord := MkRecord {
  rec_query : ExecutionLookupQuery; rec_output : Out.ExecutionLookupOutput
}.

(** [records: [Option<InstructionLookupRecord>; 2]] as two fields. *)
Record InstructionLookupRecords := MkRecords {
  recs_first : option InstructionLookupRecord; recs_second : option InstructionLookupRecord; recs_count : Z
}.

Module RecErr.
Inductive InstructionLookupRecordError :=
| Lookup (e : LErr.ExecutionLookupError)
| MissingOperand
| TableMismatch (planned : option Tbl.ExecutionLookupTable) (planned_count : Z)
    (actual : option Tbl.ExecutionLookupTable) (actual_count : Z)
| OutputMismatch (table : Tbl.ExecutionLookupTable).
End RecErr.
Abbreviation rec_result := (result RecErr.InstructionLookupRecordError).

Definition records_empty : InstructionLookupRecords := MkRecords None None 0.
Definition records_one (record : InstructionLookupRecord) : InstructionLookupRecords :=
  MkRecords (Some record) None 1.
Definition records_two (first second : InstructionLookupRecord) : InstructionLookupRecords :=
  MkRecords (Some first) (Some second) 2.
Definition records_get (r : InstructionLookupRecords) (index : nat) : option InstructionLookupRecord :=
  match index with 0%nat => recs_first r | 1%nat => recs_second r | _ => None end.

(** ** Queries *)

Record InstructionLookupQueries := MkQueries {
  q_first : option ExecutionLookupQuery; q_second : option ExecutionLookupQuery; q_count : Z
}.
Definition queries_empty : InstructionLookupQueries := MkQueries None None 0.
Definition queries_one (q : ExecutionLookupQuery) : InstructionLookupQueries := MkQueries (Some q) None 1.
Definition queries_two (first second : ExecutionLookupQuery) : InstructionLookupQueries :=
  MkQueries (Some first) (Some second) 2.

Definition queries_evaluate (q : InstructionLookupQueries) : rec_result InstructionLookupRecords :=
  match q_first q, q_second q with
  | None, None =>
      if q_count q =? 0 then Ok records_empty
      else Err (RecErr.TableMismatch None 0 None (q_count q))
  | Some query, None =>
      if q_count q =? 1 then
        output ← map_err RecErr.Lookup (evaluate query);
        Ok (records_one (MkRecord query output))
      else Err (RecErr.TableMismatch None 0 None (q_count q))
  | Some first, Some second =>
      if q_count q =? 2 then
        output1 ← map_err RecErr.Lookup (evaluate first);
        output2 ← map_err RecErr.Lookup (evaluate second);
        Ok (records_two (MkRecord first output1) (MkRecord second output2))
      else Err (RecErr.TableMismatch None 0 None (q_count q))
  | None, Some _ => Err (RecErr.TableMismatch None 0 None (q_count q))
  end.

Definition byte_add_queries (left right : Z) : InstructionLookupQueries :=
  let '(_, carry) := overflowing_add8 (lo8 left) (lo8 right) in
  queries_two (add8 (lo8 left) (lo8 right) false) (add8 (hi8 left) (hi8 right) carry).

Definition signed_byte_add_queries (left offset : Z) : InstructionLookupQueries :=
  let '(_, carry) := overflowing_add8 (lo8 left) offset in
  let sign_extension := if Z.land offset 0x80 =? 0 then 0 else 255 in
  queries_two (add8 (lo8 left) offset false) (add8 (hi8 left) sign_extension carry).

(** ** Operands of a row *)

Definition is_immediate_read (k : BusEventKind) : bool :=
  match k with EK.ImmediateRead | EK.MemoryImmediateRead => true | _ => false end.
Definition is_data_read (k : BusEventKind) : bool :=
  match k with
  | EK.RomRead | EK.MemoryRead | EK.InputRead | EK.Mbc3OpenBusRead | EK.DmgMmioRead | EK.DmgJoypadRead => true
  | _ => false
  end.
Definition is_data_write (k : BusEventKind) : bool :=
  match k with
  | EK.MemoryWrite | EK.OutputWrite | EK.Mbc3ControlWrite | EK.Mbc3IgnoredWrite | EK.DmgMmioWrite => true
  | _ => false
  end.

(** [.iter().find(|event| f(event.kind())).map(|event| event.transcript_event().value)] *)
Definition find_value (f : BusEventKind → bool) (events : list BusEvent) : option Z :=
  (λ e, bt_value (transcript_event e)) <$> find (λ e, f (event_kind e)) events.

Definition immediate_value (row : TraceRow) : rec_result Z :=
  ok_or (find_value is_immediate_read (se_bus_events (row_effects row))) RecErr.MissingOperand.

Definition operand_value (row : TraceRow) (operand : Opd.Operand8) : rec_result Z :=
  match operand with
  | Opd.Register register => Ok (register8 (cpu (row_before row)) register)
  | Opd.Immediate => immediate_value row
  | Opd.IndirectHl =>
      ok_or (find_value is_data_read (se_bus_events (row_effects row))) RecErr.MissingOperand
  end.

Definition output_operand_value (row : TraceRow) (operand : Opd.Operand8) : option Z :=
  match operand with
  | Opd.Register register => Some (register8 (cpu (row_after row)) register)
  | Opd.Immediate => None
  | Opd.IndirectHl => find_value is_data_write (rev (se_bus_events (row_effects row)))
  end.

Definition cb_query (row : TraceRow) (operation : CbOp.CbOperation) (target : Opd.Operand8) (flags : Flags) :
    rec_result ExecutionLookupQuery :=
  value ← operand_value row target;
  map_err RecErr.Lookup
    (match operation with
     | CbOp.TestBit bit => test_bit8 value bit (f_carry flags)
     | CbOp.ResetBit bit => reset_bit8 value bit
     | CbOp.SetBit bit => set_bit8 value bit
     | rotate => rotate_shift8 value rotate (f_carry flags) true
     end).

Definition build_queries (row : TraceRow) (operation : Op.Operation) : rec_result InstructionLookupQueries :=
  let before := cpu (row_before row) in
  let flags := flags before in
  match operation with
  | Op.AddHl source => Ok (byte_add_queries (register16 before R16.Hl) (register16 before source))
  | Op.Increment8 target =>
      v ← operand_value row target; Ok (queries_one (increment8 v (f_carry flags)))
  | Op.Decrement8 target =>
      v ← operand_value row target; Ok (queries_one (decrement8 v (f_carry flags)))
  | Op.RotateAccumulator rotate =>
      q ← map_err RecErr.Lookup (rotate_shift8 (reg_a (registers before)) rotate (f_carry flags) false);
      Ok (queries_one q)
  | Op.DecimalAdjust => Ok (queries_one (decimal_adjust8 (reg_a (registers before)) flags))
  | Op.Alu8 alu source =>
      let left := reg_a (registers before) in
      right ← operand_value row source;
      Ok (queries_one
        match alu with
        | AluOp.Add => add8 left right false
        | AluOp.AddCarry => add8 left right (f_carry flags)
        | AluOp.Subtract | AluOp.Compare => subtract8 left right false
        | AluOp.SubtractCarry => subtract8 left right (f_carry flags)
        | AluOp.And => and8 left right
        | AluOp.Xor => xor8 left right
        | AluOp.Or => or8 left right
        end)
  | Op.AddSpOffset | Op.LoadHlSpOffset =>
      v ← immediate_value row; Ok (signed_byte_add_queries (sp before) v)
  | Op.RelativeJump (Some condition) | Op.Return (Some condition) | Op.Jump (Some condition)
  | Op.Call (Some condition) => Ok (queries_one (condition_query condition flags))
  | Op.Cb cb target => q ← cb_query row cb target flags; Ok (queries_one q)
  | _ => Ok queries_empty
  end.

(** ** Agreement with the transition *)

Definition word_add_matches_transition (row : TraceRow) (records : InstructionLookupRecords)
    (preserve_zero : bool) : bool :=
  match records_get records 0, records_get records 1 with
  | Some first, Some second =>
      match rec_output first, rec_output second with
      | Out.ByteWithFlags low low_flags, Out.ByteWithFlags high high_flags =>
          let value := be16 high low in
          let expected_flags :=
            if preserve_zero then
              from_bits (f_zero (flags (cpu (row_before row)))) false
                (f_half_carry high_flags) (f_carry high_flags)
            else from_bits false false (f_half_carry low_flags) (f_carry low_flags) in
          let after := cpu (row_after row) in
          match operation (se_instruction (row_effects row)) with
          | Op.AddHl _ | Op.LoadHlSpOffset =>
              (register16 after R16.Hl =? value) && bool_decide (flags after = expected_flags)
          | Op.AddSpOffset => (sp after =? value) && bool_decide (flags after = expected_flags)
          | _ => false
          end
      | _, _ => false
      end
  | _, _ => false
  end.

Definition output_matches_transition (row : TraceRow) (operation : Op.Operation)
    (output : Out.ExecutionLookupOutput) : bool :=
  let after := cpu (row_after row) in
  match operation, output with
  | Op.Alu8 AluOp.Compare _, Out.ByteWithFlags _ f | Op.Cb (CbOp.TestBit _) _, Out.ByteWithFlags _ f =>
      bool_decide (flags after = f)
  | Op.Increment8 target, Out.ByteWithFlags value f | Op.Decrement8 target, Out.ByteWithFlags value f
  | Op.Cb _ target, Out.ByteWithFlags value f =>
      bool_decide (flags after = f) && bool_decide (output_operand_value row target = Some value)
  | Op.RotateAccumulator _, Out.ByteWithFlags value f | Op.DecimalAdjust, Out.ByteWithFlags value f
  | Op.Alu8 _ _, Out.ByteWithFlags value f =>
      (reg_a (registers after) =? value) && bool_decide (flags after = f)
  | Op.Cb (CbOp.ResetBit _) target, Out.Byte value | Op.Cb (CbOp.SetBit _) target, Out.Byte value =>
      bool_decide (output_operand_value row target = Some value)
  | Op.RelativeJump (Some _), Out.Predicate taken | Op.Return (Some _), Out.Predicate taken
  | Op.Jump (Some _), Out.Predicate taken | Op.Call (Some _), Out.Predicate taken =>
      eqb (se_branch_taken (row_effects row)) taken
  | _, _ => false
  end.

Definition outputs_match_transition (row : TraceRow) (operation : Op.Operation)
    (records : InstructionLookupRecords) : bool :=
  match operation with
  | Op.AddHl _ => word_add_matches_transition row records true
  | Op.AddSpOffset | Op.LoadHlSpOffset => word_add_matches_transition row records false
  | _ =>
      if recs_count records =? 0 then true
      else match recs_first records with
           | Some record => output_matches_transition row operation (rec_output record)
           | None => false
           end
  end.

(** The loop over the records: every record uses the first record's table. *)
Fixpoint check_records (mismatch : option Tbl.ExecutionLookupTable → RecErr.InstructionLookupRecordError)
    (records : InstructionLookupRecords) (actual_table : option Tbl.ExecutionLookupTable)
    (index n : nat) : rec_result () :=
  match n with
  | O => Ok ()
  | S n =>
      record ← ok_or (records_get records index) (mismatch actual_table);
      table ← ok_or actual_table (mismatch actual_table);
      if negb (bool_decide (query_table (rec_query record) = table)) then
        Err (mismatch (Some (query_table (rec_query record))))
      else check_records mismatch records actual_table (S index) n
  end.

(** [InstructionLookupRecords::from_row] *)
Definition from_row (row : TraceRow) : rec_result InstructionLookupRecords :=
  match se_kind (row_effects row) with
  | SK.Instruction =>
      let o := operation (se_instruction (row_effects row)) in
      let plan := execution_proof_plan o in
      queries ← build_queries row o;
      records ← queries_evaluate queries;
      let actual_table := (λ r, query_table (rec_query r)) <$> recs_first records in
      let mismatch actual :=
        RecErr.TableMismatch (lookup_table plan) (lookup_count plan) actual (recs_count records) in
      if negb (bool_decide (lookup_table plan = actual_table)) || negb (lookup_count plan =? recs_count records)
      then Err (mismatch actual_table)
      else
        _ ← check_records mismatch records actual_table 0 (Z.to_nat (recs_count records));
        if negb (outputs_match_transition row o records) then
          table ← ok_or actual_table (mismatch actual_table);
          Err (RecErr.OutputMismatch table)
        else Ok records
  | _ => Ok records_empty
  end.

(** ** What an instruction computes *)

Definition last_value (k : AccessShape) (l : list bus_access) : option Z := first_value k (rev l).

Definition operand_in (operand : Opd.Operand8) (c : CpuState) (imm data : option Z) : option Z :=
  match operand with
  | Opd.Register r => Some (register8 c r) | Opd.Immediate => imm | Opd.IndirectHl => data
  end.
Definition operand_out (operand : Opd.Operand8) (c : CpuState) (written : option Z) : option Z :=
  match operand with
  | Opd.Register r => Some (register8 c r) | Opd.Immediate => None | Opd.IndirectHl => written
  end.

(** The result of the operations that have a table, from the CPU before, the immediate byte and the
    data byte read, to the CPU after, the data byte written and the branch outcome. *)
Definition computes (o : Op.Operation) (c : CpuState) (imm data : option Z) (taken : bool) (c' : CpuState)
    (written : option Z) : Prop :=
  let carry := f_carry (flags c) in
  let a := reg_a (registers c) in
  let result target (r : ByteResult) := operand_out target c' written = Some (br_value r) ∧ flags c' = br_flags r in
  match o with
  | Op.AddHl source => (register16 c' R16.Hl, flags c') = add_hl (register16 c R16.Hl) (register16 c source) (flags c)
  | Op.AddSpOffset => ∃ v, imm = Some v ∧ (sp c', flags c') = add_signed_to_sp (sp c) v
  | Op.LoadHlSpOffset => ∃ v, imm = Some v ∧ (register16 c' R16.Hl, flags c') = add_signed_to_sp (sp c) v
  | Op.Increment8 t => ∃ v, operand_in t c imm data = Some v ∧ result t (Alu.increment v (flags c))
  | Op.Decrement8 t => ∃ v, operand_in t c imm data = Some v ∧ result t (decrement v (flags c))
  | Op.RotateAccumulator cb =>
      ∃ r, rotate_shift cb a carry false = Some r ∧ result (Opd.Register R8.A) r
  | Op.DecimalAdjust => result (Opd.Register R8.A) (decimal_adjust a (flags c))
  | Op.Alu8 alu t => ∃ v, operand_in t c imm data = Some v ∧
      flags c' = br_flags (apply_alu alu a v (flags c)) ∧
      (alu ≠ AluOp.Compare → reg_a (registers c') = br_value (apply_alu alu a v (flags c)))
  | Op.Cb cb t => ∃ v, operand_in t c imm data = Some v ∧
      match cb with
      | CbOp.TestBit bit => ∃ m, bit_mask bit = Ok m ∧ flags c' = from_bits (Z.land v m =? 0) false true carry
      | CbOp.ResetBit bit => ∃ m, bit_mask bit = Ok m ∧ operand_out t c' written = Some (Z.land v (not8 m))
      | CbOp.SetBit bit => ∃ m, bit_mask bit = Ok m ∧ operand_out t c' written = Some (Z.lor v m)
      | _ => ∃ r, rotate_shift cb v carry true = Some r ∧ result t r
      end
  | Op.RelativeJump (Some k) | Op.Return (Some k) | Op.Jump (Some k) | Op.Call (Some k) =>
      taken = Lookup.condition_holds (flags c) k
  | _ => True
  end.

Section records.
Context `{Sha256}.

Definition computing (o : Op.Operation) (d : ImmediateBytes) (c : CpuState) (taken : bool) (c' : CpuState)
    (l : list bus_access) : Prop :=
  computes o c (first d) (first_value Shape.DataRead l) taken c' (last_value Shape.DataWrite l).

Lemma byte_first d v : byte d = Ok v → first d = Some v.
Proof. apply ok_or_ok. Qed.
Lemma add_hl_bound l r f : is_u16 (add_hl l r f).1.
Proof. apply Z.mod_pos_bound. lia. Qed.
Lemma add_sp_bound l v : is_u16 (add_signed_to_sp l v).1.
Proof. apply Z.mod_pos_bound. lia. Qed.

Lemma set_hl_hl v c : is_u16 v → register16 (set_register16 R16.Hl v c) R16.Hl = v.
Proof. apply be16_hi_lo. Qed.
Lemma condition_same c k : Execute.condition_holds c k = Lookup.condition_holds (flags c) k.
Proof. by destruct k. Qed.

(** Split the operands, run a handler, and keep what must be computed. *)
Ltac computing_run :=
  repeat match goal with
    | o : Opd.Operand8 |- _ => destruct o
    | a : option Cond.Condition |- _ => destruct a
    end;
  eff_run; try discriminate; repeat match goal with E : byte _ = Ok _ |- _ => apply byte_first in E end;
  unfold computing, computes, operand_in, operand_out; cbn [first_value last_value].

Ltac computing_done :=
  split_and?; intros; try match goal with r : R8.Register8 |- _ => destruct r end; first [reflexivity | contradiction].

Lemma control_computes o d c : eff (execute_control o) c (computing o d c).
Proof.
  destruct o; try (eapply eff_mono; [apply control_effect | done]); unfold execute_control.
  all: computing_run. all: computing_done.
Qed.
Lemma load_computes o d c : eff (execute_load o d) c (computing o d c).
Proof.
  destruct o; try (eapply eff_mono; [apply load_effect | done]); unfold execute_load.
  all: computing_run. all: eexists; (split; [eassumption |]).
  match goal with E : add_signed_to_sp ?s ?v = (_, _) |- _ =>
    pose proof (add_sp_bound s v) as Hb; rewrite E in *; f_equal; by apply set_hl_hl end.
Qed.
Lemma alu8_computes o d c : eff (execute_alu8 o d) c (computing o d c).
Proof.
  destruct o; try (eapply eff_mono; [apply alu8_effect | done]); unfold execute_alu8, read_operand, write_operand.
  all: computing_run. all: eexists; (split; [done |]). all: computing_done.
Qed.
Lemma alu16_computes o d c : eff (execute_alu16 o d) c (computing o d c).
Proof.
  destruct o; try (eapply eff_mono; [apply alu16_effect | done]); unfold execute_alu16.
  all: computing_run.
  - match goal with E : add_hl ?l ?r ?f = (_, _) |- _ =>
      pose proof (add_hl_bound l r f) as Hb; rewrite E in *; f_equal; by apply set_hl_hl end.
  - eexists; (split; [eassumption |]). match goal with E : add_signed_to_sp _ _ = _ |- _ => by rewrite E end.
Qed.
Lemma rotate_computes o d c : eff (execute_rotate o d) c (computing o d c).
Proof.
  destruct o; try (eapply eff_mono; [apply rotate_effect | done]); unfold execute_rotate, read_operand, write_operand.
  all: computing_run; match goal with E : ok_or _ _ = Ok _ |- _ => apply ok_or_ok in E end.
  - eexists; (split; [eassumption |]). computing_done.
  - eexists; (split; [done |]).
    match goal with E : rotate_shift ?o _ _ _ = _ |- _ => destruct o; try discriminate E end;
      eexists; (split; [eassumption |]); computing_done.
  - eexists; (split; [done |]).
    match goal with E : rotate_shift ?o _ _ _ = _ |- _ => destruct o; try discriminate E end;
      eexists; (split; [eassumption |]); computing_done.
Qed.
Lemma bit_computes o d c : eff (execute_bit o d) c (computing o d c).
Proof.
  destruct o; try (eapply eff_mono; [apply bit_effect | done]); unfold execute_bit, read_operand, write_operand.
  all: match goal with a : CbOp.CbOperation |- _ => destruct a | _ => idtac end.
  all: computing_run. all: eexists; (split; [done |]). all: eexists; (split; [eassumption |]). all: computing_done.
Qed.
Lemma jump_computes o d c : eff (execute_jump o d) c (computing o d c).
Proof.
  destruct o; try (eapply eff_mono; [apply jump_effect | done]); unfold execute_jump.
  all: computing_run; cbn [is_taken] in *; rewrite ?condition_same in *; congruence || done.
Qed.
Lemma call_return_computes o d c : eff (execute_call_return o d) c (computing o d c).
Proof.
  destruct o; try (eapply eff_mono; [apply call_return_effect | done]); unfold execute_call_return, push_word, pop_word.
  all: computing_run; cbn [is_taken] in *; rewrite ?condition_same in *; congruence || done.
Qed.

Lemma execute_computes i d c : eff (execute i d) c (computing (operation i) d c).
Proof.
  unfold execute. destruct (class i); auto using control_computes, load_computes, alu8_computes,
    alu16_computes, rotate_computes, bit_computes, jump_computes, call_return_computes, eff_fail.
  - destruct (operation i); try (eapply eff_mono; [apply stack_effect | done]); apply eff_fail.
  - destruct (operation i); try (eapply eff_mono; [apply interrupt_effect | done]); apply eff_fail.
  - destruct (operation i); try (eapply eff_mono; [apply low_power_effect | done]); apply eff_fail.
Qed.

(** ** From the handler to the whole row *)

Lemma first_value_app k l l' :
  first_value k (l ++ l') = match first_value k l with Some v => Some v | None => first_value k l' end.
Proof.
  unfold first_value. induction l as [| a l IH]; [done |]. cbn [app find].
  by destruct (bool_decide (shape a = k)).
Qed.
Lemma first_value_none k l : k ∉ map shape l → first_value k l = None.
Proof.
  unfold first_value. induction l as [| a l IH]; [done |]. cbn [map find]. intros [Hne Hl]%not_elem_of_cons.
  rewrite bool_decide_eq_false_2 by congruence. by apply IH.
Qed.
Lemma last_value_app k l l' :
  last_value k (l ++ l') = match last_value k l' with Some v => Some v | None => last_value k l end.
Proof. unfold last_value. by rewrite rev_app_distr, first_value_app. Qed.
Lemma last_value_none k l : k ∉ map shape l → last_value k l = None.
Proof.
  intros Hk. apply first_value_none. by rewrite map_rev, list_elem_of_In, <- in_rev, <- list_elem_of_In.
Qed.

Definition body_computes (s : VmState) (c : CpuState) (r : DecodedInstruction * bool) (c' : CpuState)
    (l : list bus_access) : Prop :=
  ∃ d c1 l1 c2 l2 n, fetched (bool_decide (run_state (cpu s) = Run.HaltBug)) c r.1 c1 l1 ∧
    first d = first_value Shape.Immediate l1 ∧ computing (operation r.1) d c1 r.2 c2 l2 ∧
    (operation r.1 ≠ Op.Load8 Opd.IndirectHl Opd.IndirectHl → op_post (operation r.1) c1 r.2 c2 l2) ∧
    l = l1 ++ l2 ∧ c' = finished s r.1 n c2.

Lemma instruction_body_computes s c : eff (instruction_body s) c (body_computes s c).
Proof.
  unfold instruction_body, apply_delayed_ime.
  apply eff_bind. eapply eff_mono; [apply fetch_and_decode_effect |]. intros [i d] c1 l1 [Hf Hd].
  apply eff_bind. eapply eff_mono; [apply eff_and; [apply execute_effect | apply execute_computes] |].
  intros taken c2 l2 [Hp Hc]. apply eff_bind, cpu_if, eff_bind, add_timing_effect. intros n.
  apply eff_bind, cpu_if, eff_ret. exists d, c1, l1, c2, l2, n. rewrite !app_nil_r. split_and!; auto.
Qed.

Lemma finished_computes s i n o c imm data taken c2 written :
  computes o c imm data taken c2 written → computes o c imm data taken (finished s i n c2) written.
Proof. unfold finished. by destruct (enables_ime _ _), (halt_bug_entry _ _). Qed.

(** What an accepted instruction row computed, read off its accesses. *)
Lemma accepted_computes s input authentication s' eff :
  vm_ok s → Forall witness_ok input → apply s input authentication = Ok (s', eff) →
  se_kind eff = SK.Instruction →
  let l := map access_of (se_bus_events eff) in
  computes (operation (se_instruction eff)) (cpu s) (first_value Shape.Immediate l)
    (first_value Shape.DataRead l) (se_branch_taken eff) (cpu s') (last_value Shape.DataWrite l).
Proof.
  intros Hs Hin Ha Hk l. pose proof (apply_spec s input authentication Hs Hin) as Hst. rewrite Ha in Hst.
  destruct (apply_instruction_out (instruction_body_computes s (cpu s)) Ha Hk) as [_ Hb].
  destruct Hb as (d & c1 & l1 & c2 & l2 & n & (_ & _ & Hshape & _ & Hc1) & Hd & Hc & Hp & Hl & Hc').
  cbn [fst snd] in *. fold l in Hl. specialize (Hp (defined_not_transfer _ (st_defined _ _ _ _ _ Hst))).
  destruct Hp as (Hdata & _). rewrite Hc'. apply finished_computes.
  assert (E1 : first_value Shape.Immediate l = first d).
  { rewrite Hl, first_value_app, Hd, (first_value_none _ l2); [by destruct (first_value _ l1) |].
    rewrite Hdata. unfold data_shapes. rewrite elem_of_app, !elem_of_replicate. intuition discriminate. }
  assert (E2 : first_value Shape.DataRead l = first_value Shape.DataRead l2).
  { rewrite Hl, first_value_app, (first_value_none _ l1); [done |].
    rewrite Hshape. unfold code_shapes. rewrite elem_of_app, !elem_of_replicate. intuition discriminate. }
  assert (E3 : last_value Shape.DataWrite l = last_value Shape.DataWrite l2).
  { rewrite Hl, last_value_app, (last_value_none _ l1); [by destruct (last_value _ l2) |].
    rewrite Hshape. unfold code_shapes. rewrite elem_of_app, !elem_of_replicate. intuition discriminate. }
  rewrite E1, E2, E3. unfold computing in Hc. rewrite Hc1 in Hc.
  by destruct (bool_decide (run_state (cpu s) = Run.HaltBug)).
Qed.

(** ** The events of a row as accesses *)

Lemma find_map {A B} (g : A → B) (f : B → bool) l : find f (map g l) = g <$> find (λ a, f (g a)) l.
Proof. induction l as [| a l IH]; [done |]. cbn. by destruct (f (g a)). Qed.
Lemma find_ext {A} (f g : A → bool) l : (∀ a, f a = g a) → find f l = find g l.
Proof. intros Hfg. induction l as [| a l IH]; [done |]. cbn. by rewrite Hfg, IH. Qed.

Lemma find_value_first (f : BusEventKind → bool) k events :
  (∀ e, f (event_kind e) = bool_decide (shape_of e = k)) → find_value f events = first_value k (map access_of events).
Proof.
  intros Hf. unfold find_value, first_value. rewrite find_map, (find_ext _ _ _ Hf).
  by destruct (find _ events).
Qed.

Lemma immediate_value_first row :
  immediate_value row =
  ok_or (first_value Shape.Immediate (map access_of (se_bus_events (row_effects row)))) RecErr.MissingOperand.
Proof. unfold immediate_value. by rewrite (find_value_first _ Shape.Immediate) by (by intros []). Qed.
Lemma operand_value_in row t v :
  let l := map access_of (se_bus_events (row_effects row)) in
  operand_in t (cpu (row_before row)) (first_value Shape.Immediate l) (first_value Shape.DataRead l) = Some v →
  operand_value row t = Ok v.
Proof.
  intros l. destruct t; cbn [operand_in operand_value]; [by intros [= ->] | |].
  - rewrite immediate_value_first. fold l. by intros ->.
  - rewrite (find_value_first _ Shape.DataRead) by (by intros []). fold l. by intros ->.
Qed.
Lemma output_operand_out row t :
  output_operand_value row t =
  operand_out t (cpu (row_after row)) (last_value Shape.DataWrite (map access_of (se_bus_events (row_effects row)))).
Proof.
  destruct t; cbn [operand_out output_operand_value]; [done | done |]. unfold last_value.
  by rewrite (find_value_first _ Shape.DataWrite), map_rev by (by intros []).
Qed.

(** ** The records of a row that computes its operation *)

Definition record_sound (o : Op.Operation) (rec : InstructionLookupRecord) : Prop :=
  query_ok (rec_query rec) ∧ evaluate (rec_query rec) = Ok (rec_output rec) ∧
  lookup_table (execution_proof_plan o) = Some (query_table (rec_query rec)).
Definition records_sound (r : TraceRow) : Prop :=
  let o := operation (se_instruction (row_effects r)) in
  ∃ recs, from_row r = Ok recs ∧ recs_count recs = lookup_count (execution_proof_plan o) ∧
    (∀ index, is_Some (records_get recs index) ↔ Z.of_nat index < recs_count recs) ∧
    ∀ index rec, records_get recs index = Some rec → record_sound o rec.

Definition is_word_add (o : Op.Operation) : bool :=
  match o with Op.AddHl _ | Op.AddSpOffset | Op.LoadHlSpOffset => true | _ => false end.

Lemma check_records_same mismatch recs t n : ∀ index,
  (∀ k, (index <= k < index + n)%nat →
     ∃ rec, records_get recs k = Some rec ∧ query_table (rec_query rec) = t) →
  check_records mismatch recs (Some t) index n = Ok ().
Proof.
  induction n as [| n IH]; intros index Hall; [done |]. cbn [check_records].
  destruct (Hall index) as (rec & -> & Ht); [lia |]. cbn [ok_or]. rewrite !bind_of_ok.
  rewrite bool_decide_eq_true_2 by done. cbn [negb]. apply IH. intros k Hk. apply Hall. lia.
Qed.

(** A record set holds exactly its count of records. *)
Lemma get_count recs :
  recs = records_empty ∨ (∃ a, recs = records_one a) ∨ (∃ a b, recs = records_two a b) →
  ∀ index, is_Some (records_get recs index) ↔ Z.of_nat index < recs_count recs.
Proof.
  intros Hr index. unfold is_Some. destruct Hr as [-> | [[a ->] | (a & b & ->)]];
    destruct index as [| [| index]]; cbn; split; try lia; try (by intros []); eauto.
Qed.

Section row.
Context (r : TraceRow).
#[local] Abbreviation o := (operation (se_instruction (row_effects r))).
Hypothesis Hkind : se_kind (row_effects r) = SK.Instruction.

Lemma no_record : build_queries r o = Ok queries_empty → execution_proof_plan o = Plan.GlueOnly →
  is_word_add o = false → records_sound r.
Proof.
  intros Hq Hp Hw. exists records_empty. rewrite Hp. split; [| split_and!; [done | apply (get_count records_empty); auto | by intros [| [|]]]].
  unfold from_row. rewrite Hkind, Hq, Hp. cbn. unfold outputs_match_transition. by destruct o.
Qed.

Lemma one_record q out :
  build_queries r o = Ok (queries_one q) → evaluate q = Ok out → query_ok q →
  execution_proof_plan o = Plan.Lookup (query_table q) → is_word_add o = false →
  output_matches_transition r o out = true → records_sound r.
Proof.
  intros Hq He Hok Hp Hw Hm. exists (records_one (MkRecord q out)). rewrite Hp.
  split; [| split_and!; [done | apply get_count; eauto |]].
  - unfold from_row. rewrite Hkind, Hq, bind_of_ok. unfold queries_evaluate. cbn [q_first q_second q_count queries_one].
    change (1 =? 1) with true. rewrite He, map_err_ok, !bind_of_ok. cbn [recs_first records_one recs_count fmap option_fmap option_map rec_query].
    rewrite Hp. cbn [lookup_table lookup_count]. rewrite bool_decide_eq_true_2 by done. cbn [negb orb Z.eqb Pos.eqb].
    rewrite check_records_same, bind_of_ok by (intros [|] Hk; [by eexists | cbn in Hk; lia]). unfold outputs_match_transition.
    destruct o; try discriminate Hw; cbn in Hm |- *; by rewrite Hm.
  - intros [| [| index]] rec [= <-]. unfold record_sound. by rewrite Hp.
Qed.

Lemma two_records q1 q2 out1 out2 :
  build_queries r o = Ok (queries_two q1 q2) → evaluate q1 = Ok out1 → evaluate q2 = Ok out2 →
  query_ok q1 → query_ok q2 → query_table q1 = Tbl.Add8 → query_table q2 = Tbl.Add8 →
  execution_proof_plan o = Plan.DoubleLookup Tbl.Add8 →
  outputs_match_transition r o (records_two (MkRecord q1 out1) (MkRecord q2 out2)) = true → records_sound r.
Proof.
  intros Hq He1 He2 Hok1 Hok2 Ht1 Ht2 Hp Hm. exists (records_two (MkRecord q1 out1) (MkRecord q2 out2)). rewrite Hp.
  split; [| split_and!; [done | apply get_count; eauto |]].
  - unfold from_row. rewrite Hkind, Hq, bind_of_ok. unfold queries_evaluate. cbn [q_first q_second q_count queries_two].
    change (2 =? 2) with true. rewrite He1, He2, !map_err_ok, !bind_of_ok.
    cbn [recs_first records_two recs_count fmap option_fmap option_map rec_query].
    rewrite Hp. cbn [lookup_table lookup_count]. rewrite Ht1, bool_decide_eq_true_2 by done. cbn [negb orb Z.eqb Pos.eqb].
    rewrite check_records_same, bind_of_ok by (intros [| [|]] Hk; [by eexists | by eexists | cbn in Hk; lia]).
    by rewrite Hm.
  - intros [| [| index]] rec [= <-]; unfold record_sound; cbn [rec_query rec_output];
      rewrite Hp, ?Ht1, ?Ht2; done.
Qed.
End row.

(** ** Evaluation of the queries *)

Definition carry_flags (carry : bool) : Flags := from_bits false false false carry.
Lemma evaluate_increment v f : evaluate (increment8 v (f_carry f)) = Ok (with_flags (Alu.increment v f)).
Proof.
  change (Ok (with_flags (Alu.increment v (carry_flags (f_carry f)))) = Ok (with_flags (Alu.increment v f)) :> lookup_result _).
  unfold Alu.increment, carry_flags. by autorewrite with flags.
Qed.
Lemma evaluate_decrement v f : evaluate (decrement8 v (f_carry f)) = Ok (with_flags (decrement v f)).
Proof.
  change (Ok (with_flags (decrement v (carry_flags (f_carry f)))) = Ok (with_flags (decrement v f)) :> lookup_result _).
  unfold decrement, carry_flags. by autorewrite with flags.
Qed.
Lemma evaluate_add8 l r k : evaluate (add8 l r k) = Ok (with_flags (add l r k)).
Proof. by destruct k. Qed.
Lemma evaluate_subtract8 l r k : evaluate (subtract8 l r k) = Ok (with_flags (subtract l r k)).
Proof. by destruct k. Qed.

Lemma binary8_ok t l r k :
  is_u8 l → is_u8 r → t = Tbl.Add8 ∨ t = Tbl.Subtract8 ∨ (k = false ∧ (t = Tbl.And8 ∨ t = Tbl.Xor8 ∨ t = Tbl.Or8)) →
  query_ok (binary8 t l r k).
Proof. by intros. Qed.

Lemma word_add_row (r : TraceRow) left right_low right_high :
  let o := operation (se_instruction (row_effects r)) in
  let '(v, low, high) := byte_pair_add (lo8 left) (hi8 left) right_low right_high in
  se_kind (row_effects r) = SK.Instruction → is_u16 left → is_u8 right_low → is_u8 right_high →
  build_queries r o =
    Ok (queries_two (add8 (lo8 left) right_low false) (add8 (hi8 left) right_high (255 <? lo8 left + right_low))) →
  execution_proof_plan o = Plan.DoubleLookup Tbl.Add8 →
  (outputs_match_transition r o
     (records_two (MkRecord (add8 (lo8 left) right_low false) (with_flags low))
        (MkRecord (add8 (hi8 left) right_high (f_carry (br_flags low))) (with_flags high))) = true) →
  records_sound r.
Proof.
  intros o. unfold byte_pair_add. cbv zeta. intros Hk Hl Hrl Hrh Hq Hp Hm.
  assert (Hc : f_carry (br_flags (add (lo8 left) right_low false)) = (255 <? lo8 left + right_low)).
  { rewrite add_arith by auto with bounds. cbn. autorewrite with flags. rewrite Z.add_0_r. zlia. }
  rewrite Hc in Hm. eapply (two_records r Hk); [exact Hq | apply evaluate_add8 | apply evaluate_add8 | | | | | exact Hp | exact Hm];
    try done; apply binary8_ok; auto with bounds.
Qed.

Lemma operand_in_bound t c imm data v :
  cpu_ok c → (∀ v, imm = Some v → is_u8 v) → (∀ v, data = Some v → is_u8 v) → operand_in t c imm data = Some v → is_u8 v.
Proof. intros Hc Hi Hd. destruct t; cbn; [intros [= <-]; auto with bounds | apply Hi | apply Hd]. Qed.

Lemma bit_mask_bit bit m : bit_mask bit = Ok m → bit < 8 ∧ m = w8 (Z.shiftl 1 bit).
Proof. unfold bit_mask. destruct (Z.ltb_spec bit 8); [by intros [= <-] | done]. Qed.
Lemma bit8_fits t v bit k : bit < 8 → bit8 t v bit k = Ok (Query.Bit8 t v bit k).
Proof. intros Hb. unfold bit8. by rewrite (proj2 (Z.leb_gt _ _)) by lia. Qed.

(** An instruction row that computes its operation on bytes. *)
Section computed.
Context (r : TraceRow).
#[local] Abbreviation o := (operation (se_instruction (row_effects r))).
#[local] Abbreviation before := (cpu (row_before r)).
#[local] Abbreviation after := (cpu (row_after r)).
#[local] Abbreviation accesses := (map access_of (se_bus_events (row_effects r))).
#[local] Abbreviation row_computes o :=
  (computes o before (first_value Shape.Immediate accesses) (first_value Shape.DataRead accesses)
     (se_branch_taken (row_effects r)) after (last_value Shape.DataWrite accesses)).
Hypothesis Hkind : se_kind (row_effects r) = SK.Instruction.
Hypothesis Hcpu : cpu_ok before.
Hypothesis Hbytes : ∀ k v, first_value k accesses = Some v → is_u8 v.

Lemma operand_read t v :
  operand_in t before (first_value Shape.Immediate accesses) (first_value Shape.DataRead accesses) = Some v →
  operand_value r t = Ok v ∧ is_u8 v.
Proof.
  intros Hv. split; [by apply operand_value_in |]. by eapply operand_in_bound; [| apply Hbytes | apply Hbytes | exact Hv].
Qed.
Lemma immediate_read v : first_value Shape.Immediate accesses = Some v → immediate_value r = Ok v ∧ is_u8 v.
Proof. intros Hv. rewrite immediate_value_first, Hv. split; [done | by apply (Hbytes Shape.Immediate)]. Qed.

Lemma word_matches q1 q2 low high (preserve_zero : bool) result :
  (o = Op.AddSpOffset ∧ result = sp after ∨
   (o = Op.LoadHlSpOffset ∨ ∃ s, o = Op.AddHl s) ∧ result = register16 after R16.Hl) →
  result = be16 (br_value high) (br_value low) →
  flags after = (if preserve_zero then
      from_bits (f_zero (flags before)) false (f_half_carry (br_flags high)) (f_carry (br_flags high))
    else from_bits false false (f_half_carry (br_flags low)) (f_carry (br_flags low))) →
  word_add_matches_transition r (records_two (MkRecord q1 (with_flags low)) (MkRecord q2 (with_flags high)))
    preserve_zero = true.
Proof.
  intros Ho Hv Hf. unfold word_add_matches_transition. cbn [records_get records_two recs_first recs_second rec_output with_flags].
  cbv zeta. rewrite <- Hf, <- Hv.
  destruct Ho as [[-> ->] | [[-> | [s ->]] ->]]; rewrite Z.eqb_refl; by rewrite bool_decide_eq_true_2.
Qed.

Lemma add_hl_records source : o = Op.AddHl source → row_computes (Op.AddHl source) → records_sound r.
Proof.
  intros Eo Hcomp. cbn [computes] in Hcomp.
  pose proof (register16_bound before R16.Hl Hcpu) as Hl. pose proof (register16_bound before source Hcpu) as Hr.
  pose proof (add_hl_by_bytes _ _ (flags before) Hl Hr) as Hadd.
  pose proof (word_add_row r (register16 before R16.Hl) (lo8 (register16 before source)) (hi8 (register16 before source))) as Hrow.
  cbv zeta in Hrow. destruct (byte_pair_add _ _ _ _) as [[v low] high] eqn:E. rewrite Hadd in Hcomp.
  apply pair_equal_spec in Hcomp as [Hv Hflags]. assert (Ev : v = be16 (br_value high) (br_value low)) by (by injection E as <- <- <-). clear E. apply Hrow; auto with bounds; rewrite Eo; [done | done |].
  cbn [outputs_match_transition]. apply (word_matches _ _ _ _ _ (register16 after R16.Hl)); [eauto | by rewrite Hv, Ev | done].
Qed.

Lemma add_sp_records (result : Z) :
  o = Op.AddSpOffset ∧ result = sp after ∨ o = Op.LoadHlSpOffset ∧ result = register16 after R16.Hl →
  (∃ v, first_value Shape.Immediate accesses = Some v ∧ (result, flags after) = add_signed_to_sp (sp before) v) →
  records_sound r.
Proof.
  intros Eo (b & Hb & Hcomp). destruct (immediate_read b Hb) as [Hi Hb8].
  pose proof (ok_sp _ Hcpu) as Hsp. pose proof (add_signed_to_sp_by_bytes _ _ Hsp Hb8) as Hadd.
  assert (Hx : is_u8 (sign_extension b)) by (unfold sign_extension; destruct (tst b 128); lia).
  pose proof (word_add_row r (sp before) b (sign_extension b)) as Hrow. cbv zeta in Hrow.
  destruct (byte_pair_add _ _ _ _) as [[v low] high] eqn:E. destruct Hadd as [Hadd _]. rewrite Hadd in Hcomp.
  apply pair_equal_spec in Hcomp as [Hv Hflags]. assert (Ev : v = be16 (br_value high) (br_value low)) by (by injection E as <- <- <-). clear E.
  assert (Hq : signed_byte_add_queries (sp before) b = queries_two (add8 (lo8 (sp before)) b false)
    (add8 (hi8 (sp before)) (sign_extension b) (255 <? lo8 (sp before) + b))).
  { unfold signed_byte_add_queries, sign_extension, tst. cbn. by destruct (Z.land b 128 =? 0). }
  apply Hrow; auto.
  - destruct Eo as [[-> _] | [-> _]]; cbn [build_queries]; by rewrite Hi, bind_of_ok, Hq.
  - by destruct Eo as [[-> _] | [-> _]].
  - assert (Hw : word_add_matches_transition r (records_two (MkRecord (add8 (lo8 (sp before)) b false) (with_flags low))
      (MkRecord (add8 (hi8 (sp before)) (sign_extension b) (f_carry (br_flags low))) (with_flags high))) false = true).
    { apply (word_matches _ _ _ _ _ result); [tauto | by rewrite Hv, Ev | done]. }
    by destruct Eo as [[-> _] | [-> _]].
Qed.

(** A row with one query: its output and the agreement of the row with it. *)
Ltac single q out Eo :=
  apply (one_record r Hkind q out); rewrite ?Eo; cbn [build_queries output_matches_transition is_word_add].

Lemma increment_records t : o = Op.Increment8 t → row_computes (Op.Increment8 t) → records_sound r.
Proof.
  intros Eo (v & [Hv Hb]%operand_read & Hw & Hf).
  single (increment8 v (f_carry (flags before))) (with_flags (Alu.increment v (flags before))) Eo; try done.
  - by rewrite Hv, bind_of_ok.
  - apply evaluate_increment.
  - by split; [| left].
  - cbn [with_flags]. rewrite output_operand_out, Hw, Hf. by rewrite !bool_decide_eq_true_2.
Qed.
Lemma decrement_records t : o = Op.Decrement8 t → row_computes (Op.Decrement8 t) → records_sound r.
Proof.
  intros Eo (v & [Hv Hb]%operand_read & Hw & Hf).
  single (decrement8 v (f_carry (flags before))) (with_flags (decrement v (flags before))) Eo; try done.
  - by rewrite Hv, bind_of_ok.
  - apply evaluate_decrement.
  - by split; [| right].
  - cbn [with_flags]. rewrite output_operand_out, Hw, Hf. by rewrite !bool_decide_eq_true_2.
Qed.

Definition alu_query (alu : AluOp.AluOperation) (left right : Z) (carry : bool) : ExecutionLookupQuery :=
  match alu with
  | AluOp.Add => add8 left right false
  | AluOp.AddCarry => add8 left right carry
  | AluOp.Subtract | AluOp.Compare => subtract8 left right false
  | AluOp.SubtractCarry => subtract8 left right carry
  | AluOp.And => and8 left right
  | AluOp.Xor => xor8 left right
  | AluOp.Or => or8 left right
  end.
Lemma alu_query_evaluate alu left right f :
  evaluate (alu_query alu left right (f_carry f)) = Ok (with_flags (apply_alu alu left right f)).
Proof. destruct alu; cbn [alu_query apply_alu]; first [apply evaluate_add8 | apply evaluate_subtract8 | done]. Qed.

Lemma alu_records alu t : o = Op.Alu8 alu t → row_computes (Op.Alu8 alu t) → records_sound r.
Proof.
  intros Eo (v & [Hv Hb]%operand_read & Hf & Ha). pose proof (a_bound _ Hcpu) as Hab.
  single (alu_query alu (reg_a (registers before)) v (f_carry (flags before)))
    (with_flags (apply_alu alu (reg_a (registers before)) v (flags before))) Eo; try done.
  - by rewrite Hv, bind_of_ok.
  - apply alu_query_evaluate.
  - destruct alu; apply binary8_ok; auto; tauto.
  - by destruct alu.
  - cbn [with_flags]. rewrite Hf. destruct (decide (alu = AluOp.Compare)) as [-> | Hne];
      [by rewrite bool_decide_eq_true_2 |].
    rewrite (Ha Hne), Z.eqb_refl, bool_decide_eq_true_2 by done. by destruct alu.
Qed.

Lemma rotate_query cb v carry zero res :
  rotate_shift cb v carry zero = Some res → is_u8 v →
  ∃ q, rotate_shift8 v cb carry zero = Ok q ∧ query_table q = Tbl.RotateShift8 ∧ query_ok q ∧
    evaluate q = Ok (with_flags res).
Proof.
  intros Hr Hb. destruct cb; try discriminate Hr; eexists; (split; [reflexivity |]);
    (split; [done |]); (split; [done |]); cbn [evaluate as_cb from_cb]; by rewrite Hr.
Qed.

Lemma rotate_accumulator_records cb :
  o = Op.RotateAccumulator cb → row_computes (Op.RotateAccumulator cb) → records_sound r.
Proof.
  intros Eo (res & Hr & Hw & Hf). pose proof (a_bound _ Hcpu) as Hab.
  destruct (rotate_query _ _ _ _ _ Hr Hab) as (q & Hq & Ht & Hok & He).
  single q (with_flags res) Eo; try done.
  - by rewrite Hq, map_err_ok, bind_of_ok.
  - by rewrite Ht.
  - cbn [with_flags]. injection Hw as Hw. cbn in Hw. rewrite Hf, Hw, Z.eqb_refl. by rewrite bool_decide_eq_true_2.
Qed.

Lemma decimal_records : o = Op.DecimalAdjust → row_computes Op.DecimalAdjust → records_sound r.
Proof.
  intros Eo (Hw & Hf). pose proof (a_bound _ Hcpu) as Hab. pose proof (ok_flags _ Hcpu) as Hfl.
  single (decimal_adjust8 (reg_a (registers before)) (flags before))
    (with_flags (decimal_adjust (reg_a (registers before)) (flags before))) Eo; try done.
  cbn [with_flags]. injection Hw as Hw. cbn in Hw. rewrite Hf, Hw, Z.eqb_refl. by rewrite bool_decide_eq_true_2.
Qed.

Lemma condition_records k :
  (o = Op.RelativeJump (Some k) ∨ o = Op.Return (Some k) ∨ o = Op.Jump (Some k) ∨ o = Op.Call (Some k)) →
  se_branch_taken (row_effects r) = Lookup.condition_holds (flags before) k → records_sound r.
Proof.
  intros Eo Ht. pose proof (ok_flags _ Hcpu) as Hfl.
  apply (one_record r Hkind (condition_query k (flags before)) (Out.Predicate (Lookup.condition_holds (flags before) k)));
    try done; try (by destruct Eo as [-> | [-> | [-> | ->]]]).
  destruct Eo as [-> | [-> | [-> | ->]]]; cbn; rewrite Ht; apply eqb_reflx.
Qed.

Lemma cb_build cb t v q :
  operand_value r t = Ok v → 
  (match cb with
   | CbOp.TestBit bit => test_bit8 v bit (f_carry (flags before))
   | CbOp.ResetBit bit => reset_bit8 v bit
   | CbOp.SetBit bit => set_bit8 v bit
   | rotate => rotate_shift8 v rotate (f_carry (flags before)) true
   end) = Ok q →
  build_queries r (Op.Cb cb t) = Ok (queries_one q).
Proof.
  intros Hv Hq. cbn [build_queries]. unfold cb_query. by rewrite Hv, bind_of_ok, Hq, map_err_ok, bind_of_ok.
Qed.

Lemma test_bit_records bit t :
  o = Op.Cb (CbOp.TestBit bit) t → 0 <= bit → row_computes (Op.Cb (CbOp.TestBit bit) t) → records_sound r.
Proof.
  intros Eo H0 (v & [Hv Hb]%operand_read & m & [H8 ->]%bit_mask_bit & Hf).
  apply (one_record r Hkind (Query.Bit8 Tbl.TestBit8 v bit (f_carry (flags before)))
    (Out.ByteWithFlags v (flags after))); rewrite ?Eo; try done.
  - apply (cb_build _ _ v _ Hv). by apply bit8_fits.
  - by rewrite Hf.
  - split_and!; auto; lia.
  - cbn. by rewrite bool_decide_eq_true_2.
Qed.

Lemma write_bit_records cb t bit f :
  o = Op.Cb cb t → 0 <= bit →
  (cb = CbOp.ResetBit bit ∧ f = (λ v m, Z.land v (not8 m)) ∨ cb = CbOp.SetBit bit ∧ f = Z.lor) →
  (∃ v, operand_in t before (first_value Shape.Immediate accesses) (first_value Shape.DataRead accesses) = Some v ∧
     ∃ m, bit_mask bit = Ok m ∧ operand_out t after (last_value Shape.DataWrite accesses) = Some (f v m)) →
  records_sound r.
Proof.
  intros Eo H0 Hcb (v & [Hv Hb]%operand_read & m & [H8 ->]%bit_mask_bit & Hw).
  apply (one_record r Hkind (Query.Bit8 (cb_lookup_table cb) v bit false) (Out.Byte (f v (w8 (Z.shiftl 1 bit)))));
    rewrite ?Eo; try done.
  - apply (cb_build _ _ v _ Hv). by destruct Hcb as [[-> _] | [-> _]]; apply bit8_fits.
  - by destruct Hcb as [[-> ->] | [-> ->]].
  - split; [done |]. split; [lia |]. right. split; [done |]. destruct Hcb as [[-> _] | [-> _]]; auto.
  - destruct Hcb as [[-> _] | [-> _]]; cbn; rewrite output_operand_out, Hw; by rewrite bool_decide_eq_true_2.
Qed.

Lemma rotate_records cb t res :
  o = Op.Cb cb t → is_bit cb = false →
  (∃ v, operand_in t before (first_value Shape.Immediate accesses) (first_value Shape.DataRead accesses) = Some v ∧
     rotate_shift cb v (f_carry (flags before)) true = Some res) →
  operand_out t after (last_value Shape.DataWrite accesses) = Some (br_value res) → flags after = br_flags res →
  records_sound r.
Proof.
  intros Eo Hcb (v & [Hv Hb]%operand_read & Hr) Hw Hf.
  destruct (rotate_query _ _ _ _ _ Hr Hb) as (q & Hq & Ht & Hok & He).
  apply (one_record r Hkind q (with_flags res)); rewrite ?Eo; try done.
  - apply (cb_build _ _ v _ Hv). by destruct cb.
  - cbn. rewrite Ht. by destruct cb.
  - cbn [with_flags]. destruct cb; try discriminate Hcb; cbn; rewrite output_operand_out, Hw, Hf;
      by rewrite !bool_decide_eq_true_2.
Qed.

Lemma cb_records cb t :
  o = Op.Cb cb t → operands_ok o = true → row_computes (Op.Cb cb t) → records_sound r.
Proof.
  intros Eo Hok Hcomp. rewrite Eo in Hok. destruct cb as [| | | | | | | | bit | bit | bit];
    try (destruct Hcomp as (v & Hv & res & Hr & Hw & Hf);
      apply (rotate_records _ t res Eo eq_refl); [by exists v | done | done]).
  all: assert (0 <= bit) by (destruct t; cbn in Hok; lia || discriminate Hok).
  - by eapply test_bit_records.
  - by eapply (write_bit_records _ t bit _ Eo); [| left; by split | exact Hcomp].
  - by eapply (write_bit_records _ t bit _ Eo); [| right; by split | exact Hcomp].
Qed.

Lemma computed_records : operands_ok o = true → row_computes o → records_sound r.
Proof.
  intros Hok Hcomp. destruct o eqn:Eo; try (apply no_record; rewrite ?Eo; done).
  all: try match goal with k : option Cond.Condition |- _ =>
    destruct k; [| apply no_record; rewrite ?Eo; done] end.
  - by eapply condition_records; [rewrite Eo; auto |].
  - by eapply add_hl_records.
  - by eapply increment_records.
  - by eapply decrement_records.
  - by eapply rotate_accumulator_records.
  - by apply decimal_records.
  - by eapply alu_records.
  - by eapply condition_records; [rewrite Eo; auto |].
  - by eapply (add_sp_records (sp after)); [auto |].
  - by eapply (add_sp_records (register16 after R16.Hl)); [auto |].
  - by eapply condition_records; [rewrite Eo; auto |].
  - by eapply condition_records; [rewrite Eo; auto |].
  - eapply cb_records; [done | by rewrite Eo | done].
Qed.
End computed.

Lemma record_entry oper rec :
  record_sound oper rec →
  let q := rec_query rec in
  0 <= lookup_index q < row_count (query_table q) ∧
  evaluate_execution_table_entry (query_table q) (lookup_index q) = Ok (packed_output (rec_output rec)).
Proof.
  intros (Hok & He & _) q. split; [rewrite row_count_pow2; by apply lookup_index_bound |].
  unfold evaluate_execution_table_entry. subst q. rewrite from_index_lookup_index by done.
  by rewrite bind_of_ok, He, bind_of_ok.
Qed.
End records.

Global Instance step_kind_eq_dec : EqDecision StepKind.
Proof. solve_decision. Defined.

Section claims.
Context `{Sha256}.

(** C12. Every accepted row has its execution-lookup records. For a row that the step relation accepted
    from a well-formed state, [from_row] never fails: no operand is missing from the bus events, the
    queries built from the row are exactly as many, and in exactly the table, as the static plan of the
    instruction says, and their outputs agree with the registers, flags, written byte and branch of
    the row. Every record is an entry of its table: its index is in the table's range and the table
    holds its packed output there. A machine-event row has no record. *)
Theorem rows_have_records authentication r :
  vm_ok (row_before r) → accepted authentication r →
  ∃ recs, from_row r = Ok recs ∧
    let plan := execution_proof_plan (operation (se_instruction (row_effects r))) in
    recs_count recs =
      (if decide (se_kind (row_effects r) = SK.Instruction) then lookup_count plan else 0) ∧
    (∀ index, is_Some (records_get recs index) ↔ Z.of_nat index < recs_count recs) ∧
    ∀ index rec, records_get recs index = Some rec →
      let q := rec_query rec in
      lookup_table plan = Some (query_table q) ∧ 0 <= lookup_index q < row_count (query_table q) ∧
      evaluate_execution_table_entry (query_table q) (lookup_index q) = Ok (packed_output (rec_output rec)).
Proof.
  intros Hs (input & Hin & Ha). destruct (decide (se_kind (row_effects r) = SK.Instruction)) as [Hk | Hk].
  2: { exists records_empty. split; [unfold from_row; by destruct (se_kind (row_effects r)) |].
    split; [done |]. split; [apply get_count; auto | by intros [| [|]]]. }
  pose proof (apply_spec _ _ authentication Hs Hin) as Hst. rewrite Ha in Hst.
  assert (Hsound : records_sound r).
  { destruct (decide (operation (se_instruction (row_effects r)) = Op.PrefixCb)) as [Ep | Ep];
      [apply no_record; by rewrite ?Ep |].
    apply computed_records; [done | apply Hs | | | by eapply accepted_computes].
    - intros k v Hv. pose proof (st_events _ _ _ _ _ Hst) as Hev. rewrite Forall_forall in Hev.
      apply fmap_Some in Hv as (a & [Hl _]%find_some & ->). apply list_elem_of_In, list_elem_of_fmap in Hl as (e & -> & He).
      apply (eg_value _ _ (Hev e He)).
    - pose proof (defined_executable _ (st_defined _ _ _ _ _ Hst) Ep) as He. unfold executable in He.
      by destruct (operands_ok _). }
  destruct Hsound as (recs & Hr & Hc & Hg & Hall). exists recs. split; [done |]. split; [done |]. split; [done |].
  intros index rec Hrec. specialize (Hall index rec Hrec). split; [apply Hall | by eapply record_entry].
Qed.
End claims.

Section witnesses.
#[local] Existing Instance const_sha256.

(** [LD A,7] then [ADD A,A] from the clean initial state. *)
Definition add_rows : list TraceRow := rows_of demo_start [[demo_rom 0 0x3e; demo_rom 1 7]; [demo_rom 2 0x87]].

Lemma add_inputs_ok : inputs_ok [[demo_rom 0 0x3e; demo_rom 1 7]; [demo_rom 2 0x87]].
Proof.
  pose proof placeholder_ok.
  repeat (apply Forall_cons; split); try apply Forall_nil; try done; split; try done; cbn; lia.
Qed.

Lemma add_row : ∃ r s, add_rows = [r; s] ∧ vm_ok (row_before s) ∧ accepted Auth.Merkle s.
Proof.
  pose proof (rows_of_accepted _ demo_start add_inputs_ok) as Ha. fold add_rows in Ha.
  assert (Hl : length add_rows = 2%nat) by reflexivity. assert (Hlink : linked add_rows).
  { apply (proj1 (check_rows_linked add_rows 0)). vm_compute. reflexivity. }
  assert (Hh : row_before <$> head add_rows = Some demo_start) by reflexivity.
  destruct add_rows as [| r [| s [|]]]; try discriminate Hl. exists r, s. split; [done |].
  apply Forall_cons in Ha as [Hr [Hs _]%Forall_cons]. split; [| done]. destruct Hlink as [<- _].
  injection Hh as Hh. eapply accepted_cycles; [| exact Hr]. rewrite Hh. apply demo_start_ok.
Qed.

Lemma rows_have_records_witness :
  ∃ r recs, from_row r = Ok recs ∧ accepted Auth.Merkle r ∧
    let plan := execution_proof_plan (operation (se_instruction (row_effects r))) in
    recs_count recs =
      (if decide (se_kind (row_effects r) = SK.Instruction) then lookup_count plan else 0) ∧
    (∀ index, is_Some (records_get recs index) ↔ Z.of_nat index < recs_count recs) ∧
    ∀ index rec, records_get recs index = Some rec →
      let q := rec_query rec in
      lookup_table plan = Some (query_table q) ∧ 0 <= lookup_index q < row_count (query_table q) ∧
      evaluate_execution_table_entry (query_table q) (lookup_index q) = Ok (packed_output (rec_output rec)).
Proof.
  destruct add_row as (_ & r & _ & Hs & Ha). exists r.
  destruct (rows_have_records Auth.Merkle r Hs Ha) as (recs & Hr & Hall). exists recs. auto.
Defined.

(** The record of the second row: 7 + 7 in the addition table. *)
Example add_record :
  (match add_rows with
   | [_; r] => match from_row r with Ok recs => rec_query <$> recs_first recs | Err _ => None end
   | _ => None
   end) = Some (Query.Binary8 Tbl.Add8 7 7 false).
Proof. vm_compute. reflexivity. Qed.
End witnesses.
