(* ===== verification/Blocks.v ===== *)
(** * The basic-block planner (crates/zksm83-trace/src/block.rs)

    Validated rows are cut into spans of at most four instructions that share six device cycles and
    five bus slots; a machine event is a span of its own. Packing moves the rows into blocks and
    assigns every instruction its lane, its cycle slots and its bus slots. *)
From S2P Require Import Prelude IsaTypes Metadata Decode Flags.
From S2P Require Import Commitment Logs Device State Bus Execute Transition Access StepLogic StepTrace Step.
From S2P Require Import Effects Conform Runs Trace Records.

Definition BASIC_BLOCK_INSTRUCTION_BOUND : nat := 4.
Definition BASIC_BLOCK_M_CYCLE_BOUND : nat := 6.
Definition BASIC_BLOCK_BUS_EVENT_BOUND : nat := 5.

Module Cut.
Inductive BasicBlockCut :=
| InstructionBound | CycleBound | BusEventBound | EndOfTrace | ControlFlow | LowPower | InterruptControl
| InterruptPending | DeviceIo | PpuSensitiveMemory | ProtocolIo | MapperChange | MutableExecution
| MachineEvent.
End Cut.
Abbreviation BasicBlockCut := Cut.BasicBlockCut.

(** Row indices and counts are positions in a vector ([nat]); resource counts are machine words ([Z]). *)
Record BasicBlockSpan := MkSpan {
  span_row_start : nat; span_row_count : nat; span_instruction_count : nat;
  span_m_cycle_count : Z; span_bus_event_count : Z; span_cut : BasicBlockCut
}.

Module PlanErr.
Inductive BasicBlockPlanError :=
| Discontinuous (index : nat)
| ResourceAccounting (index : Z)
| PartitionInvariant.
End PlanErr.
Abbreviation plan_result := (result PlanErr.BasicBlockPlanError).

(** ** Cuts *)

Definition events_of (row : TraceRow) : list BusEvent := se_bus_events (row_effects row).

(** The first [Some] of a loop that returns early. *)
Fixpoint first_cut (f : BusEvent → option BasicBlockCut) (events : list BusEvent) : option BasicBlockCut :=
  match events with
  | [] => None
  | e :: events => match f e with Some cut => Some cut | None => first_cut f events end
  end.

Definition standalone_event_cut (e : BusEvent) : option BasicBlockCut :=
  match event_kind e with
  | EK.DmgMmioRead | EK.DmgMmioWrite | EK.DmgJoypadRead => Some Cut.DeviceIo
  | EK.MemoryRead | EK.MemoryWrite | EK.MemoryOpcodeFetch | EK.MemoryImmediateRead =>
      let address := bt_address (transcript_event e) in
      if in_range 0x8000 0x9fff address || in_range 0xfe00 0xfe9f address then Some Cut.PpuSensitiveMemory
      else None
  | _ => None
  end.
Definition standalone_cut (row : TraceRow) : option BasicBlockCut := first_cut standalone_event_cut (events_of row).

Definition semantic_event_cut (e : BusEvent) : option BasicBlockCut :=
  match event_kind e with
  | EK.InputRead | EK.OutputWrite | EK.DmgJoypadRead => Some Cut.ProtocolIo
  | EK.Mbc3ControlWrite => Some Cut.MapperChange
  | EK.MemoryOpcodeFetch | EK.MemoryImmediateRead => Some Cut.MutableExecution
  | _ => None
  end.

Definition semantic_cut (row : TraceRow) : option BasicBlockCut :=
  match operation (se_instruction (row_effects row)) with
  | Op.Halt | Op.Stop => Some Cut.LowPower
  | Op.DisableInterrupts | Op.EnableInterrupts | Op.ReturnFromInterrupt => Some Cut.InterruptControl
  | Op.RelativeJump _ | Op.Return _ | Op.JumpHl | Op.Jump _ | Op.Call _ | Op.Restart _ => Some Cut.ControlFlow
  | _ =>
      match standalone_cut row with
      | Some cut => Some cut
      | None =>
          match first_cut semantic_event_cut (events_of row) with
          | Some cut => Some cut
          | None =>
              if bool_decide (ime (cpu (row_after row)) = Ime.Enabled) &&
                 bool_decide (is_Some (pending_interrupt (dmg_devices (row_after row))))
              then Some Cut.InterruptPending else None
          end
      end
  end.

(** ** Planning *)

Definition row_resources (row : TraceRow) (index : Z) : plan_result (Z * Z) :=
  let before := m_cycles (cpu (row_before row)) in
  let after := m_cycles (cpu (row_after row)) in
  m_cycle_count ← ok_or (if before <=? after then Some (after - before) else None)
                    (PlanErr.ResourceAccounting index);
  Ok (m_cycle_count, Z.of_nat (length (events_of row))).

(** The loop [for index in 0..row_count.saturating_sub(1)], [n] iterations from [index]. *)
Fixpoint ensure_contiguous (n index : nat) (row_at : nat → option TraceRow) : plan_result () :=
  match n with
  | O => Ok ()
  | S n =>
      before ← ok_or (row_at index) (PlanErr.Discontinuous index);
      after ← ok_or (row_at (S index)) (PlanErr.Discontinuous index);
      if negb (bool_decide (row_after before = row_before after)) then Err (PlanErr.Discontinuous index)
      else ensure_contiguous n (S index) row_at
  end.

Definition is_instruction_row (row : TraceRow) : bool :=
  match se_kind (row_effects row) with SK.Instruction => true | _ => false end.

(** One span of instructions: the inner [loop], with a bound on its iterations; [None] when the bound
    is reached. The result is the cursor after the span, its resources and its cut. *)
Fixpoint grow (fuel : nat) (row_at : nat → option TraceRow) (start cursor : nat) (m_cycle_count bus_event_count : Z) :
    option (plan_result (nat * Z * Z * BasicBlockCut)) :=
  match fuel with
  | O => None
  | S fuel =>
      match row_at cursor with
      | None => Some (Err (PlanErr.Discontinuous cursor))
      | Some current =>
          let inner := negb (cursor =? start)%nat in
          match (if inner then standalone_cut current else None) with
          | Some cut => Some (Ok (cursor, m_cycle_count, bus_event_count, cut))
          | None =>
              match row_resources current (Z.of_nat cursor) with
              | Err e => Some (Err e)
              | Ok (next_m_cycles, next_bus_events) =>
                  match checked_add_u64 m_cycle_count next_m_cycles, checked_add_u64 bus_event_count next_bus_events with
                  | Some candidate_m_cycles, Some candidate_bus_events =>
                      let over_cycles := Z.of_nat BASIC_BLOCK_M_CYCLE_BOUND <? candidate_m_cycles in
                      let over_events := Z.of_nat BASIC_BLOCK_BUS_EVENT_BOUND <? candidate_bus_events in
                      if inner && over_cycles then
                        Some (Ok (cursor, m_cycle_count, bus_event_count, Cut.CycleBound))
                      else if inner && over_events then
                        Some (Ok (cursor, m_cycle_count, bus_event_count, Cut.BusEventBound))
                      else if over_cycles || over_events then
                        Some (Err (PlanErr.ResourceAccounting (Z.of_nat cursor)))
                      else
                        let cursor := S cursor in
                        let finish cut := Some (Ok (cursor, candidate_m_cycles, candidate_bus_events, cut)) in
                        match semantic_cut current with
                        | Some cut => finish cut
                        | None =>
                            if (cursor - start =? BASIC_BLOCK_INSTRUCTION_BOUND)%nat then finish Cut.InstructionBound
                            else
                              match row_at cursor with
                              | None => finish Cut.EndOfTrace
                              | Some next =>
                                  if negb (is_instruction_row next) then finish Cut.MachineEvent
                                  else grow fuel row_at start cursor candidate_m_cycles candidate_bus_events
                              end
                        end
                  | _, _ => Some (Err (PlanErr.ResourceAccounting (Z.of_nat cursor)))
                  end
              end
          end
      end
  end.

(** The outer [while cursor < row_count]; every iteration moves the cursor forward. *)
Fixpoint plan_loop (fuel : nat) (row_count : nat) (row_at : nat → option TraceRow) (cursor : nat) :
    option (plan_result (list BasicBlockSpan)) :=
  if (row_count <=? cursor)%nat then Some (Ok [])
  else
    match fuel with
    | O => None
    | S fuel =>
        match row_at cursor with
        | None => Some (Err (PlanErr.Discontinuous cursor))
        | Some row =>
            let next :=
              if negb (is_instruction_row row) then
                match row_resources row (Z.of_nat cursor) with
                | Err e => Some (Err e)
                | Ok (m_cycle_count, bus_event_count) =>
                    Some (Ok (S cursor, MkSpan cursor 1 0 m_cycle_count bus_event_count Cut.MachineEvent))
                end
              else
                match grow (S BASIC_BLOCK_INSTRUCTION_BOUND) row_at cursor cursor 0 0 with
                | None => None
                | Some (Err e) => Some (Err e)
                | Some (Ok (stop, m_cycle_count, bus_event_count, cut)) =>
                    Some (Ok (stop, MkSpan cursor (stop - cursor) (stop - cursor) m_cycle_count bus_event_count cut))
                end in
            match next with
            | None => None
            | Some (Err e) => Some (Err e)
            | Some (Ok (cursor, span)) =>
                match plan_loop fuel row_count row_at cursor with
                | None => None
                | Some (Err e) => Some (Err e)
                | Some (Ok spans) => Some (Ok (span :: spans))
                end
            end
        end
    end.

Definition plan_indexed (row_count : nat) (row_at : nat → option TraceRow) :
    option (plan_result (list BasicBlockSpan)) :=
  match ensure_contiguous (row_count - 1) 0 row_at with
  | Err e => Some (Err e)
  | Ok _ => plan_loop row_count row_count row_at 0
  end.

Definition plan_basic_blocks (rows : list TraceRow) : option (plan_result (list BasicBlockSpan)) :=
  plan_indexed (length rows) (λ index, rows !! index).
Definition plan_witness_basic_blocks (w : Witness) : option (plan_result (list BasicBlockSpan)) :=
  plan_basic_blocks (witness_rows w).

(** ** Packing *)

Module Lane.
Inductive BasicBlockLaneIndex := Lane0 | Lane1 | Lane2 | Lane3.
Record BasicBlockLaneDescriptor := MkDescriptor {
  source_row_index : Z; m_cycle_start : Z; m_cycle_count : Z; bus_event_start : Z; bus_event_count : Z
}.
Inductive BasicBlockLane := Padding | Instruction (descriptor : BasicBlockLaneDescriptor).
End Lane.
Module Owner.
Inductive BasicBlockResourceOwner := Padding | Instruction (lane : Lane.BasicBlockLaneIndex).
End Owner.

Definition lane_from_index (index : nat) : option Lane.BasicBlockLaneIndex :=
  match index with
  | 0%nat => Some Lane.Lane0 | 1%nat => Some Lane.Lane1 | 2%nat => Some Lane.Lane2 | 3%nat => Some Lane.Lane3
  | _ => None
  end.
Definition lane_index (lane : Lane.BasicBlockLaneIndex) : nat :=
  match lane with Lane.Lane0 => 0 | Lane.Lane1 => 1 | Lane.Lane2 => 2 | Lane.Lane3 => 3 end%nat.

(** The three fixed-size arrays. *)
Record BasicBlockRouting := MkRouting {
  rt_lanes : list Lane.BasicBlockLane;
  rt_m_cycle_owners : list Owner.BasicBlockResourceOwner;
  rt_bus_event_owners : list Owner.BasicBlockResourceOwner
}.

Definition padding_routing : BasicBlockRouting :=
  MkRouting (replicate BASIC_BLOCK_INSTRUCTION_BOUND Lane.Padding)
    (replicate BASIC_BLOCK_M_CYCLE_BOUND Owner.Padding)
    (replicate BASIC_BLOCK_BUS_EVENT_BOUND Owner.Padding).

Record BasicBlock := MkBlock {
  block_source_row_start : Z; block_rows : list TraceRow; block_instruction_count : nat;
  block_m_cycle_count : Z; block_bus_event_count : Z; block_cut : BasicBlockCut;
  block_initial_state : VmState; block_final_state : VmState; block_schedule : BasicBlockRouting
}.

(** [slice.get_mut(start..stop)?.fill(value)]: no write when the range is not within the slice. *)
Definition fill_range {A} (l : list A) (start stop : Z) (value : A) : option (list A) :=
  if (start <=? stop) && (stop <=? Z.of_nat (length l)) then
    Some (take (Z.to_nat start) l ++ replicate (Z.to_nat (stop - start)) value ++ drop (Z.to_nat stop) l)
  else None.
(** [*slice.get_mut(index)? = value] *)
Definition set_at {A} (l : list A) (index : nat) (value : A) : option (list A) :=
  if (index <? length l)%nat then Some (<[index := value]> l) else None.

Definition invariant {A} (o : option A) : plan_result A := ok_or o PlanErr.PartitionInvariant.

(** One instruction of the loop over [rows.iter().enumerate()]. *)
Definition route_row (sp : BasicBlockSpan) (source_row_offset : Z) (lane : nat) (row : TraceRow)
    (m_cycle_start bus_event_start : Z) (routing : BasicBlockRouting) : plan_result (Z * Z * BasicBlockRouting) :=
  if negb (is_instruction_row row) then Err PlanErr.PartitionInvariant
  else
    index ← invariant (checked_add_u64 (Z.of_nat (span_row_start sp)) (Z.of_nat lane));
    source_row_index ← invariant (checked_add_u64 source_row_offset index);
    '(m_cycle_count, bus_event_count) ← row_resources row source_row_index;
    typed_lane ← invariant (lane_from_index lane);
    lanes ← invariant (set_at (rt_lanes routing) lane (Lane.Instruction
      (Lane.MkDescriptor source_row_index m_cycle_start m_cycle_count bus_event_start bus_event_count)));
    cycle_end ← invariant (checked_add_u64 m_cycle_start m_cycle_count);
    m_cycle_owners ← invariant (fill_range (rt_m_cycle_owners routing) m_cycle_start cycle_end
                                  (Owner.Instruction typed_lane));
    bus_event_end ← invariant (checked_add_u64 bus_event_start bus_event_count);
    bus_event_owners ← invariant (fill_range (rt_bus_event_owners routing) bus_event_start bus_event_end
                                    (Owner.Instruction typed_lane));
    m_cycle_start ← invariant (checked_add_u64 m_cycle_start m_cycle_count);
    bus_event_start ← invariant (checked_add_u64 bus_event_start bus_event_count);
    Ok (m_cycle_start, bus_event_start, MkRouting lanes m_cycle_owners bus_event_owners).

Fixpoint route_rows (sp : BasicBlockSpan) (source_row_offset : Z) (lane : nat) (rows : list TraceRow)
    (m_cycle_start bus_event_start : Z) (routing : BasicBlockRouting) : plan_result (Z * Z * BasicBlockRouting) :=
  match rows with
  | [] => Ok (m_cycle_start, bus_event_start, routing)
  | row :: rows =>
      '(m_cycle_start, bus_event_start, routing) ←
        route_row sp source_row_offset lane row m_cycle_start bus_event_start routing;
      route_rows sp source_row_offset (S lane) rows m_cycle_start bus_event_start routing
  end.

Definition block_routing (rows : list TraceRow) (sp : BasicBlockSpan) (source_row_offset : Z) :
    plan_result BasicBlockRouting :=
  if (span_instruction_count sp =? 0)%nat then
    if negb (length rows =? 1)%nat ||
       match head rows with Some row => is_instruction_row row | None => true end
    then Err PlanErr.PartitionInvariant else Ok padding_routing
  else if negb (length rows =? span_instruction_count sp)%nat || (BASIC_BLOCK_INSTRUCTION_BOUND <? length rows)%nat
  then Err PlanErr.PartitionInvariant
  else
    '(m_cycle_start, bus_event_start, routing) ← route_rows sp source_row_offset 0 rows 0 0 padding_routing;
    if negb (m_cycle_start =? span_m_cycle_count sp) || negb (bus_event_start =? span_bus_event_count sp)
    then Err PlanErr.PartitionInvariant else Ok routing.

(** The loop over the spans, taking every span's rows from the remaining ones. *)
Fixpoint pack_spans (source_row_offset : Z) (spans : list BasicBlockSpan) (rows : list TraceRow) :
    plan_result (list BasicBlock) :=
  match spans with
  | [] => match rows with [] => Ok [] | _ => Err PlanErr.PartitionInvariant end
  | sp :: spans =>
      let rows_taken := take (span_row_count sp) rows in
      first ← invariant (head rows_taken);
      final ← invariant (last rows_taken);
      if negb (length rows_taken =? span_row_count sp)%nat then Err PlanErr.PartitionInvariant
      else
        routing ← block_routing rows_taken sp source_row_offset;
        source_row_start ← invariant (checked_add_u64 source_row_offset (Z.of_nat (span_row_start sp)));
        let block :=
          MkBlock source_row_start rows_taken (span_instruction_count sp) (span_m_cycle_count sp)
            (span_bus_event_count sp) (span_cut sp) (row_before first) (row_after final) routing in
        blocks ← pack_spans source_row_offset spans (drop (span_row_count sp) rows);
        Ok (block :: blocks)
  end.

Definition pack_witness_basic_blocks_at (w : Witness) (source_row_offset : Z) :
    option (plan_result (list BasicBlock)) :=
  match plan_witness_basic_blocks w with
  | None => None
  | Some (Err e) => Some (Err e)
  | Some (Ok spans) => Some (pack_spans source_row_offset spans (witness_rows w))
  end.
Definition pack_witness_basic_blocks (w : Witness) := pack_witness_basic_blocks_at w 0.

(** ** What a plan promises *)

Definition row_cycles (r : TraceRow) : Z := m_cycles (cpu (row_after r)) - m_cycles (cpu (row_before r)).
Definition row_event_count (r : TraceRow) : Z := Z.of_nat (length (events_of r)).

(** The rows of [start .. stop]. *)
Definition slice (rows : list TraceRow) (start stop : nat) : list TraceRow := take (stop - start) (drop start rows).

(** Why a span of instructions stops before row [stop]. *)
Inductive cut_reason (rows : list TraceRow) (start stop : nat) (m b : Z) : BasicBlockCut → Prop :=
| reason_bound : (stop - start)%nat = BASIC_BLOCK_INSTRUCTION_BOUND → cut_reason rows start stop m b Cut.InstructionBound
| reason_cycles r : rows !! stop = Some r → Z.of_nat BASIC_BLOCK_M_CYCLE_BOUND < m + row_cycles r →
    cut_reason rows start stop m b Cut.CycleBound
| reason_events r : rows !! stop = Some r → Z.of_nat BASIC_BLOCK_BUS_EVENT_BOUND < b + row_event_count r →
    cut_reason rows start stop m b Cut.BusEventBound
| reason_end : rows !! stop = None → cut_reason rows start stop m b Cut.EndOfTrace
| reason_machine r : rows !! stop = Some r → is_instruction_row r = false →
    cut_reason rows start stop m b Cut.MachineEvent
| reason_semantic r cut : last (slice rows start stop) = Some r → semantic_cut r = Some cut →
    cut_reason rows start stop m b cut
| reason_standalone r cut : rows !! stop = Some r → standalone_cut r = Some cut →
    cut_reason rows start stop m b cut.

(** Rows that may share a block: instructions within the bounds, none of them after a row that must
    end its block, none but the first one that must stand alone. *)
Record packable (l : list TraceRow) (m b : Z) : Prop := {
  pk_instructions : Forall (λ r, is_instruction_row r = true) l;
  pk_count : (length l <= BASIC_BLOCK_INSTRUCTION_BOUND)%nat;
  pk_cycles : m = zsum row_cycles l;
  pk_events : b = zsum row_event_count l;
  pk_cycle_bound : m <= Z.of_nat BASIC_BLOCK_M_CYCLE_BOUND;
  pk_event_bound : b <= Z.of_nat BASIC_BLOCK_BUS_EVENT_BOUND;
  pk_semantic : ∀ i r, l !! i = Some r → (S i < length l)%nat → semantic_cut r = None;
  pk_standalone : ∀ i r, l !! S i = Some r → standalone_cut r = None
}.

Definition span_ok (rows : list TraceRow) (sp : BasicBlockSpan) : Prop :=
  let start := span_row_start sp in
  let stop := (start + span_row_count sp)%nat in
  let l := slice rows start stop in
  length l = span_row_count sp ∧
  ((∃ r, l = [r] ∧ is_instruction_row r = false ∧ span_instruction_count sp = 0%nat ∧
      span_m_cycle_count sp = row_cycles r ∧ span_bus_event_count sp = row_event_count r ∧
      span_cut sp = Cut.MachineEvent) ∨
   (l ≠ [] ∧ span_instruction_count sp = span_row_count sp ∧
      packable l (span_m_cycle_count sp) (span_bus_event_count sp) ∧
      cut_reason rows start stop (span_m_cycle_count sp) (span_bus_event_count sp) (span_cut sp))).

(** The spans cover the rows from [cursor] on, each row once and in order. *)
Fixpoint partition (rows : list TraceRow) (cursor : nat) (spans : list BasicBlockSpan) : Prop :=
  match spans with
  | [] => cursor = length rows
  | sp :: spans => span_row_start sp = cursor ∧ span_ok rows sp ∧ partition rows (cursor + span_row_count sp) spans
  end.

(** A row within the bounds of one block. *)
Definition row_fits (r : TraceRow) : Prop :=
  0 <= row_cycles r ∧
  (is_instruction_row r = true →
   row_cycles r <= Z.of_nat BASIC_BLOCK_M_CYCLE_BOUND ∧ row_event_count r <= Z.of_nat BASIC_BLOCK_BUS_EVENT_BOUND).

(** ** The planner keeps its promise *)

Lemma row_resources_fits r index : row_fits r → row_resources r index = Ok (row_cycles r, row_event_count r).
Proof. intros [Hc _]. unfold row_resources. unfold row_cycles in Hc. by rewrite (proj2 (Z.leb_le _ _)) by lia. Qed.

Lemma slice_nil rows start : slice rows start start = [].
Proof. unfold slice. by rewrite Nat.sub_diag. Qed.
Lemma slice_snoc rows start stop r :
  (start <= stop)%nat → rows !! stop = Some r → slice rows start (S stop) = slice rows start stop ++ [r].
Proof.
  intros Hs Hr. unfold slice. rewrite Nat.sub_succ_l by done. apply take_S_r. rewrite lookup_drop.
  by replace (start + (stop - start))%nat with stop by lia.
Qed.
Lemma length_slice rows start stop :
  (start <= stop <= length rows)%nat → length (slice rows start stop) = (stop - start)%nat.
Proof. intros Hs. unfold slice. rewrite length_take, length_drop. lia. Qed.

Lemma packable_nil : packable [] 0 0.
Proof. split; try done; cbn; lia. Qed.

(** One more row. *)
Lemma packable_snoc l m b r :
  packable l m b → (∀ x, last l = Some x → semantic_cut x = None) → (l ≠ [] → standalone_cut r = None) →
  is_instruction_row r = true → (length l < BASIC_BLOCK_INSTRUCTION_BOUND)%nat →
  m + row_cycles r <= Z.of_nat BASIC_BLOCK_M_CYCLE_BOUND →
  b + row_event_count r <= Z.of_nat BASIC_BLOCK_BUS_EVENT_BOUND →
  packable (l ++ [r]) (m + row_cycles r) (b + row_event_count r).
Proof.
  intros [] Hlast Halone Hi Hn Hm Hb. split; rewrite ?length_app, ?zsum_app, ?zsum_one; cbn [length]; try lia.
  - apply Forall_app. auto.
  - intros i x Hx Hlt. rewrite lookup_app_l in Hx by lia. destruct (decide (S i < length l)%nat); [by eapply pk_semantic0 |].
    apply Hlast. rewrite last_lookup. by replace (Nat.pred (length l)) with i by lia.
  - intros i x Hx. apply lookup_app_Some in Hx as [Hx | [Hle Hx]]; [by eapply pk_standalone0 |].
    apply list_lookup_singleton_Some in Hx as [Hz <-]. apply Halone. intros ->. cbn in *. lia.
Qed.

Section plan.
Context (rows : list TraceRow) (Hfits : Forall row_fits rows).
#[local] Abbreviation row_at := (λ index, rows !! index).

Definition grown (start stop : nat) (m b : Z) (cut : BasicBlockCut) : Prop :=
  (start < stop <= length rows)%nat ∧ packable (slice rows start stop) m b ∧ cut_reason rows start stop m b cut.

Lemma fits_at i r : rows !! i = Some r → row_fits r.
Proof. intros Hr. rewrite Forall_lookup in Hfits. by eapply Hfits. Qed.

Lemma checked_small a b : a + b < 18446744073709551616 → checked_add_u64 a b = Some (a + b).
Proof. intros Hlt. unfold checked_add_u64. by rewrite (proj2 (Z.ltb_lt _ _) Hlt). Qed.

Lemma grow_spec start fuel : ∀ cursor m b r,
  (start <= cursor)%nat → rows !! cursor = Some r → is_instruction_row r = true →
  packable (slice rows start cursor) m b → (∀ x, last (slice rows start cursor) = Some x → semantic_cut x = None) →
  (cursor - start < BASIC_BLOCK_INSTRUCTION_BOUND)%nat → (BASIC_BLOCK_INSTRUCTION_BOUND <= fuel + (cursor - start))%nat →
  ∃ stop m' b' cut, grow fuel row_at start cursor m b = Some (Ok (stop, m', b', cut)) ∧ grown start stop m' b' cut.
Proof.
  induction fuel as [| fuel IH]; intros cursor m b r Hs Hr Hi Hp Hlast Hn Hfuel; [lia |].
  pose proof (lookup_lt_Some _ _ _ Hr) as Hlen. cbn [grow]. rewrite Hr.
  assert (Hstop : ∀ cut, negb (cursor =? start)%nat = true → cut_reason rows start cursor m b cut → grown start cursor m b cut).
  { intros cut Hne Hc. apply negb_true_iff, Nat.eqb_neq in Hne. split; [lia |]. done. }
  destruct (if negb (cursor =? start)%nat then standalone_cut r else None) as [cut |] eqn:Ealone.
  { destruct (negb (cursor =? start)%nat) eqn:Hne; [| done].
    do 4 eexists. split; [reflexivity |]. apply Hstop; [done |]. by eapply reason_standalone. }
  destruct (fits_at _ _ Hr) as [Hc0 Hb0]. destruct (Hb0 Hi) as [Hc Hb].
  pose proof (pk_cycle_bound _ _ _ Hp) as Hm. pose proof (pk_event_bound _ _ _ Hp) as Hbb.
  rewrite row_resources_fits by (by apply (fits_at cursor)). cbv beta iota.
  change (Z.of_nat BASIC_BLOCK_M_CYCLE_BOUND) with 6 in *. change (Z.of_nat BASIC_BLOCK_BUS_EVENT_BOUND) with 5 in *.
  rewrite !checked_small by lia. cbv beta iota zeta.
  destruct (negb (cursor =? start)%nat && (6 <? m + row_cycles r)) eqn:Eover.
  { apply andb_true_iff in Eover as [Hne Hgt%Z.ltb_lt]. do 4 eexists. split; [reflexivity |].
    apply Hstop; [done |]. by eapply reason_cycles. }
  destruct (negb (cursor =? start)%nat && (5 <? b + row_event_count r)) eqn:Eover'.
  { apply andb_true_iff in Eover' as [Hne Hgt%Z.ltb_lt]. do 4 eexists. split; [reflexivity |].
    apply Hstop; [done |]. by eapply reason_events. }
  assert (Hfit : m + row_cycles r <= 6 ∧ b + row_event_count r <= 5).
  { destruct (negb (cursor =? start)%nat) eqn:Hne; rewrite ?Hne in Eover, Eover'; cbn [andb] in *.
    { apply Z.ltb_ge in Eover, Eover'. lia. }
    apply negb_false_iff, Nat.eqb_eq in Hne as ->.
    pose proof (pk_cycles _ _ _ Hp) as Em. pose proof (pk_events _ _ _ Hp) as Eb.
    rewrite slice_nil in Em, Eb. cbn in Em, Eb. lia. }
  rewrite (proj2 (Z.ltb_ge 6 (m + row_cycles r)) (proj1 Hfit)), (proj2 (Z.ltb_ge 5 (b + row_event_count r)) (proj2 Hfit)).
  cbn [orb].
  pose proof (slice_snoc rows start cursor r Hs Hr) as Esl.
  assert (Hp' : packable (slice rows start (S cursor)) (m + row_cycles r) (b + row_event_count r)).
  { rewrite Esl. apply packable_snoc; try done; [| by rewrite length_slice by lia | apply Hfit | apply Hfit].
    intros Hne. destruct (negb (cursor =? start)%nat) eqn:Hinner; [by rewrite ?Hinner in Ealone |].
    apply negb_false_iff, Nat.eqb_eq in Hinner as ->. by rewrite slice_nil in Hne. }
  assert (Hdone : ∀ cut, cut_reason rows start (S cursor) (m + row_cycles r) (b + row_event_count r) cut →
    grown start (S cursor) (m + row_cycles r) (b + row_event_count r) cut).
  { intros cut Hcut. split; [lia |]. done. }
  assert (Elast : last (slice rows start (S cursor)) = Some r) by (by rewrite Esl, last_snoc).
  destruct (semantic_cut r) as [cut |] eqn:Esem.
  { do 4 eexists. split; [reflexivity |]. apply Hdone. by eapply reason_semantic. }
  destruct (S cursor - start =? BASIC_BLOCK_INSTRUCTION_BOUND)%nat eqn:Ebound.
  { do 4 eexists. split; [reflexivity |]. apply Hdone. by apply reason_bound, Nat.eqb_eq. }
  destruct (rows !! S cursor) as [next |] eqn:Enext.
  2: { do 4 eexists. split; [reflexivity |]. apply Hdone. by apply reason_end. }
  destruct (is_instruction_row next) eqn:Einstr; cbn [negb].
  2: { do 4 eexists. split; [reflexivity |]. apply Hdone. by eapply reason_machine. }
  apply Nat.eqb_neq in Ebound. eapply (IH (S cursor)); try done; [lia | | lia..].
  intros x Hx. rewrite Elast in Hx. by injection Hx as <-.
Qed.

Lemma plan_loop_spec fuel : ∀ cursor,
  (cursor <= length rows)%nat → (length rows <= fuel + cursor)%nat →
  ∃ spans, plan_loop fuel (length rows) row_at cursor = Some (Ok spans) ∧ partition rows cursor spans.
Proof.
  induction fuel as [| fuel IH]; intros cursor Hc Hf; cbn [plan_loop];
    destruct (Nat.leb_spec (length rows) cursor) as [Hle | Hlt].
  1, 3: exists []; split; [done | cbn; lia].
  { lia. }
  destruct (lookup_lt_is_Some_2 rows cursor Hlt) as [r Hr]. rewrite Hr.
  assert (Hone : slice rows cursor (cursor + 1) = [r]).
  { rewrite Nat.add_1_r, (slice_snoc rows cursor cursor r), slice_nil by done. done. }
  destruct (is_instruction_row r) eqn:Ei; cbn [negb].
  - destruct (grow_spec cursor (S BASIC_BLOCK_INSTRUCTION_BOUND) cursor 0 0 r) as (stop & m & b & cut & -> & Hs & Hp & Hcut);
      try done; try (rewrite slice_nil; done || apply packable_nil); try (unfold BASIC_BLOCK_INSTRUCTION_BOUND; lia).
    cbv beta iota. destruct (IH stop) as (spans & -> & Hspans); [lia.. |]. eexists. split; [reflexivity |].
    cbn [partition span_row_start span_row_count]. replace (cursor + (stop - cursor))%nat with stop by lia.
    split; [done |]. split; [| done]. unfold span_ok. cbn [span_row_start span_row_count span_instruction_count
      span_m_cycle_count span_bus_event_count span_cut]. replace (cursor + (stop - cursor))%nat with stop by lia.
    rewrite length_slice by lia. split; [done |]. right. split_and!; try done.
    intros Hnil. apply (f_equal length) in Hnil. rewrite length_slice in Hnil by lia. cbn in Hnil. lia.
  - rewrite row_resources_fits by (by apply (fits_at cursor)). cbv beta iota.
    destruct (IH (S cursor)) as (spans & -> & Hspans); [lia.. |]. eexists. split; [reflexivity |].
    cbn [partition span_row_start span_row_count]. rewrite Nat.add_1_r. split; [done |]. split; [| done].
    unfold span_ok. cbn [span_row_start span_row_count span_instruction_count span_m_cycle_count
      span_bus_event_count span_cut]. rewrite Hone. split; [done |]. left. by exists r.
Qed.

Lemma ensure_contiguous_linked n : ∀ index,
  (index + n < length rows ∨ n = 0)%nat →
  (∀ i a c, rows !! i = Some a → rows !! S i = Some c → row_after a = row_before c) →
  ensure_contiguous n index row_at = Ok ().
Proof.
  induction n as [| n IH]; intros index Hn Hl; [done |]. cbn [ensure_contiguous].
  destruct (lookup_lt_is_Some_2 rows index) as [a Ha]; [lia |].
  destruct (lookup_lt_is_Some_2 rows (S index)) as [c Hc]; [lia |].
  rewrite Ha, Hc. cbn [ok_or]. rewrite !bind_of_ok, bool_decide_eq_true_2 by (by eapply Hl). cbn [negb].
  apply IH; [lia | done].
Qed.
End plan.

Lemma linked_lookup rows : linked rows →
  ∀ i a c, rows !! i = Some a → rows !! S i = Some c → row_after a = row_before c.
Proof.
  induction rows as [| r [| r' rows] IH]; intros Hl i a c Ha Hc; [done | by destruct i |].
  destruct Hl as [He Hl]. destruct i as [| i]; [injection Ha as <-; injection Hc as <-; done |].
  by apply (IH Hl i).
Qed.

(** ** Termination on any rows *)

Lemma grow_total row_at start fuel : ∀ cursor m b,
  (start <= cursor)%nat → (cursor - start < BASIC_BLOCK_INSTRUCTION_BOUND)%nat →
  (BASIC_BLOCK_INSTRUCTION_BOUND <= fuel + (cursor - start))%nat →
  match grow fuel row_at start cursor m b with
  | Some (Ok (stop, _, _, _)) => (start < stop)%nat
  | Some (Err _) => True
  | None => False
  end.
Proof.
  induction fuel as [| fuel IH]; intros cursor m b Hs Hn Hf; [lia |]. cbn [grow].
  destruct (row_at cursor) as [current |]; [| done]. cbv zeta.
  assert (Hinner : negb (cursor =? start)%nat = true → (start < cursor)%nat).
  { intros Hne%negb_true_iff%Nat.eqb_neq. lia. }
  destruct (negb (cursor =? start)%nat) eqn:Hne; cbn [andb].
  - specialize (Hinner eq_refl). destruct (standalone_cut current); [done |].
    destruct (row_resources current _) as [[c e] |]; [| done].
    destruct (checked_add_u64 m c), (checked_add_u64 b e); try done.
    destruct (_ <? _); [done |]. destruct (_ <? _); [done |]. cbn [orb].
    destruct (semantic_cut current); [lia |].
    destruct (Nat.eqb_spec (S cursor - start) BASIC_BLOCK_INSTRUCTION_BOUND); [lia |].
    destruct (row_at (S cursor)) as [next |]; [| lia].
    destruct (is_instruction_row next); cbn [negb]; [apply IH; lia | lia].
  - destruct (row_resources current _) as [[c e] |]; [| done].
    destruct (checked_add_u64 m c), (checked_add_u64 b e); try done.
    destruct (_ || _); [done |]. destruct (semantic_cut current); [lia |].
    destruct (Nat.eqb_spec (S cursor - start) BASIC_BLOCK_INSTRUCTION_BOUND); [lia |].
    destruct (row_at (S cursor)) as [next |]; [| lia].
    destruct (is_instruction_row next); cbn [negb]; [apply IH; lia | lia].
Qed.

Lemma plan_loop_total row_count row_at fuel : ∀ cursor,
  (row_count <= fuel + cursor)%nat → plan_loop fuel row_count row_at cursor ≠ None.
Proof.
  induction fuel as [| fuel IH]; intros cursor Hf; cbn [plan_loop];
    destruct (Nat.leb_spec row_count cursor) as [| Hlt]; try done; [lia |].
  destruct (row_at cursor) as [row |]; [| done]. destruct (negb _).
  - destruct (row_resources row _) as [[m b] |]; [| done].
    specialize (IH (S cursor) ltac:(lia)). by destruct (plan_loop _ _ _ _) as [[] |].
  - pose proof (grow_total row_at cursor (S BASIC_BLOCK_INSTRUCTION_BOUND) cursor 0 0) as Hg.
    destruct (grow _ _ _ _ _ _) as [[[[[stop m] b] cut] |] |]; [| done |].
    + assert (cursor < stop)%nat by (apply Hg; unfold BASIC_BLOCK_INSTRUCTION_BOUND; lia).
      specialize (IH stop ltac:(lia)). by destruct (plan_loop _ _ _ _) as [[] |].
    + exfalso. apply Hg; unfold BASIC_BLOCK_INSTRUCTION_BOUND; lia.
Qed.

(** ** The schedule of a block *)

(** Slots of consecutive lanes, [counts] slots each. *)
Fixpoint owned (lane : nat) (counts : list Z) : list Owner.BasicBlockResourceOwner :=
  match counts with
  | [] => []
  | n :: counts =>
      replicate (Z.to_nat n)
        (match lane_from_index lane with Some l => Owner.Instruction l | None => Owner.Padding end) ++
      owned (S lane) counts
  end.
Definition padded {A} (bound : nat) (padding : A) (l : list A) : list A := l ++ replicate (bound - length l) padding.

Fixpoint descriptors (index m b : Z) (rows : list TraceRow) : list Lane.BasicBlockLane :=
  match rows with
  | [] => []
  | r :: rows =>
      Lane.Instruction (Lane.MkDescriptor index m (row_cycles r) b (row_event_count r)) ::
      descriptors (index + 1) (m + row_cycles r) (b + row_event_count r) rows
  end.

(** The schedule that the rows of a block should have: the lanes in order, each owning the next slots. *)
Definition scheduled (index : Z) (rows : list TraceRow) : BasicBlockRouting :=
  MkRouting (padded BASIC_BLOCK_INSTRUCTION_BOUND Lane.Padding (descriptors index 0 0 rows))
    (padded BASIC_BLOCK_M_CYCLE_BOUND Owner.Padding (owned 0 (map row_cycles rows)))
    (padded BASIC_BLOCK_BUS_EVENT_BOUND Owner.Padding (owned 0 (map row_event_count rows))).

Lemma owned_app l : ∀ lane l', owned lane (l ++ l') = owned lane l ++ owned (lane + length l) l'.
Proof.
  induction l as [| n l IH]; intros lane l'; cbn [owned app length]; [by rewrite Nat.add_0_r |].
  rewrite IH, <- app_assoc. do 3 f_equal. lia.
Qed.
Lemma descriptors_app l : ∀ index m b l', descriptors index m b (l ++ l') =
  descriptors index m b l ++
  descriptors (index + Z.of_nat (length l)) (m + zsum row_cycles l) (b + zsum row_event_count l) l'.
Proof.
  induction l as [| r l IH]; intros index m b l'; cbn [descriptors app length].
  - change (zsum row_cycles []) with 0. change (zsum row_event_count []) with 0. by rewrite !Z.add_0_r.
  - rewrite IH. change (zsum row_cycles (r :: l)) with (row_cycles r + zsum row_cycles l).
    change (zsum row_event_count (r :: l)) with (row_event_count r + zsum row_event_count l).
    cbn [app]. f_equal. f_equal. f_equal; lia.
Qed.
Lemma length_descriptors l : ∀ index m b, length (descriptors index m b l) = length l.
Proof. induction l as [| r l IH]; intros index m b; cbn [descriptors length]; [done |]. by rewrite IH. Qed.
Lemma length_owned (f : TraceRow → Z) l : ∀ lane,
  Forall (λ r, 0 <= f r) l → length (owned lane (map f l)) = Z.to_nat (zsum f l) ∧ 0 <= zsum f l.
Proof.
  induction l as [| r l IH]; intros lane Hl; [done |]. apply Forall_cons in Hl as [Hr Hl].
  cbn [map owned]. change (zsum f (r :: l)) with (f r + zsum f l). rewrite length_app, length_replicate.
  destruct (IH (S lane) Hl) as [-> ?]. split; lia.
Qed.

Lemma fill_padded {A} bound (padding : A) l n value :
  0 <= n → Z.of_nat (length l) + n <= Z.of_nat bound →
  fill_range (padded bound padding l) (Z.of_nat (length l)) (Z.of_nat (length l) + n) value =
  Some (padded bound padding (l ++ replicate (Z.to_nat n) value)).
Proof.
  intros Hn Hb. unfold fill_range, padded. rewrite length_app, length_replicate.
  rewrite (proj2 (Z.leb_le _ _)), (proj2 (Z.leb_le _ _)) by lia. cbn [andb]. f_equal.
  rewrite Nat2Z.id, take_app_length, Z.add_simpl_l, drop_app_ge, drop_replicate, <- app_assoc by lia.
  rewrite length_app, length_replicate. do 3 f_equal. lia.
Qed.
Lemma set_padded {A} bound (padding : A) l value :
  (length l < bound)%nat → set_at (padded bound padding l) (length l) value = Some (padded bound padding (l ++ [value])).
Proof.
  intros Hb. unfold set_at, padded. rewrite length_app, length_replicate.
  rewrite (proj2 (Nat.ltb_lt _ _)) by lia. f_equal. rewrite insert_app_r_alt, Nat.sub_diag by done.
  replace (bound - length l)%nat with (S (bound - length (l ++ [value]))) by (rewrite length_app; cbn; lia).
  cbn. by rewrite <- app_assoc.
Qed.

Lemma lane_some lane : (lane < BASIC_BLOCK_INSTRUCTION_BOUND)%nat → ∃ l, lane_from_index lane = Some l ∧ lane_index l = lane.
Proof. intros Hl. destruct lane as [| [| [| [| lane]]]]; try (by eexists). unfold BASIC_BLOCK_INSTRUCTION_BOUND in Hl. lia. Qed.

Lemma events_nonneg l : Forall (λ r, 0 <= row_event_count r) l.
Proof. apply Forall_forall. intros r _. unfold row_event_count. lia. Qed.

Lemma scheduled_snoc index l r :
  Forall (λ r, 0 <= row_cycles r) (l ++ [r]) → (length l < BASIC_BLOCK_INSTRUCTION_BOUND)%nat →
  zsum row_cycles (l ++ [r]) <= Z.of_nat BASIC_BLOCK_M_CYCLE_BOUND →
  zsum row_event_count (l ++ [r]) <= Z.of_nat BASIC_BLOCK_BUS_EVENT_BOUND →
  ∃ typed_lane,
    let m := zsum row_cycles l in
    let b := zsum row_event_count l in
    let s := scheduled index l in
    let s' := scheduled index (l ++ [r]) in
    lane_from_index (length l) = Some typed_lane ∧ 0 <= m ∧ 0 <= b ∧
    set_at (rt_lanes s) (length l) (Lane.Instruction
      (Lane.MkDescriptor (index + Z.of_nat (length l)) m (row_cycles r) b (row_event_count r))) = Some (rt_lanes s') ∧
    fill_range (rt_m_cycle_owners s) m (m + row_cycles r) (Owner.Instruction typed_lane) = Some (rt_m_cycle_owners s') ∧
    fill_range (rt_bus_event_owners s) b (b + row_event_count r) (Owner.Instruction typed_lane) =
      Some (rt_bus_event_owners s').
Proof.
  intros Hc Hn Hm Hb. destruct (lane_some _ Hn) as (lane & Hlane & _). exists lane.
  rewrite zsum_app, zsum_one in Hm, Hb. apply Forall_app in Hc as [Hc [Hr _]%Forall_cons].
  destruct (length_owned row_cycles l 0 Hc) as [Em Hm0].
  destruct (length_owned row_event_count l 0 (events_nonneg l)) as [Eb Hb0].
  assert (Hr' : 0 <= row_event_count r) by (unfold row_event_count; lia).
  cbv zeta. unfold scheduled. cbn [rt_lanes rt_m_cycle_owners rt_bus_event_owners].
  rewrite descriptors_app, !map_app, !owned_app, !length_map, Nat.add_0_l. cbn [map owned descriptors].
  rewrite Hlane, !app_nil_r, !Z.add_0_l. split_and!; try done.
  - rewrite <- (length_descriptors l index 0 0) at 1. apply set_padded. by rewrite length_descriptors.
  - replace (zsum row_cycles l) with (Z.of_nat (length (owned 0 (map row_cycles l)))) by lia.
    apply fill_padded; lia.
  - replace (zsum row_event_count l) with (Z.of_nat (length (owned 0 (map row_event_count l)))) by lia.
    apply fill_padded; lia.
Qed.

Lemma route_rows_spec sp offset rest : ∀ l,
  Forall (λ r, is_instruction_row r = true) rest → Forall row_fits (l ++ rest) →
  (length (l ++ rest) <= BASIC_BLOCK_INSTRUCTION_BOUND)%nat →
  zsum row_cycles (l ++ rest) <= Z.of_nat BASIC_BLOCK_M_CYCLE_BOUND →
  zsum row_event_count (l ++ rest) <= Z.of_nat BASIC_BLOCK_BUS_EVENT_BOUND →
  0 <= offset → offset + Z.of_nat (span_row_start sp + length (l ++ rest)) < 18446744073709551616 →
  let index := offset + Z.of_nat (span_row_start sp) in
  route_rows sp offset (length l) rest (zsum row_cycles l) (zsum row_event_count l) (scheduled index l) =
  Ok (zsum row_cycles (l ++ rest), zsum row_event_count (l ++ rest), scheduled index (l ++ rest)).
Proof.
  induction rest as [| r rest IH]; intros l Hi Hf Hn Hm Hb H0 Ho index; cbn [route_rows]; [by rewrite app_nil_r |].
  apply Forall_cons in Hi as [Hr Hi].
  assert (E : l ++ r :: rest = (l ++ [r]) ++ rest) by (by rewrite <- app_assoc). rewrite E in *.
  assert (Hcyc : Forall (λ r, 0 <= row_cycles r) ((l ++ [r]) ++ rest)) by (eapply Forall_impl; [exact Hf | by intros x []]).
  apply Forall_app in Hcyc as [Hcyc Hrest].
  pose proof (length_owned row_cycles rest 0 Hrest) as [_ Hm0].
  pose proof (length_owned row_event_count rest 0 (events_nonneg rest)) as [_ Hb0].
  rewrite !zsum_app, !zsum_one in Hm, Hb. rewrite !length_app in Hn, Ho. cbn [length] in Hn, Ho.
  destruct (scheduled_snoc index l r Hcyc) as (lane & Hlane & Hm1 & Hb1 & Hset & Hcf & Hbf);
    [lia | rewrite zsum_app, zsum_one; lia.. |].
  change (Z.of_nat BASIC_BLOCK_M_CYCLE_BOUND) with 6 in *. change (Z.of_nat BASIC_BLOCK_BUS_EVENT_BOUND) with 5 in *.
  assert (Hfr : row_fits r) by (by apply Forall_app in Hf as [[_ [Hfr _]%Forall_cons]%Forall_app _]).
  unfold route_row. rewrite Hr. cbn [negb]. rewrite (checked_small (Z.of_nat (span_row_start sp))) by lia.
  unfold invariant. cbn [ok_or]. rewrite bind_of_ok. rewrite (checked_small offset) by lia. cbn [ok_or]. rewrite bind_of_ok.
  rewrite row_resources_fits by done. rewrite bind_of_ok. cbv beta iota. rewrite Hlane. cbn [ok_or]. rewrite bind_of_ok.
  replace (offset + (Z.of_nat (span_row_start sp) + Z.of_nat (length l))) with (index + Z.of_nat (length l)) by (subst index; lia).
  rewrite Hset. cbn [ok_or]. rewrite bind_of_ok, !checked_small by lia. cbn [ok_or]. rewrite bind_of_ok, Hcf.
  cbn [ok_or]. rewrite !bind_of_ok, Hbf. cbn [ok_or]. rewrite !bind_of_ok. cbv beta iota.
  replace (S (length l)) with (length (l ++ [r])) by (rewrite length_app; cbn; lia).
  replace (zsum row_cycles l + row_cycles r) with (zsum row_cycles (l ++ [r])) by (by rewrite zsum_app, zsum_one).
  replace (zsum row_event_count l + row_event_count r) with (zsum row_event_count (l ++ [r])) by (by rewrite zsum_app, zsum_one).
  apply IH; try done; rewrite ?zsum_app, ?zsum_one, ?length_app; cbn [length]; lia.
Qed.

(** ** Packing keeps the rows *)

(** A block with the rows, states, resources and schedule its span promises. *)
Record block_ok (source_row_start : Z) (bl : BasicBlock) : Prop := {
  bk_start : block_source_row_start bl = source_row_start;
  bk_initial : row_before <$> head (block_rows bl) = Some (block_initial_state bl);
  bk_final : row_after <$> last (block_rows bl) = Some (block_final_state bl);
  bk_rows :
    (∃ r, block_rows bl = [r] ∧ is_instruction_row r = false ∧ block_instruction_count bl = 0%nat ∧
       block_schedule bl = padding_routing ∧ block_m_cycle_count bl = row_cycles r ∧
       block_bus_event_count bl = row_event_count r) ∨
    (block_instruction_count bl = length (block_rows bl) ∧
     packable (block_rows bl) (block_m_cycle_count bl) (block_bus_event_count bl) ∧
     block_schedule bl = scheduled source_row_start (block_rows bl))
}.

Fixpoint blocks_ok (source_row_start : Z) (blocks : list BasicBlock) : Prop :=
  match blocks with
  | [] => True
  | bl :: blocks =>
      block_ok source_row_start bl ∧ blocks_ok (source_row_start + Z.of_nat (length (block_rows bl))) blocks
  end.

Section pack.
Context (rows : list TraceRow) (Hfits : Forall row_fits rows) (offset : Z).
Hypothesis Hoffset : 0 <= offset.
Hypothesis Hindex : offset + Z.of_nat (length rows) < 18446744073709551616.

Lemma slice_fits start stop : Forall row_fits (slice rows start stop).
Proof. unfold slice. by apply Forall_take, Forall_drop. Qed.

Lemma block_routing_spec sp :
  span_ok rows sp → (span_row_start sp + span_row_count sp <= length rows)%nat →
  let l := slice rows (span_row_start sp) (span_row_start sp + span_row_count sp) in
  ∃ routing, block_routing l sp offset = Ok routing ∧
    ((∃ r, l = [r] ∧ is_instruction_row r = false ∧ span_instruction_count sp = 0%nat ∧
       routing = padding_routing ∧ span_m_cycle_count sp = row_cycles r ∧ span_bus_event_count sp = row_event_count r) ∨
     (span_instruction_count sp = length l ∧ packable l (span_m_cycle_count sp) (span_bus_event_count sp) ∧
      routing = scheduled (offset + Z.of_nat (span_row_start sp)) l)).
Proof.
  intros [Hlen Hsp] Hle l. fold l in Hlen, Hsp. unfold block_routing.
  destruct Hsp as [(r & El & Hr & Hz & Hm & Hb & _) | (Hne & Hcount & Hp & _)].
  - rewrite Hz, El. cbn [Nat.eqb length negb orb head]. rewrite Hr. eexists. split; [reflexivity |]. left. by exists r.
  - assert (Hl0 : length l ≠ 0%nat) by (by destruct l). pose proof (pk_count _ _ _ Hp) as Hn.
    rewrite Hcount, <- Hlen. rewrite (proj2 (Nat.eqb_neq _ _)) by done. rewrite Nat.eqb_refl.
    rewrite (proj2 (Nat.ltb_ge _ _)) by done. cbn [negb orb].
    pose proof (pk_cycle_bound _ _ _ Hp) as Hm. pose proof (pk_event_bound _ _ _ Hp) as Hb.
    rewrite (pk_cycles _ _ _ Hp) in Hm |- *. rewrite (pk_events _ _ _ Hp) in Hb |- *.
    pose proof (route_rows_spec sp offset l [] (pk_instructions _ _ _ Hp) (slice_fits _ _) Hn Hm Hb Hoffset) as Hroute.
    cbv zeta in Hroute. cbn [app length] in Hroute. change (zsum row_cycles []) with 0 in Hroute.
    change (zsum row_event_count []) with 0 in Hroute. change (scheduled _ []) with padding_routing in Hroute.
    rewrite Hroute, bind_of_ok by (rewrite Hlen; lia). cbv beta iota. rewrite !Z.eqb_refl. cbn [negb orb].
    eexists. split; [reflexivity |]. right. split; [done |]. split; [| done].
    by rewrite <- (pk_cycles _ _ _ Hp), <- (pk_events _ _ _ Hp).
Qed.

Lemma drop_slice start n : take n (drop start rows) = slice rows start (start + n).
Proof. unfold slice. by replace (start + n - start)%nat with n by lia. Qed.

Lemma pack_spans_spec spans : ∀ cursor,
  partition rows cursor spans → (cursor <= length rows)%nat →
  ∃ blocks, pack_spans offset spans (drop cursor rows) = Ok blocks ∧ blocks ≫= block_rows = drop cursor rows ∧
    blocks_ok (offset + Z.of_nat cursor) blocks.
Proof.
  induction spans as [| sp spans IH]; intros cursor Hpart Hc; cbn [partition pack_spans] in *.
  { subst cursor. rewrite drop_all. by exists []. }
  destruct Hpart as (Hstart & Hsp & Hpart). rewrite drop_slice. pose proof Hsp as [Hlen _].
  assert (Hle : (span_row_start sp + span_row_count sp <= length rows)%nat).
  { rewrite Hstart in *. unfold slice in Hlen. rewrite length_take, length_drop in Hlen. lia. }
  destruct (block_routing_spec sp Hsp Hle) as (routing & Hrouting & Hcase). rewrite Hstart in *.
  remember (slice rows cursor (cursor + span_row_count sp)) as l eqn:El.
  assert (Hne : l ≠ []).
  { intros ->. destruct Hcase as [(r & Er & _) | _]; [done |].
    destruct Hsp as [_ [(r & Er & _) | (? & _)]]; rewrite Hstart, <- El in *; done. }
  destruct (nonempty_last l Hne) as (l' & final & Elast).
  assert (Hhead : ∃ first, head l = Some first) by (destruct l; [done | by eexists]).
  destruct Hhead as (first & Hhead). assert (Hlast : last l = Some final) by (by rewrite Elast, last_snoc).
  rewrite Hhead, Hlast. cbn [invariant ok_or]. rewrite !bind_of_ok, Hlen, Nat.eqb_refl. cbn [negb].
  rewrite Hrouting, bind_of_ok, checked_small by lia. cbn [invariant ok_or]. rewrite bind_of_ok. cbv zeta.
  rewrite drop_drop. destruct (IH (cursor + span_row_count sp)%nat Hpart Hle) as (blocks & -> & Hrows & Hok).
  rewrite bind_of_ok. eexists. split; [reflexivity |]. split.
  - cbn [mbind list_bind block_rows]. change (list_bind _ _ block_rows blocks) with (blocks ≫= block_rows).
    rewrite Hrows, El, <- drop_slice, <- (drop_drop rows). apply take_drop.
  - cbn [blocks_ok block_rows]. rewrite Hlen. split.
    + split; cbn; rewrite ?Hhead, ?Hlast; done.
    + by replace (offset + Z.of_nat cursor + Z.of_nat (span_row_count sp)) with
        (offset + Z.of_nat (cursor + span_row_count sp)) by lia.
Qed.
End pack.

Section claims.
Context `{Sha256}.

Lemma declared_accesses i taken :
  defined_instruction i → (length (code_shapes (bus i) ++ data_shapes (bus i) taken) <= BASIC_BLOCK_BUS_EVENT_BOUND)%nat.
Proof.
  intros Hi. pose proof (defined_forall (λ i, forallb (λ taken,
    (length (code_shapes (bus i) ++ data_shapes (bus i) taken) <=? BASIC_BLOCK_BUS_EVENT_BOUND)%nat) [true; false])
    ltac:(by vm_compute) i Hi) as E.
  cbn [forallb] in E. rewrite !andb_true_iff in E. destruct E as (E1 & E2 & _).
  destruct taken; by apply Nat.leb_le.
Qed.

Lemma accepted_fits authentication r : vm_ok (row_before r) → accepted authentication r → row_fits r.
Proof.
  intros Hs (input & Hin & Ha). pose proof (apply_spec _ _ authentication Hs Hin) as Hst. rewrite Ha in Hst.
  pose proof (step_cycles_nonneg _ _ Hs (st_defined _ _ _ _ _ Hst)) as H0.
  pose proof (st_cycles _ _ _ _ _ Hst) as Hc. unfold row_fits, row_cycles. split; [lia |]. intros Hi.
  assert (Hk : se_kind (row_effects r) = SK.Instruction) by (unfold is_instruction_row in Hi; by destruct (se_kind _)).
  pose proof (instruction_cycles_bound (se_instruction (row_effects r)) (se_branch_taken (row_effects r))
    (st_defined _ _ _ _ _ Hst)) as Hb.
  split.
  { unfold step_cycles in Hc. rewrite Hk in Hc. change (Z.of_nat BASIC_BLOCK_M_CYCLE_BOUND) with 6. lia. }
  destruct (accepted_body _ _ _ _ _ Hs Hin Ha Hk) as (_ & Hi' & Hbody).
  destruct Hbody as (c1 & l1 & c2 & l2 & m & (Hdec & _ & Hshape & _) & (Hdata & _) & El & _).
  cbn [fst snd] in *. pose proof (declared_accesses _ (se_branch_taken (row_effects r)) Hi') as Hlen.
  rewrite <- Hshape, (data_pattern _ _ (proj2 (proj2 (proj2 (decoded_pattern _ Hdec))))), <- Hdata in Hlen.
  rewrite length_app, !length_map, <- length_app, <- El, length_map in Hlen.
  unfold row_event_count, events_of. lia.
Qed.

Lemma accepted_rows_fit authentication rows : ∀ s,
  vm_ok s → Forall (accepted authentication) rows → linked rows → (∀ r, head rows = Some r → row_before r = s) →
  Forall row_fits rows.
Proof.
  induction rows as [| r rows IH]; intros s Hs Ha Hl Hh; [constructor |]. specialize (Hh r eq_refl). subst s.
  apply Forall_cons in Ha as [Har Ha]. constructor; [by eapply accepted_fits |].
  apply (IH (row_after r)); [by eapply accepted_cycles | done | by destruct rows; [| apply Hl] |].
  intros r' Hr'. destruct rows; [done |]. injection Hr' as ->. by destruct Hl as [-> _].
Qed.

(** C17. The planner terminates on any rows, accepted or not: the inner loop ends after at most four
    instructions and every iteration of the outer loop consumes a row. *)
Theorem planner_terminates rows w offset :
  plan_basic_blocks rows ≠ None ∧ pack_witness_basic_blocks_at w offset ≠ None.
Proof.
  assert (Hp : ∀ rows, plan_basic_blocks rows ≠ None).
  { intros l. unfold plan_basic_blocks, plan_indexed. destruct (ensure_contiguous _ _ _); [| done].
    apply plan_loop_total. lia. }
  split; [apply Hp |]. unfold pack_witness_basic_blocks_at, plan_witness_basic_blocks.
  specialize (Hp (witness_rows w)). by destruct (plan_basic_blocks _) as [[] |].
Qed.

(** C13. Planning a run succeeds and loses nothing. For rows accepted one after the other from a
    well-formed state the planner terminates with spans, never with an error: an accepted instruction
    always fits the bounds of a block (at most six M-cycles, five bus events). The spans cover the rows
    in order, every row in exactly one span; a machine event is alone in its span; a span of
    instructions has at most four, its cycle and event counts are the sums of its rows and within the
    bounds, no row but the last is one that must end a block, no row but the first one that must stand
    alone; and the recorded cut is true of the row where the span stops. *)
Theorem plan_partitions authentication s rows :
  vm_ok s → Forall (accepted authentication) rows → linked rows →
  (∀ r, head rows = Some r → row_before r = s) →
  ∃ spans, plan_basic_blocks rows = Some (Ok spans) ∧ partition rows 0 spans.
Proof.
  intros Hs Ha Hl Hh. pose proof (accepted_rows_fit _ _ _ Hs Ha Hl Hh) as Hfits.
  unfold plan_basic_blocks, plan_indexed.
  rewrite (ensure_contiguous_linked rows (length rows - 1) 0) by (try lia; by apply linked_lookup).
  apply plan_loop_spec; [done | lia..].
Qed.

(** C14. Packing is exact. Packing the witness of a run, whatever the number of its chunks and wherever its
    rows start (as long as row indices fit a u64), terminates with blocks, never with
    [PartitionInvariant]. The blocks hold the witness's rows in order; each knows its first row's
    index, the state before its first row and after its last; and its schedule is the canonical one:
    lane after lane, each instruction owns exactly as many of the six cycle slots and five bus slots
    as it uses, next to those of the previous lane, and the rest is padding. *)
Theorem packing_exact authentication w offset :
  vm_ok (w_initial_state w) → Forall (accepted authentication) (witness_rows w) → linked (witness_rows w) →
  (∀ r, head (witness_rows w) = Some r → row_before r = w_initial_state w) →
  0 <= offset → offset + Z.of_nat (length (witness_rows w)) < 2 ^ 64 →
  ∃ blocks, pack_witness_basic_blocks_at w offset = Some (Ok blocks) ∧
    blocks ≫= block_rows = witness_rows w ∧ blocks_ok offset blocks.
Proof.
  change (2 ^ 64) with 18446744073709551616. intros Hs Ha Hl Hh H0 Hn.
  pose proof (accepted_rows_fit _ _ _ Hs Ha Hl Hh) as Hfits.
  unfold pack_witness_basic_blocks_at, plan_witness_basic_blocks, plan_basic_blocks, plan_indexed.
  rewrite (ensure_contiguous_linked (witness_rows w) (length (witness_rows w) - 1) 0)
    by (try lia; by apply linked_lookup).
  destruct (plan_loop_spec _ Hfits (length (witness_rows w)) 0) as (spans & -> & Hpart); [lia.. |].
  destruct (pack_spans_spec (witness_rows w) Hfits offset H0 Hn spans 0 Hpart) as (blocks & Hb & Hrows & Hok); [lia |].
  rewrite Z.add_0_r in Hok. rewrite drop_0 in Hb, Hrows. rewrite Hb. by exists blocks.
Qed.
End claims.

Section witnesses.
#[local] Existing Instance const_sha256.

Lemma plan_partitions_witness :
  length demo_rows = 2%nat ∧ ∃ spans, plan_basic_blocks demo_rows = Some (Ok spans) ∧ partition demo_rows 0 spans.
Proof.
  split; [reflexivity |].
  exact (plan_partitions Auth.Merkle demo_start demo_rows demo_start_ok demo_rows_accepted demo_rows_linked demo_rows_head).
Defined.

Lemma packing_exact_witness :
  ∃ blocks, pack_witness_basic_blocks_at (MkWitness [MkChunk demo_rows] demo_start demo_start 2) 5 = Some (Ok blocks) ∧
    blocks ≫= block_rows = witness_rows (MkWitness [MkChunk demo_rows] demo_start demo_start 2) ∧ blocks_ok 5 blocks.
Proof.
  assert (E : witness_rows (MkWitness [MkChunk demo_rows] demo_start demo_start 2) = demo_rows) by apply app_nil_r.
  apply (packing_exact Auth.Merkle); rewrite ?E;
    [exact demo_start_ok | exact demo_rows_accepted | exact demo_rows_linked | exact demo_rows_head | lia | reflexivity].
Defined.

(** [LD A,7] and [LD (0xc000),A] take six cycles and six bus accesses, one too many: two spans. *)
Example demo_spans :
  (match plan_basic_blocks demo_rows with
   | Some (Ok spans) => map (λ sp, (span_row_count sp, span_m_cycle_count sp, span_bus_event_count sp, span_cut sp)) spans
   | _ => []
   end) = [(1%nat, 2, 2, Cut.BusEventBound); (1%nat, 4, 4, Cut.EndOfTrace)].
Proof. vm_compute. reflexivity. Qed.
End witnesses.
