(* ===== verification/Findings.v ===== *)
(** * Where the code departs from its documentation

    Executions of the model, evaluated in the kernel, behind the divergences the manifest records, and
    the unreachability of one error of the data bus. *)
From S2P Require Import Prelude IsaTypes Metadata Decode Alignment Flags Alu Address Commitment Merkle.
From S2P Require Import Logs Mbc3 Timer Device Halt State Bus Execute Transition Access StepLogic.
From S2P Require Import StepTrace Step Effects Runs Conform.

(** A write below 0x8000 is a mapper control write before its owner is asked, and the ROM owns no other
    address: the [WriteToRom] branch of [write_data] is dead. *)
Lemma write_to_rom_unreachable s address : (address <=? 0x7fff) = false → state_owner s address ≠ Own.Rom.
Proof. intros E. unfold state_owner, owner, dmg_owner, in_range. repeat case_match; try done; lia. Qed.

Section examples.
#[local] Existing Instance const_sha256.

Definition dmg_start : VmState := Vm.dmg_post_boot_mbc3_initial (replicate 32 0) (replicate 32 0).
(** MBC3 RAM enabled with bank 1 selected. *)
Definition ram_start : VmState := dmg_start <| mbc3 := MkMbc3 true 1 1 |>.
Definition ram_byte (physical value : Z) : BusWitness :=
  Wit.MemoryRead (MkMemoryRead 0xa000 physical value (MkPath [])).
Definition lookup_executor (s : VmState) (input : list BusWitness) : Executor := executor_new s input Auth.Lookup.

(** The byte the CPU writes to 0xa000 is kept at physical address 0x12000 and read back from there, but an
    instruction fetch at 0xa000 takes physical address 0xa000. *)
Example fetch_bypasses_mapper :
  is_ok (read_data 0xa000 (lookup_executor ram_start [ram_byte 0x12000 7])) = true ∧
  is_ok (fetch_instruction 0xa000 Role.OpcodeFetch (lookup_executor ram_start [ram_byte 0x12000 7])) = false ∧
  is_ok (fetch_instruction 0xa000 Role.OpcodeFetch (lookup_executor ram_start [ram_byte 0xa000 7])) = true.
Proof. by vm_compute. Qed.

(** [HALT] with an interrupt enabled and requested while IME is off is left in one step. *)
Definition halted_start : VmState :=
  dmg_start <| cpu := set_run_state Run.Halted (cpu dmg_start) |>
            <| dmg_devices := (dmg_devices dmg_start) <| interrupt_enable := 1 |> <| interrupt_request := 1 |> |>.
Example halted_cpu_wakes :
  match lookup_step_relation_apply halted_start [] with
  | Ok (s, eff) => run_state (cpu s) = Run.Running ∧ se_kind eff = SK.HaltWake
  | Err _ => False
  end.
Proof. vm_compute. by split. Qed.

(** [NOP] declares no write of the run state, but the fetch after a HALT bug leaves [HaltBug]. *)
Definition halt_bug_start : VmState := dmg_start <| cpu := set_run_state Run.HaltBug (cpu dmg_start) |>.
Example nop_leaves_halt_bug :
  writes (state_access_of Op.Nop) SC.RunState = false ∧
  match lookup_step_relation_apply halt_bug_start [Wit.Rom (MkRomRead 0x100 0x100 0 (MkPath []))] with
  | Ok (s, eff) => operation (se_instruction eff) = Op.Nop ∧ run_state (cpu s) = Run.Running
  | Err _ => False
  end.
Proof. vm_compute. by split. Qed.

(** [PUSH BC] with SP = 0x2002 is accepted and writes the mapper twice: 0x2001 and 0x2000 select the ROM bank.
    The CPU relation pushes [boolean(control_count)] of a row, which is not zero at two. *)
Definition control_writes (eff : StepEffects) : list (Z * Z) :=
  omap (λ e, match e with Ev.Mbc3ControlWrite address value => Some (address, value) | _ => None end) (se_bus_events eff).
Definition push_start : VmState :=
  dmg_start <| cpu := set_sp 0x2002 (set_register16 R16.Bc 0x0304 (cpu dmg_start)) |>.
Example push_writes_mapper_twice :
  match lookup_step_relation_apply push_start [Wit.Rom (MkRomRead 0x100 0x100 0xc5 (MkPath []))] with
  | Ok (s, eff) => control_writes eff = [(0x2001, 3); (0x2000, 4)] ∧ rom_bank (mbc3 s) = 4
  | Err _ => False
  end.
Proof. vm_compute. by split. Qed.
End examples.
