(* ===== verification/Builder.v ===== *)
(** * Witness builders (crates/zksm83-trace/src/{builder,lookup_builder}.rs)

    The prover's adapters around the step relations. A builder keeps a ROM, a mutable memory, the private
    input and the machine state; it runs a step with the witnesses planned so far, plans the witness the
    relation found missing, and starts over until the step is accepted. [TraceBuilder] answers from
    committed images, [LookupTraceBuilder] from plain byte arrays. What the two share is written once over
    the interface [Builder]; the images, the errors and the constructors are each builder's own. *)
From S2P Require Import Prelude IsaTypes Metadata Decode Address Commitment Merkle Image Logs Mbc3 Device.
From S2P Require Import State Bus Execute Transition Trace.

(** ** Planned witnesses *)

Module Pw.
Inductive PlannedWitness :=
| Rom (address physical_address : Z)
| MemoryRead (address physical_address : Z)
| MemoryWrite (address physical_address value : Z)
| InputByte (value : Z).
End Pw.
Abbreviation PlannedWitness := Pw.PlannedWitness.

Definition MAX_WITNESSES_PER_STEP : nat := 5.

Definition is_input_byte (planned : PlannedWitness) : bool :=
  match planned with Pw.InputByte _ => true | _ => false end.

(** ** The public boundary of an executed prefix (model.rs) *)

Record ExecutionBoundary := MkBoundary {
  bd_initial_state : VmState; bd_final_state : VmState; bd_step_count : Z; bd_metrics : ExecutionMetrics
}.
Definition from_exact (initial_state final_state : VmState) (metrics : ExecutionMetrics) : ExecutionBoundary :=
  MkBoundary initial_state final_state (relation_steps metrics) metrics.

(** ** The interface shared by the two builders

    [B] is a builder and [E] its error type. *)
Class Builder (B E : Type) := {
  b_state : B → VmState;
  b_input : B → list Z;
  b_relation : VmState → list BusWitness → result StepError (VmState * StepEffects);
  b_materialize : B → list PlannedWitness → result E (list BusWitness);
  b_accept : B → VmState → StepEffects → result E B;
  b_exact_row : B → bool;
  e_step : StepError → E;
  e_trace : TraceError → E;
  e_witness_bound : Z → E;
  e_input_exhausted : Z → E;
  e_input_index : E;
  e_zero_step_chunk : E;
  e_terminated : Z → Z → RunState → E;
  e_exact_step_failed : Z → Z → E → E;
  e_milestone : Z → E
}.

Section builder.
Context {B E : Type} `{Builder B E}.

(** [plan]: the witness that answers a request. [usize::try_from] succeeds on 64-bit words. *)
Definition plan_witness (b : B) (request : WitnessRequest) (existing : list PlannedWitness) :
    result E PlannedWitness :=
  match request with
  | Req.Rom address physical_address _ => Ok (Pw.Rom address physical_address)
  | Req.MemoryRead address physical_address => Ok (Pw.MemoryRead address physical_address)
  | Req.MemoryWrite address physical_address value => Ok (Pw.MemoryWrite address physical_address value)
  | Req.InputByte =>
      let prior := Z.of_nat (length (filter (λ p, is_input_byte p = true) existing)) in
      index ← ok_or (checked_add_u64 (log_next_index (input_log (b_state b))) prior) e_input_index;
      value ← ok_or (b_input b !! Z.to_nat index) (e_input_exhausted index);
      Ok (Pw.InputByte value)
  end.

(** The loop of [step]; [remaining] is the room left in the plan, [MAX_WITNESSES_PER_STEP - plan.len()]. *)
Fixpoint step_loop (b : B) (remaining : nat) (plan : list PlannedWitness) : result E (B * TraceRow) :=
  input ← b_materialize b plan;
  match b_relation (b_state b) input with
  | Ok (after, effects) =>
      b' ← b_accept b after effects;
      Ok (b', MkRow (b_state b) after effects)
  | Err (SErr.MissingWitness request) =>
      match remaining with
      | O => Err (e_witness_bound (Z.of_nat MAX_WITNESSES_PER_STEP))
      | S remaining =>
          planned ← plan_witness b request plan;
          step_loop b remaining (plan ++ [planned])
      end
  | Err error => Err (e_step error)
  end.
Definition step (b : B) : result E (B * TraceRow) := step_loop b MAX_WITNESSES_PER_STEP [].

Definition require_exact_row (b : B) (completed requested : Z) : result E () :=
  if b_exact_row b then Ok () else Err (e_terminated completed requested (run_state (cpu (b_state b)))).

(** One iteration of both loops below: a row accepted by the relation, the metrics and the consumer [accept],
    whose captured variables are [c]. *)
Definition exact_iteration {C} (accept : C → TraceRow → result E C) (completed requested : Z)
    (b : B) (metrics : ExecutionMetrics) (c : C) : result E (B * ExecutionMetrics * C) :=
  _ ← require_exact_row b completed requested;
  let pc := pc (cpu (b_state b)) in
  '(b, row) ← map_err (e_exact_step_failed completed pc) (step b);
  metrics ← map_err e_trace (metrics_record metrics row);
  c ← accept c row;
  Ok (b, metrics, c).

(** [for completed in 0..step_count]: [n] iterations left *)
Fixpoint exact_loop {C} (accept : C → TraceRow → result E C) (n : nat) (completed requested : Z)
    (b : B) (metrics : ExecutionMetrics) (c : C) : result E (B * ExecutionMetrics * C) :=
  match n with
  | O => Ok (b, metrics, c)
  | S n =>
      '(b, metrics, c) ← exact_iteration accept completed requested b metrics c;
      exact_loop accept n (completed + 1) requested b metrics c
  end.

Definition execute_exact {C} (accept : C → TraceRow → result E C) (step_count : Z) (b : B) (c : C) :
    result E (B * ExecutionBoundary * C) :=
  if step_count =? 0 then Err e_zero_step_chunk
  else
    '(b', metrics, c) ← exact_loop accept (Z.to_nat step_count) 0 step_count b metrics_default c;
    Ok (b', from_exact (b_state b) (b_state b') metrics, c).

Fixpoint until_loop {C} (reached : VmState → bool) (accept : C → TraceRow → result E C) (n : nat)
    (completed requested : Z) (b : B) (metrics : ExecutionMetrics) (c : C) :
    result E (B * ExecutionMetrics * C) :=
  match n with
  | O => Err (e_milestone requested)
  | S n =>
      '(b, metrics, c) ← exact_iteration accept completed requested b metrics c;
      if reached (b_state b) then Ok (b, metrics, c)
      else until_loop reached accept n (completed + 1) requested b metrics c
  end.

Definition execute_until {C} (step_bound : Z) (reached : VmState → bool) (accept : C → TraceRow → result E C)
    (b : B) (c : C) : result E (B * ExecutionBoundary * C) :=
  if step_bound =? 0 then Err e_zero_step_chunk
  else
    '(b', metrics, c) ← until_loop reached accept (Z.to_nat step_bound) 0 step_bound b metrics_default c;
    Ok (b', from_exact (b_state b) (b_state b') metrics, c).

(** The consumers: [rows.push(row)], nothing, [profile.record(&row)]. *)
Definition push_row (rows : list TraceRow) (row : TraceRow) : result E (list TraceRow) := Ok (rows ++ [row]).
Definition drop_row (u : ()) (row : TraceRow) : result E () := Ok u.
Definition profile_row (p : ProgramCounterProfile) (row : TraceRow) : result E ProgramCounterProfile :=
  map_err e_trace (profile_record p row).

Definition run_exact_steps (step_count : Z) (b : B) : result E (B * Witness) :=
  '(b, _, rows) ← execute_exact push_row step_count b [];
  witness ← map_err e_trace (from_rows rows);
  Ok (b, witness).
Definition run_exact_boundary (step_count : Z) (b : B) : result E (B * ExecutionBoundary) :=
  '(b, boundary, _) ← execute_exact drop_row step_count b ();
  Ok (b, boundary).
Definition run_exact_boundary_profiled (step_count : Z) (b : B) :
    result E (B * ExecutionBoundary * ProgramCounterProfile) :=
  execute_exact profile_row step_count b ∅.
Definition run_until_boundary (step_bound : Z) (reached : VmState → bool) (b : B) :
    result E (B * ExecutionBoundary) :=
  '(b, boundary, _) ← execute_until step_bound reached drop_row b ();
  Ok (b, boundary).
Definition run_until_boundary_profiled (step_bound : Z) (reached : VmState → bool) (b : B) :
    result E (B * ExecutionBoundary * ProgramCounterProfile) :=
  execute_until step_bound reached profile_row b ∅.
End builder.

(** ** [TraceBuilder]: committed images (builder.rs) *)

Module TbErr.
Inductive TraceBuilderError :=
| Step (e : StepError)
| State (e : VErr.VmStateError)
| Rom (e : RomErr.RomImageError)
| Memory (e : MemErr.MemoryImageError)
| Trace (e : TraceError)
| StepBoundReached (step_bound : Z)
| ZeroStepChunk
| TerminatedBeforeExactSteps (completed requested : Z) (run_state : RunState)
| ExactStepFailed (completed pc : Z) (source : TraceBuilderError)
| MilestoneNotReached (completed : Z)
| InputExhausted (index : Z)
| InputIndexOverflow
| CheckpointRomRootMismatch
| CheckpointMemoryRootMismatch
| CheckpointInputTooShort (consumed provided : Z)
| CheckpointInputRootMismatch
| CheckpointInputCommitment (e : LogErr.LogError)
| UnconsumedInput (consumed provided : Z)
| WitnessBoundExceeded (maximum : Z)
| MemoryEffectDivergence.
End TbErr.
Abbreviation TraceBuilderError := TbErr.TraceBuilderError.
Abbreviation tb_result := (result TraceBuilderError).

(** [TraceBuilderError::completed_exact_steps] *)
Definition completed_exact_steps (e : TraceBuilderError) : option Z :=
  match e with
  | TbErr.TerminatedBeforeExactSteps completed _ _ | TbErr.ExactStepFailed completed _ _
  | TbErr.MilestoneNotReached completed => Some completed
  | _ => None
  end.

Record TraceBuilder := MkBuilder {
  tb_rom : RomImage; tb_memory : MemoryImage; tb_input : list Z; tb_state : VmState
}.

(** Whether a planned read or write follows a planned write. *)
Fixpoint requires_memory_fork (write_seen : bool) (plan : list PlannedWitness) : bool :=
  match plan with
  | [] => false
  | Pw.MemoryWrite _ _ _ :: plan => if write_seen then true else requires_memory_fork true plan
  | Pw.MemoryRead _ _ :: plan => if write_seen then true else requires_memory_fork write_seen plan
  | _ :: plan => requires_memory_fork write_seen plan
  end.

Section trace_builder.
Context `{Sha256}.

Definition builder_new (rom : RomImage) (memory : MemoryImage) (private_input : list Z) : TraceBuilder :=
  MkBuilder rom memory private_input (Vm.profile_initial (rom_image_root rom) (memory_image_root memory)).
Definition new_dmg_post_boot_mbc3 (rom : RomImage) (memory : MemoryImage) (private_input : list Z) : TraceBuilder :=
  MkBuilder rom memory private_input
    (Vm.dmg_post_boot_mbc3_initial (rom_image_root rom) (memory_image_root memory)).
Definition new_dmg_post_boot_mbc3_profile (rom : RomImage) (memory : MemoryImage) (private_input : list Z)
    (profile : MachineProfile) : tb_result TraceBuilder :=
  state ← map_err TbErr.State
            (Vm.dmg_post_boot_mbc3_profile_initial profile (rom_image_root rom) (memory_image_root memory));
  Ok (MkBuilder rom memory private_input state).

(** [TraceBuilder::resume]; a length always fits 64 bits, and the prefix of a long enough slice exists. *)
Definition resume (rom : RomImage) (memory : MemoryImage) (private_input : list Z) (state : VmState) :
    tb_result TraceBuilder :=
  if negb (bool_decide (vm_rom_root state = rom_image_root rom)) then Err TbErr.CheckpointRomRootMismatch
  else if negb (bool_decide (memory_root state = memory_image_root memory)) then
    Err TbErr.CheckpointMemoryRootMismatch
  else
    let provided := Z.of_nat (length private_input) in
    let consumed := log_next_index (input_log state) in
    if provided <? consumed then Err (TbErr.CheckpointInputTooShort consumed provided)
    else
      let consumed_prefix := take (Z.to_nat consumed) private_input in
      committed_prefix ← map_err TbErr.CheckpointInputCommitment (log_commit LogKind.Input consumed_prefix);
      if negb (bool_decide (committed_prefix = input_log state)) then Err TbErr.CheckpointInputRootMismatch
      else Ok (MkBuilder rom memory private_input state).

Definition tb_checkpoint_memory (b : TraceBuilder) : list Z := checkpoint_bytes (tb_memory b).
Definition tb_battery_sram (b : TraceBuilder) : tb_result (list Z) :=
  map_err TbErr.Memory (battery_sram_bytes (tb_memory b)).

(** The loop of [materialize]; [fork] is the forked image, when the plan needs one. *)
Fixpoint materialize_loop (b : TraceBuilder) (fork : option MemoryImage) (plan : list PlannedWitness) :
    tb_result (list BusWitness) :=
  match plan with
  | [] => Ok []
  | planned :: plan =>
      '(witness, fork) ←
        match planned with
        | Pw.Rom address physical_address =>
            read ← map_err TbErr.Rom (rom_read_mapped (tb_rom b) address physical_address);
            Ok (Wit.Rom read, fork)
        | Pw.MemoryRead address physical_address =>
            read ← map_err TbErr.Memory
                     (memory_read_mapped (default (tb_memory b) fork) address physical_address);
            Ok (Wit.MemoryRead read, fork)
        | Pw.MemoryWrite address physical_address value =>
            match fork with
            | Some memory =>
                '(write, memory) ← map_err TbErr.Memory
                                     (memory_write_mapped memory address physical_address value);
                Ok (Wit.MemoryWrite write, Some memory)
            | None =>
                write ← map_err TbErr.Memory
                          (preview_write_mapped (tb_memory b) address physical_address value);
                Ok (Wit.MemoryWrite write, None)
            end
        | Pw.InputByte value => Ok (Wit.InputByte value, fork)
        end;
      witnesses ← materialize_loop b fork plan;
      Ok (witness :: witnesses)
  end.
Definition materialize (b : TraceBuilder) (plan : list PlannedWitness) : tb_result (list BusWitness) :=
  materialize_loop b (if requires_memory_fork false plan then Some (tb_memory b) else None) plan.

Fixpoint apply_image_events (memory : MemoryImage) (events : list BusEvent) : tb_result MemoryImage :=
  match events with
  | [] => Ok memory
  | (Ev.MemoryWrite expected | Ev.DmgDmaWrite expected) :: events =>
      '(actual, memory) ← map_err TbErr.Memory
        (memory_write_mapped memory (mw_address expected) (mw_physical_address expected) (mw_after expected));
      if negb (bool_decide (actual = expected)) then Err TbErr.MemoryEffectDivergence
      else apply_image_events memory events
  | _ :: events => apply_image_events memory events
  end.
Definition apply_image_effects (memory : MemoryImage) (effects : StepEffects) (expected_root : CommitmentRoot) :
    tb_result MemoryImage :=
  memory ← apply_image_events memory (se_bus_events effects);
  if negb (bool_decide (memory_image_root memory = expected_root)) then Err TbErr.MemoryEffectDivergence
  else Ok memory.

#[global] Instance trace_builder : Builder TraceBuilder TraceBuilderError := {
  b_state := tb_state;
  b_input := tb_input;
  b_relation := step_relation_apply;
  b_materialize := materialize;
  b_accept b after effects :=
    memory ← apply_image_effects (tb_memory b) effects (memory_root after);
    Ok (MkBuilder (tb_rom b) memory (tb_input b) after);
  b_exact_row b :=
    can_execute_instruction (run_state (cpu (tb_state b))) ||
    (is_dmg_post_boot_mbc3 (profile (tb_state b)) && bool_decide (run_state (cpu (tb_state b)) = Run.Halted));
  e_step := TbErr.Step;
  e_trace := TbErr.Trace;
  e_witness_bound := TbErr.WitnessBoundExceeded;
  e_input_exhausted := TbErr.InputExhausted;
  e_input_index := TbErr.InputIndexOverflow;
  e_zero_step_chunk := TbErr.ZeroStepChunk;
  e_terminated := TbErr.TerminatedBeforeExactSteps;
  e_exact_step_failed := TbErr.ExactStepFailed;
  e_milestone := TbErr.MilestoneNotReached
}.

Definition tb_step : TraceBuilder → tb_result (TraceBuilder * TraceRow) := step.

(** The loop of [run]: at most [n] rows, stopping at a state that executes no instruction. *)
Fixpoint run_loop (n : nat) (b : TraceBuilder) (rows : list TraceRow) : tb_result (TraceBuilder * list TraceRow) :=
  match n with
  | O => Ok (b, rows)
  | S n =>
      if negb (can_execute_instruction (run_state (cpu (tb_state b)))) then Ok (b, rows)
      else '(b, row) ← tb_step b; run_loop n b (rows ++ [row])
  end.
Definition builder_run (step_bound : Z) (b : TraceBuilder) : tb_result Witness :=
  '(b, rows) ← run_loop (Z.to_nat step_bound) b [];
  if bool_decide (run_state (cpu (tb_state b)) = Run.Running) then Err (TbErr.StepBoundReached step_bound)
  else
    let consumed := log_next_index (input_log (tb_state b)) in
    let provided := Z.of_nat (length (tb_input b)) in
    if negb (consumed =? provided) then Err (TbErr.UnconsumedInput consumed provided)
    else map_err TbErr.Trace (from_rows rows).
End trace_builder.

(** ** [LookupTraceBuilder]: plain byte arrays (lookup_builder.rs) *)

Module LtbErr.
Inductive LookupTraceBuilderError :=
| EmptyRom
| RomTooLarge (actual maximum : Z)
| MemoryLength (actual expected : Z)
| PhysicalAddressOutOfRange (address : Z)
| AddressOverflow
| InputExhausted (index : Z)
| InputIndexOverflow
| WitnessBoundExceeded (maximum : Z)
| WitnessPlanInvariant
| Step (e : StepError)
| State (e : VErr.VmStateError)
| MemoryEffectDivergence
| ZeroStepChunk
| StepCountOverflow
| CheckpointProfileMismatch
| CheckpointTranscriptNotEmpty
| CheckpointInputTooShort (consumed provided : Z)
| CheckpointInputRootMismatch
| InputCommitment (e : LogErr.LogError)
| TerminatedBeforeExactSteps (completed requested : Z) (run_state : RunState)
| MilestoneNotReached (completed : Z)
| ExactStepFailed (completed pc : Z) (source : LookupTraceBuilderError)
| Trace (e : TraceError).
End LtbErr.
Abbreviation LookupTraceBuilderError := LtbErr.LookupTraceBuilderError.
Abbreviation ltb_result := (result LookupTraceBuilderError).

Record LookupTraceBuilder := MkLookupBuilder {
  ltb_rom : list Z; ltb_memory : list Z; ltb_input : list Z; ltb_state : VmState
}.

(** [byte] and [set_byte]; a u32 address always fits [usize]. *)
Definition table_byte (bytes : list Z) (address : Z) : ltb_result Z :=
  ok_or (bytes !! Z.to_nat address) (LtbErr.PhysicalAddressOutOfRange address).
Definition set_byte (bytes : list Z) (address value : Z) : ltb_result (list Z) :=
  _ ← table_byte bytes address; Ok (<[Z.to_nat address := value]> bytes).

Section lookup_builder.
Context `{Sha256}.

(** The checks of the tables shared by both constructors, and the resized ROM. *)
Definition lookup_tables (rom memory : list Z) : ltb_result (list Z) :=
  let rom_len := Z.of_nat (length rom) in
  let memory_len := Z.of_nat (length memory) in
  if rom_len =? 0 then Err LtbErr.EmptyRom
  else if ROM_BYTES <? rom_len then Err (LtbErr.RomTooLarge rom_len ROM_BYTES)
  else if negb (memory_len =? MUTABLE_COMMITMENT_BYTES) then
    Err (LtbErr.MemoryLength memory_len MUTABLE_COMMITMENT_BYTES)
  else Ok (resize rom ROM_BYTES).

Definition lookup_new_profile (rom memory private_input : list Z) (rom_root memory_root_anchor : CommitmentRoot)
    (profile : MachineProfile) : ltb_result LookupTraceBuilder :=
  rom ← lookup_tables rom memory;
  state ← map_err LtbErr.State (Vm.dmg_post_boot_mbc3_profile_initial profile rom_root memory_root_anchor);
  Ok (MkLookupBuilder rom memory private_input state).
Definition lookup_new (rom memory private_input : list Z) (rom_root memory_root_anchor : CommitmentRoot) :
    ltb_result LookupTraceBuilder :=
  lookup_new_profile rom memory private_input rom_root memory_root_anchor Profile.DmgPostBootMbc3V1.

Definition validate_input_prefix (private_input : list Z) (state : VmState) : ltb_result () :=
  let provided := Z.of_nat (length private_input) in
  let consumed := log_next_index (input_log state) in
  if provided <? consumed then Err (LtbErr.CheckpointInputTooShort consumed provided)
  else
    committed ← map_err LtbErr.InputCommitment
                  (log_commit LogKind.Input (take (Z.to_nat consumed) private_input));
    if negb (bool_decide (committed = input_log state)) then Err LtbErr.CheckpointInputRootMismatch
    else Ok ().

Definition lookup_resume (rom memory private_input : list Z) (state : VmState) : ltb_result LookupTraceBuilder :=
  rom ← lookup_tables rom memory;
  if negb (is_dmg_post_boot_mbc3 (profile state)) then Err LtbErr.CheckpointProfileMismatch
  else if negb (bus_next_index (bus_transcript state) =? 0) || negb (isa_next_index (isa_transcript state) =? 0)
  then Err LtbErr.CheckpointTranscriptNotEmpty
  else
    _ ← validate_input_prefix private_input state;
    Ok (MkLookupBuilder rom memory private_input state).

Definition ltb_battery_sram (b : LookupTraceBuilder) : ltb_result (list Z) :=
  let stop := BATTERY_SRAM_START + BATTERY_SRAM_BYTES in
  if Z.of_nat (length (ltb_memory b)) <? stop then Err LtbErr.AddressOverflow
  else Ok (take (Z.to_nat BATTERY_SRAM_BYTES) (drop (Z.to_nat BATTERY_SRAM_START) (ltb_memory b))).

(** The latest planned write of the byte, else the table. *)
Definition planned_memory_byte (b : LookupTraceBuilder) (preceding : list PlannedWitness) (physical_address : Z) :
    ltb_result Z :=
  let hit planned :=
    match planned with
    | Pw.MemoryWrite _ address value => if address =? physical_address then Some value else None
    | _ => None
    end in
  match head (omap hit (rev preceding)) with
  | Some value => Ok value
  | None => table_byte (ltb_memory b) physical_address
  end.

(** The loop of [materialize] with the planned witnesses before the current one. *)
Fixpoint lookup_materialize_loop (b : LookupTraceBuilder) (preceding plan : list PlannedWitness) :
    ltb_result (list BusWitness) :=
  match plan with
  | [] => Ok []
  | planned :: plan =>
      witness ←
        match planned with
        | Pw.Rom address physical_address =>
            value ← table_byte (ltb_rom b) physical_address;
            Ok (Wit.Rom (MkRomRead address physical_address value lookup_placeholder))
        | Pw.MemoryRead address physical_address =>
            value ← planned_memory_byte b preceding physical_address;
            Ok (Wit.MemoryRead (MkMemoryRead address physical_address value lookup_placeholder))
        | Pw.MemoryWrite address physical_address value =>
            before ← planned_memory_byte b preceding physical_address;
            Ok (Wit.MemoryWrite (MkMemoryWrite address physical_address before value lookup_placeholder))
        | Pw.InputByte value => Ok (Wit.InputByte value)
        end;
      witnesses ← lookup_materialize_loop b (preceding ++ [planned]) plan;
      Ok (witness :: witnesses)
  end.
Definition lookup_materialize (b : LookupTraceBuilder) (plan : list PlannedWitness) : ltb_result (list BusWitness) :=
  lookup_materialize_loop b [] plan.

Fixpoint apply_memory_effects (memory : list Z) (events : list BusEvent) : ltb_result (list Z) :=
  match events with
  | [] => Ok memory
  | (Ev.MemoryWrite write | Ev.DmgDmaWrite write) :: events =>
      before ← table_byte memory (mw_physical_address write);
      if negb (before =? mw_before write) then Err LtbErr.MemoryEffectDivergence
      else
        memory ← set_byte memory (mw_physical_address write) (mw_after write);
        apply_memory_effects memory events
  | _ :: events => apply_memory_effects memory events
  end.

#[global] Instance lookup_builder : Builder LookupTraceBuilder LookupTraceBuilderError := {
  b_state := ltb_state;
  b_input := ltb_input;
  b_relation := lookup_step_relation_apply;
  b_materialize := lookup_materialize;
  b_accept b after effects :=
    memory ← apply_memory_effects (ltb_memory b) (se_bus_events effects);
    Ok (MkLookupBuilder (ltb_rom b) memory (ltb_input b) after);
  b_exact_row b :=
    can_execute_instruction (run_state (cpu (ltb_state b))) ||
    bool_decide (run_state (cpu (ltb_state b)) = Run.Halted);
  e_step := LtbErr.Step;
  e_trace := LtbErr.Trace;
  e_witness_bound := LtbErr.WitnessBoundExceeded;
  e_input_exhausted := LtbErr.InputExhausted;
  e_input_index := LtbErr.InputIndexOverflow;
  e_zero_step_chunk := LtbErr.ZeroStepChunk;
  e_terminated := LtbErr.TerminatedBeforeExactSteps;
  e_exact_step_failed := LtbErr.ExactStepFailed;
  e_milestone := LtbErr.MilestoneNotReached
}.

Definition ltb_step : LookupTraceBuilder → ltb_result (LookupTraceBuilder * TraceRow) := step.
End lookup_builder.
