(* ===== verification/Serve.v ===== *)
(** * Serving the witnesses of a step

    A server answers planned witnesses from a ROM and a byte array. [replay_at x m] says what running the
    method [m] again with one more served witness does: a method that stopped for want of a witness goes
    on with the right answer, and no answer is ever blamed. The predicate is closed under the monad, and
    [serves] is a second instance of [StepLogic]. *)
From S2P Require Import Prelude IsaTypes Metadata Decode Alignment Address Commitment Merkle Image Logs.
From S2P Require Import Mbc3 Timer Apu Device Halt State Bus Execute Transition Access StepLogic StepTrace.
From S2P Require Import Step Trace Builder.

(** ** Executors with further witnesses *)

(** [x] with [l] after its witnesses. *)
Definition feed (l : list BusWitness) (x : Executor) : Executor := x <| ex_witnesses := ex_witnesses x ++ l |>.
(** A result whose executor gets the witnesses [l]. *)
Definition supplied {A} (l : list BusWitness) (r : result StepError (A * Executor)) : result StepError (A * Executor) :=
  match r with Ok (a, x) => Ok (a, with_witnesses l x) | Err e => Err e end.

(** ** Quiet methods: they take no witness and keep the memory root *)

Definition quiet {A} (m : M A) : Prop := ∀ x, ∃ r, (∀ l, m (with_witnesses l x) = supplied l r) ∧
  match r with
  | Ok (_, y) => memory_root (ex_state y) = memory_root (ex_state x) ∧
      ex_authentication y = ex_authentication x
  | Err e => witness_error e = false
  end.

Lemma quiet_ret {A} (a : A) : quiet (mret a).
Proof. intros x. by exists (Ok (a, x)). Qed.
Lemma quiet_fail {A} e : witness_error e = false → quiet (@fail A e).
Proof. intros He x. by exists (Err e). Qed.
Lemma quiet_lift {A} (r : result StepError A) : (∀ e, r = Err e → witness_error e = false) → quiet (lift r).
Proof. intros He. destruct r as [a | e]; [apply quiet_ret | apply (quiet_fail e); auto]. Qed.
Lemma quiet_state : quiet state.
Proof. intros x. by exists (Ok (ex_state x, x)). Qed.
Lemma quiet_get_cpu : quiet get_cpu.
Proof. intros x. by exists (Ok (cpu (ex_state x), x)). Qed.
Lemma quiet_modify_state f : (∀ s, memory_root (f s) = memory_root s) → quiet (modify_state f).
Proof. intros Hf x. exists (Ok ((), with_state (f (ex_state x)) x)). split; [done |]. by split; [apply Hf |]. Qed.
Lemma quiet_push_event e : quiet (push_event e).
Proof. intros x. by exists (Ok ((), emit e x)). Qed.
Lemma quiet_bind {A B} (m : M A) (f : A → M B) : quiet m → (∀ a, quiet (f a)) → quiet (m ≫= f).
Proof.
  intros Hm Hf x. destruct (Hm x) as ([[a y] | e] & Hr & Hy).
  - destruct (Hf a y) as (r & Hr' & Hz). exists r. split.
    + intros l. unfold mbind, M_bind. rewrite Hr. cbn. apply Hr'.
    + destruct r as [[b z] | e]; [| done]. destruct Hy, Hz. by split; etrans.
  - exists (Err e). split; [| done]. intros l. unfold mbind, M_bind. by rewrite Hr.
Qed.

Ltac quiet_step :=
  match goal with
  | |- quiet (let _ := _ in _) => cbv zeta
  | |- quiet (_ ≫= _) => apply quiet_bind; [| intros ?]
  | |- quiet (mret _) => apply quiet_ret
  | |- quiet (fail _) => apply quiet_fail; reflexivity
  | |- quiet state => apply quiet_state
  | |- quiet get_cpu => apply quiet_get_cpu
  | |- quiet (modify_state _) => apply quiet_modify_state; reflexivity
  | |- quiet (modify_cpu _) => apply quiet_modify_state; reflexivity
  | |- quiet (modify_devices _) => apply quiet_modify_state; reflexivity
  | |- quiet (push_event _) => apply quiet_push_event
  | |- quiet (lift _) => apply quiet_lift
  | |- quiet (match ?b with _ => _ end) => destruct b
  end.

Section serve.
Context `{Sha256}.

(** ** Servers *)

(** What the requests and the plans of one machine range over. *)
Definition plan_ok (s0 : VmState) (planned : PlannedWitness) : Prop :=
  match planned with
  | Pw.Rom a p => owner a = Own.Rom ∧ 0 <= p < byte_length (rom_size (mbc3_cartridge_profile (profile s0)))
  | Pw.MemoryRead a p => memory_owned a = true ∧ 0 <= p < MUTABLE_COMMITMENT_BYTES
  | Pw.MemoryWrite a p v => memory_owned a = true ∧ 0 <= p < MUTABLE_COMMITMENT_BYTES ∧ is_u8 v
  | Pw.InputByte v => is_u8 v
  end.

(** The plans that answer a request. *)
Definition plans (r : WitnessRequest) (planned : PlannedWitness) : Prop :=
  match r, planned with
  | Req.Rom a p _, Pw.Rom a' p' => a' = a ∧ p' = p
  | Req.MemoryRead a p, Pw.MemoryRead a' p' => a' = a ∧ p' = p
  | Req.MemoryWrite a p v, Pw.MemoryWrite a' p' v' => a' = a ∧ p' = p ∧ v' = v
  | Req.InputByte, Pw.InputByte _ => True
  | _, _ => False
  end.
(** A request all of whose plans, with a byte as input, are in range. *)
Definition servable (s0 : VmState) (r : WitnessRequest) : Prop :=
  ∀ planned, plans r planned → (r = Req.InputByte → plan_ok s0 planned) → plan_ok s0 planned.

Definition table_ok (mem : list Z) : Prop := memory_bytes mem ∧ Forall (λ v, is_u8 v) mem.
Definition mem_byte (mem : list Z) (p : Z) : Z := default 0 (mem !! Z.to_nat p).

(** What a server answers with: ROM bytes, authentication paths, and the root of a memory. *)
Class Server := {
  sv_rom_byte : Z → Z;
  sv_rom_path : Z → MerklePath;
  sv_mem_path : list Z → Z → MerklePath;
  sv_root : list Z → CommitmentRoot
}.

(** The laws a server owes to the relation: byte ranges, path shapes and, under Merkle authentication,
    accepted witnesses. *)
Class ServerLaws (server : Server) (authentication : BusAuthentication) (s0 : VmState) : Prop := {
  sv_rom_u8 p : 0 <= p < byte_length (rom_size (mbc3_cartridge_profile (profile s0))) →
    is_u8 (sv_rom_byte p) ∧ path_ok (sv_rom_path p);
  sv_mem_path_ok mem p : table_ok mem → 0 <= p < MUTABLE_COMMITMENT_BYTES → path_ok (sv_mem_path mem p);
  sv_rom_valid a p : authentication = Auth.Merkle → plan_ok s0 (Pw.Rom a p) →
    rom_valid (MkRomRead a p (sv_rom_byte p) (sv_rom_path p)) (vm_rom_root s0);
  sv_read_valid mem a p : authentication = Auth.Merkle → table_ok mem → plan_ok s0 (Pw.MemoryRead a p) →
    read_valid (MkMemoryRead a p (mem_byte mem p) (sv_mem_path mem p)) (sv_root mem);
  sv_write_valid mem a p v : authentication = Auth.Merkle → table_ok mem → plan_ok s0 (Pw.MemoryWrite a p v) →
    write_valid (MkMemoryWrite a p (mem_byte mem p) v (sv_mem_path mem p)) (sv_root mem)
      (sv_root (<[Z.to_nat p := v]> mem))
}.

Section server.
Context {server : Server}.

(** The memory after a planned witness, its answer, and the answers of a plan. *)
Definition after_plan (mem : list Z) (planned : PlannedWitness) : list Z :=
  match planned with Pw.MemoryWrite _ p v => <[Z.to_nat p := v]> mem | _ => mem end.
Definition answer (mem : list Z) (planned : PlannedWitness) : BusWitness :=
  match planned with
  | Pw.Rom a p => Wit.Rom (MkRomRead a p (sv_rom_byte p) (sv_rom_path p))
  | Pw.MemoryRead a p => Wit.MemoryRead (MkMemoryRead a p (mem_byte mem p) (sv_mem_path mem p))
  | Pw.MemoryWrite a p v => Wit.MemoryWrite (MkMemoryWrite a p (mem_byte mem p) v (sv_mem_path mem p))
  | Pw.InputByte v => Wit.InputByte v
  end.
Fixpoint answers (mem : list Z) (plan : list PlannedWitness) : list BusWitness :=
  match plan with [] => [] | p :: plan => answer mem p :: answers (after_plan mem p) plan end.
Definition final (mem : list Z) (plan : list PlannedWitness) : list Z := foldl after_plan mem plan.

Lemma answers_app plan : ∀ mem plan', answers mem (plan ++ plan') = answers mem plan ++ answers (final mem plan) plan'.
Proof. induction plan as [|p plan IH]; intros mem plan'; [done |]. cbn. by rewrite IH. Qed.
Lemma final_app plan mem plan' : final mem (plan ++ plan') = final (final mem plan) plan'.
Proof. apply foldl_app. Qed.

Context {authentication : BusAuthentication} {s0 : VmState} `{!ServerLaws server authentication s0}.

Lemma after_plan_ok mem p : table_ok mem → plan_ok s0 p → table_ok (after_plan mem p).
Proof.
  intros [Hl Hm] Hp. destruct p; try done. destruct Hp as (_ & _ & Hv). split; cbn.
  - unfold memory_bytes. by rewrite length_insert.
  - by apply Forall_insert.
Qed.
Lemma final_ok plan : ∀ mem, table_ok mem → Forall (plan_ok s0) plan → table_ok (final mem plan).
Proof.
  induction plan as [|p plan IH]; intros mem Hm Hp; [done |]. apply Forall_cons in Hp as [Hp Hps].
  apply IH; [by apply after_plan_ok | done].
Qed.

Lemma mem_byte_u8 mem p : table_ok mem → is_u8 (mem_byte mem p).
Proof.
  intros [_ Hm]. unfold mem_byte. destruct (mem !! Z.to_nat p) eqn:E; cbn; [| lia].
  by eapply Forall_lookup_1 in Hm.
Qed.
Lemma answer_ok mem p : table_ok mem → plan_ok s0 p → witness_ok (answer mem p).
Proof.
  intros Hm Hp. destruct p; cbn in *.
  - by apply (sv_rom_u8 (authentication := authentication)), Hp.
  - split; [by apply mem_byte_u8 | apply (sv_mem_path_ok (authentication := authentication) (s0 := s0)); [done | apply Hp]].
  - split; [by apply mem_byte_u8 | apply (sv_mem_path_ok (authentication := authentication) (s0 := s0)); [done | apply Hp]].
  - done.
Qed.
Lemma answers_ok plan : ∀ mem, table_ok mem → Forall (plan_ok s0) plan → Forall witness_ok (answers mem plan).
Proof.
  induction plan as [|p plan IH]; intros mem Hm Hp; [done |]. apply Forall_cons in Hp as [Hp Hps].
  constructor; [by apply answer_ok | by apply IH; [apply after_plan_ok |]].
Qed.

(** ** The predicate *)

(** The executor agrees with the server at memory [mem]. *)
Definition rooted (x : Executor) (mem : list Z) : Prop :=
  table_ok mem ∧ ex_authentication x = authentication ∧
  (authentication = Auth.Merkle → memory_root (ex_state x) = sv_root mem).
(** ... and its witnesses answer [plan] from there. *)
Definition env (x : Executor) (mem : list Z) (plan : list PlannedWitness) : Prop :=
  ex_witnesses x = answers mem plan ∧ Forall (plan_ok s0) plan ∧ rooted x mem.

(** After one more answer the method is done with all of them, asks for another one, or fails for a
    reason of the machine's own. *)
Definition resumed {A} (r : result StepError (A * Executor)) (mem : list Z) : Prop :=
  match r with
  | Ok (_, x') => env x' mem []
  | Err (SErr.MissingWitness _) => True
  | Err e => witness_error e = false
  end.

Definition replay_at {A} (x : Executor) (m : M A) : Prop := ∀ mem plan, env x mem plan →
  match m x with
  | Ok (a, x') => ∃ used rest, plan = used ++ rest ∧ env x' (final mem used) rest ∧
      ∀ l, m (feed l x) = Ok (a, feed l x')
  | Err (SErr.MissingWitness r) => servable s0 r ∧ ∀ p, plans r p → plan_ok s0 p →
      resumed (m (feed [answer (final mem plan) p] x)) (final mem (plan ++ [p]))
  | Err e => plan = [] → witness_error e = false
  end.

Lemma feed_nil x : feed [] x = x.
Proof. destruct x. unfold feed. cbn. by rewrite app_nil_r. Qed.
Lemma feed_feed l l' x : feed l' (feed l x) = feed (l ++ l') x.
Proof. destruct x. unfold feed. cbn. by rewrite app_assoc. Qed.
Lemma feed_with l l' x : feed l (with_witnesses l' x) = with_witnesses (l' ++ l) x.
Proof. done. Qed.

Lemma env_feed x mem plan p :
  env x mem plan → plan_ok s0 p → env (feed [answer (final mem plan) p] x) mem (plan ++ [p]).
Proof.
  intros (Hw & Hp & Hr) Hp'. split; [cbn; by rewrite Hw, answers_app |].
  split; [by apply Forall_app; split; [| constructor] | done].
Qed.

(** Sequencing, under an invariant [R] of the executors before and [S] of those between. *)
Lemma replay_bind {A B} (R : Executor → Prop) (S : A → Executor → Prop) (m : M A) (f : A → M B) :
  (∀ x, R x → replay_at x m) → (∀ x w, R x → witness_ok w → R (feed [w] x)) →
  (∀ x a x', R x → m x = Ok (a, x') → S a x') → (∀ a x, S a x → replay_at x (f a)) →
  ∀ x, R x → replay_at x (m ≫= f).
Proof.
  intros Hm Hfeed Hpost Hf x Hx mem plan Henv. unfold mbind, M_bind.
  pose proof (Hm x Hx mem plan Henv) as Hmx. destruct (m x) as [[a x1] | e] eqn:Em.
  - destruct Hmx as (used & rest & -> & Henv1 & Hfed).
    pose proof (Hf a x1 (Hpost _ _ _ Hx Em) _ _ Henv1) as Hfx. destruct (f a x1) as [[b x2] | e] eqn:Ef.
    + destruct Hfx as (used' & rest' & -> & Henv2 & Hfed').
      exists (used ++ used'), rest'. rewrite final_app, app_assoc. split; [done |]. split; [done |].
      intros l. by rewrite Hfed, Hfed'.
    + destruct e; try (intros [-> ->]%app_nil; by apply Hfx).
      destruct Hfx as [Hs Hres]. split; [done |]. intros p Hp Hok. rewrite final_app, Hfed.
      specialize (Hres p Hp Hok). by rewrite <- app_assoc, final_app.
  - destruct e; try done. destruct Hmx as [Hs Hres]. split; [done |]. intros p Hp Hok.
    specialize (Hres p Hp Hok). set (y := feed _ x) in *.
    assert (Hy : R y). { apply Hfeed; [done |]. apply answer_ok; [| done]. destruct Henv as (_ & Hps & Ht & _). by apply final_ok. }
    destruct (m y) as [[a x1] | e] eqn:Ey; [| done].
    pose proof (Hf a x1 (Hpost _ _ _ Hy Ey) _ _ Hres) as Hfx. destruct (f a x1) as [[b x2] | e] eqn:Ef.
    + destruct Hfx as (used & rest & E & Henv2 & _). symmetry in E. by apply app_nil in E as [-> ->].
    + cbn. destruct e; try done; by apply Hfx.
Qed.

Lemma quiet_at {A} (m : M A) x a x' : quiet m → m x = Ok (a, x') →
  ex_witnesses x' = ex_witnesses x ∧ memory_root (ex_state x') = memory_root (ex_state x) ∧
  ex_authentication x' = ex_authentication x ∧ ∀ l, m (feed l x) = Ok (a, feed l x').
Proof.
  intros Hm E. destruct (Hm x) as (r & Hr & Hy). pose proof (Hr (ex_witnesses x)) as E'.
  rewrite with_witnesses_same, E in E'. destruct r as [[b y] |]; [| done]. injection E' as -> ->.
  split; [done |]. split; [apply Hy |]. split; [apply Hy |]. intros l. apply (Hr (ex_witnesses x ++ l)).
Qed.

Lemma replay_quiet {A} (m : M A) x : quiet m → replay_at x m.
Proof.
  intros Hm mem plan (Hw & Hps & Ht & Ha & Hr). destruct (m x) as [[a x'] | e] eqn:E.
  - destruct (quiet_at _ _ _ _ Hm E) as (E1 & E2 & E3 & E4). exists [], plan. split; [done |].
    split; [| done]. unfold env, rooted. by rewrite E1, E2, E3.
  - destruct (Hm x) as (r & Hr' & Hy). pose proof (Hr' (ex_witnesses x)) as E'.
    rewrite with_witnesses_same, E in E'. destruct r as [[? ?] | e']; [done |]. injection E' as <-. by destruct e.
Qed.

Lemma env_quiet {A} (m : M A) x mem plan a x' :
  quiet m → m x = Ok (a, x') → env x mem plan → env x' mem plan.
Proof.
  intros Hm E (Hw & Hps & Ht & Ha & Hr). destruct (quiet_at _ _ _ _ Hm E) as (E1 & E2 & E3 & _).
  unfold env, rooted. by rewrite E1, E2, E3.
Qed.

Lemma quiet_error {A} (m : M A) x e : quiet m → m x = Err e → witness_error e = false.
Proof.
  intros Hm E. destruct (Hm x) as (r & Hr & Hy). pose proof (Hr (ex_witnesses x)) as E'.
  rewrite with_witnesses_same, E in E'. destruct r as [[? ?] | e']; [done |]. by injection E' as <-.
Qed.

(** What follows the last witness. *)
Lemma replay_then {A B} (m : M A) (f : A → M B) x :
  replay_at x m → (∀ a, quiet (f a)) → replay_at x (m ≫= f).
Proof.
  intros Hm Hf mem plan Henv. unfold mbind, M_bind. specialize (Hm mem plan Henv).
  destruct (m x) as [[a x1] | e] eqn:Em.
  - destruct Hm as (used & rest & -> & Henv1 & Hfed). destruct (f a x1) as [[b x2] | e] eqn:Ef.
    + exists used, rest. split; [done |]. split; [by eapply env_quiet |]. intros l. rewrite Hfed.
      by eapply quiet_at.
    + apply quiet_error in Ef; [| done]. by destruct e.
  - destruct e; try done. destruct Hm as [Hs Hres]. split; [done |]. intros p Hp Hok.
    specialize (Hres p Hp Hok). destruct (m (feed _ x)) as [[a x1] | e] eqn:Em'; [| done].
    cbn in Hres. destruct (f a x1) as [[b x2] | e] eqn:Ef.
    + by eapply env_quiet.
    + apply quiet_error in Ef; [| done]. by destruct e.
Qed.

Lemma plans_kind r p mem : plans r p → witness_kind (answer mem p) = request_kind r.
Proof. by destruct r, p. Qed.

(** Taking one witness: [body] is run on the server's answer to some plan, the right one or not. *)
Lemma replay_consume {A} r (body : BusWitness → M A) x :
  servable s0 r →
  (∀ mem p, rooted x mem → plan_ok s0 p → witness_kind (answer mem p) = request_kind r →
     ∃ res, (∀ l, body (answer mem p) (with_witnesses l x) = supplied l res) ∧
       match res with
       | Ok (_, y) => rooted y (after_plan mem p)
       | Err (SErr.MissingWitness _) => False
       | Err e => plans r p → witness_error e = false
       end) →
  replay_at x (next_witness r ≫= body).
Proof.
  intros Hs Hb mem plan (Hw & Hps & Hr).
  assert (Hn : ∀ w l, (next_witness r ≫= body) (with_witnesses (w :: l) x) =
    if bool_decide (witness_kind w = request_kind r) then body w (with_witnesses l x)
    else Err (SErr.UnexpectedWitness r (witness_kind w))).
  { intros w l. unfold next_witness, mbind, M_bind, get, put. cbn. by case_bool_decide. }
  assert (Hx : (next_witness r ≫= body) x = (next_witness r ≫= body) (with_witnesses (answers mem plan) x)).
  { by rewrite <- Hw, with_witnesses_same. }
  rewrite Hx. clear Hx. destruct plan as [|p plan].
  - cbn [answers]. split; [done |]. intros p Hp Hok.
    assert (E : feed [answer (final mem []) p] x = with_witnesses [answer mem p] x).
    { unfold feed, with_witnesses. by rewrite Hw. }
    rewrite E, Hn, bool_decide_eq_true_2 by (by apply plans_kind).
    destruct (Hb mem p Hr Hok (plans_kind r p mem Hp)) as (res & Hres & Hy). rewrite Hres.
    destruct res as [[a y] | e]; cbn; [| by destruct e; auto].
    split; [done |]. by split.
  - apply Forall_cons in Hps as [Hp Hps]. cbn [answers]. rewrite Hn. case_bool_decide as Hk; [| done].
    destruct (Hb mem p Hr Hp Hk) as (res & Hres & Hy). rewrite Hres.
    destruct res as [[a y] | e]; cbn [supplied]; [| by destruct e].
    exists [p], plan. split; [done |]. split; [by split; [| split] |]. intros l.
    unfold feed at 1. rewrite Hw. change (answers mem (p :: plan) ++ l)
      with (answer mem p :: (answers (after_plan mem p) plan ++ l)).
    change (x <| ex_witnesses := ?w |>) with (with_witnesses w x).
    rewrite Hn, bool_decide_eq_true_2 by done. by rewrite Hres.
Qed.

(** ** The bus methods *)

Lemma replay_ext {A} (m m' : M A) x : (∀ l, m (with_witnesses l x) = m' (with_witnesses l x)) →
  replay_at x m' → replay_at x m.
Proof.
  intros E Hm' mem plan Henv. specialize (Hm' mem plan Henv).
  assert (E0 : m x = m' x) by (by rewrite <- (with_witnesses_same x)).
  assert (Ef : ∀ l, m (feed l x) = m' (feed l x)) by (intros l; apply (E (ex_witnesses x ++ l))).
  rewrite E0. destruct (m' x) as [[a y] | e].
  - destruct Hm' as (used & rest & ? & ? & Hl). exists used, rest. split; [done |]. split; [done |].
    intros l. by rewrite Ef.
  - destruct e; try done. destruct Hm' as [Hs Hl]. split; [done |]. intros p Hp Hok. rewrite Ef. by apply Hl.
Qed.

Lemma M_assoc {A B C} (m : M A) (f : A → M B) (g : B → M C) x :
  ((m ≫= f) ≫= g) x = (m ≫= λ a, f a ≫= g) x.
Proof. unfold mbind, M_bind. by destruct (m x) as [[a y] |]. Qed.

(** The answers pass the verifications of the relation. *)
Lemma answer_rom_accepted x mem a p : rooted x mem → vm_rom_root (ex_state x) = vm_rom_root s0 →
  plan_ok s0 (Pw.Rom a p) → ∀ l,
  authenticate_rom (MkRomRead a p (sv_rom_byte p) (sv_rom_path p)) (with_witnesses l x) = Ok ((), with_witnesses l x).
Proof.
  intros (_ & Ha & _) Hr Hp l. unfold authenticate_rom, mbind, M_bind, get. cbn.
  destruct (decide _) as [E |]; [| done]. unfold lift. cbn. rewrite Hr.
  assert (Hv := sv_rom_valid a p (eq_trans (eq_sym Ha) E) Hp).
  by apply (rom_verify_spec no_caches _ _ no_caches_ok) in Hv as ->.
Qed.
Lemma answer_read_accepted x mem a p : rooted x mem → plan_ok s0 (Pw.MemoryRead a p) → ∀ l,
  authenticate_read (MkMemoryRead a p (mem_byte mem p) (sv_mem_path mem p)) (with_witnesses l x) = Ok ((), with_witnesses l x).
Proof.
  intros (Ht & Ha & Hr) Hp l. unfold authenticate_read, mbind, M_bind, get. cbn.
  destruct (decide _) as [E |]; [| done]. unfold lift. cbn.
  assert (Hm : authentication = Auth.Merkle) by congruence.
  assert (Hv := sv_read_valid (s0 := s0) mem a p Hm Ht Hp). rewrite (Hr Hm).
  by apply (read_verify_spec no_caches _ _ no_caches_ok) in Hv as ->.
Qed.
Lemma answer_write_accepted x mem a p v : rooted x mem → plan_ok s0 (Pw.MemoryWrite a p v) →
  ∃ y, rooted y (<[Z.to_nat p := v]> mem) ∧ ∀ l,
    authenticate_write (MkMemoryWrite a p (mem_byte mem p) v (sv_mem_path mem p)) (with_witnesses l x) =
    Ok ((), with_witnesses l y).
Proof.
  intros (Ht & Ha & Hr) Hp. pose proof (after_plan_ok _ _ Ht Hp) as Ht'.
  unfold authenticate_write, mbind, M_bind, get. cbn. destruct (decide _) as [E | E].
  - assert (Hm : authentication = Auth.Merkle) by congruence.
    assert (Hv := sv_write_valid (s0 := s0) mem a p v Hm Ht Hp). rewrite <- (Hr Hm) in Hv.
    exists (with_state ((ex_state x) <| memory_root := sv_root (<[Z.to_nat p := v]> mem) |>) x).
    split; [by split |]. intros l. unfold lift. cbn.
    by apply (write_verify_spec no_caches _ _ no_caches_ok) in Hv as ->.
  - exists x. split; [| done]. split; [done |]. split; [done |]. intros Hm. congruence.
Qed.

Lemma replay_take_rom x a p role : plan_ok s0 (Pw.Rom a p) → vm_rom_root (ex_state x) = vm_rom_root s0 →
  replay_at x (take_rom_read a p role).
Proof.
  intros Hp Hroot. apply replay_consume.
  { intros [] Hq _; try done. by destruct Hq as [-> ->]. }
  intros mem [a' p' | | |] Hr Hq Hk; try done. cbn [answer].
  unfold require_address, require_physical_address. cbn [rr_address rr_physical_address].
  destruct (Z.eqb_spec a' a) as [-> | Ha]; [| by exists (Err (SErr.AddressMismatch role a a')); split; [| intros [? ?]]].
  destruct (Z.eqb_spec p' p) as [-> | Hpp]; [| by exists (Err (SErr.PhysicalAddressMismatch role p p')); split; [| intros [? ?]]].
  eexists (Ok (_, x)). split; [| exact Hr]. intros l. unfold mbind, M_bind, lift. cbn [negb].
  by rewrite (answer_rom_accepted x mem).
Qed.

Lemma replay_take_read x a p role : plan_ok s0 (Pw.MemoryRead a p) → replay_at x (take_memory_read a p role).
Proof.
  intros Hp. apply replay_consume.
  { intros [] Hq _; try done. by destruct Hq as [-> ->]. }
  intros mem [| a' p' | |] Hr Hq Hk; try done. cbn [answer].
  unfold require_address, require_physical_address. cbn [mr_address mr_physical_address].
  destruct (Z.eqb_spec a' a) as [-> | Ha]; [| by exists (Err (SErr.AddressMismatch role a a')); split; [| intros [? ?]]].
  destruct (Z.eqb_spec p' p) as [-> | Hpp]; [| by exists (Err (SErr.PhysicalAddressMismatch role p p')); split; [| intros [? ?]]].
  eexists (Ok (_, x)). split; [| exact Hr]. intros l. unfold mbind, M_bind, lift. cbn [negb].
  by rewrite (answer_read_accepted x mem).
Qed.

(** A write, with what follows it. *)
Lemma replay_write {A} x a p v (k : MemoryWrite → M A) : plan_ok s0 (Pw.MemoryWrite a p v) → (∀ w, quiet (k w)) →
  replay_at x (write ← take_memory_write a p v; _ ← authenticate_write write; k write).
Proof.
  intros Hp Hk. eapply (replay_ext _ ((next_witness (Req.MemoryWrite a p v) ≫= λ witness,
    match witness with
    | Wit.MemoryWrite write =>
        _ ← lift (require_address a (mw_address write) Role.DataWrite);
        _ ← lift (require_physical_address p (mw_physical_address write) Role.DataWrite);
        if negb (mw_after write =? v) then fail (SErr.WriteValueMismatch v (mw_after write))
        else _ ← authenticate_write write; mret write
    | _ => fail SErr.WitnessKindInvariant
    end) ≫= k)).
  { intros l. unfold take_memory_write, mbind, M_bind, lift.
    destruct (next_witness _ _) as [[w y] |]; [| reflexivity]. destruct w as [| | w |]; try reflexivity.
    destruct (require_address _ _ _); [| reflexivity]. destruct (require_physical_address _ _ _); [| reflexivity].
    destruct (negb _); [reflexivity |]. cbn. by destruct (authenticate_write w y) as [[? ?] |]. }
  apply replay_then; [| done]. apply replay_consume.
  { intros [] Hq _; try done. by destruct Hq as (-> & -> & ->). }
  intros mem [| | a' p' v' |] Hr Hq Hkind; try done. cbn [answer].
  unfold require_address, require_physical_address. cbn [mw_address mw_physical_address mw_after].
  destruct (Z.eqb_spec a' a) as [-> | Ha];
    [| by exists (Err (SErr.AddressMismatch Role.DataWrite a a')); split; [| intros (? & ? & ?)]].
  destruct (Z.eqb_spec p' p) as [-> | Hpp];
    [| by exists (Err (SErr.PhysicalAddressMismatch Role.DataWrite p p')); split; [| intros (? & ? & ?)]].
  destruct (Z.eqb_spec v' v) as [-> | Hv];
    [| by exists (Err (SErr.WriteValueMismatch v v')); split; [| intros (? & ? & ?)]].
  destruct (answer_write_accepted x mem a p v Hr Hp) as (y & Hy & E).
  eexists (Ok (_, y)). split; [| exact Hy]. intros l. unfold mbind, M_bind, lift. cbn [negb]. by rewrite E.
Qed.

Lemma replay_input {A} x (body : BusWitness → M A) : (∀ v, quiet (body (Wit.InputByte v))) →
  replay_at x (next_witness Req.InputByte ≫= body).
Proof.
  intros Hb. apply replay_consume; [by intros p _ ?; auto |].
  intros mem [| | | v] Hr Hq Hk; try done. cbn [answer after_plan].
  destruct (Hb v x) as (res & Hres & Hy). exists res. split; [done |].
  destruct res as [[a y] | e]; [| by destruct e]. destruct Hr as (Ht & Ha & Hm), Hy as [E1 E2].
  unfold rooted. by rewrite E1, E2.
Qed.

Lemma replay_state {A} x (f : VmState → M A) : replay_at x (f (ex_state x)) → replay_at x (state ≫= f).
Proof. by apply replay_ext. Qed.
Lemma replay_lift {A B} x r (f : A → M B) :
  (∀ a, r = Ok a → replay_at x (f a)) → (∀ e, r = Err e → witness_error e = false) → replay_at x (lift r ≫= f).
Proof.
  intros Ha He. destruct r as [a | e]; [by apply (replay_ext _ (f a)); [| apply Ha] |].
  apply (replay_ext _ (fail e)); [done |]. by apply replay_quiet, quiet_fail, He.
Qed.
Lemma cpu_access_errors s a e :
  cpu_dma_access s a = Err e ∨ cpu_ppu_access s a = Err e → witness_error e = false.
Proof. unfold cpu_dma_access, cpu_ppu_access. intros [E | E]; repeat case_match; by simplify_eq. Qed.
(** The guards of an access of the CPU. *)
Lemma replay_guards {A} x a (f : VmState → M A) : replay_at x (f (ex_state x)) →
  replay_at x (_ ← require_cpu_dma_access a; _ ← require_cpu_ppu_access a; s ← state; f s).
Proof.
  intros Hf. apply (replay_ext _ (lift (cpu_dma_access (ex_state x) a) ≫= λ _,
    lift (cpu_ppu_access (ex_state x) a) ≫= λ _, f (ex_state x))).
  { intros l. unfold require_cpu_dma_access, require_cpu_ppu_access, mbind, M_bind, state, lift. cbn.
    destruct (cpu_dma_access _ _); [| done]. by destruct (cpu_ppu_access _ _). }
  apply replay_lift; [intros _ _; apply replay_lift; [done |] |]; intros e E; eapply cpu_access_errors; eauto.
Qed.

Lemma state_owner_owned s a : state_owner s a = Own.Memory → memory_owned a = true.
Proof. unfold state_owner, memory_owned. intros E. destruct (is_dmg_post_boot_mbc3 _); rewrite E; cbn; auto using orb_true_r. Qed.

Section logic.
Context (active : bool).

Lemma good_feed x w : good s0 active x → witness_ok w → good s0 active (feed [w] x).
Proof. intros [] Hw. split; cbn; auto. apply Forall_app. split; [done |]. by constructor. Qed.

Lemma rom_plan_ok x a : good s0 active x → 0 <= a → owner a = Own.Rom →
  plan_ok s0 (Pw.Rom a (map_rom_for (mbc3 (ex_state x)) (mbc3_cartridge_profile (profile (ex_state x))) a)).
Proof.
  intros Hg Ha Ho. split; [done |]. rewrite <- (good_profile _ _ _ Hg).
  apply map_rom_bound; [apply (ok_mbc3 _ (good_vm _ _ _ Hg)) |]. apply owner_rom in Ho; lia.
Qed.
Lemma read_plan_ok x a p : good s0 active x → is_u16 a → state_owner (ex_state x) a = Own.Memory →
  data_physical (ex_state x) a = Some p ∨ p = a → plan_ok s0 (Pw.MemoryRead a p).
Proof.
  intros Hg Ha Ho Hp. split; [by eapply state_owner_owned |]. unfold MUTABLE_COMMITMENT_BYTES.
  destruct Hp as [Hp | ->]; [| lia]. unfold data_physical in Hp. case_match; [| by injection Hp as <-; lia].
  unfold external_window in Hp. destruct (external_window_for _ _ _) eqn:Ew; [| done | done]. injection Hp as <-.
  apply (window_ram_bound _ _ _ _ (ok_mbc3 _ (good_vm _ _ _ Hg))) in Ew. lia.
Qed.

Lemma replay_fetch x a role : good s0 active x → 0 <= a → owner a = Own.Rom → role ≠ Role.DataWrite →
  replay_at x (fetch a role).
Proof.
  intros Hg Ha Ho Hr. apply replay_state, replay_then.
  - apply replay_take_rom; [by apply rom_plan_ok | apply (good_rom _ _ _ Hg)].
  - intros r. destruct role; repeat quiet_step.
Qed.

Lemma replay_fetch_instruction x a role : good s0 active x → is_u16 a → role ≠ Role.DataWrite →
  replay_at x (fetch_instruction a role).
Proof.
  intros Hg Ha Hr. apply replay_guards. destruct (state_owner (ex_state x) a) eqn:Eo;
    try (apply replay_quiet; quiet_step).
  - apply state_owner_rom in Eo; [| lia]. apply replay_fetch; auto; lia.
  - apply replay_then; [apply replay_take_read; eapply read_plan_ok; eauto |].
    intros r. destruct role; repeat quiet_step.
Qed.

Lemma replay_read_memory x a p : plan_ok s0 (Pw.MemoryRead a p) → replay_at x (read_memory a p).
Proof. intros Hp. apply replay_then; [by apply replay_take_read |]. intros r. repeat quiet_step. Qed.

Lemma log_append_errors l v e : map_err SErr.LogCommitment (log_append l v) = Err e → witness_error e = false.
Proof. destruct (log_append l v); cbn; [done | by intros [= <-]]. Qed.

Lemma replay_read_data x a : good s0 active x → is_u16 a → replay_at x (read_data a).
Proof.
  intros Hg Ha. apply replay_guards. case_match.
  { apply replay_input. intros v. repeat quiet_step. intros e E. by eapply log_append_errors. }
  destruct (in_range 0xa000 0xbfff a) eqn:Er.
  { destruct (external_window _ a) eqn:Ew; [| apply replay_quiet; repeat quiet_step ..].
    apply replay_read_memory. eapply read_plan_ok; eauto; [by apply window_owner |].
    left. by apply data_physical_ram. }
  destruct (state_owner (ex_state x) a) eqn:Eo; try by (apply replay_quiet; repeat quiet_step).
  - apply state_owner_rom in Eo; [| lia]. apply replay_fetch; auto; lia.
  - apply replay_read_memory. eapply read_plan_ok; eauto.
  - apply replay_input. intros v. repeat quiet_step. intros e E. by eapply log_append_errors.
  - apply replay_quiet. unfold read_dmg_mmio. repeat quiet_step. intros e E. destruct (read_mmio _ a); by simplify_eq/=.
Qed.

Lemma replay_write_memory x a p v : plan_ok s0 (Pw.MemoryRead a p) → is_u8 v → replay_at x (write_memory a p v).
Proof.
  intros [Ho Hp] Hv. apply (replay_write x a p v (λ w, push_event (Ev.MemoryWrite w))); [done |].
  intros w. quiet_step.
Qed.

Lemma replay_write_data x a v : good s0 active x → is_u16 a → is_u8 v → replay_at x (write_data a v).
Proof.
  intros Hg Ha Hv. apply replay_guards. case_match; [apply replay_quiet; repeat quiet_step |].
  destruct (in_range 0xa000 0xbfff a) eqn:Er.
  { destruct (external_window _ a) eqn:Ew; [| apply replay_quiet; repeat quiet_step ..].
    apply replay_write_memory; [| done]. eapply read_plan_ok; eauto; [by apply window_owner |].
    left. by apply data_physical_ram. }
  destruct (state_owner (ex_state x) a) eqn:Eo; try by (apply replay_quiet; repeat quiet_step).
  - apply replay_write_memory; [| done]. eapply read_plan_ok; eauto.
  - apply replay_quiet. unfold write_output. repeat quiet_step. intros e E. by eapply log_append_errors.
  - apply replay_quiet. unfold write_dmg_mmio. repeat quiet_step. intros e E. destruct (write_mmio _ a v); by simplify_eq/=.
Qed.

(** ** The instance *)

Definition serves (A : Type) (V : A → Prop) (m : M A) : Prop :=
  steps s0 active A V m ∧ ∀ x, good s0 active x → replay_at x m.

Lemma replay_good_bind {A B} (V : A → Prop) (m : M A) (f : A → M B) x :
  steps s0 active A V m → (∀ x, good s0 active x → replay_at x m) →
  (∀ a x, V a → good s0 active x → replay_at x (f a)) → good s0 active x → replay_at x (m ≫= f).
Proof.
  intros Hs Hm Hf. apply (replay_bind (good s0 active) (λ a y, V a ∧ good s0 active y)); [done | | |].
  - intros y w. apply good_feed.
  - intros y a y' Hy E. destruct (wp_ok _ _ _ _ _ (Hs y Hy) E) as (? & ? & _). done.
  - intros a y [Ha Hy]. by apply Hf.
Qed.

#[export] Instance serve_logic : StepLogic serves.
Proof.
  split.
  - intros A V a Ha. split; [by apply sl_ret |]. intros x _. apply replay_quiet, quiet_ret.
  - intros A V e He. split; [by apply sl_fail |]. intros x _. by apply replay_quiet, quiet_fail, machine_not_witness.
  - intros A B V W m f [Hm Hm'] Hf. split; [eapply sl_bind; [exact Hm |]; intros a Ha; by apply Hf |].
    intros x. eapply replay_good_bind; [exact Hm | done |]. intros a y Ha. by apply Hf.
  - split; [apply sl_get_cpu |]. intros x _. apply replay_quiet, quiet_get_cpu.
  - intros f Hf. split; [by apply sl_modify_cpu |]. intros x _. apply replay_quiet. quiet_step.
  - intros a role Ha Hr. split; [by apply sl_fetch |]. intros x Hg. apply replay_fetch_instruction; [done | done |].
    by destruct Hr as [-> | ->].
  - intros a Ha. split; [by apply sl_read |]. intros x Hg. by apply replay_read_data.
  - intros a v Ha Hv. split; [by apply sl_write |]. intros x Hg. by apply replay_write_data.
Qed.
End logic.

(** ** Complete transitions *)

(** The outcome of a step whose witnesses are exactly the answers that lead to [mem]. *)
Definition settled (r : result StepError (VmState * StepEffects)) (mem : list Z) : Prop :=
  match r with
  | Ok (s, _) => authentication = Auth.Merkle → memory_root s = sv_root mem
  | Err (SErr.MissingWitness _) => True
  | Err e => witness_error e = false
  end.
(** The outcome [f input] of a step on the answers to [plan], and on one answer more. *)
Definition served (f : list BusWitness → result StepError (VmState * StepEffects)) (mem : list Z)
    (plan : list PlannedWitness) : Prop :=
  match f (answers mem plan) with
  | Err (SErr.MissingWitness r) => servable s0 r ∧ ∀ p, plans r p → plan_ok s0 p →
      settled (f (answers mem (plan ++ [p]))) (final mem (plan ++ [p]))
  | r => plan = [] → settled r mem
  end.

Lemma served_fail e mem plan : witness_error e = false → served (λ _, Err e) mem plan.
Proof. unfold served. by destruct e. Qed.

(** A finish that consumes an executor without witnesses. *)
Definition finishes {A} (k : A → Executor → result StepError (VmState * StepEffects)) : Prop :=
  ∀ a x, match k a x with
  | Ok (s, _) => memory_root s = memory_root (ex_state x) ∧ ex_witnesses x = []
  | Err e => (∀ r, e ≠ SErr.MissingWitness r) ∧ (ex_witnesses x = [] → witness_error e = false)
  end.

Lemma bus_append_errors l a e :
  map_err SErr.BusTranscriptCommitment (bus_append_all a l) = Err e → witness_error e = false.
Proof. destruct (bus_append_all a l); cbn; [done | by intros [= <-]]. Qed.

Lemma finalize_finishes x i :
  match finalize x i with
  | Ok (s, _) => memory_root s = memory_root (ex_state x) ∧ ex_witnesses x = []
  | Err e => (∀ r, e ≠ SErr.MissingWitness r) ∧ (ex_witnesses x = [] → witness_error e = false)
  end.
Proof.
  unfold finalize. destruct (ex_witnesses x) as [| w l] eqn:E.
  - change (negb (Z.of_nat (length (@nil BusWitness)) =? 0)) with false. cbv iota.
    destruct (decide _); [| done].
    destruct (bus_append_all _ _); [rewrite map_err_ok, bind_of_ok | by rewrite map_err_err, bind_of_err].
    destruct (packed (from_decoded i)); [rewrite map_err_ok, bind_of_ok | by rewrite map_err_err, bind_of_err].
    by destruct (isa_append _ _).
  - rewrite (proj2 (Z.eqb_neq _ _)) by (cbn; lia). by split.
Qed.
Lemma finish_finishes : finishes (λ '(i, branch_taken) x, finish x i branch_taken).
Proof.
  intros [i b] x. pose proof (finalize_finishes x i) as Hf. unfold finish.
  destruct (finalize x i) as [[s evs] |]; [by rewrite bind_of_ok | done].
Qed.
Lemma finish_event_finishes kind opcode : finishes (finish_event kind opcode).
Proof.
  intros [] x. unfold finish_event. destruct (machine_event_marker opcode) as [i | e] eqn:Em.
  - rewrite bind_of_ok. pose proof (finalize_finishes x i) as Hf. unfold finish_machine.
    destruct (finalize x i) as [[s evs] |]; [by rewrite bind_of_ok | done].
  - rewrite bind_of_err. unfold machine_event_marker in Em. destruct (decode_primary opcode); [done |].
    by injection Em as <-.
Qed.

Lemma run_settled {A} (m : M A) k x mem :
  finishes k → resumed (m x) mem → settled (run m x k) mem.
Proof.
  intros Hk. unfold run. destruct (m x) as [[a y] | e]; [| done].
  intros (Hw & _ & _ & _ & Hroot). specialize (Hk a y). destruct (k a y) as [[s eff] | e].
  - intros Hm. by rewrite (proj1 Hk), Hroot.
  - destruct Hk as [Hn He]. specialize (He Hw). by destruct e.
Qed.

Lemma run_served {A} (m : M A) k mem plan :
  finishes k → table_ok mem → Forall (plan_ok s0) plan →
  (authentication = Auth.Merkle → memory_root s0 = sv_root mem) →
  replay_at (executor_new s0 (answers mem plan) authentication) m →
  served (λ input, run m (executor_new s0 input authentication) k) mem plan.
Proof.
  intros Hk Ht Hps Hroot Hm. set (x := executor_new s0 (answers mem plan) authentication) in *.
  assert (Henv : env x mem plan) by (split; [done |]; split; [done |]; by split; [| split]).
  specialize (Hm mem plan Henv). unfold served. fold x.
  assert (Hfeed : ∀ p, executor_new s0 (answers mem (plan ++ [p])) authentication =
    feed [answer (final mem plan) p] x) by (intros p; by rewrite answers_app).
  pose proof (λ Hres, run_settled m k x mem Hk Hres) as Hsettled. unfold run in *.
  destruct (m x) as [[a y] | e].
  - destruct Hm as (used & rest & -> & Hy & _).
    assert (Hdone : used ++ rest = [] → settled (k a y) mem).
    { intros [-> ->]%app_nil. by apply Hsettled. }
    specialize (Hk a y). destruct (k a y) as [[s eff] | e]; [exact Hdone |].
    destruct e; try exact Hdone. by destruct (proj1 Hk request).
  - destruct e; try (intros ->; by apply Hm). destruct Hm as [Hs Hres]. split; [done |].
    intros p Hp Hok. rewrite Hfeed. apply run_settled; [done | by apply Hres].
Qed.

Lemma quiet_add_cycles n : quiet (add_cycles n).
Proof. unfold add_cycles. repeat quiet_step. intros e. unfold checked_add_u64. case_match; by intros [= <-]. Qed.
Lemma quiet_add_timing i taken active : quiet (add_timing i taken active).
Proof. unfold add_timing. quiet_step; [apply quiet_add_cycles |]. repeat quiet_step. Qed.
Lemma quiet_add_machine_timing n : quiet (add_machine_timing n).
Proof. unfold add_machine_timing. quiet_step; [quiet_step |]. quiet_step; [apply quiet_add_cycles |]. repeat quiet_step. Qed.
Lemma quiet_skip k f : quiet (_ ← add_cycles k; modify_devices f).
Proof. quiet_step; [apply quiet_add_cycles | quiet_step]. Qed.

Lemma replay_instruction x : good s0 (dma_active (dmg_devices s0)) x → replay_at x (instruction_body s0).
Proof.
  set (active := dma_active _). intros Hg. unfold instruction_body.
  eapply (replay_good_bind active decoded); [| | | exact Hg].
  - apply fetch_and_decode_logic.
  - apply (fetch_and_decode_logic (P := serves active)).
  - intros [i b] y (Hi & Hex & Hb) Hy. apply replay_then.
    + by apply (execute_logic (P := serves active) i b Hex Hb).
    + intros taken. quiet_step; [unfold apply_delayed_ime; quiet_step; quiet_step |].
      quiet_step; [apply quiet_add_timing |]. quiet_step; [quiet_step; quiet_step | quiet_step].
Qed.

(** A quiet prefix that keeps the executor good. *)
Lemma replay_prefix {A B} active (m : M A) (f : A → M B) x :
  quiet m → (∀ y a y', good s0 active y → m y = Ok (a, y') → good s0 active y') →
  (∀ a y, good s0 active y → replay_at y (f a)) → good s0 active x → replay_at x (m ≫= f).
Proof.
  intros Hm Hg Hf. apply (replay_bind (good s0 active) (λ _, good s0 active)); [| | eauto | done].
  - intros y _. by apply replay_quiet.
  - intros y w. apply good_feed.
Qed.
Lemma replay_cpu_prefix {B} active g (f : () → M B) x :
  (∀ c, cpu_ok c → cpu_ok (g c)) → (∀ a y, good s0 active y → replay_at y (f a)) →
  good s0 active x → replay_at x (modify_cpu g ≫= f).
Proof.
  intros Hc. apply replay_prefix; [quiet_step |]. intros y a y' Hy [= _ <-]. apply good_cpu; [done |].
  apply Hc, (ok_cpu _ (good_vm _ _ _ Hy)).
Qed.

Lemma replay_interrupt x i : good s0 false x → replay_at x (interrupt_body i).
Proof.
  unfold interrupt_body. apply replay_cpu_prefix; [auto with bounds |]. intros _ x1.
  apply replay_cpu_prefix; [auto with bounds |]. intros _ x2.
  apply replay_prefix; [quiet_step | |].
  { intros y a y' Hy [= _ <-]. pose proof (good_vm _ _ _ Hy) as []. apply good_state; try done.
    split; cbn; auto. by apply acknowledge_ok. }
  intros _ x3. apply (replay_good_bind false cpu_ok);
    [apply sl_get_cpu | intros; apply replay_quiet, quiet_get_cpu |].
  intros c x4 Hc Hg. apply replay_then.
  - by apply (push_return_logic (serves false) _ (ok_pc _ Hc)).
  - intros _. quiet_step; [quiet_step | apply quiet_add_machine_timing].
Qed.

Lemma replay_dma_source x a : good s0 false x → is_u16 a → replay_at x (dma_source_byte a).
Proof.
  intros Hg Ha. apply replay_state. destruct (state_owner (ex_state x) a) eqn:Eo; try by (apply replay_quiet; quiet_step).
  - apply state_owner_rom in Eo; [| lia]. cbv zeta. apply replay_then; [| intros r; repeat quiet_step].
    apply replay_take_rom; [apply (rom_plan_ok false); auto; lia | apply (good_rom _ _ _ Hg)].
  - destruct (in_range 0xa000 0xbfff a) eqn:Er; [destruct (external_window _ a) eqn:Ew |];
      try (by apply replay_quiet; repeat quiet_step).
    + apply (replay_ext _ (read ← take_memory_read a physical Role.DataRead;
        _ ← push_event (Ev.DmgDmaMemoryRead read); mret (mr_value read))); [done |].
      apply replay_then; [| intros r; repeat quiet_step]. apply replay_take_read.
      eapply (read_plan_ok false); eauto. left. by apply data_physical_ram.
    + apply (replay_ext _ (fail (SErr.Mbc3RtcRegisterUnavailable register))); [done |].
      apply replay_quiet. quiet_step.
    + apply (replay_ext _ (fail (SErr.DmgDmaSourceUnavailable a))); [done |]. apply replay_quiet. quiet_step.
    + apply (replay_ext _ (read ← take_memory_read a a Role.DataRead;
        _ ← push_event (Ev.DmgDmaMemoryRead read); mret (mr_value read))); [done |].
      apply replay_then; [| intros r; repeat quiet_step]. apply replay_take_read.
      eapply (read_plan_ok false); eauto.
Qed.

Lemma replay_dma x : good s0 false x → dma_owed (dmg_devices (ex_state x)) ≠ 0 → replay_at x copy_dma_byte.
Proof.
  intros Hg Ho. pose proof (ok_devices _ (good_vm _ _ _ Hg)) as [].
  apply replay_state. cbv zeta. case_match; [apply replay_quiet; quiet_step |].
  pose proof (dma_destination_eq (dmg_devices (ex_state x))) as Ed.
  pose proof (dma_source_eq (dmg_devices (ex_state x))) as Es.
  rewrite Es in * by lia. rewrite Ed by lia. set (source := dma_source_high _ * 256 + _) in *.
  assert (Hs : is_u16 source) by (subst source; lia).
  apply (replay_bind (good s0 false) (λ v _, is_u8 v)); [| | | | exact Hg].
  - intros y Hy. by apply replay_dma_source.
  - intros y w. apply good_feed.
  - intros y v y' Hy E.
    refine (wp_ok _ _ (λ v _, is_u8 v) _ _ (dma_source_byte_wp _ _ _ _ _) E); [lia |].
    intros e z Hacc _ Hadd Hwv _. by eapply access_value; [exact Hy | exact Hacc | rewrite Hwv].
  - intros v y Hv. apply (replay_write y _ _ v (λ write, _ ← push_event (Ev.DmgDmaWrite write); modify_devices complete_dma_byte)).
    + split; [| split; [unfold MUTABLE_COMMITMENT_BYTES; lia | done]]. unfold memory_owned.
      rewrite (bool_decide_eq_true_2 (dmg_owner _ = _)); [apply orb_true_r |]. apply dmg_owner_memory. lia.
    + intros w. repeat quiet_step.
Qed.

(** Every transition is served. *)
Lemma apply_served mem plan :
  vm_ok s0 → table_ok mem → Forall (plan_ok s0) plan →
  (authentication = Auth.Merkle → memory_root s0 = sv_root mem) →
  served (λ input, apply s0 input authentication) mem plan.
Proof.
  intros Hs Ht Hps Hroot. pose proof (answers_ok plan mem Ht Hps) as Hw.
  assert (Hg : ∀ active, (active = true → dma_active (dmg_devices s0) = true) →
    good s0 active (executor_new s0 (answers mem plan) authentication)).
  { intros active Ha. by apply (ready_new s0 active). }
  assert (Hi : served (λ input, execute_instruction s0 input authentication) mem plan).
  { unfold execute_instruction. case_match; [by apply served_fail |].
    apply run_served; auto using finish_finishes. apply replay_instruction, Hg. done. }
  assert (Hq : ∀ (m : M ()) kind opcode, quiet m →
    served (λ input, run m (executor_new s0 input authentication) (finish_event kind opcode)) mem plan).
  { intros m kind opcode Hm. apply run_served; auto using finish_event_finishes, replay_quiet. }
  unfold apply, dma_byte, dispatch_interrupt, halt_wake, halt_until_vblank, halt_until_serial,
    halt_until_timer, halt_idle.
  destruct (is_dmg_post_boot_mbc3 (profile s0)); [| done].
  destruct (Z.eqb_spec (dma_owed (dmg_devices s0)) 0) as [Ho | Ho]; cbn [negb].
  2: { apply run_served; auto using finish_event_finishes. apply replay_dma; [by apply Hg | done]. }
  destruct (classify_dmg_machine_event s0) as [event | e] eqn:Ec.
  - destruct event as [[] |]; try (by apply Hq; auto using quiet_skip, quiet_add_machine_timing).
    + apply run_served; auto using finish_event_finishes. by apply replay_interrupt, Hg.
    + apply Hq. quiet_step.
    + exact Hi.
  - apply served_fail. unfold classify_dmg_machine_event in Ec. repeat case_match; by simplify_eq.
Qed.
End server.
End serve.
