(* ===== verification/Budget.v ===== *)
(** * The witness budget of a step

    [uses R n m]: from an executor in [R] the method [m] takes at most [n] witnesses, and stops for want of
    one having taken fewer than [n]. Every transition stays within five, the plan bound of the builders:
    three fetched bytes and two data accesses. *)
From S2P Require Import Prelude IsaTypes Metadata Decode Alignment Flags Alu Address Commitment Merkle Image Logs.
From S2P Require Import Mbc3 Timer Apu Device Halt State Bus Execute Transition Access StepLogic StepTrace.
From S2P Require Import Step Trace Builder Serve.

Definition anywhere (x : Executor) : Prop := True.

Definition uses (R : Executor → Prop) (n : nat) {A} (m : M A) : Prop := ∀ x, R x →
  match m x with
  | Ok (_, x') => ∃ l, (length l ≤ n)%nat ∧ ex_witnesses x = l ++ ex_witnesses x'
  | Err (SErr.MissingWitness _) => (length (ex_witnesses x) < n)%nat
  | Err _ => True
  end.
Definition is_missing (e : StepError) : bool := match e with SErr.MissingWitness _ => true | _ => false end.

Section budget.
Context `{Sha256}.

Lemma uses_bind_post {A B} (R : Executor → Prop) (S : A → Executor → Prop) n k (m : M A) (f : A → M B) :
  uses R n m → (∀ x a x', R x → m x = Ok (a, x') → S a x') → (∀ a, uses (S a) k (f a)) → uses R (n + k) (m ≫= f).
Proof.
  intros Hm Hpost Hf x Hx. unfold mbind, M_bind. specialize (Hm x Hx).
  destruct (m x) as [[a y] | e] eqn:E; [| destruct e; try done; lia].
  destruct Hm as (l & Hl & Hw). specialize (Hf a y (Hpost _ _ _ Hx E)).
  destruct (f a y) as [[b z] | e].
  - destruct Hf as (l' & Hl' & Hw'). exists (l ++ l'). rewrite length_app, Hw, Hw', app_assoc. split; [lia | done].
  - destruct e; try done. rewrite Hw, length_app. lia.
Qed.
Lemma uses_bind n k N {A B} (m : M A) (f : A → M B) :
  (n + k ≤ N)%nat → uses anywhere n m → (∀ a, uses anywhere k (f a)) → uses anywhere N (m ≫= f).
Proof.
  intros Hn Hm Hf x Hx. pose proof (uses_bind_post _ (λ _, anywhere) n k m f Hm ltac:(done) Hf x Hx) as Hu.
  destruct ((m ≫= f) x) as [[a y] | e]; [| destruct e; try done; lia].
  destruct Hu as (l & Hl & Hw). exists l. split; [lia | done].
Qed.

Lemma uses_more n k {A} (m : M A) : (n ≤ k)%nat → uses anywhere n m → uses anywhere k m.
Proof.
  intros Hn Hm x Hx. specialize (Hm x Hx). destruct (m x) as [[a y] | e]; [| destruct e; try done; lia].
  destruct Hm as (l & ? & ?). exists l. split; [lia | done].
Qed.

(** A method that leaves the witnesses alone. *)
Lemma uses_none n {A} (m : M A) :
  (∀ x, match m x with Ok (_, y) => ex_witnesses y = ex_witnesses x | Err e => is_missing e = false end) →
  uses anywhere n m.
Proof.
  intros Hm x _. specialize (Hm x). destruct (m x) as [[a y] | e]; [| by destruct e].
  exists []. split; [apply Nat.le_0_l | by rewrite Hm].
Qed.
Lemma uses_quiet n {A} (m : M A) : quiet m → uses anywhere n m.
Proof.
  intros Hm. apply uses_none. intros x. destruct (m x) as [[a y] | e] eqn:E; [by eapply quiet_at |].
  apply quiet_error in E; [| done]. by destruct e.
Qed.
Lemma uses_lift n {A} (r : result StepError A) : (∀ e, r = Err e → is_missing e = false) → uses anywhere n (lift r).
Proof. intros He. apply uses_none. intros x. unfold lift. destruct r; auto. Qed.

Lemma uses_next r : uses anywhere 1 (next_witness r).
Proof.
  intros x _. unfold next_witness, mbind, M_bind, get, put. destruct (ex_witnesses x) as [| w l] eqn:E; cbn; [lia |].
  case_bool_decide; cbn; [| done]. exists [w]. split; [cbn; lia | done].
Qed.

Lemma uses_authenticate_rom r : uses anywhere 0 (authenticate_rom r).
Proof.
  apply uses_none. intros x. unfold authenticate_rom, mbind, M_bind, get. destruct (decide _); [| done].
  unfold lift. by destruct (rom_verify _ _ _).1.
Qed.
Lemma uses_authenticate_read r : uses anywhere 0 (authenticate_read r).
Proof.
  apply uses_none. intros x. unfold authenticate_read, mbind, M_bind, get. destruct (decide _); [| done].
  unfold lift. by destruct (read_verify _ _ _).1.
Qed.
Lemma uses_authenticate_write w : uses anywhere 0 (authenticate_write w).
Proof.
  apply uses_none. intros x. unfold authenticate_write, mbind, M_bind, get. destruct (decide _); [| done].
  unfold lift. by destruct (write_verify _ _ _).1.
Qed.
Lemma require_address_missing a b role e : require_address a b role = Err e → is_missing e = false.
Proof. unfold require_address. case_match; by intros [= <-]. Qed.
Lemma require_physical_missing a b role e : require_physical_address a b role = Err e → is_missing e = false.
Proof. unfold require_physical_address. case_match; by intros [= <-]. Qed.

Lemma uses_take_rom a p role : uses anywhere 1 (take_rom_read a p role).
Proof.
  apply (uses_bind 1 0); [lia | apply uses_next |]. intros [] ; try (by apply uses_none).
  apply (uses_bind 0 0); [lia | apply uses_lift, require_address_missing | intros []].
  apply (uses_bind 0 0); [lia | apply uses_lift, require_physical_missing | intros []].
  apply (uses_bind 0 0); [lia | apply uses_authenticate_rom | intros []; by apply uses_none].
Qed.
Lemma uses_take_read a p role : uses anywhere 1 (take_memory_read a p role).
Proof.
  apply (uses_bind 1 0); [lia | apply uses_next |]. intros [] ; try (by apply uses_none).
  apply (uses_bind 0 0); [lia | apply uses_lift, require_address_missing | intros []].
  apply (uses_bind 0 0); [lia | apply uses_lift, require_physical_missing | intros []].
  apply (uses_bind 0 0); [lia | apply uses_authenticate_read | intros []; by apply uses_none].
Qed.
Lemma uses_take_write a p v : uses anywhere 1 (take_memory_write a p v).
Proof.
  apply (uses_bind 1 0); [lia | apply uses_next |]. intros [] ; try (by apply uses_none).
  apply (uses_bind 0 0); [lia | apply uses_lift, require_address_missing | intros []].
  apply (uses_bind 0 0); [lia | apply uses_lift, require_physical_missing | intros []].
  case_match; by apply uses_none.
Qed.

Lemma uses_log {A} n (r : result LogErr.LogError A) : uses anywhere n (lift (map_err SErr.LogCommitment r)).
Proof. apply uses_lift. destruct r; cbn; [done | by intros ? [= <-]]. Qed.
Lemma uses_ok_or {A} n (o : option A) e : is_missing e = false → uses anywhere n (lift (ok_or o e)).
Proof. intros He. apply uses_lift. destruct o; cbn; [done | by intros e' [= <-]]. Qed.
End budget.

Create HintDb uses.
#[export] Hint Resolve uses_log uses_next uses_take_rom uses_take_read uses_take_write : uses.
(** The cost of the methods a handler calls. *)
Ltac cost m :=
  lazymatch m with
  | take_rom_read _ _ _ => constr:(1%nat) | take_memory_read _ _ _ => constr:(1%nat)
  | take_memory_write _ _ _ => constr:(1%nat) | next_witness _ => constr:(1%nat)
  | fetch_instruction _ _ => constr:(1%nat) | read_data _ => constr:(1%nat) | write_data _ _ => constr:(1%nat)
  | read_operand _ _ => constr:(1%nat) | write_operand _ _ => constr:(1%nat)
  | transfer_accumulator _ _ => constr:(1%nat) | push_word _ => constr:(2%nat) | pop_word => constr:(2%nat)
  | push_interrupt_return _ => constr:(2%nat) | dma_source_byte _ => constr:(1%nat)
  | _ => constr:(0%nat)
  end.
Ltac uses_step :=
  lazymatch goal with
  | |- uses _ _ (let _ := _ in _) => cbv zeta
  | |- uses _ ?N (?m ≫= (λ _, mret _)) => apply (uses_bind N 0); [lia | | intros; apply uses_quiet, quiet_ret]
  | |- uses _ ?N (?m ≫= _) =>
      let n := cost m in
      let k := eval vm_compute in (N - n)%nat in
      apply (uses_bind n k); [lia | | intros]
  | |- uses _ _ (authenticate_write _) => apply uses_authenticate_write
  | |- uses _ _ (match ?b with _ => _ end) => destruct b
  | |- uses _ _ (lift (ok_or _ _)) => apply uses_ok_or; reflexivity
  | |- uses _ _ _ => first [by eauto with uses | by apply (uses_more 1); [lia |]; eauto with uses | by apply uses_quiet; repeat quiet_step | by apply uses_none]
  end.

Section methods.
Context `{Sha256}.

Lemma uses_cpu_guards a : uses anywhere 0 (require_cpu_dma_access a) ∧ uses anywhere 0 (require_cpu_ppu_access a).
Proof.
  split; (apply (uses_bind 0 0); [lia | apply uses_quiet, quiet_state |]); intros s; apply uses_lift; intros e E;
    assert (witness_error e = false) by (eapply cpu_access_errors; eauto); by destruct e.
Qed.

Lemma uses_fetch a role : uses anywhere 1 (fetch a role).
Proof. unfold fetch. repeat uses_step. Qed.
Lemma uses_read_memory a p : uses anywhere 1 (read_memory a p).
Proof. unfold read_memory. repeat uses_step. Qed.
Lemma uses_read_instruction_memory a role : uses anywhere 1 (read_instruction_memory a role).
Proof. unfold read_instruction_memory. repeat uses_step. Qed.
Lemma uses_write_memory a p v : uses anywhere 1 (write_memory a p v).
Proof. unfold write_memory. repeat uses_step. Qed.
Lemma uses_read_input : uses anywhere 1 read_input.
Proof. unfold read_input. repeat uses_step. Qed.
Lemma uses_read_joypad : uses anywhere 1 read_dmg_joypad.
Proof. unfold read_dmg_joypad. repeat uses_step. Qed.
Lemma uses_read_mmio a : uses anywhere 1 (read_dmg_mmio a).
Proof. unfold read_dmg_mmio. repeat uses_step. Qed.
Lemma uses_write_mmio a v : uses anywhere 1 (write_dmg_mmio a v).
Proof. unfold write_dmg_mmio. repeat uses_step. Qed.
Lemma uses_write_output v : uses anywhere 1 (write_output v).
Proof. unfold write_output. repeat uses_step. Qed.
End methods.
#[export] Hint Resolve uses_fetch uses_read_memory uses_read_instruction_memory uses_write_memory
  uses_read_input uses_read_joypad uses_read_mmio uses_write_mmio uses_write_output : uses.

Section handlers.
Context `{Sha256}.

Lemma uses_guards {A} n a (m : M A) : uses anywhere n m →
  uses anywhere n (_ ← require_cpu_dma_access a; _ ← require_cpu_ppu_access a; m).
Proof.
  intros Hm. apply (uses_bind 0 n); [lia | apply uses_cpu_guards |]. intros _.
  apply (uses_bind 0 n); [lia | apply uses_cpu_guards | done].
Qed.
Lemma uses_fetch_instruction a role : uses anywhere 1 (fetch_instruction a role).
Proof. apply uses_guards. repeat uses_step. Qed.
Lemma uses_read_data a : uses anywhere 1 (read_data a).
Proof. apply uses_guards. repeat uses_step. Qed.
Lemma uses_write_data a v : uses anywhere 1 (write_data a v).
Proof. apply uses_guards. repeat uses_step. Qed.
#[local] Hint Resolve uses_fetch_instruction uses_read_data uses_write_data : uses.

Lemma uses_byte n b : uses anywhere n (lift (byte b)).
Proof. apply uses_lift. unfold byte. intros e. by destruct (first b); intros [= <-]. Qed.
Lemma uses_word n b : uses anywhere n (lift (word b)).
Proof. apply uses_lift. unfold word. intros e. by destruct (first b), (second b); intros [= <-]. Qed.
Lemma uses_bit_mask n bit : uses anywhere n (lift (bit_mask bit)).
Proof. apply uses_lift. unfold bit_mask. intros e. by case_match; intros [= <-]. Qed.
Lemma uses_push n b v : uses anywhere n (lift (push b v)).
Proof. apply uses_lift. unfold push. intros e. repeat case_match; by intros [= <-]. Qed.
#[local] Hint Resolve uses_byte uses_word uses_bit_mask uses_push : uses.

Lemma uses_read_operand o b : uses anywhere 1 (read_operand o b).
Proof. unfold read_operand. repeat uses_step. Qed.
Lemma uses_write_operand o v : uses anywhere 1 (write_operand o v).
Proof. unfold write_operand. repeat uses_step. Qed.
Lemma uses_transfer a d : uses anywhere 1 (transfer_accumulator a d).
Proof. unfold transfer_accumulator. repeat uses_step. Qed.
Lemma uses_store_sp a : uses anywhere 2 (store_sp_absolute a).
Proof. unfold store_sp_absolute. repeat uses_step. Qed.
Lemma uses_push_word v : uses anywhere 2 (push_word v).
Proof. unfold push_word. repeat uses_step. Qed.
Lemma uses_pop_word : uses anywhere 2 pop_word.
Proof. unfold pop_word. repeat uses_step. Qed.
Lemma uses_push_return v : uses anywhere 2 (push_interrupt_return v).
Proof. unfold push_interrupt_return. repeat uses_step. Qed.
Lemma uses_set_stack r v : uses anywhere 0 (set_stack_register r v).
Proof.
  unfold set_stack_register. repeat uses_step. apply uses_lift. intros e. unfold flags_from_byte.
  destruct (from_byte _); cbn; [done |]. by intros [= <-].
Qed.
#[local] Hint Resolve uses_read_operand uses_write_operand uses_transfer uses_store_sp uses_push_word uses_pop_word
  uses_set_stack uses_push_return : uses.

Lemma uses_execute i b : uses anywhere 2 (execute i b).
Proof.
  unfold execute. destruct (class i).
  - unfold execute_control. repeat uses_step.
  - unfold execute_load. repeat uses_step.
  - unfold execute_alu8. repeat uses_step.
  - unfold execute_alu16. repeat uses_step.
  - unfold execute_rotate. repeat uses_step.
  - unfold execute_bit. repeat uses_step.
  - unfold execute_jump. repeat uses_step.
  - unfold execute_call_return. repeat uses_step.
  - unfold execute_stack. repeat uses_step.
  - unfold execute_interrupt. repeat uses_step.
  - unfold execute_low_power. repeat uses_step.
  - uses_step.
Qed.

(** ** Complete transitions *)

Lemma uses_weak (R : Executor → Prop) n {A} (m : M A) : uses anywhere n m → uses R n m.
Proof. intros Hm x _. by apply Hm. Qed.
Lemma uses_fetch_and_advance role : uses anywhere 1 (fetch_and_advance role).
Proof. unfold fetch_and_advance. repeat uses_step. Qed.
Lemma uses_fetch_first hb : uses anywhere 1 (fetch_first_opcode hb).
Proof. unfold fetch_first_opcode. repeat uses_step. Qed.
Lemma uses_fetch_loop n : ∀ b, uses anywhere n (fetch_immediates_loop n b).
Proof.
  induction n as [|n IH]; intros b; cbn [fetch_immediates_loop]; [apply uses_quiet, quiet_ret |].
  apply (uses_bind 1 n); [lia | apply uses_fetch_and_advance |]. intros v.
  apply (uses_bind 0 n); [lia | apply uses_push | done].
Qed.

Lemma uses_fetch_and_decode s0 active hb : uses (good s0 active) 3 (fetch_and_decode hb).
Proof.
  apply (uses_bind_post _ (λ b _, is_u8 b) 1 2); [apply uses_weak, uses_fetch_first | |].
  { intros x b x' Hg E. apply (wp_ok _ _ _ _ _ (fetch_first_opcode_logic (P := steps s0 active) hb x Hg)) in E. apply E. }
  intros b x Hb. cut (uses anywhere 2 (if b =? 0xcb then secondary ← fetch_and_advance Role.OpcodeFetch; mret (decode_cb secondary, no_immediate)
    else match decode_primary b with
    | Classified.Defined_ i => immediate ← fetch_immediates (byte_len i); mret (i, immediate)
    | Classified.Undefined u => fail (SErr.UndefinedOpcode (undefined_byte u))
    end)); [intros Hu; by apply Hu |].
  destruct (b =? 0xcb).
  - apply (uses_bind 1 0); [lia | apply uses_fetch_and_advance | intros; apply uses_quiet, quiet_ret].
  - destruct (decode_primary b) as [i | u] eqn:Ed; [| by apply uses_quiet, quiet_fail].
    assert (Hi : defined_instruction i) by (left; eauto). destruct (defined_bytes i Hi) as [En Hl].
    apply (uses_bind 2 0); [lia | | intros; apply uses_quiet, quiet_ret]. unfold fetch_immediates. rewrite En.
    eapply (uses_more _ 2); [| apply uses_fetch_loop]. lia.
Qed.

Lemma uses_instruction_body s0 : uses (good s0 (dma_active (dmg_devices s0))) 5 (instruction_body s0).
Proof.
  apply (uses_bind_post _ (λ _, anywhere) 3 2); [apply uses_fetch_and_decode | done |]. intros [i b].
  apply (uses_bind 2 0); [lia | apply uses_execute |]. intros taken. apply uses_quiet.
  quiet_step; [unfold apply_delayed_ime; quiet_step; quiet_step |].
  quiet_step; [apply quiet_add_timing |]. quiet_step; [quiet_step; quiet_step | quiet_step].
Qed.
Lemma uses_interrupt_body i : uses anywhere 5 (interrupt_body i).
Proof.
  unfold interrupt_body. do 4 (apply (uses_bind 0 5); [lia | by apply uses_quiet; quiet_step | intros ?]).
  apply (uses_bind 2 3); [lia | apply uses_push_return |]. intros _. apply uses_quiet.
  quiet_step; [quiet_step | apply quiet_add_machine_timing].
Qed.
Lemma uses_dma_source a : uses anywhere 1 (dma_source_byte a).
Proof.
  unfold dma_source_byte. uses_step; [uses_step |]. uses_step; [| | uses_step ..]; repeat uses_step.
Qed.
Lemma uses_copy_dma_byte : uses anywhere 5 copy_dma_byte.
Proof.
  unfold copy_dma_byte. uses_step; [uses_step |]. cbv zeta. uses_step; [uses_step |].
  apply (uses_bind 1 4); [lia | apply uses_dma_source |]. intros v. repeat uses_step.
Qed.

(** A step that misses a witness was given fewer than five. *)
Lemma missing_bound s input authentication r :
  vm_ok s → Forall witness_ok input → apply s input authentication = Err (SErr.MissingWitness r) →
  (length input < 5)%nat.
Proof.
  intros Hs Hw.
  assert (Hrun : ∀ {A} R (m : M A) k, uses R 5 m → R (executor_new s input authentication) → finishes k →
    run m (executor_new s input authentication) k = Err (SErr.MissingWitness r) → (length input < 5)%nat).
  { intros A R m k Hm HR Hk E. specialize (Hm _ HR). unfold run in E. destruct (m _) as [[a x] | e].
    - specialize (Hk a x). rewrite E in Hk. by destruct (proj1 Hk r).
    - injection E as ->. exact Hm. }
  assert (Hi : execute_instruction s input authentication = Err (SErr.MissingWitness r) → (length input < 5)%nat).
  { unfold execute_instruction. case_match; [done |].
    apply (Hrun _ _ _ _ (uses_instruction_body s)); [by apply (ready_new s) | apply finish_finishes]. }
  assert (Hq : ∀ (m : M ()) kind opcode, quiet m →
    run m (executor_new s input authentication) (finish_event kind opcode) = Err (SErr.MissingWitness r) → (length input < 5)%nat).
  { intros m kind opcode Hm. apply (Hrun _ anywhere); [by apply uses_quiet | done | apply finish_event_finishes]. }
  unfold apply, dma_byte, dispatch_interrupt, halt_wake, halt_until_vblank, halt_until_serial,
    halt_until_timer, halt_idle.
  destruct (is_dmg_post_boot_mbc3 (profile s)); [| done].
  destruct (negb _).
  { apply (Hrun _ anywhere); [apply uses_copy_dma_byte | done | apply finish_event_finishes]. }
  destruct (classify_dmg_machine_event s) as [event | e] eqn:Ec.
  - rewrite bind_of_ok. destruct event as [[] |]; try (by apply Hq; auto using quiet_skip, quiet_add_machine_timing).
    + apply (Hrun _ anywhere); [apply uses_interrupt_body | done | apply finish_event_finishes].
    + apply Hq. quiet_step.
    + exact Hi.
  - rewrite bind_of_err. intros [= ->]. unfold classify_dmg_machine_event in Ec. repeat case_match; by simplify_eq.
Qed.
End handlers.
