(* ===== verification/BuilderStep.v ===== *)
(** * What a builder's step does

    [BuilderLaws] is what a builder owes to the shared step loop: a server behind its materialized
    witnesses, and an update of its memory that follows the accepted events. From these laws every step is
    decided: the loop ends within its plan bound, an accepted row is the row of the step relation on the
    served witnesses, and the only failures are the machine's own and a private input that ran out. *)
From S2P Require Import Prelude IsaTypes Metadata Decode Alignment Address Commitment Merkle Image Logs.
From S2P Require Import Mbc3 Timer Apu Device Halt State Bus Execute Transition Access StepLogic StepTrace.
From S2P Require Import Step Effects Runs Trace Builder Serve Budget.

(** ** The accesses of a served step *)

Definition accesses_of_witness (w : BusWitness) : option MemoryAccess :=
  match w with
  | Wit.MemoryRead r => Some (Read r) | Wit.MemoryWrite w => Some (Write w) | _ => None
  end.
Definition input_of_witness (w : BusWitness) : option Z :=
  match w with Wit.InputByte v => Some v | _ => None end.
Definition planned_input (p : PlannedWitness) : option Z :=
  match p with Pw.InputByte v => Some v | _ => None end.
Definition rom_of_witness (w : BusWitness) : option RomRead :=
  match w with Wit.Rom r => Some r | _ => None end.

Lemma omap_witnesses {A} (f : BusEvent → option A) (g : BusWitness → option A) evs :
  (∀ e, omap g (witness_of e) = match f e with Some a => [a] | None => [] end) →
  omap f evs = omap g (evs ≫= witness_of).
Proof.
  intros Hfg. induction evs as [| e evs IH]; [done |].
  change ((e :: evs) ≫= witness_of) with (witness_of e ++ (evs ≫= witness_of)).
  rewrite omap_app, Hfg, <- IH. cbn. by destruct (f e).
Qed.
Lemma accesses_of_events evs : omap memory_access_of evs = omap accesses_of_witness (evs ≫= witness_of).
Proof. apply omap_witnesses. by intros []. Qed.
Lemma inputs_of_events evs : omap input_of evs = omap input_of_witness (evs ≫= witness_of).
Proof. apply omap_witnesses. by intros []. Qed.

(** The served accesses are those of an array of bytes. *)
Lemma answers_array `{Server} s0 plan : ∀ mem, table_ok mem → Forall (plan_ok s0) plan →
  array_run mem (omap accesses_of_witness (answers mem plan)) = Some (final mem plan).
Proof.
  induction plan as [| p plan IH]; intros mem Hm Hps; [done |]. apply Forall_cons in Hps as [Hp Hps].
  pose proof (IH (after_plan mem p)) as IH'. cbn [final foldl] in *.
  assert (Hm' : table_ok (after_plan mem p)).
  { destruct p as [| | a q v |]; try done. destruct Hm as [Hl Hu], Hp as (_ & _ & Hv). split; cbn.
    - unfold memory_bytes. by rewrite length_insert.
    - by apply Forall_insert. }
  specialize (IH' Hm' Hps).
  destruct p as [a q | a q | a q v | v]; cbn [answers omap list_omap answer accesses_of_witness]; try exact IH'.
  - cbn [array_run mr_physical_address mr_value]. destruct Hp as [_ Hq].
    destruct (memory_lookup mem q (proj1 Hm) Hq) as [x Hx]. unfold mem_byte. rewrite Hx. cbn.
    by rewrite bool_decide_eq_true_2.
  - cbn [array_run mw_physical_address mw_before mw_after]. destruct Hp as (_ & Hq & _).
    destruct (memory_lookup mem q (proj1 Hm) Hq) as [x Hx]. unfold mem_byte. rewrite Hx. cbn.
    by rewrite bool_decide_eq_true_2.
Qed.
Lemma answers_inputs `{Server} plan : ∀ mem, omap input_of_witness (answers mem plan) = omap planned_input plan.
Proof. induction plan as [| p plan IH]; intros mem; [done |]. cbn. rewrite IH. by destruct p. Qed.

(** ** The laws of a builder *)

Section laws.
Context `{Sha256}.

Class BuilderLaws {B E} (builder : Builder B E) (authentication : BusAuthentication) := {
  (** the server behind the builder and its memory table *)
  bl_server : B → Server;
  bl_ok : B → list Z → Prop;
  bl_relation s input : b_relation s input = apply s input authentication;
  bl_vm b mem : bl_ok b mem → vm_ok (b_state b);
  bl_table b mem : bl_ok b mem → table_ok mem;
  bl_input b mem : bl_ok b mem → Forall (λ v, is_u8 v) (b_input b);
  bl_root b mem : bl_ok b mem → authentication = Auth.Merkle → memory_root (b_state b) = sv_root (Server := bl_server b) mem;
  bl_laws b mem : bl_ok b mem → ServerLaws (bl_server b) authentication (b_state b);
  bl_materialize b mem plan : bl_ok b mem → Forall (plan_ok (b_state b)) plan →
    b_materialize b plan = Ok (answers (server := bl_server b) mem plan);
  bl_accept b mem plan after eff : bl_ok b mem → Forall (plan_ok (b_state b)) plan →
    se_bus_events eff ≫= witness_of = answers (server := bl_server b) mem plan →
    vm_ok after → profile after = profile (b_state b) → vm_rom_root after = vm_rom_root (b_state b) →
    (authentication = Auth.Merkle → memory_root after = sv_root (Server := bl_server b) (final mem plan)) →
    ∃ b', b_accept b after eff = Ok b' ∧ b_state b' = after ∧ b_input b' = b_input b ∧
      bl_server b' = bl_server b ∧ bl_ok b' (final mem plan)
}.

Section step.
Context {B E} {builder : Builder B E} {authentication} `{!BuilderLaws builder authentication}.

(** The ways a step fails: the machine stops, or the private input has no further byte. *)
Inductive step_failure (b : B) : E → Prop :=
| failed_step e : machine_error e = true → step_failure b (e_step e)
| failed_input index : Z.of_nat (length (b_input b)) <= index →
    log_next_index (input_log (b_state b)) <= index → step_failure b (e_input_exhausted index)
| failed_index : 18446744073709551616 - 5 < log_next_index (input_log (b_state b)) → step_failure b e_input_index.

(** The plan's input bytes are the next ones of the private input. *)
Definition inputs_planned (b : B) (plan : list PlannedWitness) : Prop :=
  let index := Z.to_nat (log_next_index (input_log (b_state b))) in
  omap planned_input plan = take (length (omap planned_input plan)) (drop index (b_input b)).

(** What an accepted step leaves. *)
Record step_done (b : B) (mem : list Z) (b' : B) (row : TraceRow) (mem' : list Z) : Prop := {
  sd_accepted : accepted authentication row;
  sd_before : row_before row = b_state b;
  sd_after : row_after row = b_state b';
  sd_ok : bl_ok b' mem';
  sd_input : b_input b' = b_input b;
  sd_server : bl_server b' = bl_server b;
  sd_memory : array_run mem (omap memory_access_of (se_bus_events (row_effects row))) = Some mem';
  sd_consumed : let index := Z.to_nat (log_next_index (input_log (b_state b))) in
    let inputs := omap input_of (se_bus_events (row_effects row)) in
    inputs = take (length inputs) (drop index (b_input b))
}.

(** Why the loop is where it is: it starts, or the plan answers the last request. *)
Definition pursued (b : B) (mem : list Z) (plan : list PlannedWitness) : Prop :=
  plan = [] ∨ ∃ plan0 p r, plan = plan0 ++ [p] ∧ plans r p ∧
    apply (b_state b) (answers (server := bl_server b) mem plan0) authentication = Err (SErr.MissingWitness r).

Lemma pursued_settled b mem plan : bl_ok b mem → Forall (plan_ok (b_state b)) plan → pursued b mem plan →
  settled (server := bl_server b) (authentication := authentication)
    (apply (b_state b) (answers (server := bl_server b) mem plan) authentication) (final mem plan).
Proof.
  intros Hb Hps Hp. pose proof (bl_laws b mem Hb) as Hl.
  pose proof (λ plan Hps, apply_served (server := bl_server b) mem plan (bl_vm b mem Hb) (bl_table b mem Hb) Hps
    (bl_root b mem Hb)) as Hs. unfold served in Hs.
  destruct Hp as [-> | (plan0 & p & r & -> & Hr & E0)].
  - specialize (Hs [] Hps). destruct (apply _ _ _) as [[s eff] | e]; [by apply Hs |]. destruct e; try done; by apply Hs.
  - apply Forall_app in Hps as [Hps Hp]. apply Forall_cons in Hp as [Hp _].
    specialize (Hs plan0 Hps). rewrite E0 in Hs. destruct Hs as [_ Hs]. by apply (Hs p).
Qed.

Lemma plan_witness_spec b mem r plan :
  bl_ok b mem → Forall (plan_ok (b_state b)) plan → servable (b_state b) r → inputs_planned b plan →
  (length plan < 5)%nat →
  match plan_witness b r plan with
  | Ok p => plans r p ∧ plan_ok (b_state b) p ∧ inputs_planned b (plan ++ [p])
  | Err e => step_failure b e
  end.
Proof.
  intros Hb Hps Hr Hin Hlen. pose proof (bl_input b mem Hb) as Hu8.
  pose proof (ok_input_index _ (bl_vm b mem Hb)) as Hix. unfold inputs_planned in *.
  assert (Hnot : ∀ p, planned_input p = None → omap planned_input (plan ++ [p]) = omap planned_input plan).
  { intros p Hp. rewrite omap_app. cbn. by rewrite Hp, app_nil_r. }
  destruct r as [a p role | a p | a p v |]; cbn [plan_witness];
    try (split; [by repeat split |]; split; [apply Hr; [by repeat split | by intros [=]] | by rewrite Hnot]).
  assert (Hcount : length (filter (λ p, is_input_byte p = true) plan) = length (omap planned_input plan)).
  { clear. induction plan as [| q plan IH]; [done |]. rewrite filter_cons. destruct q; cbn; by rewrite <- ?IH. }
  rewrite Hcount. set (inputs := omap planned_input plan) in *. set (index := log_next_index _) in *.
  assert (Hn : (length inputs <= length plan)%nat).
  { subst inputs. rewrite <- Hcount. apply length_filter. }
  unfold checked_add_u64. destruct (Z.ltb_spec (index + Z.of_nat (length inputs)) 18446744073709551616) as [Hlt | Hge].
  - cbn [ok_or mbind result_bind]. replace (Z.to_nat (index + Z.of_nat (length inputs)))
      with (Z.to_nat index + length inputs)%nat by lia.
    destruct (b_input b !! _) as [v |] eqn:Ev; cbn [ok_or mbind result_bind].
    + split; [done |]. split; [exact (Forall_lookup_1 _ _ _ _ Hu8 Ev) |].
      rewrite omap_app. change (omap planned_input [Pw.InputByte v]) with [v]. fold inputs.
      rewrite length_app, Hin at 1. cbn [length]. rewrite Nat.add_1_r.
      rewrite (take_S_r _ _ v); [done |]. by rewrite lookup_drop.
    + apply failed_input; [| fold index; lia]. apply lookup_ge_None_1 in Ev. lia.
  - cbn [ok_or mbind result_bind]. apply failed_index. fold index. lia.
Qed.

Lemma length_answers (server : Server) plan : ∀ mem, length (answers mem plan) = length plan.
Proof. induction plan as [| p plan IH]; intros mem; [done |]. cbn. by rewrite IH. Qed.

Lemma accept_done b mem plan after eff :
  bl_ok b mem → Forall (plan_ok (b_state b)) plan → inputs_planned b plan →
  apply (b_state b) (answers (server := bl_server b) mem plan) authentication = Ok (after, eff) →
  (authentication = Auth.Merkle → memory_root after = sv_root (Server := bl_server b) (final mem plan)) →
  ∃ b', b_accept b after eff = Ok b' ∧ step_done b mem b' (MkRow (b_state b) after eff) (final mem plan).
Proof.
  intros Hb Hps Hin Ea Hroot. pose proof (bl_laws b mem Hb) as Hl. pose proof (bl_table b mem Hb) as Ht.
  pose proof (answers_ok (server := bl_server b) (authentication := authentication) (s0 := b_state b) plan mem Ht Hps) as Hw.
  pose proof (apply_spec (b_state b) _ authentication (bl_vm b mem Hb) Hw) as Hs. rewrite Ea in Hs.
  pose proof (st_input _ _ _ _ _ Hs) as Hevs.
  destruct (bl_accept b mem plan after eff Hb Hps (eq_sym Hevs) (st_vm _ _ _ _ _ Hs)
    (st_profile _ _ _ _ _ Hs) (st_root _ _ _ _ _ Hs) Hroot) as (b' & Ha & Hst & Hi & Hsv & Hok).
  exists b'. split; [done |]. split; cbn [row_before row_after row_effects]; try done.
  - exists (answers (server := bl_server b) mem plan). by split.
  - rewrite accesses_of_events, <- Hevs. by apply (answers_array (b_state b)).
  - rewrite inputs_of_events, <- Hevs, answers_inputs. exact Hin.
Qed.

Lemma step_loop_spec b mem : bl_ok b mem → ∀ remaining plan,
  (remaining + length plan = MAX_WITNESSES_PER_STEP)%nat → Forall (plan_ok (b_state b)) plan →
  pursued b mem plan → inputs_planned b plan →
  match step_loop b remaining plan with
  | Ok (b', row) => ∃ mem', step_done b mem b' row mem'
  | Err e => step_failure b e
  end.
Proof.
  intros Hb. pose proof (bl_laws b mem Hb) as Hl. pose proof (bl_table b mem Hb) as Ht.
  pose proof (bl_vm b mem Hb) as Hvm. unfold MAX_WITNESSES_PER_STEP.
  induction remaining as [| remaining IH]; intros plan Hlen Hps Hpur Hin; cbn [step_loop];
    rewrite (bl_materialize b mem plan Hb Hps), bind_of_ok, bl_relation;
    pose proof (pursued_settled b mem plan Hb Hps Hpur) as Hset;
    pose proof (answers_ok (server := bl_server b) (authentication := authentication) (s0 := b_state b) plan mem Ht Hps) as Hw;
    pose proof (apply_spec (b_state b) _ authentication Hvm Hw) as Hspec;
    destruct (apply _ _ authentication) as [[after eff] | e] eqn:Ea.
  1, 3: destruct (accept_done b mem plan after eff Hb Hps Hin Ea Hset) as (b' & -> & Hd);
    rewrite bind_of_ok; by exists (final mem plan).
  - assert (Hm : witness_error e = false → step_failure b (e_step e)).
    { intros Hwe. apply failed_step. unfold machine_error. cbn in Hspec. by rewrite Hspec, Hwe. }
    destruct e; try (by apply Hm). exfalso.
    apply (missing_bound _ _ _ _ Hvm Hw) in Ea. rewrite length_answers in Ea. lia.
  - assert (Hm : witness_error e = false → step_failure b (e_step e)).
    { intros Hwe. apply failed_step. unfold machine_error. cbn in Hspec. by rewrite Hspec, Hwe. }
    destruct e; try (by apply Hm).
    pose proof (apply_served (server := bl_server b) mem plan Hvm Ht Hps (bl_root b mem Hb)) as Hserve.
    unfold served in Hserve. rewrite Ea in Hserve. destruct Hserve as [Hr _].
    pose proof (plan_witness_spec b mem request plan Hb Hps Hr Hin ltac:(lia)) as Hp.
    destruct (plan_witness b request plan) as [p | e]; [rewrite bind_of_ok | by rewrite bind_of_err].
    destruct Hp as (Hp & Hok & Hin'). apply IH; [rewrite length_app; cbn; lia | | | done].
    + apply Forall_app. split; [done | by constructor].
    + right. exists plan, p, request. done.
Qed.

Lemma step_done_or_failed b mem : bl_ok b mem →
  match step b with
  | Ok (b', row) => ∃ mem', step_done b mem b' row mem'
  | Err e => step_failure b e
  end.
Proof. intros Hb. apply step_loop_spec; [done | by cbn | by constructor | by left | done]. Qed.
End step.
End laws.
