(* ===== verification/Builders.v ===== *)
(** * The two builders keep their laws

    [TraceBuilder] over committed images and [LookupTraceBuilder] over byte arrays are instances of
    [BuilderLaws]: their materialized witnesses are a server's answers, whether the image is forked, read
    ahead of its writes or scanned for planned ones, and accepted events move their memory along. *)
From S2P Require Import Prelude IsaTypes Metadata Decode Alignment Address Commitment Merkle Image Logs.
From S2P Require Import Mbc3 Timer Apu Device Halt State Bus Execute Transition Access StepLogic StepTrace.
From S2P Require Import Step Effects Runs Trace Builder Serve Budget BuilderStep.

#[local] Opaque MEMORY_DEPTH.

Section image_server.
Context `{Sha256}.

Definition tree_path (t : MerkleTree) (p : Z) : MerklePath :=
  match tree_read t p with Ok (_, path) => path | Err _ => lookup_placeholder end.

(** The server behind a [TraceBuilder]. *)
Definition image_server (b : TraceBuilder) : Server := {|
  sv_rom_byte p := mem_byte (tree_bytes (rom_tree (tb_rom b))) p;
  sv_rom_path := tree_path (rom_tree (tb_rom b));
  sv_mem_path mem := tree_path (memory_tree (image_of mem));
  sv_root mem := memory_image_root (image_of mem)
|}.

(** A ROM image of bytes that holds the cartridge of the machine profile. *)
Definition rom_holds (i : RomImage) (s : VmState) : Prop :=
  ∃ bytes d, (16 <= d <= 20)%nat ∧ length bytes = (2 ^ d)%nat ∧ i = MkRom (tree_of Kind.Rom bytes d) ∧
    Forall (λ v, is_u8 v) bytes ∧ byte_length (rom_size (mbc3_cartridge_profile (profile s))) <= 2 ^ Z.of_nat d ∧
    vm_rom_root s = rom_image_root i.

(** The invariant of a [TraceBuilder] whose memory image holds [mem]. *)
Record tb_ok (b : TraceBuilder) (mem : list Z) : Prop := {
  tb_memory_ok : tb_memory b = image_of mem;
  tb_table_ok : table_ok mem;
  tb_vm_ok : vm_ok (tb_state b);
  tb_input_ok : Forall (λ v, is_u8 v) (tb_input b);
  tb_rom_ok : rom_holds (tb_rom b) (tb_state b);
  tb_root_ok : memory_root (tb_state b) = memory_image_root (tb_memory b)
}.

Context `{!Sha256Digest}.

Lemma tree_path_spec k bytes d p : (16 <= d <= 20)%nat → length bytes = (2 ^ d)%nat → 0 <= p < 2 ^ Z.of_nat d →
  bytes !! Z.to_nat p = Some (mem_byte bytes p) ∧
  tree_read (tree_of k bytes d) p = Ok (mem_byte bytes p, tree_path (tree_of k bytes d) p) ∧
  path_ok (tree_path (tree_of k bytes d) p) ∧
  kind_root k p (mem_byte bytes p) (tree_path (tree_of k bytes d) p) = root_of k bytes d ∧
  ∀ w, tree_write (tree_of k bytes d) p w = Ok (tree_of k (<[Z.to_nat p := w]> bytes) d) ∧
    kind_root k p w (tree_path (tree_of k bytes d) p) = root_of k (<[Z.to_nat p := w]> bytes) d.
Proof.
  intros Hd Hl Hp. destruct (lookup_lt_is_Some_2 bytes (Z.to_nat p)) as [v Hv].
  { rewrite Hl. apply Nat2Z.inj_lt. rewrite Nat2Z.inj_pow, Z2Nat.id by lia. apply Hp. }
  destruct (tree_access k bytes d p v Hd Hl (proj1 Hp) Hv) as (path & Hr & Hok & Hroot & Hw).
  unfold tree_path, mem_byte. rewrite Hr, Hv. cbn [default from_option]. unfold id. auto.
Qed.

Lemma image_path_spec mem p : table_ok mem → 0 <= p < MUTABLE_COMMITMENT_BYTES →
  let t := memory_tree (image_of mem) in
  tree_read t p = Ok (mem_byte mem p, tree_path t p) ∧ path_ok (tree_path t p) ∧
  mutable_root p (mem_byte mem p) (tree_path t p) = memory_image_root (image_of mem) ∧
  ∀ w, tree_write t p w = Ok (memory_tree (image_of (<[Z.to_nat p := w]> mem))) ∧
    mutable_root p w (tree_path t p) = memory_image_root (image_of (<[Z.to_nat p := w]> mem)).
Proof.
  intros [Hl _] Hp. rewrite <- memory_depth_pow in Hp.
  destruct (tree_path_spec Kind.Memory mem MEMORY_DEPTH p memory_depth_bound Hl Hp) as (_ & Hs). exact Hs.
Qed.

Lemma physical_small p : 0 <= p < MUTABLE_COMMITMENT_BYTES → p < 2 ^ 20.
Proof. unfold MUTABLE_COMMITMENT_BYTES. change (2 ^ 20) with 1048576. lia. Qed.

Lemma image_server_laws b mem : tb_ok b mem → ServerLaws (image_server b) Auth.Merkle (tb_state b).
Proof.
  intros [_ _ _ _ (bytes & d & Hd & Hl & Erom & Hu8 & Hlen & Hroot) _].
  assert (Hrom : ∀ p, 0 <= p < byte_length (rom_size (mbc3_cartridge_profile (profile (tb_state b)))) →
    0 <= p < 2 ^ Z.of_nat d) by (intros; lia).
  split; cbn [sv_rom_byte sv_rom_path sv_mem_path sv_root image_server]; rewrite ?Erom; cbn [rom_tree tree_bytes tree_of].
  - intros p Hp. destruct (tree_path_spec Kind.Rom bytes d p Hd Hl (Hrom p Hp)) as (Hv & _ & Hok & _).
    split; [exact (Forall_lookup_1 _ _ _ _ Hu8 Hv) | done].
  - intros m p Hm Hp. by apply image_path_spec.
  - intros a p _ [Ho Hp]. destruct (tree_path_spec Kind.Rom bytes d p Hd Hl (Hrom p Hp)) as (_ & _ & _ & Hr & _).
    split; [done |]. split; [cbn; pose proof (pow2_20 d p); lia |]. rewrite Hroot, Erom. exact Hr.
  - intros m a p _ Hm [Ho Hp]. destruct (image_path_spec m p Hm Hp) as (_ & _ & Hr & _).
    split; [done |]. split; [by apply physical_small | done].
  - intros m a p v _ Hm (Ho & Hp & _). destruct (image_path_spec m p Hm Hp) as (_ & _ & Hr & Hw).
    split; [done |]. split; [by apply physical_small |]. split; [done | apply Hw].
Qed.

(** ** Materialized plans *)

Lemma rom_served b mem a p : tb_ok b mem → plan_ok (tb_state b) (Pw.Rom a p) →
  rom_read_mapped (tb_rom b) a p = Ok (MkRomRead a p (sv_rom_byte (Server := image_server b) p)
    (sv_rom_path (Server := image_server b) p)).
Proof.
  intros [_ _ _ _ (bytes & d & Hd & Hl & Erom & _ & Hlen & _) _] [Ho Hp].
  unfold rom_read_mapped. rewrite bool_decide_eq_true_2 by done. cbn [negb sv_rom_byte sv_rom_path image_server].
  rewrite Erom. cbn [rom_tree tree_bytes tree_of].
  destruct (tree_path_spec Kind.Rom bytes d p Hd Hl ltac:(lia)) as (_ & -> & _). done.
Qed.
Lemma read_served mem a p s : table_ok mem → plan_ok s (Pw.MemoryRead a p) →
  memory_read_mapped (image_of mem) a p =
    Ok (MkMemoryRead a p (mem_byte mem p) (tree_path (memory_tree (image_of mem)) p)).
Proof.
  intros Hm [Ho Hp]. unfold memory_read_mapped. rewrite validate_owned, Ho. cbn [mbind result_bind].
  by destruct (image_path_spec mem p Hm Hp) as (-> & _).
Qed.
Lemma preview_served mem a p v s : table_ok mem → plan_ok s (Pw.MemoryWrite a p v) →
  preview_write_mapped (image_of mem) a p v =
    Ok (MkMemoryWrite a p (mem_byte mem p) v (tree_path (memory_tree (image_of mem)) p)).
Proof.
  intros Hm (Ho & Hp & _). unfold preview_write_mapped. rewrite validate_owned, Ho. cbn [mbind result_bind].
  by destruct (image_path_spec mem p Hm Hp) as (-> & _).
Qed.
Lemma write_served mem a p v s : table_ok mem → plan_ok s (Pw.MemoryWrite a p v) →
  memory_write_mapped (image_of mem) a p v =
    Ok (MkMemoryWrite a p (mem_byte mem p) v (tree_path (memory_tree (image_of mem)) p),
        image_of (<[Z.to_nat p := v]> mem)).
Proof.
  intros Hm Hp. unfold memory_write_mapped. rewrite (preview_served mem a p v s) by done. cbn [mbind result_bind].
  destruct Hp as (_ & Hp & _). destruct (image_path_spec mem p Hm Hp) as (_ & _ & _ & Hw).
  destruct (Hw v) as [-> _]. done.
Qed.

Lemma table_after mem p s : table_ok mem → plan_ok s p → table_ok (after_plan mem p).
Proof.
  intros [Hl Hm] Hp. destruct p; try done. destruct Hp as (_ & _ & Hv). split; cbn.
  - unfold memory_bytes. by rewrite length_insert.
  - by apply Forall_insert.
Qed.

(** With a fork, the loop threads the written image. *)
Lemma materialize_forked b mem plan : tb_ok b mem → ∀ now, table_ok now → Forall (plan_ok (tb_state b)) plan →
  materialize_loop b (Some (image_of now)) plan = Ok (answers (server := image_server b) now plan).
Proof.
  intros Hb. induction plan as [| p plan IH]; intros now Hnow Hps; [done |]. apply Forall_cons in Hps as [Hp Hps].
  pose proof (table_after now p _ Hnow Hp) as Hnext. cbn [materialize_loop answers].
  destruct p as [a q | a q | a q v | v]; cbn [default from_option].
  - rewrite (rom_served b mem a q Hb Hp), map_err_ok, !bind_of_ok, IH by done. done.
  - unfold id. rewrite (read_served now a q _ Hnow Hp), map_err_ok, !bind_of_ok, IH by done. done.
  - rewrite (write_served now a q v _ Hnow Hp), map_err_ok, !bind_of_ok, IH by done. done.
  - rewrite bind_of_ok, IH by done. done.
Qed.

(** Without one, the only write of the plan follows all its reads. *)
Lemma materialize_unforked b mem plan : tb_ok b mem → ∀ written now,
  (written = false → now = mem) → requires_memory_fork written plan = false → Forall (plan_ok (tb_state b)) plan →
  materialize_loop b None plan = Ok (answers (server := image_server b) now plan).
Proof.
  intros Hb. pose proof (tb_memory_ok b mem Hb) as Em. pose proof (tb_table_ok b mem Hb) as Hm.
  induction plan as [| p plan IH]; intros written now Hnow Hf Hps; [done |]. apply Forall_cons in Hps as [Hp Hps].
  cbn [materialize_loop answers requires_memory_fork] in *.
  destruct p as [a q | a q | a q v | v]; cbn [default from_option after_plan].
  - rewrite (rom_served b mem a q Hb Hp), map_err_ok, !bind_of_ok, (IH written now) by done. done.
  - destruct written; [done |]. rewrite (Hnow eq_refl), Em. unfold id.
    rewrite (read_served mem a q _ Hm Hp), map_err_ok, !bind_of_ok, (IH false mem) by done. done.
  - destruct written; [done |]. rewrite (Hnow eq_refl), Em.
    rewrite (preview_served mem a q v _ Hm Hp), map_err_ok, !bind_of_ok, (IH true (<[Z.to_nat q := v]> mem)) by done. done.
  - rewrite bind_of_ok, (IH written now) by done. done.
Qed.

Lemma materialize_served b mem plan : tb_ok b mem → Forall (plan_ok (tb_state b)) plan →
  materialize b plan = Ok (answers (server := image_server b) mem plan).
Proof.
  intros Hb Hps. unfold materialize. destruct (requires_memory_fork false plan) eqn:E.
  - rewrite (tb_memory_ok b mem Hb). eapply materialize_forked; [done | by apply (tb_table_ok b) | done].
  - by eapply materialize_unforked.
Qed.

(** ** Accepted events *)

Lemma image_events_served (server : Server) s evs : ∀ mem plan,
  (∀ m, sv_mem_path (Server := server) m = tree_path (memory_tree (image_of m))) →
  table_ok mem → Forall (plan_ok s) plan → evs ≫= witness_of = answers mem plan →
  apply_image_events (image_of mem) evs = Ok (image_of (final mem plan)).
Proof.
  induction evs as [| e evs IH]; intros mem plan Hpath Hm Hps E.
  - by destruct plan.
  - change ((e :: evs) ≫= witness_of) with (witness_of e ++ (evs ≫= witness_of)) in E.
    assert (Hskip : witness_of e = [] → apply_image_events (image_of mem) evs = Ok (image_of (final mem plan))).
    { intros Hn. rewrite Hn in E. by apply IH. }
    assert (Hother : ∀ w, witness_of e = [w] → (∀ x, w ≠ Wit.MemoryWrite x) →
      apply_image_events (image_of mem) evs = Ok (image_of (final mem plan))).
    { intros w Hw Hn. rewrite Hw in E. destruct plan as [| p plan]; [done |]. injection E as Ew E.
      apply Forall_cons in Hps as [Hp Hps].
      destruct p; try (by apply (IH mem plan Hpath)). by destruct (Hn _ Ew). }
    assert (Hwrite : ∀ x, witness_of e = [Wit.MemoryWrite x] →
      ('(actual, memory) ← map_err TbErr.Memory (memory_write_mapped (image_of mem) (mw_address x) (mw_physical_address x) (mw_after x));
       if negb (bool_decide (actual = x)) then Err TbErr.MemoryEffectDivergence else apply_image_events memory evs) =
      Ok (image_of (final mem plan))).
    { intros x Hw. rewrite Hw in E. destruct plan as [| p plan]; [done |]. injection E as Ew E.
      apply Forall_cons in Hps as [Hp Hps]. destruct p as [| | a q v |]; try done. injection Ew as ->.
      cbn [mw_address mw_physical_address mw_after]. rewrite (write_served mem a q v s Hm Hp), map_err_ok, bind_of_ok.
      rewrite bool_decide_eq_true_2 by (by rewrite Hpath). cbn [negb].
      apply (IH _ plan Hpath); [by apply (table_after mem (Pw.MemoryWrite a q v) s) | done | done]. }
    destruct e; cbn [apply_image_events]; try (by apply Hskip); try (by apply Hwrite); by eapply Hother.
Qed.

#[export] Program Instance trace_builder_laws : BuilderLaws trace_builder Auth.Merkle := {
  bl_server := image_server;
  bl_ok := tb_ok
}.
Next Obligation. done. Qed.
Next Obligation. intros b mem. apply tb_vm_ok. Qed.
Next Obligation. intros b mem. apply tb_table_ok. Qed.
Next Obligation. intros b mem. apply tb_input_ok. Qed.
Next Obligation. intros b mem Hb _. change (memory_root (tb_state b) = memory_image_root (image_of mem)). by rewrite (tb_root_ok b mem Hb), (tb_memory_ok b mem Hb). Qed.
Next Obligation. intros b mem. apply image_server_laws. Qed.
Next Obligation. intros b mem plan. apply materialize_served. Qed.
Next Obligation.
  intros b mem plan after eff Hb Hps E Hvm Hprof Hrom Hroot. cbn [b_accept trace_builder] in *.
  unfold apply_image_effects. rewrite (tb_memory_ok b mem Hb).
  rewrite (image_events_served (image_server b) (tb_state b) _ mem plan) by (done || by apply (tb_table_ok b)).
  rewrite bind_of_ok. specialize (Hroot eq_refl). change (memory_root after = memory_image_root (image_of (final mem plan))) in Hroot.
  rewrite bool_decide_eq_true_2 by done. cbn [negb]. rewrite bind_of_ok. eexists. split; [done |].
  split; [done |]. split; [done |]. split; [done |]. destruct (tb_rom_ok b mem Hb) as (bytes & d & ? & ? & ? & ? & ? & ?).
  split; cbn [tb_memory tb_state tb_input tb_rom]; try done.
  - apply (final_ok (s0 := tb_state b)); [by apply (tb_table_ok b) | done].
  - apply (tb_input_ok b mem Hb).
  - exists bytes, d. rewrite Hprof, Hrom. done.
Qed.
End image_server.

(** ** [LookupTraceBuilder] *)

Section table_server.
Context `{Sha256}.

Definition table_server (b : LookupTraceBuilder) : Server := {|
  sv_rom_byte p := mem_byte (ltb_rom b) p;
  sv_rom_path _ := lookup_placeholder;
  sv_mem_path _ _ := lookup_placeholder;
  sv_root _ := zero_root
|}.

(** The invariant of a [LookupTraceBuilder] whose table holds [mem]. *)
Record ltb_ok (b : LookupTraceBuilder) (mem : list Z) : Prop := {
  ltb_memory_ok : ltb_memory b = mem;
  ltb_table_ok : table_ok mem;
  ltb_vm_ok : vm_ok (ltb_state b);
  ltb_input_ok : Forall (λ v, is_u8 v) (ltb_input b);
  ltb_rom_ok : Z.of_nat (length (ltb_rom b)) = ROM_BYTES ∧ Forall (λ v, is_u8 v) (ltb_rom b)
}.

Lemma rom_table b mem p s : ltb_ok b mem → 0 <= p < byte_length (rom_size (mbc3_cartridge_profile (profile s))) →
  ltb_rom b !! Z.to_nat p = Some (mem_byte (ltb_rom b) p).
Proof.
  intros [_ _ _ _ [Hl _]] Hp. pose proof (byte_length_bound (rom_size (mbc3_cartridge_profile (profile s)))) as Hb.
  destruct (lookup_lt_is_Some_2 (ltb_rom b) (Z.to_nat p)) as [v Hv].
  { change (2 ^ 20) with ROM_BYTES in Hb. lia. }
  unfold mem_byte. by rewrite Hv.
Qed.

Lemma table_server_laws b mem : ltb_ok b mem → ServerLaws (table_server b) Auth.Lookup (ltb_state b).
Proof.
  intros Hb. split; try done; cbn [sv_rom_byte sv_rom_path sv_mem_path table_server].
  - intros p Hp. split; [| apply placeholder_ok].
    exact (Forall_lookup_1 _ _ _ _ (proj2 (ltb_rom_ok b mem Hb)) (rom_table b mem p _ Hb Hp)).
  - intros m p _ _. apply placeholder_ok.
Qed.

Lemma table_byte_served mem p : table_ok mem → 0 <= p < MUTABLE_COMMITMENT_BYTES →
  table_byte mem p = Ok (mem_byte mem p).
Proof.
  intros [Hl _] Hp. unfold table_byte, mem_byte. by destruct (memory_lookup mem p Hl Hp) as [v ->].
Qed.

(** Scanning the preceding writes backwards finds the byte that writing them would leave. *)
Lemma planned_byte_served b mem preceding p : ltb_ok b mem → Forall (plan_ok (ltb_state b)) preceding →
  0 <= p < MUTABLE_COMMITMENT_BYTES →
  planned_memory_byte b preceding p = Ok (mem_byte (final mem preceding) p).
Proof.
  intros Hb Hps Hp. unfold planned_memory_byte. rewrite (ltb_memory_ok b mem Hb).
  pose proof (ltb_table_ok b mem Hb) as Hm.
  induction preceding as [| q preceding IH] using rev_ind; [by apply table_byte_served |].
  apply Forall_app in Hps as [Hps Hq]. apply Forall_cons in Hq as [Hq _]. specialize (IH Hps).
  rewrite rev_app_distr. cbn [rev app omap list_omap]. rewrite final_app. cbn [final foldl].
  destruct q as [| | a q v |]; try exact IH. cbn [after_plan]. destruct Hq as (_ & Hq & _).
  destruct (Z.eqb_spec q p) as [-> | Hne].
  - cbn. unfold mem_byte. rewrite list_lookup_insert_eq; [done |].
    assert (Ht : table_ok (final mem preceding)) by (by apply (final_ok (s0 := ltb_state b))).
    destruct Ht as [Hl' _]. apply memory_bytes_length in Hl'. lia.
  - rewrite IH. f_equal. unfold mem_byte. by rewrite list_lookup_insert_ne by lia.
Qed.

Lemma lookup_materialize_served b mem : ltb_ok b mem → ∀ plan preceding,
  Forall (plan_ok (ltb_state b)) preceding → Forall (plan_ok (ltb_state b)) plan →
  lookup_materialize_loop b preceding plan = Ok (answers (server := table_server b) (final mem preceding) plan).
Proof.
  intros Hb. induction plan as [| p plan IH]; intros preceding Hpre Hps; [done |]. apply Forall_cons in Hps as [Hp Hps].
  cbn [lookup_materialize_loop answers]. specialize (IH (preceding ++ [p])). rewrite final_app in IH.
  assert (Hpre' : Forall (plan_ok (ltb_state b)) (preceding ++ [p])).
  { apply Forall_app. split; [done | by constructor]. }
  specialize (IH Hpre' Hps). cbn [final foldl] in IH.
  destruct p as [a q | a q | a q v | v]; cbn [answer].
  - destruct Hp as [_ Hp]. unfold table_byte. rewrite (rom_table b mem q _ Hb Hp). cbn [ok_or]. by rewrite !bind_of_ok, IH.
  - destruct Hp as [_ Hp]. rewrite (planned_byte_served b mem preceding q Hb Hpre Hp). by rewrite !bind_of_ok, IH.
  - destruct Hp as (_ & Hp & _). rewrite (planned_byte_served b mem preceding q Hb Hpre Hp). by rewrite !bind_of_ok, IH.
  - by rewrite bind_of_ok, IH.
Qed.

Lemma memory_effects_served (server : Server) s evs : ∀ mem plan,
  table_ok mem → Forall (plan_ok s) plan → evs ≫= witness_of = answers mem plan →
  apply_memory_effects mem evs = Ok (final mem plan).
Proof.
  induction evs as [| e evs IH]; intros mem plan Hm Hps E.
  - by destruct plan.
  - change ((e :: evs) ≫= witness_of) with (witness_of e ++ (evs ≫= witness_of)) in E.
    assert (Hskip : witness_of e = [] → apply_memory_effects mem evs = Ok (final mem plan)).
    { intros Hn. rewrite Hn in E. by apply IH. }
    assert (Hother : ∀ w, witness_of e = [w] → (∀ x, w ≠ Wit.MemoryWrite x) →
      apply_memory_effects mem evs = Ok (final mem plan)).
    { intros w Hw Hn. rewrite Hw in E. destruct plan as [| p plan]; [done |]. injection E as Ew E.
      apply Forall_cons in Hps as [Hp Hps]. destruct p; try (by apply (IH mem plan)). by destruct (Hn _ Ew). }
    assert (Hwrite : ∀ x, witness_of e = [Wit.MemoryWrite x] →
      (before ← table_byte mem (mw_physical_address x);
       if negb (before =? mw_before x) then Err LtbErr.MemoryEffectDivergence
       else memory ← set_byte mem (mw_physical_address x) (mw_after x); apply_memory_effects memory evs) =
      Ok (final mem plan)).
    { intros x Hw. rewrite Hw in E. destruct plan as [| p plan]; [done |]. injection E as Ew E.
      apply Forall_cons in Hps as [Hp Hps]. destruct p as [| | a q v |]; try done. injection Ew as ->.
      pose proof (proj1 (proj2 Hp)) as Hq. cbn [mw_physical_address mw_before mw_after]. unfold set_byte.
      rewrite (table_byte_served mem q Hm Hq), bind_of_ok, Z.eqb_refl. cbn [negb]. rewrite !bind_of_ok.
      apply (IH _ plan); [by apply (table_after mem (Pw.MemoryWrite a q v) s) | done | done]. }
    destruct e; cbn [apply_memory_effects]; try (by apply Hskip); try (by apply Hwrite); by eapply Hother.
Qed.

#[export] Program Instance lookup_builder_laws : BuilderLaws lookup_builder Auth.Lookup := {
  bl_server := table_server;
  bl_ok := ltb_ok
}.
Next Obligation. done. Qed.
Next Obligation. intros b mem. apply ltb_vm_ok. Qed.
Next Obligation. intros b mem. apply ltb_table_ok. Qed.
Next Obligation. intros b mem. apply ltb_input_ok. Qed.
Next Obligation. done. Qed.
Next Obligation. intros b mem. apply table_server_laws. Qed.
Next Obligation. intros b mem plan Hb. by apply (lookup_materialize_served b mem Hb plan []). Qed.
Next Obligation.
  intros b mem plan after eff Hb Hps E Hvm Hprof Hrom _. cbn [b_accept lookup_builder] in *.
  rewrite (ltb_memory_ok b mem Hb).
  rewrite (memory_effects_served (table_server b) (ltb_state b) _ mem plan) by (done || by apply (ltb_table_ok b)).
  rewrite bind_of_ok. eexists. split; [done |]. split; [done |]. split; [done |]. split; [done |].
  split; cbn [ltb_memory ltb_state ltb_input ltb_rom]; try done.
  - apply (final_ok (s0 := ltb_state b)); [by apply (ltb_table_ok b) | done].
  - apply (ltb_input_ok b mem Hb).
  - apply (ltb_rom_ok b mem Hb).
Qed.
End table_server.
