(* ===== verification/BuilderRun.v ===== *)
(** * Exact runs of a builder

    The loops of [execute_exact] and [execute_until] over the specification of one step: the accepted rows
    form one linked run from the builder's state, over the array the memory held, consuming the private
    input in order; and the reasons for which a loop stops early. *)
From S2P Require Import Prelude IsaTypes Metadata Decode Alignment Address Commitment Merkle Image Logs.
From S2P Require Import Mbc3 Timer Apu Device Halt State Bus Execute Transition Access StepLogic StepTrace.
From S2P Require Import Step Effects Runs Trace Builder Serve Budget BuilderStep.

Definition rows_events (rows : list TraceRow) : list BusEvent := rows ≫= λ r, se_bus_events (row_effects r).

Lemma array_run_app l : ∀ mem mid l', array_run mem l = Some mid → array_run mem (l ++ l') = array_run mid l'.
Proof.
  induction l as [| [r | w] l IH]; intros mem mid l' Hl; cbn [array_run app] in *; [by injection Hl as -> | |];
    case_bool_decide; try done; by apply IH.
Qed.

(** Two consecutive slices are one. *)
Lemma take_take_next (l inputs1 inputs2 : list Z) i j :
  inputs1 = take (length inputs1) (drop (Z.to_nat i) l) → 0 <= i → j = i + Z.of_nat (length inputs1) →
  inputs2 = take (length inputs2) (drop (Z.to_nat j) l) →
  inputs1 ++ inputs2 = take (length inputs1 + length inputs2) (drop (Z.to_nat i) l).
Proof.
  intros H1 Hi -> H2. rewrite Z2Nat.inj_add, Nat2Z.id, <- drop_drop in H2 by lia.
  set (n1 := length inputs1) in *. set (n2 := length inputs2) in *. rewrite H1, H2. by rewrite take_take_drop.
Qed.

Section run.
Context `{Sha256}.

Lemma log_append_all_count vs : ∀ a b, log_append_all a vs = Ok b → 0 <= log_next_index a →
  log_next_index b = log_next_index a + Z.of_nat (length vs).
Proof.
  induction vs as [| v vs IH]; cbn [log_append_all]; intros a b E Ha; [injection E as ->; cbn; lia |].
  apply bind_ok in E as (c & Hc & E). unfold log_append in Hc. apply bind_ok in Hc as (n & Hn & [= <-]).
  unfold checked_add_u64 in Hn. destruct (log_next_index a + 1 <? 18446744073709551616); [| done]. injection Hn as <-.
  apply IH in E; cbn [log_next_index] in *; [cbn [length]; lia | lia].
Qed.

Context {B E} {builder : Builder B E} {authentication} `{!BuilderLaws builder authentication}.

(** What the private input's bytes have become. *)
Record consumed (b b' : B) (inputs : list Z) : Prop := {
  co_next : let index := Z.to_nat (log_next_index (input_log (b_state b))) in
    inputs = take (length inputs) (drop index (b_input b));
  co_log : log_append_all (input_log (b_state b)) inputs = Ok (input_log (b_state b'));
  co_index : log_next_index (input_log (b_state b')) = log_next_index (input_log (b_state b)) + Z.of_nat (length inputs)
}.

(** A run of accepted rows. *)
Record run_done (b : B) (mem : list Z) (rows : list TraceRow) (b' : B) (mem' : list Z) : Prop := {
  rd_accepted : Forall (accepted authentication) rows;
  rd_linked : linked rows;
  rd_head r : head rows = Some r → row_before r = b_state b;
  rd_last : b_state b' = default (b_state b) (row_after <$> last rows);
  rd_ok : bl_ok b' mem';
  rd_input : b_input b' = b_input b;
  rd_server : bl_server b' = bl_server b;
  rd_memory : array_run mem (omap memory_access_of (rows_events rows)) = Some mem';
  rd_consumed : consumed b b' (omap input_of (rows_events rows))
}.

Lemma run_done_nil b mem : bl_ok b mem → run_done b mem [] b mem.
Proof. intros Hb. split; try done. split; [done | done | cbn; lia]. Qed.

Lemma step_consumed b mem b' row mem' : bl_ok b mem → step_done b mem b' row mem' →
  consumed b b' (omap input_of (se_bus_events (row_effects row))).
Proof.
  intros Hb [Ha Hbef Haft _ _ _ _ Hc]. destruct Ha as (input & Hin & Ea). rewrite Hbef in Ea.
  pose proof (apply_spec _ input authentication (bl_vm b mem Hb) Hin) as Hs. rewrite Ea in Hs.
  pose proof (st_input_log _ _ _ _ _ Hs) as Hlog. rewrite Haft in Hlog. split; [done | done |].
  apply log_append_all_count; [done |]. apply (ok_input_index _ (bl_vm b mem Hb)).
Qed.

Lemma run_done_cons b mem b1 row mem1 rows b' mem' :
  bl_ok b mem → step_done b mem b1 row mem1 → run_done b1 mem1 rows b' mem' → run_done b mem (row :: rows) b' mem'.
Proof.
  intros Hb Hs Hr. pose proof (step_consumed _ _ _ _ _ Hb Hs) as [Hn1 Hl1 Hi1].
  pose proof (ok_input_index _ (bl_vm b mem Hb)) as [Hnn _].
  destruct Hs as [Ha Hbef Haft Hok Hin Hsv Hmem _], Hr as [Ha' Hl Hh Hlast Hok' Hin' Hsv' Hmem' [Hn2 Hl2 Hi2]].
  assert (Ev : rows_events (row :: rows) = se_bus_events (row_effects row) ++ rows_events rows) by done.
  split; rewrite ?Ev, ?omap_app.
  - by constructor.
  - destruct rows as [| r rows]; [done |]. split; [by rewrite Haft, (Hh r eq_refl) | done].
  - by intros r [= <-].
  - rewrite last_cons, Hlast. destruct (last rows); [done |]. by cbn.
  - done.
  - congruence.
  - congruence.
  - by erewrite array_run_app.
  - split; rewrite ?length_app.
    + cbv zeta in *. rewrite <- Hin in Hn1 |- *. by eapply take_take_next.
    + by eapply log_append_all_app.
    + rewrite Hi2, Hi1. lia.
Qed.

(** ** The loops *)

(** The rows handed to the caller's consumer, in order. *)
Fixpoint fold_rows {C} (accept : C → TraceRow → result E C) (c : C) (rows : list TraceRow) : result E C :=
  match rows with [] => Ok c | r :: rows => c ← accept c r; fold_rows accept c rows end.

(** Why an iteration fails: the state takes no exact row, the step fails, the metrics overflow, or the
    consumer refuses the row. *)
Inductive exact_failure {C} (accept : C → TraceRow → result E C) (completed requested : Z) (b : B)
    (metrics : ExecutionMetrics) (c : C) : E → Prop :=
| exact_terminated : b_exact_row b = false →
    exact_failure accept completed requested b metrics c (e_terminated completed requested (run_state (cpu (b_state b))))
| exact_step_failed e : b_exact_row b = true → step_failure b e →
    exact_failure accept completed requested b metrics c (e_exact_step_failed completed (pc (cpu (b_state b))) e)
| exact_metrics b' row e : step b = Ok (b', row) → metrics_record metrics row = Err e →
    exact_failure accept completed requested b metrics c (e_trace e)
| exact_refused b' row e : step b = Ok (b', row) → accept c row = Err e →
    exact_failure accept completed requested b metrics c e.

(** A run together with what was recorded of its rows. *)
Record loop_done {C} (accept : C → TraceRow → result E C) (b : B) (mem : list Z) (metrics : ExecutionMetrics) (c : C)
    (rows : list TraceRow) (b' : B) (mem' : list Z) (metrics' : ExecutionMetrics) (c' : C) : Prop := {
  ld_run : run_done b mem rows b' mem';
  ld_metrics : record_rows metrics rows = Ok metrics';
  ld_accept : fold_rows accept c rows = Ok c'
}.

Section loop.
Context {C} (accept : C → TraceRow → result E C).

Lemma loop_done_nil b mem metrics c : bl_ok b mem → loop_done accept b mem metrics c [] b mem metrics c.
Proof. intros Hb. split; [by apply run_done_nil | done | done]. Qed.

Lemma exact_iteration_spec completed requested b mem metrics c : bl_ok b mem →
  match exact_iteration accept completed requested b metrics c with
  | Ok (b', metrics', c') =>
      ∃ row mem', step_done b mem b' row mem' ∧ metrics_record metrics row = Ok metrics' ∧ accept c row = Ok c'
  | Err e => exact_failure accept completed requested b metrics c e
  end.
Proof.
  intros Hb. unfold exact_iteration, require_exact_row. destruct (b_exact_row b) eqn:Ex.
  2: { rewrite bind_of_err. by constructor. }
  rewrite bind_of_ok. cbv zeta. pose proof (step_done_or_failed b mem Hb) as Hs.
  destruct (step b) as [[b' row] | e] eqn:Es; [rewrite map_err_ok, bind_of_ok | rewrite map_err_err, bind_of_err; by constructor].
  destruct Hs as [mem' Hs]. destruct (metrics_record metrics row) as [m' | e] eqn:Em;
    [rewrite map_err_ok, bind_of_ok | rewrite map_err_err, bind_of_err; by eapply exact_metrics].
  destruct (accept c row) as [c' | e] eqn:Ec; [rewrite bind_of_ok; eauto | rewrite bind_of_err; by eapply exact_refused].
Qed.

Lemma loop_done_cons b mem metrics c b1 row mem1 metrics1 c1 rows b' mem' metrics' c' : bl_ok b mem →
  step_done b mem b1 row mem1 → metrics_record metrics row = Ok metrics1 → accept c row = Ok c1 →
  loop_done accept b1 mem1 metrics1 c1 rows b' mem' metrics' c' →
  loop_done accept b mem metrics c (row :: rows) b' mem' metrics' c'.
Proof.
  intros Hb Hs Hm Hc [Hr Hms Hcs]. split; [by eapply run_done_cons | |].
  - cbn [record_rows]. by rewrite Hm, bind_of_ok.
  - cbn [fold_rows]. by rewrite Hc, bind_of_ok.
Qed.

Lemma exact_loop_spec requested n : ∀ completed b mem metrics c, bl_ok b mem →
  match exact_loop accept n completed requested b metrics c with
  | Ok (b', metrics', c') =>
      ∃ rows mem', length rows = n ∧ loop_done accept b mem metrics c rows b' mem' metrics' c'
  | Err e =>
      ∃ rows b' mem' metrics' c', (length rows < n)%nat ∧ loop_done accept b mem metrics c rows b' mem' metrics' c' ∧
        exact_failure accept (completed + Z.of_nat (length rows)) requested b' metrics' c' e
  end.
Proof.
  induction n as [| n IH]; intros completed b mem metrics c Hb; cbn [exact_loop].
  { exists [], mem. split; [done | by apply loop_done_nil]. }
  pose proof (exact_iteration_spec completed requested b mem metrics c Hb) as Hi.
  destruct (exact_iteration _ _ _ _ _ _) as [[[b1 m1] c1] | e]; [rewrite bind_of_ok | rewrite bind_of_err].
  - destruct Hi as (row & mem1 & Hs & Hm & Hc). pose proof (IH (completed + 1) b1 mem1 m1 c1 (sd_ok _ _ _ _ _ Hs)) as Hl.
    destruct (exact_loop accept n _ _ _ _ _) as [[[b' m'] c'] | e].
    + destruct Hl as (rows & mem' & <- & Hl). exists (row :: rows), mem'. split; [done | by eapply loop_done_cons].
    + destruct Hl as (rows & b' & mem' & m' & c' & Hn & Hl & Hf). exists (row :: rows), b', mem', m', c'.
      split; [cbn; lia |]. split; [by eapply loop_done_cons |]. cbn [length]. by rewrite Nat2Z.inj_succ, <- Z.add_1_l, Z.add_assoc.
  - exists [], b, mem, metrics, c. split; [cbn; lia |]. split; [by apply loop_done_nil |]. cbn. by rewrite Z.add_0_r.
Qed.

(** [execute_until] stops at the first row whose state is the milestone. *)
Lemma until_loop_spec reached requested n : ∀ completed b mem metrics c, bl_ok b mem →
  match until_loop reached accept n completed requested b metrics c with
  | Ok (b', metrics', c') =>
      ∃ rows row mem', (length rows < n)%nat ∧ loop_done accept b mem metrics c (rows ++ [row]) b' mem' metrics' c' ∧
        Forall (λ r, reached (row_after r) = false) rows ∧ reached (b_state b') = true
  | Err e =>
      ∃ rows b' mem' metrics' c', loop_done accept b mem metrics c rows b' mem' metrics' c' ∧
        Forall (λ r, reached (row_after r) = false) rows ∧
        ((length rows = n ∧ e = e_milestone requested) ∨
         (length rows < n)%nat ∧ exact_failure accept (completed + Z.of_nat (length rows)) requested b' metrics' c' e)
  end.
Proof.
  induction n as [| n IH]; intros completed b mem metrics c Hb; cbn [until_loop].
  { exists [], b, mem, metrics, c. split; [by apply loop_done_nil |]. split; [done | by left]. }
  pose proof (exact_iteration_spec completed requested b mem metrics c Hb) as Hi.
  destruct (exact_iteration _ _ _ _ _ _) as [[[b1 m1] c1] | e]; [rewrite bind_of_ok | rewrite bind_of_err].
  - destruct Hi as (row & mem1 & Hs & Hm & Hc). pose proof (sd_ok _ _ _ _ _ Hs) as Hb1.
    destruct (reached (b_state b1)) eqn:Er.
    { exists [], row, mem1. split; [cbn; lia |]. split; [| done]. eapply loop_done_cons; [done.. |]. by apply loop_done_nil. }
    rewrite <- (sd_after _ _ _ _ _ Hs) in Er. pose proof (IH (completed + 1) b1 mem1 m1 c1 Hb1) as Hl.
    destruct (until_loop _ _ n _ _ _ _ _) as [[[b' m'] c'] | e].
    + destruct Hl as (rows & r & mem' & Hn & Hl & Hrs & He). exists (row :: rows), r, mem'. split; [cbn; lia |].
      split; [by eapply loop_done_cons |]. split; [by constructor | done].
    + destruct Hl as (rows & b' & mem' & m' & c' & Hl & Hrs & Hf). exists (row :: rows), b', mem', m', c'.
      split; [by eapply loop_done_cons |]. split; [by constructor |]. cbn [length].
      rewrite Nat2Z.inj_succ, <- Z.add_1_l, Z.add_assoc. destruct Hf as [[<- ->] | [Hn Hf]]; [by left | right; split; [lia | done]].
  - exists [], b, mem, metrics, c. split; [by apply loop_done_nil |]. split; [done |]. right. split; [cbn; lia |]. cbn. by rewrite Z.add_0_r.
Qed.
End loop.

(** ** The input log *)

(** The input log commits to the consumed prefix of the private input. *)
Definition committed (b : B) : Prop :=
  log_commit LogKind.Input (take (Z.to_nat (log_next_index (input_log (b_state b)))) (b_input b)) =
    Ok (input_log (b_state b)) ∧ log_next_index (input_log (b_state b)) <= Z.of_nat (length (b_input b)).

Lemma consumed_committed b b' inputs : committed b → b_input b' = b_input b → 0 <= log_next_index (input_log (b_state b)) →
  consumed b b' inputs → committed b'.
Proof.
  intros [Hc Hle] Hin Hi0 [Hn Hl Hi]. cbv zeta in Hn. unfold committed. rewrite Hin, Hi.
  set (index := log_next_index _) in *. assert (Hlen : (length inputs <= length (drop (Z.to_nat index) (b_input b)))%nat).
  { rewrite Hn, length_take. lia. }
  rewrite length_drop in Hlen. split; [| lia]. rewrite Z2Nat.inj_add, Nat2Z.id by lia.
  unfold log_commit in *. rewrite <- take_take_drop, <- Hn. by eapply log_append_all_app.
Qed.
End run.
