(* ===== verification/Prover.v ===== *)
(** * What the witness builders promise

    The builders run the machine without being told its witnesses. A step of either is decided: it is a row
    that the step relation accepts, or it is an error of the machine or of the private input. A run of exactly
    n steps is a witness of n linked rows; the boundary of the same run is obtained without keeping the rows;
    a run to a milestone stops at its first occurrence; a complete run consumes its whole input; and a
    builder resumed from its own checkpoint is the builder that was stopped. *)
From S2P Require Import Prelude IsaTypes Metadata Decode Alignment Address Commitment Merkle Image Logs.
From S2P Require Import Mbc3 Timer Apu Device Halt State Bus Execute Transition Access StepLogic StepTrace.
From S2P Require Import Step Effects Runs Trace Builder Serve Budget BuilderStep Builders BuilderRun.

#[local] Opaque MEMORY_DEPTH.

(** Linked rows are one chunk and one witness. *)
Lemma count_single c : chunk_len c < 18446744073709551616 → count_steps 0 [c] = Ok (chunk_len c).
Proof.
  intros Hc. unfold count_steps, checked_add_u64. rewrite Z.add_0_l. by rewrite (proj2 (Z.ltb_lt _ _) Hc).
Qed.
Lemma witness_new_single c s0 s1 : chunk_initial_state c = Ok s0 → chunk_final_state c = Ok s1 →
  chunk_len c < 18446744073709551616 → witness_new [c] = Ok (MkWitness [c] s0 s1 (chunk_len c)).
Proof.
  intros H0 H1 Hc. unfold witness_new. cbn [head last ok_or check_chunks]. rewrite !bind_of_ok.
  by rewrite (count_single c Hc), bind_of_ok, H0, bind_of_ok, H1, bind_of_ok.
Qed.
Lemma from_rows_linked rows r rest : rows = r :: rest → linked rows → Z.of_nat (length rows) < 18446744073709551616 →
  from_rows rows = Ok (MkWitness [MkChunk rows] (row_before r) (default (row_before r) (row_after <$> last rows))
    (Z.of_nat (length rows))).
Proof.
  intros E Hl Hn. assert (Hc : chunk_new rows = Ok (MkChunk rows)).
  { unfold chunk_new. rewrite E at 1. rewrite (proj2 (check_rows_linked _ 0) Hl). done. }
  unfold from_rows. rewrite Hc, bind_of_ok. apply (witness_new_single (MkChunk rows)); [by rewrite E | | exact Hn].
  unfold chunk_final_state. cbn [chunk_rows]. rewrite E, last_cons. by destruct (last rest).
Qed.

Section generic.
Context `{Sha256}.
Context {B E} {builder : Builder B E} {authentication} `{!BuilderLaws builder authentication}.

Lemma relation_steps_counted m rows : counts_rows metrics_default m rows → relation_steps m = Z.of_nat (length rows).
Proof.
  unfold counts_rows, metric_meaning. intros Hc. apply Forall_cons in Hc as [-> _]. cbn [relation_steps metrics_default].
  rewrite Z.add_0_l. induction rows as [| r rows IH]; [done |].
  change (zsum ?f (r :: rows)) with (f r + zsum f rows). rewrite IH. cbn [length].
  assert (zsum (λ _, 0) (se_bus_events (row_effects r)) = 0) as ->; [| lia].
  clear. induction (se_bus_events (row_effects r)) as [| e l IH]; [done |]. exact IH.
Qed.

Lemma fold_push_rows rows : ∀ rows0, fold_rows push_row rows0 rows = Ok (E := E) (rows0 ++ rows).
Proof.
  induction rows as [| r rows IH]; intros rows0; cbn [fold_rows]; [by rewrite app_nil_r |].
  change (fold_rows push_row (rows0 ++ [r]) rows = Ok (E := E) (rows0 ++ r :: rows)). by rewrite IH, <- app_assoc.
Qed.

(** The consumers of the two exact runs do not change what the run does. *)
Lemma exact_iteration_rows completed requested b metrics rows0 :
  match exact_iteration push_row completed requested b metrics rows0,
        exact_iteration drop_row completed requested b metrics () with
  | Ok (b1, m1, _), Ok (b2, m2, _) => b1 = b2 ∧ m1 = m2
  | Err e1, Err e2 => e1 = e2
  | _, _ => False
  end.
Proof.
  unfold exact_iteration. destruct (require_exact_row b completed requested); [rewrite !bind_of_ok | done].
  cbv zeta. destruct (step b) as [[b1 row] | e]; [rewrite map_err_ok, !bind_of_ok | done].
  by destruct (metrics_record metrics row).
Qed.
Lemma exact_loop_rows requested n : ∀ completed b metrics rows0,
  match exact_loop push_row n completed requested b metrics rows0,
        exact_loop drop_row n completed requested b metrics () with
  | Ok (b1, m1, _), Ok (b2, m2, _) => b1 = b2 ∧ m1 = m2
  | Err e1, Err e2 => e1 = e2
  | _, _ => False
  end.
Proof.
  induction n as [| n IH]; intros completed b metrics rows0; cbn [exact_loop]; [done |].
  pose proof (exact_iteration_rows completed requested b metrics rows0) as Hi.
  destruct (exact_iteration push_row _ _ _ _ _) as [[[b1 m1] rows1] | e1],
    (exact_iteration drop_row _ _ _ _ _) as [[[b2 m2] []] | e2]; try done.
  destruct Hi as [<- <-]. rewrite !bind_of_ok. cbv beta iota. apply IH.
Qed.

(** The exact run, with the rows it hands over. *)
Lemma run_exact_steps_spec n b mem : bl_ok b mem → 0 <= n < 18446744073709551616 →
  match run_exact_steps n b with
  | Ok (b', w) => ∃ rows mem' metrics r, head rows = Some r ∧ Z.of_nat (length rows) = n ∧
      w = MkWitness [MkChunk rows] (b_state b) (b_state b') n ∧ run_done b mem rows b' mem' ∧
      record_rows metrics_default rows = Ok metrics ∧
      run_exact_boundary n b = Ok (b', from_exact (b_state b) (b_state b') metrics)
  | Err e => run_exact_boundary n b = Err e ∧
      ((n = 0 ∧ e = e_zero_step_chunk) ∨
       ∃ rows b' mem' metrics c, Z.of_nat (length rows) < n ∧ run_done b mem rows b' mem' ∧
         exact_failure push_row (Z.of_nat (length rows)) n b' metrics c e)
  end.
Proof.
  intros Hb [Hn0 Hn]. unfold run_exact_steps, run_exact_boundary, execute_exact.
  destruct (Z.eqb_spec n 0) as [-> | Hne]; [rewrite !bind_of_err; auto |].
  pose proof (exact_loop_spec push_row n (Z.to_nat n) 0 b mem metrics_default [] Hb) as Hl.
  pose proof (exact_loop_rows n (Z.to_nat n) 0 b metrics_default []) as Heq.
  destruct (exact_loop push_row _ _ _ _ _ _) as [[[b' m'] rows'] | e],
    (exact_loop drop_row _ _ _ _ _ _) as [[[b2 m2] []] | e2]; try done; [| subst e2].
  - destruct Heq as [<- <-].
    cbn [mbind result_bind].
    destruct Hl as (rows & mem' & Hlen & [Hr Hm Ha]). rewrite fold_push_rows in Ha. injection Ha as <-.
    destruct rows as [| r rest] eqn:Er; [cbn in Hlen; lia |]. rewrite <- Er in *.
    rewrite (from_rows_linked rows r rest Er (rd_linked _ _ _ _ _ Hr)) by lia. rewrite map_err_ok, bind_of_ok.
    exists rows, mem', m', r. split; [by rewrite Er |]. split; [lia |]. split; [| done].
    pose proof (rd_head _ _ _ _ _ Hr r ltac:(by rewrite Er)) as Hh. rewrite (rd_last _ _ _ _ _ Hr).
    rewrite Hh. f_equal. lia.
  - rewrite !bind_of_err. split; [done |]. right. destruct Hl as (rows & b' & mem' & m' & c' & Hlen & [Hr _ _] & Hf).
    exists rows, b', mem', m', c'. split; [lia | done].
Qed.

(** An accepted row came through [b_accept]. *)
Lemma step_accepted b b' row : step b = Ok (b', row) → ∃ after eff, b_accept b after eff = Ok b'.
Proof.
  unfold step. generalize MAX_WITNESSES_PER_STEP, (@nil PlannedWitness).
  induction n as [| n IH]; intros plan; cbn [step_loop]; intros (input & _ & Hs)%bind_ok; revert Hs;
    destruct (b_relation _ _) as [[after eff] | e]; try (intros (b1 & Ha & [= <- _])%bind_ok; eauto);
    destruct e; try done. intros (p & _ & Hs)%bind_ok. by eapply IH.
Qed.

(** What acceptance leaves alone, an exact run leaves alone. *)
Lemma exact_loop_keeps {A C} (f : B → A) (accept : C → TraceRow → result E C) requested n :
  (∀ b after eff b', b_accept b after eff = Ok b' → f b' = f b) →
  ∀ completed b metrics c b' metrics' c',
    exact_loop accept n completed requested b metrics c = Ok (b', metrics', c') → f b' = f b.
Proof.
  intros Hf. induction n as [| n IH]; intros completed b metrics c b' metrics' c'; cbn [exact_loop]; [by intros [= -> _ _] |].
  intros ([[b1 m1] c1] & Hi & ->%IH)%bind_ok. unfold exact_iteration in Hi. apply bind_ok in Hi as (_ & _ & Hi).
  apply bind_ok in Hi as ([b2 row] & Hs & (m & _ & (c2 & _ & [= -> _ _])%bind_ok)%bind_ok).
  destruct (step b) as [[b3 row3] | e] eqn:Es; [| done]. injection Hs as -> ->.
  apply step_accepted in Es as (after & eff & Ha). by eapply Hf.
Qed.
Lemma run_exact_steps_keeps {A} (f : B → A) n b b' w :
  (∀ b after eff b', b_accept b after eff = Ok b' → f b' = f b) → run_exact_steps n b = Ok (b', w) → f b' = f b.
Proof.
  intros Hf. unfold run_exact_steps, execute_exact. destruct (n =? 0); [done |].
  intros ([[b1 bd] rows] & Hl & (w1 & _ & [= -> _])%bind_ok)%bind_ok.
  apply bind_ok in Hl as ([[b2 m] c] & Hl & [= -> _ _]). by eapply exact_loop_keeps.
Qed.

(** C33. A run of exactly [n] steps, for either builder. When it succeeds it returns one witness with [n]
    linked rows accepted by the step relation, from the builder's state to the state of the builder it
    returns; these rows are a run over the array the memory held and consume the next bytes of the private
    input. When it fails, [n] is zero, or fewer than [n] rows were accepted and the failure is that of the
    next row, reported with the number of completed rows. *)
Theorem exact_run_is_witness n b mem : bl_ok b mem → 0 <= n < 2 ^ 64 →
  match run_exact_steps n b with
  | Ok (b', w) => ∃ rows mem', w = MkWitness [MkChunk rows] (b_state b) (b_state b') n ∧ 0 < n ∧
      Z.of_nat (length rows) = n ∧ run_done b mem rows b' mem'
  | Err e => (n = 0 ∧ e = e_zero_step_chunk) ∨
      ∃ rows b' mem' metrics c, Z.of_nat (length rows) < n ∧ run_done b mem rows b' mem' ∧
        exact_failure push_row (Z.of_nat (length rows)) n b' metrics c e
  end.
Proof.
  intros Hb Hn. change (2 ^ 64) with 18446744073709551616 in Hn. pose proof (run_exact_steps_spec n b mem Hb Hn) as Hs.
  destruct (run_exact_steps n b) as [[b' w] | e]; [| by destruct Hs].
  destruct Hs as (rows & mem' & metrics & r & Hr & Hlen & -> & Hrun & _). exists rows, mem'.
  split; [done |]. split; [| done]. destruct rows; [done |]. cbn in Hlen. lia.
Qed.

(** C34. The boundary of an exact run is the boundary of its witness. Running [n] steps without keeping the
    rows gives the same final builder as keeping them, the witness's initial and final states and step count,
    and metrics in which every one of the 23 counters counts the witness's rows; and the two runs fail on the
    same inputs with the same error. *)
Theorem boundary_agrees_with_witness n b mem : bl_ok b mem → 0 <= n < 2 ^ 64 →
  match run_exact_steps n b, run_exact_boundary n b with
  | Ok (b1, w), Ok (b2, boundary) => b1 = b2 ∧ bd_initial_state boundary = w_initial_state w ∧
      bd_final_state boundary = w_final_state w ∧ bd_step_count boundary = w_step_count w ∧
      counts_rows metrics_default (bd_metrics boundary) (witness_rows w)
  | Err e1, Err e2 => e1 = e2
  | _, _ => False
  end.
Proof.
  intros Hb Hn. change (2 ^ 64) with 18446744073709551616 in Hn. pose proof (run_exact_steps_spec n b mem Hb Hn) as Hs.
  destruct (run_exact_steps n b) as [[b' w] | e]; [| by destruct Hs as [-> _]].
  destruct Hs as (rows & mem' & metrics & r & Hr & Hlen & -> & Hrun & Hm & ->).
  pose proof (record_rows_counts _ _ _ Hm) as Hc. unfold witness_rows. cbn. rewrite app_nil_r.
  split; [done |]. split; [done |]. split; [done |]. split; [| done]. rewrite <- Hlen.
  by apply relation_steps_counted.
Qed.

(** A run to a milestone. When it succeeds, the milestone holds of the final state and of no state after
    an earlier row, the rows are a run of at most [step_bound] accepted rows, and the boundary counts them.
    When it fails, the bound is zero, or the bound was used up and the milestone held after none of its rows,
    or a row failed. *)
Theorem milestone_is_first step_bound reached b mem : bl_ok b mem → 0 <= step_bound →
  match run_until_boundary step_bound reached b with
  | Ok (b', boundary) => ∃ rows row mem', run_done b mem (rows ++ [row]) b' mem' ∧
      Z.of_nat (length (rows ++ [row])) <= step_bound ∧
      reached (b_state b') = true ∧ Forall (λ r, reached (row_after r) = false) rows ∧
      bd_step_count boundary = Z.of_nat (length (rows ++ [row])) ∧
      bd_initial_state boundary = b_state b ∧ bd_final_state boundary = b_state b'
  | Err e => (step_bound = 0 ∧ e = e_zero_step_chunk) ∨
      ∃ rows b' mem', run_done b mem rows b' mem' ∧ Forall (λ r, reached (row_after r) = false) rows ∧
        ((Z.of_nat (length rows) = step_bound ∧ e = e_milestone step_bound) ∨
         ∃ metrics, Z.of_nat (length rows) < step_bound ∧
           exact_failure drop_row (Z.of_nat (length rows)) step_bound b' metrics () e)
  end.
Proof.
  intros Hb Hn. unfold run_until_boundary, execute_until.
  destruct (Z.eqb_spec step_bound 0) as [-> | Hne]; [by left |].
  pose proof (until_loop_spec drop_row reached step_bound (Z.to_nat step_bound) 0 b mem metrics_default () Hb) as Hl.
  destruct (until_loop _ _ _ _ _ _ _ _) as [[[b' m'] []] | e]; cbn [mbind result_bind].
  - destruct Hl as (rows & row & mem' & Hlt & [Hr Hm _] & Hrs & Hreach). exists rows, row, mem'.
    split; [done |]. split; [rewrite length_app; cbn; lia |]. split; [done |]. split; [done |].
    split; [| done]. by apply relation_steps_counted, record_rows_counts.
  - right. destruct Hl as (rows & b' & mem' & m' & [] & [Hr _ _] & Hrs & Hf). exists rows, b', mem'.
    split; [done |]. split; [done |]. destruct Hf as [[Hlen ->] | [Hlt Hf]]; [left | right; exists m'];
      (split; [lia | done]).
Qed.
End generic.

(** ** [TraceBuilder] *)

Section trace_builder.
Context `{Sha256, !Sha256Digest}.

Lemma tb_step_rom (b b' : TraceBuilder) row : tb_step b = Ok (b', row) → tb_rom b' = tb_rom b ∧ tb_input b' = tb_input b.
Proof. intros (after & eff & Ha)%step_accepted. apply bind_ok in Ha as (m & _ & [= <-]). done. Qed.

(** A builder over a ROM of the profile's size and any memory. *)
Lemma builder_new_ok rom d mem input : (16 <= d <= 20)%nat → length rom = (2 ^ d)%nat → Forall (λ v, is_u8 v) rom →
  byte_length (rom_size (mbc3_cartridge_profile Profile.CleanCoreV1)) <= 2 ^ Z.of_nat d →
  table_ok mem → Forall (λ v, is_u8 v) input →
  tb_ok (builder_new (MkRom (tree_of Kind.Rom rom d)) (image_of mem) input) mem.
Proof.
  intros Hd Hl Hu8 Hlen Hm Hi. unfold builder_new.
  split; cbn [tb_memory tb_state tb_input tb_rom]; try done; [apply profile_initial_vm_ok |]. exists rom, d. done.
Qed.
Lemma builder_new_committed rom memory input : committed (builder_new rom memory input).
Proof. split; [done | cbn; lia]. Qed.

(** C31. Every step of [TraceBuilder] is decided. From an image that holds the array [mem], a ROM image of the
    profile's size and a well-formed state, the search for witnesses ends within its bound of five. It returns
    a row that the Merkle step relation accepts, together with the builder after it, whose image holds the
    array the row's accesses lead to, whose ROM and input are unchanged and which is again well-formed; or an
    error of the machine, or an input byte that the private input does not have. It never reports a missing
    witness, an unprovable address, a bound exceeded or a divergence of the image from the accepted effects. *)
Theorem trace_builder_step b mem : tb_ok b mem →
  match tb_step b with
  | Ok (b', row) => accepted Auth.Merkle row ∧ row_before row = tb_state b ∧ row_after row = tb_state b' ∧
      tb_rom b' = tb_rom b ∧ tb_input b' = tb_input b ∧
      ∃ mem', array_run mem (omap memory_access_of (se_bus_events (row_effects row))) = Some mem' ∧
        tb_memory b' = image_of mem' ∧ tb_ok b' mem'
  | Err e => (∃ e', machine_error e' = true ∧ e = TbErr.Step e') ∨
      (∃ index, Z.of_nat (length (tb_input b)) <= index ∧ e = TbErr.InputExhausted index) ∨
      (2 ^ 64 - 5 < log_next_index (input_log (tb_state b)) ∧ e = TbErr.InputIndexOverflow)
  end.
Proof.
  intros Hb. pose proof (step_done_or_failed (builder := trace_builder) b mem Hb) as Hs. fold tb_step in Hs.
  destruct (tb_step b) as [[b' row] | e] eqn:E.
  - destruct Hs as [mem' [Ha Hbef Haft Hok _ _ Hmem _]]. destruct (tb_step_rom _ _ _ E) as [-> ->].
    repeat (split; [done |]). exists mem'. split; [done |]. split; [apply (tb_memory_ok _ _ Hok) | done].
  - destruct Hs as [e He | index Hi _ | Hi]; [left; by eexists | right; left; by eexists | right; right].
    split; [exact Hi | done].
Qed.

(** A step that only fetches one opcode. *)
Lemma fetch_only_step rom memory s0 read role s eff :
  rom_read_mapped rom (rr_address read) (rr_physical_address read) = Ok read →
  apply s0 [] Auth.Merkle = Err (SErr.MissingWitness (Req.Rom (rr_address read) (rr_physical_address read) role)) →
  apply s0 [Wit.Rom read] Auth.Merkle = Ok (s, eff) → se_bus_events eff = [Ev.OpcodeFetch read] →
  memory_image_root memory = memory_root s →
  tb_step (MkBuilder rom memory [] s0) = Ok (MkBuilder rom memory [] s, MkRow s0 s eff).
Proof.
  intros Hrom Hm Ha He Hr. unfold tb_step, step, MAX_WITNESSES_PER_STEP. cbn [step_loop].
  set (b := MkBuilder rom memory [] s0).
  assert (Hrel : ∀ input, @b_relation _ _ trace_builder (@b_state _ _ trace_builder b) input = apply s0 input Auth.Merkle) by (intros; reflexivity).
  assert (Hnone : @b_materialize _ _ trace_builder b [] = Ok []) by reflexivity.
  assert (Hone : @b_materialize _ _ trace_builder b [Pw.Rom (rr_address read) (rr_physical_address read)] = Ok [Wit.Rom read]).
  { cbn [b_materialize trace_builder]. unfold materialize. cbn [requires_memory_fork materialize_loop].
    cbn [tb_rom b]. by rewrite Hrom. }
  rewrite Hnone, bind_of_ok, Hrel, Hm. cbn [plan_witness]. rewrite bind_of_ok. cbn [app].
  rewrite Hone, bind_of_ok, Hrel, Ha. cbn [b_accept trace_builder]. unfold apply_image_effects.
  rewrite He. cbn [apply_image_events]. rewrite bind_of_ok. cbn [tb_memory b].
  by rewrite bool_decide_eq_true_2.
Qed.

(** Runs of one row. *)
Definition one_row (row : TraceRow) : Witness := MkWitness [MkChunk [row]] (row_before row) (row_after row) 1.
Lemma exact_run_one b b' row : tb_step b = Ok (b', row) → can_execute_instruction (run_state (cpu (tb_state b))) = true →
  is_ok (metrics_record metrics_default row) = true → run_exact_steps 1 b = Ok (b', one_row row).
Proof.
  intros Hs Hx Hm. unfold run_exact_steps, execute_exact. change (1 =? 0) with false. cbv iota.
  change (Z.to_nat 1) with 1%nat. cbn [exact_loop]. unfold exact_iteration, require_exact_row. unfold tb_step in Hs.
  cbn [b_exact_row trace_builder]. rewrite Hx. cbn [orb]. rewrite bind_of_ok. cbv zeta. rewrite Hs, map_err_ok, bind_of_ok.
  destruct (metrics_record metrics_default row) as [m |]; [| done]. rewrite map_err_ok. cbn [mbind result_bind push_row app].
  rewrite (from_rows_linked [row] row [] eq_refl I) by (cbn; lia). reflexivity.
Qed.
Lemma run_one b b' row : tb_step b = Ok (b', row) → can_execute_instruction (run_state (cpu (tb_state b))) = true →
  run_state (cpu (tb_state b')) ≠ Run.Running →
  log_next_index (input_log (tb_state b')) = Z.of_nat (length (tb_input b')) →
  builder_run 1 b = Ok (one_row row).
Proof.
  intros Hs Hx Hr Hi. unfold builder_run. change (Z.to_nat 1) with 1%nat. cbn [run_loop].
  rewrite Hx. cbn [negb]. rewrite Hs. cbn [mbind result_bind app]. rewrite bool_decide_eq_false_2 by done.
  rewrite Hi, Z.eqb_refl. cbn [negb].
  rewrite (from_rows_linked [row] row [] eq_refl I) by (cbn; lia). reflexivity.
Qed.

Lemma run_done_image b mem rows b' mem' : run_done b mem rows b' mem' → tb_ok b' mem' ∧ tb_input b' = tb_input b.
Proof. intros Hr. split; [apply (rd_ok _ _ _ _ _ Hr) | apply (rd_input _ _ _ _ _ Hr)]. Qed.

(** C35. A stopped builder can be resumed. After an exact run of a builder whose input log commits to the
    consumed prefix of its input (as that of a fresh builder does), the checkpointed memory bytes are an image
    again, and resuming from it with the ROM, the input and the final state returns the builder that was
    stopped: none of the six checkpoint errors can occur, and every later run is the uninterrupted one. *)
Theorem resume_after_run n b mem b' w : tb_ok b mem → committed b → 0 <= n < 2 ^ 64 →
  run_exact_steps n b = Ok (b', w) → committed b' ∧
  ∃ image, from_checkpoint_bytes (tb_checkpoint_memory b') = Ok image ∧
    resume (tb_rom b) image (tb_input b) (tb_state b') = Ok b'.
Proof.
  intros Hb Hc Hn E. pose proof (run_exact_steps_spec n b mem Hb Hn) as Hs. rewrite E in Hs.
  assert (Hrom : tb_rom b' = tb_rom b).
  { eapply (run_exact_steps_keeps tb_rom); [| exact E]. by intros b0 after eff b1 (m & _ & [= <-])%bind_ok. }
  destruct Hs as (rows & mem' & metrics & r & _ & _ & _ & Hrun & _).
  destruct (run_done_image _ _ _ _ _ Hrun) as [Hb' Hi'].
  assert (Hc' : committed b').
  { eapply consumed_committed; [exact Hc | exact Hi' | apply (ok_input_index _ (tb_vm_ok _ _ Hb)) | apply (rd_consumed _ _ _ _ _ Hrun)]. }
  split; [exact Hc' |]. destruct Hb' as [Hm [Hml _] Hvm _ (rom & d & _ & _ & Er & _ & _ & Hroot) Hmr].
  exists (tb_memory b'). split.
  { unfold tb_checkpoint_memory. rewrite Hm. unfold from_checkpoint_bytes. cbn [checkpoint_bytes image_of memory_tree tree_of tree_bytes].
    rewrite (proj1 (memory_bytes_length mem') Hml). by apply memory_build_ok. }
  destruct Hc' as [Hc' Hle]. cbn [b_state b_input trace_builder] in *. rewrite Hi' in *. unfold resume.
  rewrite <- Hrom, Hroot, Hmr, !bool_decide_eq_true_2 by done. cbn [negb].
  rewrite (proj2 (Z.ltb_ge _ _)) by lia. rewrite Hc', map_err_ok, bind_of_ok, bool_decide_eq_true_2 by done.
  cbn [negb]. rewrite <- Hi'. by destruct b'.
Qed.

(** The rows of [run]. *)
Lemma run_loop_spec n : ∀ b mem rows0, tb_ok b mem →
  match run_loop n b rows0 with
  | Ok (b', rows) => ∃ new mem', rows = rows0 ++ new ∧ (length new <= n)%nat ∧ run_done b mem new b' mem' ∧
      ((length new < n)%nat → can_execute_instruction (run_state (cpu (tb_state b'))) = false)
  | Err e => ∃ b' mem', tb_ok b' mem' ∧ step_failure b' e
  end.
Proof.
  induction n as [| n IH]; intros b mem rows0 Hb; cbn [run_loop].
  { exists [], mem. split; [by rewrite app_nil_r |]. split; [done |]. split; [by apply run_done_nil | cbn; lia]. }
  destruct (can_execute_instruction _) eqn:Hx; cbn [negb].
  2: { exists [], mem. split; [by rewrite app_nil_r |]. split; [cbn; lia |]. split; [by apply run_done_nil | done]. }
  pose proof (step_done_or_failed (builder := trace_builder) b mem Hb) as Hs. fold tb_step in Hs.
  destruct (tb_step b) as [[b1 row] | e]; [rewrite bind_of_ok | rewrite bind_of_err; by exists b, mem].
  destruct Hs as [mem1 Hs]. pose proof (IH b1 mem1 (rows0 ++ [row]) (sd_ok _ _ _ _ _ Hs)) as Hl.
  cbv beta iota. destruct (run_loop n b1 _) as [[b' rows] | e]; [| done].
  destruct Hl as (new & mem' & -> & Hn & Hr & Hx'). exists (row :: new), mem'. rewrite <- app_assoc.
  split; [done |]. split; [cbn; lia |]. split; [by eapply run_done_cons |]. intros Hlt. apply Hx'. cbn in Hlt. lia.
Qed.

(** A complete run proves a halting execution of the whole input. When [run] returns a witness, its rows are
    a run of at most [step_bound] accepted rows from the builder's state to a state that is not Running, and
    that executes no instruction unless the bound was used up; and the bytes its rows consumed are all the bytes of the private input that the builder had
    not consumed before, in order. *)
Theorem complete_run_consumes_input step_bound b mem w : tb_ok b mem → 0 <= step_bound →
  builder_run step_bound b = Ok w →
  ∃ b' mem', run_done b mem (witness_rows w) b' mem' ∧ Z.of_nat (length (witness_rows w)) <= step_bound ∧
    w_initial_state w = tb_state b ∧ w_final_state w = tb_state b' ∧
    run_state (cpu (tb_state b')) ≠ Run.Running ∧
    (Z.of_nat (length (witness_rows w)) < step_bound → can_execute_instruction (run_state (cpu (tb_state b'))) = false) ∧
    omap input_of (rows_events (witness_rows w)) =
      drop (Z.to_nat (log_next_index (input_log (tb_state b)))) (tb_input b).
Proof.
  intros Hb Hn. unfold builder_run. pose proof (run_loop_spec (Z.to_nat step_bound) b mem [] Hb) as Hl.
  destruct (run_loop _ b []) as [[b' rows] | e]; [rewrite bind_of_ok; cbv beta iota | done].
  destruct Hl as (new & mem' & -> & Hlen & Hr & Hstop). cbn [app].
  case_bool_decide as Hrun; [done |]. destruct (Z.eqb_spec (log_next_index (input_log (tb_state b')))
    (Z.of_nat (length (tb_input b')))) as [Hall |]; cbn [negb]; [| done].
  intros E. destruct (from_rows new) as [w' | e'] eqn:Ew; [injection E as -> | done].
  apply bind_ok in Ew as (c & Hc & Ew). apply chunk_new_valid in Hc as [Hrows [Hne _]].
  assert (Hw : witness_rows w = new).
  { unfold witness_new in Ew. cbn [head last ok_or check_chunks] in Ew. rewrite !bind_of_ok in Ew.
    apply bind_ok in Ew as (k & _ & (s0 & _ & (s1 & _ & [= <-])%bind_ok)%bind_ok).
    unfold witness_rows. cbn. by rewrite app_nil_r. }
  exists b', mem'. rewrite Hw. split; [done |]. split; [lia |].
  destruct (run_done_image _ _ _ _ _ Hr) as [_ Hi]. rewrite Hi in Hall.
  destruct (rd_consumed _ _ _ _ _ Hr) as [Hnext _ Hidx]. cbn [b_state b_input trace_builder] in *.
  pose proof (ok_input_index _ (tb_vm_ok _ _ Hb)) as [Hi0 _].
  assert (Hends : w_initial_state w = tb_state b ∧ w_final_state w = tb_state b').
  { unfold witness_new in Ew. cbn [head last ok_or check_chunks] in Ew. rewrite !bind_of_ok in Ew.
    apply bind_ok in Ew as (k & _ & (s0 & Hs0 & (s1 & Hs1 & [= <-])%bind_ok)%bind_ok). cbn [w_initial_state w_final_state].
    unfold chunk_initial_state in Hs0. unfold chunk_final_state in Hs1. rewrite Hrows in *.
    pose proof (rd_last _ _ _ _ _ Hr) as Hlast. destruct (last new) as [x |] eqn:Ex; [| done].
    injection Hs1 as <-. cbn in Hlast. split; [| by rewrite Hlast].
    destruct new as [| r new]; [done |]. injection Hs0 as <-. by apply (rd_head _ _ _ _ _ Hr). }
  destruct Hends as [-> ->]. split; [done |]. split; [done |]. split; [done |].
  split; [intros Hlt; apply Hstop; lia |]. rewrite Hnext. apply take_ge. rewrite length_drop. lia.
Qed.
End trace_builder.

(** ** [LookupTraceBuilder] *)

Section lookup_builder.
Context `{Sha256}.

(** C32. Every step of [LookupTraceBuilder] is decided: over any table of bytes it returns a row that the
    lookup step relation accepts and the builder whose table is the array that the row's accesses lead to, or
    an error of the machine, or an input byte that the private input does not have. No hypothesis on the hash
    is needed: its witnesses carry no proofs. *)
Theorem lookup_builder_step b mem : ltb_ok b mem →
  match ltb_step b with
  | Ok (b', row) => accepted Auth.Lookup row ∧ row_before row = ltb_state b ∧ row_after row = ltb_state b' ∧
      ltb_rom b' = ltb_rom b ∧ ltb_input b' = ltb_input b ∧
      array_run (ltb_memory b) (omap memory_access_of (se_bus_events (row_effects row))) = Some (ltb_memory b') ∧
      ltb_ok b' (ltb_memory b')
  | Err e => (∃ e', machine_error e' = true ∧ e = LtbErr.Step e') ∨
      (∃ index, Z.of_nat (length (ltb_input b)) <= index ∧ e = LtbErr.InputExhausted index) ∨
      (2 ^ 64 - 5 < log_next_index (input_log (ltb_state b)) ∧ e = LtbErr.InputIndexOverflow)
  end.
Proof.
  intros Hb. pose proof (step_done_or_failed (builder := lookup_builder) b mem Hb) as Hs. fold ltb_step in Hs.
  destruct (ltb_step b) as [[b' row] | e] eqn:E.
  - destruct Hs as [mem' [Ha Hbef Haft Hok Hin _ Hmem _]].
    apply step_accepted in E as (after & eff & (m & _ & E)%bind_ok). injection E as <-.
    repeat (split; [done |]). pose proof (ltb_memory_ok _ _ Hb) as Em. pose proof (ltb_memory_ok _ _ Hok) as Em'.
    rewrite Em, Em'. split; done.
  - destruct Hs as [e He | index Hi _ | Hi]; [left; by eexists | right; left; by eexists | right; right].
    split; [exact Hi | done].
Qed.
End lookup_builder.

(** ** A builder in motion

    The 256 KiB ROM of HALT instructions, zeroed memory, and a machine whose VBlank interrupt is pending and
    enabled while IME is off: its HALT is the HALT bug. Hashes are constant, so the images' roots are too. *)
Section demo.
#[local] Existing Instance const_sha256.
#[local] Existing Instance const_sha256_length.
#[local] Existing Instance trace_builder_laws.

Definition halt_rom : list Z := replicate (Z.to_nat 262144) 0x76.
Definition halt_state : VmState :=
  let s := Vm.dmg_post_boot_mbc3_unchecked Profile.DmgPostBootMbc3Rom256KiBNoRtcV1 (replicate 32 0) (replicate 32 0) in
  s <| dmg_devices := Device.dmg_post_boot <| interrupt_enable := 1 |> |>.
Definition halt_builder : TraceBuilder :=
  MkBuilder (MkRom (tree_of Kind.Rom halt_rom 18)) (image_of zero_bytes) [] halt_state.
Definition halt_read : RomRead := MkRomRead 0x100 0x100 0x76 lookup_placeholder.

Lemma halt_rom_read : rom_read_mapped (tb_rom halt_builder) 0x100 0x100 = Ok halt_read.
Proof. reflexivity. Qed.
Lemma halt_rom_root : rom_image_root (tb_rom halt_builder) = replicate 32 0.
Proof. reflexivity. Qed.
Lemma halt_memory_root : memory_image_root (tb_memory halt_builder) = replicate 32 0.
Proof. reflexivity. Qed.

(** The step relation without and with the served witness, evaluated. *)
Lemma halt_missing : ∃ role, apply halt_state [] Auth.Merkle = Err (SErr.MissingWitness (Req.Rom 0x100 0x100 role)).
Proof. eexists. vm_compute. reflexivity. Qed.
Lemma halt_applied : ∃ s eff, apply halt_state [Wit.Rom halt_read] Auth.Merkle = Ok (s, eff) ∧
  se_bus_events eff = [Ev.OpcodeFetch halt_read] ∧ memory_root s = replicate 32 0 ∧
  run_state (cpu s) = Run.HaltBug ∧ log_next_index (input_log s) = 0 ∧
  is_ok (metrics_record metrics_default (MkRow halt_state s eff)) = true.
Proof. eexists _, _. split; [vm_compute; reflexivity |]. repeat split; vm_compute; reflexivity. Qed.

Lemma halt_step : ∃ s eff, let b' := MkBuilder (tb_rom halt_builder) (tb_memory halt_builder) [] s in
  tb_step halt_builder = Ok (b', MkRow halt_state s eff) ∧
  run_state (cpu s) = Run.HaltBug ∧ log_next_index (input_log s) = 0 ∧
  is_ok (metrics_record metrics_default (MkRow halt_state s eff)) = true.
Proof.
  destruct halt_missing as [role Hm], halt_applied as (s & eff & Ha & He & Hr & Hs). exists s, eff. cbv zeta.
  split; [| exact Hs]. refine (fetch_only_step (tb_rom halt_builder) (tb_memory halt_builder) halt_state halt_read role s eff
    halt_rom_read Hm Ha He _). rewrite Hr. apply halt_memory_root.
Qed.

Lemma halt_state_ok : vm_ok halt_state.
Proof.
  destruct (post_boot_vm_ok Profile.DmgPostBootMbc3Rom256KiBNoRtcV1 (replicate 32 0) (replicate 32 0)).
  split; [assumption | assumption | | assumption.. ].
  destruct device_post_boot_ok. by split; try assumption; cbn; lia.
Qed.
Lemma zero_table_ok : table_ok zero_bytes.
Proof. split; [exact zero_bytes_ok | apply Forall_replicate; lia]. Qed.
Lemma halt_rom_length : length halt_rom = (2 ^ 18)%nat.
Proof.
  unfold halt_rom. rewrite length_replicate. apply Nat2Z.inj. rewrite Z2Nat.id, Nat2Z.inj_pow by lia. reflexivity.
Qed.
Lemma halt_builder_ok : tb_ok halt_builder zero_bytes.
Proof.
  split; [done | apply zero_table_ok | apply halt_state_ok | constructor | | symmetry; apply halt_memory_root].
  exists halt_rom, 18%nat. split; [lia |]. split; [exact halt_rom_length |].
  split; [reflexivity |]. split; [apply Forall_replicate; lia |].
  split; [apply Z.leb_le; reflexivity | symmetry; apply halt_rom_root].
Qed.

Lemma trace_builder_step_witness : tb_ok halt_builder zero_bytes ∧
  match tb_step halt_builder with
  | Ok (b', row) => accepted Auth.Merkle row ∧ row_before row = tb_state halt_builder ∧ row_after row = tb_state b' ∧
      tb_rom b' = tb_rom halt_builder ∧ tb_input b' = tb_input halt_builder ∧
      ∃ mem', array_run zero_bytes (omap memory_access_of (se_bus_events (row_effects row))) = Some mem' ∧
        tb_memory b' = image_of mem' ∧ tb_ok b' mem'
  | Err e => (∃ e', machine_error e' = true ∧ e = TbErr.Step e') ∨
      (∃ index, Z.of_nat (length (tb_input halt_builder)) <= index ∧ e = TbErr.InputExhausted index) ∨
      (2 ^ 64 - 5 < log_next_index (input_log (tb_state halt_builder)) ∧ e = TbErr.InputIndexOverflow)
  end.
Proof. split; [exact halt_builder_ok | exact (trace_builder_step halt_builder zero_bytes halt_builder_ok)]. Defined.

Lemma one_bound : 0 <= 1 < 2 ^ 64.
Proof. split; [discriminate | reflexivity]. Qed.
Lemma exact_run_is_witness_witness : bl_ok halt_builder zero_bytes ∧
  match run_exact_steps 1 halt_builder with
  | Ok (b', w) => ∃ rows mem', w = MkWitness [MkChunk rows] (b_state halt_builder) (b_state b') 1 ∧ 0 < 1 ∧
      Z.of_nat (length rows) = 1 ∧ run_done halt_builder zero_bytes rows b' mem'
  | Err e => (1 = 0 ∧ e = e_zero_step_chunk) ∨
      ∃ rows b' mem' metrics c, Z.of_nat (length rows) < 1 ∧ run_done halt_builder zero_bytes rows b' mem' ∧
        exact_failure push_row (Z.of_nat (length rows)) 1 b' metrics c e
  end.
Proof.
  split; [exact halt_builder_ok |].
  exact (exact_run_is_witness 1 halt_builder zero_bytes halt_builder_ok one_bound).
Defined.

Lemma boundary_agrees_with_witness_witness :
  match run_exact_steps 1 halt_builder, run_exact_boundary 1 halt_builder with
  | Ok (b1, w), Ok (b2, boundary) => b1 = b2 ∧ bd_initial_state boundary = w_initial_state w ∧
      bd_final_state boundary = w_final_state w ∧ bd_step_count boundary = w_step_count w ∧
      counts_rows metrics_default (bd_metrics boundary) (witness_rows w)
  | Err e1, Err e2 => e1 = e2
  | _, _ => False
  end.
Proof. exact (boundary_agrees_with_witness 1 halt_builder zero_bytes halt_builder_ok one_bound). Defined.

Definition halt_bug_reached (s : VmState) : bool := bool_decide (run_state (cpu s) = Run.HaltBug).
Lemma milestone_is_first_witness :
  match run_until_boundary 2 halt_bug_reached halt_builder with
  | Ok (b', boundary) => ∃ rows row mem', run_done halt_builder zero_bytes (rows ++ [row]) b' mem' ∧
      Z.of_nat (length (rows ++ [row])) <= 2 ∧
      halt_bug_reached (b_state b') = true ∧ Forall (λ r, halt_bug_reached (row_after r) = false) rows ∧
      bd_step_count boundary = Z.of_nat (length (rows ++ [row])) ∧
      bd_initial_state boundary = b_state halt_builder ∧ bd_final_state boundary = b_state b'
  | Err e => (2 = 0 ∧ e = e_zero_step_chunk) ∨
      ∃ rows b' mem', run_done halt_builder zero_bytes rows b' mem' ∧
        Forall (λ r, halt_bug_reached (row_after r) = false) rows ∧
        ((Z.of_nat (length rows) = 2 ∧ e = e_milestone 2) ∨
         ∃ metrics, Z.of_nat (length rows) < 2 ∧
           exact_failure drop_row (Z.of_nat (length rows)) 2 b' metrics () e)
  end.
Proof. exact (milestone_is_first 2 halt_bug_reached halt_builder zero_bytes halt_builder_ok ltac:(lia)). Defined.

Lemma halt_committed : committed halt_builder.
Proof. split; [reflexivity | cbn; lia]. Qed.
Lemma halt_run : ∃ s row,
  run_exact_steps 1 halt_builder = Ok (MkBuilder (tb_rom halt_builder) (tb_memory halt_builder) [] s, one_row row) ∧
  builder_run 1 halt_builder = Ok (one_row row) ∧ row_after row = s ∧ run_state (cpu s) = Run.HaltBug.
Proof.
  destruct halt_step as (s & eff & Hs & Hr & Hi & Hm). exists s, (MkRow halt_state s eff).
  split; [by apply exact_run_one |]. split; [| by split]. eapply run_one; [exact Hs | reflexivity | |].
  - cbn [tb_state]. rewrite Hr. discriminate.
  - cbn [tb_state tb_input]. by rewrite Hi.
Qed.

Lemma resume_after_run_witness : ∃ b' w, run_exact_steps 1 halt_builder = Ok (b', w) ∧ committed b' ∧
  ∃ image, from_checkpoint_bytes (tb_checkpoint_memory b') = Ok image ∧
    resume (tb_rom halt_builder) image (tb_input halt_builder) (tb_state b') = Ok b'.
Proof.
  destruct halt_run as (s & row & E & _). eexists _, _. split; [exact E |].
  exact (resume_after_run 1 halt_builder zero_bytes _ _ halt_builder_ok halt_committed one_bound E).
Defined.

Lemma complete_run_consumes_input_witness : ∃ w, builder_run 1 halt_builder = Ok w ∧
  ∃ b' mem', run_done halt_builder zero_bytes (witness_rows w) b' mem' ∧ Z.of_nat (length (witness_rows w)) <= 1 ∧
    w_initial_state w = tb_state halt_builder ∧ w_final_state w = tb_state b' ∧
    run_state (cpu (tb_state b')) ≠ Run.Running ∧
    (Z.of_nat (length (witness_rows w)) < 1 → can_execute_instruction (run_state (cpu (tb_state b'))) = false) ∧
    omap input_of (rows_events (witness_rows w)) =
      drop (Z.to_nat (log_next_index (input_log (tb_state halt_builder)))) (tb_input halt_builder).
Proof.
  destruct halt_run as (s & row & _ & E & _). eexists. split; [exact E |].
  exact (complete_run_consumes_input 1 halt_builder zero_bytes _ halt_builder_ok ltac:(lia) E).
Defined.

(** [run] takes the bound for a halt when it falls on the HALT bug: the final state of the witness still
    executes instructions. *)
Theorem run_stops_in_halt_bug : ∃ b w, tb_ok b zero_bytes ∧ builder_run 1 b = Ok w ∧
  can_execute_instruction (run_state (cpu (w_final_state w))) = true.
Proof.
  destruct halt_run as (s & row & _ & E & Ha & Hr). exists halt_builder. eexists.
  split; [exact halt_builder_ok |]. split; [exact E |]. cbn [one_row w_final_state]. by rewrite Ha, Hr.
Qed.

(** A table of HALT instructions. *)
Definition halt_table : LookupTraceBuilder :=
  MkLookupBuilder (replicate (Z.to_nat ROM_BYTES) 0x76) zero_bytes [] halt_state.
Lemma halt_table_ok : ltb_ok halt_table zero_bytes.
Proof.
  split; [reflexivity | exact zero_table_ok | exact halt_state_ok | constructor |].
  unfold halt_table. cbn [ltb_rom]. split; [| apply Forall_replicate; lia].
  rewrite length_replicate, Z2Nat.id by (unfold ROM_BYTES; lia). reflexivity.
Qed.
Lemma lookup_builder_step_witness : ltb_ok halt_table zero_bytes ∧
  match ltb_step halt_table with
  | Ok (b', row) => accepted Auth.Lookup row ∧ row_before row = ltb_state halt_table ∧ row_after row = ltb_state b' ∧
      ltb_rom b' = ltb_rom halt_table ∧ ltb_input b' = ltb_input halt_table ∧
      array_run (ltb_memory halt_table) (omap memory_access_of (se_bus_events (row_effects row))) = Some (ltb_memory b') ∧
      ltb_ok b' (ltb_memory b')
  | Err e => (∃ e', machine_error e' = true ∧ e = LtbErr.Step e') ∨
      (∃ index, Z.of_nat (length (ltb_input halt_table)) <= index ∧ e = LtbErr.InputExhausted index) ∨
      (2 ^ 64 - 5 < log_next_index (input_log (ltb_state halt_table)) ∧ e = LtbErr.InputIndexOverflow)
  end.
Proof. split; [exact halt_table_ok | exact (lookup_builder_step halt_table zero_bytes halt_table_ok)]. Defined.
End demo.
