(* ===== verification/CudaField.v ===== *)
(** * Device field arithmetic (crates/zksm83-cuda/src/field.rs)

    The two-limb arithmetic that the fold kernel runs, modulo 2^128 - 0xffffa7f7: carries, borrows, the wide
    product and its two-fold Solinas reduction, and that each operation returns the canonical representative
    of the integer operation modulo the prime. *)
From S2P Require Import Prelude.

Definition W64 : Z := 18446744073709551616.
Definition REDUCTION_OFFSET : Z := 0xffffa7f7.

(** ** The integer primitives of the standard library *)

Definition wrapping_add (a b : Z) : Z := (a + b) mod W64.
Definition wrapping_sub (a b : Z) : Z := (a - b) mod W64.
Definition overflowing_add (a b : Z) : Z * bool := ((a + b) mod W64, W64 <=? a + b).
Definition overflowing_sub (a b : Z) : Z * bool := ((a - b) mod W64, a <? b).
(** [carrying_mul] and [carrying_mul_add] return the low and the high word. *)
Definition carrying_mul_add (a b carry add : Z) : Z * Z :=
  let wide := a * b + carry + add in (wide mod W64, wide / W64).
Definition carrying_mul (a b carry : Z) : Z * Z := carrying_mul_add a b carry 0.

Definition MODULUS_LOW : Z := wrapping_sub 0 REDUCTION_OFFSET.

(** ** Field elements *)

Record FieldElement := MkFe { fe_low : Z; fe_high : Z }.

Definition from_canonical_limbs (low high : Z) : option FieldElement :=
  if negb (high =? W64 - 1) || (low <? MODULUS_LOW) then Some (MkFe low high) else None.
Definition limbs (e : FieldElement) : list Z := [fe_low e; fe_high e].

Definition canonicalize_after_add (low high : Z) (overflow : bool) : FieldElement :=
  let '(reduced_low, carry_low) := overflowing_add low REDUCTION_OFFSET in
  let '(reduced_high, carry_high) := overflowing_add high (b2z carry_low) in
  if overflow || carry_high then MkFe reduced_low reduced_high else MkFe low high.

Definition subtract_reduction_offset (low high : Z) : FieldElement :=
  let '(reduced_low, borrow) := overflowing_sub low REDUCTION_OFFSET in
  MkFe reduced_low (wrapping_sub high (b2z borrow)).

Definition add_mod (a b : FieldElement) : FieldElement :=
  let '(low, carry_low) := overflowing_add (fe_low a) (fe_low b) in
  let '(high_without_carry, carry_high_a) := overflowing_add (fe_high a) (fe_high b) in
  let '(high, carry_high_b) := overflowing_add high_without_carry (b2z carry_low) in
  canonicalize_after_add low high (carry_high_a || carry_high_b).

Definition sub_mod (a b : FieldElement) : FieldElement :=
  let '(low, borrow_low) := overflowing_sub (fe_low a) (fe_low b) in
  let '(high_without_borrow, borrow_high_a) := overflowing_sub (fe_high a) (fe_high b) in
  let '(high, borrow_high_b) := overflowing_sub high_without_borrow (b2z borrow_low) in
  if borrow_high_a || borrow_high_b then subtract_reduction_offset low high else MkFe low high.

Definition multiply_wide (lhs rhs : FieldElement) : Z * Z * Z * Z :=
  let '(r0, carry0) := carrying_mul (fe_low lhs) (fe_low rhs) 0 in
  let '(r1_partial, carry1) := carrying_mul_add (fe_low lhs) (fe_high rhs) carry0 0 in
  let '(r1, carry2) := carrying_mul_add (fe_high lhs) (fe_low rhs) 0 r1_partial in
  let '(r2, r3) := carrying_mul_add (fe_high lhs) (fe_high rhs) carry1 carry2 in
  (r0, r1, r2, r3).

Definition multiply_offset_wide (value : Z) : Z * Z := carrying_mul REDUCTION_OFFSET value 0.

Definition fold_high_limb (t0 t1 t2 : Z) : FieldElement :=
  let '(offset_t2_low, offset_t2_high) := multiply_offset_wide t2 in
  let '(sum_low, carry_low) := overflowing_add t0 offset_t2_low in
  let '(sum_high_a, carry_high_a) := overflowing_add t1 offset_t2_high in
  let '(sum_high, carry_high_b) := overflowing_add sum_high_a (b2z carry_low) in
  canonicalize_after_add sum_low sum_high (carry_high_a || carry_high_b).

Definition reduce_wide (r0 r1 r2 r3 : Z) : FieldElement :=
  let '(offset_r2_low, offset_r2_high) := multiply_offset_wide r2 in
  let '(offset_r3_low, offset_r3_high) := multiply_offset_wide r3 in
  let '(t0, carry0) := overflowing_add r0 offset_r2_low in
  let '(t1_a, carry1_a) := overflowing_add r1 offset_r2_high in
  let '(t1_b, carry1_b) := overflowing_add t1_a offset_r3_low in
  let '(t1, carry1_c) := overflowing_add t1_b (b2z carry0) in
  let t2 := wrapping_add (wrapping_add (wrapping_add offset_r3_high (b2z carry1_a)) (b2z carry1_b)) (b2z carry1_c) in
  fold_high_limb t0 t1 t2.

Definition mul_mod (a b : FieldElement) : FieldElement :=
  let '(r0, r1, r2, r3) := multiply_wide a b in reduce_wide r0 r1 r2 r3.

(** [FieldElement::fold] *)
Definition fold_elements (low high challenge : FieldElement) : FieldElement :=
  add_mod low (mul_mod challenge (sub_mod high low)).

(** ** Specification *)

Definition P128 : Z := W64 * W64 - REDUCTION_OFFSET.
Definition fe_value (e : FieldElement) : Z := fe_low e + W64 * fe_high e.
Definition is_word (x : Z) : Prop := 0 <= x < W64.
Definition fe_limbs (e : FieldElement) : Prop := is_word (fe_low e) ∧ is_word (fe_high e).
Definition canonical (e : FieldElement) : Prop := fe_limbs e ∧ fe_value e < P128.

(** The element [e] is the canonical representative of the integer [v]. *)
Definition represents (e : FieldElement) (v : Z) : Prop := canonical e ∧ fe_value e = v mod P128.

(** ** The primitives as equations *)

Lemma overflowing_add_spec a b : is_word a → is_word b →
  let '(s, c) := overflowing_add a b in is_word s ∧ a + b = s + W64 * b2z c.
Proof.
  unfold is_word, overflowing_add, W64. intros. destruct (Z.leb_spec 18446744073709551616 (a + b)); cbn [b2z].
  - rewrite <- (Z.mod_unique (a + b) 18446744073709551616 1 (a + b - 18446744073709551616)) by lia. lia.
  - rewrite Z.mod_small by lia. lia.
Qed.
Lemma overflowing_sub_spec a b : is_word a → is_word b →
  let '(s, c) := overflowing_sub a b in is_word s ∧ a - b = s - W64 * b2z c.
Proof.
  unfold is_word, overflowing_sub, W64. intros. destruct (Z.ltb_spec a b); cbn [b2z].
  - rewrite <- (Z.mod_unique (a - b) 18446744073709551616 (-1) (a - b + 18446744073709551616)) by lia. lia.
  - rewrite Z.mod_small by lia. lia.
Qed.
Lemma carrying_mul_add_spec a b c d : is_word a → is_word b → is_word c → is_word d →
  let '(l, h) := carrying_mul_add a b c d in is_word l ∧ is_word h ∧ a * b + c + d = l + W64 * h.
Proof.
  unfold is_word, carrying_mul_add, W64. intros Ha Hb Hc Hd.
  pose proof (Z.mod_pos_bound (a * b + c + d) 18446744073709551616 ltac:(lia)).
  pose proof (Z.div_mod (a * b + c + d) 18446744073709551616 ltac:(lia)).
  assert (0 <= a * b <= 18446744073709551615 * 18446744073709551615) by nia.
  split; [done |]. split; [| lia]. split; [apply Z.div_pos; lia | apply Z.div_lt_upper_bound; lia].
Qed.
Lemma b2z_word b : is_word (b2z b).
Proof. destruct b; unfold is_word, W64; cbn; lia. Qed.
Lemma wrapping_add_small a b : 0 <= a + b < W64 → wrapping_add a b = a + b.
Proof. apply Z.mod_small. Qed.

(** Name the results of the primitive in the goal and state its equation. *)
Ltac primitive lem :=
  match type of lem with
  | let '(_, _) := ?t in _ => let H := fresh "Hp" in pose proof lem as H; destruct t as [? ?]; cbv beta iota in H
  end.

Ltac limbs_lia := unfold represents, canonical, fe_limbs, fe_value, is_word, P128, W64, REDUCTION_OFFSET in *; cbn [fe_low fe_high b2z orb] in *; lia.

Lemma reduced e v : canonical e → (∃ k, v = fe_value e + k * P128) → represents e v.
Proof.
  intros Hc [k ->]. split; [done |]. rewrite Z_mod_plus_full, Z.mod_small; [done |]. limbs_lia.
Qed.

Lemma canonicalize_spec low high overflow : is_word low → is_word high →
  low + W64 * high + W64 * W64 * b2z overflow < 2 * P128 →
  represents (canonicalize_after_add low high overflow) (low + W64 * high + W64 * W64 * b2z overflow).
Proof.
  intros Hl Hh Hv. unfold canonicalize_after_add.
  primitive (overflowing_add_spec low REDUCTION_OFFSET Hl ltac:(limbs_lia)). destruct Hp as [Hw1 E1].
  primitive (overflowing_add_spec high (b2z b) Hh (b2z_word b)). destruct Hp as [Hw2 E2].
  apply reduced.
  - destruct overflow, b, b0; limbs_lia.
  - destruct overflow, b, b0; (exists 0; limbs_lia) || (exists 1; limbs_lia).
Qed.

Lemma add_mod_spec a b : canonical a → canonical b → represents (add_mod a b) (fe_value a + fe_value b).
Proof.
  intros [[Hal Hah] Ha] [[Hbl Hbh] Hb]. unfold add_mod.
  primitive (overflowing_add_spec (fe_low a) (fe_low b) Hal Hbl). destruct Hp as [Hw1 E1].
  primitive (overflowing_add_spec (fe_high a) (fe_high b) Hah Hbh). destruct Hp as [Hw2 E2].
  primitive (overflowing_add_spec z0 (b2z b0) Hw2 (b2z_word b0)). destruct Hp as [Hw3 E3].
  assert (E : fe_value a + fe_value b = z + W64 * z1 + W64 * W64 * b2z (b1 || b2)).
  { destruct b0, b1, b2; limbs_lia. }
  rewrite E. apply canonicalize_spec; [done | done |]. rewrite <- E. limbs_lia.
Qed.

Lemma sub_mod_spec a b : canonical a → canonical b → represents (sub_mod a b) (fe_value a - fe_value b).
Proof.
  intros [[Hal Hah] Ha] [[Hbl Hbh] Hb]. unfold sub_mod.
  primitive (overflowing_sub_spec (fe_low a) (fe_low b) Hal Hbl). destruct Hp as [Hw1 E1].
  primitive (overflowing_sub_spec (fe_high a) (fe_high b) Hah Hbh). destruct Hp as [Hw2 E2].
  primitive (overflowing_sub_spec z0 (b2z b0) Hw2 (b2z_word b0)). destruct Hp as [Hw3 E3].
  assert (E : fe_value a - fe_value b = z + W64 * z1 - W64 * W64 * b2z (b1 || b2)).
  { destruct b0, b1, b2; limbs_lia. }
  rewrite E. destruct (b1 || b2) eqn:Hb12; cbn [b2z] in *.
  - unfold subtract_reduction_offset.
    primitive (overflowing_sub_spec z REDUCTION_OFFSET Hw1 ltac:(limbs_lia)). destruct Hp as [Hw4 E4].
    assert (E5 : wrapping_sub z1 (b2z b3) = z1 - b2z b3).
    { apply Z.mod_small. destruct b3; limbs_lia. }
    rewrite E5. apply reduced; [| exists (-1)]; destruct b3; limbs_lia.
  - apply reduced; [| exists 0]; limbs_lia.
Qed.

Lemma multiply_offset_spec v : is_word v →
  let '(l, h) := multiply_offset_wide v in is_word l ∧ 0 <= h <= REDUCTION_OFFSET ∧ REDUCTION_OFFSET * v = l + W64 * h.
Proof.
  intros Hv. unfold multiply_offset_wide, carrying_mul.
  primitive (carrying_mul_add_spec REDUCTION_OFFSET v 0 0 ltac:(limbs_lia) Hv ltac:(limbs_lia) ltac:(limbs_lia)).
  limbs_lia.
Qed.

Lemma multiply_wide_spec a b : fe_limbs a → fe_limbs b →
  let '(r0, r1, r2, r3) := multiply_wide a b in is_word r0 ∧ is_word r1 ∧ is_word r2 ∧ is_word r3 ∧
    fe_value a * fe_value b = r0 + W64 * r1 + W64 * W64 * (r2 + W64 * r3).
Proof.
  intros [Hal Hah] [Hbl Hbh]. unfold multiply_wide, carrying_mul. assert (H0 : is_word 0) by limbs_lia.
  primitive (carrying_mul_add_spec _ _ 0 0 Hal Hbl H0 H0). destruct Hp as (Hw1 & Hw2 & E1).
  primitive (carrying_mul_add_spec _ _ z0 0 Hal Hbh Hw2 H0). destruct Hp as (Hw3 & Hw4 & E2).
  primitive (carrying_mul_add_spec _ _ 0 z1 Hah Hbl H0 Hw3). destruct Hp as (Hw5 & Hw6 & E3).
  primitive (carrying_mul_add_spec _ _ z2 z4 Hah Hbh Hw4 Hw6). destruct Hp as (Hw7 & Hw8 & E4).
  repeat (split; [done |]). unfold fe_value.
  replace ((fe_low a + W64 * fe_high a) * (fe_low b + W64 * fe_high b)) with
    (fe_low a * fe_low b + W64 * (fe_low a * fe_high b + fe_high a * fe_low b) + W64 * W64 * (fe_high a * fe_high b)) by ring.
  limbs_lia.
Qed.

Lemma fold_high_spec t0 t1 t2 : is_word t0 → is_word t1 → 0 <= t2 <= REDUCTION_OFFSET + 3 →
  represents (fold_high_limb t0 t1 t2) (t0 + W64 * t1 + W64 * W64 * t2).
Proof.
  intros H0 H1 H2. unfold fold_high_limb.
  primitive (multiply_offset_spec t2 ltac:(limbs_lia)). destruct Hp as (Hw1 & Hw2 & E1).
  primitive (overflowing_add_spec t0 z H0 Hw1). destruct Hp as [Hw3 E3].
  primitive (overflowing_add_spec t1 z0 H1 ltac:(limbs_lia)). destruct Hp as [Hw4 E4].
  primitive (overflowing_add_spec z2 (b2z b) Hw4 (b2z_word b)). destruct Hp as [Hw5 E5].
  assert (E : t0 + W64 * t1 + W64 * W64 * t2 = z1 + W64 * z3 + W64 * W64 * b2z (b0 || b1) + t2 * P128).
  { destruct b, b0, b1; limbs_lia. }
  destruct (canonicalize_spec z1 z3 (b0 || b1) Hw3 Hw5) as [Hc Hv]; [destruct b, b0, b1; limbs_lia |].
  split; [done |]. by rewrite E, Z_mod_plus_full.
Qed.

Lemma reduce_wide_spec r0 r1 r2 r3 : is_word r0 → is_word r1 → is_word r2 → is_word r3 →
  represents (reduce_wide r0 r1 r2 r3) (r0 + W64 * r1 + W64 * W64 * (r2 + W64 * r3)).
Proof.
  intros H0 H1 H2 H3. unfold reduce_wide.
  primitive (multiply_offset_spec r2 H2). destruct Hp as (Hw1 & Hw2 & E1).
  primitive (multiply_offset_spec r3 H3). destruct Hp as (Hw3 & Hw4 & E2).
  primitive (overflowing_add_spec r0 z H0 Hw1). destruct Hp as [Hw5 E3].
  primitive (overflowing_add_spec r1 z0 H1 ltac:(limbs_lia)). destruct Hp as [Hw6 E4].
  primitive (overflowing_add_spec z4 z1 Hw6 Hw3). destruct Hp as [Hw7 E5].
  primitive (overflowing_add_spec z5 (b2z b) Hw7 (b2z_word b)). destruct Hp as [Hw8 E6].
  assert (Hsmall : 0 <= z2 + b2z b0 + b2z b1 + b2z b2 <= REDUCTION_OFFSET + 3) by (destruct b0, b1, b2; limbs_lia).
  rewrite (wrapping_add_small z2) by (destruct b0, b1, b2; limbs_lia).
  rewrite (wrapping_add_small (z2 + b2z b0)) by (destruct b0, b1, b2; limbs_lia).
  rewrite (wrapping_add_small (z2 + b2z b0 + b2z b1)) by (destruct b0, b1, b2; limbs_lia).
  destruct (fold_high_spec z3 z6 (z2 + b2z b0 + b2z b1 + b2z b2) Hw5 Hw8 Hsmall) as [Hc Hv]. split; [done |]. rewrite Hv.
  assert (E : r0 + W64 * r1 + W64 * W64 * (r2 + W64 * r3) =
    z3 + W64 * z6 + W64 * W64 * (z2 + b2z b0 + b2z b1 + b2z b2) + (r2 + W64 * r3) * P128).
  { destruct b, b0, b1, b2; limbs_lia. }
  by rewrite E, Z_mod_plus_full.
Qed.

Lemma mul_mod_spec a b : canonical a → canonical b → represents (mul_mod a b) (fe_value a * fe_value b).
Proof.
  intros [Ha _] [Hb _]. unfold mul_mod. pose proof (multiply_wide_spec a b Ha Hb) as Hm.
  destruct (multiply_wide a b) as [[[r0 r1] r2] r3]. destruct Hm as (H0 & H1 & H2 & H3 & ->). by apply reduce_wide_spec.
Qed.

Lemma from_canonical_limbs_spec low high : is_word low → is_word high →
  from_canonical_limbs low high = if low + W64 * high <? P128 then Some (MkFe low high) else None.
Proof.
  intros Hl Hh. unfold from_canonical_limbs, MODULUS_LOW, wrapping_sub.
  change ((0 - REDUCTION_OFFSET) mod W64) with (W64 - REDUCTION_OFFSET).
  destruct (Z.eqb_spec high (W64 - 1)), (Z.ltb_spec low (W64 - REDUCTION_OFFSET)), (Z.ltb_spec (low + W64 * high) P128);
    cbn [negb orb]; (reflexivity || limbs_lia).
Qed.

Lemma fold_elements_spec low high challenge : canonical low → canonical high → canonical challenge →
  represents (fold_elements low high challenge) (fe_value low + fe_value challenge * (fe_value high - fe_value low)).
Proof.
  intros Hl Hh Hc. destruct (sub_mod_spec high low Hh Hl) as [Hs Es].
  destruct (mul_mod_spec challenge _ Hc Hs) as [Hm Em]. destruct (add_mod_spec low _ Hl Hm) as [Ha Ea].
  split; [exact Ha |]. unfold fold_elements. rewrite Ea, Em, Es.
  rewrite Zplus_mod_idemp_r, <- Zplus_mod_idemp_r, Zmult_mod_idemp_r, Zplus_mod_idemp_r. done.
Qed.

(** C30. The device arithmetic is the prime field's. On canonical operands the two-limb addition, subtraction and
    multiplication, carries and Solinas reductions included, and the fold [low + challenge * (high - low)] built
    from them, return the canonical limbs of the integer result modulo 2^128 - 0xffffa7f7; a canonical element
    is determined by its value; and the limb constructor accepts exactly the canonical pairs. *)
Theorem device_field_exact a b c : canonical a → canonical b → canonical c →
  represents (add_mod a b) (fe_value a + fe_value b) ∧
  represents (sub_mod a b) (fe_value a - fe_value b) ∧
  represents (mul_mod a b) (fe_value a * fe_value b) ∧
  represents (fold_elements a b c) (fe_value a + fe_value c * (fe_value b - fe_value a)) ∧
  (∀ low high, is_word low → is_word high →
     from_canonical_limbs low high = if low + W64 * high <? P128 then Some (MkFe low high) else None) ∧
  (fe_value a = fe_value b → a = b).
Proof.
  intros Ha Hb Hc. split; [by apply add_mod_spec |]. split; [by apply sub_mod_spec |]. split; [by apply mul_mod_spec |].
  split; [by apply fold_elements_spec |]. split; [apply from_canonical_limbs_spec |].
  destruct Ha as [[Hal Hah] _], Hb as [[Hbl Hbh] _], a as [al ah], b as [bl bh]. intros E.
  assert (ah = bh ∧ al = bl) as [-> ->]; [| done]. limbs_lia.
Qed.

(** The largest element squared is one. *)
Definition maximum : FieldElement := MkFe (W64 - REDUCTION_OFFSET - 1) (W64 - 1).
Lemma maximum_canonical : canonical maximum.
Proof. unfold maximum. limbs_lia. Qed.
Lemma device_field_exact_witness : mul_mod maximum maximum = MkFe 1 0 ∧
  represents (mul_mod maximum maximum) (fe_value maximum * fe_value maximum).
Proof.
  split; [vm_compute; reflexivity |].
  apply (device_field_exact maximum maximum maximum maximum_canonical maximum_canonical maximum_canonical).
Defined.
