(* ===== verification/Field.v ===== *)
(** * The native field and interpolation

    The proof system computes in a prime field of a dependency. Here it is a type with the operations the code
    uses and the laws of a field; polynomials over it are their coefficient lists, a polynomial of fewer
    coefficients than roots is zero, and [evaluate_lagrange] (crates/zksm83-jolt/src/sumcheck.rs) is the
    interpolation through the points 0, 1, 2, ... The rationals are an instance. *)
From Stdlib Require Export Ring.
From Stdlib Require Import Field QArith Qcanon.
From S2P Require Import Prelude.

(** The operations of [NativeField] that the code calls. *)
Class FieldOps (F : Type) := {
  fadd : F → F → F;
  fsub : F → F → F;
  fmul : F → F → F;
  from_u64 : Z → F;
  inverse : F → option F
}.

Declare Scope field_scope.
Delimit Scope field_scope with F.
Infix "+" := fadd : field_scope.
Infix "-" := fsub : field_scope.
Infix "*" := fmul : field_scope.
Abbreviation f0 := (from_u64 0).
Abbreviation f1 := (from_u64 1).

(** It is a field in which the 64-bit integers are distinct. *)
Class FieldLaws (F : Type) `{!FieldOps F, !EqDecision F} := {
  fl_ring : ring_theory f0 f1 fadd fmul fsub (fsub f0) (=@{F});
  fl_inverse_none (x : F) : inverse x = None ↔ x = f0;
  fl_inverse_some (x y : F) : inverse x = Some y → fmul x y = f1;
  fl_from_add a b : 0 <= a → 0 <= b → a + b < 18446744073709551616 → from_u64 (a + b) = fadd (from_u64 a) (from_u64 b);
  fl_from_inj a b : 0 <= a < 18446744073709551616 → 0 <= b < 18446744073709551616 → from_u64 a = from_u64 b → a = b
}.

Section field.
Context {F : Type} `{FieldLaws F}.
Local Open Scope field_scope.
Add Ring field_ring : fl_ring.

Lemma fmul_zero (x y : F) : x * y = f0 → x = f0 ∨ y = f0.
Proof.
  intros E. destruct (inverse x) as [z |] eqn:Ez; [| left; by apply fl_inverse_none].
  right. apply fl_inverse_some in Ez. transitivity ((x * z) * y); [rewrite Ez; ring |].
  replace (x * z * y) with (z * (x * y)) by ring. rewrite E. ring.
Qed.
Lemma f1_neq_f0 : f1 ≠@{F} f0.
Proof. intros E. apply fl_from_inj in E; lia. Qed.
Lemma fsub_zero (x y : F) : x - y = f0 → x = y.
Proof. intros E. transitivity (x - y + y); [ring | rewrite E; ring]. Qed.
Lemma inverse_neq (x : F) : x ≠ f0 → ∃ y, inverse x = Some y ∧ x * y = f1.
Proof.
  intros Hx. destruct (inverse x) as [y |] eqn:E; [| by apply fl_inverse_none in E].
  exists y. split; [done | by apply fl_inverse_some].
Qed.
Lemma fmul_neq (x y : F) : x ≠ f0 → y ≠ f0 → x * y ≠ f0.
Proof. intros Hx Hy [|]%fmul_zero; done. Qed.

(** Sums of a list. *)
Definition fsum {A} (f : A → F) (l : list A) : F := foldr (λ x s, f x + s) f0 l.
Lemma fsum_cons {A} (f : A → F) x l : fsum f (x :: l) = f x + fsum f l.
Proof. done. Qed.
Lemma fsum_app {A} (f : A → F) l l' : fsum f (l ++ l') = fsum f l + fsum f l'.
Proof.
  induction l as [| x l IH]; [change (fsum f ([] ++ l')) with (fsum f l'); change (fsum f []) with f0; ring |].
  cbn [app]. rewrite !fsum_cons, IH. ring.
Qed.
Lemma fsum_add {A} (f g : A → F) l : fsum (λ x, f x + g x) l = fsum f l + fsum g l.
Proof. induction l as [| x l IH]; [cbn; ring |]. rewrite !fsum_cons, IH. ring. Qed.
Lemma fsum_scale {A} c (f : A → F) l : fsum (λ x, c * f x) l = c * fsum f l.
Proof. induction l as [| x l IH]; [cbn; ring |]. rewrite !fsum_cons, IH. ring. Qed.
Lemma fsum_ext {A} (f g : A → F) l : (∀ x, x ∈ l → f x = g x) → fsum f l = fsum g l.
Proof.
  induction l as [| x l IH]; intros Hf; [done |]. rewrite !fsum_cons, Hf by set_solver. f_equal. apply IH. set_solver.
Qed.
Lemma fsum_zero {A} (f : A → F) l : (∀ x, x ∈ l → f x = f0) → fsum f l = f0.
Proof.
  induction l as [| x l IH]; intros Hf; [done |]. rewrite fsum_cons, Hf by set_solver.
  rewrite IH by set_solver. ring.
Qed.
Lemma fsum_map {A B} (f : B → F) (g : A → B) l : fsum f (map g l) = fsum (λ x, f (g x)) l.
Proof. induction l as [| x l IH]; [done |]. cbn [map]. by rewrite !fsum_cons, IH. Qed.
(** A left fold that adds is the sum. *)
Lemma foldl_fsum {A} (f : A → F) l : ∀ a, foldl (λ s x, s + f x) a l = a + fsum f l.
Proof. induction l as [| x l IH]; intros a; cbn [foldl]; [cbn; ring | rewrite IH, fsum_cons; ring]. Qed.

(** ** Polynomials *)

Definition eval (cs : list F) (x : F) : F := foldr (λ c s, c + x * s) f0 cs.

(** [f] is a polynomial function with [n] coefficients. *)
Definition is_poly (n : nat) (f : F → F) : Prop := ∃ cs, length cs = n ∧ ∀ x, f x = eval cs x.

Lemma eval_cons c cs x : eval (c :: cs) x = c + x * eval cs x.
Proof. done. Qed.
Lemma eval_zero n x : eval (replicate n f0) x = f0.
Proof. induction n as [| n IH]; [done |]. cbn [replicate]. rewrite eval_cons, IH. ring. Qed.
Lemma is_poly_ext n f g : (∀ x, f x = g x) → is_poly n f → is_poly n g.
Proof. intros Hfg (cs & Hl & E). exists cs. split; [done |]. intros x. by rewrite <- Hfg. Qed.
Lemma is_poly_more n m f : (n <= m)%nat → is_poly n f → is_poly m f.
Proof.
  intros Hnm (cs & <- & E). exists (cs ++ replicate (m - length cs) f0). split; [rewrite length_app, length_replicate; lia |].
  intros x. rewrite E. clear E Hnm. generalize (m - length cs)%nat as k. induction cs as [| c cs IH]; intros k; cbn [app].
  - by rewrite eval_zero.
  - rewrite !eval_cons. by rewrite (IH k).
Qed.
Lemma is_poly_const c : is_poly 1 (λ _, c).
Proof. exists [c]. split; [done |]. intros x. cbn. ring. Qed.
Lemma is_poly_add n f g : is_poly n f → is_poly n g → is_poly n (λ x, f x + g x).
Proof.
  intros (cs & <- & E) (ds & Hl & E'). exists (zip_with fadd cs ds). split; [rewrite length_zip_with; lia |].
  intros x. rewrite E, E'. clear E E'. revert ds Hl. induction cs as [| c cs IH]; intros [| d ds] Hl; try done; [cbn; ring |].
  cbn [zip_with]. rewrite !eval_cons, <- IH by (cbn in Hl; lia). ring.
Qed.
Lemma is_poly_scale n c f : is_poly n f → is_poly n (λ x, c * f x).
Proof.
  intros (cs & <- & E). exists (map (fmul c) cs). split; [apply length_map |].
  intros x. rewrite E. clear E. induction cs as [| d cs IH]; [cbn; ring |]. cbn [map]. rewrite !eval_cons, <- IH. ring.
Qed.
(** The product with an affine function. *)
Lemma is_poly_affine n a b f : is_poly n f → is_poly (S n) (λ x, (a + x * b) * f x).
Proof.
  intros Hf. apply (is_poly_ext _ (λ x, a * f x + x * (b * f x))); [intros x; ring |].
  apply is_poly_add; [apply (is_poly_more n); [lia | by apply is_poly_scale] |].
  destruct (is_poly_scale n b f Hf) as (cs & <- & E). exists (f0 :: cs). split; [done |].
  intros x. rewrite eval_cons, <- E. ring.
Qed.
Lemma is_poly_fsum {A} n (f : A → F → F) l : (∀ a, a ∈ l → is_poly n (f a)) → is_poly n (λ x, fsum (λ a, f a x) l).
Proof.
  induction l as [| a l IH]; intros Hf.
  - exists (replicate n f0). split; [apply length_replicate |]. intros x. by rewrite eval_zero.
  - apply is_poly_add; [apply Hf; set_solver | apply IH; set_solver].
Qed.

(** A polynomial minus its value at [a] is divisible by [x - a]. *)
Lemma eval_factor cs a : ∃ qs, length qs = pred (length cs) ∧ ∀ x, eval cs x = eval cs a + (x - a) * eval qs x.
Proof.
  induction cs as [| c [| d cs] IH].
  - exists []. split; [done |]. intros x. cbn. ring.
  - exists []. split; [done |]. intros x. cbn. ring.
  - destruct IH as (qs & Hl & E). exists (eval (d :: cs) a :: qs). split; [cbn in *; lia |]. intros x.
    rewrite (eval_cons c), (eval_cons c (d :: cs) a), (eval_cons (eval (d :: cs) a)), (E x). ring.
Qed.

(** A polynomial with at least as many roots as coefficients is zero. *)
Lemma eval_roots cs : ∀ roots, NoDup roots → Forall (λ r, eval cs r = f0) roots → (length cs <= length roots)%nat →
  ∀ x, eval cs x = f0.
Proof.
  remember (length cs) as n eqn:Hn. revert cs Hn. induction n as [| n IH]; intros cs Hn roots Hnd Hr Hl x.
  { by destruct cs. }
  destruct roots as [| a roots]; [cbn in Hl; lia |]. apply NoDup_cons in Hnd as [Ha Hnd].
  apply Forall_cons in Hr as [H0 Hr]. destruct (eval_factor cs a) as (qs & Hq & E). rewrite E, H0.
  rewrite (IH qs) with (roots := roots); [ring | lia | done | | cbn in Hl; lia].
  rewrite Forall_forall in *. intros r Hin. specialize (Hr r Hin). rewrite E, H0 in Hr.
  assert (Hz : (r - a) * eval qs r = f0) by (rewrite <- Hr; ring).
  apply fmul_zero in Hz as [Hz | Hz]; [| done]. apply fsub_zero in Hz. by subst.
Qed.
Lemma is_poly_roots n f g roots : is_poly n f → is_poly n g → NoDup roots → (n <= length roots)%nat →
  Forall (λ r, f r = g r) roots → ∀ x, f x = g x.
Proof.
  intros Hf Hg Hnd Hl Hr x.
  assert (Hd : is_poly n (λ x, f x + (f0 - f1) * g x)) by (by apply is_poly_add, is_poly_scale).
  destruct Hd as (cs & <- & E). apply fsub_zero. transitivity (f x + (f0 - f1) * g x); [ring |]. rewrite E.
  apply (eval_roots cs roots); [done | | done]. eapply Forall_impl; [exact Hr |]. intros r Hfg.
  cbn beta in *. rewrite <- E, Hfg. ring.
Qed.

(** ** Interpolation *)

Definition usize_to_field (value : nat) : F := from_u64 (Z.of_nat value).

(** The numerator and the denominator of the Lagrange basis function of [index]. *)
Definition basis (point : F) (index count : nat) : F * F :=
  foldl (λ '(numerator, denominator) other,
    if (other =? index)%nat then (numerator, denominator)
    else (numerator * (point - usize_to_field other), denominator * (usize_to_field index - usize_to_field other)))
    (f1, f1) (seq 0 count).

(** The loop of [evaluate_lagrange]; [None] is a denominator without an inverse. *)
Fixpoint lagrange_loop (point : F) (count index : nat) (result : F) (evaluations : list F) : option F :=
  match evaluations with
  | [] => Some result
  | evaluation :: evaluations =>
      let '(numerator, denominator) := basis point index count in
      inverse ← inverse denominator;
      lagrange_loop point count (S index) (result + evaluation * numerator * inverse) evaluations
  end.

(** ** Its correctness *)

Definition nodes (n : nat) : list F := map usize_to_field (seq 0 n).

Lemma usize_to_field_inj i j : Z.of_nat i < 18446744073709551616 → Z.of_nat j < 18446744073709551616 →
  usize_to_field i = usize_to_field j → i = j.
Proof. intros Hi Hj E. apply fl_from_inj in E; lia. Qed.
Lemma nodes_nodup n : Z.of_nat n < 18446744073709551616 → NoDup (nodes n).
Proof.
  intros Hn. unfold nodes. apply NoDup_fmap_2_strong; [| apply NoDup_seq].
  intros i j Hi%elem_of_seq Hj%elem_of_seq. apply usize_to_field_inj; lia.
Qed.

(** The basis polynomial of [index] over the nodes [l], not normalised. *)
Definition basis_poly (index : nat) (l : list nat) (x : F) : F :=
  foldr (λ other p, if (other =? index)%nat then p else (x - usize_to_field other) * p) f1 l.

Lemma basis_poly_cons index other l x : basis_poly index (other :: l) x =
  if (other =? index)%nat then basis_poly index l x else (x - usize_to_field other) * basis_poly index l x.
Proof. done. Qed.
Lemma basis_spec point index count :
  basis point index count = (basis_poly index (seq 0 count) point, basis_poly index (seq 0 count) (usize_to_field index)).
Proof.
  unfold basis. generalize (seq 0 count) as l. intros l.
  assert (Hg : ∀ n d, foldl (λ '(numerator, denominator) other,
    if (other =? index)%nat then (numerator, denominator)
    else (numerator * (point - usize_to_field other), denominator * (usize_to_field index - usize_to_field other))) (n, d) l
    = (n * basis_poly index l point, d * basis_poly index l (usize_to_field index))).
  { induction l as [| j l IH]; intros n d; cbn [foldl]; [cbn; f_equal; ring |].
    rewrite !basis_poly_cons. destruct (j =? index)%nat; rewrite IH; [done | f_equal; ring]. }
  rewrite Hg. f_equal; ring.
Qed.
Lemma basis_is_poly index l : is_poly (S (length (filter (λ j, j ≠ index) l))) (basis_poly index l).
Proof.
  induction l as [| j l IH]; [apply is_poly_const |]. rewrite filter_cons.
  destruct (decide (j ≠ index)) as [Hj | Hj].
  - apply (is_poly_ext _ (λ x, ((f0 - usize_to_field j) + x * f1) * basis_poly index l x)).
    { intros x. rewrite basis_poly_cons, (proj2 (Nat.eqb_neq j index)) by done. ring. }
    cbn [length]. by apply is_poly_affine.
  - apply (is_poly_ext _ (basis_poly index l)); [| exact IH]. intros x.
    rewrite basis_poly_cons, (proj2 (Nat.eqb_eq j index)); [done |]. by apply dec_stable.
Qed.
Lemma basis_other index k l : k ∈ l → k ≠ index → basis_poly index l (usize_to_field k) = f0.
Proof.
  induction l as [| j l IH]; intros Hk Hne; [by apply elem_of_nil in Hk |]. rewrite basis_poly_cons.
  apply elem_of_cons in Hk as [<- | Hk]; [| rewrite IH by done; destruct (j =? index)%nat; [done | ring]].
  rewrite (proj2 (Nat.eqb_neq k index)) by done. ring.
Qed.
Lemma basis_same index l : (∀ j, j ∈ l → j ≠ index → usize_to_field j ≠ usize_to_field index) →
  basis_poly index l (usize_to_field index) ≠ f0.
Proof.
  induction l as [| j l IH]; intros Hne; [apply f1_neq_f0 |]. rewrite basis_poly_cons.
  assert (Hl : basis_poly index l (usize_to_field index) ≠ f0) by (apply IH; intros; apply Hne; set_solver).
  destruct (Nat.eqb_spec j index) as [| Hj]; [done |]. apply fmul_neq; [| done].
  intros E. apply fsub_zero in E. symmetry in E. apply Hne in E; set_solver.
Qed.

Definition finv (x : F) : F := default f0 (inverse x).
Definition lagrange_term (n : nat) (x : F) (p : nat * F) : F :=
  p.2 * basis_poly p.1 (seq 0 n) x * finv (basis_poly p.1 (seq 0 n) (usize_to_field p.1)).

Lemma denominator_inverse n index : Z.of_nat n < 18446744073709551616 → (index < n)%nat →
  let d := basis_poly index (seq 0 n) (usize_to_field index) in inverse d = Some (finv d) ∧ d * finv d = f1.
Proof.
  intros Hn Hi d. destruct (inverse_neq d) as (y & E & Ey).
  - apply basis_same. intros j Hj%elem_of_seq Hne E. apply Hne. apply usize_to_field_inj; [lia | lia | done].
  - unfold finv. by rewrite E.
Qed.
Lemma lagrange_loop_spec x n evaluations : Z.of_nat n < 18446744073709551616 → ∀ index result,
  (index + length evaluations <= n)%nat →
  lagrange_loop x n index result evaluations =
    Some (result + fsum (lagrange_term n x) (zip (seq index (length evaluations)) evaluations)).
Proof.
  intros Hn. induction evaluations as [| e evaluations IH]; intros index result Hl; cbn [lagrange_loop].
  { cbn. f_equal. ring. }
  rewrite basis_spec. cbn [length] in Hl. destruct (denominator_inverse n index Hn ltac:(lia)) as [-> _].
  cbn [mbind option_bind]. rewrite IH by lia. cbn [length seq zip zip_with]. rewrite fsum_cons.
  f_equal. unfold lagrange_term at 2. cbn [fst snd]. ring.
Qed.

Lemma basis_poly_bound n index : (index < n)%nat → is_poly n (basis_poly index (seq 0 n)).
Proof.
  intros Hi. eapply is_poly_more; [| apply basis_is_poly].
  pose proof (length_filter_lt (λ j, j ≠ index) (seq 0 n) index) as Hl. rewrite length_seq in Hl.
  apply Hl; [apply elem_of_seq; lia | tauto].
Qed.

(** The interpolation of [n] values is the polynomial of [n] coefficients through them. *)
Lemma lagrange_interpolates evaluations : Z.of_nat (length evaluations) < 18446744073709551616 →
  let n := length evaluations in
  ∃ p, is_poly n p ∧ (∀ k e, evaluations !! k = Some e → p (usize_to_field k) = e) ∧
    ∀ x, lagrange_loop x n 0 f0 evaluations = Some (p x).
Proof.
  intros Hn n. exists (λ x, fsum (lagrange_term n x) (zip (seq 0 n) evaluations)).
  assert (Hin : ∀ i e, (i, e) ∈ zip (seq 0 n) evaluations ↔ evaluations !! i = Some e).
  { intros i e. rewrite elem_of_lookup_zip_with. split.
    - intros (k & a & b & [= -> ->] & Hk & He). apply lookup_seq in Hk as [-> _]. exact He.
    - intros He. exists i, i, e. split; [done |]. split; [| done]. apply lookup_seq. split; [done |].
      by apply lookup_lt_Some in He. }
  split; [| split].
  - apply is_poly_fsum. intros [i e] Hi%Hin. apply lookup_lt_Some in Hi.
    apply (is_poly_ext _ (λ x, (e * finv (basis_poly i (seq 0 n) (usize_to_field i))) * basis_poly i (seq 0 n) x)).
    { intros x. unfold lagrange_term. cbn [fst snd]. ring. }
    by apply is_poly_scale, basis_poly_bound.
  - intros k e He. pose proof (lookup_lt_Some _ _ _ He) as Hk.
    assert (Hs : ∀ l, NoDup (map fst l) → (k, e) ∈ l → (∀ i e', (i, e') ∈ l → i ∈ seq 0 n) →
      (fsum (lagrange_term n (usize_to_field k)) l = e)).
    { destruct (denominator_inverse n k Hn Hk) as [_ Hone]. induction l as [| [i e'] l IH]; intros Hnd Hke Hl; [by apply elem_of_nil in Hke |].
      rewrite fsum_cons. cbn [map fst] in Hnd. apply NoDup_cons in Hnd as [Hi Hnd]. apply elem_of_cons in Hke as [[= <- <-] | Hke].
      - rewrite fsum_zero.
        + unfold lagrange_term. cbn [fst snd] in *. transitivity (e * (basis_poly k (seq 0 n) (usize_to_field k) *
            finv (basis_poly k (seq 0 n) (usize_to_field k))) + f0); [ring |]. rewrite Hone. ring.
        + intros [j e''] Hj. unfold lagrange_term. cbn [fst snd]. rewrite basis_other; [ring | apply elem_of_seq; lia |].
          intros <-. apply Hi. by apply (list_elem_of_fmap_2 fst _ _ Hj).
      - assert (Hne : k ≠ i) by (intros ->; apply Hi; by apply (list_elem_of_fmap_2 fst _ _ Hke)).
        rewrite IH by (done || intros; eapply Hl; by apply list_elem_of_further). unfold lagrange_term. cbn [fst snd].
        rewrite basis_other; [ring | apply elem_of_seq; lia | done]. }
    apply Hs; [| by apply Hin |].
    + change (map fst) with (fmap (M := list) (@fst nat F)). rewrite fst_zip by (by rewrite length_seq). apply NoDup_seq.
    + intros i e' Hi%Hin. apply elem_of_seq. apply lookup_lt_Some in Hi. lia.
  - intros x. rewrite lagrange_loop_spec by (done || cbn; lia). subst n. f_equal. ring.
Qed.

Lemma lagrange_poly n f x : is_poly n f → Z.of_nat n < 18446744073709551616 →
  lagrange_loop x n 0 f0 (map f (nodes n)) = Some (f x).
Proof.
  intros Hf Hn. assert (Hl : length (map f (nodes n)) = n) by (unfold nodes; by rewrite !length_map, length_seq).
  destruct (lagrange_interpolates (map f (nodes n))) as (p & Hp & Hk & Hx); [by rewrite Hl |]. rewrite Hl in *.
  rewrite Hx. f_equal. apply (is_poly_roots n p f (nodes n)); [done | done | by apply nodes_nodup | |].
  - unfold nodes. by rewrite length_map, length_seq.
  - apply Forall_forall. intros r Hr. unfold nodes in Hr. apply list_elem_of_fmap in Hr as (k & -> & Hk').
    apply Hk. apply elem_of_seq in Hk'. unfold nodes. rewrite !list_lookup_fmap. rewrite lookup_seq_lt by lia. done.
Qed.
End field.

#[global] Arguments fsum : simpl never.
#[global] Arguments eval : simpl never.

(** ** The rationals *)

#[global] Instance rational_eq_dec : EqDecision Qc := Qc_eq_dec.
#[global] Instance rational_ops : FieldOps Qc := {
  fadd := Qcplus; fsub := Qcminus; fmul := Qcmult;
  from_u64 z := Q2Qc (inject_Z z);
  inverse x := if decide (x = Q2Qc 0) then None else Some (Qcinv x)
}.
Lemma rational_ring : ring_theory f0 f1 fadd fmul fsub (fsub f0) (=@{Qc}).
Proof.
  split; cbn; intros; try (change (Q2Qc (inject_Z 0)) with (0%Qc)); try (change (Q2Qc (inject_Z 1)) with (1%Qc)); ring.
Qed.
#[global] Instance rational_laws : FieldLaws Qc.
Proof.
  split; [exact rational_ring | | | |].
  - intros x. cbn. by case_decide.
  - intros x y. cbn. case_decide as Hx; [done |]. intros [= <-].
    change (Q2Qc (inject_Z 1)) with (1%Qc). by apply Qcmult_inv_r.
  - intros a b _ _ _. cbn. apply Qc_is_canon. cbn. rewrite !Qred_correct. by rewrite inject_Z_plus.
  - intros a b _ _ E. cbn in E. apply (f_equal this) in E. cbn in E.
    assert (Eq : (inject_Z a == inject_Z b)%Q) by (rewrite <- (Qred_correct (inject_Z a)), E; apply Qred_correct).
    unfold Qeq in Eq. cbn in Eq. lia.
Qed.
