(* ===== verification/Fold.v ===== *)
(** * Folding evaluation tables (crates/zksm83-jolt/src/{field_fold,prover_backend}.rs)

    The binary fold of a table of evaluations, in place and from a slice, its dispatch to the processor or to
    the device, and the evaluation of a multilinear extension by repeated folds; that the two folds agree, and
    that the evaluation is the sum over the table weighted by the point. *)
From Stdlib Require Import Qcanon.
From S2P Require Import Prelude Image Field.
Local Open Scope Z_scope.

(** The device's fold is code of another crate run on the GPU: a folder, its errors and its result. *)
Class CudaFolder (F : Type) := {
  cuda_folder : Type;
  cuda_error : Type;
  cuda_fold_binary_layer : cuda_folder → list F → F → result cuda_error (list F)
}.

Module FoldErr.
Inductive FieldFoldError `{CudaFolder F} := InvalidLength | IndexOverflow | Cuda (e : cuda_error).
Arguments FieldFoldError F {_}.
End FoldErr.
Abbreviation FieldFoldError := FoldErr.FieldFoldError.

Inductive NativeProverBackendState `{CudaFolder F} := BackendCpu | BackendCuda (folder : cuda_folder).
Arguments NativeProverBackendState F {_}.

Section fold.
Context {F : Type} `{FieldLaws F} `{!CudaFolder F}.
Local Open Scope field_scope.
Add Ring fold_ring : fl_ring.

Abbreviation fold_result := (result (FieldFoldError F)).

(** [values.len() < 2 || !values.len().is_multiple_of(2)] *)
Definition uneven (values : list F) : bool := (length values <? 2)%nat || Nat.odd (length values).

(** The in-place loop: [n] pairs from [pair_index] on. The indices are below the length of a vector, so the
    checked index arithmetic cannot fail. *)
Fixpoint fold_pairs_in_place (n pair_index : nat) (values : list F) (challenge : F) : fold_result (list F) :=
  match n with
  | O => Ok values
  | S n =>
      low ← ok_or (values !! (2 * pair_index)%nat) FoldErr.InvalidLength;
      high ← ok_or (values !! (2 * pair_index + 1)%nat) FoldErr.InvalidLength;
      _ ← ok_or (values !! pair_index) FoldErr.InvalidLength;
      fold_pairs_in_place n (S pair_index) (<[pair_index := low + challenge * (high - low)]> values) challenge
  end.
Definition fold_binary_layer_cpu (values : list F) (challenge : F) : fold_result (list F) :=
  if uneven values then Err FoldErr.InvalidLength
  else
    let folded_len := Nat.div2 (length values) in
    values ← fold_pairs_in_place folded_len 0 values challenge;
    Ok (take folded_len values).
Definition fold_binary_layer : list F → F → fold_result (list F) := fold_binary_layer_cpu.

(** [values.chunks_exact(2)] *)
Fixpoint fold_chunks (values : list F) (challenge : F) : list F :=
  match values with
  | low :: high :: values => (low + challenge * (high - low)) :: fold_chunks values challenge
  | _ => []
  end.
Definition fold_binary_layer_from_slice_cpu (values : list F) (challenge : F) : fold_result (list F) :=
  if uneven values then Err FoldErr.InvalidLength else Ok (fold_chunks values challenge).
Definition fold_binary_layer_from_slice : list F → F → fold_result (list F) := fold_binary_layer_from_slice_cpu.

Fixpoint fold_point (values : list F) (point : list F) : fold_result (list F) :=
  match point with
  | [] => Ok values
  | challenge :: point => values ← fold_binary_layer values challenge; fold_point values point
  end.
Definition evaluate_mle (values point : list F) : fold_result F :=
  if 64 <=? Z.of_nat (length point) then Err FoldErr.IndexOverflow
  else if negb (Z.of_nat (length values) =? Z.shiftl 1 (Z.of_nat (length point))) then Err FoldErr.InvalidLength
  else
    match point with
    | [] => ok_or (head values) FoldErr.InvalidLength
    | first :: remaining =>
        folded ← fold_binary_layer_from_slice values first;
        folded ← fold_point folded remaining;
        ok_or (head folded) FoldErr.InvalidLength
    end.

(** [NativeProverBackend::fold_binary_layer] and [fold_binary_layer_from_slice] *)
Definition backend_fold (backend : NativeProverBackendState F) (values : list F) (challenge : F) :
    fold_result (list F) :=
  match backend with
  | BackendCpu => fold_binary_layer_cpu values challenge
  | BackendCuda folder => map_err FoldErr.Cuda (cuda_fold_binary_layer folder values challenge)
  end.
Definition backend_fold_from_slice (backend : NativeProverBackendState F) (values : list F) (challenge : F) :
    fold_result (list F) :=
  match backend with
  | BackendCpu => fold_binary_layer_from_slice_cpu values challenge
  | BackendCuda folder => map_err FoldErr.Cuda (cuda_fold_binary_layer folder values challenge)
  end.

(** ** The folds agree *)

Lemma length_fold_chunks values c : length (fold_chunks values c) = Nat.div2 (length values).
Proof. induction values as [| |a b l IH] using list_pair_ind; [done | done |]. cbn. by rewrite IH. Qed.

Lemma fold_chunks_lookup values c i low high :
  values !! (2 * i)%nat = Some low → values !! (2 * i + 1)%nat = Some high →
  fold_chunks values c !! i = Some (low + c * (high - low)).
Proof.
  revert i. induction values as [| a | a b l IH] using list_pair_ind; intros i Hl Hh; [done | by destruct i |].
  destruct i as [| i]; [by injection Hl as ->; injection Hh as -> |]. cbn [fold_chunks]. apply (IH i).
  - by replace (2 * S i)%nat with (S (S (2 * i))) in Hl by lia.
  - by replace (2 * S i + 1)%nat with (S (S (2 * i + 1))) in Hh by lia.
Qed.

(** After [k] pairs the slots below [k] hold the fold and the slots from [k] on the original values. *)
Lemma fold_in_place_spec original c n : ∀ k values,
  (2 * (k + n) <= length original)%nat → length values = length original →
  (∀ i, (i < k)%nat → values !! i = fold_chunks original c !! i) →
  (∀ i, (k <= i)%nat → values !! i = original !! i) →
  ∃ values', fold_pairs_in_place n k values c = Ok values' ∧ length values' = length original ∧
    ∀ i, (i < k + n)%nat → values' !! i = fold_chunks original c !! i.
Proof.
  induction n as [| n IH]; intros k values Hn Hl Hlow Hhigh; cbn [fold_pairs_in_place].
  { exists values. split; [done |]. split; [done |]. intros i Hi. apply Hlow. lia. }
  destruct (lookup_lt_is_Some_2 original (2 * k)) as [low Elow]; [lia |].
  destruct (lookup_lt_is_Some_2 original (2 * k + 1)) as [high Ehigh]; [lia |].
  destruct (lookup_lt_is_Some_2 values k) as [old Eold]; [lia |].
  rewrite (Hhigh (2 * k)%nat), (Hhigh (2 * k + 1)%nat), Elow, Ehigh, Eold by lia. cbn [ok_or mbind result_bind].
  destruct (IH (S k) (<[k:=low + c * (high - low)]> values)) as (values' & E & Hl' & Hv); [lia | by rewrite length_insert | | |].
  - intros i Hi. destruct (decide (i = k)) as [-> | Hne].
    + rewrite list_lookup_insert_eq by lia. symmetry. by apply fold_chunks_lookup.
    + rewrite list_lookup_insert_ne by done. apply Hlow. lia.
  - intros i Hi. rewrite list_lookup_insert_ne by lia. apply Hhigh. lia.
  - exists values'. split; [done |]. split; [done |]. intros i Hi. apply Hv. lia.
Qed.

Lemma fold_in_place_slice values c : fold_binary_layer_cpu values c = fold_binary_layer_from_slice_cpu values c.
Proof.
  unfold fold_binary_layer_cpu, fold_binary_layer_from_slice_cpu. destruct (uneven values); [done |].
  pose proof (Nat.div2_odd (length values)) as Hd.
  destruct (fold_in_place_spec values c (Nat.div2 (length values)) 0 values) as (values' & -> & Hl & Hv);
    [lia | done | intros; lia | done |].
  rewrite bind_of_ok. f_equal. apply list_eq. intros i. destruct (decide (i < Nat.div2 (length values))%nat) as [Hi | Hi].
  - rewrite lookup_take_lt by done. by apply Hv.
  - rewrite lookup_take_ge by lia. symmetry. apply lookup_ge_None_2. rewrite length_fold_chunks. lia.
Qed.

(** ** Multilinear extensions *)

(** The weight of every table entry at [point]; the first coordinate selects the lowest index bit. *)
Fixpoint weights (point : list F) : list F :=
  match point with
  | [] => [f1]
  | r :: point => weights point ≫= λ w, [(f1 - r) * w; r * w]
  end.
Definition dot (left right : list F) : F := fsum (λ p, p.1 * p.2) (zip left right).
Definition mle (values point : list F) : F := dot values (weights point).

Lemma dot_nil : dot [] [] = f0.
Proof. done. Qed.
Lemma dot_nil_l l : dot [] l = f0.
Proof. done. Qed.
Lemma dot_nil_r l : dot l [] = f0.
Proof. by destruct l. Qed.
Lemma dot_cons a b l l' : dot (a :: l) (b :: l') = a * b + dot l l'.
Proof. done. Qed.
Lemma length_weights point : length (weights point) = (2 ^ length point)%nat.
Proof.
  induction point as [| r point IH]; [done |]. cbn [weights length Nat.pow]. rewrite <- IH. clear IH.
  induction (weights point) as [| w ws IH]; [done |]. cbn. rewrite IH. lia.
Qed.

Lemma mle_fold values r point : length values = (2 ^ S (length point))%nat →
  mle values (r :: point) = mle (fold_chunks values r) point.
Proof.
  unfold mle. cbn [weights Nat.pow]. rewrite <- (length_weights point). generalize (weights point) as ws. intros ws.
  revert values. induction ws as [| w ws IH]; intros values Hl; [by destruct values |].
  destruct values as [| a [| b values]]; [cbn in Hl; lia | cbn in Hl; lia |].
  change ((w :: ws) ≫= λ w, [(f1 - r) * w; r * w]) with ((f1 - r) * w :: r * w :: (ws ≫= λ w, [(f1 - r) * w; r * w])).
  cbn [fold_chunks]. rewrite !dot_cons, IH by (cbn in Hl; lia). ring.
Qed.
Lemma mle_nil value : mle [value] [] = value.
Proof. unfold mle. cbn [weights]. rewrite dot_cons. change (dot [] []) with (f0 : F). ring. Qed.

Lemma even_length_pow values n : length values = (2 ^ S n)%nat →
  uneven values = false ∧ Nat.div2 (length values) = (2 ^ n)%nat.
Proof.
  intros Hl. unfold uneven. rewrite Hl. cbn [Nat.pow]. pose proof (Nat.pow_nonzero 2 n ltac:(lia)).
  replace (2 ^ n + (2 ^ n + 0))%nat with (2 * 2 ^ n)%nat by lia. rewrite Nat.div2_double.
  split; [| done]. apply orb_false_iff. split; [apply Nat.ltb_ge; lia |]. by rewrite Nat.odd_even.
Qed.
Lemma fold_pow values n c : length values = (2 ^ S n)%nat →
  fold_binary_layer_from_slice_cpu values c = Ok (fold_chunks values c) ∧
  fold_binary_layer_cpu values c = Ok (fold_chunks values c) ∧ length (fold_chunks values c) = (2 ^ n)%nat.
Proof.
  intros Hl. destruct (even_length_pow values n Hl) as [Hu Hd]. rewrite fold_in_place_slice.
  unfold fold_binary_layer_from_slice_cpu. rewrite Hu. rewrite length_fold_chunks. auto.
Qed.

Lemma fold_point_spec point : ∀ values, length values = (2 ^ length point)%nat →
  ∃ v, fold_point values point = Ok [v] ∧ v = mle values point.
Proof.
  induction point as [| r point IH]; intros values Hl; cbn [fold_point].
  - destruct values as [| v [| w values]]; [done | | done]. exists v. split; [done |]. by rewrite mle_nil.
  - destruct (fold_pow values (length point) r Hl) as (_ & E & Hl'). unfold fold_binary_layer. rewrite E, bind_of_ok.
    destruct (IH _ Hl') as (v & -> & ->). exists (mle (fold_chunks values r) point). by rewrite mle_fold.
Qed.

(** C29. Folding evaluates the multilinear extension. The in-place fold, which overwrites the table it reads, and
    the fold into a new table return the same layer and refuse the same lengths; and [evaluate_mle] of a table of
    2^n values at a point of n coordinates is the sum of the table weighted by the product, over the index bits,
    of the coordinate or its complement, whatever the field. Every other shape is refused. *)
Theorem fold_evaluates_mle values point challenge :
  fold_binary_layer values challenge = fold_binary_layer_from_slice values challenge ∧
  evaluate_mle values point =
    if 64 <=? Z.of_nat (length point) then Err FoldErr.IndexOverflow
    else if decide (length values = (2 ^ length point)%nat) then Ok (mle values point) else Err FoldErr.InvalidLength.
Proof.
  split; [apply fold_in_place_slice |]. unfold evaluate_mle. destruct (64 <=? Z.of_nat (length point)); [done |].
  assert (Hpow : Z.shiftl 1 (Z.of_nat (length point)) = Z.of_nat (2 ^ length point)).
  { rewrite Z.shiftl_1_l, Nat2Z.inj_pow. done. }
  rewrite Hpow. case_decide as Hl.
  2: { rewrite (proj2 (Z.eqb_neq _ _)) by lia. done. }
  rewrite Hl, Z.eqb_refl. cbn [negb]. destruct point as [| r point].
  - destruct values as [| v [| w values]]; [done | | done]. cbn [head ok_or]. by rewrite mle_nil.
  - destruct (fold_pow values (length point) r Hl) as (E & _ & Hl'). unfold fold_binary_layer_from_slice.
    rewrite E, bind_of_ok. destruct (fold_point_spec point _ Hl') as (v & -> & ->). cbn. by rewrite mle_fold.
Qed.
End fold.

(** ** Rational tables and a device that folds them *)

Definition folding_device : CudaFolder Qc := {|
  cuda_folder := unit; cuda_error := unit;
  cuda_fold_binary_layer _ values challenge := if uneven values then Err () else Ok (fold_chunks values challenge)
|}.
Definition rationals (l : list Z) : list Qc := map from_u64 l.

Lemma fold_evaluates_mle_witness :
  fold_binary_layer (CudaFolder0 := folding_device) (rationals [1; 2]) (from_u64 5) =
    fold_binary_layer_from_slice (rationals [1; 2]) (from_u64 5) ∧
  evaluate_mle (CudaFolder0 := folding_device) (rationals [1; 2]) (rationals [5]) =
    Ok (mle (rationals [1; 2]) (rationals [5])).
Proof. exact (fold_evaluates_mle (CudaFolder0 := folding_device) (rationals [1; 2]) (rationals [5]) (from_u64 5)). Defined.
