(* ===== verification/Sumcheck.v ===== *)
(** * Sumchecks (crates/zksm83-jolt/src/{sumcheck,sumcheck/rounds,sumcheck/factor,sumcheck/sparse}.rs)

    The prover and the verifier of a product of two tables, of a sparse table with a dense one, and of a sum of
    products that share their first factor, over a Fiat-Shamir transcript. The parallel sums of the code are
    sums in a field and are written in order. *)
From S2P Require Import Prelude Image Field Fold.

(** The transcript is code of another crate: it absorbs labelled bytes and field elements and gives challenges. *)
Class Transcript (F : Type) := {
  transcript : Type;
  append_bytes : transcript → string → list Z → transcript;
  append_field : transcript → string → F → transcript;
  challenge_scalar : transcript → string → F * transcript
}.

Module ScErr.
Inductive ProductSumcheckError `{CudaFolder F} :=
| EmptyFactors
| EmptyTable
| LengthMismatch
| NonPowerOfTwo
| ProofShape
| RoundClaimMismatch
| FinalClaimMismatch
| NonInvertibleInterpolation
| FoldingShape
| FieldFold (e : FieldFoldError F).
Arguments ProductSumcheckError F {_}.
End ScErr.
Abbreviation ProductSumcheckError := ScErr.ProductSumcheckError.
Abbreviation sc_result F := (result (ProductSumcheckError F)).

Record ProductSumcheckProof (F : Type) := MkProductProof {
  ps_rounds : list (F * F * F); final_left : F; final_right : F
}.
Arguments MkProductProof {F}.
Arguments ps_rounds {F}.
Arguments final_left {F}.
Arguments final_right {F}.
Record SumOfProductsSumcheckProof (F : Type) := MkSumProof {
  sp_rounds : list (list F); final_terms : list (list F)
}.
Arguments MkSumProof {F}.
Arguments sp_rounds {F}.
Arguments final_terms {F}.

Section sumcheck.
Context {F : Type} `{!FieldOps F, !EqDecision F, !CudaFolder F, !Transcript F}.
Local Open Scope field_scope.

(** ** Shapes and absorption *)

Definition validate_tables (left right : list F) : sc_result F () :=
  if (length left =? 0)%nat then Err ScErr.EmptyTable
  else if negb (length left =? length right)%nat then Err ScErr.LengthMismatch
  else if negb (is_power_of_two (Z.of_nat (length left))) then Err ScErr.NonPowerOfTwo
  else Ok ().

Definition variable_count (length : nat) : sc_result F Z :=
  if (length =? 0)%nat || negb (is_power_of_two (Z.of_nat length)) then Err ScErr.NonPowerOfTwo
  else Ok (Z.log2 (Z.of_nat length)).

Definition first_value (values : list F) : sc_result F F := ok_or (head values) ScErr.EmptyTable.

Definition evaluate_lagrange (evaluations : list F) (point : F) : sc_result F F :=
  if (length evaluations =? 0)%nat then Err ScErr.ProofShape
  else ok_or (lagrange_loop point (length evaluations) 0 f0 evaluations) ScErr.NonInvertibleInterpolation.

(** A length always fits 64 bits. *)
Definition absorb_round (t : transcript) (label : string) (round_index : nat) (evaluations : list F) : transcript :=
  let t := append_bytes t label (le_bytes 8 (Z.of_nat round_index)) in
  let t := append_bytes t "sumcheck-evaluation-count" (le_bytes 8 (Z.of_nat (length evaluations))) in
  foldl (λ t evaluation, append_field t "sumcheck-evaluation" evaluation) t evaluations.
Definition absorb_finals (t : transcript) (label : string) (finals : list F) : transcript :=
  let t := append_bytes t label (le_bytes 8 (Z.of_nat (length finals))) in
  foldl (λ t value, append_field t "sumcheck-final" value) t finals.
Definition absorb_term_finals (t : transcript) (terms : list (list F)) : transcript :=
  let t := append_bytes t "sum-of-products-term-count" (le_bytes 8 (Z.of_nat (length terms))) in
  foldl (λ t term,
    let t := append_bytes t "sum-of-products-factor-count" (le_bytes 8 (Z.of_nat (length term))) in
    foldl (λ t factor, append_field t "sum-of-products-final" factor) t term) t terms.

(** [fold] and [fold_borrowed] *)
Definition fold_table (backend : NativeProverBackendState F) (table : list F) (challenge : F) : sc_result F (list F) :=
  if (length table <=? 1)%nat || negb (is_power_of_two (Z.of_nat (length table))) then Err ScErr.FoldingShape
  else map_err ScErr.FieldFold (backend_fold backend table challenge).
Definition fold_borrowed (backend : NativeProverBackendState F) (values : list F) (challenge : F) :
    sc_result F (list F) :=
  map_err ScErr.FieldFold (backend_fold_from_slice backend values challenge).

(** ** Two dense tables *)

Definition inner_product (left right : list F) : sc_result F F :=
  _ ← validate_tables left right;
  Ok (fsum (λ p, p.1 * p.2) (zip left right)).

Definition message_add (a b : F * F * F) : F * F * F :=
  let '(a0, a1, a2) := a in let '(b0, b1, b2) := b in (a0 + b0, a1 + b1, a2 + b2).
Definition message_zero : F * F * F := (f0, f0, f0).
(** The message as the slice that is absorbed and interpolated. *)
Definition message_list (m : F * F * F) : list F := let '(a, b, c) := m in [a; b; c].

(** [product_pair]; [chunks_exact(2)] yields complete pairs. *)
Definition product_pair (left_zero left_one right_zero right_one : F) : F * F * F :=
  let at_point point := (left_zero + point * (left_one - left_zero)) * (right_zero + point * (right_one - right_zero)) in
  (at_point (from_u64 0), at_point (from_u64 1), at_point (from_u64 2)).
Fixpoint product_pairs (left right : list F) : F * F * F :=
  match left, right with
  | left_zero :: left_one :: left_rest, right_zero :: right_one :: right_rest =>
      message_add (product_pair left_zero left_one right_zero right_one) (product_pairs left_rest right_rest)
  | _, _ => message_zero
  end.
Definition product_round (left right : list F) : sc_result F (F * F * F) :=
  _ ← validate_tables left right;
  if (length left =? 1)%nat then Err ScErr.FoldingShape
  else Ok (product_pairs left right).

Definition PRODUCT_LABEL : string := "product-sumcheck".
Definition CHALLENGE_LABEL : string := "product-sumcheck-challenge".

(** What proving returns: the proof, the claim, the point and the transcript after it. *)
Definition finish_product_sumcheck (left right : list F) (rounds : list (F * F * F)) (claim : F) (point : list F)
    (t : transcript) : sc_result F (ProductSumcheckProof F * F * list F * transcript) :=
  final_left ← first_value left;
  final_right ← first_value right;
  let t := absorb_finals t "product-sumcheck-final" [final_left; final_right] in
  Ok (MkProductProof rounds final_left final_right, claim, point, t).

(** [while left.len() > 1]; every iteration halves the tables, so their length is fuel enough. *)
Fixpoint prove_loop (backend : NativeProverBackendState F) (fuel : nat) (left right : list F)
    (rounds : list (F * F * F)) (claim : F) (point : list F) (t : transcript) :
    sc_result F (ProductSumcheckProof F * F * list F * transcript) :=
  if (length left <=? 1)%nat then finish_product_sumcheck left right rounds claim point t
  else
    match fuel with
    | O => Err ScErr.FoldingShape
    | S fuel =>
        message ← product_round left right;
        let t := absorb_round t PRODUCT_LABEL (length rounds) (message_list message) in
        let '(challenge, t) := challenge_scalar t CHALLENGE_LABEL in
        left ← fold_table backend left challenge;
        right ← fold_table backend right challenge;
        prove_loop backend fuel left right (rounds ++ [message]) claim (point ++ [challenge]) t
    end.

(** [ProductSumcheckProof::prove] *)
Definition prove (left right : list F) (backend : NativeProverBackendState F) (t : transcript) :
    sc_result F (ProductSumcheckProof F * F * list F * transcript) :=
  _ ← validate_tables left right;
  claim ← inner_product left right;
  _ ← variable_count (length left);
  if (length left =? 1)%nat then finish_product_sumcheck left right [] claim [] t
  else
    message ← product_round left right;
    let t := absorb_round t PRODUCT_LABEL 0 (message_list message) in
    let '(challenge, t) := challenge_scalar t CHALLENGE_LABEL in
    left ← fold_borrowed backend left challenge;
    right ← fold_borrowed backend right challenge;
    prove_loop backend (length left) left right [message] claim [challenge] t.

(** The loop of [ProductSumcheckProof::verify] over [rounds.iter().enumerate()]. *)
Fixpoint verify_rounds (rounds : list (F * F * F)) (round_index : nat) (claim : F) (point : list F) (t : transcript) :
    sc_result F (F * list F * transcript) :=
  match rounds with
  | [] => Ok (claim, point, t)
  | message :: rounds =>
      let '(at_zero, at_one, _) := message in
      if negb (bool_decide (at_zero + at_one = claim)) then Err ScErr.RoundClaimMismatch
      else
        let t := absorb_round t PRODUCT_LABEL round_index (message_list message) in
        let '(challenge, t) := challenge_scalar t CHALLENGE_LABEL in
        claim ← evaluate_lagrange (message_list message) challenge;
        verify_rounds rounds (S round_index) claim (point ++ [challenge]) t
  end.
Definition verify (proof : ProductSumcheckProof F) (initial_claim : F) (expected_rounds : nat) (t : transcript) :
    sc_result F (list F * transcript) :=
  if negb (length (ps_rounds proof) =? expected_rounds)%nat then Err ScErr.ProofShape
  else
    '(claim, point, t) ← verify_rounds (ps_rounds proof) 0 initial_claim [] t;
    if negb (bool_decide (claim = final_left proof * final_right proof)) then Err ScErr.FinalClaimMismatch
    else
      let t := absorb_finals t "product-sumcheck-final" [final_left proof; final_right proof] in
      Ok (point, t).

(** ** A sparse left table *)

Record SparseTable := MkSparse { sparse_entries : list (nat * F); sparse_length : nat }.

(** [merge_sorted]: equal adjacent indices are added, zero values dropped. *)
Fixpoint merge_adjacent (normalized : list (nat * F)) (entries : list (nat * F)) : list (nat * F) :=
  match entries with
  | [] => normalized
  | (index, value) :: entries =>
      merge_adjacent
        (match last normalized with
         | Some (last_index, last_value) =>
             if (last_index =? index)%nat then removelast normalized ++ [(last_index, last_value + value)]
             else normalized ++ [(index, value)]
         | None => normalized ++ [(index, value)]
         end) entries
  end.
Definition merge_sorted (entries : list (nat * F)) : list (nat * F) :=
  filter (λ e, e.2 ≠ f0) (merge_adjacent [] entries).

(** [sort_unstable_by_key] on the index: any sorted permutation, here insertion by index. *)
Fixpoint insert_by_index (e : nat * F) (l : list (nat * F)) : list (nat * F) :=
  match l with
  | [] => [e]
  | e' :: l => if (e.1 <=? e'.1)%nat then e :: e' :: l else e' :: insert_by_index e l
  end.
Definition sort_by_index : list (nat * F) → list (nat * F) := foldr insert_by_index [].
Definition normalize (entries : list (nat * F)) : list (nat * F) := merge_sorted (sort_by_index entries).

Definition sparse_new (entries : list (nat * F)) (length : nat) : sc_result F SparseTable :=
  if (length =? 0)%nat then Err ScErr.EmptyTable
  else if negb (is_power_of_two (Z.of_nat length)) then Err ScErr.NonPowerOfTwo
  else if existsb (λ e, (length <=? e.1)%nat) entries then Err ScErr.LengthMismatch
  else Ok (MkSparse (normalize entries) length).

Definition validate_right (s : SparseTable) (right : list F) : sc_result F () :=
  if negb (length right =? sparse_length s)%nat then Err ScErr.LengthMismatch else Ok ().

Fixpoint sparse_products (entries : list (nat * F)) (right : list F) : sc_result F F :=
  match entries with
  | [] => Ok f0
  | (index, value) :: entries =>
      right_value ← ok_or (right !! index) ScErr.LengthMismatch;
      rest ← sparse_products entries right;
      Ok (value * right_value + rest)
  end.
Definition sparse_inner_product (s : SparseTable) (right : list F) : sc_result F F :=
  _ ← validate_right s right; sparse_products (sparse_entries s) right.

Definition sparse_entry_round (index : nat) (value : F) (right : list F) : sc_result F (F * F * F) :=
  let pair_start := (2 * Nat.div2 index)%nat in
  right_zero ← ok_or (right !! pair_start) ScErr.FoldingShape;
  right_one ← ok_or (right !! (pair_start + 1)%nat) ScErr.FoldingShape;
  let at_point point :=
    (if Nat.even index then value * (f1 - point) else value * point) * (right_zero + point * (right_one - right_zero)) in
  Ok (at_point (from_u64 0), at_point (from_u64 1), at_point (from_u64 2)).
Fixpoint sparse_rounds (entries : list (nat * F)) (right : list F) : sc_result F (F * F * F) :=
  match entries with
  | [] => Ok message_zero
  | (index, value) :: entries =>
      message ← sparse_entry_round index value right;
      rest ← sparse_rounds entries right;
      Ok (message_add message rest)
  end.
Definition sparse_round (s : SparseTable) (right : list F) : sc_result F (F * F * F) :=
  _ ← validate_right s right;
  if (sparse_length s =? 1)%nat then Err ScErr.FoldingShape else sparse_rounds (sparse_entries s) right.

Definition sparse_fold (s : SparseTable) (challenge : F) : sc_result F SparseTable :=
  if (sparse_length s <=? 1)%nat || negb (is_power_of_two (Z.of_nat (sparse_length s))) then Err ScErr.FoldingShape
  else
    let folded := map (λ '(index, value),
      (Nat.div2 index, (if Nat.even index then f1 - challenge else challenge) * value)) (sparse_entries s) in
    Ok (MkSparse (merge_sorted folded) (Nat.div2 (sparse_length s))).

Definition sparse_final_value (s : SparseTable) : sc_result F F :=
  if negb (sparse_length s =? 1)%nat then Err ScErr.FoldingShape
  else match sparse_entries s with
       | [] => Ok f0
       | [(O, value)] => Ok value
       | _ => Err ScErr.FoldingShape
       end.

Fixpoint sparse_prove_loop (backend : NativeProverBackendState F) (fuel : nat) (left : SparseTable) (right : list F)
    (rounds : list (F * F * F)) (claim : F) (point : list F) (t : transcript) :
    sc_result F (ProductSumcheckProof F * F * list F * transcript) :=
  if (sparse_length left <=? 1)%nat then
    left ← sparse_final_value left; finish_product_sumcheck [left] right rounds claim point t
  else
    match fuel with
    | O => Err ScErr.FoldingShape
    | S fuel =>
        message ← sparse_round left right;
        let t := absorb_round t PRODUCT_LABEL (length rounds) (message_list message) in
        let '(challenge, t) := challenge_scalar t CHALLENGE_LABEL in
        left ← sparse_fold left challenge;
        right ← fold_table backend right challenge;
        sparse_prove_loop backend fuel left right (rounds ++ [message]) claim (point ++ [challenge]) t
    end.

(** [ProductSumcheckProof::prove_sparse_left] *)
Definition prove_sparse_left (left_entries : list (nat * F)) (logical_length : nat) (right : list F)
    (backend : NativeProverBackendState F) (t : transcript) :
    sc_result F (ProductSumcheckProof F * F * list F * transcript) :=
  left ← sparse_new left_entries logical_length;
  if negb (length right =? logical_length)%nat then Err ScErr.LengthMismatch
  else
    claim ← sparse_inner_product left right;
    _ ← variable_count logical_length;
    if (logical_length =? 1)%nat then
      left ← sparse_final_value left; finish_product_sumcheck [left] right [] claim [] t
    else
      message ← sparse_round left right;
      let t := absorb_round t PRODUCT_LABEL 0 (message_list message) in
      let '(challenge, t) := challenge_scalar t CHALLENGE_LABEL in
      left ← sparse_fold left challenge;
      right ← fold_borrowed backend right challenge;
      sparse_prove_loop backend (sparse_length left) left right [message] claim [challenge] t.
End sumcheck.
