(* ===== verification/SumProducts.v ===== *)
(** * Sums of products sharing a factor (crates/zksm83-jolt/src/{sumcheck,sumcheck/rounds,sumcheck/factor}.rs)

    The compact factors of the first round, the folded factors of the later ones, and the prover and verifier
    of a sum of products of equally shaped tables whose first factor is shared. *)
From S2P Require Import Prelude Image Field Fold Sumcheck.

(** A table by its address in memory and its contents. *)
Inductive FactorSource (F : Type) :=
| Borrowed (address : Z) (values : list F)
| Shared (address : Z) (values : list F).
Arguments Borrowed {F}.
Arguments Shared {F}.

Inductive SumcheckFactor (F : Type) :=
| Values (source : FactorSource F)
| Affine (source : FactorSource F) (scale offset : F)
| Constant (value : F) (len : nat)
| LinearCombination (sources : list (FactorSource F * F)) (index_scale offset : F) (len : nat).
Arguments Values {F}.
Arguments Affine {F}.
Arguments Constant {F}.
Arguments LinearCombination {F}.

Inductive FoldedFactor (F : Type) :=
| FoldedTable (values : list F)
| FoldedConstant (value : F) (len : nat).
Arguments FoldedTable {F}.
Arguments FoldedConstant {F}.

(** The trait [SumcheckTable]. *)
Class SumcheckTable (F T : Type) `{CudaFolder F} := {
  table_len : T → nat;
  table_value : T → nat → sc_result F F
}.

Section factors.
Context {F : Type} `{!FieldOps F, !EqDecision F, !CudaFolder F, !Transcript F}.
Local Open Scope field_scope.

Definition source_values (s : FactorSource F) : list F :=
  match s with Borrowed _ values => values | Shared _ values => values end.
Definition source_address (s : FactorSource F) : Z :=
  match s with Borrowed address _ => address | Shared address _ => address end.

(** The constructors of [SumcheckFactor]. *)
Definition factor_borrowed (address : Z) (values : list F) : SumcheckFactor F := Values (Borrowed address values).
Definition factor_shared (address : Z) (values : list F) : SumcheckFactor F := Values (Shared address values).
Definition factor_scaled (address : Z) (values : list F) (scale : F) : SumcheckFactor F :=
  Affine (Borrowed address values) scale f0.
Definition factor_affine (address : Z) (values : list F) (scale offset : F) : SumcheckFactor F :=
  Affine (Borrowed address values) scale offset.
Definition linear_combination (sources : list (Z * list F * F)) (index_scale offset : F) (len : nat) :
    SumcheckFactor F :=
  LinearCombination (map (λ '(address, values, scale), (Borrowed address values, scale)) sources)
    index_scale offset len.

(** [same_table] compares addresses, not contents. *)
Definition same_table (a b : SumcheckFactor F) : bool :=
  match a, b with
  | Values a, Values b =>
      (length (source_values a) =? length (source_values b))%nat && (source_address a =? source_address b)
  | _, _ => false
  end.

Definition value_at (values : list F) (index : nat) : sc_result F F := ok_or (values !! index) ScErr.FoldingShape.

Fixpoint combine_sources (sources : list (FactorSource F * F)) (index : nat) (value : F) : sc_result F F :=
  match sources with
  | [] => Ok value
  | (source, scale) :: sources =>
      entry ← value_at (source_values source) index;
      combine_sources sources index (value + scale * entry)
  end.
Definition factor_len (f : SumcheckFactor F) : nat :=
  match f with
  | Values source | Affine source _ _ => length (source_values source)
  | Constant _ len | LinearCombination _ _ _ len => len
  end.
Definition factor_value (f : SumcheckFactor F) (index : nat) : sc_result F F :=
  match f with
  | Values source => value_at (source_values source) index
  | Affine source scale offset => value ← value_at (source_values source) index; Ok (scale * value + offset)
  | Constant value len => if (len <=? index)%nat then Err ScErr.FoldingShape else Ok value
  | LinearCombination sources index_scale offset len =>
      if (len <=? index)%nat then Err ScErr.FoldingShape
      else combine_sources sources index (offset + index_scale * from_u64 (Z.of_nat index))
  end.
#[global] Instance factor_table : SumcheckTable F (SumcheckFactor F) :=
  {| table_len := factor_len; table_value := factor_value |}.

Definition folded_len (f : FoldedFactor F) : nat :=
  match f with FoldedTable values => length values | FoldedConstant _ len => len end.
Definition folded_value (f : FoldedFactor F) (index : nat) : sc_result F F :=
  match f with
  | FoldedTable values => value_at values index
  | FoldedConstant value len => if (len <=? index)%nat then Err ScErr.FoldingShape else Ok value
  end.
#[global] Instance folded_table : SumcheckTable F (FoldedFactor F) :=
  {| table_len := folded_len; table_value := folded_value |}.

(** [collect::<Result<_, _>>] *)
Fixpoint collect {A} (l : list (sc_result F A)) : sc_result F (list A) :=
  match l with
  | [] => Ok []
  | r :: l => a ← r; rest ← collect l; Ok (a :: rest)
  end.

(** [SumcheckFactor::fold] *)
Definition odd_or_small (len : nat) : bool := (len <? 2)%nat || Nat.odd len.
Definition factor_fold (f : SumcheckFactor F) (challenge : F) : sc_result F (FoldedFactor F) :=
  match f with
  | Constant value len =>
      if odd_or_small len then Err ScErr.FoldingShape else Ok (FoldedConstant value (Nat.div2 len))
  | factor =>
      let len := factor_len factor in
      if odd_or_small len then Err ScErr.FoldingShape
      else
        values ← collect (map (λ pair,
          low ← factor_value factor (2 * pair);
          high ← factor_value factor (2 * pair + 1);
          Ok (low + challenge * (high - low))) (seq 0 (Nat.div2 len)));
        Ok (FoldedTable values)
  end.
(** [FoldedFactor::fold] *)
Definition folded_fold (backend : NativeProverBackendState F) (f : FoldedFactor F) (challenge : F) :
    sc_result F (FoldedFactor F) :=
  match f with
  | FoldedTable values => values ← fold_table backend values challenge; Ok (FoldedTable values)
  | FoldedConstant value len =>
      if odd_or_small len then Err ScErr.FoldingShape else Ok (FoldedConstant value (Nat.div2 len))
  end.
Definition fold_initial_factors (factors : list (SumcheckFactor F)) (challenge : F) :
    sc_result F (list (FoldedFactor F)) := collect (map (λ factor, factor_fold factor challenge) factors).
Definition fold_initial_terms (terms : list (list (SumcheckFactor F))) (challenge : F) :
    sc_result F (list (list (FoldedFactor F))) := collect (map (λ term, fold_initial_factors term challenge) terms).
Definition fold_terms (backend : NativeProverBackendState F) (terms : list (list (FoldedFactor F))) (challenge : F) :
    sc_result F (list (list (FoldedFactor F))) :=
  collect (map (λ term, collect (map (λ factor, folded_fold backend factor challenge) term)) terms).

(** ** Rounds over any table *)

Section tables.
Context {T : Type} `{!SumcheckTable F T}.

Definition validate_terms (terms : list (list T)) : sc_result F (nat * nat * nat) :=
  first_term ← ok_or (head terms) ScErr.EmptyFactors;
  first_factor ← ok_or (head first_term) ScErr.EmptyFactors;
  if (table_len first_factor =? 0)%nat || negb (is_power_of_two (Z.of_nat (table_len first_factor))) then
    Err ScErr.NonPowerOfTwo
  else
    let factor_count := length first_term in
    let len := table_len first_factor in
    if existsb (λ term, negb (length term =? factor_count)%nat ||
                        existsb (λ factor, negb (table_len factor =? len)%nat) term) terms then
      Err ScErr.LengthMismatch
    else Ok (length terms, factor_count, len).

(** [product_at] *)
Fixpoint product_at (factors : list T) (index : nat) (product : F) : sc_result F F :=
  match factors with
  | [] => Ok product
  | factor :: factors => value ← table_value factor index; product_at factors index (product * value)
  end.
Fixpoint term_sum_at (terms : list (list T)) (index : nat) (sum : F) : sc_result F F :=
  match terms with
  | [] => Ok sum
  | factors :: terms => product ← product_at factors index f1; term_sum_at terms index (sum + product)
  end.
Fixpoint shared_sum_loop (shared : T) (terms : list (list T)) (n index : nat) (sum : F) : sc_result F F :=
  match n with
  | O => Ok sum
  | S n =>
      term_sum ← term_sum_at terms index f0;
      value ← table_value shared index;
      shared_sum_loop shared terms n (S index) (sum + value * term_sum)
  end.
Definition shared_sum_of_term_products (shared : T) (terms : list (list T)) : sc_result F F :=
  '(_, _, len) ← validate_terms terms;
  if negb (table_len shared =? len)%nat then Err ScErr.LengthMismatch
  else shared_sum_loop shared terms len 0 f0.

(** The factor's line through one pair, at every interpolation point: the first two are its end points. *)
Definition line_at (zero one : F) (index : nat) (point : F) : F :=
  match index with O => zero | 1%nat => one | _ => zero + point * (one - zero) end.
(** The product accumulators after multiplying in every factor of a term. *)
Fixpoint accumulate_products (factors : list T) (pair_start : nat) (points products : list F) : sc_result F (list F) :=
  match factors with
  | [] => Ok products
  | factor :: factors =>
      zero ← table_value factor pair_start;
      one ← table_value factor (pair_start + 1);
      accumulate_products factors pair_start points
        (imap (λ index '(product, point), product * line_at zero one index point) (zip products points))
  end.
Fixpoint accumulate_terms (terms : list (list T)) (pair_start : nat) (shared_zero shared_one : F)
    (points evaluations : list F) : sc_result F (list F) :=
  match terms with
  | [] => Ok evaluations
  | factors :: terms =>
      products ← accumulate_products factors pair_start points (map (λ _, f1) evaluations);
      accumulate_terms terms pair_start shared_zero shared_one points
        (imap (λ index '(evaluation, product, point), evaluation + line_at shared_zero shared_one index point * product)
          (zip (zip evaluations products) points))
  end.
Definition accumulate_shared_pair (shared : T) (terms : list (list T)) (pair_index : nat) (points evaluations : list F) :
    sc_result F (list F) :=
  if negb (length points =? length evaluations)%nat || (length points <? 2)%nat then Err ScErr.ProofShape
  else
    let pair_start := (2 * pair_index)%nat in
    shared_zero ← table_value shared pair_start;
    shared_one ← table_value shared (pair_start + 1);
    accumulate_terms terms pair_start shared_zero shared_one points evaluations.
Fixpoint shared_round_loop (shared : T) (terms : list (list T)) (n pair_index : nat) (points evaluations : list F) :
    sc_result F (list F) :=
  match n with
  | O => Ok evaluations
  | S n =>
      evaluations ← accumulate_shared_pair shared terms pair_index points evaluations;
      shared_round_loop shared terms n (S pair_index) points evaluations
  end.
Definition interpolation_points (count : nat) : list F := map usize_to_field (seq 0 count).
Definition shared_sum_product_round (shared : T) (terms : list (list T)) : sc_result F (list F) :=
  '(_, factor_count, len) ← validate_terms terms;
  if negb (table_len shared =? len)%nat then Err ScErr.LengthMismatch
  else if (len =? 1)%nat then Err ScErr.FoldingShape
  else
    let evaluation_count := (factor_count + 2)%nat in
    shared_round_loop shared terms (Nat.div2 len) 0 (interpolation_points evaluation_count)
      (replicate evaluation_count f0).

(** [finish_shared_sum_of_products] *)
Definition term_finals (shared_value : F) (term : list T) : sc_result F (list F) :=
  values ← collect (map (λ factor, table_value factor 0) term); Ok (shared_value :: values).
Definition finish_shared_sum_of_products (shared : T) (terms : list (list T)) (rounds : list (list F)) (claim : F)
    (point : list F) (t : transcript) : sc_result F (SumOfProductsSumcheckProof F * F * list F * transcript) :=
  shared_value ← table_value shared 0;
  final_terms ← collect (map (term_finals shared_value) terms);
  let t := absorb_term_finals t final_terms in
  Ok (MkSumProof rounds final_terms, claim, point, t).
End tables.

Definition SUM_LABEL : string := "sum-of-products-sumcheck".
Definition SUM_CHALLENGE_LABEL : string := "sum-of-products-sumcheck-challenge".

(** ** The prover *)

Definition split_term (shared : SumcheckFactor F) (term : list (SumcheckFactor F)) : sc_result F (list (SumcheckFactor F)) :=
  match term with
  | [] => Err ScErr.EmptyFactors
  | candidate :: factors => if negb (same_table shared candidate) then Err ScErr.LengthMismatch else Ok factors
  end.
Definition split_shared_first (terms : list (list (SumcheckFactor F))) :
    sc_result F (SumcheckFactor F * list (list (SumcheckFactor F))) :=
  match terms with
  | [] => Err ScErr.EmptyFactors
  | [] :: _ => Err ScErr.EmptyFactors
  | (shared :: first) :: terms =>
      stripped ← collect (map (split_term shared) terms); Ok (shared, first :: stripped)
  end.

(** [while current_len > 1], with the current length as fuel. *)
Fixpoint shared_prove_loop (backend : NativeProverBackendState F) (fuel : nat) (shared : FoldedFactor F)
    (terms : list (list (FoldedFactor F))) (current_len : nat) (rounds : list (list F)) (claim : F) (point : list F)
    (t : transcript) : sc_result F (SumOfProductsSumcheckProof F * F * list F * transcript) :=
  if (current_len <=? 1)%nat then finish_shared_sum_of_products shared terms rounds claim point t
  else
    match fuel with
    | O => Err ScErr.FoldingShape
    | S fuel =>
        message ← shared_sum_product_round shared terms;
        let t := absorb_round t SUM_LABEL (length rounds) message in
        let '(challenge, t) := challenge_scalar t SUM_CHALLENGE_LABEL in
        shared ← folded_fold backend shared challenge;
        terms ← fold_terms backend terms challenge;
        shared_prove_loop backend fuel shared terms (Nat.div2 current_len) (rounds ++ [message]) claim
          (point ++ [challenge]) t
    end.
Definition prove_shared_first (terms : list (list (SumcheckFactor F))) (backend : NativeProverBackendState F)
    (t : transcript) : sc_result F (SumOfProductsSumcheckProof F * F * list F * transcript) :=
  '(shared, terms) ← split_shared_first terms;
  '(_, _, current_len) ← validate_terms terms;
  if negb (table_len shared =? current_len)%nat then Err ScErr.LengthMismatch
  else
    claim ← shared_sum_of_term_products shared terms;
    _ ← variable_count current_len;
    if (current_len =? 1)%nat then finish_shared_sum_of_products shared terms [] claim [] t
    else
      message ← shared_sum_product_round shared terms;
      let t := absorb_round t SUM_LABEL 0 message in
      let '(challenge, t) := challenge_scalar t SUM_CHALLENGE_LABEL in
      shared ← factor_fold shared challenge;
      terms ← fold_initial_terms terms challenge;
      shared_prove_loop backend current_len shared terms (Nat.div2 current_len) [message] claim [challenge] t.

(** ** The verifier *)

Definition validate_shape (proof : SumOfProductsSumcheckProof F) (rounds terms factors : nat) : sc_result F () :=
  if negb (length (sp_rounds proof) =? rounds)%nat || negb (length (final_terms proof) =? terms)%nat ||
     existsb (λ term, negb (length term =? factors)%nat) (final_terms proof) ||
     existsb (λ round, negb (length round =? factors + 1)%nat) (sp_rounds proof)
  then Err ScErr.ProofShape else Ok ().

Definition terminal_term_sum (terms : list (list F)) : F :=
  foldl (λ sum term, sum + foldl fmul f1 term) f0 terms.

Fixpoint sum_verify_rounds (rounds : list (list F)) (round_index : nat) (claim : F) (point : list F) (t : transcript) :
    sc_result F (F * list F * transcript) :=
  match rounds with
  | [] => Ok (claim, point, t)
  | message :: rounds =>
      at_zero ← ok_or (head message) ScErr.ProofShape;
      at_one ← ok_or (message !! 1%nat) ScErr.ProofShape;
      if negb (bool_decide (at_zero + at_one = claim)) then Err ScErr.RoundClaimMismatch
      else
        let t := absorb_round t SUM_LABEL round_index message in
        let '(challenge, t) := challenge_scalar t SUM_CHALLENGE_LABEL in
        claim ← evaluate_lagrange message challenge;
        sum_verify_rounds rounds (S round_index) claim (point ++ [challenge]) t
  end.
Definition sum_verify (proof : SumOfProductsSumcheckProof F) (initial_claim : F)
    (expected_rounds expected_terms expected_factors : nat) (t : transcript) : sc_result F (list F * transcript) :=
  _ ← validate_shape proof expected_rounds expected_terms expected_factors;
  '(claim, point, t) ← sum_verify_rounds (sp_rounds proof) 0 initial_claim [] t;
  if negb (bool_decide (claim = terminal_term_sum (final_terms proof))) then Err ScErr.FinalClaimMismatch
  else Ok (point, absorb_term_finals t (final_terms proof)).
End factors.
