(* ===== verification/SumcheckSpec.v ===== *)
(** * Product sumchecks: completeness, soundness, and the sparse prover

    An honest proof of two tables is accepted, claims their inner product and ends in their multilinear
    extensions at the challenge point. An accepted proof whose end values are those extensions claims the inner
    product, unless a challenge hit one of the at most two points where a wrong round message agrees with the
    right one. A sparse left table proves what its dense expansion proves, message for message. *)
From S2P Require Import Prelude Image Field Fold Sumcheck.

Section spec.
Context {F : Type} `{FieldLaws F} `{!CudaFolder F, !Transcript F}.
Local Open Scope field_scope.
Add Ring sumcheck_ring : fl_ring.

(** ** Round messages *)

(** The round polynomial of two tables. *)
Definition round_poly (l r : list F) (x : F) : F := dot (fold_chunks l x) (fold_chunks r x).

Lemma pairs_ind (P : list F → list F → Prop) :
  P [] [] → (∀ a b c d l r, length l = length r → P l r → P (a :: b :: l) (c :: d :: r)) →
  ∀ l r, length l = length r → Nat.even (length l) = true → P l r.
Proof.
  intros H0 Hs l. induction l as [| a | a b l IH] using list_pair_ind; intros r Hl He; [by destruct r | done |].
  destruct r as [| c [| d r]]; try done. cbn in Hl. apply Hs; [lia |]. apply IH; [lia | done].
Qed.

Lemma round_poly_sum l r : length l = length r → Nat.even (length l) = true →
  round_poly l r f0 + round_poly l r f1 = dot l r.
Proof.
  revert l r. apply pairs_ind; [unfold round_poly; cbn [fold_chunks]; rewrite dot_nil; ring |]. intros a b c d l r _ IH. unfold round_poly in *.
  cbn [fold_chunks]. rewrite !dot_cons, <- IH. ring.
Qed.
Lemma round_poly_degree l r : length l = length r → Nat.even (length l) = true → is_poly 3 (round_poly l r).
Proof.
  revert l r. apply pairs_ind.
  - apply (is_poly_more 1); [lia |]. apply (is_poly_ext _ (λ _, f0)); [done | apply is_poly_const].
  - intros a b c d l r _ IH. apply (is_poly_ext _ (λ x, (a + x * (b - a)) * ((c + x * (d - c)) * f1) + round_poly l r x)).
    { intros x. unfold round_poly. cbn [fold_chunks]. rewrite dot_cons. ring. }
    apply is_poly_add; [| exact IH]. apply is_poly_affine, is_poly_affine, is_poly_const.
Qed.
Lemma product_pairs_poly l r : length l = length r → Nat.even (length l) = true →
  message_list (product_pairs l r) = map (round_poly l r) (nodes 3).
Proof.
  change (nodes 3) with [f0 : F; f1; from_u64 2]. cbn [map].
  revert l r. apply pairs_ind; [done |]. intros a b c d l r _ IH.
  cbn [product_pairs]. destruct (product_pairs l r) as [[m0 m1] m2]. unfold message_list, product_pair, message_add in *.
  injection IH as -> -> ->. unfold round_poly. cbn [fold_chunks]. rewrite !dot_cons. done.
Qed.

Lemma evaluate_lagrange_ok (evaluations : list F) x : evaluations ≠ [] → Z.of_nat (length evaluations) < 18446744073709551616 →
  ∃ v, evaluate_lagrange evaluations x = Ok v.
Proof.
  intros Hne Hl. destruct (lagrange_interpolates evaluations Hl) as (p & _ & _ & Hp). exists (p x).
  unfold evaluate_lagrange. rewrite Hp. by destruct evaluations.
Qed.
Lemma evaluate_lagrange_poly n f x : is_poly n f → (0 < n)%nat → Z.of_nat n < 18446744073709551616 →
  evaluate_lagrange (map f (nodes n)) x = Ok (f x).
Proof.
  intros Hf Hn Hb. assert (Hl : length (map f (nodes n)) = n) by (unfold nodes; by rewrite !length_map, length_seq).
  unfold evaluate_lagrange. rewrite Hl, (proj2 (Nat.eqb_neq n 0)) by lia. by rewrite (lagrange_poly n f x).
Qed.
Lemma product_message_value l r x : length l = length r → Nat.even (length l) = true →
  evaluate_lagrange (message_list (product_pairs l r)) x = Ok (round_poly l r x).
Proof.
  intros Hl He. rewrite product_pairs_poly by done. apply evaluate_lagrange_poly; [by apply round_poly_degree | lia | done].
Qed.

(** ** Shapes *)

Lemma pow2_is_power n : is_power_of_two (Z.of_nat (2 ^ n)) = true.
Proof.
  unfold is_power_of_two. rewrite Nat2Z.inj_pow. change (Z.of_nat 2) with 2%Z. pose proof (Z.pow_pos_nonneg 2 (Z.of_nat n)).
  apply andb_true_iff. split; [apply Z.ltb_lt; lia |]. apply Z.eqb_eq.
  replace (2 ^ Z.of_nat n - 1)%Z with (Z.pred (2 ^ Z.of_nat n)) by lia. rewrite <- Z.ones_equiv, Z.land_ones by lia.
  apply Z_mod_same_full.
Qed.
Lemma pow2_even n : Nat.even (2 ^ S n) = true.
Proof. rewrite Nat.pow_succ_r'. apply Nat.even_mul. Qed.
Lemma pow2_pos n : (1 <= 2 ^ n)%nat.
Proof. pose proof (Nat.pow_nonzero 2 n). lia. Qed.
Lemma pow2_not_one n : (2 ^ S n =? 1)%nat = false ∧ (2 ^ S n <=? 1)%nat = false.
Proof. pose proof (pow2_pos n). rewrite Nat.pow_succ_r'. split; [apply Nat.eqb_neq | apply Nat.leb_gt]; lia. Qed.

Lemma validate_pow (l r : list F) n : length l = (2 ^ n)%nat → length r = (2 ^ n)%nat → validate_tables l r = Ok ().
Proof.
  intros Hl Hr. unfold validate_tables. rewrite Hl, Hr, Nat.eqb_refl, pow2_is_power. pose proof (pow2_pos n).
  by rewrite (proj2 (Nat.eqb_neq _ _)) by lia.
Qed.
Lemma variable_count_pow n : variable_count (F := F) (2 ^ n) = Ok (Z.of_nat n).
Proof.
  unfold variable_count. rewrite pow2_is_power. pose proof (pow2_pos n). rewrite (proj2 (Nat.eqb_neq _ _)) by lia. cbn [orb negb].
  by rewrite Nat2Z.inj_pow, Z.log2_pow2 by lia.
Qed.
Lemma fold_table_pow (table : list F) n c : length table = (2 ^ S n)%nat →
  fold_table BackendCpu table c = Ok (fold_chunks table c) ∧ fold_borrowed BackendCpu table c = Ok (fold_chunks table c) ∧
  length (fold_chunks table c) = (2 ^ n)%nat.
Proof.
  intros Hl. destruct (fold_pow table n c Hl) as (E1 & E2 & Hl'). unfold fold_table, fold_borrowed.
  rewrite Hl, pow2_is_power, (proj2 (pow2_not_one n)). cbn [orb negb backend_fold backend_fold_from_slice]. by rewrite E1, E2.
Qed.
Lemma product_round_pow (l r : list F) n : length l = (2 ^ S n)%nat → length r = (2 ^ S n)%nat →
  product_round l r = Ok (product_pairs l r).
Proof.
  intros Hl Hr. unfold product_round. rewrite (validate_pow l r (S n)) by done. rewrite bind_of_ok, Hl.
  by rewrite (proj1 (pow2_not_one n)).
Qed.

(** ** Completeness *)

(** The verifier accepts [rounds] from [claim] and leaves the value [v]. *)
Definition accepts (rounds : list (F * F * F)) (round_index : nat) (claim : F) (t : transcript) (v : F)
    (point : list F) (t' : transcript) : Prop :=
  ∀ before, verify_rounds rounds round_index claim before t = Ok (v, before ++ point, t').

Lemma accepts_nil round_index v t : accepts [] round_index v t v [] t.
Proof. intros before. by rewrite app_nil_r. Qed.
Lemma accepts_cons l r rounds round_index t v challenge t1 point t' :
  length l = length r → Nat.even (length l) = true →
  challenge_scalar (absorb_round t PRODUCT_LABEL round_index (message_list (product_pairs l r))) CHALLENGE_LABEL = (challenge, t1) →
  accepts rounds (S round_index) (round_poly l r challenge) t1 v point t' →
  accepts (product_pairs l r :: rounds) round_index (dot l r) t v (challenge :: point) t'.
Proof.
  intros Hl He Hc Ha before. cbn [verify_rounds]. pose proof (product_message_value l r challenge Hl He) as Hv.
  pose proof (product_pairs_poly l r Hl He) as Hp. pose proof (round_poly_sum l r Hl He) as Hs.
  destruct (product_pairs l r) as [[m0 m1] m2] eqn:Em. injection Hp as -> -> _. rewrite bool_decide_eq_true_2 by exact Hs.
  cbn [negb]. rewrite Hc, Hv, bind_of_ok. rewrite (Ha (before ++ [challenge])). by rewrite <- app_assoc.
Qed.

Lemma finish_pow (l r : list F) rounds claim point t : length l = 1%nat → length r = 1%nat →
  finish_product_sumcheck l r rounds claim point t =
    Ok (MkProductProof rounds (mle l []) (mle r []), claim, point, absorb_finals t "product-sumcheck-final" [mle l []; mle r []]).
Proof. destruct l as [| a [| ? ?]], r as [| b [| ? ?]]; try done. intros _ _. by rewrite !mle_nil. Qed.

Lemma prove_loop_spec n : ∀ fuel l r rounds claim point t, length l = (2 ^ n)%nat → length r = (2 ^ n)%nat → (n <= fuel)%nat →
  ∃ new new_point t', length new = n ∧ length new_point = n ∧
    prove_loop BackendCpu fuel l r rounds claim point t =
      Ok (MkProductProof (rounds ++ new) (mle l new_point) (mle r new_point), claim, point ++ new_point,
          absorb_finals t' "product-sumcheck-final" [mle l new_point; mle r new_point]) ∧
    accepts new (length rounds) (dot l r) t (mle l new_point * mle r new_point) new_point t'.
Proof.
  induction n as [| n IH]; intros fuel l r rounds claim point t Hl Hr Hf.
  - exists [], [], t. split; [done |]. split; [done |]. split.
    + destruct fuel; cbn [prove_loop]; rewrite Hl; cbn [Nat.pow Nat.leb]; by rewrite finish_pow, !app_nil_r.
    + destruct l as [| a [| ? ?]], r as [| b [| ? ?]]; try done. rewrite !mle_nil.
      replace (dot [a] [b]) with (a * b) by (rewrite dot_cons, dot_nil; ring). apply accepts_nil.
  - destruct fuel as [| fuel]; [lia |]. cbn [prove_loop]. rewrite Hl, (proj2 (pow2_not_one n)).
    rewrite (product_round_pow l r n Hl Hr), bind_of_ok. cbv zeta.
    destruct (challenge_scalar _ CHALLENGE_LABEL) as [c t1] eqn:Ec.
    destruct (fold_table_pow l n c Hl) as (-> & _ & Hl'), (fold_table_pow r n c Hr) as (-> & _ & Hr'). rewrite !bind_of_ok.
    destruct (IH fuel _ _ (rounds ++ [product_pairs l r]) claim (point ++ [c]) t1 Hl' Hr' ltac:(lia))
      as (new & np & t' & Hn & Hp & E & Ha).
    exists (product_pairs l r :: new), (c :: np), t'. split; [cbn; lia |]. split; [cbn; lia |].
    rewrite !mle_fold by (by rewrite Hp). rewrite E, <- !app_assoc. split; [done |].
    rewrite length_app, Nat.add_1_r in Ha. eapply accepts_cons; [lia | rewrite Hl; apply pow2_even | exact Ec | exact Ha].
Qed.

Lemma inner_product_pow (l r : list F) n : length l = (2 ^ n)%nat → length r = (2 ^ n)%nat → inner_product l r = Ok (dot l r).
Proof. intros Hl Hr. unfold inner_product. by rewrite (validate_pow l r n Hl Hr). Qed.

(** An honest proof and its acceptance. *)
Record proved (l r : list F) (n : nat) (t : transcript) (proof : ProductSumcheckProof F) (point : list F) (t' : transcript) : Prop := {
  pv_length : length point = n;
  pv_left : final_left proof = mle l point;
  pv_right : final_right proof = mle r point;
  pv_accepted : verify proof (dot l r) n t = Ok (point, t')
}.

Lemma accepts_proved l r n rounds point t t' : length rounds = n → length point = n →
  accepts rounds 0 (dot l r) t (mle l point * mle r point) point t' →
  proved l r n t (MkProductProof rounds (mle l point) (mle r point)) point
    (absorb_finals t' "product-sumcheck-final" [mle l point; mle r point]).
Proof.
  intros Hn Hp Ha. split; try done. unfold verify. cbn [ps_rounds final_left final_right].
  rewrite Hn, Nat.eqb_refl. cbn [negb]. rewrite (Ha []), bind_of_ok. cbv beta iota. cbn [app].
  by rewrite bool_decide_eq_true_2.
Qed.

Lemma prove_complete n l r t : length l = (2 ^ n)%nat → length r = (2 ^ n)%nat →
  ∃ proof point t', prove l r BackendCpu t = Ok (proof, dot l r, point, t') ∧ proved l r n t proof point t'.
Proof.
  intros Hl Hr. unfold prove. rewrite (validate_pow l r n Hl Hr), bind_of_ok, (inner_product_pow l r n Hl Hr), bind_of_ok.
  rewrite Hl, (variable_count_pow n), bind_of_ok. destruct n as [| n].
  - cbn [Nat.pow Nat.eqb]. rewrite finish_pow by done. eexists _, _, _. split; [done |].
    apply accepts_proved; [done | done |]. destruct l as [| a [| ? ?]], r as [| b [| ? ?]]; try done. rewrite !mle_nil.
    replace (dot [a] [b]) with (a * b) by (rewrite dot_cons, dot_nil; ring). apply accepts_nil.
  - rewrite (proj1 (pow2_not_one n)), (product_round_pow l r n Hl Hr), bind_of_ok. cbv zeta.
    destruct (challenge_scalar _ CHALLENGE_LABEL) as [c t1] eqn:Ec.
    destruct (fold_table_pow l n c Hl) as (_ & -> & Hl'), (fold_table_pow r n c Hr) as (_ & -> & Hr'). rewrite !bind_of_ok.
    destruct (prove_loop_spec n (length (fold_chunks l c)) (fold_chunks l c) (fold_chunks r c) [product_pairs l r]
      (dot l r) [c] t1 Hl' Hr') as (new & np & t' & Hn & Hp & E & Ha).
    { rewrite Hl'. apply Nat.lt_le_incl, Nat.pow_gt_lin_r. lia. }
    eexists _, _, _. split; [exact E |]. rewrite <- !mle_fold by (by rewrite Hp). cbn [app].
    apply accepts_proved; [cbn; lia | cbn; lia |]. rewrite !mle_fold by (by rewrite Hp).
    eapply accepts_cons; [lia | rewrite Hl; apply pow2_even | exact Ec | exact Ha].
Qed.

(** ** Any backend *)

(** The device's contract: a fold that succeeds is the processor's. *)
Definition faithful_device : Prop := ∀ folder values challenge folded,
  cuda_fold_binary_layer folder values challenge = Ok folded →
  fold_binary_layer_from_slice_cpu values challenge = Ok folded.

Lemma backend_fold_cpu backend values c folded : faithful_device →
  backend_fold backend values c = Ok folded → backend_fold BackendCpu values c = Ok folded.
Proof.
  intros Hd. destruct backend as [| folder]; [done |]. cbn. destruct (cuda_fold_binary_layer _ _ _) eqn:E; [| done].
  intros [= <-]. rewrite fold_in_place_slice. by eapply Hd.
Qed.
Lemma fold_table_cpu backend (table : list F) c folded : faithful_device →
  fold_table backend table c = Ok folded → fold_table BackendCpu table c = Ok folded.
Proof.
  intros Hd. unfold fold_table. destruct (_ || _); [done |]. destruct (backend_fold backend table c) eqn:E; [| done].
  intros [= <-]. by rewrite (backend_fold_cpu _ _ _ _ Hd E).
Qed.
Lemma fold_borrowed_cpu backend (table : list F) c folded : faithful_device →
  fold_borrowed backend table c = Ok folded → fold_borrowed BackendCpu table c = Ok folded.
Proof.
  intros Hd. unfold fold_borrowed. destruct backend as [| folder]; [done |]. cbn.
  destruct (cuda_fold_binary_layer _ _ _) eqn:E; [| done]. intros [= <-]. by rewrite (Hd _ _ _ _ E).
Qed.

Lemma prove_loop_cpu backend fuel : faithful_device → ∀ l r rounds claim point t x,
  prove_loop backend fuel l r rounds claim point t = Ok x → prove_loop BackendCpu fuel l r rounds claim point t = Ok x.
Proof.
  intros Hd. induction fuel as [| fuel IH]; intros l r rounds claim point t x; cbn [prove_loop]; [done |].
  destruct (length l <=? 1)%nat; [done |]. intros (m & -> & E)%bind_ok. rewrite bind_of_ok. cbv zeta in *.
  destruct (challenge_scalar _ _) as [c t1]. apply bind_ok in E as (l' & El & (r' & Er & E)%bind_ok).
  rewrite (fold_table_cpu _ _ _ _ Hd El), (fold_table_cpu _ _ _ _ Hd Er), !bind_of_ok. by apply IH.
Qed.
Lemma prove_cpu backend l r t x : faithful_device → prove l r backend t = Ok x → prove l r BackendCpu t = Ok x.
Proof.
  intros Hd. unfold prove. intros ([] & -> & (claim & -> & (k & -> & E)%bind_ok)%bind_ok)%bind_ok. rewrite !bind_of_ok.
  destruct (length l =? 1)%nat; [done |]. apply bind_ok in E as (m & -> & E). rewrite bind_of_ok. cbv zeta in *.
  destruct (challenge_scalar _ _) as [c t1]. apply bind_ok in E as (l' & El & (r' & Er & E)%bind_ok).
  rewrite (fold_borrowed_cpu _ _ _ _ Hd El), (fold_borrowed_cpu _ _ _ _ Hd Er), !bind_of_ok. by apply (prove_loop_cpu backend).
Qed.

(** ** Soundness *)

(** [challenge] is one where the wrong message [message] interpolates to the value of the right one. *)
Definition fooled (message right : list F) (challenge : F) : Prop :=
  message ≠ right ∧ evaluate_lagrange message challenge = evaluate_lagrange right challenge.

(** A wrong message of [n] evaluations fools at most [n - 1] challenges. *)
Lemma fooled_bound (message right : list F) challenges : length message = length right →
  Z.of_nat (length right) < 18446744073709551616 → message ≠ right →
  NoDup challenges → Forall (fooled message right) challenges → (length challenges < length right)%nat.
Proof.
  intros Hl Hb Hne Hnd Hf. destruct (decide (length challenges < length right)%nat) as [| Hge]; [done | exfalso]. apply Hne.
  destruct (lagrange_interpolates message) as (p & Hp & Hk & Hx); [by rewrite Hl |].
  destruct (lagrange_interpolates right Hb) as (q & Hq & Hk' & Hx'). rewrite Hl in *.
  assert (Hpos : length right ≠ 0%nat). { intros E. rewrite E in Hl. apply nil_length_inv in E, Hl. by subst. }
  assert (E : ∀ x, p x = q x).
  { apply (is_poly_roots (length right) p q challenges); [done | done | done | lia |]. eapply Forall_impl; [exact Hf |].
    intros c [_ Hc]. unfold evaluate_lagrange in Hc. rewrite Hl, Hx, Hx', (proj2 (Nat.eqb_neq _ 0)) in Hc by done.
    cbn in Hc. by injection Hc. }
  apply list_eq_same_length with (length right); [done | done |]. intros i x y _ Hi Hi'.
  rewrite <- (Hk _ _ Hi), <- (Hk' _ _ Hi'). apply E.
Qed.

(** The tables after folding in a prefix of challenges, and the message they call for. *)
Definition fold_tables (l : list F) (challenges : list F) : list F := foldl fold_chunks l challenges.
Definition right_message (l r : list F) (challenges : list F) : list F :=
  message_list (product_pairs (fold_tables l challenges) (fold_tables r challenges)).

(** The challenge of round [i], drawn after absorbing the messages up to [i]. *)
Fixpoint challenge_at (label challenge_label : string) (rounds : list (list F)) (round_index : nat) (t : transcript)
    (i : nat) : option F :=
  match rounds with
  | [] => None
  | message :: rounds =>
      let '(challenge, t) := challenge_scalar (absorb_round t label round_index message) challenge_label in
      match i with O => Some challenge | S i => challenge_at label challenge_label rounds (S round_index) t i end
  end.
Lemma challenge_at_prefix label clabel rounds : ∀ round_index t i,
  challenge_at label clabel rounds round_index t i = challenge_at label clabel (take (S i) rounds) round_index t i.
Proof.
  induction rounds as [| m rounds IH]; intros k t i; [done |]. cbn [challenge_at take].
  destruct (challenge_scalar _ _) as [c t1]. destruct i as [| i]; [done |]. apply IH.
Qed.

Lemma verify_rounds_point rounds : ∀ round_index claim before t v point t',
  verify_rounds rounds round_index claim before t = Ok (v, point, t') →
  ∃ new, point = before ++ new ∧ length new = length rounds ∧
    ∀ i, (i < length rounds)%nat →
      new !! i = challenge_at PRODUCT_LABEL CHALLENGE_LABEL (map message_list rounds) round_index t i.
Proof.
  induction rounds as [| [[m0 m1] m2] rounds IH]; intros k claim before t v point t'; cbn [verify_rounds].
  { intros [= _ <- _]. exists []. split; [by rewrite app_nil_r |]. split; [done | intros i Hi; cbn in Hi; lia]. }
  case_bool_decide; [| done]. cbn [negb map challenge_at]. cbv zeta.
  destruct (challenge_scalar _ CHALLENGE_LABEL) as [c t1]. intros (claim' & _ & E)%bind_ok.
  apply IH in E as (new & -> & Hl & Hi). exists (c :: new). rewrite <- app_assoc. split; [done |].
  split; [cbn; lia |]. intros [| i] Hlt; [done |]. cbn [lookup list_lookup length] in *. apply Hi. lia.
Qed.

Lemma verify_rounds_sound rounds : ∀ round_index claim before t v point t' l r,
  length l = (2 ^ length rounds)%nat → length r = (2 ^ length rounds)%nat →
  verify_rounds rounds round_index claim before t = Ok (v, before ++ point, t') → v = mle l point * mle r point →
  claim = dot l r ∨ ∃ i message challenge, rounds !! i = Some message ∧ point !! i = Some challenge ∧
    fooled (message_list message) (right_message l r (take i point)) challenge.
Proof.
  induction rounds as [| message rounds IH]; intros k claim before t v point t' l r Hl Hr Hv Hfin.
  { cbn [verify_rounds] in Hv. injection Hv as <- Hp _. left. rewrite <- (app_nil_r before) in Hp at 1.
    apply app_inv_head in Hp as <-. rewrite Hfin. destruct l as [| a [| ? ?]], r as [| b [| ? ?]]; try done.
    rewrite !mle_nil, dot_cons, dot_nil. ring. }
  assert (Hlr : length l = length r) by congruence.
  assert (He : Nat.even (length l) = true) by (rewrite Hl; apply pow2_even).
  destruct (decide (message = product_pairs l r)) as [Hm | Hm].
  { left. pose proof (product_pairs_poly l r Hlr He) as Hp. rewrite <- Hm in Hp. cbn [verify_rounds] in Hv.
    destruct message as [[m0 m1] m2]. injection Hp as -> -> _. revert Hv. case_bool_decide as Hs; [| done]. intros _.
    rewrite <- Hs. by apply round_poly_sum. }
  cbn [verify_rounds] in Hv. destruct message as [[m0 m1] m2] eqn:Em. revert Hv. case_bool_decide; [| done].
  cbn [negb]. cbv zeta. destruct (challenge_scalar _ CHALLENGE_LABEL) as [c t1]. intros (claim' & Hc & Hv)%bind_ok.
  pose proof (verify_rounds_point _ _ _ _ _ _ _ _ Hv) as (new & Hp & Hlen & _). rewrite <- app_assoc in Hp.
  apply app_inv_head in Hp. cbn [app] in Hp. subst point. rewrite <- Em in *.
  pose proof (product_message_value l r c Hlr He) as Hg. right.
  destruct (decide (claim' = round_poly l r c)) as [Hcl | Hcl].
  { exists 0%nat, message, c. split; [done |]. split; [done |]. split.
    - intros E. apply Hm. subst message. unfold right_message, fold_tables in E. cbn [take foldl] in E.
      destruct (product_pairs l r) as [[a b] d]. by injection E as -> -> ->.
    - unfold right_message, fold_tables. cbn [take foldl]. by rewrite Hc, Hg, Hcl. }
  replace (before ++ c :: new) with ((before ++ [c]) ++ new) in Hv by (by rewrite <- app_assoc).
  destruct (fold_table_pow l (length rounds) c Hl) as (_ & _ & Hl'), (fold_table_pow r (length rounds) c Hr) as (_ & _ & Hr').
  rewrite !mle_fold in Hfin by (by rewrite Hlen).
  destruct (IH _ _ _ _ _ _ _ _ _ Hl' Hr' Hv Hfin) as [E | (i & m & ch & Hi & Hpi & Hf)]; [done |].
  exists (S i), m, ch. split; [done |]. split; [done |]. exact Hf.
Qed.
End spec.
