(* ===== verification/SparseSpec.v ===== *)
(** * The sparse prover

    A list of indexed entries stands for the table that adds up the entries of each index. Normalisation, the
    inner product, the round message and the fold of a [SparseTable] are those of that table, so the proof with
    a sparse left table is the proof with its dense expansion. *)
From Stdlib Require Import Sorted.
From S2P Require Import Prelude Image Field Fold Sumcheck SumcheckSpec.

Section sparse.
Context {F : Type} `{FieldLaws F} `{!CudaFolder F, !Transcript F}.
Local Open Scope field_scope.
Add Ring sparse_ring : fl_ring.

(** The value of the table at [i], and the table. *)
Definition entry_at (i : nat) (e : nat * F) : F := if (e.1 =? i)%nat then e.2 else f0.
Definition weight (entries : list (nat * F)) (i : nat) : F := fsum (entry_at i) entries.
Definition dense (entries : list (nat * F)) (n : nat) : list F := map (weight entries) (seq 0 n).

Definition below (n : nat) (entries : list (nat * F)) : Prop := Forall (λ e, (e.1 < n)%nat) entries.
Definition sorted : list (nat * F) → Prop := StronglySorted (λ a b, (a.1 <= b.1)%nat).
Definition strictly_sorted : list (nat * F) → Prop := StronglySorted (λ a b, (a.1 < b.1)%nat).

Lemma weight_cons e entries i : weight (e :: entries) i = entry_at i e + weight entries i.
Proof. done. Qed.
Lemma weight_app l l' i : weight (l ++ l') i = weight l i + weight l' i.
Proof. apply fsum_app. Qed.
Lemma weight_nil i : weight [] i = f0.
Proof. done. Qed.

(** ** Normalisation *)

Lemma sorted_snoc (R : nat * F → nat * F → Prop) l x : StronglySorted R l → Forall (λ y, R y x) l → StronglySorted R (l ++ [x]).
Proof.
  induction l as [| y l IH]; intros Hl Hf; [by repeat constructor |]. apply StronglySorted_inv in Hl as [Hl Hy].
  apply Forall_cons in Hf as [Hx Hf]. cbn. constructor; [by apply IH |]. apply Forall_app. split; [done | by repeat constructor].
Qed.
Lemma sorted_snoc_inv (R : nat * F → nat * F → Prop) l x : StronglySorted R (l ++ [x]) → StronglySorted R l ∧ Forall (λ y, R y x) l.
Proof.
  induction l as [| y l IH]; intros Hl; [by repeat constructor |]. cbn in Hl. apply StronglySorted_inv in Hl as [Hl Hy].
  apply IH in Hl as [Hl Hf]. apply Forall_app in Hy as [Hy Hx]. apply Forall_cons in Hx as [Hx _]. split; by constructor.
Qed.

(** One step of the merge. *)
Definition push_entry (normalized : list (nat * F)) (e : nat * F) : list (nat * F) :=
  match last normalized with
  | Some (last_index, last_value) =>
      if (last_index =? e.1)%nat then removelast normalized ++ [(last_index, last_value + e.2)]
      else normalized ++ [e]
  | None => normalized ++ [e]
  end.
Lemma merge_adjacent_push entries : ∀ normalized, merge_adjacent normalized entries = foldl push_entry normalized entries.
Proof. induction entries as [| [i v] entries IH]; intros normalized; cbn [merge_adjacent foldl]; [done |]. by rewrite IH. Qed.

Lemma push_spec normalized e n : strictly_sorted normalized → Forall (λ y, (y.1 <= e.1)%nat) normalized →
  below n normalized → (e.1 < n)%nat →
  strictly_sorted (push_entry normalized e) ∧ Forall (λ y, (y.1 <= e.1)%nat) (push_entry normalized e) ∧ below n (push_entry normalized e) ∧
  ∀ i, weight (push_entry normalized e) i = weight normalized i + entry_at i e.
Proof.
  intros Hs Hle Hn He. unfold push_entry. destruct (last normalized) as [[li lv] |] eqn:El.
  2: { apply last_None in El as ->. cbn. split; [by repeat constructor |]. split; [by repeat constructor |].
       split; [by repeat constructor |]. intros i. rewrite weight_cons, weight_nil. ring. }
  apply last_Some in El as [init ->]. rewrite removelast_last. apply sorted_snoc_inv in Hs as [Hs Hlt].
  apply Forall_app in Hle as [Hle Hl1]. apply Forall_cons in Hl1 as [Hl1 _]. apply Forall_app in Hn as [Hn Hn1].
  apply Forall_cons in Hn1 as [Hn1 _]. cbn [fst snd] in *.
  destruct (Nat.eqb_spec li e.1) as [E | E].
  - split; [by apply sorted_snoc |]. split; [apply Forall_app; split; [done | by repeat constructor] |].
    split; [apply Forall_app; split; [done | by repeat constructor] |]. intros i. rewrite !weight_app, !weight_cons, !weight_nil.
    unfold entry_at. cbn [fst snd]. rewrite <- E. destruct (li =? i)%nat; ring.
  - assert (Hlast : Forall (λ y, (y.1 < e.1)%nat) (init ++ [(li, lv)])).
    { apply Forall_app. split; [| repeat constructor; cbn; lia]. eapply Forall_impl; [exact Hlt |]. cbn. intros; lia. }
    split; [apply sorted_snoc; [by apply sorted_snoc | done] |].
    split; [apply Forall_app; split; [| by repeat constructor]; eapply Forall_impl; [exact Hlast |]; cbn; intros; lia |].
    split; [apply Forall_app; split; [apply Forall_app; split; [done | by repeat constructor] | by repeat constructor] |].
    intros i. rewrite !weight_app, !weight_cons, !weight_nil. ring.
Qed.
Lemma merge_spec n entries : ∀ normalized, sorted entries → strictly_sorted normalized →
  Forall (λ y, Forall (λ e, (y.1 <= e.1)%nat) entries) normalized → below n normalized → below n entries →
  strictly_sorted (foldl push_entry normalized entries) ∧ below n (foldl push_entry normalized entries) ∧
  ∀ i, weight (foldl push_entry normalized entries) i = weight normalized i + weight entries i.
Proof.
  induction entries as [| e entries IH]; intros normalized He Hs Hle Hn Hb; cbn [foldl].
  { split; [done |]. split; [done |]. intros i. rewrite weight_nil. ring. }
  apply StronglySorted_inv in He as [He Hhead]. apply Forall_cons in Hb as [Hb1 Hb].
  assert (Hle1 : Forall (λ y, (y.1 <= e.1)%nat) normalized).
  { eapply Forall_impl; [exact Hle |]. by intros y [Hy _]%Forall_cons. }
  destruct (push_spec normalized e n Hs Hle1 Hn Hb1) as (Hs' & Hle' & Hn' & Hw).
  destruct (IH (push_entry normalized e) He Hs') as (Hs'' & Hn'' & Hw''); [| done | done |].
  - eapply Forall_impl; [exact Hle' |]. intros y Hy. cbn in Hy. eapply Forall_impl; [exact Hhead |]. cbn. intros; lia.
  - split; [done |]. split; [done |]. intros i. rewrite Hw'', Hw, weight_cons. ring.
Qed.
Lemma weight_filter entries i : weight (filter (λ e, e.2 ≠ f0) entries) i = weight entries i.
Proof.
  induction entries as [| e entries IH]; [done |]. rewrite filter_cons, weight_cons. destruct (decide (e.2 ≠ f0)) as [Hd | Hd].
  - by rewrite weight_cons, IH.
  - apply dec_stable in Hd. rewrite IH. unfold entry_at. rewrite Hd. destruct (e.1 =? i)%nat; ring.
Qed.
Lemma filter_sorted (R : nat * F → nat * F → Prop) P `{!∀ x, Decision (P x)} l : StronglySorted R l → StronglySorted R (filter P l).
Proof.
  induction l as [| x l IH]; intros Hl; [done |]. apply StronglySorted_inv in Hl as [Hl Hx]. rewrite filter_cons.
  destruct (decide (P x)); [| by apply IH]. constructor; [by apply IH |]. apply Forall_forall.
  intros y Hy%list_elem_of_filter. rewrite Forall_forall in Hx. apply Hx. tauto.
Qed.
Lemma below_filter n P `{!∀ x, Decision (P x)} l : below n l → below n (filter P l).
Proof. unfold below. rewrite !Forall_forall. intros Hl y Hy%list_elem_of_filter. apply Hl. tauto. Qed.
Lemma merge_sorted_spec n entries : sorted entries → below n entries →
  strictly_sorted (merge_sorted entries) ∧ below n (merge_sorted entries) ∧ ∀ i, weight (merge_sorted entries) i = weight entries i.
Proof.
  intros Hs Hn. unfold merge_sorted. rewrite merge_adjacent_push.
  destruct (merge_spec n entries [] Hs) as (Hs' & Hn' & Hw); [apply SSorted_nil | by constructor | by constructor | done |].
  split; [by apply filter_sorted |]. split; [by apply below_filter |]. intros i. rewrite weight_filter, Hw, weight_nil. ring.
Qed.

Lemma insert_spec n e l : sorted l → (e.1 < n)%nat → below n l →
  sorted (insert_by_index e l) ∧ below n (insert_by_index e l) ∧ ∀ i, weight (insert_by_index e l) i = entry_at i e + weight l i.
Proof.
  intros Hs He Hn. induction l as [| x l IH]; cbn [insert_by_index].
  { split; [by repeat constructor |]. split; [by repeat constructor | done]. }
  apply StronglySorted_inv in Hs as [Hs Hx]. apply Forall_cons in Hn as [Hn1 Hn].
  destruct (Nat.leb_spec e.1 x.1) as [Hle | Hgt].
  - split; [| split; [by repeat constructor | done]]. constructor; [by constructor |]. constructor; [done |].
    eapply Forall_impl; [exact Hx |]. cbn. intros; lia.
  - destruct (IH Hs Hn) as (Hs' & Hn' & Hw). split; [| split; [by constructor |]].
    + constructor; [done |]. clear - Hx Hgt. induction l as [| y l IH]; cbn [insert_by_index]; [repeat constructor; lia |].
      apply Forall_cons in Hx as [Hy Hx]. destruct (e.1 <=? y.1)%nat; repeat constructor; try done; try lia. by apply IH.
    + intros i. rewrite !weight_cons, Hw. ring.
Qed.
Lemma sort_spec n entries : below n entries → sorted (sort_by_index entries) ∧ below n (sort_by_index entries) ∧
  ∀ i, weight (sort_by_index entries) i = weight entries i.
Proof.
  induction entries as [| e entries IH]; intros Hn; [by repeat constructor |]. apply Forall_cons in Hn as [He Hn].
  destruct (IH Hn) as (Hs & Hn' & Hw). destruct (insert_spec n e (sort_by_index entries) Hs He Hn') as (Hs' & Hn'' & Hw').
  split; [done |]. split; [done |]. intros i. cbn [sort_by_index foldr]. fold (sort_by_index entries). by rewrite Hw', Hw, weight_cons.
Qed.

(** The invariant of a [SparseTable]. *)
Record sparse_ok (s : SparseTable) (n : nat) : Prop := {
  so_length : sparse_length s = (2 ^ n)%nat;
  so_sorted : strictly_sorted (sparse_entries s);
  so_below : below (2 ^ n) (sparse_entries s)
}.
Definition table_of (s : SparseTable) : list F := dense (sparse_entries s) (sparse_length s).

Lemma dense_ext entries entries' n : (∀ i, weight entries i = weight entries' i) → dense entries n = dense entries' n.
Proof. intros E. unfold dense. apply map_ext. done. Qed.
Lemma length_dense entries n : length (dense entries n) = n.
Proof. unfold dense. by rewrite length_map, length_seq. Qed.

Lemma sparse_new_spec entries n : below (2 ^ n) entries →
  ∃ s, sparse_new entries (2 ^ n) = Ok s ∧ sparse_ok s n ∧ table_of s = dense entries (2 ^ n).
Proof.
  intros Hb. unfold sparse_new. pose proof (pow2_pos n). rewrite (proj2 (Nat.eqb_neq _ _)) by lia.
  rewrite pow2_is_power. cbn [negb]. assert (existsb (λ e : nat * F, (2 ^ n <=? e.1)%nat) entries = false) as ->.
  { clear - Hb. induction entries as [| e entries IH]; [done |]. apply Forall_cons in Hb as [He Hb]. cbn.
    rewrite IH by done. by rewrite (proj2 (Nat.leb_gt _ _)). }
  destruct (sort_spec _ _ Hb) as (Hs & Hn & Hw), (merge_sorted_spec _ _ Hs Hn) as (Hs' & Hn' & Hw').
  eexists. split; [done |]. split; [by split |]. unfold table_of. cbn [sparse_entries sparse_length]. apply dense_ext.
  intros i. unfold normalize. by rewrite Hw', Hw.
Qed.

(** ** Sums over entries *)

Definition entry_sum (entries : list (nat * F)) (right : list F) : F :=
  fsum (λ e, e.2 * default f0 (right !! e.1)) entries.

Lemma dot_add (g h : nat → F) l : ∀ right, dot (map (λ i, g i + h i) l) right = dot (map g l) right + dot (map h l) right.
Proof.
  induction l as [| i l IH]; intros right; [cbn [map]; rewrite !dot_nil_l; ring |].
  destruct right as [| v right]; [cbn [map]; rewrite !dot_nil_r; ring |]. cbn [map]. rewrite !dot_cons, IH. ring.
Qed.
Lemma dot_zero l : ∀ right, dot (map (λ _ : nat, f0) l) right = f0.
Proof.
  induction l as [| i l IH]; intros right; [done |]. destruct right as [| v right]; [done |]. cbn [map]. rewrite dot_cons, IH. ring.
Qed.
Lemma dot_single e right : ∀ k, (k <= e.1)%nat →
  dot (map (λ i, entry_at i e) (seq k (length right))) right = e.2 * default f0 (right !! (e.1 - k)%nat).
Proof.
  induction right as [| v right IH]; intros k Hk; [rewrite lookup_nil; change (default f0 None) with (f0 : F); rewrite dot_nil_r; ring |].
  cbn [length seq map]. rewrite dot_cons. unfold entry_at at 1. destruct (Nat.eqb_spec e.1 k) as [E | E].
  - replace (e.1 - k)%nat with O by lia. cbn [lookup list_lookup default].
    assert (dot (map (λ i, entry_at i e) (seq (S k) (length right))) right = f0) as ->; [| unfold id; ring].
    rewrite (map_ext_in _ (λ _, f0)); [apply dot_zero |]. intros i Hi%in_seq. unfold entry_at.
    by rewrite (proj2 (Nat.eqb_neq _ _)) by lia.
  - rewrite IH by lia. replace (e.1 - k)%nat with (S (e.1 - S k)) by lia. change ((v :: right) !! S (e.1 - S k)) with (right !! (e.1 - S k)%nat). ring.
Qed.
Lemma dot_dense entries right : dot (dense entries (length right)) right = entry_sum entries right.
Proof.
  unfold dense. induction entries as [| e entries IH].
  - rewrite (map_ext _ (λ _, f0)) by done. apply dot_zero.
  - rewrite (map_ext _ (λ i, entry_at i e + weight entries i)) by done. rewrite dot_add, IH, dot_single by lia.
    unfold entry_sum. rewrite fsum_cons. by rewrite Nat.sub_0_r.
Qed.
Lemma sparse_products_spec entries right : below (length right) entries →
  sparse_products entries right = Ok (entry_sum entries right).
Proof.
  induction entries as [| [i v] entries IH]; intros Hb; [done |]. apply Forall_cons in Hb as [Hi Hb]. cbn [sparse_products].
  destruct (lookup_lt_is_Some_2 right i Hi) as [x Hx]. rewrite Hx. cbn [ok_or]. rewrite bind_of_ok, IH, bind_of_ok by done.
  unfold entry_sum. rewrite fsum_cons. cbn [fst snd]. by rewrite Hx.
Qed.

(** ** Folding *)

Definition fold_entry (c : F) (e : nat * F) : nat * F :=
  (Nat.div2 e.1, (if Nat.even e.1 then f1 - c else c) * e.2).

Lemma fold_entry_at c e i : entry_at i (fold_entry c e) =
  entry_at (2 * i) e + c * (entry_at (2 * i + 1) e - entry_at (2 * i) e).
Proof.
  unfold entry_at, fold_entry. cbn [fst snd]. pose proof (Nat.div2_odd e.1) as Hd. rewrite <- Nat.negb_even in Hd.
  destruct (Nat.even e.1); cbn [negb Nat.b2n] in Hd.
  - destruct (Nat.eqb_spec (Nat.div2 e.1) i).
    + rewrite (proj2 (Nat.eqb_eq e.1 (2 * i))), (proj2 (Nat.eqb_neq e.1 (2 * i + 1))) by lia. ring.
    + rewrite !(proj2 (Nat.eqb_neq e.1 _)) by lia. ring.
  - destruct (Nat.eqb_spec (Nat.div2 e.1) i).
    + rewrite (proj2 (Nat.eqb_neq e.1 (2 * i))), (proj2 (Nat.eqb_eq e.1 (2 * i + 1))) by lia. ring.
    + rewrite !(proj2 (Nat.eqb_neq e.1 _)) by lia. ring.
Qed.
Lemma fold_weight c entries i : weight (map (fold_entry c) entries) i =
  weight entries (2 * i) + c * (weight entries (2 * i + 1) - weight entries (2 * i)).
Proof.
  induction entries as [| e entries IH]; [rewrite !weight_nil; ring |]. cbn [map].
  rewrite !weight_cons, IH, fold_entry_at. ring.
Qed.
Lemma dense_lookup entries n i : (i < n)%nat → dense entries n !! i = Some (weight entries i).
Proof. intros Hi. unfold dense. change (map (weight entries)) with (fmap (M := list) (weight entries)). rewrite list_lookup_fmap, lookup_seq_lt by done. done. Qed.
Lemma fold_dense c entries m : fold_chunks (dense entries (2 * m)) c = dense (map (fold_entry c) entries) m.
Proof.
  assert (Hl : length (fold_chunks (dense entries (2 * m)) c) = m) by (rewrite length_fold_chunks, length_dense; apply Nat.div2_double).
  apply list_eq_same_length with m; [by apply length_dense | done |]. intros i x y Hi Hx Hy.
  rewrite dense_lookup in Hy by done. injection Hy as <-. rewrite fold_weight.
  rewrite (fold_chunks_lookup _ _ _ (weight entries (2 * i)) (weight entries (2 * i + 1))) in Hx by (apply dense_lookup; lia).
  by injection Hx.
Qed.

Lemma fold_sorted c entries : sorted entries → sorted (map (fold_entry c) entries).
Proof.
  induction entries as [| e entries IH]; intros Hs; [apply SSorted_nil |]. apply StronglySorted_inv in Hs as [Hs He].
  cbn [map]. constructor; [by apply IH |]. apply Forall_map. eapply Forall_impl; [exact He |]. intros y Hy. cbn in *.
  rewrite !Nat.div2_div. by apply Nat.Div0.div_le_mono.
Qed.
Lemma fold_below c entries m : below (2 * m) entries → below m (map (fold_entry c) entries).
Proof.
  intros Hb. apply Forall_map. eapply Forall_impl; [exact Hb |]. intros y Hy. cbn in *.
  pose proof (Nat.div2_odd y.1). lia.
Qed.
Lemma strictly_sorted_sorted l : strictly_sorted l → sorted l.
Proof.
  induction l as [| x l IH]; intros Hs; [apply SSorted_nil |]. apply StronglySorted_inv in Hs as [Hs Hx].
  constructor; [by apply IH |]. eapply Forall_impl; [exact Hx |]. cbn. intros; lia.
Qed.

Lemma sparse_fold_spec s n c : sparse_ok s (S n) →
  ∃ s', sparse_fold s c = Ok s' ∧ sparse_ok s' n ∧ table_of s' = fold_chunks (table_of s) c.
Proof.
  intros [Hl Hs Hb]. unfold sparse_fold. rewrite Hl, pow2_is_power, (proj2 (pow2_not_one n)). cbn [orb negb].
  rewrite Nat.pow_succ_r' in *. rewrite Nat.div2_double. eexists. split; [done |].
  assert (Em : map (λ '(index, value), (Nat.div2 index, (if Nat.even index then f1 - c else c) * value)) (sparse_entries s) =
    map (fold_entry c) (sparse_entries s)) by (apply map_ext; by intros []).
  rewrite Em. destruct (merge_sorted_spec (2 ^ n) (map (fold_entry c) (sparse_entries s))) as (Hs' & Hb' & Hw).
  { by apply fold_sorted, strictly_sorted_sorted. } { by apply fold_below. }
  split; [by split |]. unfold table_of. cbn [sparse_entries sparse_length]. rewrite Hl, fold_dense. by apply dense_ext.
Qed.

(** ** Rounds *)

Lemma message_eq (a b c a' b' c' : F) : a = a' → b = b' → c = c' → (a, b, c) = (a', b', c').
Proof. by intros -> -> ->. Qed.
Lemma sparse_entry_round_spec e right : Nat.even (length right) = true → (e.1 < length right)%nat →
  let at_point p := (fold_entry p e).2 * default f0 (fold_chunks right p !! (fold_entry p e).1) in
  sparse_entry_round e.1 e.2 right = Ok (at_point f0, at_point f1, at_point (from_u64 2)).
Proof.
  intros He Hi at_point. unfold sparse_entry_round. pose proof (Nat.div2_odd e.1) as Hd.
  assert (Hhi : (2 * Nat.div2 e.1 + 1 < length right)%nat).
  { apply Nat.even_spec in He as [m Em]. destruct (Nat.odd e.1); cbn [Nat.b2n] in Hd; lia. }
  destruct (lookup_lt_is_Some_2 right (2 * Nat.div2 e.1)) as [r0 E0]; [lia |].
  destruct (lookup_lt_is_Some_2 right (2 * Nat.div2 e.1 + 1) Hhi) as [r1 E1].
  rewrite E0, E1. cbn [ok_or]. rewrite !bind_of_ok. unfold at_point, fold_entry. cbn [fst snd].
  rewrite !(fold_chunks_lookup right _ _ r0 r1 E0 E1). cbn [default]. unfold id.
  f_equal. destruct (Nat.even e.1); apply message_eq; ring.
Qed.
Lemma sparse_rounds_spec entries right : Nat.even (length right) = true → below (length right) entries →
  let at_point p := entry_sum (map (fold_entry p) entries) (fold_chunks right p) in
  sparse_rounds entries right = Ok (at_point f0, at_point f1, at_point (from_u64 2)).
Proof.
  intros He. induction entries as [| e entries IH]; intros Hb at_point; [done |]. apply Forall_cons in Hb as [Hi Hb].
  cbn [sparse_rounds]. destruct e as [i v]. pose proof (sparse_entry_round_spec (i, v) right He Hi) as Hr. cbn [fst snd] in Hr.
  rewrite Hr, bind_of_ok, (IH Hb), bind_of_ok. unfold at_point, entry_sum. cbn [map]. by rewrite !fsum_cons.
Qed.

Lemma dense_round s n right : sparse_ok s (S n) → length right = (2 ^ S n)%nat →
  sparse_round s right = Ok (product_pairs (table_of s) right).
Proof.
  intros [Hl Hs Hb] Hr. unfold sparse_round, validate_right. rewrite Hl, Hr, Nat.eqb_refl. cbn [negb].
  rewrite bind_of_ok, (proj1 (pow2_not_one n)). assert (He : Nat.even (length right) = true) by (rewrite Hr; apply pow2_even).
  rewrite sparse_rounds_spec by (done || by rewrite Hr). f_equal.
  assert (Hlt : length (table_of s) = length right) by (unfold table_of; rewrite length_dense; congruence).
  pose proof (product_pairs_poly (table_of s) right Hlt ltac:(by rewrite Hlt)) as Hp.
  destruct (product_pairs (table_of s) right) as [[m0 m1] m2]. change (nodes 3) with [f0 : F; f1; from_u64 2] in Hp.
  injection Hp as -> -> ->. unfold round_poly, table_of. rewrite Hl, Nat.pow_succ_r', !fold_dense.
  assert (Hf : ∀ x, length (fold_chunks right x) = (2 ^ n)%nat).
  { intros x. rewrite length_fold_chunks, Hr, Nat.pow_succ_r'. apply Nat.div2_double. }
  assert (Hd : ∀ x, dot (dense (map (fold_entry x) (sparse_entries s)) (2 ^ n)) (fold_chunks right x) =
    entry_sum (map (fold_entry x) (sparse_entries s)) (fold_chunks right x)).
  { intros x. rewrite <- (Hf x) at 1. apply dot_dense. }
  by rewrite !Hd.
Qed.

(** ** The whole proof *)

Lemma sparse_final_spec s : sparse_ok s 0 → ∃ v, sparse_final_value s = Ok v ∧ table_of s = [v].
Proof.
  intros [Hl Hs Hb]. unfold sparse_final_value, table_of. rewrite Hl. cbn [Nat.pow Nat.eqb negb].
  destruct (sparse_entries s) as [| [i v] [| [j w] entries]].
  - exists f0. done.
  - apply Forall_cons in Hb as [Hi _]. cbn in Hi. assert (i = O) as -> by lia. exists v. split; [done |].
    unfold dense. cbn [seq map]. rewrite weight_cons, weight_nil. unfold entry_at. cbn [fst snd Nat.eqb]. f_equal. ring.
  - apply StronglySorted_inv in Hs as [_ [Hij _]%Forall_cons]. apply Forall_cons in Hb as [_ [Hj _]%Forall_cons].
    cbn in *. lia.
Qed.
Lemma length_table_of s n : sparse_ok s n → length (table_of s) = (2 ^ n)%nat.
Proof. intros [Hl _ _]. unfold table_of. by rewrite length_dense. Qed.
Lemma sparse_finish s right rounds claim point t : sparse_ok s 0 →
  (v ← sparse_final_value s; finish_product_sumcheck [v] right rounds claim point t) =
  finish_product_sumcheck (table_of s) right rounds claim point t.
Proof. intros Hs. destruct (sparse_final_spec s Hs) as (v & -> & ->). by rewrite bind_of_ok. Qed.

Lemma sparse_prove_loop_spec n : ∀ fuel s right rounds claim point t,
  sparse_ok s n → length right = (2 ^ n)%nat →
  sparse_prove_loop BackendCpu fuel s right rounds claim point t =
  prove_loop BackendCpu fuel (table_of s) right rounds claim point t.
Proof.
  induction n as [| n IH]; intros fuel s right rounds claim point t Hs Hr; pose proof (length_table_of s _ Hs) as Hlt.
  - pose proof (so_length _ _ Hs) as Hl. destruct fuel as [| fuel]; cbn [sparse_prove_loop prove_loop];
      rewrite Hl, Hlt; cbn [Nat.pow Nat.leb]; by apply sparse_finish.
  - pose proof (so_length _ _ Hs) as Hl. destruct fuel as [| fuel]; cbn [sparse_prove_loop prove_loop];
      rewrite Hl, Hlt, (proj2 (pow2_not_one n)); [done |].
    rewrite (dense_round s n right), (product_round_pow _ _ n Hlt Hr), !bind_of_ok by done. cbv zeta.
    destruct (challenge_scalar _ CHALLENGE_LABEL) as [c t1]. destruct (sparse_fold_spec s n c Hs) as (s' & Es & Hs' & Et).
    destruct (fold_table_pow (table_of s) n c Hlt) as (El & _ & _), (fold_table_pow right n c Hr) as (Er & _ & Hr').
    rewrite Es, El, Er, !bind_of_ok, <- Et. by apply IH.
Qed.

Lemma sparse_inner_spec s n right : sparse_ok s n → length right = (2 ^ n)%nat →
  sparse_inner_product s right = Ok (dot (table_of s) right).
Proof.
  intros [Hl Hs Hb] Hr. unfold sparse_inner_product, validate_right. rewrite Hl, Hr, Nat.eqb_refl. cbn [negb].
  rewrite bind_of_ok, sparse_products_spec by (by rewrite Hr). unfold table_of. rewrite Hl, <- Hr. by rewrite dot_dense.
Qed.

(** The processor folds the first round's borrowed tables as it folds later ones. *)
Lemma prove_sparse_dense n entries right t : below (2 ^ n) entries → length right = (2 ^ n)%nat →
  prove_sparse_left entries (2 ^ n) right BackendCpu t = prove (dense entries (2 ^ n)) right BackendCpu t.
Proof.
  intros Hb Hr. destruct (sparse_new_spec entries n Hb) as (s & Es & Hs & <-). pose proof (length_table_of s n Hs) as Hlt.
  unfold prove_sparse_left, prove. rewrite Es, bind_of_ok, Hr, Nat.eqb_refl. cbn [negb].
  rewrite (validate_pow _ _ n Hlt Hr), (sparse_inner_spec s n right Hs Hr), (inner_product_pow _ _ n Hlt Hr), Hlt, variable_count_pow.
  rewrite !bind_of_ok. destruct n as [| n]; [by apply sparse_finish |]. rewrite (proj1 (pow2_not_one n)).
  rewrite (dense_round s n right Hs Hr), (product_round_pow _ _ n Hlt Hr), !bind_of_ok. cbv zeta.
  destruct (challenge_scalar _ CHALLENGE_LABEL) as [c t1]. destruct (sparse_fold_spec s n c Hs) as (s' & E' & Hs' & Et).
  destruct (fold_table_pow (table_of s) n c Hlt) as (_ & El & Hl'), (fold_table_pow right n c Hr) as (Er1 & Er & Hr').
  rewrite E', El, Er, !bind_of_ok, <- Et, (length_table_of s' n Hs'), (so_length _ _ Hs').
  by apply (sparse_prove_loop_spec n).
Qed.
End sparse.
