(* ===== verification/SumProductsSpec.v ===== *)
(** * Sums of products: completeness and soundness

    Every kind of factor denotes a table of evaluations, and keeps denoting the folded table when it is folded.
    The claim is the sum over the rows of the shared factor times the sum of the terms' products; a round's
    message is the evaluations of a polynomial with two coefficients more than a term has other factors. *)
From S2P Require Import Prelude Image Field Fold Sumcheck SumcheckSpec SumProducts.

Section sums.
Context {F : Type} `{FieldLaws F} `{!CudaFolder F, !Transcript F}.
Local Open Scope field_scope.
Add Ring sums_ring : fl_ring.

(** ** The sum *)

Definition at_row (i : nat) (f : list F) : F := default f0 (f !! i).
Definition fprod {A} (f : A → F) (l : list A) : F := foldr (λ x p, f x * p) f1 l.
Lemma fprod_nil {A} (f : A → F) : fprod f [] = f1.
Proof. done. Qed.
Lemma fsum_nil {A} (f : A → F) : fsum f [] = f0.
Proof. done. Qed.
Lemma fprod_cons {A} (f : A → F) x l : fprod f (x :: l) = f x * fprod f l.
Proof. done. Qed.
Lemma fprod_map {A B} (f : B → F) (g : A → B) l : fprod f (map g l) = fprod (λ x, f (g x)) l.
Proof. induction l as [| x l IH]; [done |]. cbn [map]. by rewrite !fprod_cons, IH. Qed.
Lemma fprod_ext {A} (f g : A → F) l : (∀ x, x ∈ l → f x = g x) → fprod f l = fprod g l.
Proof. induction l as [| x l IH]; intros Hf; [done |]. rewrite !fprod_cons, Hf by set_solver. f_equal. apply IH. set_solver. Qed.
Lemma foldl_fprod l : ∀ a, foldl fmul a l = a * fprod (λ x, x) l.
Proof. induction l as [| x l IH]; intros a; cbn [foldl]; [cbn; ring | rewrite IH, fprod_cons; ring]. Qed.

(** Row [i] of the sum: the shared factor times the sum of the terms' products. *)
Definition terms_row (terms : list (list (list F))) (i : nat) : F := fsum (λ term, fprod (at_row i) term) terms.
Definition sop (shared : list F) (terms : list (list (list F))) : F :=
  fsum (λ i, at_row i shared * terms_row terms i) (seq 0 (length shared)).

(** The line of a table through the pair [i]. *)
Definition pair_line (f : list F) (i : nat) (x : F) : F :=
  at_row (2 * i) f + x * (at_row (2 * i + 1) f - at_row (2 * i) f).
Lemma fold_chunks_row f i x n : length f = (2 * n)%nat → (i < n)%nat → at_row i (fold_chunks f x) = pair_line f i x.
Proof.
  intros Hl Hi. unfold at_row, pair_line, at_row.
  destruct (lookup_lt_is_Some_2 f (2 * i)) as [a Ea]; [lia |]. destruct (lookup_lt_is_Some_2 f (2 * i + 1)) as [b Eb]; [lia |].
  by rewrite (fold_chunks_lookup f x i a b Ea Eb), Ea, Eb.
Qed.

Definition fold_all (terms : list (list (list F))) (x : F) : list (list (list F)) :=
  map (map (λ f, fold_chunks f x)) terms.
(** The round polynomial. *)
Definition sum_poly (shared : list F) (terms : list (list (list F))) (x : F) : F :=
  sop (fold_chunks shared x) (fold_all terms x).
Definition pair_sum (shared : list F) (terms : list (list (list F))) (x : F) (i : nat) : F :=
  pair_line shared i x * fsum (λ term, fprod (λ f, pair_line f i x) term) terms.

(** Every table of the terms has [n] entries, and every term [k] tables. *)
Definition shaped (n k : nat) (shared : list F) (terms : list (list (list F))) : Prop :=
  length shared = n ∧ Forall (λ term, length term = k ∧ Forall (λ f, length f = n) term) terms.

Lemma shaped_fold n k shared terms x : shaped (2 * n) k shared terms → shaped n k (fold_chunks shared x) (fold_all terms x).
Proof.
  intros [Hs Ht]. split; [rewrite length_fold_chunks, Hs; apply Nat.div2_double |]. apply Forall_map.
  eapply Forall_impl; [exact Ht |]. intros term [Hk Hf]. split; [by rewrite length_map |]. apply Forall_map.
  eapply Forall_impl; [exact Hf |]. intros f Hl. cbn. rewrite length_fold_chunks, Hl. apply Nat.div2_double.
Qed.

Lemma sum_poly_pairs n k shared terms x : shaped (2 * n) k shared terms →
  sum_poly shared terms x = fsum (pair_sum shared terms x) (seq 0 n).
Proof.
  intros [Hs Ht]. unfold sum_poly, sop. rewrite length_fold_chunks, Hs, Nat.div2_double. apply fsum_ext.
  intros i Hi%elem_of_seq. unfold pair_sum. rewrite (fold_chunks_row shared i x n Hs) by lia. f_equal.
  unfold terms_row, fold_all. rewrite fsum_map. apply fsum_ext. intros term Hin. rewrite fprod_map. apply fprod_ext.
  intros f Hf. rewrite Forall_forall in Ht. destruct (Ht _ Hin) as [_ Hfs]. rewrite Forall_forall in Hfs.
  apply (fold_chunks_row f i x n); [by apply Hfs | lia].
Qed.

Lemma fsum_pairs (g : nat → F) n : ∀ k, fsum (λ i, g (2 * i)%nat + g (2 * i + 1)%nat) (seq k n) = fsum g (seq (2 * k) (2 * n)).
Proof.
  induction n as [| n IH]; intros k; [done |]. replace (2 * S n)%nat with (S (S (2 * n))) by lia. cbn [seq].
  rewrite !fsum_cons, IH. replace (2 * S k)%nat with (S (S (2 * k))) by lia. replace (2 * k + 1)%nat with (S (2 * k)) by lia. ring.
Qed.
Lemma pair_line_ends f i : pair_line f i f0 = at_row (2 * i) f ∧ pair_line f i f1 = at_row (2 * i + 1) f.
Proof. unfold pair_line. split; ring. Qed.
Lemma sum_poly_sum n k shared terms : shaped (2 * n) k shared terms →
  sum_poly shared terms f0 + sum_poly shared terms f1 = sop shared terms.
Proof.
  intros Hs. rewrite !(sum_poly_pairs n k) by done. rewrite <- fsum_add. unfold sop. destruct Hs as [-> _].
  rewrite <- (fsum_pairs _ n 0). apply fsum_ext. intros i _. unfold pair_sum, terms_row.
  destruct (pair_line_ends shared i) as [-> ->]. f_equal; f_equal; apply fsum_ext; intros term _; apply fprod_ext; intros f _;
    apply pair_line_ends.
Qed.
Lemma is_poly_fprod i term : is_poly (S (length term)) (λ x, fprod (λ f, pair_line f i x) term).
Proof.
  induction term as [| f term IH]; [exact (is_poly_const f1) |]. cbn [length].
  exact (is_poly_affine _ _ _ _ IH).
Qed.
Lemma sum_poly_degree n k shared terms : shaped (2 * n) k shared terms → is_poly (k + 2) (sum_poly shared terms).
Proof.
  intros Hs. apply (is_poly_ext _ (λ x, fsum (λ i, pair_sum shared terms x i) (seq 0 n))).
  { intros x. symmetry. by apply (sum_poly_pairs n k). }
  apply is_poly_fsum. intros i _. replace (k + 2)%nat with (S (S k)) by lia. 
  refine (is_poly_affine _ _ _ _ _). apply is_poly_fsum. intros term Hin. destruct Hs as [_ Ht]. rewrite Forall_forall in Ht.
  destruct (Ht _ Hin) as [<- _]. apply is_poly_fprod.
Qed.

(** ** Factors as tables *)

(** [x] is the table [f] of [n] entries. *)
Definition tab {T} `{!SumcheckTable F T} (n : nat) (x : T) (f : list F) : Prop :=
  table_len x = n ∧ length f = n ∧ ∀ i, (i < n)%nat → table_value x i = Ok (at_row i f).

Lemma tab_row {T} `{!SumcheckTable F T} n (x : T) f i : tab n x f → (i < n)%nat → table_value x i = Ok (at_row i f).
Proof. intros (_ & _ & Hv). apply Hv. Qed.

Section tables.
Context {T : Type} `{!SumcheckTable F T}.
Abbreviation tabs n := (Forall2 (Forall2 (tab (T := T) n))).

Lemma product_at_spec n (xs : list T) fs i : Forall2 (tab n) xs fs → (i < n)%nat → ∀ p,
  product_at xs i p = Ok (p * fprod (at_row i) fs).
Proof.
  intros Hx Hi. induction Hx as [| x f xs fs Hx _ IH]; intros p; cbn [product_at]; [rewrite fprod_nil; f_equal; ring |].
  rewrite (tab_row n x f i Hx Hi), bind_of_ok, IH, fprod_cons. f_equal. ring.
Qed.
Lemma term_sum_at_spec n (ts : list (list T)) fs i : tabs n ts fs → (i < n)%nat → ∀ s,
  term_sum_at ts i s = Ok (s + terms_row fs i).
Proof.
  intros Ht Hi. unfold terms_row. induction Ht as [| x f xs fs Hx _ IH]; intros s; cbn [term_sum_at]; [rewrite fsum_nil; f_equal; ring |].
  rewrite (product_at_spec n x f i Hx Hi), bind_of_ok, IH, fsum_cons. f_equal. ring.
Qed.
Lemma shared_sum_loop_spec n (x : T) s (ts : list (list T)) fs : tab n x s → tabs n ts fs → ∀ m i sum, (i + m <= n)%nat →
  shared_sum_loop x ts m i sum = Ok (sum + fsum (λ i, at_row i s * terms_row fs i) (seq i m)).
Proof.
  intros Hx Ht. induction m as [| m IH]; intros i sum Hm; cbn [shared_sum_loop seq]; [rewrite fsum_nil; f_equal; ring |].
  rewrite (term_sum_at_spec n ts fs i Ht), bind_of_ok, (tab_row n x s i Hx), bind_of_ok, IH, fsum_cons by lia. f_equal. ring.
Qed.

Lemma tabs_shape n k (ts : list (list T)) fs : tabs n ts fs → Forall (λ f, length f = k) fs →
  existsb (λ term, negb (length term =? k)%nat || existsb (λ factor, negb (table_len factor =? n)%nat) term) ts = false.
Proof.
  intros Ht Hk. induction Ht as [| x f xs fs Hx _ IH]; [done |]. apply Forall_cons in Hk as [Hf Hk]. cbn [existsb].
  rewrite (IH Hk), (Forall2_length _ _ _ Hx), Hf, Nat.eqb_refl. cbn [negb orb]. rewrite orb_false_r. clear - Hx.
  induction Hx as [| y g ys gs (Hl & _) _ IH]; [done |]. cbn [existsb]. by rewrite Hl, Nat.eqb_refl, IH.
Qed.
Lemma validate_terms_spec n k (ts : list (list T)) fs : tabs (2 ^ n) ts fs → Forall (λ f, length f = k) fs →
  fs ≠ [] → k ≠ 0%nat → validate_terms ts = Ok (length ts, k, 2 ^ n)%nat.
Proof.
  intros Ht Hk Hfs Hk0. pose proof (tabs_shape _ _ _ _ Ht Hk) as Hs. unfold validate_terms.
  inversion Ht as [| x f xs gs Hx Hxs]; subst; [done |]. apply Forall_cons in Hk as [Hf Hk].
  inversion Hx as [| y g ys hs Hy Hys]; subst; [done |]. cbn [head ok_or]. rewrite bind_of_ok. cbn [head ok_or]. rewrite bind_of_ok.
  destruct Hy as (Hl & _ & _). rewrite Hl, pow2_is_power. pose proof (pow2_pos n). rewrite (proj2 (Nat.eqb_neq _ _)) by lia.
  cbn [orb negb]. rewrite (Forall2_length _ _ _ Hx). by rewrite Hs.
Qed.

(** ** The message of a round *)

Lemma imap_zip (h : nat → F * F → F) g u c :
  imap h (zip (map g (seq 0 c)) (map u (seq 0 c))) = map (λ i, h i (g i, u i)) (seq 0 c).
Proof.
  apply list_eq. intros i. rewrite list_lookup_imap.
  change (map (λ i, h i (g i, u i))) with (fmap (M := list) (λ i, h i (g i, u i))).
  change (map g) with (fmap (M := list) g). change (map u) with (fmap (M := list) u).
  rewrite lookup_zip_with, !list_lookup_fmap. destruct (decide (i < c)%nat).
  - by rewrite lookup_seq_lt by done.
  - by rewrite lookup_seq_ge by lia.
Qed.
Lemma imap_zip3 (h : nat → F * F * F → F) e g u c :
  imap h (zip (zip (map e (seq 0 c)) (map g (seq 0 c))) (map u (seq 0 c))) = map (λ i, h i (e i, g i, u i)) (seq 0 c).
Proof.
  apply list_eq. intros i. rewrite list_lookup_imap.
  change (map (λ i, h i (e i, g i, u i))) with (fmap (M := list) (λ i, h i (e i, g i, u i))).
  change (map e) with (fmap (M := list) e). change (map g) with (fmap (M := list) g). change (map u) with (fmap (M := list) u).
  rewrite !lookup_zip_with, !list_lookup_fmap. destruct (decide (i < c)%nat).
  - by rewrite lookup_seq_lt by done.
  - by rewrite lookup_seq_ge by lia.
Qed.
Lemma line_at_spec zero one i : line_at zero one i (usize_to_field i) = zero + usize_to_field i * (one - zero).
Proof.
  destruct i as [| [| i]]; [| | done]; cbn [line_at].
  - change (usize_to_field 0) with (f0 : F). ring.
  - change (usize_to_field 1) with (f1 : F). ring.
Qed.

Lemma accumulate_products_spec n c (xs : list T) fs j : Forall2 (tab n) xs fs → (2 * j + 1 < n)%nat → ∀ g,
  accumulate_products xs (2 * j) (interpolation_points c) (map g (seq 0 c)) =
    Ok (map (λ i, g i * fprod (λ f, pair_line f j (usize_to_field i)) fs) (seq 0 c)).
Proof.
  intros Hx Hj. induction Hx as [| x f xs fs Hx _ IH]; intros g; cbn [accumulate_products].
  { f_equal. apply map_ext. intros i. rewrite fprod_nil. ring. }
  rewrite (tab_row n x f (2 * j) Hx), bind_of_ok, (tab_row n x f (2 * j + 1) Hx), bind_of_ok by lia.
  unfold interpolation_points in *. rewrite imap_zip, IH. f_equal. apply map_ext. intros i. rewrite line_at_spec, fprod_cons.
  unfold pair_line at 2. cbn [fst snd]. ring.
Qed.
Lemma accumulate_terms_spec n c (ts : list (list T)) fs j (zero one : F) : tabs n ts fs → (2 * j + 1 < n)%nat → ∀ e,
  accumulate_terms ts (2 * j) zero one (interpolation_points c) (map e (seq 0 c)) =
    Ok (map (λ i, e i + (zero + usize_to_field i * (one - zero)) *
      fsum (λ term, fprod (λ f, pair_line f j (usize_to_field i)) term) fs) (seq 0 c)).
Proof.
  intros Ht Hj. induction Ht as [| x f xs fs Hx _ IH]; intros e; cbn [accumulate_terms].
  { f_equal. apply map_ext. intros i. cbn [seq]. rewrite fsum_nil. ring. }
  rewrite map_map, (accumulate_products_spec n c x f j Hx Hj), bind_of_ok. unfold interpolation_points in *.
  rewrite imap_zip3, IH. f_equal. apply map_ext. intros i. rewrite line_at_spec, fsum_cons. ring.
Qed.
Lemma shared_round_loop_spec n c (x : T) s (ts : list (list T)) fs : tab n x s → tabs n ts fs → (2 <= c)%nat →
  ∀ m j e, (2 * (j + m) <= n)%nat →
  shared_round_loop x ts m j (interpolation_points c) (map e (seq 0 c)) =
    Ok (map (λ i, e i + fsum (pair_sum s fs (usize_to_field i)) (seq j m)) (seq 0 c)).
Proof.
  intros Hx Ht Hc. induction m as [| m IH]; intros j e Hm; cbn [shared_round_loop].
  { f_equal. apply map_ext. intros i. cbn [seq]. rewrite fsum_nil. ring. }
  unfold accumulate_shared_pair.
  assert (Hl : length (interpolation_points (F := F) c) = c) by (unfold interpolation_points; by rewrite length_map, length_seq).
  rewrite Hl, length_map, length_seq, Nat.eqb_refl, (proj2 (Nat.ltb_ge c 2)) by exact Hc. cbn [negb orb].
  rewrite (tab_row n x s (2 * j) Hx), bind_of_ok, (tab_row n x s (2 * j + 1) Hx), bind_of_ok by lia.
  rewrite (accumulate_terms_spec n c ts fs j _ _ Ht), bind_of_ok, IH by lia. f_equal. apply map_ext. intros i.
  cbn [seq]. rewrite fsum_cons. unfold pair_sum at 2. unfold pair_line at 2. ring.
Qed.

Lemma shared_sum_spec n k (x : T) s (ts : list (list T)) fs : tab (2 ^ n) x s → tabs (2 ^ n) ts fs →
  Forall (λ f, length f = k) fs → fs ≠ [] → k ≠ 0%nat → shared_sum_of_term_products x ts = Ok (sop s fs).
Proof.
  intros Hx Ht Hk Hfs Hk0. unfold shared_sum_of_term_products. rewrite (validate_terms_spec n k ts fs), bind_of_ok by done.
  pose proof Hx as (Hl & Hs & _). rewrite Hl, Nat.eqb_refl. cbn [negb].
  rewrite (shared_sum_loop_spec (2 ^ n) x s ts fs Hx Ht) by lia. unfold sop. rewrite Hs. f_equal. ring.
Qed.

(** What a list of terms denotes. *)
Record term_tables (n k : nat) (x : T) (s : list F) (ts : list (list T)) (fs : list (list (list F))) : Prop := {
  tt_shared : tab (2 ^ n) x s;
  tt_terms : tabs (2 ^ n) ts fs;
  tt_count : Forall (λ f, length f = k) fs;
  tt_some : fs ≠ [];
  tt_factors : k ≠ 0%nat;
  tt_bound : Z.of_nat (k + 2) < 18446744073709551616
}.
Lemma tt_shaped n k x s ts fs : term_tables n k x s ts fs → shaped (2 ^ n) k s fs.
Proof.
  intros [(_ & Hs & _) Ht Hk _ _ _]. split; [done |]. induction Ht as [| y f ys fs Hy _ IH]; [done |].
  apply Forall_cons in Hk as [Hf Hk]. constructor; [| by apply IH]. split; [done |]. clear - Hy.
  induction Hy as [| z g zs gs (_ & Hl & _) _ IH]; [done |]. by constructor.
Qed.

Lemma map_const_seq (v : F) n : ∀ k, map (λ _, v) (seq k n) = replicate n v.
Proof. induction n as [| n IH]; intros k; [done |]. cbn [seq map replicate]. by rewrite IH. Qed.
Lemma round_message_spec n k x s ts fs : term_tables (S n) k x s ts fs →
  shared_sum_product_round x ts = Ok (map (sum_poly s fs) (nodes (k + 2))).
Proof.
  intros Ht. pose proof (tt_shaped _ _ _ _ _ _ Ht) as Hsh. destruct Ht as [Hx Ht Hk Hfs Hk0 _]. unfold shared_sum_product_round.
  rewrite (validate_terms_spec (S n) k ts fs), bind_of_ok by done. pose proof Hx as (Hl & Hs & _).
  rewrite Hl, Nat.eqb_refl, (proj1 (pow2_not_one n)). cbn [negb].
  rewrite <- (map_const_seq f0 (k + 2) 0).
  rewrite (shared_round_loop_spec (2 ^ S n) (k + 2) x s ts fs Hx Ht) by (try lia; rewrite Nat.pow_succ_r', Nat.div2_double; lia).
  f_equal. unfold nodes. rewrite map_map. apply map_ext. intros i. rewrite Nat.pow_succ_r' in *. rewrite Nat.div2_double.
  rewrite (sum_poly_pairs (2 ^ n) k) by done. ring.
Qed.

(** ** The end values *)

Definition end_terms (s : list F) (fs : list (list (list F))) (point : list F) : list (list F) :=
  map (λ term, mle s point :: map (λ f, mle f point) term) fs.

Lemma mle_single (f : list F) : length f = 1%nat → mle f [] = at_row 0 f.
Proof. destruct f as [| v [| ? ?]]; try done. intros _. by rewrite mle_nil. Qed.
Lemma collect_tabs (xs : list T) fs : Forall2 (tab 1) xs fs →
  collect (map (λ factor, table_value factor 0) xs) = Ok (map (λ f, mle f []) fs).
Proof.
  induction 1 as [| x f xs fs (Hl & Hf & Hv) _ IH]; [done |]. cbn [map collect]. rewrite Hv, bind_of_ok, IH, bind_of_ok by lia.
  by rewrite mle_single.
Qed.
Lemma term_finals_spec v (xs : list T) fs : Forall2 (tab 1) xs fs → term_finals v xs = Ok (v :: map (λ f, mle f []) fs).
Proof. intros Hx. unfold term_finals. by rewrite (collect_tabs xs fs Hx). Qed.
Lemma finish_spec x s (ts : list (list T)) fs rounds claim point t : tab 1 x s → tabs 1 ts fs →
  finish_shared_sum_of_products x ts rounds claim point t =
    Ok (MkSumProof rounds (end_terms s fs []), claim, point, absorb_term_finals t (end_terms s fs [])).
Proof.
  intros (Hl & Hs & Hv) Ht. unfold finish_shared_sum_of_products. rewrite Hv, bind_of_ok by lia.
  assert (collect (map (term_finals (at_row 0 s)) ts) = Ok (end_terms s fs [])) as ->; [| done].
  induction Ht as [| y f ys fs Hy _ IH]; [done |]. cbn [map collect].
  rewrite (term_finals_spec _ y f Hy), bind_of_ok, IH, bind_of_ok. unfold end_terms. cbn [map]. by rewrite (mle_single s).
Qed.
Lemma end_fold s fs r point k : shaped (2 ^ S (length point)) k s fs →
  end_terms s fs (r :: point) = end_terms (fold_chunks s r) (fold_all fs r) point.
Proof.
  intros [Hs Ht]. unfold end_terms, fold_all. rewrite map_map, (mle_fold s) by done. apply map_ext_in. intros term Hin.
  f_equal. rewrite map_map. apply map_ext_in. intros f Hf. rewrite Forall_forall in Ht. apply mle_fold.
  destruct (Ht term) as [_ Hfs]; [by apply list_elem_of_In |]. rewrite Forall_forall in Hfs. by apply Hfs, list_elem_of_In.
Qed.
End tables.

Lemma terminal_end s fs point : terminal_term_sum (end_terms s fs point) =
  mle s point * fsum (λ term, fprod (λ f, mle f point) term) fs.
Proof.
  unfold terminal_term_sum. rewrite (foldl_fsum (λ term, foldl fmul f1 term)). unfold end_terms. rewrite fsum_map, <- fsum_scale.
  transitivity (fsum (λ term, foldl fmul f1 (mle s point :: map (λ f, mle f point) term)) fs); [ring |].
  apply fsum_ext. intros term _. rewrite foldl_fprod, fprod_cons, fprod_map. ring.
Qed.
Lemma sop_end s fs k : shaped 1 k s fs → sop s fs = terminal_term_sum (end_terms s fs []).
Proof.
  intros [Hs Ht]. rewrite terminal_end, (mle_single s) by done. unfold sop. rewrite Hs. cbn [seq]. rewrite fsum_cons, fsum_nil.
  transitivity (at_row 0 s * terms_row fs 0); [ring |]. f_equal. apply fsum_ext. intros term Hin. apply fprod_ext.
  intros f Hf. rewrite mle_single; [done |]. rewrite Forall_forall in Ht. destruct (Ht _ Hin) as [_ Hfs].
  rewrite Forall_forall in Hfs. by apply Hfs.
Qed.

(** ** Folding the factors *)

Lemma tab_table n (f : list F) : length f = n → tab n (FoldedTable f) f.
Proof.
  intros Hl. split; [done |]. split; [done |]. intros i Hi. unfold at_row. destruct (lookup_lt_is_Some_2 f i) as [v Hv]; [lia |].
  cbn. unfold value_at. by rewrite Hv.
Qed.
Lemma tab_table_inv n values (f : list F) : tab n (FoldedTable values) f → values = f.
Proof.
  intros (Hl & Hf & Hv). cbn in Hl. apply list_eq_same_length with n; [done | done |]. intros i a b Hi Ha Hb.
  specialize (Hv i Hi). cbn in Hv. unfold value_at, at_row in Hv. rewrite Ha, Hb in Hv. cbn in Hv. by injection Hv.
Qed.
Lemma even_pow n : odd_or_small (2 ^ S n) = false ∧ Nat.div2 (2 ^ S n) = (2 ^ n)%nat.
Proof.
  pose proof (pow2_pos n). rewrite Nat.pow_succ_r'. unfold odd_or_small. rewrite Nat.odd_even, Nat.div2_double.
  split; [| done]. rewrite orb_false_r. apply Nat.ltb_ge. lia.
Qed.

(** A table of [2 * n] equal entries folds to [n] of them. *)
Lemma tab_constant n v (f : list F) c : length f = (2 * n)%nat → (∀ i, (i < 2 * n)%nat → at_row i f = v) →
  tab n (FoldedConstant v n) (fold_chunks f c).
Proof.
  intros Hl Hv. split; [done |]. split; [rewrite length_fold_chunks, Hl; apply Nat.div2_double |]. intros i Hi. cbn.
  rewrite (proj2 (Nat.leb_gt _ _)) by done. rewrite (fold_chunks_row f i c n Hl Hi). unfold pair_line. rewrite !Hv by lia.
  f_equal. ring.
Qed.

Lemma folded_fold_spec n x f c : tab (2 ^ S n) x f →
  ∃ x', folded_fold BackendCpu x c = Ok x' ∧ tab (2 ^ n) x' (fold_chunks f c).
Proof.
  intros Hx. destruct x as [values | v len]; cbn [folded_fold].
  - pose proof (tab_table_inv _ _ _ Hx) as ->. destruct Hx as (_ & Hl & _). destruct (fold_table_pow f n c Hl) as (-> & _ & Hl').
    rewrite bind_of_ok. eexists. split; [done | by apply tab_table].
  - destruct Hx as (Hlen & Hl & Hv). change (len = (2 ^ S n)%nat) in Hlen. subst len. destruct (even_pow n) as [-> ->]. eexists. split; [done |].
    apply tab_constant; [by rewrite <- Nat.pow_succ_r' |]. intros i Hi. rewrite <- Nat.pow_succ_r' in Hi. specialize (Hv i Hi).
    cbn [table_value folded_table folded_value] in Hv. rewrite (proj2 (Nat.leb_gt _ _)) in Hv by done. by injection Hv.
Qed.

Lemma collect_ok {A B} (g : A → sc_result F B) (h : A → B) l : (∀ a, In a l → g a = Ok (h a)) → collect (map g l) = Ok (map h l).
Proof.
  induction l as [| a l IH]; intros Hg; [done |]. cbn [map collect]. rewrite Hg by (by left). rewrite bind_of_ok, IH; [done |]. intros b Hb. apply Hg. by right.
Qed.
Lemma fold_chunks_lines n (f : list F) c : length f = (2 * n)%nat → map (λ i, pair_line f i c) (seq 0 n) = fold_chunks f c.
Proof.
  intros Hl. assert (Hl' : length (fold_chunks f c) = n) by (rewrite length_fold_chunks, Hl; apply Nat.div2_double).
  apply list_eq_same_length with n; [done | by rewrite length_map, length_seq |]. intros i a b Hi Ha Hb.
  pose proof (fold_chunks_row f i c n Hl Hi) as E. unfold at_row in E. rewrite Hb in E. revert Ha.
  change (map (λ i, pair_line f i c)) with (fmap (M := list) (λ i, pair_line f i c)). rewrite list_lookup_fmap, lookup_seq_lt by done.
  cbn. intros [= <-]. by symmetry.
Qed.
Lemma factor_fold_values n x f c : tab (2 ^ S n) x f →
  (if odd_or_small (factor_len x) then Err ScErr.FoldingShape
   else values ← collect (map (λ pair,
          low ← factor_value x (2 * pair);
          high ← factor_value x (2 * pair + 1);
          Ok (low + c * (high - low))) (seq 0 (Nat.div2 (factor_len x))));
        Ok (FoldedTable values)) = Ok (FoldedTable (fold_chunks f c)).
Proof.
  intros Hx. pose proof Hx as (Hlen & Hl & _). change (factor_len x = (2 ^ S n)%nat) in Hlen. rewrite Hlen. destruct (even_pow n) as [-> ->].
  rewrite (collect_ok _ (λ i, pair_line f i c)).
  - rewrite bind_of_ok, fold_chunks_lines by (by rewrite <- Nat.pow_succ_r'). done.
  - intros i Hi%in_seq. rewrite Nat.pow_succ_r' in *. change (factor_value x) with (table_value x).
    rewrite (tab_row _ _ _ (2 * i) Hx), bind_of_ok, (tab_row _ _ _ (2 * i + 1) Hx), bind_of_ok by lia. done.
Qed.
Lemma factor_fold_spec n (x : SumcheckFactor F) f c : tab (2 ^ S n) x f →
  ∃ x', factor_fold x c = Ok x' ∧ tab (2 ^ n) x' (fold_chunks f c).
Proof.
  intros Hx. pose proof (factor_fold_values n x f c Hx) as E.
  assert (Hl : length (fold_chunks f c) = (2 ^ n)%nat).
  { destruct Hx as (_ & Hl & _). by destruct (fold_table_pow f n c Hl) as (_ & _ & ?). }
  destruct x as [source | source scale offset | v len | sources scale offset len].
  1, 2, 4: unfold factor_fold; cbv zeta; rewrite E; eexists; split; [done | by apply tab_table].
  destruct Hx as (Hlen & Hf & Hv). change (len = (2 ^ S n)%nat) in Hlen. subst len. unfold factor_fold. destruct (even_pow n) as [-> ->].
  eexists. split; [done |]. apply tab_constant; [by rewrite <- Nat.pow_succ_r' |]. intros i Hi. rewrite <- Nat.pow_succ_r' in Hi.
  specialize (Hv i Hi). cbn [table_value factor_table factor_value] in Hv. rewrite (proj2 (Nat.leb_gt _ _)) in Hv by done.
  by injection Hv.
Qed.

Lemma collect_related {A B C} (g : A → sc_result F B) (h : C → C) (R : A → C → Prop) (R' : B → C → Prop) xs fs :
  Forall2 R xs fs → (∀ x f, R x f → ∃ x', g x = Ok x' ∧ R' x' (h f)) →
  ∃ xs', collect (map g xs) = Ok xs' ∧ Forall2 R' xs' (map h fs).
Proof.
  intros Hx Hg. induction Hx as [| x f xs fs Hx _ (xs' & E & IH)]; [exists []; by split; [| constructor] |].
  destruct (Hg x f Hx) as (x' & Ex & Hx'). exists (x' :: xs'). cbn [map collect]. rewrite Ex, bind_of_ok, E, bind_of_ok.
  split; [done | by constructor].
Qed.

Lemma fold_terms_spec n ts fs c : Forall2 (Forall2 (tab (2 ^ S n))) ts fs →
  ∃ ts', fold_terms BackendCpu ts c = Ok ts' ∧ Forall2 (Forall2 (tab (2 ^ n))) ts' (fold_all fs c).
Proof.
  intros Ht. apply (collect_related _ _ _ _ _ _ Ht). intros x f Hx. apply (collect_related _ _ _ _ _ _ Hx).
  intros y g. apply folded_fold_spec.
Qed.
Lemma fold_initial_terms_spec n ts fs c : Forall2 (Forall2 (tab (2 ^ S n))) ts fs →
  ∃ ts', fold_initial_terms ts c = Ok ts' ∧ Forall2 (Forall2 (tab (2 ^ n))) ts' (fold_all fs c).
Proof.
  intros Ht. apply (collect_related _ _ _ _ _ _ Ht). intros x f Hx. apply (collect_related _ _ _ _ _ _ Hx).
  intros y g. apply factor_fold_spec.
Qed.

(** ** Completeness *)

Definition sum_message (s : list F) (fs : list (list (list F))) (k : nat) : list F := map (sum_poly s fs) (nodes (k + 2)).

Definition sum_accepts (rounds : list (list F)) (round_index : nat) (claim : F) (t : transcript) (v : F)
    (point : list F) (t' : transcript) : Prop :=
  ∀ before, sum_verify_rounds rounds round_index claim before t = Ok (v, before ++ point, t').

Lemma sum_message_value s fs n k x : shaped (2 ^ S n) k s fs → Z.of_nat (k + 2) < 18446744073709551616 →
  evaluate_lagrange (sum_message s fs k) x = Ok (sum_poly s fs x).
Proof.
  intros Hs Hk. unfold sum_message. apply evaluate_lagrange_poly; [| lia | done]. rewrite Nat.pow_succ_r' in Hs.
  by apply (sum_poly_degree (2 ^ n) k).
Qed.
Lemma sum_message_ends s fs k : head (sum_message s fs k) = Some (sum_poly s fs f0) ∧ sum_message s fs k !! 1%nat = Some (sum_poly s fs f1).
Proof. unfold sum_message, nodes. replace (k + 2)%nat with (S (S k)) by lia. done. Qed.

Lemma sum_accepts_cons s fs n k rounds round_index t v challenge t1 point t' :
  shaped (2 ^ S n) k s fs → Z.of_nat (k + 2) < 18446744073709551616 →
  challenge_scalar (absorb_round t SUM_LABEL round_index (sum_message s fs k)) SUM_CHALLENGE_LABEL = (challenge, t1) →
  sum_accepts rounds (S round_index) (sum_poly s fs challenge) t1 v point t' →
  sum_accepts (sum_message s fs k :: rounds) round_index (sop s fs) t v (challenge :: point) t'.
Proof.
  intros Hs Hk Hc Ha before. cbn [sum_verify_rounds]. destruct (sum_message_ends s fs k) as [-> ->]. cbn [ok_or].
  rewrite !bind_of_ok. rewrite Nat.pow_succ_r' in Hs. rewrite bool_decide_eq_true_2 by (by apply (sum_poly_sum (2 ^ n) k)).
  cbn [negb]. rewrite Hc. rewrite <- Nat.pow_succ_r' in Hs. rewrite (sum_message_value s fs n k challenge Hs Hk), bind_of_ok.
  rewrite (Ha (before ++ [challenge])). by rewrite <- app_assoc.
Qed.

(** What [n] rounds from a list of terms add to the proof. *)
Record rounds_spec (n k : nat) (s : list F) (fs : list (list (list F))) (first : nat) (t : transcript)
    (new : list (list F)) (point : list F) (t' : transcript) : Prop := {
  rs_rounds : length new = n;
  rs_point : length point = n;
  rs_messages : Forall (λ m, length m = (k + 2)%nat) new;
  rs_accepted : sum_accepts new first (sop s fs) t (terminal_term_sum (end_terms s fs point)) point t'
}.

Lemma rounds_cons n k s fs first t c t1 new point t' : shaped (2 ^ S n) k s fs → Z.of_nat (k + 2) < 18446744073709551616 →
  challenge_scalar (absorb_round t SUM_LABEL first (sum_message s fs k)) SUM_CHALLENGE_LABEL = (c, t1) →
  rounds_spec n k (fold_chunks s c) (fold_all fs c) (S first) t1 new point t' →
  rounds_spec (S n) k s fs first t (sum_message s fs k :: new) (c :: point) t'.
Proof.
  intros Hs Hk Hc [Hn Hp Hm Ha]. split; [cbn; lia | cbn; lia | |].
  - constructor; [| done]. unfold sum_message, nodes. by rewrite !length_map, length_seq.
  - rewrite (end_fold _ _ _ _ k) by (by rewrite Hp). by eapply sum_accepts_cons.
Qed.

Lemma shared_prove_loop_spec n k : ∀ fuel x s ts fs rounds claim point t, term_tables n k x s ts fs → (n <= fuel)%nat →
  ∃ new new_point t', rounds_spec n k s fs (length rounds) t new new_point t' ∧
    shared_prove_loop BackendCpu fuel x ts (2 ^ n) rounds claim point t =
      Ok (MkSumProof (rounds ++ new) (end_terms s fs new_point), claim, point ++ new_point,
          absorb_term_finals t' (end_terms s fs new_point)).
Proof.
  induction n as [| n IH]; intros fuel x s ts fs rounds claim point t Ht Hf; pose proof (tt_shaped _ _ _ _ _ _ Ht) as Hsh.
  - exists [], [], t. split.
    + split; try done. intros before. cbn [sum_verify_rounds]. rewrite app_nil_r. by rewrite (sop_end s fs k Hsh).
    + destruct fuel; cbn [shared_prove_loop Nat.pow Nat.leb];
        rewrite (finish_spec x s ts fs _ _ _ _ (tt_shared _ _ _ _ _ _ Ht) (tt_terms _ _ _ _ _ _ Ht)); by rewrite !app_nil_r.
  - destruct fuel as [| fuel]; [lia |]. cbn [shared_prove_loop]. rewrite (proj2 (pow2_not_one n)).
    rewrite (round_message_spec n k x s ts fs Ht), bind_of_ok. cbv zeta. fold (sum_message s fs k).
    destruct (challenge_scalar _ SUM_CHALLENGE_LABEL) as [c t1] eqn:Ec. destruct Ht as [Hx Ht Hk Hfs Hk0 Hb].
    destruct (folded_fold_spec n x s c Hx) as (x' & -> & Hx'), (fold_terms_spec n ts fs c Ht) as (ts' & -> & Ht').
    rewrite !bind_of_ok, (proj2 (even_pow n)).
    destruct (IH fuel x' (fold_chunks s c) ts' (fold_all fs c) (rounds ++ [sum_message s fs k]) claim (point ++ [c]) t1)
      as (new & np & t' & Hr & E); [| lia |].
    { split; [done | done | | by destruct fs | done | done]. apply Forall_map. eapply Forall_impl; [exact Hk |].
      intros term Hl. cbn. by rewrite length_map. }
    exists (sum_message s fs k :: new), (c :: np), t'. rewrite length_app, Nat.add_1_r in Hr.
    split; [by eapply rounds_cons |]. rewrite E, <- !app_assoc, (end_fold s fs c np k) by (by rewrite (rs_point _ _ _ _ _ _ _ _ _ Hr)).
    done.
Qed.

(** The terms with their shared factor. *)
Definition with_shared (s : list F) (fs : list (list (list F))) : list (list (list F)) := map (cons s) fs.
(** The sum over the rows of the sum of the terms' products. *)
Definition total (n : nat) (full : list (list (list F))) : F := fsum (terms_row full) (seq 0 n).

Lemma total_shared s fs : total (length s) (with_shared s fs) = sop s fs.
Proof.
  apply fsum_ext. intros i _. unfold terms_row, with_shared. rewrite fsum_map, <- fsum_scale. done.
Qed.

(** Tables at one address with one length are one table. *)
Definition coherent (terms : list (list (SumcheckFactor F))) : Prop := ∀ a b a' b' term term',
  a :: a' = term → b :: b' = term' → term ∈ terms → term' ∈ terms → same_table a b = true → factor_value a = factor_value b.

Lemma same_table_len (a b : SumcheckFactor F) : same_table a b = true → factor_len a = factor_len b.
Proof. destruct a, b; try done. cbn. intros [E%Nat.eqb_eq _]%andb_true_iff. done. Qed.
Lemma tab_inj {T} `{!SumcheckTable F T} n (x : T) f g : tab n x f → tab n x g → f = g.
Proof.
  intros (_ & Hf & Hv) (_ & Hg & Hv'). apply list_eq_same_length with n; [done | done |]. intros i a b Hi Ha Hb.
  specialize (Hv i Hi). rewrite (Hv' i Hi) in Hv. unfold at_row in Hv. rewrite Ha, Hb in Hv. by injection Hv.
Qed.

Lemma split_terms_spec n (shared : SumcheckFactor F) s terms full others : tab n shared s →
  (∀ b b', b :: b' ∈ terms → same_table shared b = true → factor_value b = factor_value shared) →
  collect (map (split_term shared) terms) = Ok others → Forall2 (Forall2 (tab n)) terms full →
  ∃ fs, full = with_shared s fs ∧ Forall2 (Forall2 (tab n)) others fs.
Proof.
  intros Hs Hc E Ht. revert others Hc E. induction Ht as [| x f xs fs Hx _ IH]; intros others Hc E.
  { injection E as <-. by exists []. }
  cbn [map collect] in E. apply bind_ok in E as (x' & Ex & (xs' & Exs & E)%bind_ok). injection E as <-.
  destruct (IH xs') as (gs & -> & Hgs); [intros b b' Hin; apply (Hc b b'); set_solver | done |].
  destruct x as [| b x]; [done |]. cbn [split_term] in Ex. destruct (same_table shared b) eqn:Es; [| done]. injection Ex as <-.
  inversion Hx as [| ? g ? gs' Hb Hx']; subst. assert (g = s) as ->.
  { apply (tab_inj n b); [done |]. destruct Hs as (Hl & Hls & Hv). split; [change (factor_len b = n); by rewrite <- (same_table_len _ _ Es) |].
    split; [done |]. intros i Hi. change (factor_value b i = Ok (at_row i s)). rewrite (Hc b x) by (done || set_solver). by apply Hv. }
  exists (gs' :: gs). split; [done | by constructor].
Qed.
Lemma split_shared_spec n terms full shared others : coherent terms → split_shared_first terms = Ok (shared, others) →
  Forall2 (Forall2 (tab n)) terms full → ∃ s fs, full = with_shared s fs ∧ tab n shared s ∧ Forall2 (Forall2 (tab n)) others fs.
Proof.
  intros Hc E Ht. destruct terms as [| [| x first] terms]; [done | done |]. cbn [split_shared_first] in E.
  apply bind_ok in E as (stripped & E & Eq). injection Eq as <- <-.
  inversion Ht as [| ? f ? full' Hf Ht']; subst. inversion Hf as [| ? s ? fs Hs Hfs]; subst.
  destruct (split_terms_spec n x s terms full' stripped Hs) as (gs & -> & Hgs); [| done | done |].
  - intros b b' Hin Es. symmetry. apply (Hc x b first b' (x :: first) (b :: b')); try done; set_solver.
  - exists s, (fs :: gs). split; [done |]. split; [done | by constructor].
Qed.

(** An honest proof and its acceptance. *)
Record sum_proved (n k : nat) (full : list (list (list F))) (t : transcript) (proof : SumOfProductsSumcheckProof F)
    (point : list F) (t' : transcript) : Prop := {
  sv_length : length point = n;
  sv_finals : final_terms proof = map (map (λ f, mle f point)) full;
  sv_accepted : sum_verify proof (total (2 ^ n) full) n (length full) (k + 1) t = Ok (point, t')
}.

Lemma end_with_shared s fs point : end_terms s fs point = map (map (λ f, mle f point)) (with_shared s fs).
Proof. unfold end_terms, with_shared. by rewrite map_map. Qed.
Lemma rounds_proved n k s fs t new point t' : length s = (2 ^ n)%nat → Forall (λ f, length f = k) fs →
  rounds_spec n k s fs 0 t new point t' →
  sum_proved n k (with_shared s fs) t (MkSumProof new (end_terms s fs point)) point (absorb_term_finals t' (end_terms s fs point)).
Proof.
  intros Hs Hk [Hn Hp Hm Ha]. split; [done | by rewrite <- end_with_shared |]. unfold sum_verify, validate_shape.
  cbn [sp_rounds final_terms]. rewrite Hn, Nat.eqb_refl.
  assert (length (end_terms s fs point) = length (with_shared s fs)) as ->.
  { unfold end_terms, with_shared. by rewrite !length_map. }
  rewrite Nat.eqb_refl. cbn [negb orb].
  assert (existsb (λ term, negb (length term =? k + 1)%nat) (end_terms s fs point) = false) as ->.
  { rewrite Nat.add_1_r. clear - Hk. induction Hk as [| f fs Hf _ IH]; [done |]. unfold end_terms in *. cbn [map existsb length].
    rewrite length_map, Hf, Nat.eqb_refl. exact IH. }
  assert (existsb (λ round, negb (length round =? k + 1 + 1)%nat) new = false) as ->.
  { clear - Hm. induction Hm as [| m ms Hm _ IH]; [done |]. cbn. rewrite Hm, IH.
    replace (k + 1 + 1)%nat with (k + 2)%nat by lia. by rewrite Nat.eqb_refl. }
  cbn [orb]. rewrite bind_of_ok. rewrite <- Hs, total_shared, (Ha []), bind_of_ok. cbv beta iota. cbn [app].
  by rewrite bool_decide_eq_true_2.
Qed.

Lemma prove_shared_complete n k terms full shared others t : coherent terms →
  split_shared_first terms = Ok (shared, others) → Forall2 (Forall2 (tab (2 ^ n))) terms full →
  Forall (λ f, length f = (k + 1)%nat) full → k ≠ 0%nat → Z.of_nat (k + 2) < 18446744073709551616 →
  ∃ proof point t', prove_shared_first terms BackendCpu t = Ok (proof, total (2 ^ n) full, point, t') ∧
    sum_proved n k full t proof point t'.
Proof.
  intros Hc Hsp Ht Hk Hk0 Hb. destruct (split_shared_spec _ _ _ _ _ Hc Hsp Ht) as (s & fs & -> & Hs & Ho).
  assert (Hk' : Forall (λ f, length f = k) fs).
  { unfold with_shared in Hk. apply Forall_map in Hk. eapply Forall_impl; [exact Hk |]. cbn. intros; lia. }
  assert (Htt : term_tables n k shared s others fs).
  { split; try done. intros ->. inversion Ho; subst. destruct terms as [| [| x first] terms]; [done | done |].
    cbn [split_shared_first] in Hsp. by apply bind_ok in Hsp as (? & _ & ?). }
  pose proof (tt_shaped _ _ _ _ _ _ Htt) as Hsh. pose proof Hs as (Hls & Hl & _).
  pose proof (validate_terms_spec n k others fs Ho Hk' (tt_some _ _ _ _ _ _ Htt) Hk0) as Hval.
  pose proof (shared_sum_spec n k shared s others fs Hs Ho Hk' (tt_some _ _ _ _ _ _ Htt) Hk0) as Hsum.
  unfold prove_shared_first. rewrite Hsp, bind_of_ok, Hval, bind_of_ok, Hls, Nat.eqb_refl. cbn [negb].
  rewrite Hsum, bind_of_ok, variable_count_pow, bind_of_ok. rewrite <- Hl, total_shared, Hl.
  destruct n as [| n].
  - cbn [Nat.pow Nat.eqb]. rewrite (finish_spec shared s others fs) by done. eexists _, _, _. split; [done |].
    apply rounds_proved; [done | done |]. split; try done. intros before. cbn [sum_verify_rounds].
    rewrite app_nil_r. by rewrite (sop_end s fs k Hsh).
  - rewrite (proj1 (pow2_not_one n)), (round_message_spec n k shared s others fs Htt), bind_of_ok. cbv zeta.
    fold (sum_message s fs k). destruct (challenge_scalar _ SUM_CHALLENGE_LABEL) as [c t1] eqn:Ec.
    destruct (factor_fold_spec n shared s c Hs) as (x' & -> & Hx'), (fold_initial_terms_spec n others fs c Ho) as (ts' & -> & Ht').
    rewrite !bind_of_ok, (proj2 (even_pow n)).
    destruct (shared_prove_loop_spec n k (2 ^ S n) x' (fold_chunks s c) ts' (fold_all fs c) [sum_message s fs k] (sop s fs) [c] t1)
      as (new & np & t' & Hr & E).
    { split; [done | done | | | done | done]; [| intros Hf; apply (tt_some _ _ _ _ _ _ Htt); by destruct fs].
      apply Forall_map. eapply Forall_impl; [exact Hk' |]. intros term Hlt. cbn. by rewrite length_map. }
    { etransitivity; [| apply Nat.lt_le_incl, Nat.pow_gt_lin_r; lia]. lia. }
    eexists _, _, _. split; [exact E |]. cbn [app].
    rewrite <- (end_fold s fs c np k) by (by rewrite (rs_point _ _ _ _ _ _ _ _ _ Hr)).
    apply rounds_proved; [done | done |]. by eapply rounds_cons.
Qed.

(** ** Any backend *)

Lemma collect_mono {A B} (g g' : A → sc_result F B) l : (∀ a b, g a = Ok b → g' a = Ok b) → ∀ ys,
  collect (map g l) = Ok ys → collect (map g' l) = Ok ys.
Proof.
  intros Hg. induction l as [| a l IH]; intros ys; cbn [map collect]; [done |].
  intros (b & Hb & (bs & Hbs & E)%bind_ok)%bind_ok. by rewrite (Hg _ _ Hb), bind_of_ok, (IH _ Hbs), bind_of_ok.
Qed.
Lemma folded_fold_cpu backend (x : FoldedFactor F) c x' : faithful_device →
  folded_fold backend x c = Ok x' → folded_fold BackendCpu x c = Ok x'.
Proof.
  intros Hd. destruct x as [values | v len]; [| done]. cbn [folded_fold]. intros (y & Hy & E)%bind_ok.
  by rewrite (fold_table_cpu _ _ _ _ Hd Hy), bind_of_ok.
Qed.
Lemma fold_terms_cpu backend (ts : list (list (FoldedFactor F))) c ts' : faithful_device →
  fold_terms backend ts c = Ok ts' → fold_terms BackendCpu ts c = Ok ts'.
Proof.
  intros Hd. unfold fold_terms. apply collect_mono. intros x y. apply collect_mono. intros z z'. by apply folded_fold_cpu.
Qed.
Lemma shared_prove_loop_cpu backend fuel : faithful_device → ∀ x ts len rounds claim point t out,
  shared_prove_loop backend fuel x ts len rounds claim point t = Ok out →
  shared_prove_loop BackendCpu fuel x ts len rounds claim point t = Ok out.
Proof.
  intros Hd. induction fuel as [| fuel IH]; intros x ts len rounds claim point t out; cbn [shared_prove_loop]; [done |].
  destruct (len <=? 1)%nat; [done |]. intros (m & -> & E)%bind_ok. rewrite bind_of_ok. cbv zeta in *.
  destruct (challenge_scalar _ _) as [c t1]. apply bind_ok in E as (x' & Ex & (ts' & Et & E)%bind_ok).
  rewrite (folded_fold_cpu _ _ _ _ Hd Ex), bind_of_ok, (fold_terms_cpu _ _ _ _ Hd Et), bind_of_ok. by apply IH.
Qed.
Lemma prove_shared_cpu backend terms t out : faithful_device →
  prove_shared_first terms backend t = Ok out → prove_shared_first terms BackendCpu t = Ok out.
Proof.
  intros Hd. unfold prove_shared_first. intros ([shared others] & -> & E)%bind_ok. rewrite bind_of_ok.
  apply bind_ok in E as ([[a b] len] & -> & E). rewrite bind_of_ok. destruct (negb _); [done |].
  apply bind_ok in E as (claim & -> & (k & -> & E)%bind_ok). rewrite !bind_of_ok. destruct (len =? 1)%nat; [done |].
  apply bind_ok in E as (m & -> & E). rewrite bind_of_ok. cbv zeta in *. destruct (challenge_scalar _ _) as [c t1].
  apply bind_ok in E as (x' & -> & (ts' & -> & E)%bind_ok). rewrite !bind_of_ok. by apply (shared_prove_loop_cpu backend).
Qed.

(** ** Soundness *)

Lemma sum_verify_rounds_point rounds : ∀ round_index claim before t v point t',
  sum_verify_rounds rounds round_index claim before t = Ok (v, point, t') →
  ∃ new, point = before ++ new ∧ length new = length rounds ∧
    ∀ i, (i < length rounds)%nat → new !! i = challenge_at SUM_LABEL SUM_CHALLENGE_LABEL rounds round_index t i.
Proof.
  induction rounds as [| m rounds IH]; intros k claim before t v point t'; cbn [sum_verify_rounds].
  { intros [= _ <- _]. exists []. split; [by rewrite app_nil_r |]. split; [done | intros i Hi; cbn in Hi; lia]. }
  intros (a & _ & (b & _ & E)%bind_ok)%bind_ok. revert E. case_bool_decide; [| done]. cbn [negb challenge_at]. cbv zeta.
  destruct (challenge_scalar _ SUM_CHALLENGE_LABEL) as [c t1]. intros (claim' & _ & E)%bind_ok.
  apply IH in E as (new & -> & Hl & Hi). exists (c :: new). rewrite <- app_assoc. split; [done |].
  split; [cbn; lia |]. intros [| i] Hlt; [done |]. cbn [lookup list_lookup length] in *. apply Hi. lia.
Qed.

(** The message the tables call for after a prefix of challenges. *)
Definition right_sum_message (s : list F) (fs : list (list (list F))) (k : nat) (challenges : list F) : list F :=
  sum_message (fold_tables s challenges) (foldl fold_all fs challenges) k.

Lemma sum_verify_rounds_sound rounds k : Z.of_nat (k + 2) < 18446744073709551616 →
  ∀ round_index claim before t v point t' s fs,
  shaped (2 ^ length rounds) k s fs → Forall (λ m, length m = (k + 2)%nat) rounds →
  sum_verify_rounds rounds round_index claim before t = Ok (v, before ++ point, t') →
  v = terminal_term_sum (end_terms s fs point) →
  claim = sop s fs ∨ ∃ i message challenge, rounds !! i = Some message ∧ point !! i = Some challenge ∧
    fooled message (right_sum_message s fs k (take i point)) challenge.
Proof.
  intros Hk. induction rounds as [| message rounds IH]; intros ri claim before t v point t' s fs Hsh Hm Hv Hfin.
  { cbn [sum_verify_rounds] in Hv. injection Hv as <- Hp _. left. rewrite <- (app_nil_r before) in Hp at 1.
    apply app_inv_head in Hp as <-. rewrite Hfin. symmetry. by apply (sop_end s fs k). }
  cbn [length] in Hsh. apply Forall_cons in Hm as [_ Hm]. destruct (decide (message = sum_message s fs k)) as [-> | Hne].
  { left. cbn [sum_verify_rounds] in Hv. destruct (sum_message_ends s fs k) as [E0 E1]. rewrite E0, E1 in Hv. cbn [ok_or] in Hv.
    rewrite !bind_of_ok in Hv. revert Hv. case_bool_decide as Hs; [| done]. intros _. rewrite <- Hs.
    rewrite Nat.pow_succ_r' in Hsh. by apply (sum_poly_sum (2 ^ length rounds) k). }
  cbn [sum_verify_rounds] in Hv. apply bind_ok in Hv as (a & _ & (b & _ & Hv)%bind_ok). revert Hv. case_bool_decide; [| done].
  cbn [negb]. cbv zeta. destruct (challenge_scalar _ SUM_CHALLENGE_LABEL) as [c t1]. intros (claim' & Hc & Hv)%bind_ok.
  pose proof (sum_verify_rounds_point _ _ _ _ _ _ _ _ Hv) as (new & Hp & Hlen & _). rewrite <- app_assoc in Hp.
  apply app_inv_head in Hp. cbn [app] in Hp. subst point. pose proof (sum_message_value s fs _ k c Hsh Hk) as Hg. right.
  destruct (decide (claim' = sum_poly s fs c)) as [Hcl | Hcl].
  { exists 0%nat, message, c. split; [done |]. split; [done |]. split; [done |]. cbn [take]. by rewrite Hc, Hcl, <- Hg. }
  replace (before ++ c :: new) with ((before ++ [c]) ++ new) in Hv by (by rewrite <- app_assoc).
  rewrite (end_fold s fs c new k) in Hfin by (by rewrite Hlen). rewrite Nat.pow_succ_r' in Hsh.
  destruct (IH _ _ _ _ _ _ _ _ _ (shaped_fold _ _ _ _ c Hsh) Hm Hv Hfin) as [E | (i & m & ch & Hi & Hpi & Hf)]; [done |].
  exists (S i), m, ch. split; [done |]. split; [done |]. exact Hf.
Qed.
Lemma validate_shape_ok (proof : SumOfProductsSumcheckProof F) n m k : validate_shape proof n m k = Ok () →
  length (sp_rounds proof) = n ∧ length (final_terms proof) = m ∧ Forall (λ r, length r = (k + 1)%nat) (sp_rounds proof).
Proof.
  unfold validate_shape. destruct (Nat.eqb_spec (length (sp_rounds proof)) n); [| done].
  destruct (Nat.eqb_spec (length (final_terms proof)) m); [| done]. cbn [negb orb]. destruct (existsb _ (final_terms proof)); [done |].
  cbn [orb]. destruct (existsb _ (sp_rounds proof)) eqn:E; [done |]. intros _. split; [done |]. split; [done |].
  apply Forall_forall. intros r Hr. destruct (Nat.eqb_spec (length r) (k + 1)) as [| Hne]; [done |]. exfalso.
  apply eq_true_false_abs with (2 := E). apply existsb_exists. exists r. split; [by apply list_elem_of_In |].
  by rewrite (proj2 (Nat.eqb_neq _ _) Hne).
Qed.
End sums.
