(* ===== verification/Sumchecks.v ===== *)
(** * What the sumchecks guarantee

    The claims about the product sumcheck, its sparse prover and the sum of products: an honest proof of any
    faithful backend is accepted and claims the right sum; an accepted proof with honest end values claims the
    right sum unless one of its challenges, each drawn after the message it tests, hit one of the few points
    where a wrong message agrees with the right one. *)
From Stdlib Require Import Qcanon.
From S2P Require Import Prelude Image Field Fold Sumcheck SumcheckSpec SumProducts SumProductsSpec SparseSpec.

Section claims.
Context {F : Type} `{FieldLaws F} `{!CudaFolder F, !Transcript F}.
Local Open Scope field_scope.

(** C25. For two tables of [2 ^ n] entries and a device that folds like the processor, proving on the processor
    succeeds, and whatever any backend proves claims the inner product, gives the multilinear extensions of the
    tables at the challenge point as end values, and is accepted by the verifier with the same point and
    transcript. *)
Theorem product_sumcheck_complete n (l r : list F) t :
  length l = (2 ^ n)%nat → length r = (2 ^ n)%nat → faithful_device →
  (∃ out, prove l r BackendCpu t = Ok out) ∧
  ∀ backend proof claim point t', prove l r backend t = Ok (proof, claim, point, t') →
    claim = dot l r ∧ length point = n ∧ final_left proof = mle l point ∧ final_right proof = mle r point ∧
    verify proof claim n t = Ok (point, t').
Proof.
  intros Hl Hr Hd. destruct (prove_complete n l r t Hl Hr) as (proof & point & t' & E & Hp). split; [by eexists |].
  intros backend proof' claim point' t'' E'. apply (prove_cpu _ _ _ _ _ Hd) in E'. rewrite E in E'.
  injection E' as <- <- <- <-. by destruct Hp.
Qed.

(** C24. If the verifier accepts a proof whose end values are the tables' multilinear extensions at its point, the
    claim is the inner product of the tables; otherwise some round's challenge, which the transcript gives after
    the messages up to that round, is one of the at most two where the wrong message takes the right value. *)
Theorem product_sumcheck_sound n (l r : list F) proof claim t point t' :
  length l = (2 ^ n)%nat → length r = (2 ^ n)%nat → verify proof claim n t = Ok (point, t') →
  final_left proof = mle l point → final_right proof = mle r point →
  claim = dot l r ∨ ∃ i message challenge, ps_rounds proof !! i = Some message ∧ point !! i = Some challenge ∧
    challenge_at PRODUCT_LABEL CHALLENGE_LABEL (map message_list (take (S i) (ps_rounds proof))) 0 t i = Some challenge ∧
    let wrong := fooled (message_list message) (right_message l r (take i point)) in
    wrong challenge ∧ ∀ challenges, NoDup challenges → Forall wrong challenges → (length challenges <= 2)%nat.
Proof.
  intros Hl Hr Hv El Er. unfold verify in Hv. destruct (Nat.eqb_spec (length (ps_rounds proof)) n) as [<- |]; [| done].
  cbn [negb] in Hv. apply bind_ok in Hv as ([[v point'] t1] & Hv & E). case_bool_decide as Hfin; [| done]. cbn [negb] in E.
  injection E as <- _. pose proof (verify_rounds_point _ _ _ _ _ _ _ _ Hv) as (new & -> & Hlen & Hch). cbn [app] in *.
  destruct (verify_rounds_sound _ _ _ [] _ _ new _ l r Hl Hr Hv) as [E | (i & m & c & Hi & Hc & Hf)]; [by rewrite Hfin, El, Er | by left |].
  right. exists i, m, c. split; [done |]. split; [done |]. split.
  - rewrite <- Hc, Hch by (by eapply lookup_lt_Some). rewrite <- firstn_map. symmetry. apply challenge_at_prefix.
  - split; [done |]. intros cs Hnd Hcs.
    assert (length cs < 3)%nat; [| lia]. assert (Hrl : length (right_message l r (take i new)) = 3%nat).
    { unfold right_message. by destruct (product_pairs _ _) as [[? ?] ?]. }
    rewrite <- Hrl. apply (fooled_bound (message_list m)); [| rewrite Hrl; done | by destruct Hf | done | done].
    rewrite Hrl. by destruct m as [[? ?] ?].
Qed.

(** C28. For entries below the logical length the sparse prover gives, proof, claim, point and transcript, what the
    dense prover gives for the table that adds up the entries of each index, in whatever order they come. *)
Theorem sparse_proves_dense n entries (right : list F) t :
  below (2 ^ n) entries → length right = (2 ^ n)%nat →
  prove_sparse_left entries (2 ^ n) right BackendCpu t = prove (dense entries (2 ^ n)) right BackendCpu t ∧
  ∃ proof point t', prove_sparse_left entries (2 ^ n) right BackendCpu t =
    Ok (proof, dot (dense entries (2 ^ n)) right, point, t').
Proof.
  intros Hb Hr. rewrite (prove_sparse_dense n entries right t Hb Hr). split; [done |].
  destruct (prove_complete n (dense entries (2 ^ n)) right t) as (proof & point & t' & E & _); [apply length_dense | done |].
  by exists proof, point, t'.
Qed.

(** C27. For terms whose factors denote tables of [2 ^ n] entries and whose first factors are one table in memory,
    proving on the processor succeeds, and whatever any backend proves claims the sum over the rows of the sum
    of the products, ends in the tables' multilinear extensions and is accepted. *)
Theorem sum_of_products_complete n k terms (full : list (list (list F))) split t :
  coherent terms → split_shared_first terms = Ok split → Forall2 (Forall2 (tab (2 ^ n))) terms full →
  Forall (λ f, length f = (k + 1)%nat) full → k ≠ 0%nat → Z.of_nat (k + 2) < 18446744073709551616 → faithful_device →
  (∃ out, prove_shared_first terms BackendCpu t = Ok out) ∧
  ∀ backend proof claim point t', prove_shared_first terms backend t = Ok (proof, claim, point, t') →
    claim = total (2 ^ n) full ∧ length point = n ∧ final_terms proof = map (map (λ f, mle f point)) full ∧
    sum_verify proof claim n (length full) (k + 1) t = Ok (point, t').
Proof.
  intros Hc Hs Ht Hk Hk0 Hb Hd. destruct split as [shared others].
  destruct (prove_shared_complete n k terms full shared others t Hc Hs Ht Hk Hk0 Hb) as (proof & point & t' & E & Hp).
  split; [by eexists |]. intros backend proof' claim point' t'' E'. apply (prove_shared_cpu _ _ _ _ Hd) in E'. rewrite E in E'.
  injection E' as <- <- <- <-. by destruct Hp.
Qed.

(** C26. If the verifier accepts a sum-of-products proof whose end values are the multilinear extensions of the
    terms' tables, which share their first, the claim is the sum over the rows of the sum of the products, or
    some round's challenge, given after the messages up to that round, is one of the at most [k + 1] where the
    wrong message takes the right value. *)
Theorem sum_of_products_sound n k (s : list F) fs proof claim t point t' :
  shaped (2 ^ n) k s fs → Z.of_nat (k + 2) < 18446744073709551616 →
  sum_verify proof claim n (length fs) (k + 1) t = Ok (point, t') →
  final_terms proof = map (map (λ f, mle f point)) (with_shared s fs) →
  claim = total (2 ^ n) (with_shared s fs) ∨
  ∃ i message challenge, sp_rounds proof !! i = Some message ∧ point !! i = Some challenge ∧
    challenge_at SUM_LABEL SUM_CHALLENGE_LABEL (take (S i) (sp_rounds proof)) 0 t i = Some challenge ∧
    let wrong := fooled message (right_sum_message s fs k (take i point)) in
    wrong challenge ∧ ∀ challenges, NoDup challenges → Forall wrong challenges → (length challenges <= k + 1)%nat.
Proof.
  intros Hsh Hk Hv Hends. unfold sum_verify in Hv. apply bind_ok in Hv as ([] & Hshape & Hv).
  apply validate_shape_ok in Hshape as (<- & _ & Hm). apply bind_ok in Hv as ([[v point'] t1] & Hv & E).
  case_bool_decide as Hfin; [| done]. cbn [negb] in E. injection E as <- _.
  pose proof (sum_verify_rounds_point _ _ _ _ _ _ _ _ Hv) as (new & -> & Hlen & Hch). cbn [app] in *.
  assert (Hm' : Forall (λ m, length m = (k + 2)%nat) (sp_rounds proof)) by (eapply Forall_impl; [exact Hm |]; cbn; intros; lia).
  rewrite <- end_with_shared in Hends. rewrite Hends in Hfin. pose proof Hsh as [Hs _]. rewrite <- Hs, total_shared.
  destruct (sum_verify_rounds_sound _ k Hk _ _ [] _ _ new _ s fs Hsh Hm' Hv Hfin) as [E | (i & m & c & Hi & Hc & Hf)]; [by left |].
  right. exists i, m, c. split; [done |]. split; [done |]. split.
  - rewrite <- Hc, Hch by (by eapply lookup_lt_Some). symmetry. apply challenge_at_prefix.
  - split; [done |]. intros cs Hnd Hcs. assert (length cs < k + 2)%nat; [| lia].
    assert (Hrl : length (right_sum_message s fs k (take i new)) = (k + 2)%nat).
    { unfold right_sum_message, sum_message, nodes. by rewrite !length_map, length_seq. }
    rewrite <- Hrl. apply (fooled_bound m); [| by rewrite Hrl | by destruct Hf | done | done].
    rewrite Hrl. rewrite Forall_lookup in Hm'. by apply (Hm' i).
Qed.

(** Two ways to meet the hypotheses on factors. *)
Lemma coherent_head a terms : Forall (λ term, head term = Some a) terms → coherent terms.
Proof.
  rewrite Forall_forall. intros Hh x y x' y' term term' <- <- Hx Hy _. apply Hh in Hx, Hy. cbn in *. congruence.
Qed.
Lemma tab_borrowed n address (values : list F) : length values = n → tab n (factor_borrowed address values) values.
Proof.
  intros Hl. split; [done |]. split; [done |]. intros i Hi. destruct (lookup_lt_is_Some_2 values i) as [v Hv]; [lia |].
  cbn. unfold value_at, at_row. by rewrite Hv.
Qed.
Lemma tab_constant_factor n (v : F) : tab n (Constant v n) (replicate n v).
Proof.
  split; [done |]. split; [apply length_replicate |]. intros i Hi. cbn. rewrite (proj2 (Nat.leb_gt _ _)) by done.
  unfold at_row. by rewrite lookup_replicate_2.
Qed.
End claims.

(** ** Witnesses: rational tables, a device that folds them and a counting transcript *)

Local Open Scope Z_scope.
Definition counting_transcript : Transcript Qc := {|
  transcript := Z; append_bytes t _ _ := t + 1; append_field t _ _ := t + 1;
  challenge_scalar t _ := (from_u64 t, t + 1)
|}.
#[local] Existing Instance folding_device.
#[local] Existing Instance counting_transcript.

Lemma folding_device_faithful : faithful_device (F := Qc).
Proof.
  intros folder values challenge folded. cbn. unfold fold_binary_layer_from_slice_cpu. by destruct (uneven values); [| intros [= <-]].
Qed.


Definition counter (z : Z) : transcript (Transcript := counting_transcript) := z.

Lemma product_sumcheck_complete_witness : ∃ proof claim point t',
  prove (rationals [1; 2]) (rationals [3; 4]) BackendCpu (counter 0) = Ok (proof, claim, point, t') ∧
  claim = dot (rationals [1; 2]) (rationals [3; 4]) ∧ length point = 1%nat ∧
  final_left proof = mle (rationals [1; 2]) point ∧ final_right proof = mle (rationals [3; 4]) point ∧
  verify proof claim 1 (counter 0) = Ok (point, t').
Proof.
  destruct (product_sumcheck_complete 1 (rationals [1; 2]) (rationals [3; 4]) (counter 0) eq_refl eq_refl folding_device_faithful)
    as [[[[[proof claim] point] t'] E] Hall].
  exists proof, claim, point, t'. split; [exact E |]. exact (Hall _ _ _ _ _ E).
Defined.

Definition rational (z : Z) : Qc := from_u64 z.
Definition honest_proof : ProductSumcheckProof Qc := MkProductProof [(rational 3, rational 8, rational 15)] (rational 6) (rational 8).

Lemma product_sumcheck_sound_witness : verify honest_proof (rational 11) 1 (counter 0) = Ok (rationals [5], counter 9) ∧
  (rational 11 = dot (rationals [1; 2]) (rationals [3; 4]) ∨ ∃ i message challenge,
    ps_rounds honest_proof !! i = Some message ∧ rationals [5] !! i = Some challenge ∧
    challenge_at PRODUCT_LABEL CHALLENGE_LABEL (map message_list (take (S i) (ps_rounds honest_proof))) 0 (counter 0) i = Some challenge ∧
    let wrong := fooled (message_list message) (right_message (rationals [1; 2]) (rationals [3; 4]) (take i (rationals [5]))) in
    wrong challenge ∧ ∀ challenges, NoDup challenges → Forall wrong challenges → (length challenges <= 2)%nat).
Proof.
  assert (Hv : verify honest_proof (rational 11) 1 (counter 0) = Ok (rationals [5], counter 9)) by reflexivity.
  split; [exact Hv |].
  apply (product_sumcheck_sound 1 (rationals [1; 2]) (rationals [3; 4]) honest_proof (rational 11) (counter 0) (rationals [5]) (counter 9));
    [reflexivity | reflexivity | exact Hv | apply Qc_is_canon; reflexivity | apply Qc_is_canon; reflexivity].
Defined.

Lemma sparse_proves_dense_witness :
  prove_sparse_left [(1%nat, rational 2); (0%nat, rational 1); (1%nat, rational 3)] 2 (rationals [3; 4]) BackendCpu (counter 0) =
    prove (dense [(1%nat, rational 2); (0%nat, rational 1); (1%nat, rational 3)] 2) (rationals [3; 4]) BackendCpu (counter 0).
Proof.
  apply (sparse_proves_dense 1 [(1%nat, rational 2); (0%nat, rational 1); (1%nat, rational 3)] (rationals [3; 4]) (counter 0));
    [repeat constructor | reflexivity].
Defined.

(** Two terms that share the table at address 1; a constant and another table beside it. *)
Definition example_terms : list (list (SumcheckFactor Qc)) :=
  [[factor_borrowed 1 (rationals [1; 2]); factor_borrowed 2 (rationals [3; 4])];
   [factor_borrowed 1 (rationals [1; 2]); Constant (rational 5) 2]].
Definition example_tables : list (list (list Qc)) :=
  [[rationals [1; 2]; rationals [3; 4]]; [rationals [1; 2]; rationals [5; 5]]].

Lemma sum_of_products_complete_witness : ∃ proof claim point t',
  prove_shared_first example_terms BackendCpu (counter 0) = Ok (proof, claim, point, t') ∧
  claim = total 2 example_tables ∧ length point = 1%nat ∧
  final_terms proof = map (map (λ f, mle f point)) example_tables ∧ sum_verify proof claim 1 2 2 (counter 0) = Ok (point, t').
Proof.
  destruct (sum_of_products_complete 1 1 example_terms example_tables
    (factor_borrowed 1 (rationals [1; 2]), [[factor_borrowed 2 (rationals [3; 4])]; [Constant (rational 5) 2]]) (counter 0))
    as [[[[[proof claim] point] t'] E] Hall].
  - apply (coherent_head (factor_borrowed 1 (rationals [1; 2]))). repeat constructor.
  - reflexivity.
  - constructor; [| constructor; [| constructor]]; constructor; [| constructor; [| constructor] | | constructor; [| constructor]];
      first [apply tab_borrowed; reflexivity | exact (tab_constant_factor 2 (rational 5))].
  - repeat constructor.
  - lia.
  - lia.
  - exact folding_device_faithful.
  - exists proof, claim, point, t'. split; [exact E |]. exact (Hall _ _ _ _ _ E).
Defined.

Definition honest_sum : SumOfProductsSumcheckProof Qc := MkSumProof [rationals [3; 8; 15]] [rationals [6; 8]].

Lemma sum_of_products_sound_witness : sum_verify honest_sum (rational 11) 1 1 2 (counter 0) = Ok (rationals [5], counter 10) ∧
  (rational 11 = total 2 (with_shared (rationals [1; 2]) [[rationals [3; 4]]]) ∨ ∃ i message challenge,
    sp_rounds honest_sum !! i = Some message ∧ rationals [5] !! i = Some challenge ∧
    challenge_at SUM_LABEL SUM_CHALLENGE_LABEL (take (S i) (sp_rounds honest_sum)) 0 (counter 0) i = Some challenge ∧
    let wrong := fooled message (right_sum_message (rationals [1; 2]) [[rationals [3; 4]]] 1 (take i (rationals [5]))) in
    wrong challenge ∧ ∀ challenges, NoDup challenges → Forall wrong challenges → (length challenges <= 2)%nat).
Proof.
  assert (Hv : sum_verify honest_sum (rational 11) 1 1 2 (counter 0) = Ok (rationals [5], counter 10)) by reflexivity.
  split; [exact Hv |].
  apply (sum_of_products_sound 1 1 (rationals [1; 2]) [[rationals [3; 4]]] honest_sum (rational 11) (counter 0) (rationals [5]) (counter 10)).
  - split; [reflexivity | repeat constructor].
  - lia.
  - exact Hv.
  - cbn. repeat f_equal; apply Qc_is_canon; reflexivity.
Defined.
