(* ===== verification/Uniform.v ===== *)
(** * Uniform relations (crates/zksm83-jolt/src/{uniform,uniform/relation,uniform/geometry,uniform/sumcheck}.rs)

    A fixed low-degree identity checked on every row: the trait of relations, the validation of a witness by
    chunks of rows, and the zero check, a sumcheck of the weighted combination of all constraints. Buffers
    that the code reuses are arguments and results where their old contents can be read: the constraint output
    of a relation that does not ask for it to be cleared. The number of threads is an argument. *)
From S2P Require Import Prelude Image Field Fold Sumcheck.

(** The errors of the commitment scheme, of its serialisation and of the operating system. *)
Class UniformExternal := { akita_error : Type; serialization_error : Type; io_error : Type }.

Module UniErr.
Inductive UniformError `{CudaFolder F} `{UniformExternal} :=
| EmptyRelation
| Shape
| WitnessUnsatisfied (row constraint : nat)
| Unsatisfied
| Sumcheck
| TerminalMismatch
| ZeroChallenge
| NonInvertibleInterpolation
| FieldFold (e : FieldFoldError F)
| Akita (e : akita_error)
| Serialization (e : serialization_error)
| PcsContext (message : string)
| WorkerSpawn (e : io_error)
| WorkerPanicked.
Arguments UniformError F {_ _}.
End UniErr.
Abbreviation UniformError := UniErr.UniformError.
Abbreviation uni_result F := (result (UniformError F)).

Module ConOut.
Inductive ConstraintOutput := ZeroInitialized | Overwritten.
#[global] Instance ConstraintOutput_eq_dec : EqDecision ConstraintOutput.
Proof. solve_decision. Defined.
End ConOut.
Abbreviation ConstraintOutput := ConOut.ConstraintOutput.

(** The trait [UniformRelation]: [evaluate] takes a row and the output buffer and returns the buffer. *)
Class UniformRelation (F R : Type) `{CudaFolder F} `{UniformExternal} := {
  domain : R → list Z;
  statement_bytes : R → list Z;
  column_count : R → nat;
  constraint_count : R → nat;
  max_constraint_degree : R → nat;
  constraint_output : R → ConstraintOutput;
  evaluate : R → list F → list F → uni_result F (list F)
}.

Definition UNIFORM_NUM_VARIABLES : nat := 14.
Definition UNIFORM_ROW_COUNT : nat := 2 ^ UNIFORM_NUM_VARIABLES.

Section uniform.
Context {F : Type} `{!FieldOps F, !EqDecision F, !CudaFolder F, !Transcript F, !UniformExternal}.
Local Open Scope field_scope.

(** [collect::<Result<_, _>>] *)
Fixpoint uni_collect {A} (l : list (uni_result F A)) : uni_result F (list A) :=
  match l with
  | [] => Ok []
  | r :: l => a ← r; rest ← uni_collect l; Ok (a :: rest)
  end.

Definition uni_evaluate_lagrange (evaluations : list F) (point : F) : uni_result F F :=
  if (length evaluations =? 0)%nat then Err UniErr.Sumcheck
  else ok_or (lagrange_loop point (length evaluations) 0 f0 evaluations) UniErr.NonInvertibleInterpolation.

Definition sample_point (t : transcript) (num_variables : nat) : list F * transcript :=
  Nat.iter num_variables (λ '(point, t), let '(c, t) := challenge_scalar t "row-point" in (point ++ [c], t)) ([], t).

Definition equality_evaluations (point : list F) : list F :=
  foldl (λ evaluations coordinate,
    map (λ value, value * (f1 - coordinate)) evaluations ++ map (λ value, value * coordinate) evaluations) [f1] point.
Definition equality_evaluation (left right : list F) : uni_result F F :=
  if negb (length left =? length right)%nat then Err UniErr.Shape
  else Ok (foldl (λ product '(l, r), product * (l * r + (f1 - l) * (f1 - r))) f1 (zip left right)).

Definition uni_absorb_round (t : transcript) (round_index : nat) (message : list F) : transcript :=
  let t := append_bytes t "sumcheck-round-index" (le_bytes 8 (Z.of_nat round_index)) in
  foldl (λ t value, append_field t "sumcheck-round-evaluation" value) t message.

(** Up to the last value that is not zero. *)
Fixpoint trim_zero_suffix (values : list F) : list F :=
  match values with
  | [] => []
  | v :: values =>
      match trim_zero_suffix values with
      | [] => if decide (v = f0) then [] else [v]
      | rest => v :: rest
      end
  end.

Definition constraint_powers (count : nat) (mix : F) : list F :=
  (Nat.iter count (λ '(powers, power), (powers ++ [power], power * mix)) ([], f1)).1.

(** ** Rows of a pair *)

Definition pair_low_and_delta (values : list F) (pair_index : nat) : uni_result F (F * F) :=
  low ← ok_or (values !! (2 * pair_index)%nat) UniErr.Shape;
  high ← ok_or (values !! (2 * pair_index + 1)%nat) UniErr.Shape;
  Ok (low, high - low).
(** The low row and the differences; their buffers have the length of the columns. *)
Definition load_pair_rows (columns : list (list F)) (pair_index : nat) : uni_result F (list (F * F)) :=
  uni_collect (map (λ column, pair_low_and_delta column pair_index) columns).
Definition interpolate_loaded_row (pair_rows : list (F * F)) (point : F) : list F :=
  map (λ '(low, delta), low + point * delta) pair_rows.
Definition interpolate_loaded_row_at_one (pair_rows : list (F * F)) : list F :=
  map (λ '(low, delta), low + delta) pair_rows.

Section relation.
Context {R : Type} `{!UniformRelation F R}.

Definition initialize_constraint_output (relation : R) (constraints : list F) : list F :=
  match constraint_output relation with
  | ConOut.ZeroInitialized => map (λ _, f0) constraints
  | ConOut.Overwritten => constraints
  end.

(** The combination of the constraints at a row, and the output buffer. *)
Definition combined_relation_with_powers (relation : R) (row powers constraints : list F) : uni_result F (F * list F) :=
  if negb (length row =? column_count relation)%nat then Err UniErr.Shape
  else if negb (length constraints =? constraint_count relation)%nat ||
          negb (length powers =? constraint_count relation)%nat then Err UniErr.Shape
  else
    constraints ← evaluate relation row (initialize_constraint_output relation constraints);
    Ok (foldl (λ combined '(constraint, power),
          if decide (constraint = f0) then combined else combined + power * constraint)
          f0 (zip (trim_zero_suffix constraints) powers), constraints).
Definition combined_relation_with_scratch (relation : R) (row : list F) (mix : F) (constraints : list F) :
    uni_result F (F * list F) :=
  combined_relation_with_powers relation row (constraint_powers (constraint_count relation) mix) constraints.
Definition combined_relation (relation : R) (row : list F) (mix : F) : uni_result F F :=
  '(combined, _) ← combined_relation_with_scratch relation row mix (replicate (constraint_count relation) f0);
  Ok combined.

(** ** Round messages *)

(** The loop of [accumulate_pair] over the points and the message from [point_index] on. *)
Fixpoint accumulate_points (relation : R) (pair_rows : list (F * F)) (weight_low weight_delta : F)
    (powers : list F) (point_index : nat) (points message constraints : list F) : uni_result F (list F * list F) :=
  match points, message with
  | point :: points, evaluation :: message =>
      let '(row, weight) :=
        match point_index with
        | O => (map fst pair_rows, weight_low)
        | 1%nat => (interpolate_loaded_row_at_one pair_rows, weight_low + weight_delta)
        | _ => (interpolate_loaded_row pair_rows point, weight_low + point * weight_delta)
        end in
      '(combined, constraints) ← combined_relation_with_powers relation row powers constraints;
      '(message, constraints) ← accumulate_points relation pair_rows weight_low weight_delta powers (S point_index)
        points message constraints;
      Ok ((evaluation + weight * combined) :: message, constraints)
  | _, message => Ok (message, constraints)
  end.
Definition accumulate_pair (relation : R) (columns : list (list F)) (weights : list F) (pair_index : nat)
    (points powers message constraints : list F) : uni_result F (list F * list F) :=
  pair_rows ← load_pair_rows columns pair_index;
  '(weight_low, weight_delta) ← pair_low_and_delta weights pair_index;
  accumulate_points relation pair_rows weight_low weight_delta powers 0 points message constraints.
(** [n] pairs from [pair_index] on. *)
Fixpoint accumulate_pairs (relation : R) (columns : list (list F)) (weights points powers : list F) (n pair_index : nat)
    (message constraints : list F) : uni_result F (list F) :=
  match n with
  | O => Ok message
  | S n =>
      '(message, constraints) ← accumulate_pair relation columns weights pair_index points powers message constraints;
      accumulate_pairs relation columns weights points powers n (S pair_index) message constraints
  end.
Definition sumcheck_round_precomputed (relation : R) (columns : list (list F)) (weights points powers constraints : list F) :
    uni_result F (list F) :=
  accumulate_pairs relation columns weights points powers (Nat.div2 (length weights)) 0 (map (λ _, f0) points) constraints.
Definition evaluate_pair_chunk (relation : R) (columns : list (list F)) (weights points powers : list F)
    (chunk pairs_per_chunk : nat) : uni_result F (list F) :=
  let pair_count := Nat.div2 (length weights) in
  let start := (chunk * pairs_per_chunk)%nat in
  let stop := Nat.min (start + pairs_per_chunk) pair_count in
  accumulate_pairs relation columns weights points powers (stop - start) start (map (λ _, f0) points)
    (replicate (constraint_count relation) f0).
Definition merge_round_messages (left right : list F) : uni_result F (list F) :=
  if negb (length left =? length right)%nat then Err UniErr.Shape else Ok (zip_with fadd left right).
Definition validate_round_shape (relation : R) (columns : list (list F)) (weights : list F) (evaluation_count : nat) :
    uni_result F () :=
  if (evaluation_count =? 0)%nat || negb (length columns =? column_count relation)%nat ||
     existsb (λ column, negb (length column =? length weights)%nat) columns ||
     (length weights <? 2)%nat || Nat.odd (length weights) then Err UniErr.Shape
  else Ok ().

Definition div_ceil (a b : nat) : nat := ((a + b - 1) / b)%nat.
Definition clamp (x low high : nat) : nat := Nat.min (Nat.max x low) high.
Definition PARALLEL_SUMCHECK_PAIR_THRESHOLD : nat := 64.
Definition SUMCHECK_CHUNKS_PER_THREAD : nat := 4.

(** The messages of the chunks are merged in order; [try_reduce] merges them in any tree over that order. *)
Fixpoint merge_chunks (message : list F) (chunks : list (uni_result F (list F))) : uni_result F (list F) :=
  match chunks with
  | [] => Ok message
  | chunk :: chunks => next ← chunk; message ← merge_round_messages message next; merge_chunks message chunks
  end.
Definition parallel_sumcheck_round_precomputed (threads : nat) (relation : R) (columns : list (list F))
    (weights points powers : list F) : uni_result F (list F) :=
  _ ← validate_round_shape relation columns weights (length points);
  if negb (length powers =? constraint_count relation)%nat then Err UniErr.Shape
  else
    let pair_count := Nat.div2 (length weights) in
    if (pair_count <? PARALLEL_SUMCHECK_PAIR_THRESHOLD)%nat || (threads =? 1)%nat then
      sumcheck_round_precomputed relation columns weights points powers (replicate (constraint_count relation) f0)
    else
      let desired_chunks := clamp (threads * SUMCHECK_CHUNKS_PER_THREAD) 1 pair_count in
      let pairs_per_chunk := div_ceil pair_count desired_chunks in
      let chunk_count := div_ceil pair_count pairs_per_chunk in
      merge_chunks (map (λ _, f0) points)
        (map (λ chunk, evaluate_pair_chunk relation columns weights points powers chunk pairs_per_chunk) (seq 0 chunk_count)).

(** ** The zero check *)

Definition UNI_CHALLENGE_LABEL : string := "sumcheck-round".

Definition backend_error {A} : result (FieldFoldError F) A → uni_result F A := map_err UniErr.FieldFold.
Definition fold_borrowed_columns (backend : NativeProverBackendState F) (columns : list (list F)) (challenge : F) :
    uni_result F (list (list F)) :=
  uni_collect (map (λ column, backend_error (backend_fold_from_slice backend column challenge)) columns).
Definition fold_columns (backend : NativeProverBackendState F) (columns : list (list F)) (challenge : F) :
    uni_result F (list (list F)) :=
  uni_collect (map (λ column, backend_error (backend_fold backend column challenge)) columns).

(** One round: the message, which has to add up to the claim, its challenge and the next claim. *)
Definition prover_round (threads : nat) (relation : R) (columns : list (list F)) (weights points powers : list F)
    (round_index : nat) (claim : F) (t : transcript) : uni_result F (list F * F * F * transcript) :=
  message ← parallel_sumcheck_round_precomputed threads relation columns weights points powers;
  at_zero ← ok_or (head message) UniErr.Sumcheck;
  at_one ← ok_or (message !! 1%nat) UniErr.Sumcheck;
  if negb (bool_decide (at_zero + at_one = claim)) then Err UniErr.Unsatisfied
  else
    let t := uni_absorb_round t round_index message in
    let '(challenge, t) := challenge_scalar t UNI_CHALLENGE_LABEL in
    claim ← uni_evaluate_lagrange message challenge;
    Ok (message, challenge, claim, t).

(** The end of [prove_sumcheck], after the loop. *)
Definition finish_sumcheck (relation : R) (columns : list (list F)) (weights : list F) (mix : F) (rounds : list (list F))
    (claim : F) (point : list F) (t : transcript) : uni_result F (list (list F) * list F * list F * transcript) :=
  opened_values ← uni_collect (map (λ column, ok_or (head column) UniErr.Shape) columns);
  terminal_weight ← ok_or (head weights) UniErr.Shape;
  '(terminal_relation, _) ← combined_relation_with_scratch relation opened_values mix
    (replicate (constraint_count relation) f0);
  if negb (bool_decide (claim = terminal_weight * terminal_relation)) then Err UniErr.TerminalMismatch
  else Ok (rounds, point, opened_values, t).

(** [while weights.len() > 1]; every round halves the weights. *)
Fixpoint sumcheck_loop (threads : nat) (backend : NativeProverBackendState F) (fuel : nat) (relation : R)
    (columns : list (list F)) (weights points powers : list F) (mix : F) (rounds : list (list F)) (claim : F)
    (point : list F) (t : transcript) : uni_result F (list (list F) * list F * list F * transcript) :=
  if (length weights <=? 1)%nat then finish_sumcheck relation columns weights mix rounds claim point t
  else
    match fuel with
    | O => Err UniErr.Shape
    | S fuel =>
        '(message, challenge, claim, t) ←
          prover_round threads relation columns weights points powers (length rounds) claim t;
        columns ← fold_columns backend columns challenge;
        weights ← backend_error (backend_fold backend weights challenge);
        sumcheck_loop threads backend fuel relation columns weights points powers mix (rounds ++ [message]) claim
          (point ++ [challenge]) t
    end.

Definition uni_interpolation_points (count : nat) : list F := map usize_to_field (seq 0 count).
Definition degree_too_large (relation : R) : bool :=
  18446744073709551616 <=? Z.of_nat (max_constraint_degree relation + 2).

(** The rounds, the opening point, the opened values and the transcript. *)
Definition prove_sumcheck (threads : nat) (relation : R) (columns : list (list F)) (weights : list F) (mix : F)
    (backend : NativeProverBackendState F) (t : transcript) :
    uni_result F (list (list F) * list F * list F * transcript) :=
  if (length weights <? 2)%nat || negb (is_power_of_two (Z.of_nat (length weights))) ||
     existsb (λ column, negb (length column =? length weights)%nat) columns then Err UniErr.Shape
  else if degree_too_large relation then Err UniErr.Shape
  else
    let points := uni_interpolation_points (max_constraint_degree relation + 2) in
    let powers := constraint_powers (constraint_count relation) mix in
    '(message, challenge, claim, t) ← prover_round threads relation columns weights points powers 0 f0 t;
    columns ← fold_borrowed_columns backend columns challenge;
    weights ← backend_error (backend_fold backend weights challenge);
    sumcheck_loop threads backend (length weights) relation columns weights points powers mix [message] claim
      [challenge] t.

(** The loop of [replay_sumcheck] over [rounds.iter().enumerate()]. *)
Fixpoint replay_rounds (message_len : nat) (rounds : list (list F)) (round_index : nat) (claim : F) (point : list F)
    (t : transcript) : uni_result F (F * list F * transcript) :=
  match rounds with
  | [] => Ok (claim, point, t)
  | message :: rounds =>
      if negb (length message =? message_len)%nat then Err UniErr.Sumcheck
      else
        at_zero ← ok_or (head message) UniErr.Sumcheck;
        at_one ← ok_or (message !! 1%nat) UniErr.Sumcheck;
        if negb (bool_decide (at_zero + at_one = claim)) then Err UniErr.Sumcheck
        else
          let t := uni_absorb_round t round_index message in
          let '(challenge, t) := challenge_scalar t UNI_CHALLENGE_LABEL in
          claim ← uni_evaluate_lagrange message challenge;
          replay_rounds message_len rounds (S round_index) claim (point ++ [challenge]) t
  end.
Definition replay_sumcheck (relation : R) (rounds : list (list F)) (opened_values row_point : list F) (mix : F)
    (t : transcript) : uni_result F (list F * transcript) :=
  if degree_too_large relation then Err UniErr.Shape
  else if negb (length rounds =? length row_point)%nat || negb (length opened_values =? column_count relation)%nat then
    Err UniErr.Shape
  else
    '(claim, point, t) ← replay_rounds (max_constraint_degree relation + 2) rounds 0 f0 [] t;
    terminal_weight ← equality_evaluation row_point point;
    terminal_relation ← combined_relation relation opened_values mix;
    if negb (bool_decide (claim = terminal_weight * terminal_relation)) then Err UniErr.TerminalMismatch
    else Ok (point, t).

(** ** Validation of a witness *)

Definition validate_relation (relation : R) : uni_result F () :=
  if (length (domain relation) =? 0)%nat || (length (statement_bytes relation) =? 0)%nat ||
     (column_count relation =? 0)%nat || (constraint_count relation =? 0)%nat || (max_constraint_degree relation =? 0)%nat
  then Err UniErr.EmptyRelation
  else if degree_too_large relation then Err UniErr.Shape
  else Ok ().
Definition validate_witness_shape (relation : R) (columns : list (list Z)) : uni_result F nat :=
  _ ← validate_relation relation;
  if negb (length columns =? column_count relation)%nat then Err UniErr.Shape
  else
    row_count ← ok_or (length <$> head columns) UniErr.Shape;
    if negb (row_count =? UNIFORM_ROW_COUNT)%nat || existsb (λ column, negb (length column =? row_count)%nat) columns
    then Err UniErr.Shape
    else Ok row_count.

Definition validation_chunk_count (threads row_count : nat) : uni_result F nat :=
  if (row_count =? 0)%nat then Err UniErr.Shape else Ok (clamp threads 1 row_count).
(** The first row and the number of rows; the index arithmetic stays below the row count and cannot fail. *)
Definition validation_range (row_count rows_per_chunk chunk : nat) : nat * nat :=
  let start := (chunk * rows_per_chunk)%nat in
  let stop := Nat.min (start + rows_per_chunk) row_count in
  (start, stop - start)%nat.

Fixpoint first_position (p : F → bool) (values : list F) : option nat :=
  match values with
  | [] => None
  | v :: values => if p v then Some 0%nat else S <$> first_position p values
  end.

(** The loop of [validate_field_chunk] and [validate_u64_chunk] over [n] rows from [row_index] on: the first
    row that violates a constraint, and that constraint. [get] is a column's value at a row. *)
Fixpoint validate_rows {C} (get : C → nat → option F) (relation : R) (columns : list C) (n row_index : nat)
    (constraints : list F) : uni_result F (option (nat * nat)) :=
  match n with
  | O => Ok None
  | S n =>
      row ← uni_collect (map (λ column, ok_or (get column row_index) UniErr.Shape) columns);
      constraints ← evaluate relation row (initialize_constraint_output relation constraints);
      match first_position (λ value, negb (bool_decide (value = f0))) constraints with
      | Some constraint => Ok (Some (row_index, constraint))
      | None => validate_rows get relation columns n (S row_index) constraints
      end
  end.
Definition validate_chunk {C} (get : C → nat → option F) (relation : R) (columns : list C)
    (row_count rows_per_chunk chunk : nat) : uni_result F (option (nat * nat)) :=
  let '(start, n) := validation_range row_count rows_per_chunk chunk in
  validate_rows get relation columns n start (replicate (constraint_count relation) f0).

Fixpoint finish_parallel_validation (results : list (uni_result F (option (nat * nat)))) : uni_result F () :=
  match results with
  | [] => Ok ()
  | result :: results =>
      outcome ← result;
      match outcome with
      | Some (row, constraint) => Err (UniErr.WitnessUnsatisfied row constraint)
      | None => finish_parallel_validation results
      end
  end.
(** [ensure_relation_holds] and [ensure_u64_relation_holds] *)
Definition ensure_holds {C} (get : C → nat → option F) (threads : nat) (relation : R) (columns : list C) (row_count : nat) :
    uni_result F () :=
  chunks ← validation_chunk_count threads row_count;
  let rows_per_chunk := div_ceil row_count chunks in
  finish_parallel_validation (map (λ chunk, validate_chunk get relation columns row_count rows_per_chunk chunk) (seq 0 chunks)).
Definition ensure_relation_holds : nat → R → list (list F) → nat → uni_result F () := ensure_holds (λ column i, column !! i).
Definition ensure_u64_relation_holds : nat → R → list (list Z) → nat → uni_result F () :=
  ensure_holds (λ column i, from_u64 <$> column !! i).
Definition validate_uniform_witness (threads : nat) (relation : R) (columns : list (list Z)) : uni_result F () :=
  row_count ← validate_witness_shape relation columns;
  ensure_u64_relation_holds threads relation columns row_count.
End relation.
End uniform.
