(* ===== verification/UniformSpec.v ===== *)
(** * The zero check: its messages and its completeness

    The laws a relation keeps, stated as a class: evaluation succeeds on rows of the declared width, does not
    read a buffer it did not ask for, and its identities have the declared degree along lines. For such a
    relation the round message, with any number of threads, is the evaluations of one polynomial; a witness
    that satisfies the relation is proved and the proof is accepted. *)
From S2P Require Import Prelude Image Field Fold Sumcheck SumcheckSpec SumProducts SumProductsSpec Uniform.

Section laws.
Context {F : Type} `{FieldLaws F} `{!CudaFolder F, !Transcript F, !UniformExternal}.
Local Open Scope field_scope.
Add Ring uniform_ring : fl_ring.

(** The constraints' values at a row. *)
Definition values {R} `{!UniformRelation F R} (relation : R) (row : list F) : list F :=
  match evaluate relation row (replicate (constraint_count relation) f0) with Ok vs => vs | Err _ => [] end.

Class UniformLaws (R : Type) `{!UniformRelation F R} := {
  ul_evaluate (relation : R) row out :
    length row = column_count relation → length out = constraint_count relation →
    (constraint_output relation = ConOut.ZeroInitialized → out = replicate (constraint_count relation) f0) →
    evaluate relation row out = Ok (values relation row) ∧ length (values relation row) = constraint_count relation;
  ul_degree (relation : R) (lines : list (F * F)) i : length lines = column_count relation →
    is_poly (S (max_constraint_degree relation))
      (λ x, default f0 (values relation (map (λ '(a, b), a + x * b) lines) !! i))
}.

(** ** Powers *)

Fixpoint geometric (p mix : F) (n : nat) : list F :=
  match n with O => [] | S n => p :: geometric (p * mix) mix n end.
Lemma length_geometric mix n : ∀ p, length (geometric p mix n) = n.
Proof. induction n as [| n IH]; intros p; [done |]. cbn. by rewrite IH. Qed.
Lemma geometric_snoc mix n : ∀ p,
  Nat.iter n (λ '(powers, power), (powers ++ [power], power * mix)) ([], p) = (geometric p mix n, Nat.iter n (λ q, q * mix) p) ∧
  geometric p mix (S n) = geometric p mix n ++ [Nat.iter n (λ q, q * mix) p].
Proof.
  induction n as [| n IH]; intros p; [done |]. split.
  - destruct (IH p) as [E Hs]. rewrite !Nat.iter_succ, E. by rewrite Hs.
  - destruct (IH (p * mix)) as [_ Hs]. cbn [geometric app]. cbn [geometric] in Hs. rewrite Hs.
    by rewrite Nat.iter_succ_r.
Qed.
Lemma constraint_powers_geometric n mix : constraint_powers n mix = geometric f1 mix n.
Proof. unfold constraint_powers. by destruct (geometric_snoc mix n f1) as [-> _]. Qed.

Lemma eval_trim (vs : list F) x : eval (trim_zero_suffix vs) x = eval vs x.
Proof.
  induction vs as [| v vs IH]; [done |]. cbn [trim_zero_suffix]. rewrite eval_cons, <- IH.
  destruct (trim_zero_suffix vs) as [| w ws]; [| by rewrite eval_cons].
  destruct (decide (v = f0)) as [-> |]; [| by rewrite eval_cons]. change (eval [] x) with (f0 : F). ring.
Qed.
Lemma length_trim (vs : list F) : (length (trim_zero_suffix vs) <= length vs)%nat.
Proof.
  induction vs as [| v vs IH]; [done |]. cbn [trim_zero_suffix]. destruct (trim_zero_suffix vs); [| cbn in *; lia].
  destruct (decide _); cbn; lia.
Qed.
Lemma combine_spec (us : list F) mix : ∀ n p a, (length us <= n)%nat →
  foldl (λ combined '(constraint, power), if decide (constraint = f0) then combined else combined + power * constraint)
    a (zip us (geometric p mix n)) = a + p * eval us mix.
Proof.
  induction us as [| u us IH]; intros n p a Hn; [change (eval [] mix) with (f0 : F); cbn; ring |].
  destruct n as [| n]; [cbn in Hn; lia |]. cbn [geometric zip zip_with foldl]. rewrite IH by (cbn in Hn; lia). rewrite eval_cons.
  destruct (decide (u = f0)) as [-> |]; ring.
Qed.

(** The combination as a sum. *)
Lemma eval_sum (vs : list F) x : eval vs x = fsum (λ i, Nat.iter i (λ q, q * x) f1 * default f0 (vs !! i)) (seq 0 (length vs)).
Proof.
  induction vs as [| v vs IH]; [done |]. rewrite eval_cons. cbn [length seq]. rewrite fsum_cons.
  change (Nat.iter 0 (λ q, q * x) f1 * default f0 ((v :: vs) !! 0%nat)) with (f1 * v). rewrite IH, <- fsum_scale, <- seq_shift.
  rewrite fsum_map. transitivity (f1 * v + fsum (λ i, x * (Nat.iter i (λ q, q * x) f1 * default f0 (vs !! i))) (seq 0 (length vs))); [ring |].
  f_equal. apply fsum_ext. intros i _. rewrite Nat.iter_succ. change ((v :: vs) !! S i) with (vs !! i). ring.
Qed.

Section relation.
Context {R : Type} `{!UniformRelation F R, !UniformLaws R}.
Implicit Types (relation : R).

Lemma initialize_ok relation out row : length row = column_count relation → length out = constraint_count relation →
  evaluate relation row (initialize_constraint_output relation out) = Ok (values relation row) ∧
  length (values relation row) = constraint_count relation.
Proof.
  intros Hr Ho. apply ul_evaluate; [done | |].
  - unfold initialize_constraint_output. destruct (constraint_output relation); [by rewrite length_map | done].
  - intros E. unfold initialize_constraint_output. rewrite E, <- Ho. clear Ho. induction out as [| o out IH]; [done |]. cbn. by rewrite IH.
Qed.
Lemma combined_spec relation row mix out : length row = column_count relation → length out = constraint_count relation →
  combined_relation_with_powers relation row (constraint_powers (constraint_count relation) mix) out =
    Ok (eval (values relation row) mix, values relation row) ∧ length (values relation row) = constraint_count relation.
Proof.
  intros Hr Ho. destruct (initialize_ok relation out row Hr Ho) as [E Hl]. split; [| done].
  unfold combined_relation_with_powers. rewrite Hr, Ho, constraint_powers_geometric, length_geometric, !Nat.eqb_refl. cbn [negb orb].
  rewrite E, bind_of_ok. rewrite combine_spec by (rewrite <- Hl; apply length_trim). rewrite eval_trim. do 2 f_equal. ring.
Qed.

(** ** Rows and pairs *)

Definition row_at (columns : list (list F)) (i : nat) : list F := map (at_row i) columns.
Definition line_row (columns : list (list F)) (j : nat) (x : F) : list F := map (λ f, pair_line f j x) columns.
(** Every column has [n] entries, as many as there are weights, and there is one for each column of the relation. *)
Definition columns_ok relation (n : nat) (columns : list (list F)) (weights : list F) : Prop :=
  length columns = column_count relation ∧ Forall (λ f, length f = n) columns ∧ length weights = n.

Definition row_value relation mix (columns : list (list F)) (i : nat) : F := eval (values relation (row_at columns i)) mix.
(** The weighted sum that the zero check claims to be zero. *)
Definition zsum relation mix (columns : list (list F)) (weights : list F) : F :=
  fsum (λ i, at_row i weights * row_value relation mix columns i) (seq 0 (length weights)).
Definition pair_value relation mix (columns : list (list F)) (weights : list F) (x : F) (j : nat) : F :=
  pair_line weights j x * eval (values relation (line_row columns j x)) mix.
(** The polynomial of a round. *)
Definition zpoly relation mix (columns : list (list F)) (weights : list F) (x : F) : F :=
  zsum relation mix (map (λ f, fold_chunks f x) columns) (fold_chunks weights x).

Lemma columns_fold relation n columns weights x : columns_ok relation (2 * n) columns weights →
  columns_ok relation n (map (λ f, fold_chunks f x) columns) (fold_chunks weights x).
Proof.
  intros (Hc & Hf & Hw). split; [by rewrite length_map |]. split; [| rewrite length_fold_chunks, Hw; apply Nat.div2_double].
  apply Forall_map. eapply Forall_impl; [exact Hf |]. intros f Hl. cbn. rewrite length_fold_chunks, Hl. apply Nat.div2_double.
Qed.
Lemma zpoly_pairs relation mix n columns weights x : columns_ok relation (2 * n) columns weights →
  zpoly relation mix columns weights x = fsum (pair_value relation mix columns weights x) (seq 0 n).
Proof.
  intros (Hc & Hf & Hw). unfold zpoly, zsum. rewrite length_fold_chunks, Hw, Nat.div2_double. apply fsum_ext.
  intros i Hi%elem_of_seq. unfold pair_value. rewrite (fold_chunks_row weights i x n Hw) by lia. f_equal. unfold row_value, row_at, line_row.
  f_equal. f_equal. rewrite map_map. apply map_ext_in. intros f Hin. rewrite Forall_forall in Hf.
  apply (fold_chunks_row f i x n); [by apply Hf, list_elem_of_In | lia].
Qed.
Lemma zpoly_sum relation mix n columns weights : columns_ok relation (2 * n) columns weights →
  zpoly relation mix columns weights f0 + zpoly relation mix columns weights f1 = zsum relation mix columns weights.
Proof.
  intros Hc. rewrite !(zpoly_pairs relation mix n) by done. rewrite <- fsum_add. unfold zsum. destruct Hc as (_ & _ & ->).
  rewrite <- (fsum_pairs _ n 0). apply fsum_ext. intros i _. unfold pair_value, row_value.
  destruct (pair_line_ends weights i) as [-> ->]. unfold line_row, row_at.
  rewrite (map_ext (λ f, pair_line f i f0) (at_row (2 * i))) by (intros f; apply pair_line_ends).
  by rewrite (map_ext (λ f, pair_line f i f1) (at_row (2 * i + 1))) by (intros f; apply pair_line_ends).
Qed.
Lemma line_row_poly relation mix columns j : length columns = column_count relation →
  is_poly (S (max_constraint_degree relation)) (λ x, eval (values relation (line_row columns j x)) mix).
Proof.
  intros Hc. set (lines := map (λ f, (at_row (2 * j) f, at_row (2 * j + 1) f - at_row (2 * j) f)) columns).
  assert (Hl : length lines = column_count relation) by (subst lines; by rewrite length_map).
  assert (E : ∀ x, line_row columns j x = map (λ '(a, b), a + x * b) lines) by (intros x; subst lines; by rewrite map_map).
  apply (is_poly_ext _ (λ x, fsum (λ i, Nat.iter i (λ q, q * mix) f1 * default f0 (values relation (map (λ '(a, b), a + x * b) lines) !! i))
    (seq 0 (constraint_count relation)))).
  - intros x. rewrite E, eval_sum. symmetry. f_equal. f_equal.
    apply (ul_evaluate relation _ (replicate (constraint_count relation) f0)); [by rewrite length_map | apply length_replicate | done].
  - apply is_poly_fsum. intros i _. apply is_poly_scale. by apply ul_degree.
Qed.
Lemma zpoly_degree relation mix n columns weights : columns_ok relation (2 * n) columns weights →
  is_poly (max_constraint_degree relation + 2) (zpoly relation mix columns weights).
Proof.
  intros Hc. apply (is_poly_ext _ (λ x, fsum (λ i, pair_value relation mix columns weights x i) (seq 0 n))).
  { intros x. symmetry. by apply (zpoly_pairs relation mix n). }
  apply is_poly_fsum. intros i _. replace (max_constraint_degree relation + 2)%nat with (S (S (max_constraint_degree relation))) by lia.
  refine (is_poly_affine _ _ _ _ _). apply line_row_poly. by destruct Hc.
Qed.

(** ** The message of a round *)

Lemma uni_collect_ok {A B} (g : A → uni_result F B) (h : A → B) l : (∀ a, In a l → g a = Ok (h a)) →
  uni_collect (map g l) = Ok (map h l).
Proof.
  induction l as [| a l IH]; intros Hg; [done |]. cbn [map uni_collect]. rewrite Hg by (by left). rewrite bind_of_ok, IH; [done |].
  intros b Hb. apply Hg. by right.
Qed.

Definition pair_ends (f : list F) (j : nat) : F * F := (at_row (2 * j) f, at_row (2 * j + 1) f - at_row (2 * j) f).
Lemma pair_low_and_delta_spec (f : list F) j n : length f = n → (2 * j + 1 < n)%nat →
  pair_low_and_delta f j = Ok (pair_ends f j).
Proof.
  intros Hl Hj. unfold pair_low_and_delta, pair_ends, at_row. destruct (lookup_lt_is_Some_2 f (2 * j)) as [a ->]; [lia |].
  destruct (lookup_lt_is_Some_2 f (2 * j + 1)) as [b ->]; [lia |]. done.
Qed.
Lemma load_pair_rows_spec relation columns weights j n : columns_ok relation n columns weights → (2 * j + 1 < n)%nat →
  load_pair_rows columns j = Ok (map (λ f, pair_ends f j) columns).
Proof.
  intros (_ & Hf & _) Hj. apply uni_collect_ok. intros f Hin. rewrite Forall_forall in Hf.
  apply (pair_low_and_delta_spec f j n); [by apply Hf, list_elem_of_In | done].
Qed.

(** The row and the weight of a pair at the point of index [i]. *)
Lemma pair_row_at columns weights j i (point : F) : point = usize_to_field i →
  match i with
  | O => (map fst (map (λ f, pair_ends f j) columns), (pair_ends weights j).1)
  | 1%nat => (interpolate_loaded_row_at_one (map (λ f, pair_ends f j) columns), (pair_ends weights j).1 + (pair_ends weights j).2)
  | _ => (interpolate_loaded_row (map (λ f, pair_ends f j) columns) point, (pair_ends weights j).1 + point * (pair_ends weights j).2)
  end = (line_row columns j point, pair_line weights j point).
Proof.
  intros ->. unfold interpolate_loaded_row_at_one, interpolate_loaded_row, line_row. rewrite !map_map.
  destruct i as [| [| i]]; f_equal; try (apply map_ext; intros f); unfold pair_line, pair_ends; cbn [fst snd];
    change (usize_to_field 0) with (f0 : F); change (usize_to_field 1) with (f1 : F); ring.
Qed.

Abbreviation powers_of relation mix := (constraint_powers (constraint_count relation) mix).

Lemma accumulate_points_spec relation mix columns weights j c : length columns = column_count relation →
  ∀ k e out, length out = constraint_count relation →
  ∃ out', length out' = constraint_count relation ∧
  accumulate_points relation (map (λ f, pair_ends f j) columns) (pair_ends weights j).1 (pair_ends weights j).2
    (powers_of relation mix) k (map usize_to_field (seq k c)) (map e (seq k c)) out =
    Ok (map (λ i, e i + pair_value relation mix columns weights (usize_to_field i) j) (seq k c), out').
Proof.
  intros Hc. induction c as [| c IH]; intros k e out Ho; [by exists out |]. cbn [seq map accumulate_points].
  rewrite (pair_row_at columns weights j k (usize_to_field k) eq_refl).
  destruct (combined_spec relation (line_row columns j (usize_to_field k)) mix out) as [-> Hv]; [by unfold line_row; rewrite length_map | done |].
  rewrite bind_of_ok. destruct (IH (S k) e _ Hv) as (out' & Ho' & ->). rewrite bind_of_ok. exists out'. by split.
Qed.
Lemma accumulate_pairs_spec relation mix columns weights n c : columns_ok relation n columns weights →
  ∀ m j e out, (2 * (j + m) <= n)%nat → length out = constraint_count relation →
  accumulate_pairs relation columns weights (uni_interpolation_points c) (powers_of relation mix) m j (map e (seq 0 c)) out =
    Ok (map (λ i, e i + fsum (pair_value relation mix columns weights (usize_to_field i)) (seq j m)) (seq 0 c)).
Proof.
  intros Hc. induction m as [| m IH]; intros j e out Hm Ho; cbn [accumulate_pairs].
  { f_equal. apply map_ext. intros i. cbn [seq]. rewrite fsum_nil. ring. }
  unfold accumulate_pair. rewrite (load_pair_rows_spec relation columns weights j n Hc), bind_of_ok by lia.
  pose proof Hc as (Hl & _ & Hw). rewrite (pair_low_and_delta_spec weights j n Hw), bind_of_ok by lia.
  change (let '(weight_low, weight_delta) := pair_ends weights j in
    accumulate_points relation (map (λ f, pair_ends f j) columns) weight_low weight_delta (powers_of relation mix) 0
      (uni_interpolation_points c) (map e (seq 0 c)) out)
    with (accumulate_points relation (map (λ f, pair_ends f j) columns) (pair_ends weights j).1 (pair_ends weights j).2
      (powers_of relation mix) 0 (uni_interpolation_points c) (map e (seq 0 c)) out).
  destruct (accumulate_points_spec relation mix columns weights j c Hl 0 e out Ho) as (out' & Ho' & E).
  unfold uni_interpolation_points in *. rewrite E, bind_of_ok, IH by (lia || done). f_equal. apply map_ext. intros i.
  cbn [seq]. rewrite fsum_cons. ring.
Qed.

(** ** Chunks *)

Lemma div_ceil_cover a b : (0 < b)%nat → (a <= div_ceil a b * b)%nat.
Proof.
  intros Hb. unfold div_ceil. pose proof (Nat.div_mod_eq (a + b - 1) b) as Hd.
  pose proof (Nat.mod_upper_bound (a + b - 1) b). nia.
Qed.
Lemma div_ceil_pos a b : (0 < a)%nat → (0 < b)%nat → (0 < div_ceil a b)%nat.
Proof. intros Ha Hb. pose proof (div_ceil_cover a b Hb). destruct (div_ceil a b); lia. Qed.

Lemma map_zeros {A} (l : list A) : map (λ _, f0 : F) l = map (λ _, f0) (seq 0 (length l)).
Proof. rewrite map_const_seq. induction l as [| a l IH]; [done |]. cbn. by rewrite IH. Qed.

Lemma merge_messages_spec (e g : nat → F) c :
  merge_round_messages (map e (seq 0 c)) (map g (seq 0 c)) = Ok (map (λ i, e i + g i) (seq 0 c)).
Proof.
  unfold merge_round_messages. rewrite !length_map, Nat.eqb_refl. cbn [negb]. f_equal.
  generalize 0%nat as k. induction c as [| c IH]; intros k; [done |]. cbn. by rewrite IH.
Qed.
Lemma evaluate_pair_chunk_spec relation mix columns weights n c ppc k : columns_ok relation (2 * n) columns weights →
  evaluate_pair_chunk relation columns weights (uni_interpolation_points c) (powers_of relation mix) k ppc =
    Ok (map (λ i, f0 + fsum (pair_value relation mix columns weights (usize_to_field i))
      (seq (k * ppc) (Nat.min (k * ppc + ppc) n - k * ppc))) (seq 0 c)).
Proof.
  intros Hc. pose proof Hc as (_ & _ & Hw). unfold evaluate_pair_chunk. rewrite Hw, Nat.div2_double.
  replace (map (λ _, f0) (uni_interpolation_points c)) with (map (λ _, f0 : F) (seq 0 c)).
  2: { unfold uni_interpolation_points. by rewrite map_map. }
  destruct (Nat.le_gt_cases (k * ppc) n) as [Hle | Hgt].
  - apply (accumulate_pairs_spec relation mix columns weights (2 * n) c Hc); [lia | apply length_replicate].
  - replace (Nat.min (k * ppc + ppc) n - k * ppc)%nat with O by lia. cbn [accumulate_pairs]. f_equal. apply map_ext. intros i.
    cbn [seq]. rewrite fsum_nil. ring.
Qed.
Lemma merge_chunks_spec relation mix columns weights n c ppc : columns_ok relation (2 * n) columns weights → (0 < ppc)%nat →
  ∀ m k e, (n <= (k + m) * ppc)%nat →
  merge_chunks (map e (seq 0 c))
    (map (λ chunk, evaluate_pair_chunk relation columns weights (uni_interpolation_points c) (powers_of relation mix) chunk ppc) (seq k m)) =
    Ok (map (λ i, e i + fsum (pair_value relation mix columns weights (usize_to_field i)) (seq (Nat.min (k * ppc) n) (n - k * ppc))) (seq 0 c)).
Proof.
  intros Hc Hp. pose proof Hc as (_ & _ & Hw). induction m as [| m IH]; intros k e Hm; cbn [seq map merge_chunks].
  { f_equal. apply map_ext. intros i. replace (n - k * ppc)%nat with O by nia. cbn [seq]. rewrite fsum_nil. ring. }
  rewrite (evaluate_pair_chunk_spec relation mix columns weights n c ppc k Hc).
  rewrite bind_of_ok, merge_messages_spec, bind_of_ok, (IH (S k)) by lia. f_equal. apply map_ext. intros i.
  set (g := pair_value _ _ _ _ _).
  assert (E : fsum g (seq (Nat.min (k * ppc) n) (n - k * ppc)) = fsum g (seq (k * ppc) (Nat.min (k * ppc + ppc) n - k * ppc)) +
    fsum g (seq (Nat.min (S k * ppc) n) (n - S k * ppc))).
  { destruct (Nat.le_gt_cases n (k * ppc)) as [Hle | Hgt].
    - replace (n - k * ppc)%nat with O by lia. replace (Nat.min (k * ppc + ppc) n - k * ppc)%nat with O by lia.
      replace (n - S k * ppc)%nat with O by nia. cbn [seq]. rewrite !fsum_nil. ring.
    - rewrite <- fsum_app. f_equal. replace (Nat.min (k * ppc) n) with (k * ppc)%nat by lia.
      replace (n - k * ppc)%nat with ((Nat.min (k * ppc + ppc) n - k * ppc) + (n - S k * ppc))%nat by nia. rewrite seq_app. f_equal.
      f_equal. nia. }
  rewrite E. ring.
Qed.

(** With any number of threads. *)
Lemma parallel_round_spec threads relation mix columns weights n c : columns_ok relation (2 * n) columns weights →
  (0 < n)%nat → (0 < c)%nat →
  parallel_sumcheck_round_precomputed threads relation columns weights (uni_interpolation_points c) (powers_of relation mix) =
    Ok (map (zpoly relation mix columns weights) (nodes c)).
Proof.
  intros Hc Hn Hcc. pose proof Hc as (Hl & Hf & Hw). unfold parallel_sumcheck_round_precomputed, validate_round_shape.
  assert (Hp : length (uni_interpolation_points (F := F) c) = c) by (unfold uni_interpolation_points; by rewrite length_map, length_seq).
  rewrite Hp, Hl, Hw, Nat.eqb_refl, (proj2 (Nat.eqb_neq c 0)), (proj2 (Nat.ltb_ge (2 * n) 2)), Nat.odd_even by lia. cbn [orb negb].
  assert (existsb (λ column : list F, negb (length column =? 2 * n)%nat) columns = false) as ->.
  { clear - Hf. induction Hf as [| f fs Hf _ IH]; [done |]. cbn [existsb]. by rewrite Hf, Nat.eqb_refl. }
  cbn [orb]. rewrite bind_of_ok, constraint_powers_geometric, length_geometric, Nat.eqb_refl, <- constraint_powers_geometric. cbn [negb].
  rewrite Nat.div2_double.
  assert (Hz : ∀ x, fsum (pair_value relation mix columns weights x) (seq 0 n) = zpoly relation mix columns weights x).
  { intros x. symmetry. by apply zpoly_pairs. }
  assert (Hm : map (λ _, f0) (uni_interpolation_points c) = map (λ _, f0 : F) (seq 0 c)).
  { unfold uni_interpolation_points. by rewrite map_map. }
  destruct (_ || _).
  - unfold sumcheck_round_precomputed. rewrite Hw, Nat.div2_double, Hm.
    rewrite (accumulate_pairs_spec relation mix columns weights (2 * n) c Hc) by (try lia; apply length_replicate).
    f_equal. unfold nodes. rewrite map_map. apply map_ext. intros i. rewrite Hz. ring.
  - set (desired := clamp _ _ _). assert (0 < desired)%nat by (subst desired; unfold clamp; lia).
    set (ppc := div_ceil n desired). assert (0 < ppc)%nat by (by apply div_ceil_pos).
    rewrite Hm, (merge_chunks_spec relation mix columns weights n c ppc Hc) by (try lia; by apply div_ceil_cover).
    f_equal. unfold nodes. rewrite map_map. apply map_ext. intros i. rewrite Nat.mul_0_l, Nat.min_0_l, Nat.sub_0_r, Hz. ring.
Qed.

(** ** Completeness *)

Definition zmessage relation mix (columns : list (list F)) (weights : list F) : list F :=
  map (zpoly relation mix columns weights) (nodes (max_constraint_degree relation + 2)).
Definition degree_ok relation : Prop := Z.of_nat (max_constraint_degree relation + 2) < 18446744073709551616.

Lemma uni_lagrange_eq (evaluations : list F) x y : evaluate_lagrange evaluations x = Ok y → uni_evaluate_lagrange evaluations x = Ok y.
Proof.
  unfold evaluate_lagrange, uni_evaluate_lagrange. destruct (_ =? 0)%nat; [done |].
  destruct (lagrange_loop _ _ _ _ _); cbn; [by intros [= ->] | done].
Qed.
Lemma uni_lagrange_inv (evaluations : list F) x y : uni_evaluate_lagrange evaluations x = Ok y → evaluate_lagrange evaluations x = Ok y.
Proof.
  unfold evaluate_lagrange, uni_evaluate_lagrange. destruct (_ =? 0)%nat; [done |].
  destruct (lagrange_loop _ _ _ _ _); cbn; [by intros [= ->] | done].
Qed.
Lemma zmessage_value relation mix n columns weights x : columns_ok relation (2 * n) columns weights → degree_ok relation →
  evaluate_lagrange (zmessage relation mix columns weights) x = Ok (zpoly relation mix columns weights x).
Proof. intros Hc Hd. apply evaluate_lagrange_poly; [by apply (zpoly_degree relation mix n) | lia | exact Hd]. Qed.
Lemma zmessage_ends relation mix columns weights :
  head (zmessage relation mix columns weights) = Some (zpoly relation mix columns weights f0) ∧
  zmessage relation mix columns weights !! 1%nat = Some (zpoly relation mix columns weights f1).
Proof. unfold zmessage, nodes. by replace (max_constraint_degree relation + 2)%nat with (S (S (max_constraint_degree relation))) by lia. Qed.
Lemma length_zmessage relation mix columns weights : length (zmessage relation mix columns weights) = (max_constraint_degree relation + 2)%nat.
Proof. unfold zmessage, nodes. by rewrite !length_map, length_seq. Qed.

Definition replay_accepts relation (rounds : list (list F)) (round_index : nat) (claim : F) (t : transcript) (v : F)
    (point : list F) (t' : transcript) : Prop :=
  ∀ before, replay_rounds (max_constraint_degree relation + 2) rounds round_index claim before t = Ok (v, before ++ point, t').

Lemma prover_round_spec threads relation mix n columns weights round_index t c t1 : columns_ok relation (2 * n) columns weights →
  (0 < n)%nat → degree_ok relation →
  challenge_scalar (uni_absorb_round t round_index (zmessage relation mix columns weights)) UNI_CHALLENGE_LABEL = (c, t1) →
  prover_round threads relation columns weights (uni_interpolation_points (max_constraint_degree relation + 2)) (powers_of relation mix)
    round_index (zsum relation mix columns weights) t =
    Ok (zmessage relation mix columns weights, c, zpoly relation mix columns weights c, t1).
Proof.
  intros Hc Hn Hd Ht. unfold prover_round. rewrite (parallel_round_spec threads relation mix columns weights n) by (done || lia).
  rewrite bind_of_ok. fold (zmessage relation mix columns weights). destruct (zmessage_ends relation mix columns weights) as [-> ->].
  cbn [ok_or]. rewrite !bind_of_ok, bool_decide_eq_true_2 by (by apply (zpoly_sum relation mix n)). cbn [negb]. rewrite Ht.
  by rewrite (uni_lagrange_eq _ _ _ (zmessage_value relation mix n columns weights c Hc Hd)).
Qed.
Lemma replay_accepts_cons relation mix n columns weights rounds round_index t v c t1 point t' :
  columns_ok relation (2 * n) columns weights → degree_ok relation →
  challenge_scalar (uni_absorb_round t round_index (zmessage relation mix columns weights)) UNI_CHALLENGE_LABEL = (c, t1) →
  replay_accepts relation rounds (S round_index) (zpoly relation mix columns weights c) t1 v point t' →
  replay_accepts relation (zmessage relation mix columns weights :: rounds) round_index (zsum relation mix columns weights) t v (c :: point) t'.
Proof.
  intros Hc Hd Ht Ha before. cbn [replay_rounds]. rewrite length_zmessage, Nat.eqb_refl. cbn [negb].
  destruct (zmessage_ends relation mix columns weights) as [-> ->]. cbn [ok_or].
  rewrite !bind_of_ok, bool_decide_eq_true_2 by (by apply (zpoly_sum relation mix n)). cbn [negb]. rewrite Ht.
  rewrite (uni_lagrange_eq _ _ _ (zmessage_value relation mix n columns weights c Hc Hd)), bind_of_ok.
  rewrite (Ha (before ++ [c])). by rewrite <- app_assoc.
Qed.

Definition opened (columns : list (list F)) (point : list F) : list F := map (λ f, mle f point) columns.
(** The value the rounds lead to. *)
Definition terminal relation mix (columns : list (list F)) (weights point : list F) : F :=
  mle weights point * eval (values relation (opened columns point)) mix.

Lemma opened_fold relation n columns weights c point : columns_ok relation (2 ^ S n) columns weights → length point = n →
  opened columns (c :: point) = opened (map (λ f, fold_chunks f c) columns) point ∧
  mle weights (c :: point) = mle (fold_chunks weights c) point.
Proof.
  intros (_ & Hf & Hw) <-. split; [| by apply mle_fold]. unfold opened. rewrite map_map. apply map_ext_in. intros f Hin.
  apply mle_fold. rewrite Forall_forall in Hf. by apply Hf, list_elem_of_In.
Qed.
Lemma opened_single relation columns weights : columns_ok relation 1 columns weights →
  opened columns [] = row_at columns 0 ∧ mle weights [] = at_row 0 weights ∧
  uni_collect (map (λ column, ok_or (head column) UniErr.Shape) columns) = Ok (row_at columns 0) ∧
  ok_or (head weights) UniErr.Shape =@{uni_result F F} Ok (at_row 0 weights).
Proof.
  intros (_ & Hf & Hw). split; [| split; [by apply mle_single | split]].
  - apply map_ext_in. intros f Hin. rewrite Forall_forall in Hf. by apply mle_single, Hf, list_elem_of_In.
  - apply uni_collect_ok. intros f Hin. rewrite Forall_forall in Hf. specialize (Hf f (proj2 (list_elem_of_In _ _) Hin)).
    by destruct f as [| v [| ? ?]].
  - by destruct weights as [| v [| ? ?]].
Qed.
Lemma zsum_single relation mix columns weights : columns_ok relation 1 columns weights →
  zsum relation mix columns weights = at_row 0 weights * row_value relation mix columns 0.
Proof. intros (_ & _ & Hw). unfold zsum. rewrite Hw. cbn [seq]. rewrite fsum_cons, fsum_nil. ring. Qed.

Lemma finish_spec_uni relation mix columns weights rounds point t : columns_ok relation 1 columns weights →
  finish_sumcheck relation columns weights mix rounds (zsum relation mix columns weights) point t =
    Ok (rounds, point, opened columns [], t).
Proof.
  intros Hc. destruct (opened_single relation columns weights Hc) as (E & Ew & El & Eh). unfold finish_sumcheck. rewrite El, bind_of_ok, Eh, bind_of_ok.
  unfold combined_relation_with_scratch.
  destruct (combined_spec relation (row_at columns 0) mix (replicate (constraint_count relation) f0)) as [-> _];
    [unfold row_at; rewrite length_map; by destruct Hc | apply length_replicate |].
  rewrite bind_of_ok, bool_decide_eq_true_2 by (by apply zsum_single). cbn [negb]. by rewrite E.
Qed.

Lemma fold_columns_pow n relation columns weights c : columns_ok relation (2 ^ S n) columns weights →
  fold_columns BackendCpu columns c = Ok (map (λ f, fold_chunks f c) columns) ∧
  fold_borrowed_columns BackendCpu columns c = Ok (map (λ f, fold_chunks f c) columns) ∧
  backend_error (backend_fold BackendCpu weights c) = Ok (fold_chunks weights c).
Proof.
  intros (_ & Hf & Hw). rewrite Forall_forall in Hf. split; [| split].
  - apply uni_collect_ok. intros f Hin. destruct (fold_pow f n c) as (_ & E & _); [by apply Hf, list_elem_of_In |].
    cbn [backend_fold]. by rewrite E.
  - apply uni_collect_ok. intros f Hin. destruct (fold_pow f n c) as (E & _ & _); [by apply Hf, list_elem_of_In |].
    cbn [backend_fold_from_slice]. by rewrite E.
  - destruct (fold_pow weights n c Hw) as (_ & E & _). cbn [backend_fold]. by rewrite E.
Qed.

Record zrounds (n : nat) relation mix (columns : list (list F)) (weights : list F) (first : nat) (t : transcript)
    (new : list (list F)) (point : list F) (t' : transcript) : Prop := {
  zr_rounds : length new = n;
  zr_point : length point = n;
  zr_accepted : replay_accepts relation new first (zsum relation mix columns weights) t (terminal relation mix columns weights point) point t'
}.
Lemma zrounds_nil relation mix columns weights first t : columns_ok relation 1 columns weights →
  zrounds 0 relation mix columns weights first t [] [] t.
Proof.
  intros Hc. split; [done | done |]. intros before. cbn [replay_rounds]. rewrite app_nil_r. f_equal. f_equal. f_equal.
  destruct (opened_single relation columns weights Hc) as (E & Ew & _). unfold terminal. rewrite E, Ew. by apply zsum_single.
Qed.
Lemma zrounds_cons n relation mix columns weights first t c t1 new point t' : columns_ok relation (2 ^ S n) columns weights → degree_ok relation →
  challenge_scalar (uni_absorb_round t first (zmessage relation mix columns weights)) UNI_CHALLENGE_LABEL = (c, t1) →
  zrounds n relation mix (map (λ f, fold_chunks f c) columns) (fold_chunks weights c) (S first) t1 new point t' →
  zrounds (S n) relation mix columns weights first t (zmessage relation mix columns weights :: new) (c :: point) t'.
Proof.
  intros Hc Hd Ht [Hn Hp Ha]. split; [cbn; lia | cbn; lia |]. unfold terminal.
  destruct (opened_fold relation n columns weights c point Hc Hp) as [-> ->]. rewrite Nat.pow_succ_r' in Hc.
  by eapply (replay_accepts_cons relation mix (2 ^ n)).
Qed.

Lemma sumcheck_loop_spec threads relation mix n : degree_ok relation → ∀ fuel columns weights rounds point t,
  columns_ok relation (2 ^ n) columns weights → (n <= fuel)%nat →
  ∃ new new_point t', zrounds n relation mix columns weights (length rounds) t new new_point t' ∧
    sumcheck_loop threads BackendCpu fuel relation columns weights (uni_interpolation_points (max_constraint_degree relation + 2))
      (powers_of relation mix) mix rounds (zsum relation mix columns weights) point t =
      Ok (rounds ++ new, point ++ new_point, opened columns new_point, t').
Proof.
  intros Hd. induction n as [| n IH]; intros fuel columns weights rounds point t Hc Hf; pose proof Hc as (_ & _ & Hw).
  - exists [], [], t. split; [by apply zrounds_nil |]. rewrite !app_nil_r.
    destruct fuel; cbn [sumcheck_loop]; rewrite Hw; cbn [Nat.pow Nat.leb]; by apply finish_spec_uni.
  - destruct fuel as [| fuel]; [lia |]. cbn [sumcheck_loop]. rewrite Hw, (proj2 (pow2_not_one n)).
    destruct (challenge_scalar (uni_absorb_round t (length rounds) (zmessage relation mix columns weights)) UNI_CHALLENGE_LABEL)
      as [c t1] eqn:Ec. destruct (fold_columns_pow n relation columns weights c Hc) as (Ef & _ & Ew). pose proof Hc as Hc'.
    rewrite Nat.pow_succ_r' in Hc'. pose proof (pow2_pos n).
    rewrite (prover_round_spec threads relation mix (2 ^ n) columns weights (length rounds) t c t1 Hc' ltac:(lia) Hd Ec), bind_of_ok.
    rewrite Ef, bind_of_ok, Ew, bind_of_ok. apply (columns_fold relation _ columns weights c) in Hc'.
    destruct (IH fuel _ _ (rounds ++ [zmessage relation mix columns weights]) (point ++ [c]) t1 Hc' ltac:(lia)) as (new & np & t' & Hz & E).
    exists (zmessage relation mix columns weights :: new), (c :: np), t'. rewrite length_app, Nat.add_1_r in Hz.
    split; [by eapply zrounds_cons |]. unfold zpoly at 1. rewrite E, <- !app_assoc.
    destruct (opened_fold relation n columns weights c np Hc (zr_point _ _ _ _ _ _ _ _ _ _ Hz)) as [-> _]. done.
Qed.
End relation.
End laws.
