(* ===== verification/ZeroCheck.v ===== *)
(** * The zero check: weights, soundness, and validation

    The weights of the rows are the multilinear equality polynomial of the sampled point. A claim of zero that
    the verifier accepts means that every row satisfies every constraint, unless a challenge hit one of few bad
    values. Validation reports the first row and constraint that fail, however many threads share the rows. *)
From S2P Require Import Prelude Image Field Fold Sumcheck SumcheckSpec SumProducts SumProductsSpec Uniform UniformSpec.

Section zero.
Context {F : Type} `{FieldLaws F} `{!CudaFolder F, !Transcript F, !UniformExternal}.
Local Open Scope field_scope.
Add Ring zero_ring : fl_ring.

(** ** The equality polynomial *)

Lemma weights_snoc (p : list F) c :
  weights (p ++ [c]) = map (λ w, w * (f1 - c)) (weights p) ++ map (λ w, w * c) (weights p).
Proof.
  induction p as [| r p IH]; [cbn; f_equal; [ring | f_equal; ring] |]. cbn [app weights]. rewrite IH. clear IH.
  assert (Hm : ∀ k ws, map (λ w, w * k) ws ≫= (λ w, [(f1 - r) * w; r * w]) = map (λ w, w * k) (ws ≫= λ w, [(f1 - r) * w; r * w])).
  { intros k ws. induction ws as [| w ws IH]; [done |]. cbn. f_equal; [ring |]. f_equal; [ring |]. exact IH. }
  rewrite bind_app, !Hm. done.
Qed.
Lemma equality_weights (p : list F) : equality_evaluations p = weights p.
Proof.
  induction p as [| c p IH] using rev_ind; [done |]. unfold equality_evaluations in *. rewrite foldl_app. cbn [foldl].
  by rewrite IH, weights_snoc.
Qed.

(** [equality_evaluation] as a product. *)
Fixpoint eq_product (p q : list F) : F :=
  match p, q with r :: p, s :: q => (r * s + (f1 - r) * (f1 - s)) * eq_product p q | _, _ => f1 end.
Lemma equality_evaluation_spec (p q : list F) : length p = length q →
  equality_evaluation p q = Ok (eq_product p q).
Proof.
  intros Hl. unfold equality_evaluation. rewrite Hl, Nat.eqb_refl. cbn [negb]. f_equal.
  assert (Hg : ∀ a, foldl (λ product '(l, r), product * (l * r + (f1 - l) * (f1 - r))) a (zip p q) = a * eq_product p q).
  { revert q Hl. induction p as [| r p IH]; intros [| s q] Hl a; try done; [cbn; ring |].
    cbn [zip zip_with foldl eq_product]. rewrite IH by (cbn in Hl; lia). ring. }
  rewrite Hg. ring.
Qed.
Lemma dot_scale k (l r : list F) : dot (map (λ w, w * k) l) r = k * dot l r.
Proof.
  revert r. induction l as [| w l IH]; intros r; cbn [map]; [rewrite !dot_nil_l; ring |].
  destruct r as [| v r]; [rewrite !dot_nil_r; ring |]. rewrite !dot_cons, IH. ring.
Qed.
Lemma mle_weights (p q : list F) : length p = length q → mle (weights p) q = eq_product p q.
Proof.
  revert q. induction p as [| r p IH]; intros [| s q] Hl; try done; [apply mle_nil |].
  rewrite mle_fold by (by rewrite length_weights, Hl). cbn [eq_product weights].
  assert (E : ∀ ws : list F, fold_chunks (ws ≫= λ w, [(f1 - r) * w; r * w]) s = map (λ w, w * (r * s + (f1 - r) * (f1 - s))) ws).
  { induction ws as [| w ws IHw]; [done |]. cbn. f_equal; [ring | exact IHw]. }
  rewrite E. unfold mle. rewrite dot_scale. f_equal. apply IH. cbn in Hl. lia.
Qed.

(** A table that is not zero but whose extension vanishes at [point]: some coordinate kills the table folded
    in the coordinates before it, and no other value of that coordinate would. *)
Definition zero_table (f : list F) : Prop := Forall (λ v, v = f0) f.
Definition kills (f : list F) (c : F) : Prop := ¬ zero_table f ∧ zero_table (fold_chunks f c).

Lemma kills_unique f n c d : length f = (2 * n)%nat → kills f c → kills f d → c = d.
Proof.
  intros Hl [Hf Hc] [_ Hd]. destruct (decide (c = d)) as [| Hne]; [done | exfalso]. apply Hf. unfold zero_table in *.
  rewrite Forall_lookup in *.
  assert (Hline : ∀ i, (i < n)%nat → at_row (2 * i) f = f0 ∧ at_row (2 * i + 1) f = f0).
  { intros i Hi. assert (Hz : ∀ x, (∀ j v, fold_chunks f x !! j = Some v → v = f0) → pair_line f i x = f0).
    { intros x Hx. rewrite <- (fold_chunks_row f i x n Hl Hi). unfold at_row. destruct (fold_chunks f x !! i) eqn:E; [by eapply Hx | done]. }
    apply Hz in Hc, Hd. unfold pair_line in *. set (a := at_row (2 * i) f) in *. set (b := at_row (2 * i + 1) f) in *.
    assert (Hm : (c - d) * (b - a) = f0).
    { transitivity (a + c * (b - a) - (a + d * (b - a))); [ring |]. rewrite Hc, Hd. ring. }
    apply fmul_zero in Hm as [Hm | Hm]; [by apply fsub_zero in Hm |]. apply fsub_zero in Hm. rewrite Hm in *.
    assert (a = f0); [| by split]. transitivity (a + c * (a - a)); [ring | exact Hc]. }
  intros j v Hv. pose proof (lookup_lt_Some _ _ _ Hv) as Hj.
  assert (at_row j f = v) as <- by (unfold at_row; by rewrite Hv). pose proof (Nat.div2_odd j) as Ho.
  destruct (Hline (Nat.div2 j)) as [Hlow Hhigh]; [destruct (Nat.odd j); cbn in Ho; lia |].
  rewrite Ho. destruct (Nat.odd j); cbn [Nat.b2n]; [done |]. by rewrite Nat.add_0_r.
Qed.
Lemma mle_zero_kills (point : list F) : ∀ f, length f = (2 ^ length point)%nat → ¬ zero_table f → mle f point = f0 →
  ∃ i c, point !! i = Some c ∧ kills (fold_tables f (take i point)) c.
Proof.
  induction point as [| c point IH]; intros f Hl Hf Hm.
  - destruct f as [| v [| ? ?]]; try done. rewrite mle_nil in Hm. subst v. exfalso. apply Hf. by repeat constructor.
  - rewrite (mle_fold f c point Hl) in Hm. destruct (decide (zero_table (fold_chunks f c))) as [Hz | Hz].
    + by exists 0%nat, c.
    + destruct (fold_table_pow f (length point) c Hl) as (_ & _ & Hl').
      destruct (IH _ Hl' Hz Hm) as (i & d & Hi & Hk). exists (S i), d. by split.
Qed.

(** A polynomial with as many roots as coefficients has no coefficient but zero. *)
Fixpoint quotient (a : F) (cs : list F) : list F :=
  match cs with
  | [] => []
  | _ :: cs' => match cs' with [] => [] | _ :: _ => eval cs' a :: quotient a cs' end
  end.
Lemma quotient_cons a c d (cs : list F) : quotient a (c :: d :: cs) = eval (d :: cs) a :: quotient a (d :: cs).
Proof. done. Qed.
Lemma quotient_spec a (cs : list F) : length (quotient a cs) = pred (length cs) ∧
  (∀ x, eval cs x = eval cs a + (x - a) * eval (quotient a cs) x) ∧
  (zero_table (quotient a cs) → eval cs a = f0 → zero_table cs).
Proof.
  induction cs as [| c [| d cs] IH].
  - split; [done |]. split; [| by constructor]. intros x. change (f0 = f0 + (x - a) * f0). ring.
  - split; [done |]. split.
    + intros x. change (c + x * f0 = c + a * f0 + (x - a) * f0). ring.
    + intros _ E. repeat constructor. rewrite eval_cons in E. change (eval [] a) with (f0 : F) in E. rewrite <- E. ring.
  - destruct IH as (Hl & He & Hz). rewrite quotient_cons. split; [cbn [length] in *; lia |]. split.
    + intros x. rewrite (eval_cons c), (eval_cons c (d :: cs) a), (eval_cons (eval (d :: cs) a)), (He x). ring.
    + intros [Ha Hq]%Forall_cons E. rewrite eval_cons, Ha in E. constructor; [rewrite <- E; ring | by apply Hz].
Qed.
Lemma roots_zero (cs : list F) : ∀ roots, NoDup roots → Forall (λ r, eval cs r = f0) roots → (length cs <= length roots)%nat →
  zero_table cs.
Proof.
  remember (length cs) as n eqn:Hn. revert cs Hn. induction n as [| n IH]; intros cs Hn roots Hnd Hr Hl.
  { destruct cs; [by constructor | done]. }
  destruct roots as [| a roots]; [cbn in Hl; lia |]. apply NoDup_cons in Hnd as [Ha Hnd]. apply Forall_cons in Hr as [Hra Hr].
  destruct (quotient_spec a cs) as (Hq & He & Hz). apply Hz; [| done]. apply (IH (quotient a cs) ltac:(rewrite Hq; lia) roots); [done | | cbn in Hl; lia].
  rewrite Forall_forall in *. intros r Hin. specialize (Hr r Hin). rewrite He, Hra in Hr.
  assert (Hm : (r - a) * eval (quotient a cs) r = f0) by (rewrite <- Hr; ring).
  apply fmul_zero in Hm as [Hm | Hm]; [| done]. apply fsub_zero in Hm. by subst.
Qed.

Lemma fold_tables_length (point : list F) : ∀ f i, length f = (2 ^ length point)%nat → (i < length point)%nat →
  ∃ m, length (fold_tables f (take i point)) = (2 * m)%nat.
Proof.
  induction point as [| c point IH]; intros f i Hl Hi; [cbn in Hi; lia |]. destruct i as [| i].
  - exists (2 ^ length point)%nat. cbn [take]. change (fold_tables f []) with f. by rewrite Hl, <- Nat.pow_succ_r'.
  - destruct (fold_table_pow f (length point) c Hl) as (_ & _ & Hl'). apply (IH _ i Hl'). cbn in Hi. lia.
Qed.

Section relation.
Context {R : Type} `{!UniformRelation F R, !UniformLaws R}.
Implicit Types (relation : R).

(** ** The sum *)

Definition combined_table relation mix (columns : list (list F)) (n : nat) : list F :=
  map (row_value relation mix columns) (seq 0 n).
Lemma dot_rows (w : list F) (g : nat → F) : dot (map g (seq 0 (length w))) w = fsum (λ i, at_row i w * g i) (seq 0 (length w)).
Proof.
  assert (Hg : ∀ k, dot (map g (seq k (length w))) w = fsum (λ i, at_row (i - k) w * g i) (seq k (length w))).
  { induction w as [| v w IH]; intros k; [done |]. cbn [length seq map]. rewrite dot_cons, fsum_cons, IH, Nat.sub_diag.
    change (at_row 0 (v :: w)) with v. f_equal; [ring |]. apply fsum_ext. intros i Hi%elem_of_seq.
    replace (i - k)%nat with (S (i - S k)) by lia. done. }
  rewrite Hg. apply fsum_ext. intros i _. by rewrite Nat.sub_0_r.
Qed.
(** The claim is the extension of the combined constraints at the sampled point. *)
Lemma zsum_mle relation mix columns row_point :
  zsum relation mix columns (weights row_point) = mle (combined_table relation mix columns (2 ^ length row_point)) row_point.
Proof. unfold zsum, mle, combined_table. rewrite <- length_weights, dot_rows. done. Qed.

(** Every row satisfies every constraint. *)
Definition holds relation (columns : list (list F)) (n : nat) : Prop :=
  ∀ i, (i < n)%nat → zero_table (values relation (row_at columns i)).
Lemma eval_zero_table vs x : zero_table vs → eval vs x = f0.
Proof. induction 1 as [| v vs -> _ IH]; [done |]. rewrite eval_cons, IH. ring. Qed.
Lemma zsum_holds relation mix columns weights : holds relation columns (length weights) → zsum relation mix columns weights = f0.
Proof.
  intros Hh. apply fsum_zero. intros i Hi%elem_of_seq. unfold row_value. rewrite eval_zero_table by (apply Hh; lia). ring.
Qed.

(** ** Completeness *)

Lemma prove_sumcheck_complete threads relation mix n columns row_point t : degree_ok relation →
  columns_ok relation (2 ^ S n) columns (equality_evaluations row_point) → length row_point = S n →
  holds relation columns (2 ^ S n) →
  ∃ rounds point t',
    prove_sumcheck threads relation columns (equality_evaluations row_point) mix BackendCpu t =
      Ok (rounds, point, opened columns point, t') ∧ length point = S n ∧
    replay_sumcheck relation rounds (opened columns point) row_point mix t = Ok (point, t').
Proof.
  intros Hd Hc Hrp Hh. rewrite equality_weights in *. pose proof Hc as (Hcc & Hf & Hw). unfold prove_sumcheck.
  pose proof (zsum_holds relation mix columns (weights row_point) ltac:(by rewrite Hw)) as Hz.
  assert (Hlt : (length (weights row_point) <? 2)%nat = false).
  { rewrite Hw. apply Nat.ltb_ge. pose proof (pow2_pos n). rewrite Nat.pow_succ_r'. lia. }
  assert (Hex : existsb (λ column : list F, negb (length column =? length (weights row_point))%nat) columns = false).
  { rewrite Hw. clear - Hf. induction Hf as [| f fs Hf _ IH]; [done |]. cbn [existsb]. by rewrite Hf, Nat.eqb_refl. }
  assert (Hdeg : degree_too_large relation = false) by (apply Z.leb_gt; exact Hd).
  rewrite Hlt, Hex, Hdeg, Hw, pow2_is_power. cbn [orb negb].
  destruct (challenge_scalar (uni_absorb_round t 0 (zmessage relation mix columns (weights row_point))) UNI_CHALLENGE_LABEL)
    as [c t1] eqn:Ec. pose proof Hc as Hc'. rewrite Nat.pow_succ_r' in Hc'. pose proof (pow2_pos n).
  rewrite <- Hz. rewrite (prover_round_spec threads relation mix (2 ^ n) columns (weights row_point) 0 t c t1 Hc' ltac:(lia) Hd Ec), bind_of_ok.
  destruct (fold_columns_pow n relation columns (weights row_point) c Hc) as (_ & Ef & Ew). rewrite Ef, bind_of_ok, Ew, bind_of_ok.
  apply (columns_fold relation _ columns (weights row_point) c) in Hc'. pose proof Hc' as (_ & _ & Hw').
  destruct (sumcheck_loop_spec threads relation mix n Hd (length (fold_chunks (weights row_point) c)) _ _
    [zmessage relation mix columns (weights row_point)] [c] t1 Hc') as (new & np & t' & Hzr & E).
  { rewrite Hw'. apply Nat.lt_le_incl, Nat.pow_gt_lin_r. lia. }
  pose proof (zrounds_cons n relation mix columns (weights row_point) 0 t c t1 new np t' Hc Hd Ec Hzr) as [Hn Hp Ha].
  destruct (opened_fold relation n columns (weights row_point) c np Hc (zr_point _ _ _ _ _ _ _ _ _ _ Hzr)) as [Eo _].
  eexists _, (c :: np), t'. split; [unfold zpoly; rewrite E, Eo; reflexivity |]. split; [done |].
  unfold replay_sumcheck. rewrite Hdeg. cbn [app]. rewrite Hn, Hrp, Nat.eqb_refl. unfold opened at 1. rewrite length_map, Hcc, Nat.eqb_refl.
  cbn [negb orb]. rewrite <- Hz, (Ha []), bind_of_ok. cbv beta iota. cbn [app].
  rewrite equality_evaluation_spec, bind_of_ok by congruence. unfold combined_relation, combined_relation_with_scratch.
  destruct (combined_spec relation (opened columns (c :: np)) mix (replicate (constraint_count relation) f0)) as [-> _];
    [unfold opened; by rewrite length_map | apply length_replicate |]. rewrite !bind_of_ok.
  rewrite bool_decide_eq_true_2; [done |]. unfold terminal. by rewrite mle_weights by congruence.
Qed.

(** ** Any backend *)

Lemma uni_collect_mono {A B} (g g' : A → uni_result F B) l : (∀ a b, g a = Ok b → g' a = Ok b) → ∀ ys,
  uni_collect (map g l) = Ok ys → uni_collect (map g' l) = Ok ys.
Proof.
  intros Hg. induction l as [| a l IH]; intros ys; cbn [map uni_collect]; [done |].
  intros (b & Hb & (bs & Hbs & E)%bind_ok)%bind_ok. by rewrite (Hg _ _ Hb), bind_of_ok, (IH _ Hbs), bind_of_ok.
Qed.
Lemma backend_error_cpu backend (f : list F) c f' : faithful_device →
  backend_error (backend_fold backend f c) = Ok f' → backend_error (backend_fold BackendCpu f c) = Ok f'.
Proof.
  intros Hd. unfold backend_error. destruct (backend_fold backend f c) eqn:E; [| done]. intros [= ->].
  by rewrite (backend_fold_cpu _ _ _ _ Hd E).
Qed.
Lemma backend_slice_cpu backend (f : list F) c f' : faithful_device →
  backend_error (backend_fold_from_slice backend f c) = Ok f' → backend_error (backend_fold_from_slice BackendCpu f c) = Ok f'.
Proof.
  intros Hd. destruct backend as [| folder]; [done |]. cbn. destruct (cuda_fold_binary_layer _ _ _) eqn:E; [| done].
  intros [= ->]. by rewrite (Hd _ _ _ _ E).
Qed.
Lemma sumcheck_loop_cpu threads backend relation points powers mix fuel : faithful_device → ∀ columns weights rounds claim point t out,
  sumcheck_loop threads backend fuel relation columns weights points powers mix rounds claim point t = Ok out →
  sumcheck_loop threads BackendCpu fuel relation columns weights points powers mix rounds claim point t = Ok out.
Proof.
  intros Hd. induction fuel as [| fuel IH]; intros columns weights rounds claim point t out; cbn [sumcheck_loop]; [done |].
  destruct (length weights <=? 1)%nat; [done |]. intros ([[[m c] cl] t1] & -> & E)%bind_ok. rewrite bind_of_ok.
  apply bind_ok in E as (cols & Ec & (w & Ew & E)%bind_ok).
  rewrite (uni_collect_mono _ _ _ (λ f f', backend_error_cpu backend f c f' Hd) _ Ec : fold_columns BackendCpu columns c = Ok cols).
  rewrite bind_of_ok, (backend_error_cpu _ _ _ _ Hd Ew), bind_of_ok. by apply IH.
Qed.
Lemma prove_sumcheck_cpu threads backend relation columns weights mix t out : faithful_device →
  prove_sumcheck threads relation columns weights mix backend t = Ok out →
  prove_sumcheck threads relation columns weights mix BackendCpu t = Ok out.
Proof.
  intros Hd. unfold prove_sumcheck. destruct (_ || _); [done |]. destruct (degree_too_large relation); [done |].
  intros ([[[m c] cl] t1] & -> & E)%bind_ok. rewrite bind_of_ok. apply bind_ok in E as (cols & Ec & (w & Ew & E)%bind_ok).
  rewrite (uni_collect_mono _ _ _ (λ f f', backend_slice_cpu backend f c f' Hd) _ Ec : fold_borrowed_columns BackendCpu columns c = Ok cols).
  rewrite bind_of_ok, (backend_error_cpu _ _ _ _ Hd Ew), bind_of_ok. by apply (sumcheck_loop_cpu threads backend).
Qed.

(** ** Soundness *)

Lemma replay_rounds_point d rounds : ∀ round_index claim before t v point t',
  replay_rounds d rounds round_index claim before t = Ok (v, point, t') →
  ∃ new, point = before ++ new ∧ length new = length rounds.
Proof.
  induction rounds as [| m rounds IH]; intros k claim before t v point t'; cbn [replay_rounds].
  { intros [= _ <- _]. exists []. by rewrite app_nil_r. }
  destruct (_ =? _)%nat; [| done]. cbn [negb]. intros (a & _ & (b & _ & E)%bind_ok)%bind_ok. revert E. case_bool_decide; [| done].
  cbn [negb]. cbv zeta. destruct (challenge_scalar _ _) as [c t1]. intros (claim' & _ & E)%bind_ok.
  apply IH in E as (new & -> & Hl). exists (c :: new). rewrite <- app_assoc. split; [done | cbn; lia].
Qed.
(** The message the columns call for after a prefix of challenges. *)
Definition right_zmessage relation mix (columns : list (list F)) (weights challenges : list F) : list F :=
  zmessage relation mix (map (λ f, fold_tables f challenges) columns) (fold_tables weights challenges).

Lemma right_zmessage_cons relation mix columns weights c challenges :
  right_zmessage relation mix (map (λ f, fold_chunks f c) columns) (fold_chunks weights c) challenges =
  right_zmessage relation mix columns weights (c :: challenges).
Proof. unfold right_zmessage. by rewrite map_map. Qed.

Lemma replay_rounds_sound relation mix : degree_ok relation →
  ∀ rounds round_index claim before t v point t' columns weights,
  columns_ok relation (2 ^ length rounds) columns weights →
  replay_rounds (max_constraint_degree relation + 2) rounds round_index claim before t = Ok (v, before ++ point, t') →
  v = terminal relation mix columns weights point →
  claim = zsum relation mix columns weights ∨ ∃ i message challenge, rounds !! i = Some message ∧ point !! i = Some challenge ∧
    length message = (max_constraint_degree relation + 2)%nat ∧
    fooled message (right_zmessage relation mix columns weights (take i point)) challenge.
Proof.
  intros Hd rounds. induction rounds as [| message rounds IH]; intros ri claim before t v point t' columns weights Hc Hv Hfin.
  { cbn [replay_rounds] in Hv. injection Hv as <- Hp _. left. rewrite <- (app_nil_r before) in Hp at 1.
    apply app_inv_head in Hp as <-. rewrite Hfin. unfold terminal.
    destruct (opened_single relation columns weights Hc) as (E & Ew & _). rewrite E, Ew. symmetry. by apply zsum_single. }
  cbn [length] in Hc. cbn [replay_rounds] in Hv. revert Hv. destruct (Nat.eqb_spec (length message) (max_constraint_degree relation + 2)) as [Hlm |]; [| done].
  cbn [negb]. intros (a & Ha & (b & Hb & Hv)%bind_ok)%bind_ok. revert Hv. case_bool_decide as Hs; [| done]. cbn [negb]. cbv zeta.
  pose proof Hc as Hc'. rewrite Nat.pow_succ_r' in Hc'.
  destruct (decide (message = zmessage relation mix columns weights)) as [-> | Hne].
  { intros _. left. destruct (zmessage_ends relation mix columns weights) as [E0 E1]. rewrite E0 in Ha. rewrite E1 in Hb.
    injection Ha as <-. injection Hb as <-. rewrite <- Hs. by apply (zpoly_sum relation mix (2 ^ length rounds)). }
  destruct (challenge_scalar _ UNI_CHALLENGE_LABEL) as [c t1]. intros (claim' & Hcl%uni_lagrange_inv & Hv)%bind_ok.
  pose proof (replay_rounds_point _ _ _ _ _ _ _ _ _ Hv) as (new & Hp & Hlen). rewrite <- app_assoc in Hp.
  apply app_inv_head in Hp. cbn [app] in Hp. subst point. pose proof (zmessage_value relation mix _ columns weights c Hc' Hd) as Hg. right.
  destruct (decide (claim' = zpoly relation mix columns weights c)) as [Heq | Hneq].
  { exists 0%nat, message, c. split; [done |]. split; [done |]. split; [done |]. cbn [take]. unfold right_zmessage, fold_tables. cbn [foldl].
    rewrite map_id. split; [done |]. by rewrite Hcl, Heq, <- Hg. }
  replace (before ++ c :: new) with ((before ++ [c]) ++ new) in Hv by (by rewrite <- app_assoc).
  destruct (opened_fold relation _ columns weights c new Hc Hlen) as [Eo Ew]. unfold terminal in Hfin. rewrite Eo, Ew in Hfin.
  destruct (IH _ _ _ _ _ _ _ _ _ (columns_fold relation _ columns weights c Hc') Hv Hfin) as [E | (i & m & ch & Hi & Hpi & Hml & Hf)]; [done |].
  exists (S i), m, ch. split; [done |]. split; [done |]. split; [done |]. cbn [take]. by rewrite <- right_zmessage_cons.
Qed.

(** A combination of zero at every row: every row satisfies its constraints or the mix is a root of one row's. *)
Lemma combined_zero relation mix columns n : zero_table (combined_table relation mix columns n) →
  holds relation columns n ∨ ∃ i, (i < n)%nat ∧ ¬ zero_table (values relation (row_at columns i)) ∧ row_value relation mix columns i = f0.
Proof.
  intros Hz. unfold combined_table, zero_table in Hz. rewrite Forall_map, Forall_forall in Hz.
  destruct (decide (Forall (λ i, Forall (λ v, v = f0) (values relation (row_at columns i))) (seq 0 n))) as [Hh | Hh].
  - left. intros i Hi. rewrite Forall_forall in Hh. apply Hh. apply elem_of_seq. lia.
  - right. apply not_Forall_Exists in Hh; [| apply _]. apply Exists_exists in Hh as (i & Hi & Hv). exists i.
    split; [apply elem_of_seq in Hi; lia |]. split; [exact Hv | by apply Hz].
Qed.
Lemma mix_bound relation row mixes : length row = column_count relation → ¬ zero_table (values relation row) → NoDup mixes →
  Forall (λ m, eval (values relation row) m = f0) mixes → (length mixes < constraint_count relation)%nat.
Proof.
  intros Hr Hz Hnd Hm. destruct (ul_evaluate relation row (replicate (constraint_count relation) f0)) as [_ Hl];
    [done | apply length_replicate | done |].
  destruct (decide (length mixes < constraint_count relation)%nat) as [| Hge]; [done | exfalso]. apply Hz.
  apply (roots_zero _ mixes); [done | done | lia].
Qed.

(** ** Validation *)

Section validation.
Context {C : Type} (get : C → nat → option F) (threads : nat) (relation : R) (columns : list C) (row_count : nat).
Context (table : C → list F).

Definition nonzero (v : F) : bool := negb (bool_decide (v = f0)).
Definition violation (i : nat) : option nat := first_position nonzero (values relation (row_at (map table columns) i)).
Fixpoint first_violation (k n : nat) : option (nat * nat) :=
  match n with
  | O => None
  | S n => match violation k with Some c => Some (k, c) | None => first_violation (S k) n end
  end.

Lemma first_violation_app n : ∀ k m, first_violation k (n + m) =
  match first_violation k n with Some x => Some x | None => first_violation (k + n) m end.
Proof.
  induction n as [| n IH]; intros k m; [by rewrite Nat.add_0_r |]. cbn [first_violation Nat.add].
  destruct (violation k); [done |]. rewrite IH. by replace (S k + n)%nat with (k + S n)%nat by lia.
Qed.
Lemma first_position_spec (vs : list F) : match first_position nonzero vs with
  | Some i => ∃ v, vs !! i = Some v ∧ v ≠ f0 ∧ ∀ j w, (j < i)%nat → vs !! j = Some w → w = f0
  | None => zero_table vs
  end.
Proof.
  induction vs as [| v vs IH]; [by constructor |]. cbn [first_position]. unfold nonzero at 1. case_bool_decide as Hv; cbn [negb].
  - destruct (first_position nonzero vs) as [i |]; cbn.
    + destruct IH as (w & Hw & Hne & Hb). exists w. split; [done |]. split; [done |]. intros [| j] u Hj Hu; [cbn in Hu; congruence |].
      apply (Hb j u); [lia | done].
    + by constructor.
  - exists v. split; [done |]. split; [done |]. intros j w Hj. lia.
Qed.
Lemma first_violation_spec n : ∀ k, match first_violation k n with
  | Some (row, con) => (k <= row < k + n)%nat ∧ violation row = Some con ∧ ∀ i, (k <= i < row)%nat → violation i = None
  | None => ∀ i, (k <= i < k + n)%nat → violation i = None
  end.
Proof.
  induction n as [| n IH]; intros k; cbn [first_violation]; [intros i Hi; lia |]. destruct (violation k) as [c |] eqn:Ev.
  - split; [lia |]. split; [done |]. intros i Hi. lia.
  - specialize (IH (S k)). destruct (first_violation (S k) n) as [[row con] |].
    + destruct IH as (Hr & Hv & Hb). split; [lia |]. split; [done |]. intros i Hi. destruct (decide (i = k)) as [-> |]; [done |]. apply Hb. lia.
    + intros i Hi. destruct (decide (i = k)) as [-> |]; [done |]. apply IH. lia.
Qed.

Context (Hget : ∀ c i, c ∈ columns → (i < row_count)%nat → get c i = Some (at_row i (table c))).
Context (Hcount : length columns = column_count relation).
Lemma validate_rows_spec n : ∀ k out, (k + n <= row_count)%nat → length out = constraint_count relation →
  validate_rows get relation columns n k out = Ok (first_violation k n).
Proof.
  induction n as [| n IH]; intros k out Hn Ho; [done |]. cbn [validate_rows first_violation].
  rewrite (uni_collect_ok _ (λ c, at_row k (table c))).
  2: { intros c Hc. rewrite Hget; [done | by apply list_elem_of_In | lia]. }
  rewrite bind_of_ok. assert (E : map (λ c, at_row k (table c)) columns = row_at (map table columns) k) by (unfold row_at; by rewrite map_map).
  rewrite E. destruct (initialize_ok relation out (row_at (map table columns) k)) as [-> Hl]; [unfold row_at; by rewrite !length_map | done |].
  rewrite bind_of_ok. unfold violation. change (first_position _ (values relation (row_at (map table columns) k))) with (first_position nonzero (values relation (row_at (map table columns) k))).
  destruct (first_position nonzero _); [done |]. by rewrite IH by (lia || done).
Qed.
Lemma validate_chunk_spec rpc k : validate_chunk get relation columns row_count rpc k =
  Ok (first_violation (k * rpc) (Nat.min (k * rpc + rpc) row_count - k * rpc)).
Proof.
  unfold validate_chunk, validation_range. destruct (Nat.le_gt_cases row_count (k * rpc)).
  - by replace (Nat.min (k * rpc + rpc) row_count - k * rpc)%nat with O by lia.
  - apply validate_rows_spec; [lia | apply length_replicate].
Qed.
Lemma finish_validation_spec rpc m : (0 < rpc)%nat → ∀ k, (row_count <= (k + m) * rpc)%nat →
  finish_parallel_validation (map (λ chunk, validate_chunk get relation columns row_count rpc chunk) (seq k m)) =
    match first_violation (Nat.min (k * rpc) row_count) (row_count - k * rpc) with
    | Some (row, constraint) => Err (UniErr.WitnessUnsatisfied row constraint)
    | None => Ok ()
    end.
Proof.
  intros Hr. induction m as [| m IH]; intros k Hm; cbn [seq map finish_parallel_validation].
  { replace (row_count - k * rpc)%nat with O by nia. done. }
  rewrite validate_chunk_spec, bind_of_ok. destruct (Nat.le_gt_cases row_count (k * rpc)) as [Hle | Hgt].
  - replace (Nat.min (k * rpc + rpc) row_count - k * rpc)%nat with O by lia. cbn [first_violation]. rewrite (IH (S k)) by lia.
    replace (row_count - k * rpc)%nat with O by lia. by replace (row_count - S k * rpc)%nat with O by nia.
  - replace (row_count - k * rpc)%nat with ((Nat.min (k * rpc + rpc) row_count - k * rpc) + (row_count - S k * rpc))%nat by nia.
    replace (Nat.min (k * rpc) row_count) with (k * rpc)%nat by lia. rewrite first_violation_app.
    destruct (first_violation (k * rpc) (Nat.min (k * rpc + rpc) row_count - k * rpc)) as [[row con] |]; [done |].
    rewrite (IH (S k)) by lia. replace (Nat.min (S k * rpc) row_count) with (k * rpc + (Nat.min (k * rpc + rpc) row_count - k * rpc))%nat; [done |].
    cbn [Nat.mul]. lia.
Qed.
Lemma ensure_holds_spec : (0 < row_count)%nat → ensure_holds get threads relation columns row_count =
  match first_violation 0 row_count with
  | Some (row, constraint) => Err (UniErr.WitnessUnsatisfied row constraint)
  | None => Ok ()
  end.
Proof.
  intros Hpos. unfold ensure_holds, validation_chunk_count. rewrite (proj2 (Nat.eqb_neq row_count 0)) by lia. rewrite bind_of_ok.
  set (chunks := clamp threads 1 row_count). assert (0 < chunks)%nat by (subst chunks; unfold clamp; lia).
  rewrite finish_validation_spec; [by rewrite Nat.mul_0_l, Nat.min_0_l, Nat.sub_0_r | by apply div_ceil_pos |].
  rewrite Nat.add_0_l, Nat.mul_comm. by apply div_ceil_cover.
Qed.

End validation.
End relation.
End zero.
