(* ===== verification/Uniforms.v ===== *)
(** * What the uniform relations guarantee

    The claims about the validation of a witness and about the zero check, with the relation of one Boolean
    column (crates/zksm83-jolt/src/uniform.rs, tests) as their example. *)
From Stdlib Require Import Qcanon.
From S2P Require Import Prelude Commitment Image Field Fold Sumcheck SumcheckSpec SumProducts SumProductsSpec Uniform UniformSpec ZeroCheck Sumchecks.
Local Open Scope Z_scope.

Section claims.
Context {F : Type} `{FieldLaws F} `{!CudaFolder F, !Transcript F, !UniformExternal}.
Context {R : Type} `{!UniformRelation F R, !UniformLaws R}.
Local Open Scope field_scope.

(** C20. Validation accepts a witness of the right shape exactly if every row satisfies every constraint, otherwise
    it names the first violated row and that row's first violated constraint, whatever the number of threads;
    a witness of another shape is refused with the error of the shape check. *)
Theorem witness_validation_exact threads (relation : R) columns :
  let fields := map (map (from_u64 (F := F))) columns in
  (∀ threads', validate_uniform_witness threads' relation columns = validate_uniform_witness threads relation columns) ∧
  match validate_witness_shape relation columns, validate_uniform_witness threads relation columns with
  | Err e, outcome => outcome = Err e
  | Ok n, Ok _ => n = UNIFORM_ROW_COUNT ∧ holds relation fields n
  | Ok n, Err (UniErr.WitnessUnsatisfied row constraint) =>
      (row < n)%nat ∧ (∀ i, (i < row)%nat → zero_table (values relation (row_at fields i))) ∧
      ∃ v, values relation (row_at fields row) !! constraint = Some v ∧ v ≠ f0 ∧
        ∀ j w, (j < constraint)%nat → values relation (row_at fields row) !! j = Some w → w = f0
  | Ok _, Err _ => False
  end.
Proof.
  intros fields. unfold validate_uniform_witness. destruct (validate_witness_shape relation columns) as [n | e] eqn:Es; [| by split].
  rewrite bind_of_ok. unfold validate_witness_shape in Es. apply bind_ok in Es as ([] & _ & Es).
  destruct (Nat.eqb_spec (length columns) (column_count relation)) as [Hc |]; [| done]. cbn [negb] in Es.
  apply bind_ok in Es as (m & _ & Es). destruct (Nat.eqb_spec m UNIFORM_ROW_COUNT) as [Hm |]; [| done]. cbn [negb orb] in Es.
  destruct (existsb _ columns) eqn:Ex; [done |]. injection Es as <-. subst m. assert (Hlen : ∀ c, c ∈ columns → length c = UNIFORM_ROW_COUNT).
  { intros c Hin. destruct (Nat.eqb_spec (length c) UNIFORM_ROW_COUNT) as [| Hne]; [done | exfalso].
    apply eq_true_false_abs with (2 := Ex). apply existsb_exists. exists c. split; [by apply list_elem_of_In |].
    by rewrite (proj2 (Nat.eqb_neq _ _) Hne). }
  assert (Hpos : (0 < UNIFORM_ROW_COUNT)%nat) by apply pow2_pos. generalize dependent UNIFORM_ROW_COUNT. intros rows Ex Hlen Hpos.
  assert (E : ∀ threads', ensure_u64_relation_holds threads' relation columns rows =
    match first_violation relation columns (map from_u64) 0 rows with
    | Some (row, constraint) => Err (UniErr.WitnessUnsatisfied row constraint) | None => Ok () end).
  { intros threads'. apply ensure_holds_spec; [| done | done]. intros c i Hin Hi. destruct (lookup_lt_is_Some_2 c i) as [v Hv]; [by rewrite Hlen |].
    unfold at_row. change (map from_u64 c) with (from_u64 (F := F) <$> c). by rewrite list_lookup_fmap, Hv. }
  split; [intros threads'; rewrite bind_of_ok; by rewrite !E |]. rewrite E. pose proof (first_violation_spec relation columns (map from_u64) rows 0) as Hf.
  destruct (first_violation relation columns (map from_u64) 0 rows) as [[row con] |].
  - destruct Hf as (Hr & Hv & Hb). split; [lia |]. split.
    + intros i Hi. pose proof (first_position_spec (values relation (row_at (map (map from_u64) columns) i))) as Hp. specialize (Hb i ltac:(lia)).
      unfold violation in Hb. by rewrite Hb in Hp.
    + pose proof (first_position_spec (values relation (row_at (map (map from_u64) columns) row))) as Hp. unfold violation in Hv. by rewrite Hv in Hp.
  - split; [done |]. intros i Hi. pose proof (first_position_spec (values relation (row_at (map (map from_u64) columns) i))) as Hp. specialize (Hf i ltac:(lia)).
    unfold violation in Hf. by rewrite Hf in Hp.
Qed.

(** C19. For a relation of the declared degree, columns of [2 ^ (n + 1)] rows that satisfy it, and a device that folds
    like the processor: proving with any number of threads succeeds on the processor, and what any backend
    proves ends in the columns' multilinear extensions and is accepted, with the prover's point and transcript. *)
Theorem zero_check_complete (relation : R) mix n columns row_point t : degree_ok relation →
  columns_ok relation (2 ^ S n) columns (equality_evaluations row_point) → length row_point = S n →
  holds relation columns (2 ^ S n) → faithful_device →
  (∀ threads, ∃ out, prove_sumcheck threads relation columns (equality_evaluations row_point) mix BackendCpu t = Ok out) ∧
  ∀ threads backend rounds point opened_values t',
    prove_sumcheck threads relation columns (equality_evaluations row_point) mix backend t = Ok (rounds, point, opened_values, t') →
    opened_values = opened columns point ∧ length point = S n ∧
    replay_sumcheck relation rounds opened_values row_point mix t = Ok (point, t').
Proof.
  intros Hd Hc Hrp Hh Hf. split.
  - intros threads. destruct (prove_sumcheck_complete threads relation mix n columns row_point t Hd Hc Hrp Hh) as (r & p & t' & E & _).
    by eexists.
  - intros threads backend rounds point opened_values t' E. apply (prove_sumcheck_cpu _ _ _ _ _ _ _ _ Hf) in E.
    destruct (prove_sumcheck_complete threads relation mix n columns row_point t Hd Hc Hrp Hh) as (r & p & t'' & E' & Hp & Hr).
    rewrite E' in E. by injection E as <- <- <- <-.
Qed.

(** C18. If the verifier accepts a zero check whose opened values are the columns' multilinear extensions at its
    point, every row satisfies every constraint, or one of three bad things happened: the mixing challenge is a
    root of one violated row's constraints, of which there are fewer than constraints; a coordinate of the
    sampled row point is the one value that hides the violation given the coordinates before it; or a round's
    challenge is one of the at most [degree + 1] where a wrong message takes the right value. *)
Theorem zero_check_sound (relation : R) mix n columns row_point rounds opened_values t point t' : degree_ok relation →
  columns_ok relation (2 ^ n) columns (equality_evaluations row_point) → length row_point = n →
  replay_sumcheck relation rounds opened_values row_point mix t = Ok (point, t') → opened_values = opened columns point →
  holds relation columns (2 ^ n) ∨
  (∃ i, (i < 2 ^ n)%nat ∧ let bad m := eval (values relation (row_at columns i)) m = f0 in
    bad mix ∧ ∀ mixes, NoDup mixes → Forall bad mixes → (length mixes < constraint_count relation)%nat) ∨
  (∃ i c, row_point !! i = Some c ∧ let bad := kills (fold_tables (combined_table relation mix columns (2 ^ n)) (take i row_point)) in
    bad c ∧ ∀ d, bad d → d = c) ∨
  (∃ i message challenge, rounds !! i = Some message ∧ point !! i = Some challenge ∧
    let bad := fooled message (right_zmessage relation mix columns (equality_evaluations row_point) (take i point)) in
    bad challenge ∧ ∀ challenges, NoDup challenges → Forall bad challenges →
      (length challenges <= max_constraint_degree relation + 1)%nat).
Proof.
  intros Hd Hc Hrp Hv Ho. rewrite equality_weights in *. unfold replay_sumcheck in Hv.
  assert (Hdeg : degree_too_large relation = false) by (apply Z.leb_gt; exact Hd). rewrite Hdeg in Hv.
  destruct (Nat.eqb_spec (length rounds) (length row_point)) as [Hlr |]; [| done]. destruct (_ =? _)%nat; [| done]. cbn [negb orb] in Hv.
  apply bind_ok in Hv as ([[v point'] t1] & Hv & E). apply bind_ok in E as (w & Hw & (g & Hg & E)%bind_ok).
  case_bool_decide as Hfin; [| done]. cbn [negb] in E. injection E as <- <-.
  pose proof (replay_rounds_point _ _ _ _ _ _ _ _ _ Hv) as (new & -> & Hlen). cbn [app] in *.
  rewrite equality_evaluation_spec in Hw by congruence. injection Hw as <-.
  assert (Hterm : v = terminal relation mix columns (weights row_point) new).
  { rewrite Hfin. unfold terminal. rewrite mle_weights by congruence. f_equal. unfold combined_relation, combined_relation_with_scratch in Hg.
    destruct (combined_spec relation opened_values mix (replicate (constraint_count relation) f0)) as [Ec _];
      [rewrite Ho; unfold opened; rewrite length_map; by destruct Hc | apply length_replicate |].
    rewrite Ec, bind_of_ok in Hg. injection Hg as <-. by rewrite Ho. }
  subst n. destruct (replay_rounds_sound relation mix Hd rounds 0 f0 [] t v new t1 columns (weights row_point)) as [Hz | Hfool];
    [by rewrite Hlr | exact Hv | exact Hterm | |].
  - rewrite zsum_mle in Hz. set (table := combined_table relation mix columns (2 ^ length row_point)) in *.
    assert (Ht : length table = (2 ^ length row_point)%nat) by (subst table; unfold combined_table; by rewrite length_map, length_seq).
    destruct (decide (zero_table table)) as [Hzt | Hzt].
    + destruct (combined_zero relation mix columns _ Hzt) as [Hh | (i & Hi & Hni & Hrv)]; [by left |]. right. left. exists i.
      split; [done |]. split; [exact Hrv |]. intros mixes Hnd Hm. apply (mix_bound relation (row_at columns i)); [| done | done | done].
      unfold row_at. rewrite length_map. by destruct Hc.
    + right. right. left. destruct (mle_zero_kills row_point table Ht Hzt (eq_sym Hz)) as (i & c & Hi & Hk). exists i, c.
      split; [done |]. split; [done |]. intros d Hkd. symmetry.
      destruct (fold_tables_length row_point table i) as [m Hm]; [by rewrite Ht | by apply lookup_lt_Some in Hi |].
      by apply (kills_unique _ m c d Hm).
  - right. right. right. destruct Hfool as (i & m & c & Hi & Hpi & Hml & Hf). exists i, m, c. split; [done |]. split; [done |].
    split; [done |]. intros cs Hnd Hcs. assert (length cs < max_constraint_degree relation + 2)%nat; [| lia].
    pose proof (length_zmessage relation mix (map (λ f, fold_tables f (take i new)) columns) (fold_tables (weights row_point) (take i new))) as Hl.
    rewrite <- Hl. apply (fooled_bound m); [by rewrite Hl | rewrite Hl; exact Hd | by destruct Hf | done | done].
Qed.
End claims.

(** ** One Boolean column, over the rationals *)

Inductive BooleanColumn := MkBooleanColumn.

#[local] Existing Instance folding_device.
#[local] Existing Instance counting_transcript.
Definition no_external : UniformExternal := {| akita_error := unit; serialization_error := unit; io_error := unit |}.
#[local] Existing Instance no_external.

(** [BooleanColumn] of the tests: [value * (value - 1)]. *)
Definition boolean_relation : UniformRelation Qc BooleanColumn := {|
  domain _ := string_bytes "zksm83/test/boolean-column/v1";
  statement_bytes _ := string_bytes "one committed column is Boolean";
  column_count _ := 1%nat;
  constraint_count _ := 1%nat;
  max_constraint_degree _ := 2%nat;
  constraint_output _ := ConOut.ZeroInitialized;
  evaluate _ row constraints :=
    value ← ok_or (head row) UniErr.Shape;
    _ ← ok_or (head constraints) UniErr.Shape;
    Ok (<[0%nat := fmul value (fsub value (from_u64 1))]> constraints)
|}.
#[local] Existing Instance boolean_relation.

Add Ring rational_ring : (fl_ring (F := Qc)).
Lemma boolean_values v : values MkBooleanColumn [v] = [fmul v (fsub v (from_u64 1))].
Proof. done. Qed.
#[local] Instance boolean_laws : UniformLaws BooleanColumn.
Proof.
  split.
  - intros relation row out Hr Ho _. destruct relation, row as [| v [| ? ?]], out as [| o [| ? ?]]; try done.
  - intros relation lines i Hl. destruct relation, lines as [| [a b] [| ? ?]]; try done. cbn [map].
    apply (is_poly_ext _ (λ x, default f0 ([fmul (fadd a (fmul x b)) (fsub (fadd a (fmul x b)) (from_u64 1))] !! i))).
    { intros x. by rewrite boolean_values. }
    destruct i as [| i].
    + apply (is_poly_ext _ (λ x, fmul (fadd a (fmul x b)) (fmul (fadd (fsub a (from_u64 1)) (fmul x b)) (from_u64 1)))).
      { intros x. change (default f0 ([fmul (fadd a (fmul x b)) (fsub (fadd a (fmul x b)) (from_u64 1))] !! 0%nat)) with (fmul (fadd a (fmul x b)) (fsub (fadd a (fmul x b)) (from_u64 1))). ring. }
      apply is_poly_affine, is_poly_affine, is_poly_const.
    + apply (is_poly_more 1); [cbn; lia |]. exact (is_poly_const (from_u64 0)).
Qed.

Definition bits : list (list Qc) := [rationals [1; 0]].

Lemma witness_validation_exact_witness :
  let columns := [replicate UNIFORM_ROW_COUNT 1] in let fields := map (map (from_u64 (F := Qc))) columns in
  (∀ threads', validate_uniform_witness threads' MkBooleanColumn columns = validate_uniform_witness 4 MkBooleanColumn columns) ∧
  match validate_witness_shape MkBooleanColumn columns, validate_uniform_witness 4 MkBooleanColumn columns with
  | Err e, outcome => outcome = Err e
  | Ok n, Ok _ => n = UNIFORM_ROW_COUNT ∧ holds MkBooleanColumn fields n
  | Ok n, Err (UniErr.WitnessUnsatisfied row constraint) =>
      (row < n)%nat ∧ (∀ i, (i < row)%nat → zero_table (values MkBooleanColumn (row_at fields i))) ∧
      ∃ v, values MkBooleanColumn (row_at fields row) !! constraint = Some v ∧ v ≠ from_u64 0 ∧
        ∀ j w, (j < constraint)%nat → values MkBooleanColumn (row_at fields row) !! j = Some w → w = from_u64 0
  | Ok _, Err _ => False
  end.
Proof. exact (witness_validation_exact 4 MkBooleanColumn [replicate UNIFORM_ROW_COUNT 1]). Defined.

Lemma boolean_degree : degree_ok MkBooleanColumn.
Proof. unfold degree_ok. cbn. lia. Qed.
Lemma bits_ok : columns_ok MkBooleanColumn (2 ^ 1) bits (equality_evaluations (rationals [3])).
Proof. split; [done |]. split; [by repeat constructor | done]. Qed.
Lemma bits_hold : holds MkBooleanColumn bits (2 ^ 1).
Proof. intros [| [| i]] Hi; [| | cbn in Hi; lia]; repeat constructor; apply Qc_is_canon; reflexivity. Qed.

Lemma zero_check_complete_witness : ∃ rounds point opened_values t',
  prove_sumcheck 4 MkBooleanColumn bits (equality_evaluations (rationals [3])) (from_u64 7) BackendCpu (counter 0) =
    Ok (rounds, point, opened_values, t') ∧
  opened_values = opened bits point ∧ length point = 1%nat ∧
  replay_sumcheck MkBooleanColumn rounds opened_values (rationals [3]) (from_u64 7) (counter 0) = Ok (point, t').
Proof.
  destruct (zero_check_complete MkBooleanColumn (from_u64 7) 0 bits (rationals [3]) (counter 0) boolean_degree bits_ok eq_refl bits_hold
    folding_device_faithful) as [He Hall].
  destruct (He 4%nat) as [[[[rounds point] opened_values] t'] E]. exists rounds, point, opened_values, t'.
  split; [exact E |]. exact (Hall _ _ _ _ _ _ E).
Defined.

(** A proof of bits whose message is zero everywhere, at the challenge 6. *)
Lemma zero_check_sound_witness :
  let rounds := [rationals [0; 0; 0; 0]] in let columns := [rationals [0; 0]] in
  replay_sumcheck MkBooleanColumn rounds (rationals [0]) (rationals [3]) (from_u64 7) (counter 0) = Ok (rationals [5], counter 6) ∧
  (holds MkBooleanColumn columns (2 ^ 1) ∨
  (∃ i, (i < 2 ^ 1)%nat ∧ let bad m := eval (values MkBooleanColumn (row_at columns i)) m = from_u64 0 in
    bad (from_u64 7) ∧ ∀ mixes, NoDup mixes → Forall bad mixes → (length mixes < constraint_count MkBooleanColumn)%nat) ∨
  (∃ i c, rationals [3] !! i = Some c ∧
    let bad := kills (fold_tables (combined_table MkBooleanColumn (from_u64 7) columns (2 ^ 1)) (take i (rationals [3]))) in
    bad c ∧ ∀ d, bad d → d = c) ∨
  (∃ i message challenge, rounds !! i = Some message ∧ rationals [5] !! i = Some challenge ∧
    let bad := fooled message (right_zmessage MkBooleanColumn (from_u64 7) columns (equality_evaluations (rationals [3])) (take i (rationals [5]))) in
    bad challenge ∧ ∀ challenges, NoDup challenges → Forall bad challenges → (length challenges <= max_constraint_degree MkBooleanColumn + 1)%nat)).
Proof.
  assert (Hv : replay_sumcheck MkBooleanColumn [rationals [0; 0; 0; 0]] (rationals [0]) (rationals [3]) (from_u64 7) (counter 0) =
    Ok (rationals [5], counter 6)) by reflexivity.
  split; [exact Hv |].
  apply (zero_check_sound MkBooleanColumn (from_u64 7) 1 [rationals [0; 0]] (rationals [3]) [rationals [0; 0; 0; 0]] (rationals [0])
    (counter 0) (rationals [5]) (counter 6)).
  - exact boolean_degree.
  - split; [reflexivity |]. split; [repeat constructor | reflexivity].
  - reflexivity.
  - exact Hv.
  - unfold opened. cbn [map]. apply (f_equal (λ v, [v])). apply Qc_is_canon. reflexivity.
Defined.
