(* ===== verification/Columns.v ===== *)
(** * The columns of a native trace row (crates/zksm83-jolt/src/{isa,isa_lookup,rom_lookup,state,trace,trace/mode,trace/device,cpu}.rs)

    One row of the reference schema holds the state before and after a transition, the selectors of its mode,
    the output row of the instruction table, five slots of the bus and the witnesses of the arithmetic. The
    columns are numbered by constants, here integers with the names of the code. *)
From S2P Require Import Prelude Bus.

(** ** The instruction table *)

Definition ISA_TABLE_ROW_COUNT : Z := 512.
Definition ISA_OUTPUT_COUNT : Z := 38.
Definition ISA_PADDING_ADDRESS : Z := 0x00d3.
Definition ISA_VALID : Z := 0.
Definition ISA_PACKED_LOW : Z := 1.
Definition ISA_PACKED_HIGH : Z := 2.
Definition ISA_WRITE_BITS_START : Z := 11.
Definition ISA_OPCODE_FETCHES : Z := 5.
Definition ISA_IMMEDIATE_READS : Z := 6.
Definition ISA_DATA_READS : Z := 7.
Definition ISA_DATA_WRITES : Z := 8.
Definition ISA_BASE_M_CYCLES : Z := 3.
Definition ISA_TAKEN_M_CYCLES : Z := 4.
Definition ISA_TAKEN_DATA_READS : Z := 9.
Definition ISA_TAKEN_DATA_WRITES : Z := 10.
Definition ISA_TAKEN_TIMING : Z := 24.
Definition ISA_OPERATION_BITS_START : Z := 25.
Definition ISA_ARGUMENT_ZERO_BITS_START : Z := 31.
Definition ISA_ARGUMENT_ONE_BITS_START : Z := 34.
Definition REGISTER_WRITE_BITS : Z := 13.
Definition OPERATION_BITS : Z := 6.
Definition ARGUMENT_ZERO_BITS : Z := 3.
Definition ARGUMENT_ONE_BITS : Z := 4.
Definition ISA_ADDRESS_BIT_COUNT : Z := 9.
Definition ROM_ADDRESS_BIT_COUNT : Z := 20.

(** ** The scalars of a state *)

Definition STATE_SCALAR_COUNT : Z := 38.
Definition STATE_CPU_M_CYCLES_INDEX : Z := 12.
Definition STATE_INPUT_NEXT_INDEX : Z := 16.
Definition STATE_OUTPUT_NEXT_INDEX : Z := 17.
Definition STATE_BUS_NEXT_INDEX : Z := 18.
Definition STATE_ISA_NEXT_INDEX : Z := 19.
Definition STATE_MACHINE_PROFILE_INDEX : Z := 20.
Definition STATE_INTERRUPT_REQUEST_INDEX : Z := 21.
Definition STATE_INTERRUPT_ENABLE_INDEX : Z := 22.
Definition STATE_DMG_LOW_REGISTER_PACK_INDEX : Z := 23.
Definition STATE_DMG_HIGH_REGISTER_PACK_INDEX : Z := 24.
Definition STATE_PPU_LINE_INDEX : Z := 25.
Definition STATE_PPU_DOT_INDEX : Z := 26.
Definition STATE_TIMER_DIV_INDEX : Z := 27.
Definition STATE_TIMER_COUNTER_INDEX : Z := 28.
Definition STATE_TIMER_RELOAD_PHASE_INDEX : Z := 29.
Definition STATE_TIMER_EDGE_LATCH_INDEX : Z := 30.
Definition STATE_APU_CONTROL_LOW_PACK_INDEX : Z := 31.
Definition STATE_APU_CONTROL_HIGH_PACK_INDEX : Z := 32.
Definition STATE_APU_MIXER_PACK_INDEX : Z := 33.
Definition STATE_APU_WAVE_LOW_PACK_INDEX : Z := 34.
Definition STATE_APU_WAVE_HIGH_PACK_INDEX : Z := 35.
Definition STATE_JOYPAD_PACK_INDEX : Z := 36.
Definition STATE_DMA_PACK_INDEX : Z := 37.

(** ** The modes of a row *)

Module Mode.
Inductive TraceMode :=
| Instruction
| HaltIdle
| HaltUntilVBlank
| HaltWake
| Interrupt
| DmaByte
| HaltUntilSerial
| HaltUntilTimer
| Padding.

Definition COUNT : Z := 9.

Definition for_step (kind : StepKind) : TraceMode :=
  match kind with
  | SK.Instruction => Instruction
  | SK.HaltIdle => HaltIdle
  | SK.HaltUntilVBlank => HaltUntilVBlank
  | SK.HaltUntilSerial => HaltUntilSerial
  | SK.HaltUntilTimer => HaltUntilTimer
  | SK.HaltWake => HaltWake
  | SK.InterruptDispatch _ => Interrupt
  | SK.DmaByte => DmaByte
  end.

Definition index (mode : TraceMode) : Z :=
  match mode with
  | Instruction => 0
  | HaltIdle => 1
  | HaltUntilVBlank => 2
  | HaltWake => 3
  | Interrupt => 4
  | DmaByte => 5
  | HaltUntilSerial => 6
  | HaltUntilTimer => 7
  | Padding => 8
  end.
End Mode.
Abbreviation TraceMode := Mode.TraceMode.

(** ** The columns *)

Definition TRACE_BEFORE_STATE_START : Z := 0.
Definition TRACE_AFTER_STATE_START : Z := TRACE_BEFORE_STATE_START + STATE_SCALAR_COUNT.
Definition TRACE_ACTIVE : Z := TRACE_AFTER_STATE_START + STATE_SCALAR_COUNT.
Definition TRACE_MODE_START : Z := TRACE_ACTIVE + 1.
Definition TRACE_MODE_COUNT : Z := Mode.COUNT.
Definition TRACE_INTERRUPT_START : Z := TRACE_MODE_START + TRACE_MODE_COUNT.
Definition TRACE_INTERRUPT_COUNT : Z := 5.
Definition TRACE_CYCLE_INCREMENT : Z := TRACE_INTERRUPT_START + TRACE_INTERRUPT_COUNT.
Definition TRACE_BRANCH_TAKEN : Z := TRACE_CYCLE_INCREMENT + 1.
Definition TRACE_ISA_ADDRESS_START : Z := TRACE_BRANCH_TAKEN + 1.
Definition TRACE_ISA_OUTPUT_START : Z := TRACE_ISA_ADDRESS_START + ISA_ADDRESS_BIT_COUNT.
Definition TRACE_BUS_START : Z := TRACE_ISA_OUTPUT_START + ISA_OUTPUT_COUNT.
Definition TRACE_BUS_SLOTS : Z := 5.
Definition TRACE_BUS_KIND_BITS : Z := 5.
Definition TRACE_BUS_TUPLE_FIELDS : Z := 6.
Definition TRACE_BUS_SLOT_WIDTH : Z := 1 + TRACE_BUS_KIND_BITS + TRACE_BUS_TUPLE_FIELDS.
Definition TRACE_BEFORE_CPU_BYTE_BITS_START : Z := TRACE_BUS_START + TRACE_BUS_SLOTS * TRACE_BUS_SLOT_WIDTH.
Definition TRACE_AFTER_CPU_BYTE_BITS_START : Z := TRACE_BEFORE_CPU_BYTE_BITS_START + 8 * 8.
Definition TRACE_BEFORE_PC_BITS_START : Z := TRACE_AFTER_CPU_BYTE_BITS_START + 8 * 8.
Definition TRACE_AFTER_PC_BITS_START : Z := TRACE_BEFORE_PC_BITS_START + 16.
Definition TRACE_BEFORE_SP_BITS_START : Z := TRACE_AFTER_PC_BITS_START + 16.
Definition TRACE_AFTER_SP_BITS_START : Z := TRACE_BEFORE_SP_BITS_START + 16.
Definition TRACE_OPERAND_VALUE : Z := TRACE_AFTER_SP_BITS_START + 16.
Definition TRACE_RESULT_VALUE : Z := TRACE_OPERAND_VALUE + 1.
Definition TRACE_OPERAND_BITS_START : Z := TRACE_RESULT_VALUE + 1.
Definition TRACE_RESULT_BITS_START : Z := TRACE_OPERAND_BITS_START + 8.
Definition TRACE_ARITHMETIC_CARRY : Z := TRACE_RESULT_BITS_START + 8.
Definition TRACE_ARITHMETIC_HALF_CARRY : Z := TRACE_ARITHMETIC_CARRY + 1.
Definition TRACE_RESULT_ZERO : Z := TRACE_ARITHMETIC_HALF_CARRY + 1.
Definition TRACE_RESULT_ZERO_PRODUCTS_START : Z := TRACE_RESULT_ZERO + 1.
Definition TRACE_RESULT_ZERO_PRODUCT_COUNT : Z := 6.
Definition TRACE_IMMEDIATE_LOW : Z := TRACE_RESULT_ZERO_PRODUCTS_START + TRACE_RESULT_ZERO_PRODUCT_COUNT.
Definition TRACE_IMMEDIATE_HIGH : Z := TRACE_IMMEDIATE_LOW + 1.
Definition TRACE_IMMEDIATE_LOW_BITS_START : Z := TRACE_IMMEDIATE_HIGH + 1.
Definition TRACE_IMMEDIATE_HIGH_BITS_START : Z := TRACE_IMMEDIATE_LOW_BITS_START + 8.
Definition TRACE_SEQUENTIAL_PC : Z := TRACE_IMMEDIATE_HIGH_BITS_START + 8.
Definition TRACE_SEQUENTIAL_PC_BITS_START : Z := TRACE_SEQUENTIAL_PC + 1.
Definition TRACE_PC_WRAP : Z := TRACE_SEQUENTIAL_PC_BITS_START + 16.
Definition TRACE_HALT_BUG : Z := TRACE_PC_WRAP + 1.
Definition TRACE_CONTROL_UNDERFLOW : Z := TRACE_HALT_BUG + 1.
Definition TRACE_CONTROL_OVERFLOW : Z := TRACE_CONTROL_UNDERFLOW + 1.
Definition TRACE_WORD_WRAP : Z := TRACE_CONTROL_OVERFLOW + 1.
Definition TRACE_WORD_CARRY : Z := TRACE_WORD_WRAP + 1.
Definition TRACE_WORD_HALF_CARRY : Z := TRACE_WORD_CARRY + 1.
Definition TRACE_SIGNED_SP_UNDERFLOW : Z := TRACE_WORD_HALF_CARRY + 1.
Definition TRACE_SIGNED_SP_OVERFLOW : Z := TRACE_SIGNED_SP_UNDERFLOW + 1.
Definition TRACE_STACK_WRAP : Z := TRACE_SIGNED_SP_OVERFLOW + 1.
Definition TRACE_STACK_FIRST_WRAP : Z := TRACE_STACK_WRAP + 1.
Definition TRACE_POP_FLAGS_LOW_NIBBLE : Z := TRACE_STACK_FIRST_WRAP + 1.
Definition TRACE_POP_FLAGS_LOW_NIBBLE_BITS_START : Z := TRACE_POP_FLAGS_LOW_NIBBLE + 1.
Definition TRACE_DAA_LOW_GT_NINE : Z := TRACE_POP_FLAGS_LOW_NIBBLE_BITS_START + 4.
Definition TRACE_DAA_HIGH_GT_NINE : Z := TRACE_DAA_LOW_GT_NINE + 1.
Definition TRACE_DAA_HIGH_EQUALS_NINE : Z := TRACE_DAA_HIGH_GT_NINE + 1.
Definition TRACE_DAA_ACC_GT_99 : Z := TRACE_DAA_HIGH_EQUALS_NINE + 1.
Definition TRACE_DAA_LOW_ADJUST : Z := TRACE_DAA_ACC_GT_99 + 1.
Definition TRACE_DAA_HIGH_ADJUST : Z := TRACE_DAA_LOW_ADJUST + 1.
Definition TRACE_DAA_WRAP : Z := TRACE_DAA_HIGH_ADJUST + 1.
Definition TRACE_ADDRESS_WRAP : Z := TRACE_DAA_WRAP + 1.
Definition TRACE_FETCH_ONE_WRAP : Z := TRACE_ADDRESS_WRAP + 1.
Definition TRACE_FETCH_TWO_WRAP : Z := TRACE_FETCH_ONE_WRAP + 1.
Definition TRACE_BUS_ADDRESS_BITS_START : Z := TRACE_FETCH_TWO_WRAP + 1.
Definition TRACE_BUS_PHYSICAL_BITS_START : Z := TRACE_BUS_ADDRESS_BITS_START + TRACE_BUS_SLOTS * 16.
Definition TRACE_BUS_VALUE_BITS_START : Z := TRACE_BUS_PHYSICAL_BITS_START + TRACE_BUS_SLOTS * ROM_ADDRESS_BIT_COUNT.
Definition TRACE_BUS_BEFORE_BITS_START : Z := TRACE_BUS_VALUE_BITS_START + TRACE_BUS_SLOTS * 8.
Definition TRACE_BEFORE_ROM_BANK_BITS_START : Z := TRACE_BUS_BEFORE_BITS_START + TRACE_BUS_SLOTS * 8.
Definition TRACE_AFTER_ROM_BANK_BITS_START : Z := TRACE_BEFORE_ROM_BANK_BITS_START + 6.
Definition TRACE_BEFORE_RAM_RTC_BITS_START : Z := TRACE_AFTER_ROM_BANK_BITS_START + 6.
Definition TRACE_AFTER_RAM_RTC_BITS_START : Z := TRACE_BEFORE_RAM_RTC_BITS_START + 4.
Definition TRACE_ROM_SELECTOR_START : Z := TRACE_AFTER_RAM_RTC_BITS_START + 4.
Definition TRACE_ROM_VALUE_START : Z := TRACE_ROM_SELECTOR_START + TRACE_BUS_SLOTS.
Definition TRACE_ROW_BITS_START : Z := TRACE_ROM_VALUE_START + TRACE_BUS_SLOTS.
Definition TRACE_ROW_BIT_COUNT : Z := 14.
Definition TRACE_MEMORY_START : Z := TRACE_ROW_BITS_START + TRACE_ROW_BIT_COUNT.
Definition TRACE_MEMORY_SLOT_WIDTH : Z := 38.
Definition TRACE_MEMORY_SELECTOR_OFFSET : Z := 0.
Definition TRACE_MEMORY_WRITE_SELECTOR_OFFSET : Z := 1.
Definition TRACE_MEMORY_BEFORE_OFFSET : Z := 2.
Definition TRACE_MEMORY_AFTER_OFFSET : Z := 3.
Definition TRACE_MEMORY_PREDECESSOR_BITS_OFFSET : Z := 4.
Definition TRACE_MEMORY_DELTA_BITS_OFFSET : Z := 21.
Definition TRACE_MEMORY_TIMESTAMP_BITS : Z := 17.

(** The columns of the devices. *)

Definition INTERRUPT_BITS : Z := 5.
Definition TRACE_BEFORE_INTERRUPT_REQUEST_BITS_START : Z := TRACE_MEMORY_START + TRACE_BUS_SLOTS * TRACE_MEMORY_SLOT_WIDTH.
Definition TRACE_BEFORE_INTERRUPT_ENABLE_BITS_START : Z := TRACE_BEFORE_INTERRUPT_REQUEST_BITS_START + INTERRUPT_BITS.
Definition TRACE_AFTER_INTERRUPT_REQUEST_BITS_START : Z := TRACE_BEFORE_INTERRUPT_ENABLE_BITS_START + INTERRUPT_BITS.
Definition TRACE_AFTER_INTERRUPT_ENABLE_BITS_START : Z := TRACE_AFTER_INTERRUPT_REQUEST_BITS_START + INTERRUPT_BITS.
Definition TRACE_PENDING_INTERRUPT : Z := TRACE_AFTER_INTERRUPT_ENABLE_BITS_START + INTERRUPT_BITS.
Definition TRACE_BEFORE_DMA_BITS_START : Z := TRACE_PENDING_INTERRUPT + 1.
Definition TRACE_AFTER_DMA_BITS_START : Z := TRACE_BEFORE_DMA_BITS_START + 32.
Definition TRACE_BEFORE_JOYPAD_BITS_START : Z := TRACE_AFTER_DMA_BITS_START + 32.
Definition TRACE_JOYPAD_STAGE_BITS_START : Z := TRACE_BEFORE_JOYPAD_BITS_START + 10.
Definition TRACE_JOYPAD_STAGE_WIDTH : Z := 10.
Definition TRACE_JOYPAD_WRITE_START : Z := TRACE_JOYPAD_STAGE_BITS_START + TRACE_BUS_SLOTS * TRACE_JOYPAD_STAGE_WIDTH.
Definition TRACE_JOYPAD_FALL_NONE_START : Z := TRACE_JOYPAD_WRITE_START + TRACE_BUS_SLOTS.
Definition TRACE_JOYPAD_IF_BIT_START : Z := TRACE_JOYPAD_FALL_NONE_START + TRACE_BUS_SLOTS * 2.
Definition TRACE_BEFORE_DMG_LOW_BITS_START : Z := TRACE_JOYPAD_IF_BIT_START + TRACE_BUS_SLOTS.
Definition TRACE_BEFORE_DMG_HIGH_BITS_START : Z := TRACE_BEFORE_DMG_LOW_BITS_START + 64.
Definition TRACE_BEFORE_TIMER_DIV_BITS_START : Z := TRACE_BEFORE_DMG_HIGH_BITS_START + 64.
Definition TRACE_BEFORE_TIMER_COUNTER_BITS_START : Z := TRACE_BEFORE_TIMER_DIV_BITS_START + 16.
Definition TRACE_BEFORE_TIMER_PHASE_BITS_START : Z := TRACE_BEFORE_TIMER_COUNTER_BITS_START + 8.
Definition TRACE_TIMER_PHASE_FIVE : Z := TRACE_BEFORE_TIMER_PHASE_BITS_START + 3.
Definition TRACE_BEFORE_PPU_LINE_BITS_START : Z := TRACE_TIMER_PHASE_FIVE + 1.
Definition TRACE_BEFORE_PPU_DOT_BITS_START : Z := TRACE_BEFORE_PPU_LINE_BITS_START + 8.
Definition TRACE_PPU_VBLANK : Z := TRACE_BEFORE_PPU_DOT_BITS_START + 9.
Definition TRACE_PPU_DOT_LT_80 : Z := TRACE_PPU_VBLANK + 1.
Definition TRACE_PPU_DOT_LT_252 : Z := TRACE_PPU_DOT_LT_80 + 1.
Definition TRACE_PPU_MODE_BITS_START : Z := TRACE_PPU_DOT_LT_252 + 1.
Definition TRACE_PPU_COINCIDENCE : Z := TRACE_PPU_MODE_BITS_START + 2.
Definition TRACE_BEFORE_APU_CONTROL_LOW_BITS_START : Z := TRACE_PPU_COINCIDENCE + 1.
Definition TRACE_BEFORE_APU_CONTROL_HIGH_BITS_START : Z := TRACE_BEFORE_APU_CONTROL_LOW_BITS_START + 64.
Definition TRACE_BEFORE_APU_MIXER_BITS_START : Z := TRACE_BEFORE_APU_CONTROL_HIGH_BITS_START + 64.
Definition TRACE_BEFORE_APU_WAVE_LOW_BITS_START : Z := TRACE_BEFORE_APU_MIXER_BITS_START + 64.
Definition TRACE_BEFORE_APU_WAVE_HIGH_BITS_START : Z := TRACE_BEFORE_APU_WAVE_LOW_BITS_START + 64.
Definition TRACE_AFTER_DMG_LOW_BITS_START : Z := TRACE_BEFORE_APU_WAVE_HIGH_BITS_START + 64.
Definition TRACE_AFTER_DMG_HIGH_BITS_START : Z := TRACE_AFTER_DMG_LOW_BITS_START + 64.
Definition TRACE_AFTER_APU_CONTROL_LOW_BITS_START : Z := TRACE_AFTER_DMG_HIGH_BITS_START + 64.
Definition TRACE_AFTER_APU_CONTROL_HIGH_BITS_START : Z := TRACE_AFTER_APU_CONTROL_LOW_BITS_START + 64.
Definition TRACE_AFTER_APU_MIXER_BITS_START : Z := TRACE_AFTER_APU_CONTROL_HIGH_BITS_START + 64.
Definition TRACE_AFTER_APU_WAVE_LOW_BITS_START : Z := TRACE_AFTER_APU_MIXER_BITS_START + 64.
Definition TRACE_AFTER_APU_WAVE_HIGH_BITS_START : Z := TRACE_AFTER_APU_WAVE_LOW_BITS_START + 64.
Definition TRACE_APU_POWER_OFF : Z := TRACE_AFTER_APU_WAVE_HIGH_BITS_START + 64.
Definition TRACE_APU_POWER_ON : Z := TRACE_APU_POWER_OFF + 1.
Definition TRACE_APU_AFTER_DAC_ENABLED_START : Z := TRACE_APU_POWER_ON + 1.
Definition TRACE_APU_DAC_WRITE_START : Z := TRACE_APU_AFTER_DAC_ENABLED_START + 4.
Definition TRACE_APU_WRITTEN_DAC_ENABLED_START : Z := TRACE_APU_DAC_WRITE_START + 4.
Definition TRACE_APU_TRIGGER_START : Z := TRACE_APU_WRITTEN_DAC_ENABLED_START + 4.
Definition TRACE_SERIAL_POST_DATA_BITS_START : Z := TRACE_APU_TRIGGER_START + 4.
Definition TRACE_SERIAL_POST_CONTROL_BITS_START : Z := TRACE_SERIAL_POST_DATA_BITS_START + 8.
Definition TRACE_SERIAL_POST_COUNTDOWN_BITS_START : Z := TRACE_SERIAL_POST_CONTROL_BITS_START + 8.
Definition TRACE_SERIAL_POST_ACTIVE : Z := TRACE_SERIAL_POST_COUNTDOWN_BITS_START + 13.
Definition TRACE_SERIAL_AFTER_ZERO : Z := TRACE_SERIAL_POST_ACTIVE + 1.
Definition TRACE_SERIAL_COMPLETED : Z := TRACE_SERIAL_AFTER_ZERO + 1.
Definition TRACE_TIMER_M_CYCLE_ACTIVE_START : Z := TRACE_SERIAL_COMPLETED + 1.
Definition TRACE_TIMER_AFTER_FF05_BITS_START : Z := TRACE_TIMER_M_CYCLE_ACTIVE_START + 6.
Definition TRACE_TIMER_POST_STATE_START : Z := TRACE_TIMER_AFTER_FF05_BITS_START + 8.
Definition TRACE_TIMER_STAGE_START : Z := TRACE_TIMER_POST_STATE_START + 29.
Definition TRACE_TIMER_STAGE_WIDTH : Z := 41.
Definition TRACE_TIMER_LONG_QUOTIENT_BITS_START : Z := TRACE_TIMER_STAGE_START + 24 * TRACE_TIMER_STAGE_WIDTH.
Definition TRACE_AFTER_PPU_LINE_BITS_START : Z := TRACE_TIMER_LONG_QUOTIENT_BITS_START + 5.
Definition TRACE_AFTER_PPU_DOT_BITS_START : Z := TRACE_AFTER_PPU_LINE_BITS_START + 8.
Definition TRACE_PPU_FRAME_QUOTIENT_BITS_START : Z := TRACE_AFTER_PPU_DOT_BITS_START + 9.
Definition TRACE_PPU_LCD_DISABLE : Z := TRACE_PPU_FRAME_QUOTIENT_BITS_START + 5.
Definition TRACE_PPU_VBLANK_EVENT : Z := TRACE_PPU_LCD_DISABLE + 1.
Definition TRACE_PPU_VBLANK_GAP_BITS_START : Z := TRACE_PPU_VBLANK_EVENT + 1.
Definition TRACE_PPU_POST_LINE_BITS_START : Z := TRACE_PPU_VBLANK_GAP_BITS_START + 21.
Definition TRACE_PPU_POST_DOT_BITS_START : Z := TRACE_PPU_POST_LINE_BITS_START + 8.
Definition TRACE_PPU_POST_VBLANK : Z := TRACE_PPU_POST_DOT_BITS_START + 9.
Definition TRACE_PPU_POST_DOT_LT_80 : Z := TRACE_PPU_POST_VBLANK + 1.
Definition TRACE_PPU_POST_DOT_LT_252 : Z := TRACE_PPU_POST_DOT_LT_80 + 1.
Definition TRACE_PPU_POST_COINCIDENCE : Z := TRACE_PPU_POST_DOT_LT_252 + 1.
Definition TRACE_PPU_AFTER_VBLANK : Z := TRACE_PPU_POST_COINCIDENCE + 1.
Definition TRACE_PPU_AFTER_DOT_LT_80 : Z := TRACE_PPU_AFTER_VBLANK + 1.
Definition TRACE_PPU_AFTER_DOT_LT_252 : Z := TRACE_PPU_AFTER_DOT_LT_80 + 1.
Definition TRACE_PPU_AFTER_COINCIDENCE : Z := TRACE_PPU_AFTER_DOT_LT_252 + 1.
Definition TRACE_PPU_STAT_BEFORE : Z := TRACE_PPU_AFTER_COINCIDENCE + 1.
Definition TRACE_PPU_STAT_POST_WRITE : Z := TRACE_PPU_STAT_BEFORE + 1.
Definition TRACE_PPU_STAT_AFTER : Z := TRACE_PPU_STAT_POST_WRITE + 1.
Definition TRACE_PPU_STAT_RELEVANT_WRITE : Z := TRACE_PPU_STAT_AFTER + 1.
Definition TRACE_PPU_STAT_BOUNDARY_CROSSED : Z := TRACE_PPU_STAT_RELEVANT_WRITE + 1.
Definition TRACE_PPU_STAT_EVENT : Z := TRACE_PPU_STAT_BOUNDARY_CROSSED + 1.
Definition TRACE_PPU_STAT_GAP_BITS_START : Z := TRACE_PPU_STAT_EVENT + 1.
Definition TRACE_BEFORE_DMA_REMAINING_BITS_START : Z := TRACE_PPU_STAT_GAP_BITS_START + 9.
Definition TRACE_AFTER_DMA_REMAINING_BITS_START : Z := TRACE_BEFORE_DMA_REMAINING_BITS_START + 8.
Definition TRACE_CPU_OAM_ACCESS_START : Z := TRACE_AFTER_DMA_REMAINING_BITS_START + 8.
Definition TRACE_SERIAL_COMPLETION_GAP_BITS_START : Z := TRACE_CPU_OAM_ACCESS_START + TRACE_BUS_SLOTS.
Definition TRACE_TIMER_INTERRUPT_GAP_BITS_START : Z := TRACE_SERIAL_COMPLETION_GAP_BITS_START + 5.
Definition TRACE_DEVICE_COLUMN_END : Z := TRACE_TIMER_INTERRUPT_GAP_BITS_START + 2.
Definition NATIVE_TRACE_COLUMN_COUNT : Z := TRACE_DEVICE_COLUMN_END.

(** ** The constants of the row relation *)

Definition CPU_STRUCTURAL_CONSTRAINT_COUNT : Z := 6144.
Definition CPU_STRUCTURAL_USED_CONSTRAINT_COUNT : Z := 5259.
Definition CPU_STRUCTURAL_MAX_DEGREE : Z := 18.
Definition PADDING_MODE : Z := Mode.index Mode.Padding.
Definition INTERRUPT_MODE : Z := Mode.index Mode.Interrupt.
Definition INSTRUCTION_MODE : Z := Mode.index Mode.Instruction.
Definition HALT_IDLE_MODE : Z := Mode.index Mode.HaltIdle.
Definition HALT_UNTIL_VBLANK_MODE : Z := Mode.index Mode.HaltUntilVBlank.
Definition HALT_UNTIL_SERIAL_MODE : Z := Mode.index Mode.HaltUntilSerial.
Definition HALT_UNTIL_TIMER_MODE : Z := Mode.index Mode.HaltUntilTimer.
Definition HALT_WAKE_MODE : Z := Mode.index Mode.HaltWake.
Definition DMA_BYTE_MODE : Z := Mode.index Mode.DmaByte.
Definition STATE_FLAGS : Z := 7.
Definition STATE_PC : Z := 8.
Definition STATE_SP : Z := 9.
Definition STATE_IME : Z := 10.
Definition STATE_RUN_STATE : Z := 11.
Definition STATE_CYCLES : Z := 12.
Definition STATE_MBC3_RAM_ENABLED : Z := 13.
Definition STATE_MBC3_ROM_BANK : Z := 14.
Definition STATE_MBC3_RAM_RTC_SELECT : Z := 15.
Definition STATE_PROFILE : Z := 20.
Definition PROFILE_DMG_MBC3_ROM_256KIB_NO_RTC : Z := 2.
Definition PROFILE_DMG_MBC3_ROM_256KIB_RTC : Z := 3.
Definition PROFILE_DMG_MBC3_ROM_1MIB_RTC : Z := 4.
Definition PROFILE_CODE_COUNT : Z := 5.
Definition BUS_ADDRESS_OFFSET : Z := 1 + TRACE_BUS_KIND_BITS.
Definition BUS_PHYSICAL_ADDRESS_OFFSET : Z := BUS_ADDRESS_OFFSET + 1.
Definition BUS_BEFORE_OFFSET : Z := BUS_ADDRESS_OFFSET + 2.
Definition BUS_AUXILIARY_OFFSET : Z := BUS_ADDRESS_OFFSET + 3.
Definition BUS_VALUE_OFFSET : Z := BUS_ADDRESS_OFFSET + 4.
Definition BUS_INDEX_OFFSET : Z := BUS_ADDRESS_OFFSET + 5.
Definition BUS_TUPLE_FIELDS : Z := 6.
