(* ===== verification/CpuRow.v ===== *)
(** * Rows and constraints of the CPU relation (crates/zksm83-jolt/src/{cpu,cpu/selectors}.rs)

    A constraint is a value computed from a row that has to be zero. [RowView] answers for the columns of a
    row; a function of the code that pushes constraints is here the list of the values it pushes, in order,
    and [ConstraintSink] writes such a list to the output buffer. A row has [NATIVE_TRACE_COLUMN_COUNT]
    columns and every column that is read has a constant number below it, so that reading does not fail;
    [option] is the missing inverse of [profile_code_selector]. The selector caches of [RowView] are modelled
    on their own, with the proof that what they answer is the selector itself. *)
From S2P Require Import Prelude Field Columns.

(** The view of a row: the value of each column. *)
Class RowView (F : Type) := value : Z → F.

Abbreviation lit n := (from_u64 n).
Definition for_each {A B} (l : list A) (f : A → list B) : list B := flat_map f l.
Abbreviation range := (seqZ 0).

(** ** The sink *)

Record ConstraintSink (F : Type) := MkSink { constraints : list F; cursor : nat }.
Arguments MkSink {F} constraints cursor.
Arguments constraints {F} c.
Arguments cursor {F} c.

(** [None] is the error [Shape]. *)
Definition push {F} (value : F) (sink : ConstraintSink F) : option (ConstraintSink F) :=
  if (cursor sink <? length (constraints sink))%nat
  then Some (MkSink (<[cursor sink := value]> (constraints sink)) (S (cursor sink)))
  else None.
Fixpoint push_all {F} (values : list F) (sink : ConstraintSink F) : option (ConstraintSink F) :=
  match values with
  | [] => Some sink
  | value :: values => sink ← push value sink; push_all values sink
  end.
Definition finish {F} `{!FieldOps F} (sink : ConstraintSink F) : option (list F * nat) :=
  let used := cursor sink in
  if (used <=? length (constraints sink))%nat
  then Some (take used (constraints sink) ++ replicate (length (constraints sink) - used) f0, used)
  else None.

Section row.
Context {F : Type} `{!FieldOps F, !RowView F}.
Local Open Scope field_scope.

Definition before (index : Z) : F := value (TRACE_BEFORE_STATE_START + index).
Definition after (index : Z) : F := value (TRACE_AFTER_STATE_START + index).
Definition mode (index : Z) : F := value (TRACE_MODE_START + index).
Definition isa (index : Z) : F := value (TRACE_ISA_OUTPUT_START + index).
Definition values (start count : Z) : list F := map value (seqZ start count).
Definition isa_values (start count : Z) : list F := values (TRACE_ISA_OUTPUT_START + start) count.

(** ** Polynomials of a few columns *)

Definition packed_bits (start width : Z) : F :=
  (foldl (λ '(packed, power) bit, (packed + power * value (start + bit), power + power)) (f0, f1) (range width)).1.
Definition boolean (value : F) : F := value * (value - f1).
Definition enum_range (value : F) (count : Z) : F :=
  foldl (λ product admitted, product * (value - lit admitted)) f1 (range count).
Definition zero_from_bits (start width : Z) : F :=
  foldl (λ product bit, product * (f1 - value (start + bit))) f1 (range width).
Definition sum (l : list F) : F := foldl fadd f0 l.

Definition constrain_bit_range (start count : Z) : list F := map (λ index, boolean (value index)) (seqZ start count).

(** The Lagrange polynomial of a profile code; [None] is [NonInvertibleInterpolation]. *)
Definition profile_code_selector (profile : F) (code : Z) : option F :=
  let code_field := lit code in
  let '(numerator, denominator) :=
    foldl (λ '(numerator, denominator) admitted,
      if admitted =? code then (numerator, denominator)
      else (numerator * (profile - lit admitted), denominator * (code_field - lit admitted)))
      (f1, f1) (range PROFILE_CODE_COUNT) in
  inverse ← inverse denominator;
  Some (numerator * inverse).
Definition profile_256kib_selector (profile : F) : option F :=
  no_rtc ← profile_code_selector profile PROFILE_DMG_MBC3_ROM_256KIB_NO_RTC;
  rtc ← profile_code_selector profile PROFILE_DMG_MBC3_ROM_256KIB_RTC;
  Some (no_rtc + rtc).
Definition profile_rtc_selector (profile : F) : option F :=
  small ← profile_code_selector profile PROFILE_DMG_MBC3_ROM_256KIB_RTC;
  large ← profile_code_selector profile PROFILE_DMG_MBC3_ROM_1MIB_RTC;
  Some (small + large).

Definition bus_slot_start (slot : Z) : Z := TRACE_BUS_START + slot * TRACE_BUS_SLOT_WIDTH.
Definition bus_field (slot offset : Z) : F := value (bus_slot_start slot + offset).
Definition bus_kind_bits (slot : Z) : list F := values (bus_slot_start slot + 1) TRACE_BUS_KIND_BITS.

(** ** Selectors *)

(** [bit_selector] is its guard and the product; [None] is the error [Shape]. *)
Definition selector_product (bits : list F) (code : Z) : F :=
  foldl (λ selector '(bit, value),
    if Z.land (Z.shiftr code bit) 1 =? 1 then selector * value else selector * (f1 - value))
    f1 (zip (range (Z.of_nat (length bits))) bits).
Definition bit_selector (bits : list F) (code : Z) : option F :=
  if (length bits =? 0)%nat || (8 <? length bits)%nat then None else Some (selector_product bits code).

(** The bits of the selectors below are three to six columns, which pass the guard. *)
Definition operation_selector (code : Z) : F := selector_product (isa_values ISA_OPERATION_BITS_START 6) code.
Definition argument_selector (start width code : Z) : F := selector_product (isa_values start width) code.
Definition bus_kind_selector (slot code : Z) : F := selector_product (bus_kind_bits slot) code.
Definition bus_category (codes : list Z) : F :=
  sum (for_each (range TRACE_BUS_SLOTS) (λ slot, map (bus_kind_selector slot) codes)).

(** The table of all selectors of the low byte of a slot's address, which doubles once per bit. *)
Definition low_address_selectors (slot : Z) : list F :=
  let start := (TRACE_BUS_ADDRESS_BITS_START + slot * 16)%Z in
  foldl (λ selectors bit,
    let actual := value (start + bit) in
    map (λ base, base * (f1 - actual)) selectors ++ map (λ base, base * actual) selectors) [f1] (range 8).
Definition low_address_selector (slot expected : Z) : F :=
  default f0 (low_address_selectors slot !! Z.to_nat expected).

Definition before_flag_bit (bit : Z) : F := value (TRACE_BEFORE_CPU_BYTE_BITS_START + STATE_FLAGS * 8 + bit).
End row.

(** ** The selector caches *)

(** A family of the cache: one entry per code. [select] is the code's [select] on an entry that exists. *)
Definition cache F := list (option F).
Definition cache_new {F} (count : nat) : cache F := replicate count None.
Definition cache_select {F} (direct : Z → F) (code : Z) (c : cache F) : F * cache F :=
  match c !! Z.to_nat code with
  | None => (direct code, c)
  | Some (Some selector) => (selector, c)
  | Some None => let selector := direct code in (selector, <[Z.to_nat code := Some selector]> c)
  end.
Fixpoint cache_select_all {F} (direct : Z → F) (codes : list Z) (c : cache F) : list F * cache F :=
  match codes with
  | [] => ([], c)
  | code :: codes =>
      let '(selector, c) := cache_select direct code c in
      let '(selectors, c) := cache_select_all direct codes c in (selector :: selectors, c)
  end.

Definition cache_agrees {F} (direct : Z → F) (c : cache F) : Prop :=
  ∀ code selector, 0 <= code → c !! Z.to_nat code = Some (Some selector) → selector = direct code.
Lemma cache_new_agrees {F} (direct : Z → F) count : cache_agrees direct (cache_new count).
Proof. intros code selector _ [E _]%lookup_replicate. done. Qed.
Lemma cache_select_direct {F} (direct : Z → F) code c : 0 <= code → cache_agrees direct c →
  (cache_select direct code c).1 = direct code ∧ cache_agrees direct (cache_select direct code c).2.
Proof.
  intros Hc Ha. unfold cache_select. destruct (c !! Z.to_nat code) as [[selector |] |] eqn:E; cbn; [| | done].
  - split; [by apply Ha | done].
  - split; [done |]. intros code' selector' Hc' E'. apply list_lookup_insert_Some in E' as [(Hi & Hs & _) | [_ E']].
    + injection Hs as <-. f_equal. lia.
    + by apply (Ha code').
Qed.

(** ** What the sink writes *)

Lemma push_all_spec {F} (vs : list F) : ∀ sink, (cursor sink <= length (constraints sink))%nat →
  push_all vs sink =
    if (cursor sink + length vs <=? length (constraints sink))%nat
    then Some (MkSink (take (cursor sink) (constraints sink) ++ vs ++ drop (cursor sink + length vs) (constraints sink))
                 (cursor sink + length vs))
    else None.
Proof.
  induction vs as [| v vs IH]; intros [cs k] Hk; cbn [push_all cursor constraints length app] in *.
  - rewrite Nat.add_0_r, take_drop, (proj2 (Nat.leb_le k (length cs))) by lia. done.
  - unfold push. cbn [cursor constraints]. destruct (Nat.ltb_spec k (length cs)) as [Hlt | Hge].
    + cbn [mbind option_bind]. rewrite IH by (cbn; rewrite length_insert; lia). cbn [cursor constraints]. rewrite length_insert.
      replace (S k + length vs)%nat with (k + S (length vs))%nat by lia. destruct (_ <=? _)%nat; [| done]. f_equal. f_equal.
      rewrite insert_take_drop by done.
      replace (take k cs ++ v :: drop (S k) cs) with ((take k cs ++ [v]) ++ drop (S k) cs) by (by rewrite <- app_assoc).
      assert (Hl : length (take k cs ++ [v]) = S k) by (rewrite length_app, length_take; cbn; lia).
      rewrite take_app_length' by done. rewrite <- app_assoc. cbn [app]. do 3 f_equal.
      replace (k + S (length vs))%nat with (length (take k cs ++ [v]) + length vs)%nat by lia.
      rewrite drop_app_add, drop_drop. f_equal. lia.
    + cbn [mbind option_bind]. by rewrite (proj2 (Nat.leb_gt _ _)) by lia.
Qed.
(** A sink over a buffer that is large enough: the pushed values, then zeros. *)
Lemma sink_spec {F} `{!FieldOps F} (vs buffer : list F) : (length vs <= length buffer)%nat →
  push_all vs (MkSink buffer 0) ≫= finish = Some (vs ++ replicate (length buffer - length vs) f0, length vs).
Proof.
  intros Hl. rewrite push_all_spec by (cbn; lia). cbn [cursor constraints Nat.add].
  rewrite (proj2 (Nat.leb_le _ _)) by done. cbn [mbind option_bind]. unfold finish. cbn [cursor constraints take app].
  change (take 0 buffer ++ vs ++ drop (length vs) buffer) with (vs ++ drop (length vs) buffer).
  rewrite length_app, length_drop. replace (length vs + (length buffer - length vs))%nat with (length buffer) by lia.
  rewrite (proj2 (Nat.leb_le _ _)) by done. rewrite take_app_length. done.
Qed.
Lemma sink_overflow {F} `{!FieldOps F} (vs buffer : list F) : (length buffer < length vs)%nat →
  push_all vs (MkSink buffer 0) = None.
Proof.
  intros Hl. rewrite push_all_spec by (cbn; lia). cbn [cursor constraints Nat.add]. by rewrite (proj2 (Nat.leb_gt _ _)).
Qed.
