(* ===== verification/CpuFrame.v ===== *)
(** * The frame of the CPU relation (crates/zksm83-jolt/src/cpu.rs)

    The selectors of a row, the ranges of the registers and of the mapper, the output row of the instruction
    table, the cycles and the registers an instruction does not write, and the slots of the bus. *)
From S2P Require Import Prelude Field Columns CpuRow.

Section frame.
Context {F : Type} `{!FieldOps F, !RowView F}.
Local Open Scope field_scope.

Definition constrain_selectors : list F :=
  let active := value TRACE_ACTIVE in
  let branch := value TRACE_BRANCH_TAKEN in
  let mode_sum := sum (map mode (range TRACE_MODE_COUNT)) in
  let interrupts := map (λ source, value (TRACE_INTERRUPT_START + source)) (range TRACE_INTERRUPT_COUNT) in
  [boolean active] ++ map (λ m, boolean (mode m)) (range TRACE_MODE_COUNT) ++
  [mode_sum - f1; mode PADDING_MODE - (f1 - active)] ++
  map boolean interrupts ++
  [sum interrupts - mode INTERRUPT_MODE; boolean branch; (f1 - mode INSTRUCTION_MODE) * branch].

Definition constrain_cpu_ranges : list F :=
  constrain_bit_range TRACE_BEFORE_CPU_BYTE_BITS_START (8 * 8) ++
  constrain_bit_range TRACE_AFTER_CPU_BYTE_BITS_START (8 * 8) ++
  constrain_bit_range TRACE_BEFORE_PC_BITS_START 16 ++ constrain_bit_range TRACE_AFTER_PC_BITS_START 16 ++
  constrain_bit_range TRACE_BEFORE_SP_BITS_START 16 ++ constrain_bit_range TRACE_AFTER_SP_BITS_START 16 ++
  for_each (range 8) (λ byte,
    [before byte - packed_bits (TRACE_BEFORE_CPU_BYTE_BITS_START + byte * 8) 8;
     after byte - packed_bits (TRACE_AFTER_CPU_BYTE_BITS_START + byte * 8) 8]) ++
  for_each (range 4) (λ bit,
    [value (TRACE_BEFORE_CPU_BYTE_BITS_START + STATE_FLAGS * 8 + bit);
     value (TRACE_AFTER_CPU_BYTE_BITS_START + STATE_FLAGS * 8 + bit)]) ++
  for_each [(STATE_PC, TRACE_BEFORE_PC_BITS_START, TRACE_AFTER_PC_BITS_START);
            (STATE_SP, TRACE_BEFORE_SP_BITS_START, TRACE_AFTER_SP_BITS_START)] (λ '(state, before_bits, after_bits),
    [before state - packed_bits before_bits 16; after state - packed_bits after_bits 16]) ++
  [enum_range (before STATE_IME) 3; enum_range (after STATE_IME) 3;
   enum_range (before STATE_RUN_STATE) 4; enum_range (after STATE_RUN_STATE) 4;
   enum_range (before STATE_PROFILE) PROFILE_CODE_COUNT; enum_range (after STATE_PROFILE) PROFILE_CODE_COUNT].

(** The ROM bank before or after the row. *)
Definition constrain_rom_bank (bits : Z) (value profile : F) : option (list F) :=
  selector ← profile_256kib_selector profile;
  Some (constrain_bit_range bits 6 ++
    [value - packed_bits bits 6; zero_from_bits bits 6; selector * (value - packed_bits bits 4)]).
Definition constrain_mapper_ranges : option (list F) :=
  banks_before ← constrain_rom_bank TRACE_BEFORE_ROM_BANK_BITS_START (before STATE_MBC3_ROM_BANK) (before STATE_PROFILE);
  banks_after ← constrain_rom_bank TRACE_AFTER_ROM_BANK_BITS_START (after STATE_MBC3_ROM_BANK) (after STATE_PROFILE);
  Some ([boolean (before STATE_MBC3_RAM_ENABLED); boolean (after STATE_MBC3_RAM_ENABLED)] ++
    banks_before ++ banks_after ++
    for_each [(TRACE_BEFORE_RAM_RTC_BITS_START, before STATE_MBC3_RAM_RTC_SELECT);
              (TRACE_AFTER_RAM_RTC_BITS_START, after STATE_MBC3_RAM_RTC_SELECT)] (λ '(bits, value),
      constrain_bit_range bits 4 ++ [value - packed_bits bits 4])).

Definition constrain_isa : list F :=
  let active := value TRACE_ACTIVE in
  let padding := mode PADDING_MODE in
  constrain_bit_range TRACE_ISA_ADDRESS_START 9 ++
  map (λ index, boolean (isa index)) (seqZ ISA_WRITE_BITS_START (ISA_TAKEN_TIMING - ISA_WRITE_BITS_START)) ++
  [boolean (isa ISA_TAKEN_TIMING)] ++
  map (λ index, boolean (isa index)) (seqZ ISA_OPERATION_BITS_START (ISA_OUTPUT_COUNT - ISA_OPERATION_BITS_START)) ++
  [active * (isa ISA_VALID - f1)] ++
  map (λ output, padding * isa output) (range ISA_OUTPUT_COUNT) ++
  map (λ bit, padding * (value (TRACE_ISA_ADDRESS_START + bit) - lit (Z.land (Z.shiftr ISA_PADDING_ADDRESS bit) 1))) (range 9).

Definition constrain_cycles_and_frames : list F :=
  let increment := value TRACE_CYCLE_INCREMENT in
  let halt_idle_range :=
    foldl (λ product admitted, product * (increment - lit admitted)) (mode HALT_IDLE_MODE) (seqZ 1 6) in
  let branch := value TRACE_BRANCH_TAKEN in
  let halt_bug := value TRACE_HALT_BUG in
  let base := isa ISA_BASE_M_CYCLES in
  let taken := isa ISA_TAKEN_M_CYCLES in
  let selected := base + branch * isa ISA_TAKEN_TIMING * (taken - base) in
  [after STATE_CYCLES - before STATE_CYCLES - increment;
   after STATE_PROFILE - before STATE_PROFILE;
   mode PADDING_MODE * increment;
   (mode HALT_WAKE_MODE + mode DMA_BYTE_MODE) * increment;
   mode INTERRUPT_MODE * (increment - lit 5);
   halt_idle_range;
   mode INSTRUCTION_MODE * (increment - selected)] ++
  map (λ state,
    let write := isa (ISA_WRITE_BITS_START + state) in
    let halt_bug_reset := if state =? STATE_RUN_STATE then lit 3 * halt_bug else f0 in
    mode INSTRUCTION_MODE * (f1 - write) * (after state - before state + halt_bug_reset)) (range STATE_CYCLES) ++
  map (λ state, mode PADDING_MODE * (after state - before state)) (range STATE_SCALAR_COUNT).

Definition constrain_instruction_bus_counts (slot_active : list F) : list F :=
  let instruction := mode INSTRUCTION_MODE in
  let branch := value TRACE_BRANCH_TAKEN in
  let event_count := sum slot_active in
  let opcode := bus_category [1; 14] in
  let immediate := bus_category [2; 15] in
  let data_read := bus_category [3; 4; 6; 9; 11; 13] in
  let data_write := bus_category [5; 7; 8; 10; 12] in
  let base_count := isa ISA_OPCODE_FETCHES + isa ISA_IMMEDIATE_READS + isa ISA_DATA_READS + isa ISA_DATA_WRITES in
  let taken_count := isa ISA_TAKEN_DATA_READS + isa ISA_TAKEN_DATA_WRITES in
  [instruction * (event_count - base_count - branch * taken_count);
   instruction * (opcode - isa ISA_OPCODE_FETCHES);
   instruction * (immediate - isa ISA_IMMEDIATE_READS);
   instruction * (data_read - isa ISA_DATA_READS - branch * isa ISA_TAKEN_DATA_READS);
   instruction * (data_write - isa ISA_DATA_WRITES - branch * isa ISA_TAKEN_DATA_WRITES)].

(** The body of the loop over the slots. *)
Definition constrain_bus_slot (slot : Z) : list F :=
  let active := bus_field slot 0 in
  let kind_bits := bus_kind_bits slot in
  let address_bits := (TRACE_BUS_ADDRESS_BITS_START + slot * 16)%Z in
  let physical_bits := (TRACE_BUS_PHYSICAL_BITS_START + slot * ROM_ADDRESS_BIT_COUNT)%Z in
  let value_bits := (TRACE_BUS_VALUE_BITS_START + slot * 8)%Z in
  let before_bits := (TRACE_BUS_BEFORE_BITS_START + slot * 8)%Z in
  let rom_selector := value (TRACE_ROM_SELECTOR_START + slot) in
  let expected_rom_selector := sum (map (selector_product kind_bits) [1; 2; 3; 16]) in
  [boolean active] ++ map boolean kind_bits ++
  [sum (map (selector_product kind_bits) (range 19)) - f1; active - (f1 - selector_product kind_bits 0)] ++
  map (λ offset, (f1 - active) * bus_field slot offset) (seqZ BUS_ADDRESS_OFFSET BUS_TUPLE_FIELDS) ++
  constrain_bit_range address_bits 16 ++ [bus_field slot BUS_ADDRESS_OFFSET - packed_bits address_bits 16] ++
  constrain_bit_range physical_bits ROM_ADDRESS_BIT_COUNT ++
  [bus_field slot BUS_PHYSICAL_ADDRESS_OFFSET - packed_bits physical_bits ROM_ADDRESS_BIT_COUNT] ++
  constrain_bit_range value_bits 8 ++ [bus_field slot BUS_VALUE_OFFSET - packed_bits value_bits 8] ++
  constrain_bit_range before_bits 8 ++ [bus_field slot BUS_BEFORE_OFFSET - packed_bits before_bits 8] ++
  [boolean rom_selector; rom_selector - expected_rom_selector;
   value (TRACE_ROM_VALUE_START + slot) - rom_selector * bus_field slot BUS_VALUE_OFFSET;
   mode PADDING_MODE * active].
Definition constrain_bus : list F :=
  let slot_active := map (λ slot, bus_field slot 0) (range TRACE_BUS_SLOTS) in
  for_each (range TRACE_BUS_SLOTS) constrain_bus_slot ++
  zip_with (λ prior next, next * (f1 - prior)) slot_active (tail slot_active) ++
  constrain_instruction_bus_counts slot_active.
End frame.
