(* ===== verification/CpuArithmetic.v ===== *)
(** * Byte and word arithmetic of the CPU relation (crates/zksm83-jolt/src/cpu/{semantics,bit,daa,word}.rs)

    The constraints that tie the registers and flags after an instruction to those before it, selected by the
    bits of the operation and of the arguments in the row's output of the instruction table. One Module per
    file of the code; where the functions of the code pass [instruction] and the operation selectors on, so
    do these. *)
From S2P Require Import Prelude Field Columns CpuRow.

Definition BYTE_BITS : Z := 8.
Definition FLAGS_CARRY_BIT : Z := 4.
Definition FLAGS_ZERO_BIT : Z := 7.
Definition REGISTER_A : Z := 0.
Definition REGISTER_B : Z := 1.
Definition REGISTER_C : Z := 2.
Definition REGISTER_D : Z := 3.
Definition REGISTER_E : Z := 4.
Definition REGISTER_H : Z := 5.
Definition REGISTER_L : Z := 6.

(** [register_routes], [byte_register_routes]: the argument code and the state of each register. *)
Definition register_routes : list (Z * Z) :=
  [(0, REGISTER_B); (1, REGISTER_C); (2, REGISTER_D); (3, REGISTER_E); (4, REGISTER_H); (5, REGISTER_L); (7, REGISTER_A)].
Definition word_register_routes : list (Z * Z * Z) :=
  [(0, REGISTER_B, REGISTER_C); (1, REGISTER_D, REGISTER_E); (2, REGISTER_H, REGISTER_L)].

Module Semantics.
Section semantics.
Context {F : Type} `{!FieldOps F, !RowView F}.
Local Open Scope field_scope.

Definition constrain_arithmetic_witness : list F :=
  let products i := value (TRACE_RESULT_ZERO_PRODUCTS_START + i) in
  let first_quartet := products 4 in
  let second_quartet := products 5 in
  for_each [TRACE_OPERAND_BITS_START; TRACE_RESULT_BITS_START] (λ start,
    map (λ bit, boolean (value (start + bit))) (range BYTE_BITS)) ++
  map (λ column, boolean (value column)) [TRACE_ARITHMETIC_CARRY; TRACE_ARITHMETIC_HALF_CARRY; TRACE_RESULT_ZERO] ++
  [value TRACE_OPERAND_VALUE - packed_bits TRACE_OPERAND_BITS_START BYTE_BITS;
   value TRACE_RESULT_VALUE - packed_bits TRACE_RESULT_BITS_START BYTE_BITS] ++
  map (λ pair,
    let left := value (TRACE_RESULT_BITS_START + pair * 2) in
    let right := value (TRACE_RESULT_BITS_START + pair * 2 + 1) in
    products pair - (f1 - left) * (f1 - right)) (range 4) ++
  [first_quartet - products 0 * products 1;
   second_quartet - products 2 * products 3;
   value TRACE_RESULT_ZERO - first_quartet * second_quartet].

Definition selected_operand (argument_start width : Z) : F :=
  let bus_value := bus_field 1 BUS_VALUE_OFFSET in
  let selected := foldl (λ selected '(argument, state), selected + argument_selector argument_start width argument * before state)
    f0 register_routes in
  let selected := selected + argument_selector argument_start width 6 * bus_value in
  if width =? 4 then selected + argument_selector argument_start width 8 * bus_value else selected.

Definition constrain_operand_routing (instruction increment decrement alu : F) : list F :=
  let operand := value TRACE_OPERAND_VALUE in
  let target := selected_operand ISA_ARGUMENT_ZERO_BITS_START 3 in
  let source := selected_operand ISA_ARGUMENT_ONE_BITS_START 4 in
  [instruction * (increment + decrement) * (operand - target); instruction * alu * (operand - source)].

Definition constrain_increment_destination (instruction operation : F) : list F :=
  let result := value TRACE_RESULT_VALUE in
  let memory := argument_selector ISA_ARGUMENT_ZERO_BITS_START 3 6 in
  let hl := before REGISTER_H * lit 256 + before REGISTER_L in
  let selected := instruction * operation * memory in
  map (λ '(argument, state),
    let route := argument_selector ISA_ARGUMENT_ZERO_BITS_START 3 argument in
    instruction * operation * route * (after state - result)) register_routes ++
  [selected * (bus_field 1 BUS_ADDRESS_OFFSET - hl);
   selected * (bus_field 1 BUS_VALUE_OFFSET - value TRACE_OPERAND_VALUE);
   selected * (bus_field 2 BUS_ADDRESS_OFFSET - hl);
   selected * (bus_field 2 BUS_VALUE_OFFSET - result)].

Definition constrain_increment_decrement (instruction increment decrement : F) : list F :=
  let operand := value TRACE_OPERAND_VALUE in
  let result := value TRACE_RESULT_VALUE in
  let carry := value TRACE_ARITHMETIC_CARRY in
  let half := value TRACE_ARITHMETIC_HALF_CARRY in
  let operand_low := packed_bits TRACE_OPERAND_BITS_START 4 in
  let result_low := packed_bits TRACE_RESULT_BITS_START 4 in
  let prior_carry := before_flag_bit FLAGS_CARRY_BIT in
  let zero := value TRACE_RESULT_ZERO in
  let increment_flags := zero * lit 128 + half * lit 32 + prior_carry * lit 16 in
  let decrement_flags := increment_flags + lit 64 in
  [instruction * increment * (operand + f1 - result - lit 256 * carry);
   instruction * increment * (operand_low + f1 - result_low - lit 16 * half);
   instruction * decrement * (operand + lit 256 * carry - result - f1);
   instruction * decrement * (operand_low + lit 16 * half - result_low - f1)] ++
  constrain_increment_destination instruction (increment + decrement) ++
  [instruction * increment * (after STATE_FLAGS - increment_flags);
   instruction * decrement * (after STATE_FLAGS - decrement_flags)].

Definition constrain_logical_alu (instruction alu : F) : list F :=
  for_each (range BYTE_BITS) (λ bit,
    let left := value (TRACE_BEFORE_CPU_BYTE_BITS_START + bit) in
    let right := value (TRACE_OPERAND_BITS_START + bit) in
    let product := left * right in
    let result := value (TRACE_RESULT_BITS_START + bit) in
    map (λ '(code, expected),
      let operation := argument_selector ISA_ARGUMENT_ZERO_BITS_START 3 code in
      instruction * alu * operation * (result - expected))
      [(4, product); (5, left + right - lit 2 * product); (6, left + right - product)]).

Definition constrain_alu_outputs (instruction alu : F) : list F :=
  let result := value TRACE_RESULT_VALUE in
  let zero := value TRACE_RESULT_ZERO in
  let half := value TRACE_ARITHMETIC_HALF_CARRY in
  let carry := value TRACE_ARITHMETIC_CARRY in
  for_each (range 8) (λ code,
    let operation := argument_selector ISA_ARGUMENT_ZERO_BITS_START 3 code in
    let selected := instruction * alu * operation in
    let subtract := Z.b2z (bool_decide (code ∈ [2; 3; 7])) in
    let derived := Z.b2z (bool_decide (code ∈ [0; 1; 2; 3; 7])) in
    let and_half := Z.b2z (code =? 4) in
    let flags := zero * lit 128 + lit (subtract * 64) + half * lit (derived * 32) + lit (and_half * 32) +
      carry * lit (derived * 16) in
    (if code =? 7 then [] else [selected * (after REGISTER_A - result)]) ++
    [selected * (after STATE_FLAGS - flags)]).

Definition constrain_alu (instruction alu : F) : list F :=
  let accumulator := before REGISTER_A in
  let operand := value TRACE_OPERAND_VALUE in
  let result := value TRACE_RESULT_VALUE in
  let carry := value TRACE_ARITHMETIC_CARRY in
  let half := value TRACE_ARITHMETIC_HALF_CARRY in
  let carry_in := before_flag_bit FLAGS_CARRY_BIT in
  let accumulator_low := packed_bits TRACE_BEFORE_CPU_BYTE_BITS_START 4 in
  let operand_low := packed_bits TRACE_OPERAND_BITS_START 4 in
  let result_low := packed_bits TRACE_RESULT_BITS_START 4 in
  for_each [(0, lit 0); (1, carry_in)] (λ '(code, selected_carry),
    let operation := argument_selector ISA_ARGUMENT_ZERO_BITS_START 3 code in
    let selected := instruction * alu * operation in
    [selected * (accumulator + operand + selected_carry - result - lit 256 * carry);
     selected * (accumulator_low + operand_low + selected_carry - result_low - lit 16 * half)]) ++
  for_each [(2, lit 0); (3, carry_in); (7, lit 0)] (λ '(code, selected_carry),
    let operation := argument_selector ISA_ARGUMENT_ZERO_BITS_START 3 code in
    let selected := instruction * alu * operation in
    [selected * (accumulator + lit 256 * carry - operand - selected_carry - result);
     selected * (accumulator_low + lit 16 * half - operand_low - selected_carry - result_low)]) ++
  constrain_logical_alu instruction alu ++
  constrain_alu_outputs instruction alu.

Definition constrain_unused_witness (arithmetic load : F) : list F :=
  let unused := f1 - arithmetic in
  [(f1 - arithmetic - load) * value TRACE_OPERAND_VALUE] ++
  map (λ column, unused * value column) [TRACE_RESULT_VALUE; TRACE_ARITHMETIC_CARRY; TRACE_ARITHMETIC_HALF_CARRY] ++
  [unused * (value TRACE_RESULT_ZERO - f1)].

Definition constrain_byte_arithmetic : list F :=
  let instruction := mode INSTRUCTION_MODE in
  let increment := operation_selector 9 in
  let decrement := operation_selector 10 in
  let load := operation_selector 17 in
  let alu := operation_selector 19 in
  let signed_sp := operation_selector 22 + operation_selector 23 in
  let rotate := operation_selector 12 + operation_selector 37 in
  let daa := operation_selector 13 in
  let bit := operation_selector 38 + operation_selector 39 + operation_selector 40 in
  let arithmetic := instruction * (increment + decrement + alu + signed_sp + rotate + daa + bit) in
  constrain_arithmetic_witness ++
  constrain_operand_routing instruction increment decrement alu ++
  constrain_increment_decrement instruction increment decrement ++
  constrain_alu instruction alu ++
  constrain_unused_witness arithmetic (instruction * load).
End semantics.
End Semantics.

Module Bit.
Section bit.
Context {F : Type} `{!FieldOps F, !RowView F}.
Local Open Scope field_scope.

Definition operand_bit (bit : Z) : F := value (TRACE_OPERAND_BITS_START + bit).

(** [operation] is one of 0..7. *)
Definition rotate_result_bit (operation bit : Z) (carry_in : F) : F :=
  match operation with
  | 0 => operand_bit (if bit =? 0 then 7 else bit - 1)
  | 1 => operand_bit (if bit =? 7 then 0 else bit + 1)
  | 2 => if bit =? 0 then carry_in else operand_bit (bit - 1)
  | 3 => if bit =? 7 then carry_in else operand_bit (bit + 1)
  | 4 => if bit =? 0 then f0 else operand_bit (bit - 1)
  | 5 => if bit =? 7 then operand_bit 7 else operand_bit (bit + 1)
  | 6 => if bit <? 4 then operand_bit (bit + 4) else operand_bit (bit - 4)
  | _ => if bit =? 7 then f0 else operand_bit (bit + 1)
  end%Z.

Definition selected_cb_operand : F :=
  foldl (λ selected '(argument, state), selected + argument_selector ISA_ARGUMENT_ONE_BITS_START 4 argument * before state)
    f0 register_routes +
  argument_selector ISA_ARGUMENT_ONE_BITS_START 4 6 * bus_field 2 BUS_VALUE_OFFSET.

Definition constrain_operand_routing (instruction accumulator_rotate cb : F) : list F :=
  let operand := value TRACE_OPERAND_VALUE in
  let source := selected_cb_operand in
  [instruction * accumulator_rotate * (operand - before REGISTER_A); instruction * cb * (operand - source)].

Definition constrain_rotations (instruction accumulator_rotate cb_rotate : F) : list F :=
  let rotate := accumulator_rotate + cb_rotate in
  let carry_in := before_flag_bit 4 in
  for_each (range 8) (λ code,
    let operation := argument_selector ISA_ARGUMENT_ZERO_BITS_START 3 code in
    let selected := instruction * rotate * operation in
    let expected_carry :=
      if bool_decide (code ∈ [0; 2; 4]) then value (TRACE_OPERAND_BITS_START + 7)
      else if bool_decide (code ∈ [1; 3; 5; 7]) then value TRACE_OPERAND_BITS_START else f0 in
    map (λ bit, selected * (value (TRACE_RESULT_BITS_START + bit) - rotate_result_bit code bit carry_in)) (range 8) ++
    [selected * (value TRACE_ARITHMETIC_CARRY - expected_carry)]) ++
  [instruction * rotate * value TRACE_ARITHMETIC_HALF_CARRY;
   instruction * accumulator_rotate * (after REGISTER_A - value TRACE_RESULT_VALUE);
   instruction * accumulator_rotate * (after STATE_FLAGS - lit 16 * value TRACE_ARITHMETIC_CARRY);
   instruction * cb_rotate *
     (after STATE_FLAGS - lit 128 * value TRACE_RESULT_ZERO - lit 16 * value TRACE_ARITHMETIC_CARRY)].

Definition constrain_bit_operations (instruction test reset set : F) : list F :=
  let operand := value TRACE_OPERAND_VALUE in
  let result := value TRACE_RESULT_VALUE in
  let selector bit := argument_selector ISA_ARGUMENT_ZERO_BITS_START 3 bit in
  let result_bit bit := value (TRACE_RESULT_BITS_START + bit) in
  let selected_bit := foldl (λ selected_bit bit, selected_bit + selector bit * operand_bit bit) f0 (range 8) in
  let carry := before_flag_bit 4 in
  let expected_flags := (f1 - selected_bit) * lit 128 + lit 32 + carry * lit 16 in
  [instruction * test * (result - operand);
   instruction * (test + reset + set) * value TRACE_ARITHMETIC_CARRY;
   instruction * (test + reset + set) * value TRACE_ARITHMETIC_HALF_CARRY] ++
  for_each (range 8) (λ bit,
    [instruction * reset * (result_bit bit - operand_bit bit * (f1 - selector bit));
     instruction * set * (result_bit bit - operand_bit bit - selector bit * (f1 - operand_bit bit))]) ++
  [instruction * test * (after STATE_FLAGS - expected_flags)].

Definition constrain_cb_destination (instruction rotate test reset set : F) : list F :=
  let result := value TRACE_RESULT_VALUE in
  let writes := rotate + reset + set in
  let memory := argument_selector ISA_ARGUMENT_ONE_BITS_START 4 6 in
  let hl := before REGISTER_H * lit 256 + before REGISTER_L in
  let cb := rotate + test + reset + set in
  map (λ '(argument, state),
    let route := argument_selector ISA_ARGUMENT_ONE_BITS_START 4 argument in
    instruction * writes * route * (after state - result)) register_routes ++
  [instruction * cb * memory * (bus_field 2 BUS_ADDRESS_OFFSET - hl);
   instruction * cb * memory * (bus_field 2 BUS_VALUE_OFFSET - value TRACE_OPERAND_VALUE);
   instruction * writes * memory * (bus_field 3 BUS_ADDRESS_OFFSET - hl);
   instruction * writes * memory * (bus_field 3 BUS_VALUE_OFFSET - result)].

Definition constrain_rotate_and_bit_operations : list F :=
  let instruction := mode INSTRUCTION_MODE in
  let accumulator_rotate := operation_selector 12 in
  let cb_rotate := operation_selector 37 in
  let test := operation_selector 38 in
  let reset := operation_selector 39 in
  let set := operation_selector 40 in
  let cb := cb_rotate + test + reset + set in
  constrain_operand_routing instruction accumulator_rotate cb ++
  constrain_rotations instruction accumulator_rotate cb_rotate ++
  constrain_bit_operations instruction test reset set ++
  constrain_cb_destination instruction cb_rotate test reset set.

Definition constrain_cb_bus_with_lookup : list F :=
  let instruction := mode INSTRUCTION_MODE in
  let rotate := operation_selector 37 in
  let test := operation_selector 38 in
  let reset := operation_selector 39 in
  let set := operation_selector 40 in
  let memory := argument_selector ISA_ARGUMENT_ONE_BITS_START 4 6 in
  let hl := before REGISTER_H * lit 256 + before REGISTER_L in
  let cb := rotate + test + reset + set in
  let writes := rotate + reset + set in
  [instruction * cb * memory * (bus_field 2 BUS_ADDRESS_OFFSET - hl);
   instruction * writes * memory * (bus_field 3 BUS_ADDRESS_OFFSET - hl)].
End bit.
End Bit.

Module Daa.
Section daa.
Context {F : Type} `{!FieldOps F, !RowView F}.
Local Open Scope field_scope.

Definition accumulator_bit (bit : Z) : F := value (TRACE_BEFORE_CPU_BYTE_BITS_START + bit).
Definition daa_columns : list Z := seqZ TRACE_DAA_LOW_GT_NINE (TRACE_DAA_WRAP + 1 - TRACE_DAA_LOW_GT_NINE).

Definition constrain_decimal_adjust : list F :=
  let instruction := mode INSTRUCTION_MODE in
  let daa := operation_selector 13 in
  let selected := instruction * daa in
  let low_gt := value TRACE_DAA_LOW_GT_NINE in
  let high_gt := value TRACE_DAA_HIGH_GT_NINE in
  let high_eq_nine := value TRACE_DAA_HIGH_EQUALS_NINE in
  let acc_gt := value TRACE_DAA_ACC_GT_99 in
  let low_adjust := value TRACE_DAA_LOW_ADJUST in
  let high_adjust := value TRACE_DAA_HIGH_ADJUST in
  let low_one := accumulator_bit 1 in
  let low_two := accumulator_bit 2 in
  let low_three := accumulator_bit 3 in
  let high_zero := accumulator_bit 4 in
  let high_one := accumulator_bit 5 in
  let high_two := accumulator_bit 6 in
  let high_three := accumulator_bit 7 in
  let subtract := before_flag_bit 6 in
  let half := before_flag_bit 5 in
  let carry := before_flag_bit 4 in
  let low_or := half + low_gt - half * low_gt in
  let high_or := carry + acc_gt - carry * acc_gt in
  let correction := lit 6 * low_adjust + lit 96 * high_adjust in
  let wrap := value TRACE_DAA_WRAP in
  let result := value TRACE_RESULT_VALUE in
  let flags := value TRACE_RESULT_ZERO * lit 128 + subtract * lit 64 + high_adjust * lit 16 in
  map (λ column, boolean (value column)) daa_columns ++
  [selected * (low_gt - low_three * (low_two + low_one - low_two * low_one));
   selected * (high_gt - high_three * (high_two + high_one - high_two * high_one));
   selected * (high_eq_nine - high_three * (f1 - high_two) * (f1 - high_one) * high_zero);
   selected * (acc_gt - high_gt - high_eq_nine * low_gt);
   selected * (low_adjust - subtract * half - (f1 - subtract) * low_or);
   selected * (high_adjust - subtract * carry - (f1 - subtract) * high_or);
   selected * (before REGISTER_A + (f1 - lit 2 * subtract) * correction - result - lit 256 * wrap +
     lit 512 * subtract * wrap);
   selected * (value TRACE_OPERAND_VALUE - before REGISTER_A);
   selected * (after REGISTER_A - result);
   selected * (value TRACE_ARITHMETIC_CARRY - high_adjust);
   selected * value TRACE_ARITHMETIC_HALF_CARRY;
   selected * (after STATE_FLAGS - flags)] ++
  map (λ column, (f1 - selected) * value column) daa_columns.
End daa.
End Daa.

Module Word.
Section word.
Context {F : Type} `{!FieldOps F, !RowView F}.
Local Open Scope field_scope.

Definition register_word (is_after : bool) (high low : Z) : F :=
  let high := if is_after then after high else before high in
  let low := if is_after then after low else before low in
  high * lit 256 + low.

Definition selected_register_word (is_after : bool) : F :=
  let selected := foldl (λ selected '(argument, high, low),
    selected + argument_selector ISA_ARGUMENT_ZERO_BITS_START 3 argument * register_word is_after high low)
    f0 word_register_routes in
  let sp := if is_after then after STATE_SP else before STATE_SP in
  selected + argument_selector ISA_ARGUMENT_ZERO_BITS_START 3 3 * sp.

(** [argument] is one of 0..3. *)
Definition word_low_twelve (argument : Z) : F :=
  let of_bytes high_byte low_byte :=
    let high_nibble := packed_bits (TRACE_BEFORE_CPU_BYTE_BITS_START + high_byte * 8) 4 in
    before low_byte + lit 256 * high_nibble in
  match argument with
  | 0 => of_bytes REGISTER_B REGISTER_C
  | 1 => of_bytes REGISTER_D REGISTER_E
  | 2 => of_bytes REGISTER_H REGISTER_L
  | _ => packed_bits TRACE_BEFORE_SP_BITS_START 12
  end%Z.
Definition selected_word_low_twelve : F :=
  foldl (λ selected argument, selected + argument_selector ISA_ARGUMENT_ZERO_BITS_START 3 argument * word_low_twelve argument)
    f0 (range 4).
Definition after_hl_low_twelve : F :=
  let high_nibble := packed_bits (TRACE_AFTER_CPU_BYTE_BITS_START + REGISTER_H * 8) 4 in
  after REGISTER_L + lit 256 * high_nibble.
Definition result_low_nibble : F := packed_bits TRACE_RESULT_BITS_START 4.

Definition constrain_increment_decrement (instruction : F) : list F :=
  let increment := operation_selector 7 in
  let decrement := operation_selector 8 in
  let current := selected_register_word false in
  let next := selected_register_word true in
  let wrap := value TRACE_WORD_WRAP in
  let indirect := operation_selector 6 in
  let hl_increment := argument_selector ISA_ARGUMENT_ZERO_BITS_START 3 2 in
  let hl_decrement := argument_selector ISA_ARGUMENT_ZERO_BITS_START 3 3 in
  let current_hl := register_word false REGISTER_H REGISTER_L in
  let next_hl := register_word true REGISTER_H REGISTER_L in
  let load_sp := operation_selector 27 in
  [instruction * increment * (next - current - f1 + lit 65536 * wrap);
   instruction * decrement * (next - current + f1 - lit 65536 * wrap);
   instruction * indirect * hl_increment * (next_hl - current_hl - f1 + lit 65536 * wrap);
   instruction * indirect * hl_decrement * (next_hl - current_hl + f1 - lit 65536 * wrap);
   instruction * load_sp * (after STATE_SP - current_hl)].

Definition constrain_add_hl (instruction : F) : list F :=
  let add := operation_selector 5 in
  let current := register_word false REGISTER_H REGISTER_L in
  let next := register_word true REGISTER_H REGISTER_L in
  let operand := selected_register_word false in
  let carry := value TRACE_WORD_CARRY in
  let current_low := word_low_twelve 2 in
  let operand_low := selected_word_low_twelve in
  let next_low := after_hl_low_twelve in
  let half := value TRACE_WORD_HALF_CARRY in
  let zero := before_flag_bit 7 in
  let flags := zero * lit 128 + half * lit 32 + carry * lit 16 in
  [instruction * add * (current + operand - next - lit 65536 * carry);
   instruction * add * (current_low + operand_low - next_low - lit 4096 * half);
   instruction * add * (after STATE_FLAGS - flags)].

Definition constrain_signed_sp (instruction : F) : list F :=
  let add_sp := operation_selector 22 in
  let load_hl := operation_selector 23 in
  let signed := add_sp + load_hl in
  let immediate := value TRACE_IMMEDIATE_LOW in
  let sign := value (TRACE_IMMEDIATE_LOW_BITS_START + 7) in
  let underflow := value TRACE_SIGNED_SP_UNDERFLOW in
  let overflow := value TRACE_SIGNED_SP_OVERFLOW in
  let after_hl := register_word true REGISTER_H REGISTER_L in
  let target_delta :=
    f0 - before STATE_SP - immediate + lit 256 * sign - lit 65536 * underflow + lit 65536 * overflow in
  let sp_low := packed_bits TRACE_BEFORE_SP_BITS_START 8 in
  let sp_nibble := packed_bits TRACE_BEFORE_SP_BITS_START 4 in
  let immediate_nibble := packed_bits TRACE_IMMEDIATE_LOW_BITS_START 4 in
  let result_nibble := result_low_nibble in
  let flags := value TRACE_ARITHMETIC_HALF_CARRY * lit 32 + value TRACE_ARITHMETIC_CARRY * lit 16 in
  [instruction * signed * (value TRACE_OPERAND_VALUE - immediate);
   underflow * overflow;
   instruction * add_sp * (after STATE_SP + target_delta);
   instruction * load_hl * (after_hl + target_delta);
   instruction * signed *
     (sp_low + immediate - value TRACE_RESULT_VALUE - lit 256 * value TRACE_ARITHMETIC_CARRY);
   instruction * signed *
     (sp_nibble + immediate_nibble - result_nibble - lit 16 * value TRACE_ARITHMETIC_HALF_CARRY);
   instruction * signed * (after STATE_FLAGS - flags)].

Definition wrap_use (instruction : F) : F :=
  let indirect := operation_selector 6 in
  let changes_hl :=
    argument_selector ISA_ARGUMENT_ZERO_BITS_START 3 2 + argument_selector ISA_ARGUMENT_ZERO_BITS_START 3 3 in
  instruction * (operation_selector 7 + operation_selector 8 + indirect * changes_hl).
Definition constrain_word_wrap_scope (instruction : F) : list F :=
  [(f1 - wrap_use instruction) * value TRACE_WORD_WRAP].
Definition constrain_word_witness_scope (instruction : F) : list F :=
  let add := instruction * operation_selector 5 in
  let signed := instruction * (operation_selector 22 + operation_selector 23) in
  [(f1 - wrap_use instruction) * value TRACE_WORD_WRAP;
   (f1 - add) * value TRACE_WORD_CARRY;
   (f1 - add) * value TRACE_WORD_HALF_CARRY;
   (f1 - signed) * value TRACE_SIGNED_SP_UNDERFLOW;
   (f1 - signed) * value TRACE_SIGNED_SP_OVERFLOW].

Definition constrain_word_operations : list F :=
  let instruction := mode INSTRUCTION_MODE in
  map (λ column, boolean (value column))
    [TRACE_WORD_WRAP; TRACE_WORD_CARRY; TRACE_WORD_HALF_CARRY; TRACE_SIGNED_SP_UNDERFLOW; TRACE_SIGNED_SP_OVERFLOW] ++
  constrain_increment_decrement instruction ++
  constrain_add_hl instruction ++
  constrain_signed_sp instruction ++
  constrain_word_witness_scope instruction.
Definition constrain_word_operations_with_lookup : list F :=
  let instruction := mode INSTRUCTION_MODE in
  [boolean (value TRACE_WORD_WRAP)] ++ constrain_increment_decrement instruction ++ constrain_word_wrap_scope instruction.
End word.
End Word.
