(* ===== verification/CpuControl.v ===== *)
(** * Control, transfers and the stack in the CPU relation (crates/zksm83-jolt/src/cpu/{control,data,stack,machine}.rs)

    The program counter and the fetches, register and memory transfers, the stack, and the rows that are not
    instructions: halts, wakes, interrupts and DMA bytes. One Module per file of the code. *)
From S2P Require Import Prelude Field Columns CpuRow CpuArithmetic.

Module Control.
Section control.
Context {F : Type} `{!FieldOps F, !RowView F}.
Local Open Scope field_scope.

Definition constrain_instruction_witness : list F :=
  let instruction := mode INSTRUCTION_MODE in
  let immediate_count := isa ISA_IMMEDIATE_READS in
  let halt_bug := value TRACE_HALT_BUG in
  let run_state := before STATE_RUN_STATE in
  let not_instruction := f1 - instruction in
  for_each [TRACE_IMMEDIATE_LOW_BITS_START; TRACE_IMMEDIATE_HIGH_BITS_START] (λ start,
    map (λ bit, boolean (value (start + bit))) (range 8)) ++
  map (λ bit, boolean (value (TRACE_SEQUENTIAL_PC_BITS_START + bit))) (range 16) ++
  map (λ column, boolean (value column))
    [TRACE_PC_WRAP; TRACE_HALT_BUG; TRACE_CONTROL_UNDERFLOW; TRACE_CONTROL_OVERFLOW; TRACE_FETCH_ONE_WRAP;
     TRACE_FETCH_TWO_WRAP] ++
  [value TRACE_IMMEDIATE_LOW - packed_bits TRACE_IMMEDIATE_LOW_BITS_START 8;
   value TRACE_IMMEDIATE_HIGH - packed_bits TRACE_IMMEDIATE_HIGH_BITS_START 8;
   value TRACE_SEQUENTIAL_PC - packed_bits TRACE_SEQUENTIAL_PC_BITS_START 16;
   instruction * immediate_count * (value TRACE_IMMEDIATE_LOW - bus_field 1 BUS_VALUE_OFFSET);
   instruction * immediate_count * (immediate_count - f1) *
     (value TRACE_IMMEDIATE_HIGH - bus_field 2 BUS_VALUE_OFFSET);
   instruction * value TRACE_IMMEDIATE_LOW * (immediate_count - f1) * (immediate_count - lit 2);
   instruction * value TRACE_IMMEDIATE_HIGH * (immediate_count - lit 2);
   instruction * run_state * (run_state - lit 3);
   instruction * halt_bug * (run_state - lit 3);
   instruction * (f1 - halt_bug) * run_state * (run_state - f1) * (run_state - lit 2);
   instruction * (value TRACE_SEQUENTIAL_PC - before STATE_PC - isa ISA_OPCODE_FETCHES - isa ISA_IMMEDIATE_READS +
     halt_bug + lit 65536 * value TRACE_PC_WRAP)] ++
  map (λ column, not_instruction * value column)
    [TRACE_IMMEDIATE_LOW; TRACE_IMMEDIATE_HIGH; TRACE_SEQUENTIAL_PC; TRACE_PC_WRAP; TRACE_HALT_BUG;
     TRACE_CONTROL_UNDERFLOW; TRACE_CONTROL_OVERFLOW; TRACE_FETCH_ONE_WRAP; TRACE_FETCH_TWO_WRAP].

Definition constrain_fetch_alignment : list F :=
  let instruction := mode INSTRUCTION_MODE in
  let prefix := value (TRACE_ISA_ADDRESS_START + 8) in
  let opcode := packed_bits TRACE_ISA_ADDRESS_START 8 in
  let halt_bug := value TRACE_HALT_BUG in
  let fetch_one := before STATE_PC + f1 - halt_bug - lit 65536 * value TRACE_FETCH_ONE_WRAP in
  let fetch_two := before STATE_PC + lit 2 - halt_bug - lit 65536 * value TRACE_FETCH_TWO_WRAP in
  let primary := f1 - prefix in
  let immediate_count := isa ISA_IMMEDIATE_READS in
  [instruction * (bus_field 0 BUS_ADDRESS_OFFSET - before STATE_PC);
   instruction * (bus_field 0 BUS_VALUE_OFFSET - (f1 - prefix) * opcode - prefix * lit 0xcb);
   instruction * prefix * (bus_field 1 BUS_ADDRESS_OFFSET - fetch_one);
   instruction * prefix * (bus_field 1 BUS_VALUE_OFFSET - opcode);
   instruction * primary * immediate_count * (bus_field 1 BUS_ADDRESS_OFFSET - fetch_one);
   instruction * primary * immediate_count * (immediate_count - f1) * (bus_field 2 BUS_ADDRESS_OFFSET - fetch_two)].

Definition constrain_branch_decision : list F :=
  let instruction := mode INSTRUCTION_MODE in
  let branch := value TRACE_BRANCH_TAKEN in
  let conditional := operation_selector 3 + operation_selector 20 + operation_selector 28 + operation_selector 34 in
  let fixed := operation_selector 25 + operation_selector 26 + operation_selector 36 in
  let zero := before_flag_bit FLAGS_ZERO_BIT in
  let carry := before_flag_bit FLAGS_CARRY_BIT in
  let expected :=
    argument_selector ISA_ARGUMENT_ZERO_BITS_START 3 0 +
    argument_selector ISA_ARGUMENT_ZERO_BITS_START 3 1 * (f1 - zero) +
    argument_selector ISA_ARGUMENT_ZERO_BITS_START 3 2 * zero +
    argument_selector ISA_ARGUMENT_ZERO_BITS_START 3 3 * (f1 - carry) +
    argument_selector ISA_ARGUMENT_ZERO_BITS_START 3 4 * carry in
  [instruction * conditional * (branch - expected);
   instruction * fixed * (branch - f1);
   instruction * (f1 - conditional - fixed) * branch].

Definition constrain_branch_routing_with_lookup : list F :=
  let instruction := mode INSTRUCTION_MODE in
  let branch := value TRACE_BRANCH_TAKEN in
  let conditional_operation :=
    operation_selector 3 + operation_selector 20 + operation_selector 28 + operation_selector 34 in
  let unconditional := conditional_operation * argument_selector ISA_ARGUMENT_ZERO_BITS_START 3 0 in
  let conditional := conditional_operation *
    (argument_selector ISA_ARGUMENT_ZERO_BITS_START 3 1 + argument_selector ISA_ARGUMENT_ZERO_BITS_START 3 2 +
     argument_selector ISA_ARGUMENT_ZERO_BITS_START 3 3 + argument_selector ISA_ARGUMENT_ZERO_BITS_START 3 4) in
  let fixed := unconditional + operation_selector 25 + operation_selector 26 + operation_selector 36 in
  [instruction * fixed * (branch - f1); instruction * (f1 - conditional - fixed) * branch].

Definition constrain_program_counter : list F :=
  let instruction := mode INSTRUCTION_MODE in
  let branch := value TRACE_BRANCH_TAKEN in
  let sequential := value TRACE_SEQUENTIAL_PC in
  let relative := operation_selector 3 in
  let return_operation := operation_selector 20 in
  let return_interrupt := operation_selector 25 in
  let jump_hl := operation_selector 26 in
  let absolute_jump := operation_selector 28 in
  let call := operation_selector 34 in
  let restart := operation_selector 36 in
  let control := relative + return_operation + return_interrupt + jump_hl + absolute_jump + call + restart in
  let low := value TRACE_IMMEDIATE_LOW in
  let high := value TRACE_IMMEDIATE_HIGH in
  let immediate_word := low + lit 256 * high in
  let sign := value (TRACE_IMMEDIATE_LOW_BITS_START + 7) in
  let underflow := value TRACE_CONTROL_UNDERFLOW in
  let overflow := value TRACE_CONTROL_OVERFLOW in
  let relative_taken := instruction * relative * branch in
  let relative_target := sequential + low - lit 256 * sign + lit 65536 * underflow - lit 65536 * overflow in
  let hl := before REGISTER_H * lit 256 + before REGISTER_L in
  let popped := bus_field 1 BUS_VALUE_OFFSET + lit 256 * bus_field 2 BUS_VALUE_OFFSET in
  [instruction * (f1 - control) * (after STATE_PC - sequential);
   underflow * overflow;
   (f1 - relative_taken) * underflow;
   (f1 - relative_taken) * overflow;
   instruction * relative * (after STATE_PC - branch * relative_target - (f1 - branch) * sequential);
   instruction * (absolute_jump + call) * (after STATE_PC - branch * immediate_word - (f1 - branch) * sequential);
   instruction * jump_hl * (after STATE_PC - hl);
   instruction * return_operation * (after STATE_PC - branch * popped - (f1 - branch) * sequential);
   instruction * return_interrupt * (after STATE_PC - popped);
   instruction * restart *
     (after STATE_PC - lit 8 * packed_bits (TRACE_ISA_OUTPUT_START + ISA_ARGUMENT_ZERO_BITS_START) 3)].

Definition constrain_instruction_flow : list F :=
  constrain_instruction_witness ++ constrain_fetch_alignment ++ constrain_branch_decision ++ constrain_program_counter.
Definition constrain_instruction_flow_with_lookup : list F :=
  constrain_instruction_witness ++ constrain_fetch_alignment ++ constrain_branch_routing_with_lookup ++
  constrain_program_counter.
End control.
End Control.

Module Data.
Section data.
Context {F : Type} `{!FieldOps F, !RowView F}.
Local Open Scope field_scope.

Definition register_word (high low : Z) : F := before high * lit 256 + before low.
Definition selected_byte_source (argument_start width : Z) : F :=
  foldl (λ selected '(argument, state), selected + argument_selector argument_start width argument * before state)
    f0 register_routes +
  argument_selector argument_start width 6 * bus_field 1 BUS_VALUE_OFFSET.

Definition constrain_immediate_loads (instruction : F) : list F :=
  let low := value TRACE_IMMEDIATE_LOW in
  let high := value TRACE_IMMEDIATE_HIGH in
  let word := low + lit 256 * high in
  let load16 := operation_selector 4 in
  let sp := argument_selector ISA_ARGUMENT_ZERO_BITS_START 3 3 in
  let load8 := operation_selector 11 in
  let memory := argument_selector ISA_ARGUMENT_ZERO_BITS_START 3 6 in
  let selected := instruction * load8 * memory in
  let hl := register_word REGISTER_H REGISTER_L in
  let stop := operation_selector 2 in
  for_each word_register_routes (λ '(argument, high_state, low_state),
    let route := argument_selector ISA_ARGUMENT_ZERO_BITS_START 3 argument in
    [instruction * load16 * route * (after high_state - high); instruction * load16 * route * (after low_state - low)]) ++
  [instruction * load16 * sp * (after STATE_SP - word)] ++
  map (λ '(argument, state),
    let route := argument_selector ISA_ARGUMENT_ZERO_BITS_START 3 argument in
    instruction * load8 * route * (after state - low)) register_routes ++
  [selected * (bus_field 2 BUS_ADDRESS_OFFSET - hl);
   selected * (bus_field 2 BUS_VALUE_OFFSET - low);
   instruction * stop * low].

Definition constrain_store_sp (instruction : F) : list F :=
  let store := operation_selector 1 in
  let wrap := value TRACE_ADDRESS_WRAP in
  let address := value TRACE_IMMEDIATE_LOW + lit 256 * value TRACE_IMMEDIATE_HIGH in
  let low := packed_bits TRACE_BEFORE_SP_BITS_START 8 in
  let high := packed_bits (TRACE_BEFORE_SP_BITS_START + 8) 8 in
  [boolean wrap;
   instruction * store * (bus_field 3 BUS_ADDRESS_OFFSET - address);
   instruction * store * (bus_field 3 BUS_VALUE_OFFSET - low);
   instruction * store * (bus_field 4 BUS_ADDRESS_OFFSET - address - f1 + lit 65536 * wrap);
   instruction * store * (bus_field 4 BUS_VALUE_OFFSET - high);
   (f1 - instruction * store) * wrap].

Definition constrain_load8 (instruction : F) : list F :=
  let load := operation_selector 17 in
  let operand := value TRACE_OPERAND_VALUE in
  let selected_source := selected_byte_source ISA_ARGUMENT_ONE_BITS_START 4 in
  let memory := argument_selector ISA_ARGUMENT_ZERO_BITS_START 3 6 in
  let selected := instruction * load * memory in
  let hl := register_word REGISTER_H REGISTER_L in
  [instruction * load * (operand - selected_source)] ++
  map (λ '(argument, state),
    let route := argument_selector ISA_ARGUMENT_ZERO_BITS_START 3 argument in
    instruction * load * route * (after state - operand)) register_routes ++
  [selected * (bus_field 1 BUS_ADDRESS_OFFSET - hl); selected * (bus_field 1 BUS_VALUE_OFFSET - operand)].

Definition constrain_directional_transfer (operation : F) (direction_start direction_width slot : Z) (address : F) : list F :=
  let direction_in := argument_selector direction_start direction_width 0 in
  let direction_out := argument_selector direction_start direction_width 1 in
  [operation * (bus_field slot BUS_ADDRESS_OFFSET - address);
   operation * direction_in * (after REGISTER_A - bus_field slot BUS_VALUE_OFFSET);
   operation * direction_out * (bus_field slot BUS_VALUE_OFFSET - before REGISTER_A)].

Definition constrain_accumulator_transfers (instruction : F) : list F :=
  let indirect := operation_selector 6 in
  let bc := register_word REGISTER_B REGISTER_C in
  let de := register_word REGISTER_D REGISTER_E in
  let hl := register_word REGISTER_H REGISTER_L in
  let address :=
    argument_selector ISA_ARGUMENT_ZERO_BITS_START 3 0 * bc + argument_selector ISA_ARGUMENT_ZERO_BITS_START 3 1 * de +
    (argument_selector ISA_ARGUMENT_ZERO_BITS_START 3 2 + argument_selector ISA_ARGUMENT_ZERO_BITS_START 3 3) * hl in
  let immediate_high := operation_selector 21 in
  let high_address := lit 0xff00 + value TRACE_IMMEDIATE_LOW in
  let register_high := operation_selector 29 in
  let c_address := lit 0xff00 + before REGISTER_C in
  let absolute := operation_selector 30 in
  let absolute_address := value TRACE_IMMEDIATE_LOW + lit 256 * value TRACE_IMMEDIATE_HIGH in
  constrain_directional_transfer (instruction * indirect) ISA_ARGUMENT_ONE_BITS_START 4 1 address ++
  constrain_directional_transfer (instruction * immediate_high) ISA_ARGUMENT_ZERO_BITS_START 3 2 high_address ++
  constrain_directional_transfer (instruction * register_high) ISA_ARGUMENT_ZERO_BITS_START 3 1 c_address ++
  constrain_directional_transfer (instruction * absolute) ISA_ARGUMENT_ZERO_BITS_START 3 3 absolute_address.

Definition constrain_simple_flag_operations (instruction : F) : list F :=
  let zero := before_flag_bit 7 in
  let carry := before_flag_bit 4 in
  let complement := operation_selector 14 in
  let set_carry := operation_selector 15 in
  let complement_carry := operation_selector 16 in
  [instruction * complement * (after REGISTER_A + before REGISTER_A - lit 255);
   instruction * complement * (after STATE_FLAGS - zero * lit 128 - lit 96 - carry * lit 16);
   instruction * set_carry * (after STATE_FLAGS - zero * lit 128 - lit 16);
   instruction * complement_carry * (after STATE_FLAGS - zero * lit 128 - (f1 - carry) * lit 16)].

Definition constrain_low_power (instruction : F) : list F :=
  let stop := operation_selector 2 in
  let halt := operation_selector 18 in
  [instruction * stop * (after STATE_RUN_STATE - lit 2);
   instruction * halt * (after STATE_RUN_STATE - f1) * (after STATE_RUN_STATE - lit 3)].

Definition constrain_ime (instruction : F) : list F :=
  let ime_before := before STATE_IME in
  let ime_after := after STATE_IME in
  let disable := operation_selector 32 in
  let enable := operation_selector 33 in
  let reti := operation_selector 25 in
  let ordinary := f1 - disable - enable - reti in
  let case_zero := (ime_before - f1) * (ime_before - lit 2) in
  let case_one := ime_before * (ime_before - lit 2) in
  let case_two := ime_before * (ime_before - f1) in
  [instruction * disable * ime_after;
   instruction * reti * (ime_after - lit 2);
   instruction * ordinary * case_zero * ime_after;
   instruction * enable * case_zero * (ime_after - f1);
   instruction * (ordinary + enable) * case_one * (ime_after - lit 2);
   instruction * ordinary * case_two * (ime_after - lit 2);
   instruction * enable * case_two * (ime_after - f1)].

Definition constrain_data_and_simple_operations : list F :=
  let instruction := mode INSTRUCTION_MODE in
  constrain_immediate_loads instruction ++ constrain_store_sp instruction ++ constrain_load8 instruction ++
  constrain_accumulator_transfers instruction ++ constrain_simple_flag_operations instruction ++
  constrain_low_power instruction ++ constrain_ime instruction.
End data.
End Data.

Module Stack.
Section stack.
Context {F : Type} `{!FieldOps F, !RowView F}.
Local Open Scope field_scope.

Definition selected_stack_word : F :=
  foldl (λ selected '(argument, high, low),
    let word := before high * lit 256 + before low in
    selected + argument_selector ISA_ARGUMENT_ZERO_BITS_START 3 argument * word)
    f0 (word_register_routes ++ [(3, REGISTER_A, STATE_FLAGS)]).

Definition constrain_pushes (instruction : F) : list F :=
  let call := operation_selector 34 in
  let push := operation_selector 35 in
  let restart := operation_selector 36 in
  let branch := value TRACE_BRANCH_TAKEN in
  let call_taken := call * branch in
  let push_control := call_taken + push + restart in
  let push_group := call + push + restart in
  let wrap := value TRACE_STACK_WRAP in
  let first_wrap := value TRACE_STACK_FIRST_WRAP in
  let high_address := call_taken * bus_field 3 BUS_ADDRESS_OFFSET + (push + restart) * bus_field 1 BUS_ADDRESS_OFFSET in
  let low_address := call_taken * bus_field 4 BUS_ADDRESS_OFFSET + (push + restart) * bus_field 2 BUS_ADDRESS_OFFSET in
  let high_value := call_taken * bus_field 3 BUS_VALUE_OFFSET + (push + restart) * bus_field 1 BUS_VALUE_OFFSET in
  let low_value := call_taken * bus_field 4 BUS_VALUE_OFFSET + (push + restart) * bus_field 2 BUS_VALUE_OFFSET in
  let pushed_word := (call_taken + restart) * value TRACE_SEQUENTIAL_PC + push * selected_stack_word in
  [instruction * push_group * (after STATE_SP - before STATE_SP + lit 2 * push_control - lit 65536 * wrap);
   instruction * (high_address - push_control * (before STATE_SP - f1 + lit 65536 * first_wrap));
   instruction * (low_address - push_control * (before STATE_SP - lit 2 + lit 65536 * wrap));
   instruction * (low_value + lit 256 * high_value - pushed_word)].

Definition constrain_pops (instruction : F) : list F :=
  let return_operation := operation_selector 20 in
  let pop := operation_selector 24 in
  let reti := operation_selector 25 in
  let branch := value TRACE_BRANCH_TAKEN in
  let return_taken := return_operation * branch in
  let pop_control := return_taken + pop + reti in
  let pop_group := return_operation + pop + reti in
  let wrap := value TRACE_STACK_WRAP in
  let first_wrap := value TRACE_STACK_FIRST_WRAP in
  let low := bus_field 1 BUS_VALUE_OFFSET in
  let high := bus_field 2 BUS_VALUE_OFFSET in
  let af := argument_selector ISA_ARGUMENT_ZERO_BITS_START 3 3 in
  [instruction * pop_group * (after STATE_SP - before STATE_SP - lit 2 * pop_control + lit 65536 * wrap);
   instruction * pop_group * (bus_field 1 BUS_ADDRESS_OFFSET - pop_control * before STATE_SP);
   instruction * pop_group *
     (bus_field 2 BUS_ADDRESS_OFFSET - pop_control * (before STATE_SP + f1 - lit 65536 * first_wrap))] ++
  for_each word_register_routes (λ '(argument, high_state, low_state),
    let route := argument_selector ISA_ARGUMENT_ZERO_BITS_START 3 argument in
    [instruction * pop * route * (after high_state - high); instruction * pop * route * (after low_state - low)]) ++
  [instruction * pop * af * (after REGISTER_A - high);
   instruction * pop * af * (low - after STATE_FLAGS - value TRACE_POP_FLAGS_LOW_NIBBLE)].

Definition constrain_stack_witness_scope (instruction : F) : list F :=
  let branch := value TRACE_BRANCH_TAKEN in
  let stack_use :=
    instruction * (operation_selector 24 + operation_selector 25 + operation_selector 35 + operation_selector 36 +
      branch * (operation_selector 20 + operation_selector 34)) + mode INTERRUPT_MODE in
  let pop_af := instruction * operation_selector 24 * argument_selector ISA_ARGUMENT_ZERO_BITS_START 3 3 in
  [(f1 - stack_use) * value TRACE_STACK_WRAP;
   (f1 - stack_use) * value TRACE_STACK_FIRST_WRAP;
   (f1 - pop_af) * value TRACE_POP_FLAGS_LOW_NIBBLE].

Definition constrain_stack_operations : list F :=
  let instruction := mode INSTRUCTION_MODE in
  [boolean (value TRACE_STACK_WRAP); boolean (value TRACE_STACK_FIRST_WRAP)] ++
  map (λ bit, boolean (value (TRACE_POP_FLAGS_LOW_NIBBLE_BITS_START + bit))) (range 4) ++
  [value TRACE_POP_FLAGS_LOW_NIBBLE - packed_bits TRACE_POP_FLAGS_LOW_NIBBLE_BITS_START 4] ++
  constrain_pushes instruction ++ constrain_pops instruction ++ constrain_stack_witness_scope instruction.
End stack.
End Stack.

Module Machine.
Section machine.
Context {F : Type} `{!FieldOps F, !RowView F}.
Local Open Scope field_scope.

Definition constrain_machine_markers : list F :=
  let noop := mode DMA_BYTE_MODE in
  let halt := mode HALT_IDLE_MODE + mode HALT_UNTIL_VBLANK_MODE + mode HALT_UNTIL_SERIAL_MODE +
    mode HALT_UNTIL_TIMER_MODE + mode HALT_WAKE_MODE in
  let interrupt := mode INTERRUPT_MODE in
  let prefix := value (TRACE_ISA_ADDRESS_START + 8) in
  let opcode := packed_bits TRACE_ISA_ADDRESS_START 8 in
  [(noop + halt + interrupt) * prefix;
   noop * opcode;
   halt * (opcode - lit 0x76);
   interrupt * (opcode - lit 0xff)].

Definition constrain_passive_cpu_modes : list F :=
  let passive := mode HALT_IDLE_MODE + mode HALT_UNTIL_VBLANK_MODE + mode HALT_UNTIL_SERIAL_MODE +
    mode HALT_UNTIL_TIMER_MODE + mode DMA_BYTE_MODE in
  map (λ state, passive * (after state - before state)) (range STATE_CYCLES) ++
  [(mode HALT_IDLE_MODE + mode HALT_UNTIL_VBLANK_MODE + mode HALT_UNTIL_SERIAL_MODE + mode HALT_UNTIL_TIMER_MODE) *
     (before STATE_RUN_STATE - lit 1)].

Definition constrain_halt_wake : list F :=
  let wake := mode HALT_WAKE_MODE in
  map (λ state, wake * (after state - before state)) (range STATE_RUN_STATE) ++
  [wake * (before STATE_RUN_STATE - lit 1);
   wake * after STATE_RUN_STATE;
   wake * (after STATE_CYCLES - before STATE_CYCLES)].

Definition constrain_interrupt : list F :=
  let interrupt := mode INTERRUPT_MODE in
  let before_run := before STATE_RUN_STATE in
  let vector := foldl (λ vector '(source, address), vector + value (TRACE_INTERRUPT_START + source) * lit address)
    f0 (zip (range 5) [0x40; 0x48; 0x50; 0x58; 0x60]) in
  let wrap := value TRACE_STACK_WRAP in
  let first_wrap := value TRACE_STACK_FIRST_WRAP in
  let pc_high := packed_bits (TRACE_BEFORE_PC_BITS_START + 8) 8 in
  let pc_low := packed_bits TRACE_BEFORE_PC_BITS_START 8 in
  let source_sum := sum (map (λ source, value (TRACE_INTERRUPT_START + source)) (range TRACE_INTERRUPT_COUNT)) in
  [interrupt * before_run * (before_run - lit 1) * (before_run - lit 3);
   interrupt * (before STATE_IME - lit 2);
   interrupt * after STATE_IME;
   interrupt * after STATE_RUN_STATE] ++
  map (λ state, interrupt * (after state - before state)) (range STATE_PC) ++
  [interrupt * (after STATE_PC - vector);
   interrupt * (after STATE_SP - before STATE_SP + lit 2 - lit 65536 * wrap);
   interrupt * (bus_field 0 BUS_ADDRESS_OFFSET - before STATE_SP + lit 1 - lit 65536 * first_wrap);
   interrupt * (bus_field 1 BUS_ADDRESS_OFFSET - before STATE_SP + lit 2 - lit 65536 * wrap);
   interrupt * (bus_field 0 BUS_VALUE_OFFSET - pc_high);
   interrupt * (bus_field 1 BUS_VALUE_OFFSET - pc_low);
   interrupt * (source_sum - lit 1)].

Definition constrain_machine_cpu : list F :=
  constrain_machine_markers ++ constrain_passive_cpu_modes ++ constrain_halt_wake ++ constrain_interrupt.
End machine.
End Machine.
