(* ===== verification/CpuDevices.v ===== *)
(** * Interrupts, DMA, logs and registers in the CPU relation (crates/zksm83-jolt/src/cpu/{devices,logs,mmio,registers,memory,mbc3}.rs)

    The interrupt masks and the priority, OAM DMA, the cursors of the logs, the MMIO events and the registers
    they show, ordered mutable memory, and the mapper. One Module per file of the code. *)
From S2P Require Import Prelude Field Columns CpuRow.

Section selectors.
Context {F : Type} `{!FieldOps F, !RowView F}.
Local Open Scope field_scope.

(** [fixed_selector]; of width 8, [fixed_byte_selector]. *)
Definition fixed_selector (start width expected : Z) : F :=
  foldl (λ selector bit,
    let actual := value (start + bit) in
    if Z.land (Z.shiftr expected bit) 1 =? 1 then selector * actual else selector * (f1 - actual)) f1 (range width).
Definition fixed_byte_selector (start expected : Z) : F := fixed_selector start 8 expected.
Definition write_selector (slot address : Z) : F := bus_kind_selector slot 12 * low_address_selector slot address.
Definition or (left right : F) : F := left + right - left * right.
End selectors.

Module Devices.
Definition DMA_NEAR_END_INDICES : list Z := [155; 156; 157; 158; 159].

Section devices.
Context {F : Type} `{!FieldOps F, !RowView F}.
Local Open Scope field_scope.

Definition constrain_interrupt_masks : list F :=
  for_each [TRACE_BEFORE_INTERRUPT_REQUEST_BITS_START; TRACE_BEFORE_INTERRUPT_ENABLE_BITS_START;
            TRACE_AFTER_INTERRUPT_REQUEST_BITS_START; TRACE_AFTER_INTERRUPT_ENABLE_BITS_START] (λ start,
    map (λ bit, let value := value (start + bit) in value * (value - f1)) (range INTERRUPT_BITS)) ++
  [before STATE_INTERRUPT_REQUEST_INDEX - packed_bits TRACE_BEFORE_INTERRUPT_REQUEST_BITS_START INTERRUPT_BITS;
   before STATE_INTERRUPT_ENABLE_INDEX - packed_bits TRACE_BEFORE_INTERRUPT_ENABLE_BITS_START INTERRUPT_BITS;
   after STATE_INTERRUPT_REQUEST_INDEX - packed_bits TRACE_AFTER_INTERRUPT_REQUEST_BITS_START INTERRUPT_BITS;
   after STATE_INTERRUPT_ENABLE_INDEX - packed_bits TRACE_AFTER_INTERRUPT_ENABLE_BITS_START INTERRUPT_BITS].

Definition constrain_dma_snapshot (pack_start remaining_start : Z) : list F :=
  let index := packed_bits (pack_start + 8) 8 in
  let active := value (pack_start + 16) in
  let owed := packed_bits (pack_start + 24) 8 in
  let remaining := packed_bits remaining_start 8 in
  let owed_zero := zero_from_bits (pack_start + 24) 8 in
  map (λ bit, let value := value (remaining_start + bit) in value * (value - f1)) (range 8) ++
  [index + owed + remaining - lit 160;
   active * fixed_byte_selector (pack_start + 8) 160;
   (f1 - owed_zero) * (f1 - active);
   (f1 - active) * index * (index - lit 160)].

Definition dma_write_selector (slot : Z) : F :=
  bus_kind_selector slot 12 * fixed_byte_selector (TRACE_BUS_ADDRESS_BITS_START + slot * 16) 0x46.

Definition constrain_dma_scheduling (active : F) : list F :=
  let regular := mode INSTRUCTION_MODE + mode HALT_IDLE_MODE + mode INTERRUPT_MODE in
  let excluded := regular + mode DMA_BYTE_MODE in
  let quiet_long := mode HALT_UNTIL_VBLANK_MODE + mode HALT_UNTIL_SERIAL_MODE + mode HALT_UNTIL_TIMER_MODE in
  let after_owed := packed_bits (TRACE_AFTER_DMA_BITS_START + 24) 8 in
  let before_owed := packed_bits (TRACE_BEFORE_DMA_BITS_START + 24) 8 in
  let scheduled := foldl (λ scheduled cycle,
    let unavailable := foldl (λ unavailable index,
      unavailable + fixed_byte_selector (TRACE_BEFORE_DMA_BITS_START + 8) index)
      f0 (drop (Z.to_nat (5 - cycle)) DMA_NEAR_END_INDICES) in
    scheduled + value (TRACE_TIMER_M_CYCLE_ACTIVE_START + cycle) * (f1 - unavailable)) f0 (range 6) in
  [regular * (after_owed - active * scheduled);
   (f1 - excluded) * (after_owed - before_owed);
   quiet_long * active].

Definition constrain_dma_general_transition : list F :=
  let dma := mode DMA_BYTE_MODE in
  let general := f1 - dma in
  let source := packed_bits TRACE_BEFORE_DMA_BITS_START 8 in
  let index := packed_bits (TRACE_BEFORE_DMA_BITS_START + 8) 8 in
  let active := value (TRACE_BEFORE_DMA_BITS_START + 16) in
  let after_source := packed_bits TRACE_AFTER_DMA_BITS_START 8 in
  let after_index := packed_bits (TRACE_AFTER_DMA_BITS_START + 8) 8 in
  let after_active := value (TRACE_AFTER_DMA_BITS_START + 16) in
  let '(write, source_delta) := foldl (λ '(write, source_delta) slot,
    let selected := dma_write_selector slot in
    (write + selected, source_delta + selected * (bus_field slot BUS_VALUE_OFFSET - source))) (f0, f0) (range TRACE_BUS_SLOTS) in
  [general * (after_source - source - source_delta);
   general * (after_index - index * (f1 - write));
   general * (after_active - active - write * (f1 - active))] ++
  constrain_dma_scheduling active.

Definition constrain_dma_copy_bus (dma source index : F) : list F :=
  let source_kinds := bus_kind_selector 0 16 + bus_kind_selector 0 17 in
  let high_bit := value (TRACE_BEFORE_DMA_BITS_START + 7) in
  let bit i := value (TRACE_BEFORE_DMA_BITS_START + i) in
  let high_invalid := bit 7 * bit 6 * bit 5 in
  let index_over_159 := bit 15 * (bit 14 + bit 13 - bit 14 * bit 13) in
  [dma * (source_kinds - f1); dma * (bus_kind_selector 1 18 - f1)] ++
  map (λ slot, dma * bus_field slot 0) (seqZ 2 (TRACE_BUS_SLOTS - 2)) ++
  [dma * (bus_kind_selector 0 16 - f1 + high_bit);
   dma * (bus_field 0 BUS_ADDRESS_OFFSET - source * lit 256 - index);
   dma * (bus_field 1 BUS_ADDRESS_OFFSET - lit 0xfe00 - index);
   dma * (bus_field 1 BUS_VALUE_OFFSET - bus_field 0 BUS_VALUE_OFFSET);
   dma * high_invalid;
   dma * index_over_159].

Definition constrain_dma_priority_and_copy : list F :=
  let owed_zero := zero_from_bits (TRACE_BEFORE_DMA_BITS_START + 24) 8 in
  let owed := packed_bits (TRACE_BEFORE_DMA_BITS_START + 24) 8 in
  let dma := mode DMA_BYTE_MODE in
  let source := packed_bits TRACE_BEFORE_DMA_BITS_START 8 in
  let index := packed_bits (TRACE_BEFORE_DMA_BITS_START + 8) 8 in
  let after_source := packed_bits TRACE_AFTER_DMA_BITS_START 8 in
  let after_index := packed_bits (TRACE_AFTER_DMA_BITS_START + 8) 8 in
  let after_owed := packed_bits (TRACE_AFTER_DMA_BITS_START + 24) 8 in
  let last := fixed_byte_selector (TRACE_BEFORE_DMA_BITS_START + 8) 159 in
  [value TRACE_ACTIVE * (f1 - owed_zero) * (f1 - dma);
   dma * (owed_zero - lit 0);
   dma * (value (TRACE_BEFORE_DMA_BITS_START + 16) - f1);
   dma * (after_source - source);
   dma * (after_index - index - f1);
   dma * (after_owed - owed + f1);
   dma * (value (TRACE_AFTER_DMA_BITS_START + 16) - f1 + last)] ++
  map (λ state, dma * (after state - before state))
    (seqZ STATE_INTERRUPT_REQUEST_INDEX (STATE_DMA_PACK_INDEX - STATE_INTERRUPT_REQUEST_INDEX)) ++
  constrain_dma_copy_bus dma source index.

Definition constrain_dma_state : list F :=
  for_each [TRACE_BEFORE_DMA_BITS_START; TRACE_AFTER_DMA_BITS_START] (λ start,
    map (λ bit, let value := value (start + bit) in value * (value - f1)) (range 32) ++
    map (λ bit, value (start + bit)) (seqZ 17 7)) ++
  [before STATE_DMA_PACK_INDEX - packed_bits TRACE_BEFORE_DMA_BITS_START 32;
   after STATE_DMA_PACK_INDEX - packed_bits TRACE_AFTER_DMA_BITS_START 32] ++
  constrain_dma_snapshot TRACE_BEFORE_DMA_BITS_START TRACE_BEFORE_DMA_REMAINING_BITS_START ++
  constrain_dma_snapshot TRACE_AFTER_DMA_BITS_START TRACE_AFTER_DMA_REMAINING_BITS_START ++
  constrain_dma_general_transition ++
  constrain_dma_priority_and_copy.

Definition constrain_dma_cpu_access (slot : Z) (cpu dma_active : F) : list F :=
  let address := (TRACE_BUS_ADDRESS_BITS_START + slot * 16)%Z in
  map (λ bit, dma_active * cpu * (f1 - value (address + bit))) (seqZ 8 8) ++
  [dma_active * cpu * (f1 - value (address + 7)); dma_active * cpu * fixed_byte_selector address 0xff].

Definition oam_address_selector (slot : Z) : F :=
  let start := (TRACE_BUS_ADDRESS_BITS_START + slot * 16)%Z in
  let high_fe := foldl (λ high_fe bit, high_fe * value (start + bit)) (f1 - value (start + 8)) (seqZ 9 7) in
  let upper_low := value (start + 7) * or (value (start + 6)) (value (start + 5)) in
  high_fe * (f1 - upper_low).
Definition cpu_bus_selector (slot : Z) : F := sum (map (bus_kind_selector slot) (seqZ 1 15)).

Definition constrain_device_bus_access : list F :=
  let dma_active := value (TRACE_BEFORE_DMA_BITS_START + 16) in
  let lcd_enabled := value (TRACE_BEFORE_DMG_LOW_BITS_START + 39) in
  let visible := f1 - value TRACE_PPU_VBLANK in
  let mode_three := lcd_enabled * visible * (f1 - value TRACE_PPU_DOT_LT_80) * value TRACE_PPU_DOT_LT_252 in
  let mode_two_or_three := lcd_enabled * visible * value TRACE_PPU_DOT_LT_252 in
  for_each (range TRACE_BUS_SLOTS) (λ slot,
    let cpu := cpu_bus_selector slot in
    let address := (TRACE_BUS_ADDRESS_BITS_START + slot * 16)%Z in
    let vram := value (address + 15) * (f1 - value (address + 14)) * (f1 - value (address + 13)) in
    let oam := value (TRACE_CPU_OAM_ACCESS_START + slot) in
    constrain_dma_cpu_access slot cpu dma_active ++
    [oam * (oam - f1); oam - oam_address_selector slot; cpu * mode_three * vram; cpu * mode_two_or_three * oam]).

Definition pending_bit (bit : Z) : F :=
  value (TRACE_BEFORE_INTERRUPT_REQUEST_BITS_START + bit) * value (TRACE_BEFORE_INTERRUPT_ENABLE_BITS_START + bit).
Definition pending_bits : list F := map pending_bit (range 5).
Definition any (bits : list F) : F := f1 - foldl (λ none bit, none * (f1 - bit)) f1 bits.

Definition constrain_priority (pending : list F) : list F :=
  let interrupt := mode INTERRUPT_MODE in
  (foldl (λ '(pushed, higher_clear) '(source, bit),
    let priority := bit * higher_clear in
    (pushed ++ [value (TRACE_INTERRUPT_START + source) - interrupt * priority], higher_clear * (f1 - bit)))
    ([], f1) (zip (range 5) pending)).1.

Definition constrain_mode_selection (pending : F) : list F :=
  let ime := before STATE_IME in
  let ime_enabled_scaled := ime * (ime - f1) in
  let instruction := mode INSTRUCTION_MODE in
  let wake := mode HALT_WAKE_MODE in
  let sleeping :=
    mode HALT_IDLE_MODE + mode HALT_UNTIL_VBLANK_MODE + mode HALT_UNTIL_SERIAL_MODE + mode HALT_UNTIL_TIMER_MODE in
  let halt := instruction * operation_selector 18 in
  let not_enabled_scaled := lit 2 - ime_enabled_scaled in
  [instruction * ime_enabled_scaled * pending;
   wake * (pending - f1);
   wake * ime_enabled_scaled;
   sleeping * pending;
   halt * (after STATE_RUN_STATE - f1 - pending * not_enabled_scaled)].

Definition constrain_interrupt_control : list F :=
  let pending := pending_bits in
  let pending_any := value TRACE_PENDING_INTERRUPT in
  constrain_interrupt_masks ++ constrain_dma_state ++ constrain_device_bus_access ++
  [pending_any * (pending_any - f1); pending_any - any pending] ++
  constrain_priority pending ++ constrain_mode_selection pending_any.
End devices.
End Devices.

Module Logs.
Definition INPUT_PORT : Z := 0xfff0.
Definition OUTPUT_PORT : Z := 0xfff1.

Section logs.
Context {F : Type} `{!FieldOps F, !RowView F}.
Local Open Scope field_scope.

Definition constrain_plain_log_tuple (slot : Z) (selected : F) (address : Z) : list F :=
  [selected * (bus_field slot BUS_ADDRESS_OFFSET - lit address)] ++
  map (λ offset, selected * bus_field slot offset)
    [BUS_PHYSICAL_ADDRESS_OFFSET; BUS_BEFORE_OFFSET; BUS_AUXILIARY_OFFSET].

(** The counters are the sums over the slots before the current one. *)
Definition constrain_cursors_and_log_events : list F :=
  let input slot := selector_product (bus_kind_bits slot) 6 + selector_product (bus_kind_bits slot) 13 in
  let public_output slot := selector_product (bus_kind_bits slot) 7 in
  let count f slots := sum (map f (range slots)) in
  for_each (range TRACE_BUS_SLOTS) (λ slot,
    let index := bus_field slot BUS_INDEX_OFFSET in
    [input slot * (index - before STATE_INPUT_NEXT_INDEX - count input slot);
     public_output slot * (index - before STATE_OUTPUT_NEXT_INDEX - count public_output slot)] ++
    constrain_plain_log_tuple slot (selector_product (bus_kind_bits slot) 6) INPUT_PORT ++
    constrain_plain_log_tuple slot (public_output slot) OUTPUT_PORT) ++
  [after STATE_BUS_NEXT_INDEX - before STATE_BUS_NEXT_INDEX - count (λ slot, bus_field slot 0) TRACE_BUS_SLOTS;
   after STATE_ISA_NEXT_INDEX - before STATE_ISA_NEXT_INDEX - value TRACE_ACTIVE;
   after STATE_INPUT_NEXT_INDEX - before STATE_INPUT_NEXT_INDEX - count input TRACE_BUS_SLOTS;
   after STATE_OUTPUT_NEXT_INDEX - before STATE_OUTPUT_NEXT_INDEX - count public_output TRACE_BUS_SLOTS].
End logs.
End Logs.

Module Mmio.
Section mmio.
Context {F : Type} `{!FieldOps F, !RowView F}.
Local Open Scope field_scope.

Definition constrain_high_byte (slot : Z) (selected : F) : list F :=
  let start := (TRACE_BUS_ADDRESS_BITS_START + slot * 16)%Z in
  map (λ bit, selected * (value (start + bit) - f1)) (seqZ 8 8).

Definition allowed (slot : Z) (includes_joypad : bool) : F :=
  sum (map (low_address_selector slot)
    ((if includes_joypad then [0x00] else []) ++ [0x01; 0x02; 0x04; 0x05; 0x06; 0x07; 0x0f; 0xff] ++
     seqZ 0x10 0x30 ++ seqZ 0x40 0x0c)).
Definition allowed_read (slot : Z) : F := allowed slot false.
Definition allowed_write (slot : Z) : F := allowed slot true.

Definition constrain_tuple (slot : Z) (read write joypad : F) : list F :=
  let plain := read + write in
  map (λ offset, plain * bus_field slot offset) [BUS_PHYSICAL_ADDRESS_OFFSET; BUS_AUXILIARY_OFFSET; BUS_INDEX_OFFSET] ++
  [read * bus_field slot BUS_BEFORE_OFFSET;
   joypad * (bus_field slot BUS_ADDRESS_OFFSET - lit 0xff00);
   joypad * bus_field slot BUS_PHYSICAL_ADDRESS_OFFSET].

Definition constrain_interrupt_registers (slot : Z) (read write : F) : list F :=
  let request := low_address_selector slot 0x0f in
  let enable := low_address_selector slot 0xff in
  let value := bus_field slot BUS_VALUE_OFFSET in
  let prior := bus_field slot BUS_BEFORE_OFFSET in
  let visible_request := lit 0xe0 + before STATE_INTERRUPT_REQUEST_INDEX in
  [read * request * (value - visible_request);
   write * request * (prior - visible_request);
   read * enable * (value - before STATE_INTERRUPT_ENABLE_INDEX);
   write * enable * (prior - before STATE_INTERRUPT_ENABLE_INDEX)].

Definition constrain_mmio_events : list F :=
  let enable_update := foldl (λ enable_update slot,
    let enable_write := bus_kind_selector slot 12 * low_address_selector slot 0xff in
    let value := packed_bits (TRACE_BUS_VALUE_BITS_START + slot * 8) 5 in
    enable_update + enable_write * (value - before STATE_INTERRUPT_ENABLE_INDEX)) f0 (range TRACE_BUS_SLOTS) in
  for_each (range TRACE_BUS_SLOTS) (λ slot,
    let read := bus_kind_selector slot 11 in
    let write := bus_kind_selector slot 12 in
    let joypad := bus_kind_selector slot 13 in
    let mmio := read + write in
    constrain_high_byte slot mmio ++
    [read * (allowed_read slot - f1); write * (allowed_write slot - f1)] ++
    constrain_tuple slot read write joypad ++
    constrain_interrupt_registers slot read write) ++
  [after STATE_INTERRUPT_ENABLE_INDEX - before STATE_INTERRUPT_ENABLE_INDEX - enable_update].
End mmio.
End Mmio.

Module Registers.
Section registers.
Context {F : Type} `{!FieldOps F, !RowView F}.
Local Open Scope field_scope.

Definition constrain_bits (start width : Z) : list F := map (λ bit, boolean (value (start + bit))) (range width).
Definition byte (start byte : Z) : F := packed_bits (start + byte * 8) 8.

Definition constrain_register_bits : list F :=
  for_each
    [(TRACE_BEFORE_DMG_LOW_BITS_START, 64); (TRACE_BEFORE_DMG_HIGH_BITS_START, 64);
     (TRACE_AFTER_DMG_LOW_BITS_START, 64); (TRACE_AFTER_DMG_HIGH_BITS_START, 64);
     (TRACE_BEFORE_TIMER_DIV_BITS_START, 16); (TRACE_BEFORE_TIMER_COUNTER_BITS_START, 8);
     (TRACE_BEFORE_TIMER_PHASE_BITS_START, 3); (TRACE_BEFORE_PPU_LINE_BITS_START, 8);
     (TRACE_BEFORE_PPU_DOT_BITS_START, 9)] (λ '(start, width), constrain_bits start width) ++
  map (λ '(state, start, width), before state - packed_bits start width)
    [(STATE_DMG_LOW_REGISTER_PACK_INDEX, TRACE_BEFORE_DMG_LOW_BITS_START, 64);
     (STATE_DMG_HIGH_REGISTER_PACK_INDEX, TRACE_BEFORE_DMG_HIGH_BITS_START, 64);
     (STATE_PPU_LINE_INDEX, TRACE_BEFORE_PPU_LINE_BITS_START, 8);
     (STATE_PPU_DOT_INDEX, TRACE_BEFORE_PPU_DOT_BITS_START, 9);
     (STATE_TIMER_DIV_INDEX, TRACE_BEFORE_TIMER_DIV_BITS_START, 16);
     (STATE_TIMER_COUNTER_INDEX, TRACE_BEFORE_TIMER_COUNTER_BITS_START, 8);
     (STATE_TIMER_RELOAD_PHASE_INDEX, TRACE_BEFORE_TIMER_PHASE_BITS_START, 3)] ++
  [after STATE_DMG_LOW_REGISTER_PACK_INDEX - packed_bits TRACE_AFTER_DMG_LOW_BITS_START 64;
   after STATE_DMG_HIGH_REGISTER_PACK_INDEX - packed_bits TRACE_AFTER_DMG_HIGH_BITS_START 64] ++
  for_each [TRACE_BEFORE_DMG_LOW_BITS_START; TRACE_AFTER_DMG_LOW_BITS_START] (λ start,
    map (λ bit, value (start + bit)) [27; 28; 29; 30; 31; 40; 41; 42; 47]) ++
  [boolean (before STATE_TIMER_EDGE_LATCH_INDEX); boolean (after STATE_TIMER_EDGE_LATCH_INDEX)].

Definition constrain_full_byte_write (address before_start after_start byte_index : Z) : list F :=
  let before := byte before_start byte_index in
  let after := byte after_start byte_index in
  let delta := foldl (λ delta slot,
    let write := bus_kind_selector slot 12 * low_address_selector slot address in
    delta + write * (bus_field slot BUS_VALUE_OFFSET - before)) f0 (range TRACE_BUS_SLOTS) in
  [after - before - delta].
Definition constrain_masked_byte_write (address byte_index : Z) (admitted_bits : list Z) : list F :=
  let before := byte TRACE_BEFORE_DMG_LOW_BITS_START byte_index in
  let after := byte TRACE_AFTER_DMG_LOW_BITS_START byte_index in
  let delta := foldl (λ delta slot,
    let write := bus_kind_selector slot 12 * low_address_selector slot address in
    let written := foldl (λ written bit,
      written + lit (Z.shiftl 1 bit) * value (TRACE_BUS_VALUE_BITS_START + slot * 8 + bit)) f0 admitted_bits in
    delta + write * (written - before)) f0 (range TRACE_BUS_SLOTS) in
  [after - before - delta].
Definition constrain_static_register_writes : list F :=
  for_each
    [(0x06, TRACE_BEFORE_DMG_LOW_BITS_START, TRACE_AFTER_DMG_LOW_BITS_START, 2);
     (0x40, TRACE_BEFORE_DMG_LOW_BITS_START, TRACE_AFTER_DMG_LOW_BITS_START, 4);
     (0x42, TRACE_BEFORE_DMG_LOW_BITS_START, TRACE_AFTER_DMG_LOW_BITS_START, 6);
     (0x43, TRACE_BEFORE_DMG_LOW_BITS_START, TRACE_AFTER_DMG_LOW_BITS_START, 7);
     (0x45, TRACE_BEFORE_DMG_HIGH_BITS_START, TRACE_AFTER_DMG_HIGH_BITS_START, 5);
     (0x47, TRACE_BEFORE_DMG_HIGH_BITS_START, TRACE_AFTER_DMG_HIGH_BITS_START, 0);
     (0x48, TRACE_BEFORE_DMG_HIGH_BITS_START, TRACE_AFTER_DMG_HIGH_BITS_START, 1);
     (0x49, TRACE_BEFORE_DMG_HIGH_BITS_START, TRACE_AFTER_DMG_HIGH_BITS_START, 2);
     (0x4a, TRACE_BEFORE_DMG_HIGH_BITS_START, TRACE_AFTER_DMG_HIGH_BITS_START, 3);
     (0x4b, TRACE_BEFORE_DMG_HIGH_BITS_START, TRACE_AFTER_DMG_HIGH_BITS_START, 4)]
    (λ '(address, before, after, byte_index), constrain_full_byte_write address before after byte_index) ++
  constrain_masked_byte_write 0x07 3 [0; 1; 2] ++
  constrain_masked_byte_write 0x41 5 [3; 4; 5; 6].

Definition constrain_timer_and_ppu_ranges : list F :=
  let phase i := value (TRACE_BEFORE_TIMER_PHASE_BITS_START + i) in
  let line i := value (TRACE_BEFORE_PPU_LINE_BITS_START + i) in
  let dot i := value (TRACE_BEFORE_PPU_DOT_BITS_START + i) in
  [phase 2 * phase 1;
   line 7 * line 6;
   line 7 * line 5;
   line 7 * line 4 * line 3 * or (line 2) (line 1)] ++
  map (λ bit, dot 8 * dot 7 * dot 6 * dot bit) [5; 4; 3].

Definition constrain_ppu_position_predicates : list F :=
  let line i := value (TRACE_BEFORE_PPU_LINE_BITS_START + i) in
  let dot i := value (TRACE_BEFORE_PPU_DOT_BITS_START + i) in
  let above_79 := dot 6 * or (dot 5) (dot 4) in
  let below_80 := (f1 - dot 8) * (f1 - dot 7) * (f1 - above_79) in
  let at_least_252_low := foldl (λ product bit, product * dot bit) f1 (seqZ 2 6) in
  let below_252 := (f1 - dot 8) * (f1 - at_least_252_low) in
  [value TRACE_PPU_VBLANK - line 7 * line 4;
   value TRACE_PPU_DOT_LT_80 - below_80;
   value TRACE_PPU_DOT_LT_252 - below_252].

Definition constrain_ppu_mode : list F :=
  let enabled := value (TRACE_BEFORE_DMG_LOW_BITS_START + 39) in
  let vblank := value TRACE_PPU_VBLANK in
  let below_80 := value TRACE_PPU_DOT_LT_80 in
  let below_252 := value TRACE_PPU_DOT_LT_252 in
  let visible := vblank + (f1 - vblank) * (lit 2 * below_80 + lit 3 * (f1 - below_80) * below_252) in
  [packed_bits TRACE_PPU_MODE_BITS_START 2 - enabled * visible].

Definition constrain_ppu_coincidence : list F :=
  let equal := foldl (λ equal bit,
    let line := value (TRACE_BEFORE_PPU_LINE_BITS_START + bit) in
    let compare := value (TRACE_BEFORE_DMG_HIGH_BITS_START + 40 + bit) in
    equal * (f1 - line - compare + lit 2 * line * compare)) f1 (range 8) in
  [value TRACE_PPU_COINCIDENCE - equal].

Definition constrain_ppu_predicates : list F :=
  let phase i := value (TRACE_BEFORE_TIMER_PHASE_BITS_START + i) in
  map (λ column, boolean (value column))
    [TRACE_TIMER_PHASE_FIVE; TRACE_PPU_VBLANK; TRACE_PPU_DOT_LT_80; TRACE_PPU_DOT_LT_252; TRACE_PPU_MODE_BITS_START;
     (TRACE_PPU_MODE_BITS_START + 1)%Z; TRACE_PPU_COINCIDENCE] ++
  [value TRACE_TIMER_PHASE_FIVE - phase 0 * (f1 - phase 1) * phase 2] ++
  constrain_ppu_position_predicates ++ constrain_ppu_mode ++ constrain_ppu_coincidence.

Definition visible_registers : list (Z * F) :=
  let low := TRACE_BEFORE_DMG_LOW_BITS_START in
  let high := TRACE_BEFORE_DMG_HIGH_BITS_START in
  let tma := byte low 2 in
  let counter := packed_bits TRACE_BEFORE_TIMER_COUNTER_BITS_START 8 in
  let tima := counter + value TRACE_TIMER_PHASE_FIVE * (tma - counter) in
  let mode := packed_bits TRACE_PPU_MODE_BITS_START 2 in
  let status := lit 0x80 + byte low 5 + lit 4 * value TRACE_PPU_COINCIDENCE + mode in
  [(0x01, byte low 0); (0x02, byte low 1); (0x04, byte TRACE_BEFORE_TIMER_DIV_BITS_START 1); (0x05, tima); (0x06, tma);
   (0x07, lit 0xf8 + byte low 3); (0x0f, lit 0xe0 + before STATE_INTERRUPT_REQUEST_INDEX); (0x40, byte low 4);
   (0x41, status); (0x42, byte low 6); (0x43, byte low 7); (0x44, packed_bits TRACE_BEFORE_PPU_LINE_BITS_START 8);
   (0x45, byte high 5); (0x46, byte TRACE_BEFORE_DMA_BITS_START 0); (0x47, byte high 0); (0x48, byte high 1);
   (0x49, byte high 2); (0x4a, byte high 3); (0x4b, byte high 4); (0xff, before STATE_INTERRUPT_ENABLE_INDEX)].

Definition constrain_mmio_values : list F :=
  for_each (range TRACE_BUS_SLOTS) (λ slot,
    let read := bus_kind_selector slot 11 in
    let write := bus_kind_selector slot 12 in
    let '(supported, expected) := foldl (λ '(supported, expected) '(address, value),
      let selector := low_address_selector slot address in
      (supported + selector, expected + selector * value)) (f0, f0) visible_registers in
    [read * (supported * bus_field slot BUS_VALUE_OFFSET - expected);
     write * (supported * bus_field slot BUS_BEFORE_OFFSET - expected)]).

Definition constrain_visible_registers : list F :=
  constrain_register_bits ++ constrain_timer_and_ppu_ranges ++ constrain_ppu_predicates ++
  constrain_static_register_writes ++ constrain_mmio_values.
End registers.
End Registers.

Module MemoryEvents.
Section memory.
Context {F : Type} `{!FieldOps F, !RowView F}.
Local Open Scope field_scope.

Definition memory_slot_start (slot : Z) : Z := TRACE_MEMORY_START + slot * TRACE_MEMORY_SLOT_WIDTH.
Definition selector_sum (bits : list F) (codes : list Z) : F := sum (map (selector_product bits) codes).
Definition constrain_row_bits : list F :=
  map (λ bit, boolean (value (TRACE_ROW_BITS_START + bit))) (range TRACE_ROW_BIT_COUNT).

(** The pushed values of [constrain_selected_bits]; it returns the packed bits. *)
Definition constrain_selected_bits (selected : F) (start : Z) : list F :=
  for_each (range TRACE_MEMORY_TIMESTAMP_BITS) (λ bit,
    [boolean (value (start + bit)); (f1 - selected) * value (start + bit)]).

Definition constrain_physical_mapping (selected : F) (slot : Z) : list F :=
  let address_start := (TRACE_BUS_ADDRESS_BITS_START + slot * 16)%Z in
  let physical_start := (TRACE_BUS_PHYSICAL_BITS_START + slot * ROM_ADDRESS_BIT_COUNT)%Z in
  let address := packed_bits address_start 16 in
  let physical := packed_bits physical_start ROM_ADDRESS_BIT_COUNT in
  let external := value (address_start + 15) * (f1 - value (address_start + 14)) * value (address_start + 13) in
  let bank_start := TRACE_BEFORE_RAM_RTC_BITS_START in
  let bank := packed_bits bank_start 4 in
  let mapped := address + external * (lit 0x6000 + bank * lit 0x2000) in
  [selected * external * (f1 - before STATE_MBC3_RAM_ENABLED);
   selected * external * value (bank_start + 2);
   selected * external * value (bank_start + 3);
   selected * (physical - mapped)] ++
  map (λ bit, selected * value (physical_start + bit)) (seqZ 17 (ROM_ADDRESS_BIT_COUNT - 17)).

Definition constrain_slot (row : F) (slot : Z) : list F :=
  let start := memory_slot_start slot in
  let selected := value (start + TRACE_MEMORY_SELECTOR_OFFSET) in
  let write := value (start + TRACE_MEMORY_WRITE_SELECTOR_OFFSET) in
  let kinds := bus_kind_bits slot in
  let read := selector_sum kinds [4; 14; 15; 17] in
  let expected_write := selector_sum kinds [5; 18] in
  let predecessor := packed_bits (start + TRACE_MEMORY_PREDECESSOR_BITS_OFFSET) TRACE_MEMORY_TIMESTAMP_BITS in
  let delta := packed_bits (start + TRACE_MEMORY_DELTA_BITS_OFFSET) TRACE_MEMORY_TIMESTAMP_BITS in
  let current := row * lit TRACE_BUS_SLOTS + lit (slot + 1) in
  [boolean selected; boolean write; selected - read - expected_write; write - expected_write;
   value (start + TRACE_MEMORY_BEFORE_OFFSET) - write * bus_field slot BUS_BEFORE_OFFSET -
     read * bus_field slot BUS_VALUE_OFFSET;
   value (start + TRACE_MEMORY_AFTER_OFFSET) - selected * bus_field slot BUS_VALUE_OFFSET] ++
  constrain_selected_bits selected (start + TRACE_MEMORY_PREDECESSOR_BITS_OFFSET) ++
  constrain_selected_bits selected (start + TRACE_MEMORY_DELTA_BITS_OFFSET) ++
  [selected * (predecessor + delta + f1 - current)] ++
  constrain_physical_mapping selected slot.

Definition constrain_memory_events : list F :=
  let row := packed_bits TRACE_ROW_BITS_START TRACE_ROW_BIT_COUNT in
  constrain_row_bits ++ for_each (range TRACE_BUS_SLOTS) (constrain_slot row).
End memory.
End MemoryEvents.

Module Mapper.
Section mapper.
Context {F : Type} `{!FieldOps F, !RowView F}.
Local Open Scope field_scope.

Definition constrain_rom_mapping : list F :=
  let bank := before STATE_MBC3_ROM_BANK in
  for_each (range TRACE_BUS_SLOTS) (λ slot,
    let selected := value (TRACE_ROM_SELECTOR_START + slot) in
    let address_bits := (TRACE_BUS_ADDRESS_BITS_START + slot * 16)%Z in
    let physical_bits := (TRACE_BUS_PHYSICAL_BITS_START + slot * ROM_ADDRESS_BIT_COUNT)%Z in
    let address := packed_bits address_bits 16 in
    let physical := packed_bits physical_bits ROM_ADDRESS_BIT_COUNT in
    let bank_window := value (address_bits + 14) in
    let outside_rom := value (address_bits + 15) in
    let expected := address + bank_window * (bank - f1) * lit 0x4000 in
    [selected * outside_rom; selected * (physical - expected)]).

(** [nibble_selector] *)
Definition nibble_selector (select_bits expected : Z) : F :=
  foldl (λ product bit,
    let witness := value (select_bits + bit) in
    product * (if Z.land expected (Z.shiftl 1 bit) =? 0 then f1 - witness else witness)) f1 (range 4).
Definition rtc_register_selected (select_bits : Z) : F := sum (map (nibble_selector select_bits) (seqZ 0x08 5)).

Definition constrain_external_ram_policy : option (list F) :=
  let ram_enabled := before STATE_MBC3_RAM_ENABLED in
  let select_bits := TRACE_BEFORE_RAM_RTC_BITS_START in
  let available := ram_enabled * (f1 - value (select_bits + 2)) * (f1 - value (select_bits + 3)) in
  let rtc_register_selected := rtc_register_selected select_bits in
  rtc_profile ← profile_rtc_selector (before STATE_PROFILE);
  Some (for_each (range TRACE_BUS_SLOTS) (λ slot,
    let open_read := bus_kind_selector slot 9 in
    let ignored_write := bus_kind_selector slot 10 in
    let selected := open_read + ignored_write in
    let address := (TRACE_BUS_ADDRESS_BITS_START + slot * 16)%Z in
    [selected * (f1 - value (address + 15));
     selected * value (address + 14);
     selected * (f1 - value (address + 13));
     selected * available;
     selected * bus_field slot BUS_PHYSICAL_ADDRESS_OFFSET;
     selected * bus_field slot BUS_BEFORE_OFFSET;
     selected * bus_field slot BUS_AUXILIARY_OFFSET;
     selected * bus_field slot BUS_INDEX_OFFSET;
     selected * rtc_profile * rtc_register_selected;
     open_read * (bus_field slot BUS_VALUE_OFFSET - lit 0xff)])).

Definition control_segments (control : F) (address_bits : Z) : F * F * F * F :=
  let bit_thirteen := value (address_bits + 13) in
  let bit_fourteen := value (address_bits + 14) in
  (control * (f1 - bit_fourteen) * (f1 - bit_thirteen),
   control * (f1 - bit_fourteen) * bit_thirteen,
   control * bit_fourteen * (f1 - bit_thirteen),
   control * bit_fourteen * bit_thirteen).
Definition ram_enable_value (value_bits : Z) : F :=
  (f1 - value value_bits) * value (value_bits + 1) * (f1 - value (value_bits + 2)) * value (value_bits + 3).
Definition mapped_rom_bank (value_bits : Z) : option F :=
  size_256kib ← profile_256kib_selector (before STATE_PROFILE);
  let one_mib_bank := packed_bits value_bits 6 + zero_from_bits value_bits 6 in
  let smaller_bank := packed_bits value_bits 4 + zero_from_bits value_bits 4 in
  Some (size_256kib * smaller_bank + (f1 - size_256kib) * one_mib_bank).

(** One slot of the loop of [constrain_mapper_updates]: its pushed values, and what it adds to the sums. *)
Definition mapper_slot (slot : Z) : option (list F * (F * F * F * F)) :=
  let control := bus_kind_selector slot 8 in
  let address_bits := (TRACE_BUS_ADDRESS_BITS_START + slot * 16)%Z in
  let value_bits := (TRACE_BUS_VALUE_BITS_START + slot * 8)%Z in
  let '(ram_segment, bank_segment, select_segment, _) := control_segments control address_bits in
  rom_bank ← mapped_rom_bank value_bits;
  Some ([control * value (address_bits + 15); control * bus_field slot BUS_PHYSICAL_ADDRESS_OFFSET],
    (control,
     ram_segment * (ram_enable_value value_bits - before STATE_MBC3_RAM_ENABLED),
     bank_segment * (rom_bank - before STATE_MBC3_ROM_BANK),
     select_segment * (packed_bits value_bits 4 - before STATE_MBC3_RAM_RTC_SELECT))).
Definition constrain_mapper_updates : option (list F) :=
  '(pushed, (control_count, ram_update, bank_update, select_update)) ← foldl (λ acc slot,
    '(pushed, (control_count, ram_update, bank_update, select_update)) ← acc;
    '(values, (control, ram, bank, select)) ← mapper_slot slot;
    Some (pushed ++ values, (control_count + control, ram_update + ram, bank_update + bank, select_update + select)))
    (Some ([], (f0, f0, f0, f0))) (range TRACE_BUS_SLOTS);
  Some (pushed ++
    [boolean control_count;
     after STATE_MBC3_RAM_ENABLED - before STATE_MBC3_RAM_ENABLED - ram_update;
     after STATE_MBC3_ROM_BANK - before STATE_MBC3_ROM_BANK - bank_update;
     after STATE_MBC3_RAM_RTC_SELECT - before STATE_MBC3_RAM_RTC_SELECT - select_update]).

Definition constrain_mapper_and_rom : option (list F) :=
  policy ← constrain_external_ram_policy;
  updates ← constrain_mapper_updates;
  Some (constrain_rom_mapping ++ policy ++ updates).
End mapper.
End Mapper.
