(* ===== verification/CpuPeripherals.v ===== *)
(** * Serial, timer and joypad in the CPU relation (crates/zksm83-jolt/src/cpu/{serial,timer,joypad}.rs)

    The devices that a row steps: the serial countdown, the 24 T-cycles of the timer and its long transitions,
    and the lines of the joypad after each bus slot. One Module per file of the code. *)
From S2P Require Import Prelude Field Columns CpuRow CpuDevices.

Module Serial.
Section serial.
Context {F : Type} `{!FieldOps F, !RowView F}.
Local Open Scope field_scope.

Definition constrain_countdown_range (start : Z) : list F :=
  map (λ bit, value (start + 12) * value (start + bit)) (range 12) ++
  if start =? TRACE_AFTER_DMG_HIGH_BITS_START + 48 then map (λ bit, value (start + bit)) (seqZ 13 3) else [].

Definition constrain_witness_ranges : list F :=
  for_each [(TRACE_SERIAL_POST_DATA_BITS_START, 8); (TRACE_SERIAL_POST_CONTROL_BITS_START, 8);
            (TRACE_SERIAL_POST_COUNTDOWN_BITS_START, 13); (TRACE_SERIAL_COMPLETION_GAP_BITS_START, 5)] (λ '(start, width),
    map (λ bit, boolean (value (start + bit))) (range width)) ++
  map (λ column, boolean (value column)) [TRACE_SERIAL_POST_ACTIVE; TRACE_SERIAL_AFTER_ZERO; TRACE_SERIAL_COMPLETED] ++
  constrain_countdown_range TRACE_SERIAL_POST_COUNTDOWN_BITS_START ++
  constrain_countdown_range (TRACE_AFTER_DMG_HIGH_BITS_START + 48).

Definition constrain_post_byte (address before_start post_start : Z) : list F :=
  let before := packed_bits before_start 8 in
  let post := packed_bits post_start 8 in
  let delta := foldl (λ delta slot,
    delta + write_selector slot address * (bus_field slot BUS_VALUE_OFFSET - before)) f0 (range TRACE_BUS_SLOTS) in
  [post - before - delta].

Definition constrain_post_write_state : list F :=
  let before := packed_bits (TRACE_BEFORE_DMG_HIGH_BITS_START + 48) 16 in
  let after := packed_bits TRACE_SERIAL_POST_COUNTDOWN_BITS_START 13 in
  let delta := foldl (λ delta slot,
    let write := write_selector slot 0x02 in
    let start := (TRACE_BUS_VALUE_BITS_START + slot * 8)%Z in
    let starts_transfer := value start * value (start + 7) in
    delta + write * (lit 4096 * starts_transfer - before)) f0 (range TRACE_BUS_SLOTS) in
  constrain_post_byte 0x01 TRACE_BEFORE_DMG_LOW_BITS_START TRACE_SERIAL_POST_DATA_BITS_START ++
  constrain_post_byte 0x02 (TRACE_BEFORE_DMG_LOW_BITS_START + 8) TRACE_SERIAL_POST_CONTROL_BITS_START ++
  [after - before - delta].

Definition constrain_completion_boundary (post active completed ticks : F) : list F :=
  let advancing := mode INSTRUCTION_MODE + mode HALT_IDLE_MODE + mode INTERRUPT_MODE + mode HALT_UNTIL_SERIAL_MODE in
  let quiet_long := mode HALT_UNTIL_VBLANK_MODE + mode HALT_UNTIL_TIMER_MODE in
  let gap := packed_bits TRACE_SERIAL_COMPLETION_GAP_BITS_START 5 in
  [(f1 - completed) * gap;
   advancing * completed * (gap - ticks + post);
   quiet_long * active;
   quiet_long * value (TRACE_SERIAL_POST_CONTROL_BITS_START + 7)].

Definition constrain_countdown : list F :=
  let post := packed_bits TRACE_SERIAL_POST_COUNTDOWN_BITS_START 13 in
  let after := packed_bits (TRACE_AFTER_DMG_HIGH_BITS_START + 48) 16 in
  let active := value TRACE_SERIAL_POST_ACTIVE in
  let after_zero := value TRACE_SERIAL_AFTER_ZERO in
  let completed := value TRACE_SERIAL_COMPLETED in
  let ticks := lit 4 * value TRACE_CYCLE_INCREMENT in
  [active - (f1 - zero_from_bits TRACE_SERIAL_POST_COUNTDOWN_BITS_START 13);
   after_zero - zero_from_bits (TRACE_AFTER_DMG_HIGH_BITS_START + 48) 13;
   completed - active * after_zero;
   after - post + active * (f1 - completed) * ticks + completed * post] ++
  constrain_completion_boundary post active completed ticks.

Definition constrain_halt_serial_guard : list F :=
  let selected := mode HALT_UNTIL_SERIAL_MODE in
  [selected * (value TRACE_SERIAL_COMPLETED - f1);
   selected * packed_bits TRACE_SERIAL_COMPLETION_GAP_BITS_START 5;
   selected * (value TRACE_SERIAL_POST_CONTROL_BITS_START - f1);
   selected * (value (TRACE_SERIAL_POST_CONTROL_BITS_START + 7) - f1);
   selected * (value (TRACE_BEFORE_INTERRUPT_ENABLE_BITS_START + 3) - f1);
   selected * value (TRACE_BEFORE_DMG_LOW_BITS_START + 39)].

Definition constrain_completion_outputs : list F :=
  let completed := value TRACE_SERIAL_COMPLETED in
  let post_data := packed_bits TRACE_SERIAL_POST_DATA_BITS_START 8 in
  let after_data := packed_bits TRACE_AFTER_DMG_LOW_BITS_START 8 in
  let post_control := packed_bits TRACE_SERIAL_POST_CONTROL_BITS_START 8 in
  let after_control := packed_bits (TRACE_AFTER_DMG_LOW_BITS_START + 8) 8 in
  [after_data - post_data - completed * (lit 0xff - post_data);
   after_control - post_control + lit 128 * completed * value (TRACE_SERIAL_POST_CONTROL_BITS_START + 7)].

Definition constrain_interrupt : list F :=
  let initial := value (TRACE_BEFORE_INTERRUPT_REQUEST_BITS_START + 3) - value (TRACE_INTERRUPT_START + 3) in
  let after_write := foldl (λ after_write slot,
    let write := write_selector slot 0x0f in
    let written := value (TRACE_BUS_VALUE_BITS_START + slot * 8 + 3) in
    after_write + write * (written - initial)) initial (range TRACE_BUS_SLOTS) in
  let completed := value TRACE_SERIAL_COMPLETED in
  let expected := after_write + (f1 - after_write) * completed in
  [value (TRACE_AFTER_INTERRUPT_REQUEST_BITS_START + 3) - expected].

Definition constrain_serial : list F :=
  constrain_witness_ranges ++ constrain_post_write_state ++ constrain_countdown ++ constrain_halt_serial_guard ++
  constrain_completion_outputs ++ constrain_interrupt.
End serial.
End Serial.

Module TimerRows.
Section timer.
Context {F : Type} `{!FieldOps F, !RowView F}.
Local Open Scope field_scope.

Definition stage_start (tick : Z) : Z := TRACE_TIMER_STAGE_START + tick * TRACE_TIMER_STAGE_WIDTH.
Definition event_selector (address : Z) : F := sum (map (λ slot, write_selector slot address) (range TRACE_BUS_SLOTS)).

Definition constrain_phase_range (start : Z) : list F := [value (start + 2) * value (start + 1)].
Definition constrain_timer_state_range (start : Z) (includes_reload : bool) : list F :=
  map (λ bit, boolean (value (start + bit))) (range 29) ++
  constrain_phase_range (start + 24) ++
  if includes_reload
  then map (λ bit, boolean (value (start + bit))) (seqZ 29 12) ++ constrain_phase_range (start + 37)
  else [].
Definition constrain_ranges : list F :=
  constrain_timer_state_range TRACE_TIMER_POST_STATE_START false ++
  map (λ bit, boolean (value (TRACE_TIMER_AFTER_FF05_BITS_START + bit))) (range 8) ++
  for_each (range 24) (λ tick, constrain_timer_state_range (stage_start tick) true) ++
  map (λ bit, boolean (value (TRACE_TIMER_LONG_QUOTIENT_BITS_START + bit))) (range 5) ++
  map (λ bit, boolean (value (TRACE_TIMER_INTERRUPT_GAP_BITS_START + bit))) (range 2).

Definition constrain_cycle_selectors : list F :=
  let regular := mode INSTRUCTION_MODE + mode HALT_IDLE_MODE + mode INTERRUPT_MODE in
  let '(pushed, sum, _) := foldl (λ '(pushed, sum, prior) cycle,
    let active := value (TRACE_TIMER_M_CYCLE_ACTIVE_START + cycle) in
    (pushed ++ [boolean active; active * (f1 - prior)], sum + active, active)) ([], f0, f1) (range 6) in
  pushed ++ [sum - regular * value TRACE_CYCLE_INCREMENT].

Definition constrain_post_divider : list F :=
  let before := packed_bits TRACE_BEFORE_TIMER_DIV_BITS_START 16 in
  let post := packed_bits TRACE_TIMER_POST_STATE_START 16 in
  let write := event_selector 0x04 in
  [post - before * (f1 - write)].

Definition constrain_post_counter : list F :=
  let before := packed_bits TRACE_BEFORE_TIMER_COUNTER_BITS_START 8 in
  let modulo_before := packed_bits (TRACE_BEFORE_DMG_LOW_BITS_START + 16) 8 in
  let phase_five := value TRACE_TIMER_PHASE_FIVE in
  let mid := packed_bits TRACE_TIMER_AFTER_FF05_BITS_START 8 in
  let first_delta := foldl (λ first_delta slot,
    let write := write_selector slot 0x05 in
    let written := bus_field slot BUS_VALUE_OFFSET in
    let replacement := phase_five * modulo_before + (f1 - phase_five) * written in
    first_delta + write * (replacement - before)) f0 (range TRACE_BUS_SLOTS) in
  let post := packed_bits (TRACE_TIMER_POST_STATE_START + 16) 8 in
  let second_delta := foldl (λ second_delta slot,
    let write := write_selector slot 0x06 in
    second_delta + write * phase_five * (bus_field slot BUS_VALUE_OFFSET - mid)) f0 (range TRACE_BUS_SLOTS) in
  [mid - before - first_delta; post - mid - second_delta].

Definition constrain_post_phase : list F :=
  let before := packed_bits TRACE_BEFORE_TIMER_PHASE_BITS_START 3 in
  let post := packed_bits (TRACE_TIMER_POST_STATE_START + 24) 3 in
  let write := event_selector 0x05 in
  let phase_five := value TRACE_TIMER_PHASE_FIVE in
  [post - before + write * (f1 - phase_five) * before].

Definition constrain_post_interrupt : list F :=
  let initial := value (TRACE_BEFORE_INTERRUPT_REQUEST_BITS_START + 2) - value (TRACE_INTERRUPT_START + 2) in
  let post := foldl (λ post slot,
    let write := write_selector slot 0x0f in
    let written := value (TRACE_BUS_VALUE_BITS_START + slot * 8 + 2) in
    post + write * (written - initial)) initial (range TRACE_BUS_SLOTS) in
  [value (TRACE_TIMER_POST_STATE_START + 28) - post].

Definition constrain_post_write : list F :=
  constrain_post_divider ++ constrain_post_counter ++ constrain_post_phase ++
  [value (TRACE_TIMER_POST_STATE_START + 27) - before STATE_TIMER_EDGE_LATCH_INDEX] ++
  constrain_post_interrupt.

Definition constrain_reload (current next : Z) : list F :=
  let phase := packed_bits (current + 24) 3 in
  let phase_five := fixed_selector (current + 24) 3 5 in
  let phase_nonzero := f1 - zero_from_bits (current + 24) 3 in
  let counter := packed_bits (current + 16) 8 in
  let modulo := packed_bits (TRACE_AFTER_DMG_LOW_BITS_START + 16) 8 in
  let reload_counter := packed_bits (next + 29) 8 in
  let reload_phase := packed_bits (next + 37) 3 in
  [reload_counter - counter - phase_five * (modulo - counter);
   reload_phase - phase - phase_nonzero * (f1 - phase_five) + phase_five * phase].

Definition constrain_divider_tick (current next : Z) (active : F) : list F :=
  let before := packed_bits current 16 in
  let after := packed_bits next 16 in
  let wrap := value (next + 40) in
  [boolean wrap;
   wrap - fixed_selector current 16 65535;
   after - before - active + lit 65536 * active * wrap].

Definition constrain_counter_tick (current next : Z) (active falling : F) : list F :=
  let counter := packed_bits (current + 16) 8 in
  let phase := packed_bits (current + 24) 3 in
  let reload_counter := packed_bits (next + 29) 8 in
  let reload_phase := packed_bits (next + 37) 3 in
  let counter_full := fixed_selector (next + 29) 8 0xff in
  let overflow := falling * counter_full in
  let after_counter := packed_bits (next + 16) 8 in
  let after_phase := packed_bits (next + 24) 3 in
  [after_counter - counter - active * (reload_counter - counter + falling - lit 256 * overflow);
   after_phase - phase - active * (reload_phase - phase + overflow * (f1 - reload_phase))].

Definition constrain_latch_and_interrupt (current next : Z) (active detector : F) : list F :=
  let latch := value (current + 27) in
  let interrupt := value (current + 28) in
  let phase_five := fixed_selector (current + 24) 3 5 in
  [value (next + 27) - latch - active * (detector - latch);
   value (next + 28) - interrupt - active * (f1 - interrupt) * phase_five].

Definition detector_input (divider_start : Z) : F :=
  let control := (TRACE_AFTER_DMG_LOW_BITS_START + 24)%Z in
  let bit_zero := value control in
  let bit_one := value (control + 1) in
  let selected :=
    (f1 - bit_zero) * (f1 - bit_one) * value (divider_start + 9) + bit_zero * (f1 - bit_one) * value (divider_start + 3) +
    (f1 - bit_zero) * bit_one * value (divider_start + 5) + bit_zero * bit_one * value (divider_start + 7) in
  value (control + 2) * selected.

Definition constrain_tick (tick : Z) : list F :=
  let current := if tick =? 0 then TRACE_TIMER_POST_STATE_START else stage_start (tick - 1) in
  let next := stage_start tick in
  let active := value (TRACE_TIMER_M_CYCLE_ACTIVE_START + tick / 4) in
  let detector := detector_input next in
  let falling := value (current + 27) * (f1 - detector) in
  constrain_reload current next ++
  constrain_divider_tick current next active ++
  constrain_counter_tick current next active falling ++
  constrain_latch_and_interrupt current next active detector.

(** The period, the remainder of the divider and whether the period is the fastest. *)
Definition timer_period_and_remainder : F * F * F :=
  let control := (TRACE_AFTER_DMG_LOW_BITS_START + 24)%Z in
  let bit_zero := value control in
  let bit_one := value (control + 1) in
  let slow := (f1 - bit_zero) * (f1 - bit_one) in
  let fastest := bit_zero * (f1 - bit_one) in
  let medium := (f1 - bit_zero) * bit_one in
  let fast := bit_zero * bit_one in
  let period := lit 1024 * slow + lit 16 * fastest + lit 64 * medium + lit 256 * fast in
  let start := TRACE_TIMER_POST_STATE_START in
  let remainder :=
    slow * packed_bits start 10 + fastest * packed_bits start 4 + medium * packed_bits start 6 + fast * packed_bits start 8 in
  (period, remainder, fastest).

Definition constrain_quiet_long_transition (selected : F) : list F :=
  [selected * value (TRACE_AFTER_DMG_LOW_BITS_START + 26);
   selected * value (TRACE_TIMER_POST_STATE_START + 27);
   selected * (after STATE_TIMER_COUNTER_INDEX - packed_bits (TRACE_TIMER_POST_STATE_START + 16) 8);
   selected * after STATE_TIMER_EDGE_LATCH_INDEX;
   selected * (value (TRACE_AFTER_INTERRUPT_REQUEST_BITS_START + 2) - value (TRACE_TIMER_POST_STATE_START + 28))].

Definition constrain_timer_interrupt_transition (selected : F) : list F :=
  let gap := packed_bits TRACE_TIMER_INTERRUPT_GAP_BITS_START 2 in
  let post_latch := value (TRACE_TIMER_POST_STATE_START + 27) in
  let '(period, remainder, fastest) := timer_period_and_remainder in
  let post_counter := packed_bits (TRACE_TIMER_POST_STATE_START + 16) 8 in
  let interrupt_t_cycles := period - remainder + (lit 255 - post_counter) * period + lit 5 in
  let modulo := packed_bits (TRACE_AFTER_DMG_LOW_BITS_START + 16) 8 in
  let gap_three := value TRACE_TIMER_INTERRUPT_GAP_BITS_START * value (TRACE_TIMER_INTERRUPT_GAP_BITS_START + 1) in
  [(f1 - selected) * gap;
   selected * (value (TRACE_AFTER_DMG_LOW_BITS_START + 26) - f1);
   selected * (value (TRACE_BEFORE_INTERRUPT_ENABLE_BITS_START + 2) - f1);
   selected * value (TRACE_BEFORE_DMG_LOW_BITS_START + 39);
   selected * (post_latch - detector_input TRACE_TIMER_POST_STATE_START);
   selected * (lit 4 * value TRACE_CYCLE_INCREMENT - interrupt_t_cycles - gap);
   selected * (after STATE_TIMER_COUNTER_INDEX - modulo);
   selected * (after STATE_TIMER_EDGE_LATCH_INDEX - fastest * gap_three);
   selected * (value (TRACE_AFTER_INTERRUPT_REQUEST_BITS_START + 2) - f1)].

Definition constrain_long_transition (long quiet_long timer_long : F) : list F :=
  let quotient := packed_bits TRACE_TIMER_LONG_QUOTIENT_BITS_START 5 in
  let post_div := packed_bits TRACE_TIMER_POST_STATE_START 16 in
  [(f1 - long) * quotient;
   long * packed_bits (TRACE_TIMER_POST_STATE_START + 24) 3;
   long * (after STATE_TIMER_DIV_INDEX - post_div - lit 4 * value TRACE_CYCLE_INCREMENT + lit 65536 * quotient);
   long * after STATE_TIMER_RELOAD_PHASE_INDEX] ++
  constrain_quiet_long_transition quiet_long ++
  constrain_timer_interrupt_transition timer_long.

Definition constrain_final_state : list F :=
  let quiet_long := mode HALT_UNTIL_VBLANK_MODE + mode HALT_UNTIL_SERIAL_MODE in
  let timer_long := mode HALT_UNTIL_TIMER_MODE in
  let long := quiet_long + timer_long in
  let nonlong := f1 - long in
  let last := stage_start 23 in
  map (λ '(state, offset, width), nonlong * (after state - packed_bits (last + offset) width))
    [(STATE_TIMER_DIV_INDEX, 0, 16); (STATE_TIMER_COUNTER_INDEX, 16, 8); (STATE_TIMER_RELOAD_PHASE_INDEX, 24, 3)] ++
  [nonlong * (after STATE_TIMER_EDGE_LATCH_INDEX - value (last + 27));
   nonlong * (value (TRACE_AFTER_INTERRUPT_REQUEST_BITS_START + 2) - value (last + 28))] ++
  constrain_long_transition long quiet_long timer_long.

Definition constrain_timer : list F :=
  constrain_ranges ++ constrain_cycle_selectors ++ constrain_post_write ++ for_each (range 24) constrain_tick ++
  constrain_final_state.
End timer.
End TimerRows.

Module Joypad.
Section joypad.
Context {F : Type} `{!FieldOps F, !RowView F}.
Local Open Scope field_scope.

Definition select_value (start : Z) : F := lit 16 * value start + lit 32 * value (start + 1).
Definition joypad_pack (start : Z) : F := select_value start + lit 256 * packed_bits (start + 2) 8.
Definition visible_low_bit_mixed (select_start button_start bit : Z) : F :=
  let direction := f1 - (f1 - value select_start) * value (button_start + 2 + bit) in
  let action := f1 - (f1 - value (select_start + 1)) * value (button_start + 6 + bit) in
  direction * action.
Definition visible_low_bit (start bit : Z) : F := visible_low_bit_mixed start start bit.
Definition visible_byte (start : Z) : F :=
  foldl (λ value bit, value + lit (Z.shiftl 1 bit) * visible_low_bit start bit) (lit 0xc0 + select_value start) (range 4).
(** [bit] is one of 0..7. *)
Definition visible_bit (select_start button_start bit : Z) : F :=
  if bit <=? 3 then visible_low_bit_mixed select_start button_start bit
  else if bit <=? 5 then value (select_start + bit - 4)
  else f1.
Definition line_fall (current next bit : Z) : F := visible_low_bit current bit * (f1 - visible_low_bit next bit).

Definition constrain_state_bits (start : Z) : list F :=
  map (λ bit, boolean (value (start + bit))) (range TRACE_JOYPAD_STAGE_WIDTH).

Definition constrain_bus_values (slot current next : Z) (read write : F) : list F :=
  let current_buttons := packed_bits (current + 2) 8 in
  let next_buttons := packed_bits (next + 2) 8 in
  let visible_before := visible_byte current in
  [read * (bus_field slot BUS_BEFORE_OFFSET - current_buttons);
   read * (bus_field slot BUS_AUXILIARY_OFFSET - next_buttons);
   write * (bus_field slot BUS_BEFORE_OFFSET - visible_before)] ++
  map (λ bit,
    let actual := value (TRACE_BUS_VALUE_BITS_START + slot * 8 + bit) in
    read * (actual - visible_bit current next bit)) (range 8).

Definition constrain_slot_state (slot current next : Z) : list F :=
  let read := bus_kind_selector slot 13 in
  let write := value (TRACE_JOYPAD_WRITE_START + slot) in
  let current_buttons := packed_bits (current + 2) 8 in
  let next_buttons := packed_bits (next + 2) 8 in
  let current_select := select_value current in
  let next_select := select_value next in
  let written_select :=
    value (TRACE_BUS_VALUE_BITS_START + slot * 8 + 4) * lit 16 + value (TRACE_BUS_VALUE_BITS_START + slot * 8 + 5) * lit 32 in
  [boolean write;
   write - bus_kind_selector slot 12 * low_address_selector slot 0x00;
   next_buttons - current_buttons - read * (bus_field slot BUS_AUXILIARY_OFFSET - current_buttons);
   next_select - current_select - write * (written_select - current_select)] ++
  constrain_bus_values slot current next read write.

(** The pushed values, and whether a line falls. *)
Definition constrain_falling (slot current next : Z) : list F * F :=
  let fall bit := line_fall current next bit in
  let first := value (TRACE_JOYPAD_FALL_NONE_START + slot * 2) in
  let second := value (TRACE_JOYPAD_FALL_NONE_START + slot * 2 + 1) in
  ([first - (f1 - fall 0) * (f1 - fall 1); second - (f1 - fall 2) * (f1 - fall 3)], f1 - first * second).

(** The pushed values, and the interrupt bit after the slot. *)
Definition constrain_if (slot : Z) (current falling : F) : list F * F :=
  let write := bus_kind_selector slot 12 * low_address_selector slot 0x0f in
  let written := value (TRACE_BUS_VALUE_BITS_START + slot * 8 + 4) in
  let after_write := current + write * (written - current) in
  let next := value (TRACE_JOYPAD_IF_BIT_START + slot) in
  ([boolean next; next - after_write - (f1 - after_write) * falling], next).

Definition constrain_joypad : list F :=
  let initial_if := value (TRACE_BEFORE_INTERRUPT_REQUEST_BITS_START + 4) - value (TRACE_INTERRUPT_START + 4) in
  let '(pushed, current_start, current_if) := foldl (λ '(pushed, current_start, current_if) slot,
    let next_start := (TRACE_JOYPAD_STAGE_BITS_START + slot * TRACE_JOYPAD_STAGE_WIDTH)%Z in
    let '(falls, falling) := constrain_falling slot current_start next_start in
    let '(ifs, next_if) := constrain_if slot current_if falling in
    (pushed ++ constrain_state_bits next_start ++ constrain_slot_state slot current_start next_start ++ falls ++ ifs,
     next_start, next_if)) ([], TRACE_BEFORE_JOYPAD_BITS_START, initial_if) (range TRACE_BUS_SLOTS) in
  constrain_state_bits TRACE_BEFORE_JOYPAD_BITS_START ++
  [before STATE_JOYPAD_PACK_INDEX - joypad_pack TRACE_BEFORE_JOYPAD_BITS_START] ++
  pushed ++
  [after STATE_JOYPAD_PACK_INDEX - joypad_pack current_start;
   value (TRACE_AFTER_INTERRUPT_REQUEST_BITS_START + 4) - current_if].
End joypad.
End Joypad.
