(* ===== verification/CpuMedia.v ===== *)
(** * Picture and sound in the CPU relation (crates/zksm83-jolt/src/cpu/{ppu,apu}.rs)

    The position of the picture, its interrupts and the status line, and the registers of the sound unit. One
    Module per file of the code. *)
From S2P Require Import Prelude Apu Field Columns CpuRow CpuDevices.

Module Ppu.
Definition FRAME_T_CYCLES : Z := 70224.
Definition VBLANK_T_CYCLE : Z := 65664.
Record StatColumns := MkStatColumns {
  sc_register_start : Z; sc_vblank : Z; sc_below_80 : Z; sc_below_252 : Z; sc_coincidence : Z; sc_signal : Z
}.

Section ppu.
Context {F : Type} `{!FieldOps F, !RowView F}.
Local Open Scope field_scope.

Definition position (line_start dot_start : Z) : F := lit 456 * packed_bits line_start 8 + packed_bits dot_start 9.

Definition constrain_line_range (start : Z) : list F :=
  let bit_two_or_one := or (value (start + 2)) (value (start + 1)) in
  [value (start + 7) * value (start + 6);
   value (start + 7) * value (start + 5);
   value (start + 7) * value (start + 4) * value (start + 3) * bit_two_or_one].
Definition constrain_dot_range (start : Z) : list F :=
  map (λ bit, value (start + 8) * value (start + 7) * value (start + 6) * value (start + bit)) [5; 4; 3].

Definition constrain_witness_ranges : list F :=
  for_each
    [(TRACE_AFTER_PPU_LINE_BITS_START, 8); (TRACE_AFTER_PPU_DOT_BITS_START, 9); (TRACE_PPU_FRAME_QUOTIENT_BITS_START, 5);
     (TRACE_PPU_VBLANK_GAP_BITS_START, 21); (TRACE_PPU_POST_LINE_BITS_START, 8); (TRACE_PPU_POST_DOT_BITS_START, 9);
     (TRACE_PPU_STAT_GAP_BITS_START, 9)] (λ '(start, width),
    map (λ bit, boolean (value (start + bit))) (range width)) ++
  map (λ column, boolean (value column))
    [TRACE_PPU_LCD_DISABLE; TRACE_PPU_VBLANK_EVENT; TRACE_PPU_POST_VBLANK; TRACE_PPU_POST_DOT_LT_80;
     TRACE_PPU_POST_DOT_LT_252; TRACE_PPU_POST_COINCIDENCE; TRACE_PPU_AFTER_VBLANK; TRACE_PPU_AFTER_DOT_LT_80;
     TRACE_PPU_AFTER_DOT_LT_252; TRACE_PPU_AFTER_COINCIDENCE; TRACE_PPU_STAT_BEFORE; TRACE_PPU_STAT_POST_WRITE;
     TRACE_PPU_STAT_AFTER; TRACE_PPU_STAT_RELEVANT_WRITE; TRACE_PPU_STAT_BOUNDARY_CROSSED; TRACE_PPU_STAT_EVENT] ++
  constrain_line_range TRACE_AFTER_PPU_LINE_BITS_START ++ constrain_dot_range TRACE_AFTER_PPU_DOT_BITS_START ++
  constrain_line_range TRACE_PPU_POST_LINE_BITS_START ++ constrain_dot_range TRACE_PPU_POST_DOT_BITS_START ++
  [after STATE_PPU_LINE_INDEX - packed_bits TRACE_AFTER_PPU_LINE_BITS_START 8;
   after STATE_PPU_DOT_INDEX - packed_bits TRACE_AFTER_PPU_DOT_BITS_START 9].

Definition constrain_disabled_state : list F :=
  let before_enabled := value (TRACE_BEFORE_DMG_LOW_BITS_START + 39) in
  let disable := foldl (λ disable slot,
    let selected := write_selector slot 0x40 in
    let enabled := value (TRACE_BUS_VALUE_BITS_START + slot * 8 + 7) in
    disable + selected * (f1 - enabled)) f0 (range TRACE_BUS_SLOTS) in
  [(f1 - before_enabled) * before STATE_PPU_LINE_INDEX;
   (f1 - before_enabled) * before STATE_PPU_DOT_INDEX;
   value TRACE_PPU_LCD_DISABLE - disable].

Definition constrain_post_write_position : list F :=
  let keep := f1 - value TRACE_PPU_LCD_DISABLE in
  for_each [(TRACE_BEFORE_PPU_LINE_BITS_START, TRACE_PPU_POST_LINE_BITS_START, 8);
            (TRACE_BEFORE_PPU_DOT_BITS_START, TRACE_PPU_POST_DOT_BITS_START, 9)] (λ '(before, post, width),
    map (λ bit, value (post + bit) - keep * value (before + bit)) (range width)).
Definition constrain_position : list F :=
  let enabled := value (TRACE_AFTER_DMG_LOW_BITS_START + 39) in
  let post := position TRACE_PPU_POST_LINE_BITS_START TRACE_PPU_POST_DOT_BITS_START in
  let total := post + lit 4 * value TRACE_CYCLE_INCREMENT in
  let after := position TRACE_AFTER_PPU_LINE_BITS_START TRACE_AFTER_PPU_DOT_BITS_START in
  let quotient := packed_bits TRACE_PPU_FRAME_QUOTIENT_BITS_START 5 in
  constrain_post_write_position ++
  [after - enabled * (total - lit FRAME_T_CYCLES * quotient); (f1 - enabled) * quotient].

Definition constrain_vblank_event : list F :=
  let enabled := value (TRACE_AFTER_DMG_LOW_BITS_START + 39) in
  let post := position TRACE_PPU_POST_LINE_BITS_START TRACE_PPU_POST_DOT_BITS_START in
  let total := post + lit 4 * value TRACE_CYCLE_INCREMENT in
  let post_vblank := value TRACE_PPU_POST_VBLANK in
  let next := lit VBLANK_T_CYCLE + lit FRAME_T_CYCLES * post_vblank in
  let event := value TRACE_PPU_VBLANK_EVENT in
  let gap := packed_bits TRACE_PPU_VBLANK_GAP_BITS_START 21 in
  let crossed_gap := total - next in
  let before_gap := next - total - f1 in
  [enabled * (gap - event * crossed_gap - (f1 - event) * before_gap);
   (f1 - enabled) * event;
   (f1 - enabled) * gap;
   mode HALT_UNTIL_VBLANK_MODE * (total - next)].

Definition constrain_halt_vblank_guard : list F :=
  let selected := mode HALT_UNTIL_VBLANK_MODE in
  [selected * (value (TRACE_BEFORE_DMG_LOW_BITS_START + 39) - f1);
   selected * (value TRACE_BEFORE_INTERRUPT_ENABLE_BITS_START - f1);
   selected * value (TRACE_BEFORE_INTERRUPT_ENABLE_BITS_START + 4)].

(** The interrupt bit [source] after the writes of the row, and the constraint that an event sets it. *)
Definition constrain_interrupt_bit (source : Z) (event : F) : list F :=
  let initial := value (TRACE_BEFORE_INTERRUPT_REQUEST_BITS_START + source) - value (TRACE_INTERRUPT_START + source) in
  let post := foldl (λ post slot,
    let write := write_selector slot 0x0f in
    let written := value (TRACE_BUS_VALUE_BITS_START + slot * 8 + source) in
    post + write * (written - initial)) initial (range TRACE_BUS_SLOTS) in
  let expected := post + (f1 - post) * event in
  [value (TRACE_AFTER_INTERRUPT_REQUEST_BITS_START + source) - expected].
Definition constrain_vblank_interrupt : list F := constrain_interrupt_bit 0 (value TRACE_PPU_VBLANK_EVENT).
Definition constrain_stat_interrupt : list F := constrain_interrupt_bit 1 (value TRACE_PPU_STAT_EVENT).

Definition constrain_position_predicates (line dot vblank below_80 below_252 : Z) : list F :=
  let above_79 := value (dot + 6) * or (value (dot + 5)) (value (dot + 4)) in
  let expected_80 := (f1 - value (dot + 8)) * (f1 - value (dot + 7)) * (f1 - above_79) in
  let at_least_252_low := foldl (λ product bit, product * value (dot + bit)) f1 (seqZ 2 6) in
  let expected_252 := (f1 - value (dot + 8)) * (f1 - at_least_252_low) in
  [value vblank - value (line + 7) * value (line + 4);
   value below_80 - expected_80;
   value below_252 - expected_252].

Definition constrain_coincidence (line_start coincidence : Z) : list F :=
  let equal := foldl (λ equal bit,
    let line := value (line_start + bit) in
    let compare := value (TRACE_AFTER_DMG_HIGH_BITS_START + 40 + bit) in
    equal * (f1 - line - compare + lit 2 * line * compare)) f1 (range 8) in
  [value coincidence - equal].

Definition constrain_stat_signal (columns : StatColumns) : list F :=
  let enabled := value (sc_register_start columns + 39) in
  let vblank := value (sc_vblank columns) in
  let below_80 := value (sc_below_80 columns) in
  let below_252 := value (sc_below_252 columns) in
  let control := (sc_register_start columns + 40)%Z in
  let sources :=
    [value (control + 3) * (f1 - vblank) * (f1 - below_252);
     value (control + 4) * vblank;
     value (control + 5) * (f1 - vblank) * below_80;
     value (control + 6) * value (sc_coincidence columns)] in
  let inactive := foldl (λ inactive source, inactive * (f1 - source)) f1 sources in
  [value (sc_signal columns) - enabled * (f1 - inactive)].
Definition constrain_stat_signals : list F :=
  constrain_stat_signal (MkStatColumns TRACE_BEFORE_DMG_LOW_BITS_START TRACE_PPU_VBLANK TRACE_PPU_DOT_LT_80
    TRACE_PPU_DOT_LT_252 TRACE_PPU_COINCIDENCE TRACE_PPU_STAT_BEFORE) ++
  constrain_stat_signal (MkStatColumns TRACE_AFTER_DMG_LOW_BITS_START TRACE_PPU_POST_VBLANK TRACE_PPU_POST_DOT_LT_80
    TRACE_PPU_POST_DOT_LT_252 TRACE_PPU_POST_COINCIDENCE TRACE_PPU_STAT_POST_WRITE) ++
  constrain_stat_signal (MkStatColumns TRACE_AFTER_DMG_LOW_BITS_START TRACE_PPU_AFTER_VBLANK TRACE_PPU_AFTER_DOT_LT_80
    TRACE_PPU_AFTER_DOT_LT_252 TRACE_PPU_AFTER_COINCIDENCE TRACE_PPU_STAT_AFTER).

Definition constrain_stat_relevant_write : list F :=
  let selected := sum (for_each (range TRACE_BUS_SLOTS) (λ slot, map (write_selector slot) [0x40; 0x41; 0x45])) in
  [value TRACE_PPU_STAT_RELEVANT_WRITE - selected].
Definition constrain_long_stat_quiet : list F :=
  let long := mode HALT_UNTIL_VBLANK_MODE in
  let enabled := value (TRACE_AFTER_DMG_LOW_BITS_START + 39) in
  map (λ bit, long * enabled * value (TRACE_AFTER_DMG_LOW_BITS_START + 40 + bit)) (seqZ 3 4).

Definition constrain_stat_event : list F :=
  let regular := mode INSTRUCTION_MODE + mode HALT_IDLE_MODE + mode INTERRUPT_MODE in
  let enabled := value (TRACE_AFTER_DMG_LOW_BITS_START + 39) in
  let running := regular * enabled in
  let boundary := value TRACE_PPU_STAT_BOUNDARY_CROSSED in
  let gap := packed_bits TRACE_PPU_STAT_GAP_BITS_START 9 in
  let dot := packed_bits TRACE_PPU_POST_DOT_BITS_START 9 in
  let below_80 := value TRACE_PPU_POST_DOT_LT_80 in
  let below_252 := value TRACE_PPU_POST_DOT_LT_252 in
  let middle := (f1 - below_80) * below_252 in
  let distance := lit 80 * below_80 + lit 252 * middle + lit 456 * (f1 - below_252) - dot in
  let elapsed := lit 4 * value TRACE_CYCLE_INCREMENT in
  let crossed_gap := elapsed - distance in
  let before_gap := distance - elapsed - f1 in
  let write := value TRACE_PPU_STAT_RELEVANT_WRITE * (f1 - value TRACE_PPU_STAT_BEFORE) * value TRACE_PPU_STAT_POST_WRITE in
  let tick := boundary * (f1 - value TRACE_PPU_STAT_POST_WRITE) * value TRACE_PPU_STAT_AFTER in
  [running * (gap - boundary * crossed_gap - (f1 - boundary) * before_gap);
   (f1 - running) * boundary;
   (f1 - running) * gap] ++
  constrain_stat_relevant_write ++ constrain_long_stat_quiet ++
  [value TRACE_PPU_STAT_EVENT - write - tick + write * tick].

Definition constrain_stat : list F :=
  constrain_position_predicates TRACE_PPU_POST_LINE_BITS_START TRACE_PPU_POST_DOT_BITS_START TRACE_PPU_POST_VBLANK
    TRACE_PPU_POST_DOT_LT_80 TRACE_PPU_POST_DOT_LT_252 ++
  constrain_position_predicates TRACE_AFTER_PPU_LINE_BITS_START TRACE_AFTER_PPU_DOT_BITS_START TRACE_PPU_AFTER_VBLANK
    TRACE_PPU_AFTER_DOT_LT_80 TRACE_PPU_AFTER_DOT_LT_252 ++
  constrain_coincidence TRACE_PPU_POST_LINE_BITS_START TRACE_PPU_POST_COINCIDENCE ++
  constrain_coincidence TRACE_AFTER_PPU_LINE_BITS_START TRACE_PPU_AFTER_COINCIDENCE ++
  constrain_stat_signals ++ constrain_stat_event ++ constrain_stat_interrupt.

Definition constrain_ppu : list F :=
  constrain_witness_ranges ++ constrain_disabled_state ++ constrain_position ++ constrain_vblank_event ++
  constrain_vblank_interrupt ++ constrain_halt_vblank_guard ++ constrain_stat.
End ppu.
End Ppu.

Module ApuRows.
Definition is_length_register (address : Z) : bool := bool_decide (address ∈ [0x11; 0x16; 0x1b; 0x20]).
Definition dac_address (channel : Z) : Z :=
  match channel with 0 => 0x12 | 1 => 0x17 | 2 => 0x1a | _ => 0x21 end.
Definition trigger_address (channel : Z) : Z :=
  match channel with 0 => 0x14 | 1 => 0x19 | 2 => 0x1e | _ => 0x23 end.
(** [apu_read_mask] of an address 0xff00 + [address]. *)
Definition apu_read_mask (address : Z) : Z := read_mask (Z.lor 0xff00 address).

(** The pack and the byte that store a register of 0x10..0x26. *)
Definition storage_location (address : Z) (after : bool) : Z * Z :=
  if address <=? 0x17 then
    (if after then TRACE_AFTER_APU_CONTROL_LOW_BITS_START else TRACE_BEFORE_APU_CONTROL_LOW_BITS_START, address - 0x10)
  else if address <=? 0x1f then
    (if after then TRACE_AFTER_APU_CONTROL_HIGH_BITS_START else TRACE_BEFORE_APU_CONTROL_HIGH_BITS_START, address - 0x18)
  else (if after then TRACE_AFTER_APU_MIXER_BITS_START else TRACE_BEFORE_APU_MIXER_BITS_START, address - 0x20).

Section apu.
Context {F : Type} `{!FieldOps F, !RowView F}.
Local Open Scope field_scope.

Definition any_bits (start width : Z) : F := f1 - foldl (λ zero bit, zero * (f1 - value (start + bit))) f1 (range width).
Definition stored_byte (address : Z) (after : bool) : F :=
  let '(start, byte) := storage_location address after in packed_bits (start + byte * 8) 8.

Definition constrain_packs : list F :=
  for_each
    [(STATE_APU_CONTROL_LOW_PACK_INDEX, TRACE_BEFORE_APU_CONTROL_LOW_BITS_START, TRACE_AFTER_APU_CONTROL_LOW_BITS_START);
     (STATE_APU_CONTROL_HIGH_PACK_INDEX, TRACE_BEFORE_APU_CONTROL_HIGH_BITS_START, TRACE_AFTER_APU_CONTROL_HIGH_BITS_START);
     (STATE_APU_MIXER_PACK_INDEX, TRACE_BEFORE_APU_MIXER_BITS_START, TRACE_AFTER_APU_MIXER_BITS_START);
     (STATE_APU_WAVE_LOW_PACK_INDEX, TRACE_BEFORE_APU_WAVE_LOW_BITS_START, TRACE_AFTER_APU_WAVE_LOW_BITS_START);
     (STATE_APU_WAVE_HIGH_PACK_INDEX, TRACE_BEFORE_APU_WAVE_HIGH_BITS_START, TRACE_AFTER_APU_WAVE_HIGH_BITS_START)]
    (λ '(state, before_start, after_start),
      for_each [before_start; after_start] (λ start, map (λ bit, boolean (value (start + bit))) (range 64)) ++
      [before state - packed_bits before_start 64; after state - packed_bits after_start 64]).

Definition constrain_storage_masks : list F :=
  for_each (seqZ 0x10 0x17) (λ address,
    let mask := apu_read_mask address in
    for_each [false; true] (λ after,
      let '(start, byte) := storage_location address after in
      for_each (range 8) (λ bit,
        if Z.land mask (Z.shiftl 1 bit) =? 0 then [] else [value (start + byte * 8 + bit)]))).

Definition constrain_powered_off_state : list F :=
  let power := value (TRACE_BEFORE_APU_MIXER_BITS_START + 55) in
  for_each (seqZ 0x10 0x16) (λ address,
    if is_length_register address then [] else [(f1 - power) * stored_byte address false]) ++
  map (λ channel, (f1 - power) * value (TRACE_BEFORE_APU_MIXER_BITS_START + 48 + channel)) (range 4).

(** [address] is one of 0x10..0x3f. *)
Definition visible_byte (address : Z) : F :=
  if address <=? 0x26 then stored_byte address false + lit (apu_read_mask address)
  else if address <=? 0x2f then lit 0xff
  else if address <=? 0x37 then packed_bits (TRACE_BEFORE_APU_WAVE_LOW_BITS_START + (address - 0x30) * 8) 8
  else packed_bits (TRACE_BEFORE_APU_WAVE_HIGH_BITS_START + (address - 0x38) * 8) 8.

Definition constrain_bus_values : list F :=
  for_each (range TRACE_BUS_SLOTS) (λ slot,
    let read := bus_kind_selector slot 11 in
    let write := bus_kind_selector slot 12 in
    let '(selected, expected) := foldl (λ '(selected, expected) address,
      let selector := low_address_selector slot address in
      (selected + selector, expected + selector * visible_byte address)) (f0, f0) (seqZ 0x10 0x30) in
    [read * (selected * bus_field slot BUS_VALUE_OFFSET - expected);
     write * (selected * bus_field slot BUS_BEFORE_OFFSET - expected)]).

Definition dac_enabled_from_pack (channel : Z) (after : bool) : F :=
  let '(address, first_bit, width) :=
    match channel with 0 => (0x12, 3, 5) | 1 => (0x17, 3, 5) | 2 => (0x1a, 7, 1) | _ => (0x21, 3, 5) end%Z in
  let '(start, byte) := storage_location address after in
  any_bits (start + byte * 8 + first_bit) width.
Definition written_dac_enabled (slot channel : Z) : F :=
  let '(first_bit, width) := if channel =? 2 then (7, 1)%Z else (3, 5)%Z in
  any_bits (TRACE_BUS_VALUE_BITS_START + slot * 8 + first_bit) width.
Definition written_stored_byte (slot address : Z) : F :=
  let mask := apu_read_mask address in
  foldl (λ result bit,
    if Z.land mask (Z.shiftl 1 bit) =? 0
    then result + lit (Z.shiftl 1 bit) * value (TRACE_BUS_VALUE_BITS_START + slot * 8 + bit) else result) f0 (range 8).

Definition constrain_channel_events (channel : Z) : list F :=
  let '(dac_write, written_enabled, trigger) := foldl (λ '(dac_write, written_enabled, trigger) slot,
    let dac := write_selector slot (dac_address channel) in
    let enabled := written_dac_enabled slot channel in
    (dac_write + dac, written_enabled + dac * enabled,
     trigger + write_selector slot (trigger_address channel) * value (TRACE_BUS_VALUE_BITS_START + slot * 8 + 7)))
    (f0, f0, f0) (range TRACE_BUS_SLOTS) in
  [value (TRACE_APU_DAC_WRITE_START + channel) - dac_write;
   value (TRACE_APU_WRITTEN_DAC_ENABLED_START + channel) - written_enabled;
   value (TRACE_APU_TRIGGER_START + channel) - trigger].

Definition constrain_event_witnesses : list F :=
  let '(power_off, power_on) := foldl (λ '(power_off, power_on) slot,
    let selected := write_selector slot 0x26 in
    let power := value (TRACE_BUS_VALUE_BITS_START + slot * 8 + 7) in
    (power_off + selected * (f1 - power), power_on + selected * power)) (f0, f0) (range TRACE_BUS_SLOTS) in
  map (λ column, boolean (value column)) (seqZ TRACE_APU_POWER_OFF (TRACE_APU_TRIGGER_START + 4 - TRACE_APU_POWER_OFF)) ++
  [value TRACE_APU_POWER_OFF - power_off; value TRACE_APU_POWER_ON - power_on] ++
  for_each (range 4) constrain_channel_events.

Definition constrain_dac_state : list F :=
  let powered := value (TRACE_BEFORE_APU_MIXER_BITS_START + 55) in
  let power_off := value TRACE_APU_POWER_OFF in
  for_each (range 4) (λ channel,
    let before := dac_enabled_from_pack channel false in
    let after := value (TRACE_APU_AFTER_DAC_ENABLED_START + channel) in
    let write := value (TRACE_APU_DAC_WRITE_START + channel) in
    let written := value (TRACE_APU_WRITTEN_DAC_ENABLED_START + channel) in
    let expected := (f1 - power_off) * (before + write * powered * (written - before)) in
    [after - expected; after - dac_enabled_from_pack channel true]).

Definition constrain_control_updates : list F :=
  let powered := value (TRACE_BEFORE_APU_MIXER_BITS_START + 55) in
  let power_off := value TRACE_APU_POWER_OFF in
  map (λ address,
    let before := stored_byte address false in
    let after := stored_byte address true in
    let permission := if is_length_register address then f1 else powered in
    let delta := foldl (λ delta slot,
      delta + write_selector slot address * (written_stored_byte slot address - before)) f0 (range TRACE_BUS_SLOTS) in
    after - (f1 - power_off) * (before + permission * delta)) (seqZ 0x10 0x16).

Definition constrain_wave_updates : list F :=
  map (λ address,
    let '(before_start, after_start, byte) :=
      if address <=? 0x37
      then (TRACE_BEFORE_APU_WAVE_LOW_BITS_START, TRACE_AFTER_APU_WAVE_LOW_BITS_START, (address - 0x30)%Z)
      else (TRACE_BEFORE_APU_WAVE_HIGH_BITS_START, TRACE_AFTER_APU_WAVE_HIGH_BITS_START, (address - 0x38)%Z) in
    let before := packed_bits (before_start + byte * 8) 8 in
    let after := packed_bits (after_start + byte * 8) 8 in
    let delta := foldl (λ delta slot,
      delta + write_selector slot address * (bus_field slot BUS_VALUE_OFFSET - before)) f0 (range TRACE_BUS_SLOTS) in
    after - before - delta) (seqZ 0x30 0x10).

Definition constrain_master_status : list F :=
  let before_power := value (TRACE_BEFORE_APU_MIXER_BITS_START + 55) in
  let after_power := value (TRACE_AFTER_APU_MIXER_BITS_START + 55) in
  let off := value TRACE_APU_POWER_OFF in
  let on := value TRACE_APU_POWER_ON in
  [after_power - (f1 - off) * (before_power + on * (f1 - before_power))] ++
  map (λ channel,
    let before := value (TRACE_BEFORE_APU_MIXER_BITS_START + 48 + channel) in
    let after := value (TRACE_AFTER_APU_MIXER_BITS_START + 48 + channel) in
    let dac_write := value (TRACE_APU_DAC_WRITE_START + channel) in
    let written := value (TRACE_APU_WRITTEN_DAC_ENABLED_START + channel) in
    let disabled := dac_write * (f1 - written) in
    let retained := before * (f1 - disabled) in
    let activation := value (TRACE_APU_TRIGGER_START + channel) * value (TRACE_APU_AFTER_DAC_ENABLED_START + channel) in
    after - (f1 - off) * (retained + (f1 - retained) * activation)) (range 4).

Definition constrain_transitions : list F :=
  constrain_event_witnesses ++ constrain_dac_state ++ constrain_control_updates ++ constrain_wave_updates ++
  constrain_master_status.
Definition constrain_apu : list F :=
  constrain_packs ++ constrain_storage_masks ++ constrain_powered_off_state ++ constrain_bus_values ++ constrain_transitions.
End apu.
End ApuRows.
