(* ===== verification/Cpu.v ===== *)
(** * The CPU relation (crates/zksm83-jolt/src/cpu.rs)

    The constraints of all components in the order the code pushes them, as a uniform relation. *)
From S2P Require Import Prelude Commitment Image Field Fold Sumcheck Uniform.
From S2P Require Import Columns CpuRow CpuFrame CpuArithmetic CpuControl CpuDevices CpuPeripherals CpuMedia.

Section cpu.
Context {F : Type} `{!FieldOps F, !RowView F}.

(** The values [evaluate_constraints_for_view] pushes; [None] is [NonInvertibleInterpolation]. *)
Definition evaluate_constraints_for_view : option (list F) :=
  mapper_ranges ← constrain_mapper_ranges;
  mapper_and_rom ← Mapper.constrain_mapper_and_rom;
  Some (constrain_selectors ++ constrain_cpu_ranges ++ mapper_ranges ++ Devices.constrain_interrupt_control ++
    ApuRows.constrain_apu ++ constrain_isa ++ constrain_cycles_and_frames ++ constrain_bus ++
    Logs.constrain_cursors_and_log_events ++ Mmio.constrain_mmio_events ++ Registers.constrain_visible_registers ++
    Serial.constrain_serial ++ TimerRows.constrain_timer ++ Ppu.constrain_ppu ++ Joypad.constrain_joypad ++
    MemoryEvents.constrain_memory_events ++ mapper_and_rom ++ Semantics.constrain_byte_arithmetic ++
    Control.constrain_instruction_flow ++ Data.constrain_data_and_simple_operations ++ Word.constrain_word_operations ++
    Stack.constrain_stack_operations ++ Bit.constrain_rotate_and_bit_operations ++ Daa.constrain_decimal_adjust ++
    Machine.constrain_machine_cpu).
End cpu.

(** [RowView::new]: the columns of a slice. *)
Definition row_view {F} `{!FieldOps F} (row : list F) : RowView F := λ column, default f0 (row !! Z.to_nat column).

Inductive CpuStructuralRelation := MkCpuStructuralRelation.

Definition CPU_STRUCTURAL_DOMAIN : list Z := string_bytes "zksm83/native-cpu-structural/v22".

Section relation.
Context {F : Type} `{!FieldOps F, !EqDecision F, !CudaFolder F, !UniformExternal}.

(** The constraints in the buffer and their number. The sink fails when the buffer is too short. *)
Definition evaluate_constraints (row constraints : list F) : uni_result F (list F * nat) :=
  pushed ← ok_or (evaluate_constraints_for_view (RowView0 := row_view row)) UniErr.NonInvertibleInterpolation;
  sink ← ok_or (push_all pushed (MkSink constraints 0)) UniErr.Shape;
  ok_or (finish sink) UniErr.Shape.

#[global] Instance cpu_relation : UniformRelation F CpuStructuralRelation := {|
  domain _ := CPU_STRUCTURAL_DOMAIN;
  statement_bytes _ :=
    le_bytes 8 NATIVE_TRACE_COLUMN_COUNT ++ le_bytes 8 CPU_STRUCTURAL_CONSTRAINT_COUNT ++ le_bytes 8 ISA_PADDING_ADDRESS;
  column_count _ := Z.to_nat NATIVE_TRACE_COLUMN_COUNT;
  constraint_count _ := Z.to_nat CPU_STRUCTURAL_CONSTRAINT_COUNT;
  max_constraint_degree _ := Z.to_nat CPU_STRUCTURAL_MAX_DEGREE;
  constraint_output _ := ConOut.Overwritten;
  evaluate _ row constraints :=
    if negb (length row =? Z.to_nat NATIVE_TRACE_COLUMN_COUNT)%nat ||
       negb (length constraints =? Z.to_nat CPU_STRUCTURAL_CONSTRAINT_COUNT)%nat
    then Err UniErr.Shape
    else
      '(constraints, used) ← evaluate_constraints row constraints;
      if negb (Z.of_nat used =? CPU_STRUCTURAL_USED_CONSTRAINT_COUNT) then Err UniErr.Shape else Ok constraints
|}.
End relation.
