(* ===== verification/CpuPoly.v ===== *)
(** * The constraints of the CPU relation are polynomials (crates/zksm83-jolt/src/cpu.rs)

    The constraints do not depend on the field: computed on a field of expressions they are a list of
    expressions, whose values are the constraints of every field. What holds of all constraints is then
    computed on the syntax: their number, the columns they read, and their degree, which bounds the degree
    of the constraints as functions of a line of rows. *)
From Stdlib Require Import FunctionalExtensionality Ring.
From S2P Require Import Prelude Field Fold Uniform UniformSpec.
From S2P Require Import Columns CpuRow CpuFrame CpuArithmetic CpuControl CpuDevices CpuPeripherals CpuMedia Cpu.

Inductive expr :=
| Column (i : Z)
| Const (z : Z)
| Add (a b : expr)
| Sub (a b : expr)
| Mul (a b : expr)
| Inv (a : expr).

(** Sums of constants are constants, which keeps the powers of [packed_bits] small. *)
Definition expr_add (a b : expr) : expr :=
  match a, b with
  | Const x, Const y => if x + y <? 18446744073709551616 then Const (x + y) else Add a b
  | _, _ => Add a b
  end.
Definition expr_ops : FieldOps expr := {|
  fadd := expr_add; fsub := Sub; fmul := Mul; from_u64 := Const; inverse e := Some (Inv e)
|}.
Definition expressions : list expr :=
  default [] (evaluate_constraints_for_view (FieldOps0 := expr_ops) (RowView0 := Column)).

(** The degree, where the inverse of an expression with columns has none. *)
Fixpoint degree (e : expr) : option nat :=
  match e with
  | Column _ => Some 1%nat
  | Const _ => Some 0%nat
  | Add a b | Sub a b => d ← degree a; d' ← degree b; Some (d `max` d')%nat
  | Mul a b => d ← degree a; d' ← degree b; Some (d + d')%nat
  | Inv a => d ← degree a; if (d =? 0)%nat then Some 0%nat else None
  end.
Fixpoint reads_below (bound : Z) (e : expr) : bool :=
  match e with
  | Column i => (0 <=? i) && (i <? bound)
  | Const _ => true
  | Add a b | Sub a b | Mul a b => reads_below bound a && reads_below bound b
  | Inv a => reads_below bound a
  end.

Lemma expressions_count : Z.of_nat (length expressions) = CPU_STRUCTURAL_USED_CONSTRAINT_COUNT.
Proof. vm_compute. done. Qed.
Lemma expressions_columns : forallb (reads_below NATIVE_TRACE_COLUMN_COUNT) expressions = true.
Proof. vm_compute. done. Qed.
Definition degree_below (bound : nat) (e : expr) : bool :=
  match degree e with Some d => (d <=? bound)%nat | None => false end.
Lemma expressions_degree : forallb (degree_below (Z.to_nat CPU_STRUCTURAL_MAX_DEGREE)) expressions = true.
Proof. vm_compute. done. Qed.

Section poly.
Context {F : Type} `{FieldLaws F}.
Local Open Scope field_scope.
Add Ring cpu_poly_ring : fl_ring.

Fixpoint denote (view : RowView F) (e : expr) : F :=
  match e with
  | Column i => view i
  | Const z => from_u64 z
  | Add a b => denote view a + denote view b
  | Sub a b => denote view a - denote view b
  | Mul a b => denote view a * denote view b
  | Inv a => finv (denote view a)
  end.

(** ** The parts of the code that compute with constants *)

(** [packed_bits] with its powers written as constants, for the widths at which they are 64-bit integers. *)
Definition packed_constants (view : RowView F) (start width : Z) : F :=
  if width <=? 64
  then foldl (λ packed bit, packed + from_u64 (2 ^ bit) * view (start + bit)%Z) f0 (range width)
  else packed_bits start width.
Lemma packed_bits_constants (view : RowView F) : packed_bits = packed_constants view.
Proof.
  apply functional_extensionality. intros start. apply functional_extensionality. intros width.
  unfold packed_constants. destruct (Z.leb_spec width 64) as [Hw |]; [| done]. unfold packed_bits.
  assert (Hg : ∀ n, (n <= 64)%nat →
    (foldl (λ '(packed, power) bit, (packed + power * value (start + bit)%Z, power + power)) (f0, f1) (seqZ 0 (Z.of_nat n))).1 =
      foldl (λ packed bit, packed + from_u64 (2 ^ bit) * view (start + bit)%Z) f0 (seqZ 0 (Z.of_nat n)) ∧
    ((n < 64)%nat →
      (foldl (λ '(packed, power) bit, (packed + power * value (start + bit)%Z, power + power)) (f0, f1) (seqZ 0 (Z.of_nat n))).2 =
        from_u64 (2 ^ Z.of_nat n))).
  { induction n as [| n IH]; intros Hn; [done |].
    rewrite Nat2Z.inj_succ, <- Z.add_1_r, seqZ_app, !foldl_app by lia.
    replace (seqZ (0 + Z.of_nat n) 1) with [Z.of_nat n] by (unfold seqZ; cbn; f_equal; lia). cbn [foldl].
    destruct (foldl _ (f0, f1) _) as [packed power] eqn:E. destruct IH as [Hp Hq]; [lia |]. cbn [fst snd] in *.
    rewrite Hp, (Hq ltac:(lia)). split; [done |].
    intros Hlt. rewrite <- fl_from_add; [f_equal; rewrite Z.pow_add_r by lia; lia | lia | lia |].
    assert (2 ^ Z.of_nat n <= 2 ^ 62)%Z by (apply Z.pow_le_mono_r; lia). lia. }
  destruct (Z.leb_spec 0 width) as [H0 |].
  - destruct (Hg (Z.to_nat width)) as [E _]; [lia |]. rewrite Z2Nat.id in E by lia. exact E.
  - assert (E : seqZ 0 width = []) by (apply seqZ_nil; lia). by rewrite E.
Qed.

(** [profile_code_selector] of a code of the table, with the inverse that exists. *)
Definition profile_constants (profile : F) (code : Z) : option F :=
  if (0 <=? code) && (code <? PROFILE_CODE_COUNT) then
    let '(numerator, denominator) :=
      foldl (λ '(numerator, denominator) admitted,
        if (admitted =? code)%Z then (numerator, denominator)
        else (numerator * (profile - lit admitted), denominator * (lit code - lit admitted)))
        (f1, f1) (range PROFILE_CODE_COUNT) in
    Some (numerator * finv denominator)
  else profile_code_selector profile code.
Lemma lit_neq a b : 0 <= a < 18446744073709551616 → 0 <= b < 18446744073709551616 → a ≠ b → lit a - lit b ≠ f0.
Proof. intros Ha Hb Hne E. apply Hne, fl_from_inj; [done | done |]. by apply fsub_zero. Qed.
Lemma profile_selector_constants : profile_code_selector = profile_constants.
Proof.
  apply functional_extensionality. intros profile. apply functional_extensionality. intros code. unfold profile_constants.
  destruct (Z.leb_spec 0 code) as [H0 |]; [| done]. destruct (Z.ltb_spec code PROFILE_CODE_COUNT) as [H5 |]; [| done].
  cbn [andb]. unfold profile_code_selector. destruct (foldl _ _ _) as [numerator denominator] eqn:E.
  assert (Hd : denominator ≠ f0).
  { unfold PROFILE_CODE_COUNT in *.
    assert (Hc : code = 0 ∨ code = 1 ∨ code = 2 ∨ code = 3 ∨ code = 4) by lia.
    destruct Hc as [-> | [-> | [-> | [-> | ->]]]]; cbn in E; injection E as _ <-;
      repeat apply fmul_neq; (apply f1_neq_f0 || (apply lit_neq; lia)). }
  unfold finv. destruct (inverse_neq denominator Hd) as (y & -> & _). done.
Qed.

(** ** The values of the expressions *)

Lemma evaluate_expressions (view : RowView F) :
  evaluate_constraints_for_view = Some (map (denote view) expressions).
Proof.
  lazy -[packed_bits profile_code_selector fadd fsub fmul from_u64 inverse denote expressions].
  rewrite (packed_bits_constants view), profile_selector_constants. vm_compute. reflexivity.
Qed.

(** ** Degrees *)

(** The row at a point of a line. *)
Definition line_view (view slope : RowView F) (x : F) : RowView F := λ i, view i + x * slope i.

Lemma is_poly_mul n m (f g : F → F) : is_poly (S n) f → is_poly (S m) g → is_poly (S (n + m)) (λ x, f x * g x).
Proof.
  intros (cs & Hl & Ef) Hg. revert n f Hl Ef. induction cs as [| c cs IH]; intros n f Hl Ef; [done |].
  apply (is_poly_ext _ (λ x, c * g x + x * (eval cs x * g x))).
  { intros x. rewrite Ef, eval_cons. ring. }
  destruct n as [| n].
  - destruct cs; [| done]. apply (is_poly_ext _ (λ x, c * g x)).
    { intros x. change (eval [] x) with f0. ring. }
    by apply is_poly_scale.
  - apply is_poly_add; [apply (is_poly_more (S m)); [lia | by apply is_poly_scale] |].
    destruct (IH n (eval cs)) as (ds & Hd & Ed); [cbn in Hl; lia | done |]. exists (f0 :: ds). split; [cbn; lia |].
    intros x. rewrite eval_cons, <- Ed. ring.
Qed.

Lemma degree_poly (view slope : RowView F) e : ∀ d, degree e = Some d →
  is_poly (S d) (λ x, denote (line_view view slope x) e).
Proof.
  assert (Hc : ∀ e, degree e = Some 0%nat → ∀ x y, denote (line_view view slope x) e = denote (line_view view slope y) e).
  { clear e. induction e as [i | z | a IHa b IHb | a IHa b IHb | a IHa b IHb | a IHa]; cbn [degree denote]; intros Hd x y;
      [done | done | | | |]; try (apply bind_Some in Hd as (da & Ha & Hd)); try (apply bind_Some in Hd as (db & Hb & Hd)).
    1-3: injection Hd as Hd; assert (da = 0%nat ∧ db = 0%nat) as [-> ->] by lia; by rewrite (IHa Ha x y), (IHb Hb x y).
    destruct (Nat.eqb_spec da 0) as [-> |]; [| done]. by rewrite (IHa Ha x y). }
  induction e as [i | z | a IHa b IHb | a IHa b IHb | a IHa b IHb | a IHa]; cbn [degree]; intros d Hd.
  - injection Hd as <-. cbn [denote]. unfold line_view.
    apply (is_poly_ext _ (λ x, (view i + x * slope i) * f1)); [intros x; ring | apply is_poly_affine, is_poly_const].
  - injection Hd as <-. exact (is_poly_const (from_u64 z)).
  - apply bind_Some in Hd as (da & Ha & (db & Hb & [= <-])%bind_Some).
    apply is_poly_add; [apply (is_poly_more (S da)); [lia | by apply IHa] | apply (is_poly_more (S db)); [lia | by apply IHb]].
  - apply bind_Some in Hd as (da & Ha & (db & Hb & [= <-])%bind_Some). cbn [denote].
    apply (is_poly_ext _ (λ x, denote (line_view view slope x) a + (f0 - f1) * denote (line_view view slope x) b)); [intros x; ring |].
    apply is_poly_add; [apply (is_poly_more (S da)); [lia | by apply IHa] | apply (is_poly_more (S db)); [lia | by apply is_poly_scale, IHb]].
  - apply bind_Some in Hd as (da & Ha & (db & Hb & [= <-])%bind_Some). apply is_poly_mul; auto.
  - apply bind_Some in Hd as (da & Ha & Hd). destruct (Nat.eqb_spec da 0) as [-> |]; [| done]. injection Hd as <-.
    apply (is_poly_ext _ (λ _, denote (line_view view slope f0) (Inv a))); [| apply is_poly_const].
    intros x. cbn [denote]. by rewrite (Hc a Ha x f0).
Qed.

Lemma degree_below_poly (view slope : RowView F) e bound : degree_below bound e = true →
  is_poly (S bound) (λ x, denote (line_view view slope x) e).
Proof.
  unfold degree_below. destruct (degree e) as [d |] eqn:E; [| done]. intros Hd%Nat.leb_le.
  apply (is_poly_more (S d)); [lia |]. by apply degree_poly.
Qed.

(** Expressions only depend on the columns they read. *)
Lemma denote_ext (view view' : RowView F) bound e : (∀ i, 0 <= i < bound → view i = view' i) → reads_below bound e = true →
  denote view e = denote view' e.
Proof.
  intros Hv. induction e as [i | z | a IHa b IHb | a IHa b IHb | a IHa b IHb | a IHa]; cbn [reads_below denote]; intros Hr.
  - apply andb_true_iff in Hr as [H0 H1]. apply Hv. lia.
  - done.
  - apply andb_true_iff in Hr as [Ha Hb]. by rewrite IHa, IHb.
  - apply andb_true_iff in Hr as [Ha Hb]. by rewrite IHa, IHb.
  - apply andb_true_iff in Hr as [Ha Hb]. by rewrite IHa, IHb.
  - by rewrite IHa.
Qed.
End poly.
