(* ===== verification/Embed.v ===== *)
(** * Integers in the native field

    The ring homomorphism from the integers, which agrees with [from_u64] on 64-bit integers and is injective
    on integers less than 2^64 apart. A constraint over columns that hold integers is so an equation of
    integers; columns that are 0 or 1 are the bits of an integer. *)
From Stdlib Require Import Ring InitialRing.
From S2P Require Import Prelude Field Columns CpuRow.

Section embed.
Context {F : Type} `{FieldLaws F}.
Local Open Scope field_scope.
Add Ring embed_ring : fl_ring.

Lemma field_reqe : ring_eq_ext fadd fmul (fsub f0) (=@{F}).
Proof. split; intros; congruence. Qed.

Definition of_Z (z : Z) : F := gen_phiZ f0 f1 fadd fmul (fsub f0) z.

Lemma of_Z_morph : ring_morph f0 f1 fadd fmul fsub (fsub f0) (=@{F}) 0 1 Z.add Z.mul Z.sub Z.opp Z.eqb of_Z.
Proof. exact (gen_phiZ_morph (Eqsth F) field_reqe fl_ring). Qed.

Lemma of_Z_0 : of_Z 0 = f0.
Proof. done. Qed.
Lemma of_Z_1 : of_Z 1 = f1.
Proof. done. Qed.
Lemma of_Z_add a b : of_Z (a + b)%Z = of_Z a + of_Z b.
Proof. apply (morph_add of_Z_morph). Qed.
Lemma of_Z_sub a b : of_Z (a - b)%Z = of_Z a - of_Z b.
Proof. apply (morph_sub of_Z_morph). Qed.
Lemma of_Z_mul a b : of_Z (a * b)%Z = of_Z a * of_Z b.
Proof. apply (morph_mul of_Z_morph). Qed.

Lemma of_Z_u64 n : 0 <= n < 18446744073709551616 → from_u64 n = of_Z n.
Proof.
  intros [H0 Hn]. revert n H0 Hn. apply (natlike_ind (λ n, n < 18446744073709551616 → from_u64 n = of_Z n)); [done |].
  intros n H0 IH Hn. rewrite <- Z.add_1_r, fl_from_add, of_Z_add, IH by lia. done.
Qed.

Lemma of_Z_zero a : -18446744073709551616 < a < 18446744073709551616 → of_Z a = f0 → a = 0.
Proof.
  intros Ha E. destruct (Z.le_gt_cases 0 a) as [H0 | H0].
  - rewrite <- of_Z_u64 in E by lia. apply fl_from_inj in E; lia.
  - assert (E' : of_Z (- a) = f0) by (change (- a)%Z with (0 - a)%Z; rewrite of_Z_sub, E; change (of_Z 0) with (f0 : F); ring).
    rewrite <- of_Z_u64 in E' by lia. apply fl_from_inj in E'; lia.
Qed.
Lemma of_Z_inj a b : (-18446744073709551616 < a - b < 18446744073709551616)%Z → of_Z a = of_Z b → a = b.
Proof.
  intros Hab E. enough ((a - b)%Z = 0) by lia. apply of_Z_zero; [done |]. rewrite of_Z_sub, E. ring.
Qed.

(** ** Bits *)

Lemma of_Z_bit_inj a b : of_Z (Z.b2z a) = of_Z (Z.b2z b) → a = b.
Proof. destruct a, b; intros E%of_Z_inj; done. Qed.

Lemma boolean_bit x : boolean x = f0 → ∃ b : bool, x = of_Z (Z.b2z b).
Proof.
  intros [E | E]%fmul_zero; [by exists false |]. exists true. by apply fsub_zero.
Qed.

Context {view : RowView F}.

(** The columns from [start] hold the [width] bits of [n]. *)
Definition has_bits (start width n : Z) : Prop :=
  0 <= n < 2 ^ width ∧ ∀ i, 0 <= i < width → value (start + i)%Z = of_Z (Z.b2z (Z.testbit n i)).

Lemma has_bits_exist start width : 0 <= width → (∀ i, 0 <= i < width → boolean (value (start + i)%Z) = f0) →
  ∃ n, has_bits start width n.
Proof.
  intros Hw. revert width Hw. apply (natlike_ind (λ width, (∀ i, 0 <= i < width → boolean (value (start + i)%Z) = f0) →
    ∃ n, has_bits start width n)).
  - intros _. exists 0. split; [done |]. intros i Hi. lia.
  - intros width Hw IH Hb. destruct IH as (n & Hn & Hbits); [intros i Hi; apply Hb; lia |].
    destruct (boolean_bit (value (start + width)%Z)) as [b E]; [apply Hb; lia |].
    exists (n + Z.b2z b * 2 ^ width)%Z. unfold has_bits. rewrite <- Z.add_1_r, Z.pow_add_r by lia. assert (Hp : 0 < 2 ^ width) by lia.
    split; [destruct b; cbn [Z.b2z]; lia |]. intros i Hi. destruct (decide (i = width)) as [-> | Hne].
    + rewrite E, Z.testbit_odd, Z.shiftr_div_pow2, Z.div_add, Z.div_small by lia. by destruct b.
    + rewrite Hbits by lia. do 2 f_equal. rewrite <- (Z.mod_pow2_bits_low (n + _)%Z width) by lia.
      by rewrite Z_mod_plus_full, Z.mod_small by lia.
Qed.

Lemma has_bits_bit start width n i : has_bits start width n → 0 <= i < width →
  value (start + i)%Z = of_Z (Z.b2z (Z.testbit n i)).
Proof. intros [_ Hb]. apply Hb. Qed.
Lemma has_bits_first start width n : has_bits start width n → 0 < width → value start = of_Z (n mod 2).
Proof.
  intros [_ Hb] Hw. rewrite <- (Z.add_0_r start), Hb by lia. by rewrite Z.bit0_mod.
Qed.
(** A field of a packed number. *)
Lemma has_bits_part start width n from count : has_bits start width n → 0 <= from → 0 <= count → (from + count <= width)%Z →
  has_bits (start + from)%Z count (Z.shiftr n from mod 2 ^ count).
Proof.
  intros [Hn Hb] Hf Hc Hw. split; [apply Z.mod_pos_bound; lia |]. intros i Hi.
  rewrite <- Z.add_assoc, Hb by lia. rewrite Z.mod_pow2_bits_low, Z.shiftr_spec by lia. do 3 f_equal. lia.
Qed.

(** The value of packed columns. *)
Lemma packed_bits_value start width n : has_bits start width n → packed_bits start width = of_Z n.
Proof.
  intros [Hn Hb]. unfold packed_bits.
  assert (Hg : ∀ k : nat, Z.of_nat k <= width →
    foldl (λ '(packed, power) bit, (packed + power * value (start + bit)%Z, power + power)) (f0, f1) (range (Z.of_nat k)) =
      (of_Z (n mod 2 ^ Z.of_nat k), of_Z (2 ^ Z.of_nat k))).
  { induction k as [| k IH]; intros Hk; [by rewrite Z.mod_1_r |].
    rewrite Nat2Z.inj_succ, <- Z.add_1_r, seqZ_app, foldl_app by lia.
    replace (seqZ (0 + Z.of_nat k)%Z 1) with [Z.of_nat k] by (unfold seqZ; cbn; f_equal; lia).
    rewrite IH by lia. cbn [foldl]. rewrite Hb by lia. rewrite Z.pow_add_r, Z.pow_1_r by lia. f_equal.
    - rewrite <- of_Z_mul, <- of_Z_add. f_equal. rewrite Z.rem_mul_r by lia. f_equal. f_equal. symmetry.
      by rewrite Z.testbit_odd, Z.shiftr_div_pow2, Zmod_odd by lia.
    - rewrite <- of_Z_add. f_equal. lia. }
  destruct (Z.le_gt_cases 0 width) as [Hw |].
  - specialize (Hg (Z.to_nat width)). rewrite Z2Nat.id in Hg by lia. rewrite Hg by lia. cbn [fst]. by rewrite Z.mod_small.
  - rewrite Z.pow_neg_r in Hn by lia. lia.
Qed.
Lemma packed_bits_low start width n k : has_bits start width n → 0 <= k <= width → packed_bits start k = of_Z (n mod 2 ^ k).
Proof.
  intros Hb Hk. apply packed_bits_value. apply (has_bits_part _ _ _ 0 k) in Hb; [| lia | lia | lia].
  by rewrite Z.add_0_r, Z.shiftr_0_r in Hb.
Qed.

(** The selector of a code is one for the packed number and zero for the others. *)
Lemma selector_value start width n code : has_bits start width n → 0 <= code < 2 ^ width →
  selector_product (values start width) code = of_Z (Z.b2z (n =? code)).
Proof.
  intros [Hn Hb] Hc. unfold selector_product, values. rewrite length_map, length_seqZ.
  assert (Hw : 0 <= width) by (destruct (Z.le_gt_cases 0 width); [done | rewrite Z.pow_neg_r in Hn by lia; lia]).
  assert (Hg : ∀ k : nat, Z.of_nat k <= width →
    foldl (λ selector '(bit, value), if Z.land (Z.shiftr code bit) 1 =? 1 then selector * value else selector * (f1 - value)) f1
      (zip (range (Z.of_nat k)) (map value (seqZ start (Z.of_nat k)))) =
    of_Z (Z.b2z (n mod 2 ^ Z.of_nat k =? code mod 2 ^ Z.of_nat k))).
  { induction k as [| k IH]; intros Hk; [by rewrite !Z.mod_1_r |].
    rewrite Nat2Z.inj_succ, <- Z.add_1_r, !seqZ_app, map_app, zip_with_app, foldl_app by (rewrite ?length_map, ?length_seqZ; lia).
    rewrite IH by lia. replace (seqZ (0 + Z.of_nat k)%Z 1) with [Z.of_nat k] by (unfold seqZ; cbn; f_equal; lia).
    replace (seqZ (start + Z.of_nat k)%Z 1) with [(start + Z.of_nat k)%Z] by (unfold seqZ; cbn; f_equal; lia).
    cbn [map zip_with foldl]. rewrite Hb by lia. rewrite Z.pow_add_r, !Z.rem_mul_r, Z.pow_1_r by lia.
    change 1 with (Z.ones 1) at 1. rewrite Z.land_ones, Z.shiftr_div_pow2, Z.pow_1_r by lia.
    rewrite Z.testbit_odd, Z.shiftr_div_pow2 by lia.
    rewrite (Zmod_odd (n / _)), (Zmod_odd (code / _)). assert (Hp : 0 < 2 ^ Z.of_nat k) by lia.
    pose proof (Z.mod_pos_bound n _ Hp). pose proof (Z.mod_pos_bound code _ Hp).
    destruct (Z.odd (code / _)), (Z.odd (n / _)); 
      repeat (match goal with |- context [(?a =? ?b)%Z] => destruct (Z.eqb_spec a b); try lia end); cbn [Z.b2z];
      change (of_Z 0) with (f0 : F); change (of_Z 1) with (f1 : F); ring. }
  specialize (Hg (Z.to_nat width)). rewrite Z2Nat.id in Hg by lia. rewrite !Z2Nat.id by lia.
  rewrite Hg by lia. by rewrite !Z.mod_small by lia.
Qed.
End embed.
