(* ===== verification/IsaTable.v ===== *)
(** * The fixed instruction table (crates/zksm83-jolt/src/isa.rs)

    The 512 rows of the instruction lookup, one per prefix and opcode: the outputs of a defined instruction
    are its alignment row in scalars and selector bits, those of an undefined opcode are zero. *)
From S2P Require Import Prelude IsaTypes Metadata Decode Alignment Columns.

Record IsaTableRow := MkIsaRow { ir_address : Z; ir_outputs : list Z }.

Module IsaErr.
Inductive IsaTableError :=
| PackedDescriptor
| AddressOverflow
| OutputLayout
| DuplicateAddress (address : Z)
| AlignmentPacking (e : AlignmentPackingError).
End IsaErr.
Abbreviation IsaTableError := IsaErr.IsaTableError.
Abbreviation isa_result := (result IsaTableError).

Definition is_defined (row : IsaTableRow) : bool := default 0 (ir_outputs row !! Z.to_nat ISA_VALID) =? 1.
Definition undefined_row (address : Z) : IsaTableRow := MkIsaRow address (replicate (Z.to_nat ISA_OUTPUT_COUNT) 0).

(** An assignment through [get_mut]. *)
Definition set_output (outputs : list Z) (target value : Z) : isa_result (list Z) :=
  if (0 <=? target) && (target <? Z.of_nat (length outputs))
  then Ok (<[Z.to_nat target := value]> outputs) else Err IsaErr.OutputLayout.
Fixpoint write_bits_loop (outputs : list Z) (start value : Z) (bits : list Z) : isa_result (list Z) :=
  match bits with
  | [] => Ok outputs
  | bit :: bits =>
      outputs ← set_output outputs (start + bit) (Z.land (Z.shiftr value bit) 1);
      write_bits_loop outputs start value bits
  end.
Definition write_bits (outputs : list Z) (start count value : Z) : isa_result (list Z) :=
  write_bits_loop outputs start value (seqZ 0 count).

Definition from_aligned (aligned : AlignedInstruction) : isa_result IsaTableRow :=
  let address := key_prefix (a_key aligned) * 256 + key_opcode (a_key aligned) in
  if negb (address <=? 65535) then Err IsaErr.AddressOverflow else
  packed ← map_err IsaErr.AlignmentPacking (packed aligned);
  let packed_low := Z.land packed (2 ^ 64 - 1) in
  let packed_high := Z.shiftr packed 64 in
  if negb (packed_high <? 2 ^ 64) then Err IsaErr.PackedDescriptor else
  let fields :=
    [1; packed_low; packed_high; a_base_m_cycles aligned; a_taken_m_cycles aligned; a_opcode_fetches aligned;
     a_immediate_reads aligned; a_data_reads aligned; a_data_writes aligned; a_taken_data_reads aligned;
     a_taken_data_writes aligned] in
  let outputs := fields ++ replicate (Z.to_nat ISA_OUTPUT_COUNT - length fields) 0 in
  outputs ← write_bits outputs ISA_WRITE_BITS_START REGISTER_WRITE_BITS (a_register_writes aligned);
  outputs ← set_output outputs ISA_TAKEN_TIMING (Z.b2z (negb (a_taken_m_cycles aligned =? 0)));
  outputs ← write_bits outputs ISA_OPERATION_BITS_START OPERATION_BITS (a_operation aligned);
  outputs ← write_bits outputs ISA_ARGUMENT_ZERO_BITS_START ARGUMENT_ZERO_BITS (a_argument_zero aligned);
  outputs ← write_bits outputs ISA_ARGUMENT_ONE_BITS_START ARGUMENT_ONE_BITS (a_argument_one aligned);
  Ok (MkIsaRow address outputs).

(** The loop over the defined instructions. *)
Fixpoint fill_table (rows : list IsaTableRow) (aligned : list AlignedInstruction) : isa_result (list IsaTableRow) :=
  match aligned with
  | [] => Ok rows
  | a :: aligned =>
      row ← from_aligned a;
      target ← ok_or (rows !! Z.to_nat (ir_address row)) IsaErr.AddressOverflow;
      if is_defined target then Err (IsaErr.DuplicateAddress (ir_address row))
      else fill_table (<[Z.to_nat (ir_address row) := row]> rows) aligned
  end.
Definition fixed_isa_table : isa_result (list IsaTableRow) :=
  fill_table (map undefined_row (seqZ 0 ISA_TABLE_ROW_COUNT)) all_rows.

(** ** Its rows *)

Definition row_outputs (aligned : AlignedInstruction) : list Z :=
  match from_aligned aligned with Ok row => ir_outputs row | Err _ => [] end.
Definition output (outputs : list Z) (index : Z) : Z := default 0 (outputs !! Z.to_nat index).
(** The [count] outputs from [start] as a number. *)
Definition output_bits (outputs : list Z) (start count : Z) : Z :=
  foldr (λ bit n, output outputs (start + bit) + 2 * n) 0 (seqZ 0 count).

(** What a row says of its instruction. *)
Definition outputs_tell (byte_len register_writes : Z) (d : InstructionDescriptor) (os : list Z) : bool :=
  (length os =? 38)%nat &&
  forallb (λ o, (0 <=? o) && (o <? 2 ^ 64)) os &&
  forallb (λ o, (o =? 0) || (o =? 1)) (drop 11 os) &&
  (output_bits os ISA_OPERATION_BITS_START 6 =? d_operation d) &&
  (output_bits os ISA_ARGUMENT_ZERO_BITS_START 3 =? argument_zero d) &&
  (output_bits os ISA_ARGUMENT_ONE_BITS_START 4 =? argument_one d) &&
  (output_bits os ISA_WRITE_BITS_START 13 =? register_writes) &&
  (output os ISA_OPCODE_FETCHES + output os ISA_IMMEDIATE_READS =? byte_len).
Lemma all_rows_tell : forallb (λ i, let a := from_decoded i in
  outputs_tell (byte_len i) (a_register_writes a) (descriptor (operation i)) (row_outputs a)) all_defined = true.
Proof. vm_compute. reflexivity. Qed.

Lemma output_bits_spec outputs start count n :
  0 <= count → (∀ b, 0 <= b < count → output outputs (start + b) = 0 ∨ output outputs (start + b) = 1) →
  output_bits outputs start count = n →
  0 <= n < 2 ^ count ∧ ∀ b, 0 <= b < count → output outputs (start + b) = Z.b2z (Z.testbit n b).
Proof.
  intros Hc Hb <-. unfold output_bits.
  assert (Hg : ∀ (k : nat) from, 0 <= from → from + Z.of_nat k <= count →
    let v := foldr (λ bit n, output outputs (start + bit) + 2 * n) 0 (seqZ from (Z.of_nat k)) in
    0 <= v < 2 ^ Z.of_nat k ∧ ∀ b, 0 <= b < Z.of_nat k → output outputs (start + (from + b)) = Z.b2z (Z.testbit v b)).
  { induction k as [| k IH]; intros from Hf Hk; [split; [done | lia] |].
    rewrite seqZ_cons by lia. cbn [foldr]. rewrite Nat2Z.inj_succ, Z.pred_succ, Z.pow_succ_r by lia.
    destruct (IH (Z.succ from)) as [Hv Hbits]; [lia | lia |]. cbv zeta in *. set (v := foldr _ 0 _) in *.
    destruct (Hb from) as [E0 | E0]; [lia | |]; rewrite E0; (split; [lia |]); intros b Hbb;
      (destruct (decide (b = 0)) as [-> | Hne];
       [rewrite Z.add_0_r, E0, Z.bit0_odd; by rewrite ?Z.add_0_l, ?Z.odd_mul, ?Z.odd_add_mul_2 |
        replace (from + b) with (Z.succ from + (b - 1)) by lia; rewrite Hbits by lia; f_equal;
        replace b with (Z.succ (b - 1)) at 2 by lia; rewrite ?Z.add_0_l;
        first [by rewrite Z.testbit_even_succ by lia | rewrite Z.add_comm; by rewrite Z.testbit_odd_succ by lia]]). }
  specialize (Hg (Z.to_nat count) 0). rewrite Z2Nat.id in Hg by lia. cbv zeta in Hg. destruct Hg as [H1 H2]; [lia | lia |].
  split; [done |]. intros b Hbb. by rewrite <- H2 by lia.
Qed.

(** The outputs of a defined instruction. *)
Record tells (byte_len register_writes : Z) (d : InstructionDescriptor) (os : list Z) : Prop := {
  tells_length : length os = 38%nat;
  tells_u64 k : 0 <= output os k < 2 ^ 64;
  tells_operation : output_bits os ISA_OPERATION_BITS_START 6 = d_operation d;
  tells_argument_zero : output_bits os ISA_ARGUMENT_ZERO_BITS_START 3 = argument_zero d;
  tells_argument_one : output_bits os ISA_ARGUMENT_ONE_BITS_START 4 = argument_one d;
  tells_writes : output_bits os ISA_WRITE_BITS_START 13 = register_writes;
  tells_length_bytes : output os ISA_OPCODE_FETCHES + output os ISA_IMMEDIATE_READS = byte_len;
  tells_bits k : 11 <= k → output os k = 0 ∨ output os k = 1
}.
Lemma outputs_tell_spec byte_len register_writes d os : outputs_tell byte_len register_writes d os = true →
  tells byte_len register_writes d os.
Proof.
  unfold outputs_tell. intros H. repeat (apply andb_true_iff in H as [H ?]).
  repeat match goal with E : (_ =? _) = true |- _ => apply Z.eqb_eq in E end. apply Nat.eqb_eq in H.
  repeat match goal with E : forallb _ _ = true |- _ => rewrite forallb_forall in E end.
  split; try done.
  - intros k. unfold output. destruct (os !! Z.to_nat k) as [o |] eqn:E; cbn; [| lia].
    apply list_elem_of_lookup_2, list_elem_of_In in E. match goal with Hf : ∀ x, In x os → _ |- _ => apply Hf in E; lia end.
  - intros k Hk. unfold output. destruct (os !! Z.to_nat k) as [o |] eqn:E; cbn; [| by left].
    assert (Hd : drop 11 os !! (Z.to_nat k - 11)%nat = Some o) by (rewrite lookup_drop, <- E; f_equal; lia).
    apply list_elem_of_lookup_2, list_elem_of_In in Hd. match goal with Hf : ∀ x, In x (drop 11 os) → _ |- _ => apply Hf in Hd; lia end.
Qed.
Lemma defined_tells i : defined_instruction i →
  tells (byte_len i) (a_register_writes (from_decoded i)) (descriptor (operation i)) (row_outputs (from_decoded i)).
Proof. intros Hi. apply outputs_tell_spec. pose proof (defined_forall _ all_rows_tell i Hi) as H. cbv beta zeta in H. exact H. Qed.

(** ** The whole table *)

Definition instruction_address (i : DecodedInstruction) : Z :=
  key_prefix (a_key (from_decoded i)) * 256 + key_opcode (a_key (from_decoded i)).
Definition isa_row_eqb (a b : IsaTableRow) : bool :=
  (ir_address a =? ir_address b) && bool_decide (ir_outputs a = ir_outputs b).
Definition undefined_correct (addresses : list Z) (rows : list IsaTableRow) : bool :=
  forallb (λ k, existsb (Z.eqb k) addresses ||
    match rows !! Z.to_nat k with Some row => isa_row_eqb row (undefined_row k) | None => false end) (seqZ 0 512).
Definition table_correct (rows : list IsaTableRow) : bool :=
  (length rows =? 512)%nat &&
  forallb (λ i, match rows !! Z.to_nat (instruction_address i), from_aligned (from_decoded i) with
                | Some row, Ok row' => (ir_address row =? instruction_address i) && isa_row_eqb row row'
                | _, _ => false
                end) all_defined &&
  undefined_correct (map instruction_address all_defined) rows.
Lemma fixed_table_correct : match fixed_isa_table with Ok rows => table_correct rows | Err _ => false end = true.
Proof. vm_compute. reflexivity. Qed.
