(* ===== verification/Cpus.v ===== *)
(** * Theorems on the CPU relation and the instruction table

    The CPU relation is a lawful uniform relation: it evaluates on every row and buffer of the declared
    shapes, and its constraints have the declared degree along lines, so that the zero check proves it. *)
From Stdlib Require Import Ring Qcanon.
From S2P Require Import Sumchecks Uniforms.
From S2P Require Import Prelude IsaTypes Metadata Decode Alignment Image Field Fold Sumcheck SumcheckSpec Uniform UniformSpec.
From S2P Require Import Columns CpuRow CpuFrame CpuArithmetic CpuControl Cpu CpuPoly Embed IsaTable.

Local Open Scope Z_scope.

Section cpu.
Context {F : Type} `{FieldLaws F} `{!CudaFolder F, !Transcript F, !UniformExternal}.
Local Open Scope field_scope.
Add Ring cpus_ring : fl_ring.

Abbreviation used := (Z.to_nat CPU_STRUCTURAL_USED_CONSTRAINT_COUNT).
Abbreviation declared := (Z.to_nat CPU_STRUCTURAL_CONSTRAINT_COUNT).
Abbreviation columns := (Z.to_nat NATIVE_TRACE_COLUMN_COUNT).

(** The values of the constraints on a row. *)
Definition row_constraints (row : list F) : list F := map (denote (row_view row)) expressions.
Lemma length_row_constraints row : length (row_constraints row) = used.
Proof. unfold row_constraints. rewrite length_map. apply Nat2Z.inj. rewrite expressions_count. by vm_compute. Qed.

Lemma evaluate_row row buffer : length row = columns → length buffer = declared →
  evaluate MkCpuStructuralRelation row buffer = Ok (row_constraints row ++ replicate (declared - used) f0).
Proof.
  intros Hr Hb. unfold evaluate, cpu_relation. rewrite Hr, Hb, !Nat.eqb_refl. cbn [negb orb].
  unfold evaluate_constraints. rewrite evaluate_expressions. cbn [ok_or]. rewrite bind_of_ok.
  pose proof (sink_spec (row_constraints row) buffer) as Hs. rewrite length_row_constraints, Hb in Hs.
  specialize (Hs ltac:(apply Nat.leb_le; by vm_compute)). apply bind_Some in Hs as (sink & E & Hf).
  fold (row_constraints row). rewrite E. cbn [ok_or]. rewrite bind_of_ok, Hf. cbn [ok_or]. rewrite bind_of_ok.
  by rewrite Z2Nat.id, Z.eqb_refl.
Qed.

(** C21. The CPU relation evaluates. On a row of 3281 columns and a buffer of the declared size it writes the values
    of its 5259 constraints, whatever the buffer held, and zeros in the rest; on any other shape it reports the
    shape. *)
Theorem cpu_relation_evaluates (row buffer : list F) :
  (length row = columns → length buffer = declared →
     ∃ constraints, evaluate_constraints_for_view (RowView0 := row_view row) = Some constraints ∧ length constraints = used ∧
       evaluate MkCpuStructuralRelation row buffer = Ok (constraints ++ replicate (declared - used) f0)) ∧
  (length row ≠ columns ∨ length buffer ≠ declared → evaluate MkCpuStructuralRelation row buffer = Err UniErr.Shape).
Proof.
  split.
  - intros Hr Hb. exists (row_constraints row). split; [apply evaluate_expressions |].
    split; [apply length_row_constraints | by apply evaluate_row].
  - intros Hs. unfold evaluate, cpu_relation.
    assert (negb (length row =? columns)%nat || negb (length buffer =? declared)%nat = true) as ->; [| done].
    apply orb_true_iff. rewrite !negb_true_iff, !Nat.eqb_neq. done.
Qed.

(** ** Degree *)

Lemma values_row row : length row = columns →
  UniformSpec.values MkCpuStructuralRelation row = row_constraints row ++ replicate (declared - used) f0.
Proof. intros Hr. unfold UniformSpec.values. rewrite evaluate_row; [done | done | by rewrite length_replicate]. Qed.

Lemma expression_degree e : e ∈ expressions → degree_below (Z.to_nat CPU_STRUCTURAL_MAX_DEGREE) e = true.
Proof. intros He. pose proof expressions_degree as Hd. rewrite forallb_forall in Hd. by apply Hd, list_elem_of_In. Qed.
Lemma expression_columns e : e ∈ expressions → reads_below NATIVE_TRACE_COLUMN_COUNT e = true.
Proof. intros He. pose proof expressions_columns as Hd. rewrite forallb_forall in Hd. by apply Hd, list_elem_of_In. Qed.

Lemma line_row (lines : list (F * F)) x k : length lines = columns → 0 <= k < NATIVE_TRACE_COLUMN_COUNT →
  row_view (map (λ '(a, b), a + x * b) lines) k = line_view (row_view (map fst lines)) (row_view (map snd lines)) x k.
Proof.
  intros Hl Hk. unfold row_view, line_view. rewrite !list_lookup_fmap.
  destruct (lines !! Z.to_nat k) as [[a b] |] eqn:E; [done |]. apply lookup_ge_None in E. lia.
Qed.

Lemma cpu_degree (lines : list (F * F)) i : length lines = columns →
  is_poly (S (Z.to_nat CPU_STRUCTURAL_MAX_DEGREE))
    (λ x, default f0 (UniformSpec.values MkCpuStructuralRelation (map (λ '(a, b), a + x * b) lines) !! i)).
Proof.
  intros Hl. set (view := row_view (map fst lines)). set (slope := row_view (map snd lines)).
  destruct (expressions !! i) as [e |] eqn:E.
  - pose proof (list_elem_of_lookup_2 _ _ _ E) as He. apply (is_poly_ext _ (λ x, denote (line_view view slope x) e)).
    + intros x. rewrite values_row by (by rewrite length_map). unfold row_constraints.
      rewrite lookup_app_l by (rewrite length_map; by apply lookup_lt_Some in E). rewrite list_lookup_fmap, E. cbn [fmap option_fmap option_map default].
      apply (denote_ext _ _ NATIVE_TRACE_COLUMN_COUNT); [| by apply expression_columns]. intros k Hk. symmetry. by apply line_row.
    + by apply degree_below_poly, expression_degree.
  - apply (is_poly_more 1); [lia |]. apply (is_poly_ext _ (λ _, f0)); [| apply is_poly_const]. intros x.
    rewrite values_row by (by rewrite length_map). apply lookup_ge_None in E.
    rewrite lookup_app_r by (unfold row_constraints; by rewrite length_map).
    destruct (replicate _ _ !! _) eqn:E'; [| done]. by apply lookup_replicate in E' as [-> _].
Qed.

#[global] Instance cpu_laws : UniformLaws (F := F) CpuStructuralRelation.
Proof.
  split.
  - intros [] row out Hr Ho _. cbn [column_count constraint_count cpu_relation] in Hr, Ho.
    rewrite evaluate_row, values_row by done. split; [done |].
    rewrite length_app, length_row_constraints, length_replicate. by vm_compute.
  - intros [] lines i Hl. by apply cpu_degree.
Qed.

(** C22. Every constraint of the CPU relation has at most the declared degree. Restricted to a line of rows (two
    rows a and b and the rows a + x b) every constraint is a polynomial in x of at most 19 coefficients; this
    is what the zero check of the relation relies on. *)
Theorem cpu_relation_degree (lines : list (F * F)) i : length lines = columns →
  is_poly (S (max_constraint_degree MkCpuStructuralRelation))
    (λ x, default f0 (UniformSpec.values MkCpuStructuralRelation (map (λ '(a, b), a + x * b) lines) !! i)).
Proof. apply cpu_degree. Qed.

(** The selector cache is transparent. Whatever operation or argument selectors a row is asked for, in any
    order and repeatedly, each answer is the product of bits of its own code. *)
Theorem selector_cache_transparent {view : RowView F} (start width : Z) (count : nat) (codes : list Z) :
  Forall (λ code, 0 <= code) codes →
  (cache_select_all (argument_selector start width) codes (cache_new count)).1 = map (argument_selector start width) codes.
Proof.
  intros Hc. pose proof (cache_new_agrees (argument_selector start width) count) as Ha.
  revert Ha. generalize (cache_new (F := F) count). induction Hc as [| code codes Hcode _ IH]; intros c Ha; [done |].
  cbn [cache_select_all map]. destruct (cache_select_direct (argument_selector start width) code c Hcode Ha) as [E Ha'].
  destruct (cache_select (argument_selector start width) code c) as [selector c']. cbn [fst snd] in *. subst selector.
  specialize (IH c' Ha'). destruct (cache_select_all (argument_selector start width) codes c') as [selectors c'']. cbn [fst] in *. by rewrite IH.
Qed.
End cpu.

Lemma all_defined_defined i : i ∈ all_defined → defined_instruction i.
Proof.
  unfold all_defined, primary_entries, cb_entries. rewrite elem_of_app, list_elem_of_omap, list_elem_of_fmap. intros [(x & Hx & E) | (b & -> & Hb)].
  - apply list_elem_of_fmap in Hx as (b & -> & Hb). apply elem_of_seqZ in Hb. left. exists b. split; [lia |].
    unfold defined_only in E. by destruct (decode_primary b); [injection E as -> |].
  - apply elem_of_seqZ in Hb. right. exists b. split; [lia | done].
Qed.

Lemma isa_row_eqb_eq a b : isa_row_eqb a b = true → a = b.
Proof.
  destruct a as [a os], b as [b os']. intros [Ea Eo]%andb_true_iff. apply Z.eqb_eq in Ea.
  apply bool_decide_eq_true in Eo. cbn in *. by subst.
Qed.
Lemma matching_row (o : option IsaTableRow) (r : isa_result IsaTableRow) k :
  match o, r with Some row, Ok row' => (ir_address row =? k) && isa_row_eqb row row' | _, _ => false end = true →
  ∃ row, o = Some row ∧ r = Ok row ∧ ir_address row = k.
Proof.
  destruct o as [row |], r as [row' |]; try discriminate. intros [Ea%Z.eqb_eq <-%isa_row_eqb_eq]%andb_true_iff. by exists row.
Qed.
Lemma undefined_match (o : option IsaTableRow) row' :
  match o with Some row => isa_row_eqb row row' | None => false end = true → o = Some row'.
Proof. destruct o as [row |]; [| discriminate]. by intros ->%isa_row_eqb_eq. Qed.

Lemma table_defined rows : table_correct rows = true → ∀ i, defined_instruction i →
  ∃ row, rows !! Z.to_nat (instruction_address i) = Some row ∧ from_aligned (from_decoded i) = Ok row ∧
    ir_address row = instruction_address i.
Proof.
  intros [[_ Hd]%andb_true_iff _]%andb_true_iff i Hi. pose proof (defined_forall _ Hd i Hi) as E.
  cbv beta in E. exact (matching_row _ _ _ E).
Qed.
Lemma undefined_checked (addresses : list Z) (rows : list IsaTableRow) : undefined_correct addresses rows = true →
  ∀ address, 0 <= address < 512 → address ∉ addresses → rows !! Z.to_nat address = Some (undefined_row address).
Proof.
  unfold undefined_correct. rewrite forallb_forall. intros Hu address Ha Hn. specialize (Hu address).
  rewrite <- list_elem_of_In, elem_of_seqZ in Hu. specialize (Hu ltac:(lia)).
  apply orb_true_iff in Hu as [He | He]; [| by apply undefined_match].
  apply existsb_exists in He as (k & Hk & ->%Z.eqb_eq). by apply list_elem_of_In in Hk.
Qed.
Lemma table_undefined rows : table_correct rows = true → ∀ address, 0 <= address < 512 →
  (∀ i, defined_instruction i → instruction_address i ≠ address) → rows !! Z.to_nat address = Some (undefined_row address).
Proof.
  intros [_ Hu]%andb_true_iff address Ha Hn. apply (undefined_checked (map instruction_address all_defined) rows Hu address Ha).
  intros Hin%list_elem_of_In. apply in_map_iff in Hin as (i & <- & Hi). apply list_elem_of_In in Hi.
  by apply (Hn i); [apply all_defined_defined |].
Qed.
Lemma table_length rows : table_correct rows = true → length rows = 512%nat.
Proof. intros [[Hl _]%andb_true_iff _]%andb_true_iff. by apply Nat.eqb_eq. Qed.

(** C23. The fixed instruction table is exact. It has 512 rows; the row of each of the 501 defined instructions is
    the output row of its own alignment row, at the address of its prefix and opcode; every other row is the
    undefined row of its address. *)
Theorem fixed_table_exact : ∃ rows, fixed_isa_table = Ok rows ∧ length rows = 512%nat ∧
  (∀ i, defined_instruction i → ∃ row, rows !! Z.to_nat (instruction_address i) = Some row ∧
     from_aligned (from_decoded i) = Ok row ∧ ir_address row = instruction_address i) ∧
  (∀ address, 0 <= address < 512 → (∀ i, defined_instruction i → instruction_address i ≠ address) →
     rows !! Z.to_nat address = Some (undefined_row address)).
Proof.
  pose proof fixed_table_correct as Ht. revert Ht. generalize fixed_isa_table. intros [rows |] Ht; [| discriminate Ht].
  exists rows. split; [done |]. split; [by apply table_length |]. split; [by apply table_defined | by apply table_undefined].
Qed.

(** ** Rational rows *)

#[local] Existing Instance folding_device.
#[local] Existing Instance counting_transcript.
#[local] Existing Instance no_external.
Definition blank_row : list Qc := replicate (Z.to_nat NATIVE_TRACE_COLUMN_COUNT) (from_u64 0).
Definition dirty_buffer : list Qc := replicate (Z.to_nat CPU_STRUCTURAL_CONSTRAINT_COUNT) (from_u64 7).

Lemma cpu_relation_evaluates_witness : length blank_row = Z.to_nat NATIVE_TRACE_COLUMN_COUNT ∧
  (∃ constraints, evaluate_constraints_for_view (RowView0 := row_view blank_row) = Some constraints ∧
    length constraints = Z.to_nat CPU_STRUCTURAL_USED_CONSTRAINT_COUNT ∧
    evaluate MkCpuStructuralRelation blank_row dirty_buffer = Ok (constraints ++ replicate
      (Z.to_nat CPU_STRUCTURAL_CONSTRAINT_COUNT - Z.to_nat CPU_STRUCTURAL_USED_CONSTRAINT_COUNT) f0)) ∧
  evaluate MkCpuStructuralRelation [] dirty_buffer = Err UniErr.Shape.
Proof.
  split; [apply length_replicate |]. split.
  - apply (cpu_relation_evaluates blank_row dirty_buffer); apply length_replicate.
  - apply (cpu_relation_evaluates [] dirty_buffer). by left.
Defined.

Lemma cpu_relation_degree_witness : length (zip blank_row blank_row) = Z.to_nat NATIVE_TRACE_COLUMN_COUNT ∧
  is_poly (S (max_constraint_degree MkCpuStructuralRelation)) (λ x, default f0
    (UniformSpec.values MkCpuStructuralRelation (map (λ '(a, b), fadd a (fmul x b)) (zip blank_row blank_row)) !! 4000%nat)).
Proof.
  assert (Hl : length (zip blank_row blank_row) = Z.to_nat NATIVE_TRACE_COLUMN_COUNT)
    by (unfold blank_row; rewrite length_zip_with, length_replicate, Nat.min_id; done).
  split; [exact Hl |]. exact (cpu_relation_degree (zip blank_row blank_row) 4000%nat Hl).
Defined.

Lemma selector_cache_transparent_witness :
  (cache_select_all (F := Qc) (argument_selector (RowView0 := row_view blank_row) ISA_OPERATION_BITS_START 6) [19; 3; 19; 70]
    (cache_new 64)).1 = map (argument_selector (RowView0 := row_view blank_row) ISA_OPERATION_BITS_START 6) [19; 3; 19; 70].
Proof.
  apply (selector_cache_transparent (view := row_view blank_row) ISA_OPERATION_BITS_START 6 64 [19; 3; 19; 70]). by repeat constructor.
Defined.
