(* ===== verification/CpuSound.v ===== *)
(** * What the CPU relation says of an instruction row: the common part (crates/zksm83-jolt/src/cpu.rs)

    A row of an instruction satisfies all constraints, has the mode of an instruction, shows the outputs of
    the instruction table, and holds the registers before. Its columns are then integers, its selectors tell
    the operation and the arguments of the instruction, and the registers the instruction does not write stay. *)
From Stdlib Require Import Ring.
From S2P Require Import Prelude IsaTypes Metadata Decode Alignment Flags Alu Commitment State Bus Execute Access Effects Field.
From S2P Require Import Columns CpuRow CpuFrame CpuArithmetic CpuControl CpuDevices CpuPeripherals CpuMedia Cpu Embed IsaTable.

(** The scalars of the CPU at the head of [encode_state_scalars], and the place of each component. *)
Definition cpu_scalars (c : CpuState) : list Z :=
  let r := registers c in
  [reg_a r; reg_b r; reg_c r; reg_d r; reg_e r; reg_h r; reg_l r; flags_byte (flags c); pc c; sp c; ime_code (ime c);
   run_code (run_state c); m_cycles c].
Definition cpu_scalar (c : CpuState) (j : Z) : Z := default 0 (cpu_scalars c !! Z.to_nat j).
Definition component_index (k : SC.StateComponent) : Z :=
  match k with
  | SC.A => 0 | SC.B => 1 | SC.C => 2 | SC.D => 3 | SC.E => 4 | SC.H => 5 | SC.L => 6 | SC.F => 7 | SC.Pc => 8
  | SC.Sp => 9 | SC.Ime => 10 | SC.RunState => 11 | SC.MCycles => 12
  end.
Lemma component_scalar k c : cpu_scalar c (component_index k) = component_value k c.
Proof. by destruct k. Qed.

(** The write bits of the alignment row are the declared writes. *)
Lemma all_write_bits : forallb (λ i, forallb (λ k,
    Bool.eqb (Z.testbit (a_register_writes (from_decoded i)) (component_index k)) (writes (state_access i) k))
  all_components) all_defined = true.
Proof. vm_compute. reflexivity. Qed.
Lemma write_bit i k : defined_instruction i →
  Z.testbit (a_register_writes (from_decoded i)) (component_index k) = writes (state_access_of (operation i)) k.
Proof.
  intros Hi. pose proof (defined_forall _ all_write_bits i Hi) as Hk. cbv beta in Hk. rewrite forallb_forall in Hk.
  assert (Hw : state_access i = state_access_of (operation i)).
  { apply (decoded_pattern i). destruct Hi as [(b & _ & ?) | (b & _ & ->)]; eauto. }
  rewrite <- Hw. apply eqb_prop, Hk, list_elem_of_In. unfold all_components.
  destruct k; repeat first [apply list_elem_of_here | apply list_elem_of_further].
Qed.

(** The bytes of an instruction. *)
Definition operation_length (o : Op.Operation) : Z :=
  match o with
  | Op.RelativeJump _ | Op.Load8Immediate _ | Op.Alu8 _ Opd.Immediate | Op.HighImmediateLoad _ | Op.AddSpOffset
  | Op.LoadHlSpOffset | Op.Stop | Op.Cb _ _ => 2
  | Op.Load16Immediate _ | Op.StoreSpAbsolute | Op.Jump _ | Op.Call _ | Op.AbsoluteAccumulatorLoad _ => 3
  | _ => 1
  end.
Lemma defined_length i : defined_instruction i → byte_len i = operation_length (operation i).
Proof.
  intros Hi. pose proof (defined_forall (λ i, byte_len i =? operation_length (operation i)) ltac:(by vm_compute) i Hi) as E.
  by apply Z.eqb_eq.
Qed.

Lemma elem_of_range k n : 0 <= k < n → k ∈ range n.
Proof. intros Hk. apply elem_of_seqZ. lia. Qed.

(** Integers of a field equation. *)
Ltac to_integers E :=
  repeat rewrite of_Z_u64 in E by lia;
  rewrite <- ?of_Z_0, <- ?of_Z_1 in E;
  repeat first [rewrite <- of_Z_mul in E | rewrite <- of_Z_add in E | rewrite <- of_Z_sub in E].

(** Selectors of known codes. *)
Ltac known_selectors :=
  cbn [operand8_code register16_code stack_register_code indirect_code direction_code alu_code condition_code cb_operation_code];
  repeat match goal with
    | |- context [Z.eqb ?a ?b] => let r := eval vm_compute in (Z.eqb a b) in change (Z.eqb a b) with r
    end;
  cbn [Z.b2z]; rewrite ?of_Z_0, ?of_Z_1.

Section rows.
Context {F : Type} `{FieldLaws F} {view : RowView F}.
Local Open Scope field_scope.
Add Ring sound_ring : fl_ring.

Definition satisfied (l : list F) : Prop := Forall (λ c, c = f0) l.

Lemma satisfied_app l l' : satisfied (l ++ l') ↔ satisfied l ∧ satisfied l'.
Proof. unfold satisfied. apply Forall_app. Qed.
Lemma satisfied_cons c l : satisfied (c :: l) ↔ c = f0 ∧ satisfied l.
Proof. apply Forall_cons_iff. Qed.
Lemma satisfied_map {A} (f : A → F) l : satisfied (map f l) ↔ ∀ x, x ∈ l → f x = f0.
Proof.
  unfold satisfied. rewrite Forall_forall. split.
  - intros Hs x Hx. apply Hs. by apply list_elem_of_fmap_2.
  - intros Hs y (x & -> & Hx)%list_elem_of_fmap. by apply Hs.
Qed.
Lemma satisfied_each {A} (f : A → list F) l : satisfied (for_each l f) ↔ ∀ x, x ∈ l → satisfied (f x).
Proof.
  unfold for_each. induction l as [| x l IH]; cbn [flat_map].
  - split; [intros _ x Hx; by apply elem_of_nil in Hx | intros _; constructor].
  - rewrite satisfied_app, IH. split.
    + intros [Hx Hl] y [-> | Hy]%elem_of_cons; auto.
    + intros Hs. split; [apply Hs, list_elem_of_here | intros y Hy; by apply Hs, list_elem_of_further].
Qed.

(** A row of the instruction [i] with the CPU [c] before it. *)
Record instruction_row (i : DecodedInstruction) (c : CpuState) : Prop := {
  row_defined : defined_instruction i;
  row_satisfied : ∃ cs, evaluate_constraints_for_view = Some cs ∧ satisfied cs;
  row_mode : mode INSTRUCTION_MODE = f1;
  row_isa k : 0 <= k < ISA_OUTPUT_COUNT → isa k = from_u64 (output (row_outputs (from_decoded i)) k);
  row_cpu : cpu_ok c;
  row_before j : 0 <= j < 13 → before j = from_u64 (cpu_scalar c j);
  row_address : has_bits TRACE_ISA_ADDRESS_START 9 (instruction_address i)
}.

(** ** The constraints of each component *)

Record components_satisfied : Prop := {
  holds_ranges : satisfied constrain_cpu_ranges;
  holds_frames : satisfied constrain_cycles_and_frames;
  holds_bytes : satisfied Semantics.constrain_byte_arithmetic;
  holds_flow : satisfied Control.constrain_instruction_flow;
  holds_data : satisfied Data.constrain_data_and_simple_operations;
  holds_words : satisfied Word.constrain_word_operations;
  holds_stack : satisfied Stack.constrain_stack_operations;
  holds_rotates : satisfied Bit.constrain_rotate_and_bit_operations;
  holds_daa : satisfied Daa.constrain_decimal_adjust;
  holds_bus : satisfied constrain_bus;
  holds_selectors : satisfied constrain_selectors
}.
Lemma instruction_components i c : instruction_row i c → components_satisfied.
Proof.
  intros [_ (cs & E & Hs) _ _ _ _ _]. unfold evaluate_constraints_for_view in E.
  apply bind_Some in E as (m & _ & E). apply bind_Some in E as (m' & _ & E). apply (inj Some) in E. subst cs.
  rewrite !satisfied_app in Hs. by split; tauto.
Qed.

(** ** Columns as integers *)

Lemma bit_range_bits start count : satisfied (constrain_bit_range start count) → 0 <= count →
  ∀ i, 0 <= i < count → boolean (value (start + i)%Z) = f0.
Proof. unfold constrain_bit_range. rewrite satisfied_map. intros Hs Hc i Hi. apply Hs, elem_of_seqZ. lia. Qed.

(** A column that is the sum of its bits. *)
Lemma column_bits x start width : 0 <= width <= 64 → (∀ i, 0 <= i < width → boolean (value (start + i)%Z) = f0) →
  x - packed_bits start width = f0 → ∃ n, has_bits start width n ∧ x = of_Z n.
Proof.
  intros Hw Hb E. destruct (has_bits_exist start width) as [n Hn]; [lia | done |]. exists n. split; [done |].
  apply fsub_zero in E. by rewrite E, (packed_bits_value _ _ _ Hn).
Qed.
Lemma bits_of_u64 x start width n m : has_bits start width n → x = of_Z n → x = from_u64 m →
  0 <= m < 18446744073709551616 → width <= 64 → n = m.
Proof.
  intros [Hn _] En Em Hm Hw. assert (2 ^ width <= 2 ^ 64) by (apply Z.pow_le_mono_r; lia).
  rewrite Em, of_Z_u64 in En by done. symmetry. apply of_Z_inj in En; lia.
Qed.

Lemma cpu_byte_bits j : components_satisfied → 0 <= j < 8 →
  (∃ n, has_bits (TRACE_BEFORE_CPU_BYTE_BITS_START + j * 8)%Z 8 n ∧ before j = of_Z n) ∧
  (∃ n, has_bits (TRACE_AFTER_CPU_BYTE_BITS_START + j * 8)%Z 8 n ∧ after j = of_Z n).
Proof.
  intros [Hr _ _ _ _ _ _ _ _ _ _] Hj. unfold constrain_cpu_ranges in Hr. rewrite !satisfied_app, !satisfied_each in Hr.
  destruct Hr as (Hbb & Hab & _ & _ & _ & _ & Hbytes & _). specialize (Hbytes j).
  rewrite !satisfied_cons in Hbytes. destruct Hbytes as (Eb & Ea & _); [apply elem_of_seqZ; lia |].
  split; apply column_bits; try lia; try done; intros i Hi; rewrite <- Z.add_assoc;
    (eapply bit_range_bits; [eassumption | lia | lia]).
Qed.

Lemma before_byte i c j : instruction_row i c → 0 <= j < 8 →
  has_bits (TRACE_BEFORE_CPU_BYTE_BITS_START + j * 8)%Z 8 (cpu_scalar c j) ∧ before j = of_Z (cpu_scalar c j) ∧
  is_u8 (cpu_scalar c j).
Proof.
  intros Hrow Hj. destruct (cpu_byte_bits j (instruction_components i c Hrow) Hj) as [(n & Hn & E) _].
  assert (Hs : is_u8 (cpu_scalar c j)).
  { pose proof (row_cpu _ _ Hrow) as Hc. destruct Hc as [[] [] _ _ _].
    assert (Hj' : j = 0 ∨ j = 1 ∨ j = 2 ∨ j = 3 ∨ j = 4 ∨ j = 5 ∨ j = 6 ∨ j = 7) by lia.
    by repeat destruct Hj' as [-> | Hj']; try subst j. }
  assert (En : n = cpu_scalar c j) by (eapply bits_of_u64; [exact Hn | exact E | apply (row_before _ _ Hrow); lia | lia | lia]).
  by subst n.
Qed.

(** ** The selectors *)

Lemma isa_has_bits i c start width n : instruction_row i c → 11 <= start → 0 <= width → (start + width <= ISA_OUTPUT_COUNT)%Z →
  output_bits (row_outputs (from_decoded i)) start width = n → has_bits (TRACE_ISA_OUTPUT_START + start)%Z width n.
Proof.
  intros Hrow Hs Hw Hc E. pose proof (defined_tells i (row_defined _ _ Hrow)) as Ht.
  apply output_bits_spec in E as [Hn Hb]; [| done | intros b Hb; apply (tells_bits _ _ _ _ Ht); lia].
  split; [done |]. intros b Hb'. specialize (Hb b Hb'). rewrite <- Z.add_assoc.
  change (isa (start + b) = of_Z (Z.b2z (Z.testbit n b))). rewrite (row_isa _ _ Hrow) by lia. rewrite Hb. apply of_Z_u64.
  destruct (Z.testbit n b); cbn; lia.
Qed.
Lemma operation_value i c code : instruction_row i c → 0 <= code < 64 →
  operation_selector code = of_Z (Z.b2z (d_operation (descriptor (operation i)) =? code)).
Proof.
  intros Hrow Hc. apply selector_value; [| done].
  apply (isa_has_bits i c); [done | done | done | done |]. apply (defined_tells i (row_defined _ _ Hrow)).
Qed.
Lemma argument_zero_value i c code : instruction_row i c → 0 <= code < 8 →
  argument_selector ISA_ARGUMENT_ZERO_BITS_START 3 code = of_Z (Z.b2z (argument_zero (descriptor (operation i)) =? code)).
Proof.
  intros Hrow Hc. apply selector_value; [| done].
  apply (isa_has_bits i c); [done | done | done | done |]. apply (defined_tells i (row_defined _ _ Hrow)).
Qed.
Lemma argument_one_value i c code : instruction_row i c → 0 <= code < 16 →
  argument_selector ISA_ARGUMENT_ONE_BITS_START 4 code = of_Z (Z.b2z (argument_one (descriptor (operation i)) =? code)).
Proof.
  intros Hrow Hc. apply selector_value; [| done].
  apply (isa_has_bits i c); [done | done | done | done |]. apply (defined_tells i (row_defined _ _ Hrow)).
Qed.

(** ** Equations behind their selectors *)

Lemma ungate g e : g = f1 → g * e = f0 → e = f0.
Proof. intros -> E. rewrite <- E. ring. Qed.
Lemma operation_on i c code : instruction_row i c → d_operation (descriptor (operation i)) = code → 0 <= code < 64 →
  operation_selector code = f1.
Proof. intros Hr E Hc. rewrite (operation_value i c) by done. by rewrite E, Z.eqb_refl. Qed.
Lemma operation_off i c code : instruction_row i c → d_operation (descriptor (operation i)) ≠ code → 0 <= code < 64 →
  operation_selector code = f0.
Proof. intros Hr E Hc. rewrite (operation_value i c) by done. by rewrite (proj2 (Z.eqb_neq _ _) E). Qed.
Lemma argument_zero_on i c code : instruction_row i c → argument_zero (descriptor (operation i)) = code → 0 <= code < 8 →
  argument_selector ISA_ARGUMENT_ZERO_BITS_START 3 code = f1.
Proof. intros Hr E Hc. rewrite (argument_zero_value i c) by done. by rewrite E, Z.eqb_refl. Qed.
Lemma argument_one_on i c code : instruction_row i c → argument_one (descriptor (operation i)) = code → 0 <= code < 16 →
  argument_selector ISA_ARGUMENT_ONE_BITS_START 4 code = f1.
Proof. intros Hr E Hc. rewrite (argument_one_value i c) by done. by rewrite E, Z.eqb_refl. Qed.

(** ** What stays *)

Lemma write_column i c k : instruction_row i c → component_index k < 13 →
  isa (ISA_WRITE_BITS_START + component_index k)%Z = of_Z (Z.b2z (writes (state_access_of (operation i)) k)).
Proof.
  intros Hrow Hk. pose proof (row_defined _ _ Hrow) as Hi. rewrite <- write_bit by done.
  pose proof (isa_has_bits i c ISA_WRITE_BITS_START 13 (a_register_writes (from_decoded i)) Hrow ltac:(done) ltac:(done) ltac:(done)
    (tells_writes _ _ _ _ (defined_tells i Hi))) as [_ Hb].
  specialize (Hb (component_index k)). rewrite <- Hb by (by destruct k). unfold isa. by rewrite Z.add_assoc.
Qed.

Lemma unwritten_stays i c k : instruction_row i c → component_index k < 11 → writes (state_access_of (operation i)) k = false →
  after (component_index k) = of_Z (component_value k c).
Proof.
  intros Hrow Hk Hw. pose proof (holds_frames (instruction_components _ _ Hrow)) as Hf. unfold constrain_cycles_and_frames in Hf.
  rewrite !satisfied_app, !satisfied_map in Hf. destruct Hf as (_ & Hf & _).
  assert (Hr : 0 <= component_index k) by (by destruct k).
  assert (Hin : component_index k ∈ range STATE_CYCLES) by (apply elem_of_seqZ; unfold STATE_CYCLES; lia).
  specialize (Hf (component_index k) Hin). cbv zeta beta in Hf.
  rewrite (write_column i c), Hw, (row_mode _ _ Hrow) in Hf by (done || lia).
  rewrite (proj2 (Z.eqb_neq _ _)) in Hf by (unfold STATE_RUN_STATE; lia). change (of_Z (Z.b2z false)) with (f0 : F) in Hf.
  apply ungate in Hf; [| ring]. rewrite (row_before _ _ Hrow), component_scalar in Hf by lia.
  assert (E : after (component_index k) = from_u64 (component_value k c)) by (apply fsub_zero; rewrite <- Hf; ring).
  rewrite E. apply of_Z_u64. destruct (row_cpu _ _ Hrow) as [[] [] ? ? ?]. destruct k; cbn; try lia; by destruct (ime c).
Qed.

(** ** Operands *)

Lemma before_component i c k : instruction_row i c → component_index k < 13 → before (component_index k) = of_Z (component_value k c).
Proof.
  intros Hrow Hk. rewrite (row_before _ _ Hrow), component_scalar by (by destruct k).
  apply of_Z_u64. destruct (row_cpu _ _ Hrow) as [[] [] ? ? ?]. destruct k; cbn; try lia; [by destruct (ime c) | by destruct (run_state c)].
Qed.
Lemma before_register i c r : instruction_row i c → before (component_index (register_component r)) = of_Z (register8 c r).
Proof. intros Hrow. rewrite (before_component i c) by (by destruct r). by destruct r. Qed.

(** The register or the bus value that an argument's selectors route. *)
Lemma routed_operand i c (selector : Z → F) opd m : instruction_row i c →
  (∀ code, 0 <= code < 8 → selector code = of_Z (Z.b2z (operand8_code opd =? code))) →
  foldl (λ selected '(argument, state), selected + selector argument * before state) f0 register_routes + selector 6 * m =
    match opd with Opd.Register r => of_Z (register8 c r) | Opd.Immediate => f0 | Opd.IndirectHl => m end.
Proof.
  intros Hrow Hs. cbn [foldl register_routes]. rewrite !Hs by done.
  pose proof (λ r, before_register i c r Hrow) as Hb.
  destruct opd as [r | |]; [rewrite <- Hb; destruct r | |]; known_selectors; cbn [register_component component_index];
    unfold REGISTER_A, REGISTER_B, REGISTER_C, REGISTER_D, REGISTER_E, REGISTER_H, REGISTER_L; ring.
Qed.

(** ** The bus *)

(** The slots from [from] on show accesses: addresses and bytes, or only the bytes that are read. *)
Definition accesses_shown (from : Z) (l : list bus_access) : Prop := ∀ k a, l !! k = Some a →
  bus_field (from + Z.of_nat k)%Z BUS_ADDRESS_OFFSET = of_Z a.1.2 ∧ bus_field (from + Z.of_nat k)%Z BUS_VALUE_OFFSET = of_Z a.2.
Definition reads_shown (from : Z) (l : list bus_access) : Prop := ∀ k a, l !! k = Some a → shape a ≠ Shape.DataWrite →
  is_u8 a.2 ∧ bus_field (from + Z.of_nat k)%Z BUS_VALUE_OFFSET = of_Z a.2.

Lemma reads_shown_app from l l' : reads_shown from (l ++ l') ↔ reads_shown from l ∧ reads_shown (from + Z.of_nat (length l)) l'.
Proof.
  split.
  - intros Hr. split; intros k a E Ha.
    + apply Hr; [| done]. by apply lookup_app_l_Some.
    + replace (from + Z.of_nat (length l) + Z.of_nat k)%Z with (from + Z.of_nat (length l + k))%Z by lia.
      apply Hr; [| done]. by rewrite lookup_app_r, Nat.add_comm, Nat.add_sub by lia.
  - intros [H1 H2] k a E Ha. apply lookup_app_Some in E as [E | [Hk E]]; [by apply H1 |].
    replace (from + Z.of_nat k)%Z with (from + Z.of_nat (length l) + Z.of_nat (k - length l))%Z by lia. by apply H2.
Qed.
Lemma reads_shown_read from a v : reads_shown from [(Shape.DataRead, a, v)] → is_u8 v ∧ bus_field from BUS_VALUE_OFFSET = of_Z v.
Proof. intros Hr. rewrite <- (Z.add_0_r from). by apply (Hr 0%nat _ eq_refl). Qed.
Lemma accesses_shown_nil from : accesses_shown from [].
Proof. intros k a E. done. Qed.
Lemma accesses_shown_cons from s a v l :
  bus_field from BUS_ADDRESS_OFFSET = of_Z a → bus_field from BUS_VALUE_OFFSET = of_Z v → accesses_shown (from + 1) l →
  accesses_shown from ((s, a, v) :: l).
Proof.
  intros Ha Hv Hl [| k] b E; cbn [lookup] in E.
  - injection E as <-. by rewrite Z.add_0_r.
  - replace (from + Z.of_nat (S k))%Z with (from + 1 + Z.of_nat k)%Z by lia. by apply Hl.
Qed.
Lemma accesses_shown_app from l l' :
  accesses_shown from l → accesses_shown (from + Z.of_nat (length l)) l' → accesses_shown from (l ++ l').
Proof.
  intros H1 H2 k a E. destruct (proj1 (lookup_app_Some l l' k a) E) as [E' | [Hk E']]; [by apply H1 |].
  replace (from + Z.of_nat k)%Z with (from + Z.of_nat (length l) + Z.of_nat (k - length l))%Z by lia. by apply H2.
Qed.

(** The data components an operation writes. *)
Definition written_shown (o : Op.Operation) (c : CpuState) : Prop := ∀ k,
  k ≠ SC.Pc → k ≠ SC.Ime → k ≠ SC.RunState → k ≠ SC.MCycles → writes (state_access_of o) k = true →
  after (component_index k) = of_Z (component_value k c).

(** The CPU [c1] and the immediate bytes [d] after fetching the instruction. *)
Record fetched_row (i : DecodedInstruction) (c c1 : CpuState) (d : ImmediateBytes) : Prop := {
  fr_row : instruction_row i c;
  fr_registers : registers c1 = registers c;
  fr_flags : flags c1 = flags c;
  fr_sp : sp c1 = sp c;
  fr_pc : is_u16 (pc c1) ∧ CpuRow.value TRACE_SEQUENTIAL_PC = of_Z (pc c1);
  fr_first v : first d = Some v → is_u8 v ∧ bus_field 1 BUS_VALUE_OFFSET = of_Z v ∧
    CpuRow.value TRACE_IMMEDIATE_LOW = of_Z v ∧ has_bits TRACE_IMMEDIATE_LOW_BITS_START 8 v;
  fr_second v : second d = Some v → is_u8 v ∧ CpuRow.value TRACE_IMMEDIATE_HIGH = of_Z v
}.
End rows.

(** ** Operands of the handlers *)

Definition operand_read (operand : Opd.Operand8) (d : ImmediateBytes) (c : CpuState) (v : Z) (l : list bus_access) : Prop :=
  match operand with
  | Opd.Register r => v = register8 c r ∧ l = []
  | Opd.Immediate => first d = Some v ∧ l = []
  | Opd.IndirectHl => l = [(Shape.DataRead, register16 c R16.Hl, v)]
  end.
Definition operand_written (operand : Opd.Operand8) (v : Z) (c c' : CpuState) (l : list bus_access) : Prop :=
  match operand with
  | Opd.Register r => c' = set_register8 r v c ∧ l = []
  | Opd.Immediate => False
  | Opd.IndirectHl => c' = c ∧ l = [(Shape.DataWrite, register16 c R16.Hl, v)]
  end.
Lemma eff_read_operand `{Sha256} operand d c (Q : Z → CpuState → list bus_access → Prop) :
  (∀ v l, operand_read operand d c v l → Q v c l) → eff (read_operand operand d) c Q.
Proof.
  intros HQ. unfold read_operand. do 2 eff_step. destruct operand; eff_step; rewrite ?app_nil_r; apply HQ; try done.
  by split; [apply ok_or_ok in H0 |].
Qed.
Lemma eff_write_operand `{Sha256} operand v c (Q : () → CpuState → list bus_access → Prop) :
  (∀ c' l, operand_written operand v c c' l → Q () c' l) → eff (write_operand operand v) c Q.
Proof. intros HQ. unfold write_operand. do 2 eff_step. destruct operand; eff_step; by apply HQ. Qed.

(** Reads of a memory operand whose address the relation does not bind to HL. *)
Definition address_bound (o : Op.Operation) : bool :=
  match o with
  | Op.Alu8 _ Opd.IndirectHl | Op.Load8 (Opd.Register _) Opd.IndirectHl => false
  | _ => true
  end.

(** What a row says after the operation: the components written and the accesses made. *)
Definition row_post {F} `{FieldLaws F, !RowView F} (i : DecodedInstruction) (c : CpuState) (l : list bus_access) : Prop :=
  reads_shown (byte_len i) l →
  written_shown (operation i) c ∧ (address_bound (operation i) = true → accesses_shown (byte_len i) l).

(** The components an operation writes, one goal for each. *)
Ltac written_cases Hk :=
  let k := fresh "k" in
  let H1 := fresh in let H2 := fresh in let H3 := fresh in let H4 := fresh in
  intros k H1 H2 H3 H4 Hk; destruct k; try congruence; clear H1 H2 H3 H4.
