(* ===== verification/CpuBytes.v ===== *)
(** * Byte arithmetic rows (crates/zksm83-jolt/src/cpu/{semantics,bit,daa}.rs)

    On a row of an instruction of byte arithmetic the constraints leave one result: that of the arithmetic of
    [Alu]. *)
From Stdlib Require Import Ring.
From S2P Require Import Prelude IsaTypes Metadata Decode Alignment Flags Alu Commitment State Bus Execute Access Effects Field.
From S2P Require Import Columns CpuRow CpuFrame CpuArithmetic Embed IsaTable CpuSound.

Lemma from_bits_value z n h c :
  flags_byte (from_bits z n h c) = Z.b2z z * 128 + Z.b2z n * 64 + Z.b2z h * 32 + Z.b2z c * 16.
Proof. by destruct z, n, h, c. Qed.
Lemma b2z_range b : 0 <= Z.b2z b <= 1.
Proof. by destruct b. Qed.

(** The product of the complements of the bits. *)
Definition no_bit (r : Z) : Z :=
  let b i := 1 - Z.b2z (Z.testbit r i) in
  (b 0 * b 1) * (b 2 * b 3) * ((b 4 * b 5) * (b 6 * b 7)).
Lemma no_bit_zero r : is_u8 r → no_bit r = Z.b2z (r =? 0).
Proof.
  intros Hr. pose proof (forallb_bytes (λ r, no_bit r =? Z.b2z (r =? 0)) ltac:(by vm_compute) r Hr) as E. by apply Z.eqb_eq.
Qed.

Section rows.
Context {F : Type} `{FieldLaws F} {view : RowView F}.
Local Open Scope field_scope.
Add Ring bytes_ring : fl_ring.

(** ** The witness columns *)

(** An operand, a result with its two carries. *)
Record byte_witness (v r : Z) (carry half : bool) : Prop := {
  bw_operand_bits : has_bits TRACE_OPERAND_BITS_START 8 v;
  bw_operand : value TRACE_OPERAND_VALUE = of_Z v;
  bw_result_bits : has_bits TRACE_RESULT_BITS_START 8 r;
  bw_result : value TRACE_RESULT_VALUE = of_Z r;
  bw_carry : value TRACE_ARITHMETIC_CARRY = of_Z (Z.b2z carry);
  bw_half : value TRACE_ARITHMETIC_HALF_CARRY = of_Z (Z.b2z half);
  bw_zero : value TRACE_RESULT_ZERO = of_Z (Z.b2z (r =? 0))
}.

Lemma arithmetic_witness i c : instruction_row i c → ∃ v r carry half, byte_witness v r carry half.
Proof.
  intros Hrow. pose proof (holds_bytes (instruction_components _ _ Hrow)) as Hb.
  unfold Semantics.constrain_byte_arithmetic in Hb. rewrite !satisfied_app in Hb. destruct Hb as (Hb & _).
  unfold Semantics.constrain_arithmetic_witness in Hb.
  rewrite !satisfied_app, satisfied_each, !satisfied_map, !satisfied_cons in Hb.
  destruct Hb as (Hbits & Hcols & (Ev & Er & _) & Hpairs & (E4 & E5 & Ez & _)).
  assert (Hbit : ∀ start, start ∈ [TRACE_OPERAND_BITS_START; TRACE_RESULT_BITS_START] → ∀ k, 0 <= k < 8 →
    boolean (value (start + k)%Z) = f0).
  { intros start Hin k Hk. specialize (Hbits start Hin). rewrite satisfied_map in Hbits. by apply Hbits, elem_of_range. }
  destruct (column_bits _ TRACE_OPERAND_BITS_START 8 ltac:(done) ltac:(apply Hbit; set_solver) Ev) as (v & Hv & Ev').
  destruct (column_bits _ TRACE_RESULT_BITS_START 8 ltac:(done) ltac:(apply Hbit; set_solver) Er) as (r & Hr & Er').
  destruct (boolean_bit _ (Hcols TRACE_ARITHMETIC_CARRY ltac:(set_solver))) as [carry Ec].
  destruct (boolean_bit _ (Hcols TRACE_ARITHMETIC_HALF_CARRY ltac:(set_solver))) as [half Eh].
  exists v, r, carry, half. split; try done.
  assert (Hp : ∀ p, 0 <= p < 4 → value (TRACE_RESULT_ZERO_PRODUCTS_START + p)%Z =
    of_Z ((1 - Z.b2z (Z.testbit r (p * 2))) * (1 - Z.b2z (Z.testbit r (p * 2 + 1))))).
  { intros p Hp. specialize (Hpairs p (elem_of_range _ _ Hp)). cbv zeta beta in Hpairs.
    apply fsub_zero in Hpairs. rewrite Hpairs, <- Z.add_assoc.
    rewrite !(has_bits_bit _ 8 r) by (done || lia). by rewrite of_Z_mul, !of_Z_sub, of_Z_1. }
  cbv zeta beta in E4, E5, Ez. apply fsub_zero in E4, E5, Ez.
  rewrite Ez, E4, E5, !Hp by done. rewrite <- !of_Z_mul. f_equal. rewrite <- no_bit_zero; [reflexivity | apply Hr].
Qed.

Lemma flag_columns i c : instruction_row i c →
  before_flag_bit 4 = of_Z (Z.b2z (f_carry (flags c))) ∧ before_flag_bit 5 = of_Z (Z.b2z (f_half_carry (flags c))) ∧
  before_flag_bit 6 = of_Z (Z.b2z (f_subtract (flags c))) ∧ before_flag_bit 7 = of_Z (Z.b2z (f_zero (flags c))).
Proof.
  intros Hrow. destruct (before_byte i c 7 Hrow) as (Hb & _ & _); [done |].
  unfold before_flag_bit, f_carry, f_half_carry, f_subtract, f_zero.
  change CARRY_MASK with (2 ^ 4)%Z. change HALF_CARRY_MASK with (2 ^ 5)%Z. change SUBTRACT_MASK with (2 ^ 6)%Z. change ZERO_MASK with (2 ^ 7)%Z.
  rewrite !tst_pow2 by done. split_and!; by rewrite (has_bits_bit _ 8 _ _ Hb).
Qed.
Lemma accumulator_columns i c : instruction_row i c →
  before REGISTER_A = of_Z (reg_a (registers c)) ∧ has_bits TRACE_BEFORE_CPU_BYTE_BITS_START 8 (reg_a (registers c)).
Proof. intros Hrow. destruct (before_byte i c 0 Hrow) as (Hb & E & _); [done |]. by split. Qed.
Lemma low_nibble start n : has_bits start 8 n → packed_bits start 4 = of_Z (n mod 16).
Proof. intros Hb. by apply (packed_bits_low _ 8 n 4). Qed.

(** ** ALU rows *)

Lemma alu_constraints i c : instruction_row i c → d_operation (descriptor (operation i)) = 19 →
  satisfied (Semantics.constrain_operand_routing f1 f0 f0 f1) ∧ satisfied (Semantics.constrain_alu f1 f1).
Proof.
  intros Hrow Ho. pose proof (holds_bytes (instruction_components _ _ Hrow)) as Hb.
  unfold Semantics.constrain_byte_arithmetic in Hb. rewrite !satisfied_app in Hb. destruct Hb as (_ & Hr & _ & Ha & _).
  rewrite (row_mode _ _ Hrow) in Hr, Ha. rewrite (operation_on i c 19) in Hr, Ha by done.
  rewrite (operation_off i c 9), (operation_off i c 10) in Hr by (done || lia). done.
Qed.

(** What a selected sum or difference leaves. *)
Lemma sum_solution a v k r carry half : is_u8 a → is_u8 v → is_u8 r → 0 <= k <= 1 →
  (a + v + k - r - 256 * Z.b2z carry = 0)%Z → (a mod 16 + v mod 16 + k - r mod 16 - 16 * Z.b2z half = 0)%Z →
  r = (a + v + k) mod 256 ∧ carry = (256 <=? a + v + k) ∧ half = (16 <=? a mod 16 + v mod 16 + k).
Proof. intros ? ? ? ? ? ?. destruct carry, half; cbn [Z.b2z] in *; split_and!; zlia. Qed.
Lemma difference_solution a v k r carry half : is_u8 a → is_u8 v → is_u8 r → 0 <= k <= 1 →
  (a + 256 * Z.b2z carry - v - k - r = 0)%Z → (a mod 16 + 16 * Z.b2z half - v mod 16 - k - r mod 16 = 0)%Z →
  r = (a - v - k) mod 256 ∧ carry = (a - v - k <? 0) ∧ half = (a mod 16 - v mod 16 - k <? 0).
Proof. intros ? ? ? ? ? ?. destruct carry, half; cbn [Z.b2z] in *; split_and!; zlia. Qed.

Definition adds (alu : AluOp.AluOperation) : bool := bool_decide (alu_code alu ∈ [0; 1]).
Definition subtracts (alu : AluOp.AluOperation) : bool := bool_decide (alu_code alu ∈ [2; 3; 7]).
Definition carry_used (alu : AluOp.AluOperation) : bool := bool_decide (alu_code alu ∈ [1; 3]).

Lemma alu_sum i c v r carry half alu source : instruction_row i c → operation i = Op.Alu8 alu source →
  byte_witness v r carry half → let a := reg_a (registers c) in let k := Z.b2z (carry_used alu && f_carry (flags c)) in
  (adds alu = true → (a + v + k - r - 256 * Z.b2z carry = 0)%Z ∧ (a mod 16 + v mod 16 + k - r mod 16 - 16 * Z.b2z half = 0)%Z) ∧
  (subtracts alu = true →
    (a + 256 * Z.b2z carry - v - k - r = 0)%Z ∧ (a mod 16 + 16 * Z.b2z half - v mod 16 - k - r mod 16 = 0)%Z).
Proof.
  intros Hrow Ho Hw a k. destruct (alu_constraints i c Hrow ltac:(by rewrite Ho)) as [_ Ha].
  unfold Semantics.constrain_alu in Ha. rewrite !satisfied_app, !satisfied_each in Ha. destruct Ha as (Hadd & Hsub & _).
  destruct (accumulator_columns i c Hrow) as [Ea Hbits], (flag_columns i c Hrow) as (Ec & _).
  destruct Hw as [Hv Ev Hr Er Ecy Eh _]. pose proof (proj1 Hv) as Bv. pose proof (proj1 Hr) as Br. pose proof (proj1 Hbits) as Ba.
  fold a in Ea, Hbits, Ba. pose proof (b2z_range carry). pose proof (b2z_range half).
  assert (Bk : 0 <= k <= 1) by apply b2z_range.
  assert (Hon : argument_selector ISA_ARGUMENT_ZERO_BITS_START 3 (alu_code alu) = f1).
  { apply (argument_zero_on i c); [done | by rewrite Ho | by destruct alu]. }
  assert (Hin : (adds alu = true → (alu_code alu, of_Z k) ∈ [(0, lit 0); (1, before_flag_bit FLAGS_CARRY_BIT)]) ∧
    (subtracts alu = true → (alu_code alu, of_Z k) ∈ [(2, lit 0); (3, before_flag_bit FLAGS_CARRY_BIT); (7, lit 0)])).
  { change FLAGS_CARRY_BIT with 4. rewrite Ec. unfold k.
    destruct alu; split; try done; intros _; rewrite !elem_of_cons; cbn; rewrite ?of_Z_0; tauto. }
  assert (Hg : ∀ e, f1 * f1 * argument_selector ISA_ARGUMENT_ZERO_BITS_START 3 (alu_code alu) * e = f0 → e = f0).
  { intros e. apply ungate. rewrite Hon. ring. }
  rewrite (low_nibble _ _ Hv), (low_nibble _ _ Hr), (low_nibble _ _ Hbits), Ev, Er, Ecy, Eh, Ea in *.
  assert (Hfin : ∀ z, (-1000 < z < 1000)%Z → of_Z z = f0 → z = 0) by (intros z Hz; apply of_Z_zero; lia).
  split; intros Hal; [specialize (Hadd _ (proj1 Hin Hal)); rename Hadd into Hs | specialize (Hsub _ (proj2 Hin Hal)); rename Hsub into Hs];
    cbv beta iota zeta in Hs; rewrite !satisfied_cons in Hs; destruct Hs as (E1 & E2 & _);
    apply Hg in E1, E2; to_integers E1; to_integers E2; apply Hfin in E1, E2; try zlia; done.
Qed.

(** A byte from its bits. *)
Lemma byte_bits a b : is_u8 a → is_u8 b → (∀ k, 0 <= k < 8 → Z.testbit a k = Z.testbit b k) → a = b.
Proof.
  intros Ha Hb Hk. apply Z.bits_inj'. intros n Hn. destruct (Z.lt_ge_cases n 8); [by apply Hk |].
  rewrite <- (Z.mod_small a (2 ^ 8)), <- (Z.mod_small b (2 ^ 8)) by done. by rewrite !Z.mod_pow2_bits_high by lia.
Qed.

Definition logical_value (alu : AluOp.AluOperation) (a v : Z) : Z :=
  match alu with AluOp.And => Z.land a v | AluOp.Xor => Z.lxor a v | _ => Z.lor a v end.

Lemma alu_logical i c v r carry half alu source : instruction_row i c → operation i = Op.Alu8 alu source →
  byte_witness v r carry half → adds alu = false → subtracts alu = false →
  r = logical_value alu (reg_a (registers c)) v.
Proof.
  intros Hrow Ho Hw Hna Hns. destruct (alu_constraints i c Hrow ltac:(by rewrite Ho)) as [_ Ha].
  unfold Semantics.constrain_alu in Ha. rewrite !satisfied_app in Ha. destruct Ha as (_ & _ & Hl & _).
  unfold Semantics.constrain_logical_alu in Hl. rewrite satisfied_each in Hl.
  destruct (accumulator_columns i c Hrow) as [_ Hbits]. destruct Hw as [Hv _ Hr _ _ _ _].
  pose proof (proj1 Hv) as Bv. pose proof (proj1 Hr) as Br. pose proof (proj1 Hbits) as Ba. set (a := reg_a _) in *.
  assert (Hon : argument_selector ISA_ARGUMENT_ZERO_BITS_START 3 (alu_code alu) = f1).
  { apply (argument_zero_on i c); [done | by rewrite Ho | by destruct alu]. }
  apply byte_bits; [done | destruct alu; cbn [logical_value]; first [apply (lxor_bound _ _ 8) | apply (lor_bound _ _ 8) |
    pose proof (land_bound_l a v)]; lia |].
  intros k Hk. specialize (Hl k (elem_of_range _ _ Hk)). cbv zeta beta in Hl. rewrite satisfied_map in Hl.
  rewrite (has_bits_bit _ _ _ _ Hv), (has_bits_bit _ _ _ _ Hr), (has_bits_bit _ _ _ _ Hbits) in Hl by done.
  assert (Hg : ∀ x y, f1 * f1 * argument_selector ISA_ARGUMENT_ZERO_BITS_START 3 (alu_code alu) * (of_Z x - y) = f0 →
    of_Z x = y).
  { intros x y E. apply fsub_zero. revert E. apply ungate. rewrite Hon. ring. }
  destruct alu; try done; cbn [logical_value alu_code] in *; rewrite ?Z.land_spec, ?Z.lxor_spec, ?Z.lor_spec.
  - specialize (Hl (4, _) ltac:(apply list_elem_of_here)). cbv beta iota in Hl. apply Hg in Hl. to_integers Hl.
    revert Hl. by destruct (Z.testbit r k), (Z.testbit a k), (Z.testbit v k); intros Hl%of_Z_inj.
  - specialize (Hl (5, _) ltac:(apply list_elem_of_further, list_elem_of_here)). cbv beta iota in Hl. apply Hg in Hl. to_integers Hl.
    revert Hl. by destruct (Z.testbit r k), (Z.testbit a k), (Z.testbit v k); intros Hl%of_Z_inj.
  - specialize (Hl (6, _) ltac:(apply list_elem_of_further, list_elem_of_further, list_elem_of_here)). cbv beta iota in Hl.
    apply Hg in Hl. to_integers Hl.
    revert Hl. by destruct (Z.testbit r k), (Z.testbit a k), (Z.testbit v k); intros Hl%of_Z_inj.
Qed.

(** The flags the outputs state, and the accumulator. *)
Lemma alu_outputs i c v r carry half alu source : instruction_row i c → operation i = Op.Alu8 alu source →
  byte_witness v r carry half → let derived := adds alu || subtracts alu in
  after STATE_FLAGS = of_Z (flags_byte (from_bits (r =? 0) (subtracts alu)
    (if derived then half else bool_decide (alu = AluOp.And)) (derived && carry))) ∧
  (alu ≠ AluOp.Compare → after REGISTER_A = of_Z r).
Proof.
  intros Hrow Ho Hw derived. destruct (alu_constraints i c Hrow ltac:(by rewrite Ho)) as [_ Ha].
  unfold Semantics.constrain_alu in Ha. rewrite !satisfied_app in Ha. destruct Ha as (_ & _ & _ & Hout).
  unfold Semantics.constrain_alu_outputs in Hout. rewrite satisfied_each in Hout. destruct Hw as [_ _ _ Er Ecy Eh Ez].
  assert (Hon : argument_selector ISA_ARGUMENT_ZERO_BITS_START 3 (alu_code alu) = f1).
  { apply (argument_zero_on i c); [done | by rewrite Ho | by destruct alu]. }
  assert (Hc : 0 <= alu_code alu < 8) by (by destruct alu).
  specialize (Hout _ (elem_of_range _ _ Hc)). cbv zeta beta in Hout. rewrite satisfied_app in Hout. destruct Hout as [H1 H2].
  assert (Hg : ∀ x y, f1 * f1 * argument_selector ISA_ARGUMENT_ZERO_BITS_START 3 (alu_code alu) * (x - y) = f0 → x = y).
  { intros x y E. apply fsub_zero. revert E. apply ungate. rewrite Hon. ring. }
  rewrite satisfied_cons in H2. destruct H2 as (E & _). apply Hg in E. split.
  - rewrite E, Ez, Eh, Ecy, from_bits_value, !of_Z_u64 by (by destruct alu). rewrite <- !of_Z_mul, <- !of_Z_add. f_equal.
    unfold derived. by destruct alu, (r =? 0), half, carry.
  - intros Hne. rewrite (proj2 (Z.eqb_neq _ _)) in H1 by (by destruct alu). rewrite satisfied_cons in H1. destruct H1 as (E1 & _).
    apply Hg in E1. by rewrite E1.
Qed.

(** An ALU row holds the result of [apply_alu]. *)
Lemma alu_result i c v r carry half alu source : instruction_row i c → operation i = Op.Alu8 alu source →
  byte_witness v r carry half → let result := apply_alu alu (reg_a (registers c)) v (flags c) in
  after STATE_FLAGS = of_Z (flags_byte (br_flags result)) ∧ (alu ≠ AluOp.Compare → after REGISTER_A = of_Z (br_value result)).
Proof.
  intros Hrow Ho Hw. cbv zeta. destruct (alu_outputs _ _ _ _ _ _ _ _ Hrow Ho Hw) as [Ef Ea]. cbv zeta in Ef.
  destruct (alu_sum _ _ _ _ _ _ _ _ Hrow Ho Hw) as [Hadd Hsub]. cbv zeta in Hadd, Hsub.
  pose proof (alu_logical _ _ _ _ _ _ _ _ Hrow Ho Hw) as Hlog.
  destruct (before_byte i c 0 Hrow ltac:(done)) as (_ & _ & Ba). change (cpu_scalar c 0) with (reg_a (registers c)) in Ba.
  pose proof (proj1 (bw_operand_bits _ _ _ _ Hw)) as Bv. pose proof (proj1 (bw_result_bits _ _ _ _ Hw)) as Br.
  set (a := reg_a (registers c)) in *. set (k := Z.b2z _) in Hadd, Hsub. assert (Bk : 0 <= k <= 1) by apply b2z_range.
  enough (apply_alu alu a v (flags c) = MkByteResult r (from_bits (r =? 0) (subtracts alu)
    (if adds alu || subtracts alu then half else bool_decide (alu = AluOp.And)) ((adds alu || subtracts alu) && carry))) as ->
    by (by split).
  destruct (adds alu) eqn:Hal.
  - destruct (Hadd eq_refl) as [E1 E2]. destruct (sum_solution _ _ _ _ _ _ Ba Bv Br Bk E1 E2) as (Er & -> & ->).
    destruct alu; try done; cbn [apply_alu]; rewrite add_arith by done; unfold k, sum_flags in *; cbn -[from_bits] in *; by rewrite Er.
  - destruct (subtracts alu) eqn:Hsb.
    + destruct (Hsub eq_refl) as [E1 E2]. destruct (difference_solution _ _ _ _ _ _ Ba Bv Br Bk E1 E2) as (Er & -> & ->).
      destruct alu; try done; cbn [apply_alu]; rewrite subtract_arith by done; unfold k, difference_flags in *; cbn -[from_bits] in *;
        by rewrite Er.
    + rewrite Hlog by done. by destruct alu.
Qed.

(** The operand an ALU row routes: a register, the immediate byte or the byte read at HL. *)
Lemma alu_operand i c alu source : instruction_row i c → operation i = Op.Alu8 alu source →
  value TRACE_OPERAND_VALUE =
    match source with Opd.Register r => of_Z (register8 c r) | _ => bus_field 1 BUS_VALUE_OFFSET end.
Proof.
  intros Hrow Ho. destruct (alu_constraints i c Hrow ltac:(by rewrite Ho)) as [Hr _].
  unfold Semantics.constrain_operand_routing in Hr. rewrite !satisfied_cons in Hr. destruct Hr as (_ & E & _).
  apply ungate in E; [| ring]. apply fsub_zero in E. rewrite E. unfold Semantics.selected_operand.
  change (4 =? 4) with true. cbv iota zeta.
  assert (Hs : ∀ code, 0 <= code < 16 → argument_selector ISA_ARGUMENT_ONE_BITS_START 4 code =
    of_Z (Z.b2z (operand8_code source =? code))).
  { intros code Hc. rewrite (argument_one_value i c) by done. by rewrite Ho. }
  rewrite (routed_operand i c _ source) by (done || (intros; apply Hs; lia)). rewrite Hs by done.
  destruct source as [[] | |]; known_selectors; ring.
Qed.
Context `{Sha256}.

(** The operand the handler reads is the operand of the row. *)
Lemma operand_agrees i c c1 d n source v v' l : fetched_row i c c1 d → (source = Opd.IndirectHl → n = 1) →
  of_Z v = match source with Opd.Register r => of_Z (register8 c r) | _ => bus_field 1 BUS_VALUE_OFFSET end → is_u8 v →
  operand_read source d c1 v' l → reads_shown n l → v' = v.
Proof.
  intros [Hrow Er _ _ _ Hfirst _] Hn E Bv Ho Hl. destruct source as [r | |]; cbn in Ho.
  - destruct Ho as [-> _]. unfold register8 in *. rewrite Er. symmetry. apply of_Z_inj; [| done].
    destruct (row_cpu _ _ Hrow) as [[] _ _ _ _]. destruct r; lia.
  - destruct Ho as [(Hv & Eb & _)%Hfirst _]. rewrite Eb in E. symmetry. apply of_Z_inj; [lia | done].
  - subst l. rewrite Hn in Hl by done. apply reads_shown_read in Hl as [Hv Eb]. rewrite Eb in E. symmetry. apply of_Z_inj; [lia | done].
Qed.

Lemma alu_row i c c1 d alu source : fetched_row i c c1 d → operation i = Op.Alu8 alu source →
  eff (execute_alu8 (operation i) d) c1 (λ _ c' l, row_post i c' l).
Proof.
  intros Hf Ho. pose proof Hf as [Hrow Er Ef _ _ _ _]. destruct (arithmetic_witness i c Hrow) as (v & r & carry & half & Hw).
  pose proof (alu_operand _ _ _ _ Hrow Ho) as Eo. rewrite (bw_operand _ _ _ _ Hw) in Eo.
  destruct (alu_result _ _ _ _ _ _ _ _ Hrow Ho Hw) as [Eflags Ea]. rewrite <- Er, <- Ef in Eflags, Ea.
  pose proof (proj1 (bw_operand_bits _ _ _ _ Hw)) as Bv.
  pose proof (defined_length i (row_defined _ _ Hrow)) as Hlen. unfold row_post. rewrite Ho in *.
  unfold execute_alu8. do 2 apply eff_bind. apply eff_read_operand. intros v' l Hv.
  assert (Hacc : address_bound (Op.Alu8 alu source) = true → accesses_shown (byte_len i) l).
  { destruct source; cbn in Hv |- *; [destruct Hv as [_ ->] | destruct Hv as [_ ->] | done]; intros _; apply accesses_shown_nil. }
  assert (Hn : source = Opd.IndirectHl → byte_len i = 1) by (intros ->; done).
  eff_run; rewrite ?app_nil_r; intros Hl; (split; [| done]);
    rewrite (operand_agrees _ _ _ _ _ _ _ _ _ Hf Hn Eo Bv Hv Hl);
    written_cases Hk; try (destruct alu, source; discriminate Hk); try done.
  - by destruct alu, source.
  - by apply Ea.
Qed.

(** ** Increment and decrement *)

Lemma step_constraints i c (up : bool) : instruction_row i c →
  d_operation (descriptor (operation i)) = (if up then 9 else 10) →
  satisfied (Semantics.constrain_operand_routing f1 (if up then f1 else f0) (if up then f0 else f1) f0) ∧
  satisfied (Semantics.constrain_increment_decrement f1 (if up then f1 else f0) (if up then f0 else f1)).
Proof.
  intros Hrow Ho. pose proof (holds_bytes (instruction_components _ _ Hrow)) as Hb.
  unfold Semantics.constrain_byte_arithmetic in Hb. rewrite !satisfied_app in Hb. destruct Hb as (_ & Hr & Hs & _).
  rewrite (row_mode _ _ Hrow) in Hr, Hs. rewrite (operation_off i c 19) in Hr by (done || (destruct up; lia)).
  destruct up; [rewrite (operation_on i c 9), (operation_off i c 10) in Hr, Hs by (done || lia) |
    rewrite (operation_off i c 9), (operation_on i c 10) in Hr, Hs by (done || lia)]; done.
Qed.
Definition step_result (up : bool) (v : Z) (f : Flags) : ByteResult := if up then increment v f else decrement v f.
Definition step_operation (up : bool) (target : Opd.Operand8) : Op.Operation :=
  if up then Op.Increment8 target else Op.Decrement8 target.

Lemma step_values i c (up : bool) v r carry half target : instruction_row i c → operation i = step_operation up target →
  byte_witness v r carry half → let result := step_result up v (flags c) in
  r = br_value result ∧ after STATE_FLAGS = of_Z (flags_byte (br_flags result)).
Proof.
  intros Hrow Ho Hw. cbv zeta. destruct (step_constraints i c up Hrow ltac:(by rewrite Ho; destruct up)) as [_ Hs].
  unfold Semantics.constrain_increment_decrement in Hs. rewrite !satisfied_app, !satisfied_cons in Hs.
  destruct Hs as ((Eu & Eul & Ed & Edl & _) & _ & (Fu & Fd & _)).
  destruct Hw as [Hv Ev Hr Er Ecy Eh Ez]. pose proof (proj1 Hv) as Bv. pose proof (proj1 Hr) as Br.
  change FLAGS_CARRY_BIT with 4 in Fu, Fd. destruct (flag_columns i c Hrow) as (Ec & _).
  rewrite (low_nibble _ _ Hv), (low_nibble _ _ Hr), Ev, Er, Ecy, Eh in *. rewrite Ez, Ec in Fu, Fd.
  pose proof (b2z_range carry). pose proof (b2z_range half).
  assert (Hfin : ∀ z, (-1000 < z < 1000)%Z → of_Z z = f0 → z = 0) by (intros z Hz; apply of_Z_zero; lia).
  destruct up; cbn [step_result].
  - rewrite increment_arith by done. unfold sum_flags. cbn [br_value br_flags]. rewrite !Z.add_0_r.
    apply ungate in Eu, Eul, Fu; [| ring..]. to_integers Eu. to_integers Eul. apply Hfin in Eu, Eul; [| zlia..].
    destruct (sum_solution v 1 0 r carry half) as (Er' & _ & Eh'); [done | done | done | done | lia | change (1 mod 16) with 1; lia |].
    rewrite !Z.add_0_r in *. change (1 mod 16) with 1 in *. split; [done |].
    apply fsub_zero in Fu. rewrite Fu, from_bits_value, <- Er', <- Eh'. rewrite !of_Z_u64 by done.
    rewrite <- !of_Z_mul, <- !of_Z_add. f_equal. cbn [Z.b2z]. lia.
  - rewrite decrement_arith by done. unfold difference_flags. cbn [br_value br_flags]. rewrite !Z.sub_0_r.
    apply ungate in Ed, Edl, Fd; [| ring..]. to_integers Ed. to_integers Edl. apply Hfin in Ed, Edl; [| zlia..].
    destruct (difference_solution v 1 0 r carry half) as (Er' & _ & Eh'); [done | done | done | done | lia | change (1 mod 16) with 1; lia |].
    rewrite !Z.sub_0_r in *. change (1 mod 16) with 1 in *. split; [done |].
    apply fsub_zero in Fd. rewrite Fd, from_bits_value, <- Er', <- Eh'. rewrite !of_Z_u64 by done.
    rewrite <- !of_Z_mul, <- !of_Z_add. f_equal. cbn [Z.b2z]. lia.
Qed.

(** The register that the selectors of an argument route the result to. *)
Lemma routed_after (selector : Z → F) g r x : g = f1 →
  (∀ code, 0 <= code < 8 → selector code = of_Z (Z.b2z (operand8_code (Opd.Register r) =? code))) →
  satisfied (map (λ '(argument, state), g * selector argument * (after state - x)) register_routes) →
  after (component_index (register_component r)) = x.
Proof.
  intros Hg Hs Hr. rewrite satisfied_map in Hr. specialize (Hr (operand8_code (Opd.Register r), component_index (register_component r))).
  cbv beta iota in Hr. apply fsub_zero. revert Hr. rewrite Hs, Z.eqb_refl, Hg by (by destruct r). intros Hr.
  apply (ungate (f1 * of_Z (Z.b2z true))); [cbn [Z.b2z]; rewrite of_Z_1; ring |]. apply Hr.
  unfold register_routes. destruct r; repeat first [apply list_elem_of_here | apply list_elem_of_further].
Qed.
Lemma be16_value high low : is_u8 low → be16 high low = (high * 256 + low)%Z.
Proof. intros Hl. unfold be16. by rewrite lor_shiftl_add. Qed.
Lemma hl_column i c : instruction_row i c → before REGISTER_H * lit 256 + before REGISTER_L = of_Z (register16 c R16.Hl).
Proof.
  intros Hrow. change REGISTER_H with (component_index (register_component R8.H)).
  change REGISTER_L with (component_index (register_component R8.L)). rewrite !(before_register i c) by done.
  destruct (row_cpu _ _ Hrow) as [[] _ _ _ _]. cbn [register16]. rewrite be16_value by done.
  by rewrite of_Z_u64, <- of_Z_mul, <- of_Z_add.
Qed.

Lemma step_destination i c (up : bool) v r carry half target : instruction_row i c → operation i = step_operation up target →
  byte_witness v r carry half →
  match target with
  | Opd.Register register => of_Z v = of_Z (register8 c register) ∧ after (component_index (register_component register)) = of_Z r
  | Opd.IndirectHl =>
      bus_field 1 BUS_ADDRESS_OFFSET = of_Z (register16 c R16.Hl) ∧ bus_field 1 BUS_VALUE_OFFSET = of_Z v ∧
      bus_field 2 BUS_ADDRESS_OFFSET = of_Z (register16 c R16.Hl) ∧ bus_field 2 BUS_VALUE_OFFSET = of_Z r
  | Opd.Immediate => True
  end.
Proof.
  intros Hrow Ho Hw. destruct (step_constraints i c up Hrow ltac:(by rewrite Ho; destruct up)) as [Hr Hs].
  unfold Semantics.constrain_operand_routing in Hr. rewrite !satisfied_cons in Hr. destruct Hr as (Er & _).
  unfold Semantics.constrain_increment_decrement in Hs. rewrite !satisfied_app in Hs. destruct Hs as (_ & Hd & _).
  unfold Semantics.constrain_increment_destination in Hd. rewrite satisfied_app, !satisfied_cons in Hd.
  destruct Hd as (Hroutes & Ea1 & Ev1 & Ea2 & Ev2 & _).
  assert (Harg : ∀ code, 0 <= code < 8 → argument_selector ISA_ARGUMENT_ZERO_BITS_START 3 code =
    of_Z (Z.b2z (operand8_code target =? code))).
  { intros code Hc. rewrite (argument_zero_value i c) by done. rewrite Ho. by destruct up. }
  assert (Hg : (if up then f1 else f0) + (if up then f0 else f1) = f1) by (destruct up; ring). rewrite Hg in *.
  rewrite (bw_operand _ _ _ _ Hw) in Er, Ev1. rewrite (bw_result _ _ _ _ Hw) in Hroutes, Ev2.
  rewrite (hl_column i c Hrow) in Ea1, Ea2.
  destruct target as [register | |]; [| done |].
  - split.
    + apply ungate in Er; [| ring]. apply fsub_zero in Er. rewrite Er. unfold Semantics.selected_operand. change (3 =? 4) with false.
      cbv iota zeta. by rewrite (routed_operand i c _ (Opd.Register register)) by done.
    + by apply (routed_after (argument_selector ISA_ARGUMENT_ZERO_BITS_START 3) (f1 * f1)); [ring | |].
  - rewrite (Harg 6) in * by done. cbn [operand8_code] in *. change (6 =? 6) with true in *. cbn [Z.b2z] in *. rewrite of_Z_1 in *.
    apply ungate in Ea1, Ev1, Ea2, Ev2; [| ring..]. by apply fsub_zero in Ea1, Ev1, Ea2, Ev2.
Qed.

Lemma step_row i c c1 d (up : bool) target : fetched_row i c c1 d → operation i = step_operation up target →
  eff (execute_alu8 (operation i) d) c1 (λ _ c' l, row_post i c' l).
Proof.
  intros Hf Ho. pose proof Hf as [Hrow Er Ef _ _ _ _]. destruct (arithmetic_witness i c Hrow) as (v & r & carry & half & Hw).
  pose proof (step_destination _ _ _ _ _ _ _ _ Hrow Ho Hw) as Hd.
  destruct (step_values _ _ _ _ _ _ _ _ Hrow Ho Hw) as [Hr Eflags]. rewrite <- Ef in Hr, Eflags.
  pose proof (proj1 (bw_operand_bits _ _ _ _ Hw)) as Bv.
  pose proof (defined_length i (row_defined _ _ Hrow)) as Hlen. unfold row_post. rewrite Ho in *.
  assert (He : execute_alu8 (step_operation up target) d = 
    _ ← (before ← read_operand target d; c0 ← get_cpu; let r := step_result up before (flags c0) in
         _ ← write_operand target (br_value r); modify_cpu (set_flags (br_flags r))); mret false) by (by destruct up).
  rewrite He. clear He. do 2 apply eff_bind. apply eff_read_operand. intros v' l Hv. do 3 eff_step. apply eff_write_operand.
  intros c' l' Hwr. eff_run. rewrite !app_nil_r. intros Hl. cbn [app] in Hl.
  destruct target as [register | |]; [| done |].
  - destruct Hd as [Eo Ea], Hwr as [-> ->].
    apply reads_shown_app in Hl as [Hl _].
    assert (v' = v) as -> by (by apply (operand_agrees _ _ _ _ (byte_len i) (Opd.Register register) v v' l Hf)).
    destruct Hv as [_ ->]. split; [| intros _; apply accesses_shown_nil]. rewrite Hr in Ea.
    written_cases Hk; try (destruct register, up; discriminate Hk); [(destruct register, up; try discriminate Hk; exact Ea).. | exact Eflags].
  - destruct Hd as (A1 & V1 & A2 & V2), Hwr as [-> ->]. cbn [operand_read] in Hv. subst l. assert (Hn : byte_len i = 1) by (by rewrite Hlen; destruct up).
    rewrite Hn in *. apply reads_shown_app in Hl as [Hl _]. apply reads_shown_read in Hl as [Bv' V1'].
    assert (v' = v) as -> by (apply of_Z_inj; [lia | by rewrite <- V1, <- V1']).
    rewrite <- Hr. assert (Ehl : register16 c1 R16.Hl = register16 c R16.Hl) by (unfold register16; by rewrite Er). rewrite Ehl.
    split; [written_cases Hk; try (destruct up; discriminate Hk); exact Eflags |]. intros _.
    cbn [app]. apply accesses_shown_cons; [done | done |]. apply accesses_shown_cons; [exact A2 | exact V2 | apply accesses_shown_nil].
Qed.
End rows.
