(* ===== verification/CpuBits.v ===== *)
(** * Rotate, bit and decimal rows (crates/zksm83-jolt/src/cpu/{bit,daa}.rs)

    The rows of rotates, of bit tests and changes and of the decimal adjust leave the results of [Alu]. *)
From Stdlib Require Import Ring.
From S2P Require Import Prelude IsaTypes Metadata Decode Alignment Flags Alu Commitment State Bus Execute Access Effects Field.
From S2P Require Import Columns CpuRow CpuFrame CpuArithmetic Embed IsaTable CpuSound CpuBytes.

(** ** Bytes as bits *)

(** Bit [bit] of the rotated byte, as [rotate_result_bit] takes it from the operand. *)
Definition rotated_bit (operation : Z) (v : Z) (carry_in : bool) (bit : Z) : bool :=
  match operation with
  | 0 => Z.testbit v (if bit =? 0 then 7 else bit - 1)
  | 1 => Z.testbit v (if bit =? 7 then 0 else bit + 1)
  | 2 => if bit =? 0 then carry_in else Z.testbit v (bit - 1)
  | 3 => if bit =? 7 then carry_in else Z.testbit v (bit + 1)
  | 4 => if bit =? 0 then false else Z.testbit v (bit - 1)
  | 5 => if bit =? 7 then Z.testbit v 7 else Z.testbit v (bit + 1)
  | 6 => if bit <? 4 then Z.testbit v (bit + 4) else Z.testbit v (bit - 4)
  | _ => if bit =? 7 then false else Z.testbit v (bit + 1)
  end.
Definition rotated_carry (operation v : Z) : bool :=
  if bool_decide (operation ∈ [0; 2; 4]) then Z.testbit v 7
  else if bool_decide (operation ∈ [1; 3; 5; 7]) then Z.testbit v 0 else false.

Definition rotations : list CbOp.CbOperation :=
  [CbOp.RotateLeftCircular; CbOp.RotateRightCircular; CbOp.RotateLeft; CbOp.RotateRight; CbOp.ShiftLeftArithmetic;
   CbOp.ShiftRightArithmetic; CbOp.SwapNibbles; CbOp.ShiftRightLogical].
Definition rotates_as_bits (v : Z) : bool :=
  forallb (λ o, forallb (λ carry_in,
    match rotate_shift o v carry_in true with
    | Some r =>
        (0 <=? br_value r) && (br_value r <? 256) &&
        forallb (λ bit, Bool.eqb (Z.testbit (br_value r) bit) (rotated_bit (cb_operation_code o) v carry_in bit)) (seqZ 0 8) &&
        bool_decide (br_flags r = from_bits (br_value r =? 0) false false (rotated_carry (cb_operation_code o) v))
    | None => false
    end) [true; false]) rotations.
Lemma all_rotates_as_bits : forallb rotates_as_bits (seqZ 0 256) = true.
Proof. vm_compute. reflexivity. Qed.

Lemma rotate_as_bits o v carry_in z r : is_u8 v → rotate_shift o v carry_in z = Some r →
  is_u8 (br_value r) ∧
  (∀ bit, 0 <= bit < 8 → Z.testbit (br_value r) bit = rotated_bit (cb_operation_code o) v carry_in bit) ∧
  br_flags r = from_bits (z && (br_value r =? 0)) false false (rotated_carry (cb_operation_code o) v).
Proof.
  intros Hv Hr. pose proof (forallb_bytes _ all_rotates_as_bits v Hv) as Hb. unfold rotates_as_bits in Hb.
  rewrite forallb_forall in Hb.
  assert (Ho : In o rotations) by (unfold rotations; destruct o; try discriminate Hr; cbn; tauto).
  specialize (Hb o Ho). rewrite forallb_forall in Hb. specialize (Hb carry_in ltac:(destruct carry_in; cbn; tauto)).
  assert (Hz : ∃ r', rotate_shift o v carry_in true = Some r' ∧ br_value r' = br_value r ∧ ∃ k,
    br_flags r' = from_bits (br_value r' =? 0) false false k ∧ br_flags r = from_bits (z && (br_value r =? 0)) false false k).
  { destruct o; try discriminate Hr; injection Hr as <-; eexists; (split; [reflexivity |]); (split; [reflexivity |]); eexists; done. }
  destruct Hz as (r' & E' & Ev & k & Ef' & Ef). rewrite E' in Hb. rewrite !andb_true_iff in Hb.
  destruct Hb as [[[H1 H2] H3] H4]. rewrite Ev in *. split; [lia |]. split.
  - intros bit Hbit. rewrite forallb_forall in H3. apply eqb_prop, H3, list_elem_of_In, elem_of_seqZ. lia.
  - rewrite Ef. apply bool_decide_eq_true in H4. rewrite Ef' in H4. f_equal.
    by apply (f_equal f_carry) in H4; rewrite !f_carry_from_bits in H4.
Qed.

(** A bit cleared or set. *)
Definition bits_as_bits (v : Z) : bool := forallb (λ bit,
  let mask := w8 (Z.shiftl 1 bit) in let reset := Z.land v (not8 mask) in let set := Z.lor v mask in
  in_range 0 255 reset && in_range 0 255 set && Bool.eqb (Z.land v mask =? 0) (negb (Z.testbit v bit)) &&
  forallb (λ k, Bool.eqb (Z.testbit reset k) (Z.testbit v k && negb (bit =? k)) &&
                Bool.eqb (Z.testbit set k) (Z.testbit v k || (bit =? k))) (seqZ 0 8)) (seqZ 0 8).
Lemma all_bits_as_bits : forallb bits_as_bits (seqZ 0 256) = true.
Proof. vm_compute. reflexivity. Qed.
Lemma bit_as_bits v bit mask : is_u8 v → 0 <= bit → bit_mask bit = Ok mask →
  (Z.land v mask =? 0) = negb (Z.testbit v bit) ∧ is_u8 (Z.land v (not8 mask)) ∧ is_u8 (Z.lor v mask) ∧
  ∀ k, 0 <= k < 8 → Z.testbit (Z.land v (not8 mask)) k = (Z.testbit v k && negb (bit =? k)) ∧
    Z.testbit (Z.lor v mask) k = (Z.testbit v k || (bit =? k)).
Proof.
  intros Hv H0 Hm. unfold bit_mask in Hm. destruct (Z.ltb_spec bit 8); [| done]. injection Hm as <-.
  pose proof (forallb_bytes _ all_bits_as_bits v Hv) as Hb. unfold bits_as_bits in Hb. rewrite forallb_forall in Hb.
  specialize (Hb bit). rewrite <- list_elem_of_In, elem_of_seqZ in Hb. specialize (Hb ltac:(lia)). cbv zeta in Hb.
  unfold in_range in Hb. rewrite !andb_true_iff in Hb. destruct Hb as [[[[H1 H1'] [H2 H2']] H3] H4]. split; [by apply eqb_prop |].
  split; [lia |]. split; [lia |]. intros k Hk. rewrite forallb_forall in H4. specialize (H4 k).
  rewrite <- list_elem_of_In, elem_of_seqZ in H4. specialize (H4 ltac:(lia)). apply andb_true_iff in H4 as [Ha Hc].
  by split; apply eqb_prop.
Qed.

(** The decimal adjust from the bits of the accumulator, as the constraints state it. *)
Definition daa_low (a : Z) (n h : bool) : bool :=
  if n then h else h || (Z.testbit a 3 && (Z.testbit a 2 || Z.testbit a 1)).
Definition daa_high (a : Z) (n c : bool) : bool :=
  if n then c else c || (Z.testbit a 7 && (Z.testbit a 6 || Z.testbit a 5)) ||
    (Z.testbit a 7 && negb (Z.testbit a 6) && negb (Z.testbit a 5) && Z.testbit a 4 &&
     (Z.testbit a 3 && (Z.testbit a 2 || Z.testbit a 1))).
Definition daa_value (a : Z) (n h c : bool) : Z :=
  let correction := 6 * Z.b2z (daa_low a n h) + 96 * Z.b2z (daa_high a n c) in
  if n then (a - correction) mod 256 else (a + correction) mod 256.
#[local] Instance byte_result_eq_dec : EqDecision ByteResult.
Proof. solve_decision. Defined.
Lemma all_daa_as_bits : forallb (λ a, forallb (λ n, forallb (λ h, forallb (λ c,
  bool_decide (decimal_adjust a (from_bits false n h c) =
    (let r := daa_value a n h c in MkByteResult r (from_bits (r =? 0) n false (daa_high a n c)))))
  [true; false]) [true; false]) [true; false]) (seqZ 0 256) = true.
Proof. vm_compute. reflexivity. Qed.
Lemma decimal_adjust_bits a f : is_u8 a → decimal_adjust a f =
  let r := daa_value a (f_subtract f) (f_half_carry f) (f_carry f) in
  MkByteResult r (from_bits (r =? 0) (f_subtract f) false (daa_high a (f_subtract f) (f_carry f))).
Proof.
  intros Ha. pose proof (forallb_bytes _ all_daa_as_bits a Ha) as Hb. cbv beta in Hb.
  assert (Hin : ∀ b : bool, In b [true; false]) by (intros []; cbn; tauto).
  rewrite forallb_forall in Hb. specialize (Hb (f_subtract f) (Hin _)). rewrite forallb_forall in Hb.
  specialize (Hb (f_half_carry f) (Hin _)). rewrite forallb_forall in Hb. specialize (Hb (f_carry f) (Hin _)).
  apply bool_decide_eq_true in Hb. rewrite <- Hb. unfold decimal_adjust.
  by rewrite f_subtract_from_bits, f_half_carry_from_bits, f_carry_from_bits.
Qed.

Section rows.
Context {F : Type} `{FieldLaws F} {view : RowView F} `{Sha256}.
Local Open Scope field_scope.
Add Ring bits_ring : fl_ring.

(** ** Rotations *)

Lemma rotate_result_value v code bit carry_in : has_bits TRACE_OPERAND_BITS_START 8 v → 0 <= code < 8 → 0 <= bit < 8 →
  Bit.rotate_result_bit code bit (of_Z (Z.b2z carry_in)) = of_Z (Z.b2z (rotated_bit code v carry_in bit)).
Proof.
  intros Hv Hc Hb. assert (Hbit : ∀ k, 0 <= k < 8 → Bit.operand_bit k = of_Z (Z.b2z (Z.testbit v k))).
  { intros k Hk. by apply (has_bits_bit _ 8). }
  assert (Hcs : code = 0 ∨ code = 1 ∨ code = 2 ∨ code = 3 ∨ code = 4 ∨ code = 5 ∨ code = 6 ∨ code = 7) by lia.
  unfold Bit.rotate_result_bit, rotated_bit.
  destruct_or! Hcs; subst code; cbv iota beta;
    try (destruct (Z.eqb_spec bit 0)); try (destruct (Z.eqb_spec bit 7)); try (destruct (Z.ltb_spec bit 4));
    rewrite ?Hbit by lia; done.
Qed.

(** Which of the two rotate operations a row has: on the accumulator, or after the CB prefix. *)
Lemma rotate_constraints i c (prefixed : bool) : instruction_row i c →
  d_operation (descriptor (operation i)) = (if prefixed then 37 else 12) →
  satisfied (Bit.constrain_operand_routing f1 (if prefixed then f0 else f1) (if prefixed then f1 else f0)) ∧
  satisfied (Bit.constrain_rotations f1 (if prefixed then f0 else f1) (if prefixed then f1 else f0)) ∧
  satisfied (Bit.constrain_cb_destination f1 (if prefixed then f1 else f0) f0 f0 f0).
Proof.
  intros Hrow Ho. pose proof (holds_rotates (instruction_components _ _ Hrow)) as Hb.
  unfold Bit.constrain_rotate_and_bit_operations in Hb. rewrite !satisfied_app in Hb. destruct Hb as (Hr & Hs & _ & Hd).
  rewrite (row_mode _ _ Hrow) in Hr, Hs, Hd.
  rewrite (operation_off i c 38), (operation_off i c 39), (operation_off i c 40) in Hr, Hd by (done || (destruct prefixed; lia)).
  destruct prefixed.
  - rewrite (operation_off i c 12) in Hr, Hs by (done || lia). rewrite (operation_on i c 37) in Hr, Hs, Hd by done.
    assert (E : f1 + f0 + f0 + f0 = f1) by ring. by rewrite E in Hr.
  - rewrite (operation_on i c 12) in Hr, Hs by done. rewrite (operation_off i c 37) in Hr, Hs, Hd by (done || lia).
    assert (E : f0 + f0 + f0 + f0 = f0) by ring. by rewrite E in Hr.
Qed.

(** The result, its carry and the flags of a rotation. *)
Lemma rotate_values i c (prefixed : bool) rotate v r carry half result : instruction_row i c →
  d_operation (descriptor (operation i)) = (if prefixed then 37 else 12) →
  argument_zero (descriptor (operation i)) = cb_operation_code rotate →
  byte_witness v r carry half → rotate_shift rotate v (f_carry (flags c)) prefixed = Some result →
  r = br_value result ∧ after STATE_FLAGS = of_Z (flags_byte (br_flags result)) ∧
  (prefixed = false → after REGISTER_A = of_Z r).
Proof.
  intros Hrow Ho Harg Hw Hres. destruct (rotate_constraints i c prefixed Hrow Ho) as (_ & Hs & _).
  unfold Bit.constrain_rotations in Hs. rewrite satisfied_app, satisfied_each, !satisfied_cons in Hs.
  destruct Hs as (Hbits & _ & Ea & Ef & Efc & _).
  destruct Hw as [Hv Ev Hr Er Ecy Eh Ez]. pose proof (proj1 Hv) as Bv. pose proof (proj1 Hr) as Br.
  destruct (rotate_as_bits _ _ _ _ _ Bv Hres) as (Brs & Hrb & Hfl).
  assert (Hc : 0 <= cb_operation_code rotate < 8) by (by destruct rotate).
  destruct (flag_columns i c Hrow) as (Ecf & _). 
  specialize (Hbits _ (elem_of_range _ _ Hc)). cbv zeta beta in Hbits. rewrite satisfied_app, satisfied_map, satisfied_cons in Hbits.
  destruct Hbits as (Hbits & Ecarry & _). rewrite Ecf in Hbits.
  assert (Hon : argument_selector ISA_ARGUMENT_ZERO_BITS_START 3 (cb_operation_code rotate) = f1) by (by apply (argument_zero_on i c)).
  assert (Hg : f1 * ((if prefixed then f0 else f1) + (if prefixed then f1 else f0)) *
    argument_selector ISA_ARGUMENT_ZERO_BITS_START 3 (cb_operation_code rotate) = f1) by (rewrite Hon; destruct prefixed; ring).
  assert (Eres : r = br_value result).
  { apply byte_bits; [done | done |]. intros k Hk. rewrite Hrb by done. specialize (Hbits k (elem_of_range _ _ Hk)). cbv beta in Hbits.
    apply (ungate _ _ Hg), fsub_zero in Hbits. rewrite (has_bits_bit _ _ _ _ Hr), (rotate_result_value v) in Hbits by done.
    by apply of_Z_bit_inj. }
  assert (Ecarry' : carry = rotated_carry (cb_operation_code rotate) v).
  { apply (ungate _ _ Hg), fsub_zero in Ecarry. rewrite Ecy in Ecarry. unfold rotated_carry in *.
    rewrite (has_bits_bit _ _ _ _ Hv), (has_bits_first _ _ _ Hv) in Ecarry by done. rewrite <- Z.bit0_mod in Ecarry.
    apply of_Z_bit_inj. rewrite Ecarry. by repeat case_bool_decide. }
  split; [done |]. rewrite Hfl, <- Eres, <- Ecarry', from_bits_value.
  destruct prefixed; cbn [andb].
  - split; [| done]. apply ungate in Efc; [| ring].
    assert (E : after STATE_FLAGS = lit 128 * value TRACE_RESULT_ZERO + lit 16 * value TRACE_ARITHMETIC_CARRY) by (apply fsub_zero; rewrite <- Efc; ring).
    rewrite E, Ez, Ecy, !of_Z_u64 by done. rewrite <- !of_Z_mul, <- !of_Z_add. f_equal. cbn [Z.b2z]. lia.
  - apply ungate in Ea, Ef; [| ring..]. apply fsub_zero in Ea, Ef. rewrite Ef, Ea, Ecy, !of_Z_u64 by done.
    split; [| done]. rewrite <- of_Z_mul. f_equal. cbn [Z.b2z]. lia.
Qed.

Lemma accumulator_rotate_operand i c : instruction_row i c → d_operation (descriptor (operation i)) = 12 →
  value TRACE_OPERAND_VALUE = before REGISTER_A.
Proof.
  intros Hrow Ho. destruct (rotate_constraints i c false Hrow Ho) as (Hr & _). unfold Bit.constrain_operand_routing in Hr.
  rewrite satisfied_cons in Hr. destruct Hr as (E & _). apply ungate in E; [| ring]. by apply fsub_zero.
Qed.

Lemma accumulator_rotate_row i c c1 d rotate : fetched_row i c c1 d → operation i = Op.RotateAccumulator rotate →
  eff (execute_rotate (operation i) d) c1 (λ _ c' l, row_post i c' l).
Proof.
  intros Hf Ho. pose proof Hf as [Hrow Er Ef _ _ _ _]. destruct (arithmetic_witness i c Hrow) as (v & r & carry & half & Hw).
  pose proof (accumulator_rotate_operand i c Hrow ltac:(by rewrite Ho)) as Eo. destruct (accumulator_columns i c Hrow) as [Ea Hbits].
  rewrite (bw_operand _ _ _ _ Hw), Ea in Eo. pose proof (proj1 Hbits) as Ba. pose proof (proj1 (bw_operand_bits _ _ _ _ Hw)) as Bv.
  apply of_Z_inj in Eo; [| lia].
  unfold row_post, execute_rotate. rewrite Ho. eff_run. rewrite !app_nil_r. intros Hl. apply ok_or_ok in H1. rewrite Er, Ef, <- Eo in H1.
  destruct (rotate_values i c false rotate v r carry half _ Hrow ltac:(by rewrite Ho) ltac:(by rewrite Ho) Hw H1) as (E & Efl & Eacc).
  split; [| intros _; apply accesses_shown_nil].
  written_cases Hk; try discriminate Hk; [transitivity (of_Z r); [by apply Eacc | by rewrite E] | exact Efl].
Qed.

(** ** Operations after the CB prefix *)

Lemma cb_constraints i c : instruction_row i c → let k := d_operation (descriptor (operation i)) in 37 <= k <= 40 →
  let s j := of_Z (Z.b2z (k =? j)) in
  satisfied (Bit.constrain_operand_routing f1 f0 f1) ∧ satisfied (Bit.constrain_bit_operations f1 (s 38) (s 39) (s 40)) ∧
  satisfied (Bit.constrain_cb_destination f1 (s 37) (s 38) (s 39) (s 40)).
Proof.
  intros Hrow k Hk s. pose proof (holds_rotates (instruction_components _ _ Hrow)) as Hb.
  unfold Bit.constrain_rotate_and_bit_operations in Hb. rewrite !satisfied_app in Hb. destruct Hb as (Hr & _ & Hs & Hd).
  rewrite (row_mode _ _ Hrow) in Hr, Hs, Hd. rewrite (operation_off i c 12) in Hr by (done || (fold k; lia)).
  rewrite !(operation_value i c) in Hr by done. rewrite !(operation_value i c) in Hs by done. rewrite !(operation_value i c) in Hd by done. fold k in Hr, Hs, Hd. split; [| split; [exact Hs | exact Hd]].
  assert (E : of_Z (Z.b2z (k =? 37)) + of_Z (Z.b2z (k =? 38)) + of_Z (Z.b2z (k =? 39)) + of_Z (Z.b2z (k =? 40)) = (f1 : F)).
  { rewrite <- !of_Z_add, <- of_Z_1. f_equal.
    assert (Hc : k = 37 ∨ k = 38 ∨ k = 39 ∨ k = 40) by lia. by destruct_or! Hc; rewrite Hc. }
  by rewrite E in Hr.
Qed.

Lemma cb_destination i c v r carry half cb target : instruction_row i c → operation i = Op.Cb cb target →
  target ≠ Opd.Immediate → byte_witness v r carry half →
  match target with
  | Opd.Register register => of_Z v = of_Z (register8 c register) ∧
      (d_operation (descriptor (operation i)) ≠ 38 → after (component_index (register_component register)) = of_Z r)
  | _ =>
      bus_field 2 BUS_ADDRESS_OFFSET = of_Z (register16 c R16.Hl) ∧ bus_field 2 BUS_VALUE_OFFSET = of_Z v ∧
      (d_operation (descriptor (operation i)) ≠ 38 →
        bus_field 3 BUS_ADDRESS_OFFSET = of_Z (register16 c R16.Hl) ∧ bus_field 3 BUS_VALUE_OFFSET = of_Z r)
  end.
Proof.
  intros Hrow Ho Ht Hw. set (k := d_operation (descriptor (operation i))).
  assert (Hk : k = 37 ∨ k = 38 ∨ k = 39 ∨ k = 40) by (unfold k; rewrite Ho; destruct cb; cbn; tauto).
  destruct (cb_constraints i c Hrow ltac:(fold k; lia)) as (Hr & _ & Hd). fold k in Hd.
  unfold Bit.constrain_operand_routing in Hr. rewrite !satisfied_cons in Hr. destruct Hr as (_ & Er & _).
  unfold Bit.constrain_cb_destination in Hd. rewrite satisfied_app, !satisfied_cons in Hd.
  destruct Hd as (Hroutes & Ea2 & Ev2 & Ea3 & Ev3 & _).
  assert (Harg : ∀ code, 0 <= code < 16 → argument_selector ISA_ARGUMENT_ONE_BITS_START 4 code =
    of_Z (Z.b2z (operand8_code target =? code))).
  { intros code Hc. rewrite (argument_one_value i c) by done. rewrite Ho. by destruct cb. }
  rewrite (bw_operand _ _ _ _ Hw) in Er, Ev2. rewrite (bw_result _ _ _ _ Hw) in Hroutes, Ev3.
  rewrite (hl_column i c Hrow) in Ea2, Ea3.
  assert (Hcb : f1 * (of_Z (Z.b2z (k =? 37)) + of_Z (Z.b2z (k =? 38)) + of_Z (Z.b2z (k =? 39)) + of_Z (Z.b2z (k =? 40))) = (f1 : F)).
  { rewrite <- !of_Z_add, <- of_Z_1, <- of_Z_mul. f_equal. by destruct_or! Hk; rewrite Hk. }
  assert (Hwr : k ≠ 38 → f1 * (of_Z (Z.b2z (k =? 37)) + of_Z (Z.b2z (k =? 39)) + of_Z (Z.b2z (k =? 40))) = (f1 : F)).
  { intros Hne. rewrite <- !of_Z_add, <- of_Z_1, <- of_Z_mul. f_equal. by destruct_or! Hk; rewrite Hk in *. }
  destruct target as [register | |]; [| done |].
  - split.
    + apply ungate in Er; [| ring]. apply fsub_zero in Er. rewrite Er. unfold Bit.selected_cb_operand.
      rewrite (routed_operand i c _ (Opd.Register register)) by (done || (intros; apply Harg; lia)). done.
    + intros Hne. eapply (routed_after (argument_selector ISA_ARGUMENT_ONE_BITS_START 4)); [by apply Hwr | | exact Hroutes].
      intros code Hc. apply Harg. lia.
  - rewrite (Harg 6) in * by done. cbn [operand8_code] in *. change (6 =? 6) with true in *. cbn [Z.b2z] in *. rewrite of_Z_1 in *.
    apply ungate in Ea2, Ev2; [| rewrite Hcb; ring..]. apply fsub_zero in Ea2, Ev2. split; [done |]. split; [done |].
    intros Hne. specialize (Hwr Hne). apply ungate in Ea3, Ev3; [| rewrite Hwr; ring..]. by apply fsub_zero in Ea3, Ev3.
Qed.

(** The operand read is the row's, the byte written too, and the accesses are those of the slots from 2 on. *)
Lemma cb_operand i c c1 d v r carry half cb target v' l : fetched_row i c c1 d → operation i = Op.Cb cb target →
  target ≠ Opd.Immediate → byte_witness v r carry half → operand_read target d c1 v' l → reads_shown 2 l → v' = v.
Proof.
  intros Hf Ho Ht Hw Hv Hl. pose proof Hf as [Hrow Er _ _ _ _ _]. pose proof (cb_destination _ _ _ _ _ _ _ _ Hrow Ho Ht Hw) as Hd.
  pose proof (proj1 (bw_operand_bits _ _ _ _ Hw)) as Bv.
  destruct target as [register | |]; [| done |]; cbn [operand_read] in Hv.
  - destruct Hv as [-> _], Hd as [Eo _]. unfold register8 in *. rewrite Er. symmetry. apply of_Z_inj; [| done].
    destruct (row_cpu _ _ Hrow) as [[] _ _ _ _]. destruct register; lia.
  - subst l. destruct Hd as (_ & V & _). apply reads_shown_read in Hl as [Bv' V'].
    apply of_Z_inj; [lia | by rewrite <- V, <- V'].
Qed.
Lemma cb_target i c c1 d v r carry half cb target l c' l' f : fetched_row i c c1 d → operation i = Op.Cb cb target →
  target ≠ Opd.Immediate → byte_witness v r carry half → d_operation (descriptor (operation i)) ≠ 38 →
  operand_read target d c1 v l → operand_written target r c1 c' l' → after STATE_FLAGS = of_Z (flags_byte f) →
  (writes (state_access_of (operation i)) SC.F = false → f = flags c1) →
  written_shown (operation i) (set_flags f c') ∧ accesses_shown 2 (l ++ l').
Proof.
  intros Hf Ho Ht Hw Hk Hv Hwr Ef Hff. pose proof Hf as [Hrow Er _ _ _ _ _].
  pose proof (cb_destination _ _ _ _ _ _ _ _ Hrow Ho Ht Hw) as Hd.
  destruct target as [register | |]; [| done |]; cbn [operand_read operand_written] in *.
  - destruct Hd as [_ Ea], Hv as [_ ->], Hwr as [-> ->]. specialize (Ea Hk). split; [| apply accesses_shown_nil]. rewrite Ho.
    written_cases Hw'; try (destruct register, cb; discriminate Hw');
      [(destruct register, cb; try discriminate Hw'; exact Ea).. | exact Ef].
  - destruct Hd as (A2 & V2 & H3), Hwr as [-> ->]. destruct (H3 Hk) as [A3 V3]. subst l.
    assert (Ehl : register16 c1 R16.Hl = register16 c R16.Hl) by (unfold register16; by rewrite Er). rewrite Ehl.
    split; [rewrite Ho; written_cases Hw'; try (destruct cb; discriminate Hw'); exact Ef |].
    cbn [app]. apply accesses_shown_cons; [exact A2 | exact V2 |]. apply accesses_shown_cons; [exact A3 | exact V3 | apply accesses_shown_nil].
Qed.

Lemma cb_rotate_row i c c1 d cb target : fetched_row i c c1 d → operation i = Op.Cb cb target → target ≠ Opd.Immediate →
  eff (execute_rotate (operation i) d) c1 (λ _ c' l, row_post i c' l).
Proof.
  intros Hf Ho Ht. pose proof Hf as [Hrow Er Ef _ _ _ _]. destruct (arithmetic_witness i c Hrow) as (v & r & carry & half & Hw).
  assert (Hlen : byte_len i = 2) by (rewrite (defined_length i (row_defined _ _ Hrow)), Ho; done).
  unfold row_post, execute_rotate. rewrite Ho, Hlen. do 2 apply eff_bind. apply eff_read_operand. intros v' l Hv.
  do 5 eff_step. apply ok_or_ok in H1. apply eff_write_operand. intros c' l' Hwr. eff_run. rewrite !app_nil_r. cbn [app]. intros Hl.
  apply reads_shown_app in Hl as [Hl _]. rewrite Ef in H1.
  assert (v' = v) as -> by (by apply (cb_operand i c c1 d v r carry half cb target v' l)).
  assert (Hk : d_operation (descriptor (operation i)) = 37) by (rewrite Ho; by destruct cb).
  assert (Ha : argument_zero (descriptor (operation i)) = cb_operation_code cb) by (rewrite Ho; by destruct cb).
  destruct (rotate_values i c true cb v r carry half _ Hrow Hk Ha Hw H1) as (Eres & Efl & _).
  rewrite <- Eres in *.
  destruct (cb_target i c c1 d v r carry half cb target l c' l' (br_flags a) Hf Ho Ht Hw ltac:(by rewrite Hk) Hv Hwr Efl) as [H2 H3];
    [rewrite Ho; by destruct cb, target as [[] | |] |].
  rewrite Ho in H2. by split.
Qed.

(** ** Bit tests and changes *)

Lemma bit_constraints i c v r carry half cb target : instruction_row i c → operation i = Op.Cb cb target →
  byte_witness v r carry half → let bit := argument_zero (descriptor (operation i)) in 0 <= bit < 8 →
  (d_operation (descriptor (operation i)) = 38 →
    after STATE_FLAGS = of_Z (flags_byte (from_bits (negb (Z.testbit v bit)) false true (f_carry (flags c))))) ∧
  (d_operation (descriptor (operation i)) = 39 → ∀ k, 0 <= k < 8 → Z.testbit r k = (Z.testbit v k && negb (bit =? k))) ∧
  (d_operation (descriptor (operation i)) = 40 → ∀ k, 0 <= k < 8 → Z.testbit r k = (Z.testbit v k || (bit =? k))).
Proof.
  intros Hrow Ho Hw bit Hbit. set (o := d_operation (descriptor (operation i))).
  assert (Hk : 37 <= o <= 40) by (unfold o; rewrite Ho; destruct cb; cbn; lia).
  destruct (cb_constraints i c Hrow Hk) as (_ & Hs & _). fold o in Hs.
  unfold Bit.constrain_bit_operations in Hs. rewrite !satisfied_app, satisfied_each, !satisfied_cons in Hs.
  destruct Hs as (_ & Hbits & Eflags & _).
  destruct Hw as [Hv _ Hr _ _ _ _]. destruct (flag_columns i c Hrow) as (Ec & _).
  assert (Harg : ∀ code, 0 <= code < 8 → argument_selector ISA_ARGUMENT_ZERO_BITS_START 3 code = of_Z (Z.b2z (bit =? code))).
  { intros code Hc. by rewrite (argument_zero_value i c). }
  assert (Hop : ∀ k, 0 <= k < 8 → Bit.operand_bit k = of_Z (Z.b2z (Z.testbit v k))).
  { intros k Hk'. by apply (has_bits_bit _ 8). }
  assert (Hres : ∀ k, 0 <= k < 8 → value (TRACE_RESULT_BITS_START + k)%Z = of_Z (Z.b2z (Z.testbit r k))).
  { intros k Hk'. by apply (has_bits_bit _ 8). }
  split; [| split]; intros E.
  - rewrite E in Eflags. change (38 =? 38) with true in Eflags. cbn [Z.b2z] in Eflags. rewrite of_Z_1 in Eflags.
    apply ungate in Eflags; [| ring]. apply fsub_zero in Eflags.
    assert (Esel : foldl (λ selected_bit bit, selected_bit + argument_selector ISA_ARGUMENT_ZERO_BITS_START 3 bit * Bit.operand_bit bit) f0 (range 8)
      = of_Z (Z.b2z (Z.testbit v bit))).
    { change (range 8) with [0; 1; 2; 3; 4; 5; 6; 7]. cbn [foldl]. rewrite !Harg, !Hop by done.
      assert (Hcs : bit = 0 ∨ bit = 1 ∨ bit = 2 ∨ bit = 3 ∨ bit = 4 ∨ bit = 5 ∨ bit = 6 ∨ bit = 7) by lia.
      destruct_or! Hcs; rewrite Hcs; known_selectors; ring. }
    rewrite Eflags, Esel, Ec, from_bits_value, !of_Z_u64 by done. rewrite <- ?of_Z_1, <- !of_Z_sub, <- !of_Z_mul, <- !of_Z_add. f_equal.
    by destruct (Z.testbit v bit), (f_carry (flags c)).
  - intros k Hk'. specialize (Hbits k (elem_of_range _ _ Hk')). cbv beta zeta in Hbits. rewrite !satisfied_cons in Hbits.
    destruct Hbits as (E1 & _). rewrite E in E1. change (39 =? 39) with true in E1. cbn [Z.b2z] in E1. rewrite of_Z_1 in E1.
    apply ungate in E1; [| ring]. apply fsub_zero in E1. rewrite Hres, Hop, Harg in E1 by done.
    apply of_Z_bit_inj. rewrite E1, <- of_Z_1, <- of_Z_sub, <- of_Z_mul. f_equal. by destruct (Z.testbit v k), (bit =? k).
  - intros k Hk'. specialize (Hbits k (elem_of_range _ _ Hk')). cbv beta zeta in Hbits. rewrite !satisfied_cons in Hbits.
    destruct Hbits as (_ & E1 & _). rewrite E in E1. change (40 =? 40) with true in E1. cbn [Z.b2z] in E1. rewrite of_Z_1 in E1.
    apply ungate in E1; [| ring]. rewrite Hres, Hop, Harg in E1 by done.
    apply of_Z_bit_inj. rewrite <- of_Z_1, <- !of_Z_sub, <- of_Z_mul, <- !of_Z_sub in E1. revert E1.
    by destruct (Z.testbit r k), (Z.testbit v k), (bit =? k); intros E1%of_Z_zero.
Qed.

Lemma bit_row i c c1 d cb target : fetched_row i c c1 d → operation i = Op.Cb cb target → target ≠ Opd.Immediate →
  0 <= argument_zero (descriptor (operation i)) < 8 → eff (execute_bit (operation i) d) c1 (λ _ c' l, row_post i c' l).
Proof.
  intros Hf Ho Ht Hbit. pose proof Hf as [Hrow Er Ef _ _ _ _]. destruct (arithmetic_witness i c Hrow) as (v & r & carry & half & Hw).
  assert (Hlen : byte_len i = 2) by (rewrite (defined_length i (row_defined _ _ Hrow)), Ho; done).
  destruct (bit_constraints i c v r carry half cb target Hrow Ho Hw Hbit) as (Htest & Hreset & Hset).
  pose proof (proj1 (bw_operand_bits _ _ _ _ Hw)) as Bv. pose proof (proj1 (bw_result_bits _ _ _ _ Hw)) as Br.
  unfold row_post, execute_bit. rewrite Ho, Hlen in *. apply eff_bind. apply eff_read_operand. intros v' l Hv.
  assert (Hagree : reads_shown 2 l → v' = v) by (intros; by apply (cb_operand i c c1 d v r carry half cb target v' l)).
  destruct cb as [| | | | | | | | bit | bit | bit]; try (eff_run; done); cbn [descriptor cb_descriptor argument_zero d_operation cb_operation_code] in *.
  - eff_run. rewrite !app_nil_r. intros Hl. rewrite (Hagree Hl) in *. destruct (bit_as_bits v bit _ Bv ltac:(lia) H1) as (Em & _).
    rewrite Em, Ef. split.
    + written_cases Hk; try (destruct target as [[] | |]; discriminate Hk). exact (Htest eq_refl).
    + intros _. destruct target as [register | |]; [| done |]; cbn [operand_read] in Hv; [destruct Hv as [_ ->]; apply accesses_shown_nil | subst l].
      pose proof (cb_destination _ _ _ _ _ _ _ _ Hrow Ho Ht Hw) as (A & V & _).
      apply accesses_shown_cons; [| exact V | apply accesses_shown_nil].
      assert (Ehl : register16 c1 R16.Hl = register16 c R16.Hl) by (unfold register16; by rewrite Er). by rewrite Ehl.
  - eff_step. eff_step. eff_step. apply eff_write_operand. intros c' l' Hwr. eff_run. rewrite !app_nil_r. cbn [app]. intros Hl.
    apply reads_shown_app in Hl as [Hl _]. rewrite (Hagree Hl) in *.
    destruct (bit_as_bits v bit _ Bv ltac:(lia) H1) as (_ & Bres & _ & Hres).
    assert (E : Z.land v (not8 a) = r).
    { apply byte_bits; [done | done |]. intros k Hk. rewrite (proj1 (Hres k Hk)). by rewrite (Hreset eq_refl). }
    rewrite E in Hwr. assert (Efl : flags c' = flags c) by (destruct target; [destruct Hwr as [-> _]; by rewrite <- Ef | done | destruct Hwr as [-> _]; done]).
    destruct (cb_target i c c1 d v r carry half _ target l c' l' (flags c') Hf Ho Ht Hw) as [H2 H3]; rewrite ?Ho; try done.
    { rewrite Efl. apply (unwritten_stays i c SC.F Hrow); [done | rewrite Ho; by destruct target as [[] | |]]. }
    { intros _. by rewrite Efl. }
    rewrite Ho in H2. assert (Es : set_flags (flags c') c' = c') by (by destruct c'). rewrite Es in H2. by split.
  - eff_step. eff_step. eff_step. apply eff_write_operand. intros c' l' Hwr. eff_run. rewrite !app_nil_r. cbn [app]. intros Hl.
    apply reads_shown_app in Hl as [Hl _]. rewrite (Hagree Hl) in *.
    destruct (bit_as_bits v bit _ Bv ltac:(lia) H1) as (_ & _ & Bres & Hres).
    assert (E : Z.lor v a = r).
    { apply byte_bits; [done | done |]. intros k Hk. rewrite (proj2 (Hres k Hk)). by rewrite (Hset eq_refl). }
    rewrite E in Hwr. assert (Efl : flags c' = flags c) by (destruct target; [destruct Hwr as [-> _]; by rewrite <- Ef | done | destruct Hwr as [-> _]; done]).
    destruct (cb_target i c c1 d v r carry half _ target l c' l' (flags c') Hf Ho Ht Hw) as [H2 H3]; rewrite ?Ho; try done.
    { rewrite Efl. apply (unwritten_stays i c SC.F Hrow); [done | rewrite Ho; by destruct target as [[] | |]]. }
    { intros _. by rewrite Efl. }
    rewrite Ho in H2. assert (Es : set_flags (flags c') c' = c') by (by destruct c'). rewrite Es in H2. by split.
Qed.

(** ** Decimal adjust *)

Lemma daa_constraints i c v r carry half : instruction_row i c → operation i = Op.DecimalAdjust →
  byte_witness v r carry half → let a := reg_a (registers c) in let f := flags c in
  let result := decimal_adjust a f in
  after REGISTER_A = of_Z (br_value result) ∧ after STATE_FLAGS = of_Z (flags_byte (br_flags result)).
Proof.
  intros Hrow Ho Hw a f. pose proof (holds_daa (instruction_components _ _ Hrow)) as Hd. unfold Daa.constrain_decimal_adjust in Hd.
  rewrite !satisfied_app, !satisfied_map, !satisfied_cons in Hd. rewrite (row_mode _ _ Hrow), (operation_on i c 13) in Hd by (done || by rewrite Ho).
  destruct Hd as (Hbool & (E1 & E2 & E3 & E4 & E5 & E6 & E7 & _ & E9 & _ & _ & E12 & _) & _).
  assert (Hg : ∀ e, f1 * f1 * e = f0 → e = f0) by (intros e; apply ungate; ring).
  apply Hg in E1, E2, E3, E4, E5, E6, E7, E9, E12.
  destruct (accumulator_columns i c Hrow) as [Ea Hbits]. fold a in Ea, Hbits. pose proof (proj1 Hbits) as Ba.
  destruct (flag_columns i c Hrow) as (Fc & Fh & Fn & _). fold f in Fc, Fh, Fn.
  destruct Hw as [_ _ Hr Er _ _ Ez]. pose proof (proj1 Hr) as Br.
  assert (Hcol : ∀ column, 0 <= column - TRACE_DAA_LOW_GT_NINE < 7 → ∃ b : bool, value column = of_Z (Z.b2z b)).
  { intros column Hc. apply boolean_bit, Hbool, elem_of_seqZ.
    change (TRACE_DAA_WRAP + 1 - TRACE_DAA_LOW_GT_NINE)%Z with 7. lia. }
  destruct (Hcol TRACE_DAA_LOW_GT_NINE ltac:(by vm_compute)) as [low_gt C1].
  destruct (Hcol TRACE_DAA_HIGH_GT_NINE ltac:(by vm_compute)) as [high_gt C2].
  destruct (Hcol TRACE_DAA_HIGH_EQUALS_NINE ltac:(by vm_compute)) as [eq_nine C3].
  destruct (Hcol TRACE_DAA_ACC_GT_99 ltac:(by vm_compute)) as [acc_gt C4].
  destruct (Hcol TRACE_DAA_LOW_ADJUST ltac:(by vm_compute)) as [low C5].
  destruct (Hcol TRACE_DAA_HIGH_ADJUST ltac:(by vm_compute)) as [high C6].
  destruct (Hcol TRACE_DAA_WRAP ltac:(by vm_compute)) as [wrap C7].
  assert (Hbit : ∀ k, 0 <= k < 8 → Daa.accumulator_bit k = of_Z (Z.b2z (Z.testbit a k))) by (intros k Hk; by apply (has_bits_bit _ 8)).
  rewrite C1, !Hbit in E1 by done. rewrite C2, !Hbit in E2 by done. rewrite C3, !Hbit in E3 by done.
  rewrite C1, C2, C3, C4 in E4. rewrite C5, C1, Fn, Fh in E5. rewrite C6, C4, Fn, Fc in E6.
  rewrite Ea, C5, C6, C7, Er, Fn in E7. rewrite Er in E9. rewrite Ez, C6, Fn in E12.
  to_integers E1. to_integers E2. to_integers E3. to_integers E4. to_integers E5. to_integers E6. to_integers E7.
  apply of_Z_zero in E1; [| destruct low_gt, (Z.testbit a 1), (Z.testbit a 2), (Z.testbit a 3); done].
  apply of_Z_zero in E2; [| destruct high_gt, (Z.testbit a 5), (Z.testbit a 6), (Z.testbit a 7); done].
  apply of_Z_zero in E3; [| destruct eq_nine, (Z.testbit a 4), (Z.testbit a 5), (Z.testbit a 6), (Z.testbit a 7); done].
  apply of_Z_zero in E4; [| destruct low_gt, high_gt, eq_nine, acc_gt; done].
  apply of_Z_zero in E5; [| destruct low, low_gt, (f_subtract f), (f_half_carry f); done].
  apply of_Z_zero in E6; [| destruct high, acc_gt, (f_subtract f), (f_carry f); done].
  apply of_Z_zero in E7; [| destruct low, high, wrap, (f_subtract f); cbn [Z.b2z]; lia].
  assert (Elg : low_gt = Z.testbit a 3 && (Z.testbit a 2 || Z.testbit a 1)) by (revert E1; by destruct low_gt, (Z.testbit a 1), (Z.testbit a 2), (Z.testbit a 3)).
  assert (Ehg : high_gt = Z.testbit a 7 && (Z.testbit a 6 || Z.testbit a 5)) by (revert E2; by destruct high_gt, (Z.testbit a 5), (Z.testbit a 6), (Z.testbit a 7)).
  assert (Een : eq_nine = Z.testbit a 7 && negb (Z.testbit a 6) && negb (Z.testbit a 5) && Z.testbit a 4)
    by (revert E3; by destruct eq_nine, (Z.testbit a 4), (Z.testbit a 5), (Z.testbit a 6), (Z.testbit a 7)).
  assert (Eag : acc_gt = high_gt || (eq_nine && low_gt)) by (revert E4; by destruct low_gt, high_gt, eq_nine, acc_gt).
  assert (Elow : low = daa_low a (f_subtract f) (f_half_carry f)).
  { unfold daa_low. rewrite <- Elg. revert E5. by destruct low, low_gt, (f_subtract f), (f_half_carry f). }
  assert (Ehigh : high = daa_high a (f_subtract f) (f_carry f)).
  { unfold daa_high. rewrite <- Elg, <- Ehg, <- Een. clear E1 E2 E3. rewrite Eag in E6. revert E6.
    by destruct high, low_gt, high_gt, eq_nine, (f_subtract f), (f_carry f). }
  assert (Eval : r = daa_value a (f_subtract f) (f_half_carry f) (f_carry f)).
  { unfold daa_value. rewrite <- Elow, <- Ehigh. revert E7. clear -Ba Br. destruct low, high, wrap, (f_subtract f); cbn [Z.b2z]; intros; zlia. }
  cbv zeta. rewrite decimal_adjust_bits by done. cbv zeta. cbn [br_value br_flags]. rewrite <- Eval, <- Ehigh.
  apply fsub_zero in E9, E12. split; [done |]. rewrite E12, from_bits_value, !of_Z_u64 by done.
  rewrite <- !of_Z_mul, <- !of_Z_add. f_equal. cbn [Z.b2z]. lia.
Qed.

Lemma daa_row i c c1 d : fetched_row i c c1 d → operation i = Op.DecimalAdjust →
  eff (execute_control (operation i)) c1 (λ _ c' l, row_post i c' l).
Proof.
  intros [Hrow Er Ef _ _ _ _] Ho.
  destruct (arithmetic_witness i c Hrow) as (v & r & carry & half & Hw).
  destruct (daa_constraints i c v r carry half Hrow Ho Hw) as [Ea Efl]. rewrite <- Er, <- Ef in Ea, Efl.
  unfold row_post, execute_control. rewrite Ho. eff_run. intros _. split; [| intros _; apply accesses_shown_nil].
  written_cases Hk; try discriminate Hk; [exact Ea | exact Efl].
Qed.
End rows.
