(* ===== verification/CpuMoves.v ===== *)
(** * Transfer and word rows (crates/zksm83-jolt/src/cpu/{data,word}.rs)

    The rows of loads, of 16-bit arithmetic, and of the operations on the flags alone. *)
From Stdlib Require Import Ring.
From S2P Require Import Prelude IsaTypes Metadata Decode Alignment Flags Alu Commitment State Bus Execute Access Effects Field.
From S2P Require Import Columns CpuRow CpuFrame CpuArithmetic CpuControl Embed IsaTable CpuSound CpuBytes.

Lemma hi8_value w : hi8 w = w / 256.
Proof. unfold hi8. by rewrite Z.shiftr_div_pow2. Qed.
Lemma lo8_value w : lo8 w = w mod 256.
Proof. apply land_255. Qed.
Lemma word_bytes h l w : is_u8 h → is_u8 l → h * 256 + l = w → h = hi8 w ∧ l = lo8 w.
Proof. intros Hh Hl <-. rewrite hi8_value, lo8_value. split; zlia. Qed.

(** The immediate operands of a handler. *)
Lemma eff_byte d c (Q : Z → CpuState → list bus_access → Prop) :
  (∀ v, first d = Some v → Q v c []) → eff (lift (byte d)) c Q.
Proof. intros HQ. apply eff_lift. intros v E%ok_or_ok. by apply HQ. Qed.
Lemma eff_word d c (Q : Z → CpuState → list bus_access → Prop) :
  (∀ low high, first d = Some low → second d = Some high → Q (be16 high low) c []) → eff (lift (word d)) c Q.
Proof.
  intros HQ. apply eff_lift. intros v E. unfold word in E. apply bind_ok in E as (low & El%ok_or_ok & E).
  apply bind_ok in E as (high & Eh%ok_or_ok & [= <-]). by apply HQ.
Qed.

Section rows.
Context {F : Type} `{FieldLaws F} {view : RowView F} `{Sha256}.
Local Open Scope field_scope.
Add Ring moves_ring : fl_ring.

(** ** Columns of words *)

Lemma after_byte i c j : instruction_row i c → 0 <= j < 8 → ∃ n, has_bits (TRACE_AFTER_CPU_BYTE_BITS_START + j * 8)%Z 8 n ∧ after j = of_Z n.
Proof. intros Hrow Hj. by destruct (cpu_byte_bits j (instruction_components i c Hrow) Hj) as [_ ?]. Qed.
Lemma sp_columns i c : instruction_row i c →
  (has_bits TRACE_BEFORE_SP_BITS_START 16 (sp c) ∧ before STATE_SP = of_Z (sp c)) ∧
  ∃ n, has_bits TRACE_AFTER_SP_BITS_START 16 n ∧ after STATE_SP = of_Z n.
Proof.
  intros Hrow. pose proof (holds_ranges (instruction_components _ _ Hrow)) as Hr. unfold constrain_cpu_ranges in Hr.
  rewrite !satisfied_app, !satisfied_each in Hr. destruct Hr as (_ & _ & _ & _ & Hb & Ha & _ & _ & Hw & _).
  specialize (Hw (STATE_SP, TRACE_BEFORE_SP_BITS_START, TRACE_AFTER_SP_BITS_START) ltac:(apply list_elem_of_further, list_elem_of_here)).
  cbv beta iota in Hw. rewrite !satisfied_cons in Hw. destruct Hw as (Eb & Ea & _). split.
  - destruct (column_bits _ _ 16 ltac:(done) ltac:(intros k Hk; by apply (bit_range_bits _ 16 Hb)) Eb) as (n & Hn & En).
    assert (n = sp c) as ->; [| done].
    eapply bits_of_u64; [exact Hn | exact En | exact (row_before _ _ Hrow STATE_SP ltac:(done)) | | done].
    destruct (row_cpu _ _ Hrow) as [_ _ _ ? _]. change (cpu_scalar c STATE_SP) with (sp c). lia.
  - destruct (column_bits _ _ 16 ltac:(done) ltac:(intros k Hk; by apply (bit_range_bits _ 16 Ha)) Ea) as (n & Hn & En). by exists n.
Qed.

(** The registers of a pair. *)
Definition pair_high (r : R16.Register16) : R8.Register8 := match r with R16.Bc => R8.B | R16.De => R8.D | _ => R8.H end.
Definition pair_low (r : R16.Register16) : R8.Register8 := match r with R16.Bc => R8.C | R16.De => R8.E | _ => R8.L end.
Lemma pair_column i c r : instruction_row i c → r ≠ R16.Sp →
  before (component_index (register_component (pair_high r))) * lit 256 + before (component_index (register_component (pair_low r))) =
    of_Z (register16 c r).
Proof.
  intros Hrow Hr. rewrite !(before_register i c) by done. destruct (row_cpu _ _ Hrow) as [[] _ _ _ _].
  destruct r; try done; cbn [register16]; rewrite be16_value by done; by rewrite of_Z_u64, <- of_Z_mul, <- of_Z_add.
Qed.
Lemma register16_range i c r : instruction_row i c → is_u16 (register16 c r).
Proof.
  intros Hrow. destruct (row_cpu _ _ Hrow) as [[] _ _ ? _]. destruct r; cbn [register16]; rewrite ?be16_value by done; lia.
Qed.

(** A pair after the row, from the sum of its columns. *)
Lemma pair_after i c high low w : instruction_row i c → 0 <= high < 8 → 0 <= low < 8 → is_u16 w →
  after high * lit 256 + after low = of_Z w → after high = of_Z (hi8 w) ∧ after low = of_Z (lo8 w).
Proof.
  intros Hrow Hh Hl Hw E. destruct (after_byte i c high Hrow Hh) as (h & [Bh _] & Eh). destruct (after_byte i c low Hrow Hl) as (l & [Bl _] & El).
  rewrite Eh, El in *. rewrite of_Z_u64, <- of_Z_mul, <- of_Z_add in E by done. apply of_Z_inj in E; [| lia].
  destruct (word_bytes h l w Bh Bl E) as [<- <-]. done.
Qed.

(** What a handler writes to a register pair or SP. *)
Lemma written_pair i c r w o f : instruction_row i c → is_u16 w →
  (r ≠ R16.Sp → after (component_index (register_component (pair_high r))) = of_Z (hi8 w) ∧
    after (component_index (register_component (pair_low r))) = of_Z (lo8 w)) →
  (r = R16.Sp → after STATE_SP = of_Z w) →
  (∀ k, writes (state_access_of o) k = true → k ≠ SC.Pc → k ≠ SC.Ime → k ≠ SC.RunState → k ≠ SC.MCycles →
    (k = SC.F ∧ after STATE_FLAGS = of_Z (flags_byte (flags f))) ∨ (r = R16.Sp ∧ k = SC.Sp) ∨
    (r ≠ R16.Sp ∧ (k = register_component (pair_high r) ∨ k = register_component (pair_low r)))) →
  written_shown o (set_register16 r w f).
Proof.
  intros Hrow Hw Hp Hs Hk k ? ? ? ? Hwr. destruct (Hk k) as [[-> E] | [[-> ->] | [Hr Hk']]]; try done.
  - by destruct r.
  - by apply Hs.
  - destruct (Hp Hr) as [E1 E2]. by destruct r, Hk' as [-> | ->].
Qed.
(** ** Sixteen-bit increments and decrements *)

(** The next word of a step up or down, with the wrap of the row. *)
Lemma word_step (up : bool) x y (wrap : bool) : is_u16 x → is_u16 y →
  (if up then y - x - 1 + 65536 * Z.b2z wrap = 0 else y - x + 1 - 65536 * Z.b2z wrap = 0)%Z →
  y = w16 (if up then x + 1 else x - 1)%Z.
Proof. intros Hx Hy. unfold w16. destruct up, wrap; cbn [Z.b2z]; intros; zlia. Qed.

Lemma word_wrap i c : instruction_row i c → ∃ wrap : bool, value TRACE_WORD_WRAP = of_Z (Z.b2z wrap).
Proof.
  intros Hrow. pose proof (holds_words (instruction_components _ _ Hrow)) as Hw. unfold Word.constrain_word_operations in Hw.
  rewrite !satisfied_app, satisfied_map in Hw. apply boolean_bit, (proj1 Hw). apply list_elem_of_here.
Qed.

(** The columns of a pair or SP, before and after, that argument zero selects. *)
Lemma selected_word i c r : instruction_row i c → argument_zero (descriptor (operation i)) = register16_code r →
  Word.selected_register_word false = of_Z (register16 c r) ∧
  ∃ w, is_u16 w ∧ Word.selected_register_word true = of_Z w ∧
    (r ≠ R16.Sp → after (component_index (register_component (pair_high r))) = of_Z (hi8 w) ∧
      after (component_index (register_component (pair_low r))) = of_Z (lo8 w)) ∧
    (r = R16.Sp → after STATE_SP = of_Z w).
Proof.
  intros Hrow Ha.
  assert (Harg : ∀ code, 0 <= code < 8 → argument_selector ISA_ARGUMENT_ZERO_BITS_START 3 code = of_Z (Z.b2z (register16_code r =? code))).
  { intros code Hc. rewrite (argument_zero_value i c) by done. by rewrite Ha. }
  destruct (sp_columns i c Hrow) as [[_ Esp] (sp' & [Bsp _] & Esp')].
  assert (Hsel : ∀ is_after, Word.selected_register_word is_after =
    if decide (r = R16.Sp) then (if is_after then after STATE_SP else before STATE_SP)
    else Word.register_word is_after (component_index (register_component (pair_high r))) (component_index (register_component (pair_low r)))).
  { intros is_after. unfold Word.selected_register_word, word_register_routes. cbn [foldl]. rewrite !Harg by done.
    unfold REGISTER_B, REGISTER_C, REGISTER_D, REGISTER_E, REGISTER_H, REGISTER_L.
    destruct r; known_selectors; cbn [decide pair_high pair_low register_component component_index]; case_decide; try done; ring. }
  rewrite !Hsel. destruct (decide (r = R16.Sp)) as [-> | Hr].
  - split; [done |]. by exists sp'.
  - split; [by apply (pair_column i c) |]. unfold Word.register_word.
    set (high := component_index (register_component (pair_high r))). set (low := component_index (register_component (pair_low r))).
    assert (Bh : 0 <= high < 8) by (by destruct r). assert (Bl : 0 <= low < 8) by (by destruct r).
    destruct (after_byte i c high Hrow Bh) as (h & [Hh _] & Eh). destruct (after_byte i c low Hrow Bl) as (l & [Hl _] & El).
    exists (h * 256 + l)%Z. split; [lia |]. rewrite Eh, El. split; [by rewrite of_Z_u64, <- of_Z_mul, <- of_Z_add by done |].
    split; [| done]. intros _. destruct (word_bytes h l _ Hh Hl eq_refl) as [<- <-]. done.
Qed.

Lemma word_step_row i c c1 d (up : bool) r : fetched_row i c c1 d →
  operation i = (if up then Op.Increment16 r else Op.Decrement16 r) →
  eff (execute_alu16 (operation i) d) c1 (λ _ c' l, row_post i c' l).
Proof.
  intros Hf Ho. pose proof Hf as [Hrow Er Ef Esp _ _ _].
  destruct (selected_word i c r Hrow) as [Eb (w & Bw & Ew & Hp & Hs)]; [rewrite Ho; by destruct up |].
  pose proof (register16_range i c r Hrow) as Br. destruct (word_wrap i c Hrow) as [wrap Ewr].
  assert (E : w = w16 (if up then register16 c r + 1 else register16 c r - 1)%Z).
  { pose proof (holds_words (instruction_components _ _ Hrow)) as Hw. unfold Word.constrain_word_operations in Hw.
    rewrite !satisfied_app in Hw. destruct Hw as (_ & Hi & _). unfold Word.constrain_increment_decrement in Hi.
    rewrite (row_mode _ _ Hrow), !satisfied_cons in Hi. destruct Hi as (Ei & Ed & _).
    apply (word_step up _ _ wrap Br Bw). destruct up.
    - rewrite (operation_on i c 7), Eb, Ew, Ewr in Ei by (done || by rewrite Ho). apply ungate in Ei; [| ring].
      to_integers Ei. apply of_Z_zero in Ei; [done | destruct wrap; cbn [Z.b2z]; lia].
    - rewrite (operation_on i c 8), Eb, Ew, Ewr in Ed by (done || by rewrite Ho). apply ungate in Ed; [| ring].
      to_integers Ed. apply of_Z_zero in Ed; [done | destruct wrap; cbn [Z.b2z]; lia]. }
  assert (Ereg : register16 c1 r = register16 c r) by (destruct r; cbn [register16]; by rewrite ?Er, ?Esp).
  unfold row_post, execute_alu16. rewrite Ho. destruct up; eff_run; intros _; (split; [| intros _; apply accesses_shown_nil]);
    rewrite Ereg, <- E; (apply (written_pair i c r w _ c1 Hrow Bw Hp Hs); intros k Hk ? ? ? ?; right;
      destruct r, k; try done; try (by left); try (right; split; [done |]; by (left + right))).
Qed.
(** ** Sixteen-bit addition *)

Lemma low_nibble_high i c j : instruction_row i c → 0 <= j < 8 →
  packed_bits (TRACE_BEFORE_CPU_BYTE_BITS_START + j * 8)%Z 4 = of_Z (cpu_scalar c j mod 16).
Proof. intros Hrow Hj. apply low_nibble. by apply (before_byte i c j). Qed.

Lemma word_low i c r : instruction_row i c → Word.word_low_twelve (register16_code r) = of_Z (register16 c r mod 4096).
Proof.
  intros Hrow. destruct (row_cpu _ _ Hrow) as [[] _ _ ? _].
  assert (Hp : ∀ high low, 0 <= high < 8 → 0 <= low < 8 → is_u8 (cpu_scalar c high) → is_u8 (cpu_scalar c low) →
    before low + lit 256 * packed_bits (TRACE_BEFORE_CPU_BYTE_BITS_START + high * 8)%Z 4 =
      of_Z ((cpu_scalar c high * 256 + cpu_scalar c low) mod 4096)).
  { intros high low Hh Hl Bh Bl. rewrite (low_nibble_high i c) by done. destruct (before_byte i c low Hrow Hl) as (_ & -> & _).
    rewrite of_Z_u64, <- of_Z_mul, <- of_Z_add by done. f_equal. zlia. }
  destruct r; cbn [register16_code Word.word_low_twelve register16]; rewrite ?be16_value by done.
  - exact (Hp 1 2 ltac:(done) ltac:(done) ltac:(done) ltac:(done)).
  - exact (Hp 3 4 ltac:(done) ltac:(done) ltac:(done) ltac:(done)).
  - exact (Hp 5 6 ltac:(done) ltac:(done) ltac:(done) ltac:(done)).
  - apply (packed_bits_low _ 16); [| done]. by destruct (sp_columns i c Hrow) as [[? _] _].
Qed.

Lemma word_sum x y z (carry half : bool) : is_u16 x → is_u16 y → is_u16 z →
  (x + y - z - 65536 * Z.b2z carry = 0)%Z → (x mod 4096 + y mod 4096 - z mod 4096 - 4096 * Z.b2z half = 0)%Z →
  z = w16 (x + y) ∧ half = (4095 <? x mod 4096 + y mod 4096) ∧ carry = (65535 <? x + y).
Proof. intros ? ? ?. unfold w16. destruct carry, half; cbn [Z.b2z]; intros; split_and!; zlia. Qed.

Lemma word_flag_columns i c : instruction_row i c → ∃ carry half underflow overflow : bool,
  value TRACE_WORD_CARRY = of_Z (Z.b2z carry) ∧ value TRACE_WORD_HALF_CARRY = of_Z (Z.b2z half) ∧
  value TRACE_SIGNED_SP_UNDERFLOW = of_Z (Z.b2z underflow) ∧ value TRACE_SIGNED_SP_OVERFLOW = of_Z (Z.b2z overflow).
Proof.
  intros Hrow. pose proof (holds_words (instruction_components _ _ Hrow)) as Hw. unfold Word.constrain_word_operations in Hw.
  rewrite !satisfied_app, satisfied_map in Hw. destruct Hw as [Hb _].
  assert (Hc : ∀ column, column ∈ [TRACE_WORD_WRAP; TRACE_WORD_CARRY; TRACE_WORD_HALF_CARRY; TRACE_SIGNED_SP_UNDERFLOW; TRACE_SIGNED_SP_OVERFLOW] →
    ∃ b : bool, value column = of_Z (Z.b2z b)) by (intros column Hin; by apply boolean_bit, Hb).
  destruct (Hc TRACE_WORD_CARRY) as [carry ?]; [apply list_elem_of_further, list_elem_of_here |].
  destruct (Hc TRACE_WORD_HALF_CARRY) as [half ?]; [do 2 apply list_elem_of_further; apply list_elem_of_here |].
  destruct (Hc TRACE_SIGNED_SP_UNDERFLOW) as [underflow ?]; [do 3 apply list_elem_of_further; apply list_elem_of_here |].
  destruct (Hc TRACE_SIGNED_SP_OVERFLOW) as [overflow ?]; [do 4 apply list_elem_of_further; apply list_elem_of_here |].
  by exists carry, half, underflow, overflow.
Qed.

Lemma add_hl_values i c r : instruction_row i c → operation i = Op.AddHl r →
  let '(w, f) := add_hl (register16 c R16.Hl) (register16 c r) (flags c) in
  is_u16 w ∧ after REGISTER_H = of_Z (hi8 w) ∧ after REGISTER_L = of_Z (lo8 w) ∧ after STATE_FLAGS = of_Z (flags_byte f).
Proof.
  intros Hrow Ho. pose proof (holds_words (instruction_components _ _ Hrow)) as Hw. unfold Word.constrain_word_operations in Hw.
  rewrite !satisfied_app in Hw. destruct Hw as (_ & _ & Ha & _). unfold Word.constrain_add_hl in Ha.
  rewrite (row_mode _ _ Hrow), (operation_on i c 5), !satisfied_cons in Ha by (done || by rewrite Ho).
  destruct Ha as (E1 & E2 & E3 & _). apply ungate in E1, E2, E3; [| ring..].
  destruct (selected_word i c r Hrow) as [Eb _]; [by rewrite Ho |].
  destruct (word_flag_columns i c Hrow) as (carry & half & _ & _ & Ec & Eh & _). destruct (flag_columns i c Hrow) as (_ & _ & _ & Ez).
  pose proof (register16_range i c r Hrow) as Br. pose proof (register16_range i c R16.Hl Hrow) as Bhl.
  destruct (after_byte i c 5 Hrow ltac:(done)) as (h & Hh & Eh'). destruct (after_byte i c 6 Hrow ltac:(done)) as (l & Hl & El').
  pose proof (proj1 Hh) as Bh. pose proof (proj1 Hl) as Bl.
  assert (Enext : Word.register_word true REGISTER_H REGISTER_L = of_Z (h * 256 + l)%Z).
  { unfold Word.register_word. change (after REGISTER_H) with (after 5). change (after REGISTER_L) with (after 6). rewrite Eh', El'.
    by rewrite of_Z_u64, <- of_Z_mul, <- of_Z_add by done. }
  assert (Ecur : Word.register_word false REGISTER_H REGISTER_L = of_Z (register16 c R16.Hl)) by (by apply (hl_column i c)).
  assert (Elow : Word.selected_word_low_twelve = of_Z (register16 c r mod 4096)).
  { unfold Word.selected_word_low_twelve. change (range 4) with [0; 1; 2; 3]. cbn [foldl].
    rewrite !(argument_zero_value i c), Ho by done. cbn [descriptor argument_zero].
    rewrite <- (word_low i c r Hrow). destruct r; known_selectors; ring. }
  assert (Enl : Word.after_hl_low_twelve = of_Z ((h * 256 + l) mod 4096)).
  { unfold Word.after_hl_low_twelve. change (after REGISTER_L) with (after 6). change (REGISTER_H * 8)%Z with (5 * 8)%Z. rewrite El', (low_nibble _ h Hh).
    rewrite of_Z_u64, <- of_Z_mul, <- of_Z_add by done. f_equal. zlia. }
  rewrite Ecur, Eb, Enext, Ec in E1. change (Word.word_low_twelve 2) with (Word.word_low_twelve (register16_code R16.Hl)) in E2.
  rewrite (word_low i c R16.Hl Hrow), Elow, Enl, Eh in E2. rewrite Ez, Eh, Ec in E3.
  to_integers E1. to_integers E2. apply of_Z_zero in E1; [| destruct carry; cbn [Z.b2z]; lia].
  apply of_Z_zero in E2; [| pose proof (b2z_range half); zlia].
  assert (Bw : is_u16 (h * 256 + l)) by lia. destruct (word_sum _ _ _ carry half Bhl Br Bw E1 E2) as (E & Ehalf & Ecarry).
  unfold add_hl. rewrite !land_4095, <- Ehalf, <- Ecarry, <- E.
  destruct (word_bytes h l _ Bh Bl eq_refl) as [<- <-]. split; [lia |]. split; [done |]. split; [done |].
  apply fsub_zero in E3. rewrite E3, from_bits_value, !of_Z_u64 by done. rewrite <- !of_Z_mul, <- !of_Z_add. f_equal. cbn [Z.b2z]. lia.
Qed.

Lemma add_hl_row i c c1 d r : fetched_row i c c1 d → operation i = Op.AddHl r →
  eff (execute_alu16 (operation i) d) c1 (λ _ c' l, row_post i c' l).
Proof.
  intros Hf Ho. pose proof Hf as [Hrow Er Ef Esp _ _ _]. pose proof (add_hl_values i c r Hrow Ho) as Hv.
  assert (Ereg : ∀ r, register16 c1 r = register16 c r) by (intros []; cbn [register16]; by rewrite ?Er, ?Esp).
  unfold row_post, execute_alu16. rewrite Ho. do 3 eff_step. rewrite !Ereg, Ef.
  destruct (add_hl _ _ _) as [w f]. destruct Hv as (Bw & Eh & El & Efl). eff_run. intros _.
  split; [| intros _; apply accesses_shown_nil]. written_cases Hk; try (destruct r; discriminate Hk); [exact Eh | exact El | exact Efl].
Qed.
(** ** Signed offsets of SP *)

Lemma signed_sum x e y (underflow overflow : bool) : is_u16 x → is_u8 e → is_u16 y → (Z.b2z underflow * Z.b2z overflow = 0)%Z →
  (y - x - e + 256 * (e / 128) - 65536 * Z.b2z underflow + 65536 * Z.b2z overflow = 0)%Z → y = w16 (x + i8_of e).
Proof.
  intros Hx He Hy. unfold w16, i8_of. destruct underflow, overflow; cbn [Z.b2z]; intros ? ?; try lia; destruct (Z.ltb_spec e 128); zlia.
Qed.
Lemma signed_carries x e r (carry half : bool) : is_u16 x → is_u8 e → is_u8 r →
  (x mod 256 + e - r - 256 * Z.b2z carry = 0)%Z → (x mod 16 + e mod 16 - r mod 16 - 16 * Z.b2z half = 0)%Z →
  half = (15 <? x mod 16 + e mod 16) ∧ carry = (255 <? x mod 256 + e).
Proof. intros Hx He Hr. destruct carry, half; cbn [Z.b2z]; intros; split; zlia. Qed.

Lemma top_bit start e : has_bits start 8 e → value (start + 7)%Z = of_Z (e / 128).
Proof. intros He. rewrite (has_bits_bit _ 8 e 7 He) by done. rewrite Z.testbit_spec' by done. f_equal. destruct He as [? _]. zlia. Qed.

Lemma signed_values i c e : instruction_row i c → operation i = Op.AddSpOffset ∨ operation i = Op.LoadHlSpOffset → is_u8 e →
  value TRACE_IMMEDIATE_LOW = of_Z e → has_bits TRACE_IMMEDIATE_LOW_BITS_START 8 e →
  let '(w, f) := add_signed_to_sp (sp c) e in
  is_u16 w ∧ after STATE_FLAGS = of_Z (flags_byte f) ∧
  (operation i = Op.AddSpOffset → after STATE_SP = of_Z w) ∧
  (operation i = Op.LoadHlSpOffset → after REGISTER_H = of_Z (hi8 w) ∧ after REGISTER_L = of_Z (lo8 w)).
Proof.
  intros Hrow Ho Be Ei Hi. pose proof (holds_words (instruction_components _ _ Hrow)) as Hw. unfold Word.constrain_word_operations in Hw.
  rewrite !satisfied_app in Hw. destruct Hw as (_ & _ & _ & Hs & _). unfold Word.constrain_signed_sp in Hs.
  rewrite !satisfied_cons in Hs. destruct Hs as (_ & Euo & Esp & Ehl & Ec & Eh & Ef & _).
  assert (Hg : operation_selector 22 + operation_selector 23 = f1).
  { rewrite !(operation_value i c) by done. destruct Ho as [-> | ->]; known_selectors; ring. }
  pose proof (row_mode _ _ Hrow) as Hm. rewrite Hm in Esp. rewrite Hm in Ehl. rewrite Hm, Hg in Ec. rewrite Hm, Hg in Eh. rewrite Hm, Hg in Ef.
  apply ungate in Ec, Eh, Ef; [| ring..].
  destruct (word_flag_columns i c Hrow) as (_ & _ & underflow & overflow & _ & _ & Eu & Eo).
  destruct (arithmetic_witness i c Hrow) as (v & r & carry & half & [_ _ Hr Er Ecy Ehf _]).
  destruct (sp_columns i c Hrow) as [[Hsp Esp0] (sp' & [Bsp _] & Esp')]. pose proof (proj1 Hr) as Br. pose proof (proj1 Hsp) as Bs.
  assert (El8 : packed_bits TRACE_BEFORE_SP_BITS_START 8 = of_Z (sp c mod 256)) by (by apply (packed_bits_low _ 16)).
  assert (El4 : packed_bits TRACE_BEFORE_SP_BITS_START 4 = of_Z (sp c mod 16)) by (by apply (packed_bits_low _ 16)).
  unfold Word.result_low_nibble in Eh. rewrite El8, Er, Ei, Ecy in Ec. rewrite El4, (low_nibble _ _ Hr), (low_nibble _ _ Hi), Ehf in Eh.
  rewrite Ecy, Ehf in Ef. rewrite Eu, Eo in Euo. rewrite Esp', Esp0, (top_bit _ e Hi), Eu, Eo, Ei in Esp. rewrite Esp0, (top_bit _ e Hi), Eu, Eo, Ei in Ehl.
  pose proof (b2z_range carry). pose proof (b2z_range half). pose proof (b2z_range underflow) as Bu. pose proof (b2z_range overflow) as Bo.
  to_integers Ec. to_integers Eh. to_integers Euo. apply of_Z_zero in Ec; [| zlia]. apply of_Z_zero in Eh; [| zlia].
  apply of_Z_zero in Euo; [| nia].
  destruct (signed_carries (sp c) e r carry half Bs Be Br ltac:(lia) ltac:(lia)) as [Hhalf Hcarry].
  unfold add_signed_to_sp. rewrite land_255, !land_15, <- Hhalf, <- Hcarry. split; [apply w16_bound |].
  split; [apply fsub_zero in Ef; rewrite Ef, from_bits_value, !of_Z_u64 by done; rewrite <- !of_Z_mul, <- !of_Z_add; f_equal; cbn [Z.b2z]; lia |].
  split; intros Ho'.
  - rewrite (operation_on i c 22) in Esp by (done || by rewrite Ho'). apply ungate in Esp; [| ring]. to_integers Esp.
    apply of_Z_zero in Esp; [| zlia]. rewrite Esp'. f_equal. apply (signed_sum _ _ _ underflow overflow); [done.. | lia].
  - rewrite (operation_on i c 23) in Ehl by (done || by rewrite Ho'). apply ungate in Ehl; [| ring].
    destruct (after_byte i c 5 Hrow ltac:(done)) as (h & [Bh _] & Eh'). destruct (after_byte i c 6 Hrow ltac:(done)) as (l & [Bl _] & El').
    unfold Word.register_word in Ehl. change (after REGISTER_H) with (after 5) in *. change (after REGISTER_L) with (after 6) in *.
    rewrite Eh', El' in *. to_integers Ehl. apply of_Z_zero in Ehl; [| zlia].
    assert (E : (h * 256 + l)%Z = w16 (sp c + i8_of e)) by (apply (signed_sum _ _ _ underflow overflow); [done | done | lia | done | lia]).
    destruct (word_bytes h l _ Bh Bl E) as [<- <-]. done.
Qed.

Lemma add_sp_row i c c1 d : fetched_row i c c1 d → operation i = Op.AddSpOffset →
  eff (execute_alu16 (operation i) d) c1 (λ _ c' l, row_post i c' l).
Proof.
  intros Hf Ho. pose proof Hf as [Hrow _ _ Esp _ Hfirst _]. unfold row_post, execute_alu16. rewrite Ho. do 3 eff_step. eff_step. apply eff_byte. intros e Hd. destruct (Hfirst e Hd) as (Be & _ & Ei & Hi).
  pose proof (signed_values i c e Hrow (or_introl Ho) Be Ei Hi) as Hv. rewrite Esp. destruct (add_signed_to_sp _ _) as [w f].
  destruct Hv as (_ & Efl & Ew & _). specialize (Ew Ho). eff_run. intros _. split; [| intros _; apply accesses_shown_nil].
  written_cases Hk; try discriminate Hk; [exact Efl | exact Ew].
Qed.
Lemma load_hl_sp_row i c c1 d : fetched_row i c c1 d → operation i = Op.LoadHlSpOffset →
  eff (execute_load (operation i) d) c1 (λ _ c' l, row_post i c' l).
Proof.
  intros Hf Ho. pose proof Hf as [Hrow _ _ Esp _ Hfirst _]. unfold row_post, execute_load. rewrite Ho. do 3 eff_step. eff_step. apply eff_byte. intros e Hd. destruct (Hfirst e Hd) as (Be & _ & Ei & Hi).
  pose proof (signed_values i c e Hrow (or_intror Ho) Be Ei Hi) as Hv. rewrite Esp. destruct (add_signed_to_sp _ _) as [w f].
  destruct Hv as (_ & Efl & _ & Ew). specialize (Ew Ho). destruct Ew as [Ewh Ewl]. eff_run. intros _. split; [| intros _; apply accesses_shown_nil].
  written_cases Hk; try discriminate Hk; [exact Ewh | exact Ewl | exact Efl].
Qed.

(** ** Immediate loads *)

Lemma data_constraints i c : instruction_row i c →
  satisfied (Data.constrain_immediate_loads f1) ∧ satisfied (Data.constrain_store_sp f1) ∧ satisfied (Data.constrain_load8 f1) ∧
  satisfied (Data.constrain_accumulator_transfers f1) ∧ satisfied (Data.constrain_simple_flag_operations f1) ∧
  satisfied (Data.constrain_low_power f1) ∧ satisfied (Data.constrain_ime f1).
Proof.
  intros Hrow. pose proof (holds_data (instruction_components _ _ Hrow)) as Hd.
  unfold Data.constrain_data_and_simple_operations in Hd. rewrite (row_mode _ _ Hrow) in Hd. by rewrite !satisfied_app in Hd.
Qed.
Lemma argument_zero_known i c n : instruction_row i c → argument_zero (descriptor (operation i)) = n →
  ∀ code, 0 <= code < 8 → argument_selector ISA_ARGUMENT_ZERO_BITS_START 3 code = of_Z (Z.b2z (n =? code)).
Proof. intros Hrow <- code Hc. by apply (argument_zero_value i c). Qed.

Lemma load16_values i c r high low : instruction_row i c → operation i = Op.Load16Immediate r → is_u8 high → is_u8 low →
  value TRACE_IMMEDIATE_LOW = of_Z low → value TRACE_IMMEDIATE_HIGH = of_Z high →
  (r ≠ R16.Sp → after (component_index (register_component (pair_high r))) = of_Z high ∧
    after (component_index (register_component (pair_low r))) = of_Z low) ∧
  (r = R16.Sp → after STATE_SP = of_Z (be16 high low)).
Proof.
  intros Hrow Ho Bh Bl El Eh. destruct (data_constraints i c Hrow) as (Hd & _). unfold Data.constrain_immediate_loads in Hd.
  rewrite El, Eh, !satisfied_app, satisfied_each, satisfied_cons in Hd. destruct Hd as (Hp & (Es & _) & _).
  pose proof (argument_zero_known i c _ Hrow ltac:(by rewrite Ho)) as Harg. cbn [register16_code] in Harg.
  rewrite (operation_on i c 4) in Es by (done || by rewrite Ho). split; intros Hr.
  - specialize (Hp (register16_code r, component_index (register_component (pair_high r)), component_index (register_component (pair_low r)))).
    cbv beta iota zeta in Hp. rewrite (operation_on i c 4), Harg, Z.eqb_refl, !satisfied_cons in Hp by (done || (by rewrite Ho) || by destruct r).
    destruct Hp as (E1 & E2 & _); [destruct r; try done; unfold word_register_routes; repeat first [apply list_elem_of_here | apply list_elem_of_further] |].
    cbn [Z.b2z] in E1, E2. rewrite of_Z_1 in E1, E2. apply ungate in E1, E2; [| ring..]. by apply fsub_zero in E1, E2.
  - subst r. rewrite Harg in Es by done. change (3 =? 3) with true in Es. cbn [Z.b2z] in Es. rewrite of_Z_1 in Es.
    apply ungate in Es; [| ring]. apply fsub_zero in Es. rewrite Es, be16_value by done. rewrite of_Z_u64 by done.
    rewrite <- of_Z_mul, <- of_Z_add. f_equal. lia.
Qed.

Lemma load16_row i c c1 d r : fetched_row i c c1 d → operation i = Op.Load16Immediate r →
  eff (execute_load (operation i) d) c1 (λ _ c' l, row_post i c' l).
Proof.
  intros Hf Ho. pose proof Hf as [Hrow _ _ _ _ Hfirst Hsecond]. unfold row_post, execute_load. rewrite Ho. do 3 eff_step. eff_step.
  apply eff_word. intros low high E1 E2. destruct (Hfirst _ E1) as (Bl & _ & El & _). destruct (Hsecond _ E2) as (Bh & Eh).
  destruct (load16_values i c r high low Hrow Ho Bh Bl El Eh) as [Hp Hs]. eff_run. intros _. split; [| intros _; apply accesses_shown_nil].
  assert (Bw : is_u16 (be16 high low)) by (rewrite be16_value by done; lia).
  apply (written_pair i c r _ _ c1 Hrow Bw); [| done |].
  - intros Hr. destruct (Hp Hr) as [-> ->]. by rewrite hi8_be16, lo8_be16.
  - intros k Hk ? ? ? ?. right. destruct r, k; try done; try (by left); try (right; split; [done |]; by (left + right)).
Qed.

Lemma load8_immediate_row i c c1 d target : fetched_row i c c1 d → operation i = Op.Load8Immediate target →
  eff (execute_load (operation i) d) c1 (λ _ c' l, row_post i c' l).
Proof.
  intros Hf Ho. pose proof Hf as [Hrow Er _ _ _ Hfirst _]. unfold row_post, execute_load. rewrite Ho. do 3 eff_step. eff_step.
  apply eff_byte. intros v E1. destruct (Hfirst _ E1) as (Bv & _ & Ev & _).
  destruct (data_constraints i c Hrow) as (Hd & _). unfold Data.constrain_immediate_loads in Hd.
  rewrite Ev, !satisfied_app, !satisfied_cons in Hd. destruct Hd as (_ & _ & Hr & (Ea & Eb & _)).
  pose proof (argument_zero_known i c _ Hrow ltac:(by rewrite Ho)) as Harg. 
  pose proof (operation_on i c 11 Hrow ltac:(by rewrite Ho) ltac:(done)) as Hop. 
  pose proof (defined_length i (row_defined _ _ Hrow)) as Hlen. rewrite Ho in Hlen. cbn [operation_length] in Hlen.
  apply eff_write_operand. intros c' l Hw. eff_run. intros _. destruct target as [r | |]; [| done |].
  - destruct Hw as [-> ->]. split; [| intros _; apply accesses_shown_nil].
    pose proof (routed_after (argument_selector ISA_ARGUMENT_ZERO_BITS_START 3) (f1 * operation_selector 11) r (of_Z v)) as Ha.
    rewrite Hop in Ha. specialize (Ha ltac:(ring) Harg). rewrite Hop in Hr. specialize (Ha Hr).
    written_cases Hk; destruct r; try discriminate Hk; exact Ha.
  - destruct Hw as [-> ->]. pose proof (Harg 6 ltac:(done)) as H6. change (of_Z (Z.b2z (6 =? 6)) : F) with (of_Z 1 : F) in H6. rewrite of_Z_1 in H6.
    rewrite Hop, H6 in Ea. rewrite Hop, H6 in Eb. apply ungate in Ea, Eb; [| ring..]. apply fsub_zero in Ea, Eb.
    split; [written_cases Hk; discriminate Hk |]. intros _. rewrite Hlen. apply accesses_shown_cons; [| exact Eb | apply accesses_shown_nil].
    rewrite Ea. unfold Data.register_word. rewrite (hl_column i c Hrow). unfold register16. by rewrite Er.
Qed.

(** ** Loads between registers *)

Lemma load8_operands i d s : defined_instruction i → operation i = Op.Load8 d s →
  d ≠ Opd.Immediate ∧ s ≠ Opd.Immediate ∧ (d = Opd.IndirectHl → s ≠ Opd.IndirectHl).
Proof.
  intros Hi Ho. pose proof (defined_forall (λ i, match operation i with
    | Op.Load8 Opd.Immediate _ | Op.Load8 _ Opd.Immediate | Op.Load8 Opd.IndirectHl Opd.IndirectHl => false | _ => true end)
    ltac:(by vm_compute) i Hi) as E. cbv beta in E. rewrite Ho in E. by destruct d, s.
Qed.

Lemma load8_row i c c1 d destination source : fetched_row i c c1 d → operation i = Op.Load8 destination source →
  eff (execute_load (operation i) d) c1 (λ _ c' l, row_post i c' l).
Proof.
  intros Hf Ho. pose proof Hf as [Hrow Er _ _ _ _ _].
  destruct (load8_operands i _ _ (row_defined _ _ Hrow) Ho) as (Nd & Ns & Nhl).
  destruct (data_constraints i c Hrow) as (_ & _ & Hd & _). unfold Data.constrain_load8 in Hd.
  rewrite !satisfied_app, !satisfied_cons in Hd. destruct Hd as ((Es & _) & Hr & (Ea & Eb & _)).
  pose proof (operation_on i c 17 Hrow ltac:(by rewrite Ho) ltac:(done)) as Hop. rewrite Hop in *.
  pose proof (argument_zero_known i c _ Hrow ltac:(by rewrite Ho)) as Harg. cbn [operand8_code] in Harg.
  destruct (arithmetic_witness i c Hrow) as (v & r & carry & half & [Hv Ev _ _ _ _ _]). pose proof (proj1 Hv) as Bv.
  rewrite Ev in *. apply ungate in Es; [| ring]. apply fsub_zero in Es. unfold Data.selected_byte_source in Es.
  rewrite (routed_operand i c (argument_selector ISA_ARGUMENT_ONE_BITS_START 4) source) in Es;
    [| done | intros code Hc; rewrite (argument_one_value i c) by (done || lia); by rewrite Ho].
  pose proof (defined_length i (row_defined _ _ Hrow)) as Hlen. rewrite Ho in Hlen. cbn [operation_length] in Hlen.
  unfold row_post, execute_load. rewrite Ho, Hlen. do 3 eff_step. eff_step. apply eff_read_operand. intros v' l Hv'.
  apply eff_write_operand. intros c' l' Hw. eff_run. rewrite app_nil_r. cbn [app]. rewrite reads_shown_app. intros [Hl _].
  assert (v' = v) as ->.
  { apply (operand_agrees i c c1 d 1 source v v' l Hf); [done | | done | done | done]. rewrite Es. by destruct source. }
  destruct destination as [register | |]; [| done |].
  - destruct Hw as [-> ->]. rewrite app_nil_r.
    assert (Ha : after (component_index (register_component register)) = of_Z v)
      by (by apply (routed_after (argument_selector ISA_ARGUMENT_ZERO_BITS_START 3) (f1 * f1)); [ring | |]).
    split; [written_cases Hk; destruct register, source; try discriminate Hk; exact Ha |].
    destruct source; [| done..]. intros _. destruct Hv' as [_ ->]. apply accesses_shown_nil.
  - destruct Hw as [-> ->]. destruct source as [s | |]; [| done | by destruct Nhl]. destruct Hv' as [_ ->]. cbn [app].
    split; [written_cases Hk; discriminate Hk |]. intros _.
    pose proof (Harg 6 ltac:(done)) as H6. change (of_Z (Z.b2z (6 =? 6)) : F) with (of_Z 1 : F) in H6. rewrite of_Z_1 in H6.
    rewrite H6 in Ea. rewrite H6 in Eb. apply ungate in Ea, Eb; [| ring..]. apply fsub_zero in Ea, Eb.
    apply accesses_shown_cons; [| exact Eb | apply accesses_shown_nil].
    rewrite Ea. unfold Data.register_word. rewrite (hl_column i c Hrow). unfold register16. by rewrite Er.
Qed.

(** ** The stack pointer to memory and from HL *)

Lemma bus_columns i c slot : instruction_row i c → 0 <= slot < TRACE_BUS_SLOTS → ∃ a v, is_u16 a ∧ is_u8 v ∧
  bus_field slot BUS_ADDRESS_OFFSET = of_Z a ∧ bus_field slot BUS_VALUE_OFFSET = of_Z v.
Proof.
  intros Hrow Hs. pose proof (holds_bus (instruction_components _ _ Hrow)) as Hb. unfold constrain_bus in Hb. cbv zeta in Hb.
  rewrite !satisfied_app, satisfied_each in Hb. destruct Hb as (Hb & _). specialize (Hb slot (elem_of_range _ _ Hs)).
  unfold constrain_bus_slot in Hb. cbv zeta in Hb. rewrite !satisfied_app, !satisfied_cons in Hb.
  destruct Hb as (_ & _ & _ & _ & Ha & (Ea & _) & _ & _ & Hv & (Ev & _) & _).
  destruct (column_bits _ _ 16 ltac:(done) (bit_range_bits _ 16 Ha ltac:(done)) Ea) as (a & [Ba _] & Ea').
  destruct (column_bits _ _ 8 ltac:(done) (bit_range_bits _ 8 Hv ltac:(done)) Ev) as (v & [Bv _] & Ev').
  by exists a, v.
Qed.
Lemma wrapped_up x y (wrap : bool) : is_u16 x → is_u16 y → of_Z x - of_Z y - f1 + lit 65536 * of_Z (Z.b2z wrap) = f0 →
  (x - y - 1 + 65536 * Z.b2z wrap = 0)%Z.
Proof. intros Hx Hy E. to_integers E. apply of_Z_zero in E; [done |]. pose proof (b2z_range wrap). lia. Qed.

Lemma store_sp_row i c c1 d : fetched_row i c c1 d → operation i = Op.StoreSpAbsolute →
  eff (execute_load (operation i) d) c1 (λ _ c' l, row_post i c' l).
Proof.
  intros Hf Ho. pose proof Hf as [Hrow _ _ Ersp _ Hfirst Hsecond]. unfold row_post, execute_load. rewrite Ho. do 3 eff_step. eff_step.
  apply eff_word. intros low high E1 E2. destruct (Hfirst _ E1) as (Bl & _ & El & _). destruct (Hsecond _ E2) as (Bh & Eh).
  destruct (data_constraints i c Hrow) as (_ & Hd & _). unfold Data.constrain_store_sp in Hd. rewrite El, Eh, !satisfied_cons in Hd.
  destruct Hd as (Hwrap & A1 & V1 & A2 & V2 & _). apply boolean_bit in Hwrap as [wrap Ew]. rewrite Ew in A2.
  pose proof (operation_on i c 1 Hrow ltac:(by rewrite Ho) ltac:(done)) as Hop. rewrite Hop in A1. rewrite Hop in V1. rewrite Hop in A2. rewrite Hop in V2.
  apply ungate in A1, V1, A2, V2; [| ring..]. apply fsub_zero in A1, V1, V2.
  destruct (sp_columns i c Hrow) as [[Hsp _] _]. pose proof (proj1 Hsp) as Bs.
  rewrite (packed_bits_low _ 16 _ 8 Hsp) in V1 by done.
  assert (Eq : (Z.shiftr (sp c) 8 mod 2 ^ 8 = sp c / 256)%Z) by (rewrite Z.shiftr_div_pow2 by done; zlia).
  rewrite (packed_bits_value _ 8 (sp c / 256)) in V2 by (rewrite <- Eq; by apply (has_bits_part _ 16 _ 8 8 Hsp)).
  assert (Ea : of_Z low + lit 256 * of_Z high = of_Z (be16 high low)).
  { rewrite be16_value, of_Z_u64 by done. rewrite <- of_Z_mul, <- of_Z_add. f_equal. lia. }
  pose proof (defined_length i (row_defined _ _ Hrow)) as Hlen. rewrite Ho in Hlen. cbn [operation_length] in Hlen. rewrite Hlen.
  unfold store_sp_absolute. eff_run. rewrite Ersp. intros _. split; [written_cases Hk; discriminate Hk |]. intros _. cbn [app].
  apply accesses_shown_cons; [by rewrite A1 | by rewrite V1, lo8_value |].
  assert (Bw : is_u16 (be16 high low)) by (rewrite be16_value by done; lia).
  change (3 + 1)%Z with 4%Z. apply accesses_shown_cons; [| by rewrite V2, hi8_value | apply accesses_shown_nil].
  destruct (bus_columns i c 4 Hrow ltac:(done)) as (a & _ & Ba & _ & Ha & _). rewrite Ha in *. f_equal.
  apply (word_step true _ _ wrap Bw Ba). apply (wrapped_up _ _ wrap Ba Bw). rewrite <- Ea, <- A2. ring.
Qed.
Lemma load_sp_hl_row i c c1 d : fetched_row i c c1 d → operation i = Op.LoadSpHl →
  eff (execute_load (operation i) d) c1 (λ _ c' l, row_post i c' l).
Proof.
  intros Hf Ho. pose proof Hf as [Hrow Er _ _ _ _ _]. pose proof (holds_words (instruction_components _ _ Hrow)) as Hw.
  unfold Word.constrain_word_operations in Hw. rewrite !satisfied_app in Hw. destruct Hw as (_ & Hi & _).
  unfold Word.constrain_increment_decrement in Hi. rewrite (row_mode _ _ Hrow), !satisfied_cons in Hi. destruct Hi as (_ & _ & _ & _ & E & _).
  rewrite (operation_on i c 27) in E by (done || by rewrite Ho). apply ungate in E; [| ring]. apply fsub_zero in E.
  unfold row_post, execute_load. rewrite Ho. eff_run. intros _. split; [| intros _; apply accesses_shown_nil].
  written_cases Hk; try discriminate Hk. change (after STATE_SP = of_Z (register16 c1 R16.Hl)). rewrite E. unfold Word.register_word.
  rewrite (hl_column i c Hrow). unfold register16. by rewrite Er.
Qed.

(** ** Flags and complement *)

Lemma simple_row i c c1 d : fetched_row i c c1 d →
  operation i = Op.ComplementAccumulator ∨ operation i = Op.SetCarry ∨ operation i = Op.ComplementCarry →
  eff (execute_control (operation i)) c1 (λ _ c' l, row_post i c' l).
Proof.
  intros Hf Ho. pose proof Hf as [Hrow Er Ef _ _ _ _].
  destruct (data_constraints i c Hrow) as (_ & _ & _ & _ & Hd & _). unfold Data.constrain_simple_flag_operations in Hd.
  rewrite !satisfied_cons in Hd. destruct Hd as (Ea & Efl & Es & Ec & _).
  destruct (flag_columns i c Hrow) as (Fc & _ & _ & Fz). destruct (accumulator_columns i c Hrow) as [Aa _].
  rewrite Fz, Fc in Efl. rewrite Fz in Es. rewrite Fz, Fc in Ec. rewrite Aa in Ea.
  assert (Ha : is_u8 (reg_a (registers c))) by (by destruct (row_cpu _ _ Hrow) as [[] _ _ _ _]).
  destruct (after_byte i c 0 Hrow ltac:(done)) as (a & [Ba _] & Ea'). change (after REGISTER_A) with (after 0) in Ea. rewrite Ea' in Ea.
  destruct (after_byte i c 7 Hrow ltac:(done)) as (f & [Bf _] & Ef'). change (after STATE_FLAGS) with (after 7) in *.
  rewrite Ef' in Efl. rewrite Ef' in Es. rewrite Ef' in Ec.
  assert (Hfl : ∀ z n h k, (Z.b2z z * 128 + Z.b2z n * 64 + Z.b2z h * 32 + Z.b2z k * 16 = f)%Z → after 7 = of_Z (flags_byte (from_bits z n h k)))
    by (intros z n h k <-; by rewrite from_bits_value, Ef').
  pose proof (b2z_range (f_zero (flags c))). pose proof (b2z_range (f_carry (flags c))).
  unfold row_post, execute_control. destruct Ho as [Ho | [Ho | Ho]]; rewrite Ho; eff_run; intros _; (split; [| intros _; apply accesses_shown_nil]).
  - rewrite (operation_on i c 14) in Ea by (done || by rewrite Ho). rewrite (operation_on i c 14) in Efl by (done || by rewrite Ho).
    apply ungate in Ea, Efl; [| ring..]. to_integers Ea. to_integers Efl. apply of_Z_zero in Ea; [| lia]. apply of_Z_zero in Efl; [| lia].
    written_cases Hk; try discriminate Hk; [change (after 0 = of_Z (not8 (reg_a (registers c1)))) | refine (Hfl (f_zero (flags c1)) true true (f_carry (flags c1)) _)].
    + rewrite Ea', Er, not8_eq by done. f_equal. lia.
    + rewrite Ef. cbn [Z.b2z]. lia.
  - rewrite (operation_on i c 15) in Es by (done || by rewrite Ho). apply ungate in Es; [| ring]. to_integers Es. apply of_Z_zero in Es; [| lia].
    written_cases Hk; try discriminate Hk. refine (Hfl (f_zero (flags c1)) false false true _). rewrite Ef. cbn [Z.b2z]. lia.
  - rewrite (operation_on i c 16) in Ec by (done || by rewrite Ho). apply ungate in Ec; [| ring]. to_integers Ec. apply of_Z_zero in Ec; [| lia].
    written_cases Hk; try discriminate Hk. refine (Hfl (f_zero (flags c1)) false false (negb (f_carry (flags c1))) _). rewrite Ef. destruct (f_carry (flags c)); cbn [Z.b2z negb] in *; lia.
Qed.

(** ** Accumulator transfers *)

Lemma eff_transfer a direction c (Q : () → CpuState → list bus_access → Prop) :
  (∀ v c' l, match direction with
     | Dir.IntoAccumulator => c' = set_a v c ∧ l = [(Shape.DataRead, a, v)]
     | Dir.FromAccumulator => c' = c ∧ l = [(Shape.DataWrite, a, reg_a (registers c))] end → Q () c' l) →
  eff (transfer_accumulator a direction) c Q.
Proof. intros HQ. unfold transfer_accumulator. destruct direction; eff_run; [by eapply HQ | by apply (HQ 0)]. Qed.

(** The bus and accumulator columns of a transfer at a slot. *)
Lemma directional i c (start width slot : Z) (address : F) direction : instruction_row i c →
  satisfied (Data.constrain_directional_transfer f1 start width slot address) →
  (∀ code, 0 <= code < 2 → argument_selector start width code = of_Z (Z.b2z (direction_code direction =? code))) →
  bus_field slot BUS_ADDRESS_OFFSET = address ∧
  match direction with
  | Dir.IntoAccumulator => after REGISTER_A = bus_field slot BUS_VALUE_OFFSET
  | Dir.FromAccumulator => bus_field slot BUS_VALUE_OFFSET = of_Z (reg_a (registers c))
  end.
Proof.
  intros Hrow Hd Hs. unfold Data.constrain_directional_transfer in Hd. rewrite !satisfied_cons in Hd. destruct Hd as (Ea & Ei & Eo & _).
  rewrite Hs in Ei by done. rewrite Hs in Eo by done. destruct (accumulator_columns i c Hrow) as [Aa _]. rewrite Aa in Eo.
  apply ungate in Ea; [| ring]. apply fsub_zero in Ea. split; [done |].
  destruct direction; [change (of_Z (Z.b2z (_ =? 0))) with (of_Z 1 : F) in Ei; rewrite of_Z_1 in Ei; apply ungate in Ei; [| ring]; by apply fsub_zero in Ei |
    change (of_Z (Z.b2z (_ =? 1))) with (of_Z 1 : F) in Eo; rewrite of_Z_1 in Eo; apply ungate in Eo; [| ring]; by apply fsub_zero in Eo].
Qed.

Lemma transfer_shown (c c1 c' : CpuState) slot a direction l : registers c1 = registers c →
  bus_field slot BUS_ADDRESS_OFFSET = of_Z a →
  match direction with
  | Dir.IntoAccumulator => after REGISTER_A = bus_field slot BUS_VALUE_OFFSET
  | Dir.FromAccumulator => bus_field slot BUS_VALUE_OFFSET = of_Z (reg_a (registers c))
  end →
  match direction with
  | Dir.IntoAccumulator => ∃ v, c' = set_a v c1 ∧ l = [(Shape.DataRead, a, v)]
  | Dir.FromAccumulator => c' = c1 ∧ l = [(Shape.DataWrite, a, reg_a (registers c1))] end →
  reads_shown slot l → accesses_shown slot l ∧ (direction = Dir.IntoAccumulator → after REGISTER_A = of_Z (reg_a (registers c'))).
Proof.
  intros Er Ha Hv Hl Hr. destruct direction.
  - destruct Hl as (v & -> & ->). apply reads_shown_read in Hr as [_ Ev]. split; [| intros _; by rewrite Hv].
    by apply accesses_shown_cons; [| | apply accesses_shown_nil].
  - destruct Hl as [-> ->]. split; [| done]. rewrite Er. by apply accesses_shown_cons; [| | apply accesses_shown_nil].
Qed.

Lemma transfer_row i c c1 d a start width direction : fetched_row i c c1 d →
  satisfied (Data.constrain_directional_transfer f1 start width (byte_len i) (of_Z a)) →
  (∀ code, 0 <= code < 2 → argument_selector start width code = of_Z (Z.b2z (direction_code direction =? code))) →
  (∀ k, k ≠ SC.Pc → k ≠ SC.Ime → k ≠ SC.RunState → k ≠ SC.MCycles → writes (state_access_of (operation i)) k = true → k = SC.A ∧ direction = Dir.IntoAccumulator) →
  eff (transfer_accumulator a direction) c1 (λ _ c' l, row_post i c' l).
Proof.
  intros Hf Hd Hs Hw. pose proof Hf as [Hrow Er _ _ _ _ _]. destruct (directional i c _ _ _ _ direction Hrow Hd Hs) as [Ha Hv].
  apply eff_transfer. intros v c' l Hl Hr.
  destruct (transfer_shown c c1 c' (byte_len i) a direction l Er Ha Hv) as [Hacc HA]; [destruct direction; eauto | done |].
  split; [| done]. intros k ? ? ? ? Hk. destruct (Hw k) as [-> Hin]; [done.. |]. by apply HA.
Qed.
Lemma high_page low : is_u8 low → Z.lor 0xff00 low = (0xff00 + low)%Z.
Proof. intros Hl. change 0xff00 with (Z.shiftl 0xff 8). rewrite lor_shiftl_add by (done || lia). done. Qed.

Lemma accumulator_transfer_row i c c1 d direction : fetched_row i c c1 d →
  operation i = Op.HighImmediateLoad direction ∨ operation i = Op.HighCLoad direction ∨ operation i = Op.AbsoluteAccumulatorLoad direction →
  eff (execute_load (operation i) d) c1 (λ _ c' l, row_post i c' l).
Proof.
  intros Hf Ho. pose proof Hf as [Hrow Er _ _ _ Hfirst Hsecond].
  destruct (data_constraints i c Hrow) as (_ & _ & _ & Hd & _). unfold Data.constrain_accumulator_transfers in Hd. rewrite !satisfied_app in Hd.
  destruct Hd as (_ & D1 & D2 & D3). pose proof (defined_length i (row_defined _ _ Hrow)) as Hlen.
  assert (Hg : f1 * f1 = f1) by ring.
  assert (Harg : ∀ code, 0 <= code < 2 → argument_selector ISA_ARGUMENT_ZERO_BITS_START 3 code = of_Z (Z.b2z (direction_code direction =? code))).
  { intros code Hc. rewrite (argument_zero_value i c) by (done || lia). by destruct Ho as [-> | [-> | ->]]. }
  assert (Hw : ∀ k, k ≠ SC.Pc → k ≠ SC.Ime → k ≠ SC.RunState → k ≠ SC.MCycles → writes (state_access_of (operation i)) k = true → k = SC.A ∧ direction = Dir.IntoAccumulator).
  { intros k ? ? ? ?. destruct Ho as [-> | [-> | ->]]; by destruct direction, k. }
  assert (Hc : is_u8 (reg_c (registers c))) by (by destruct (row_cpu _ _ Hrow) as [[] _ _ _ _]).
  unfold execute_load. destruct Ho as [Ho | [Ho | Ho]]; rewrite Ho in *; cbn [operation_length] in Hlen; do 3 eff_step.
  - eff_step. apply eff_byte. intros low E. destruct (Hfirst _ E) as (Bl & _ & El & _).
    rewrite (operation_on i c 21), Hg, El in D1 by (done || by rewrite Ho). rewrite high_page by done.
    eapply eff_mono; [apply (transfer_row i c c1 d _ ISA_ARGUMENT_ZERO_BITS_START 3 _ Hf); [| exact Harg | rewrite Ho; exact Hw] | intros ? ? l Hl; eff_run; cbn [app]; by rewrite app_nil_r].
    rewrite Hlen, of_Z_add, <- (of_Z_u64 65280) by done. exact D1.
  - rewrite (operation_on i c 29), Hg in D2 by (done || by rewrite Ho). rewrite Er, high_page by done.
    eapply eff_mono; [apply (transfer_row i c c1 d _ ISA_ARGUMENT_ZERO_BITS_START 3 _ Hf); [| exact Harg | rewrite Ho; exact Hw] | intros ? ? l Hl; eff_run; cbn [app]; by rewrite app_nil_r].
    rewrite Hlen, of_Z_add, <- (of_Z_u64 65280) by done. change (before REGISTER_C) with (before (component_index SC.C)) in D2.
    rewrite (before_component i c) in D2 by done. exact D2.
  - eff_step. apply eff_word. intros low high E1 E2. destruct (Hfirst _ E1) as (Bl & _ & El & _). destruct (Hsecond _ E2) as (Bh & Eh).
    rewrite (operation_on i c 30), Hg, El, Eh in D3 by (done || by rewrite Ho). rewrite be16_value by done.
    eapply eff_mono; [apply (transfer_row i c c1 d _ ISA_ARGUMENT_ZERO_BITS_START 3 _ Hf); [| exact Harg | rewrite Ho; exact Hw] | intros ? ? l Hl; eff_run; cbn [app]; by rewrite app_nil_r].
    rewrite Hlen, Z.add_comm, Z.mul_comm, of_Z_add, of_Z_mul, <- (of_Z_u64 256) by done. exact D3.
Qed.

(** ** Indirect transfers and steps of HL *)

(** HL after a row whose wrap column makes it the next word. *)
Lemma hl_step (up : bool) i c (wrap : bool) : instruction_row i c → value TRACE_WORD_WRAP = of_Z (Z.b2z wrap) →
  (if up then Word.register_word true REGISTER_H REGISTER_L - Word.register_word false REGISTER_H REGISTER_L - f1 + lit 65536 * value TRACE_WORD_WRAP
   else Word.register_word true REGISTER_H REGISTER_L - Word.register_word false REGISTER_H REGISTER_L + f1 - lit 65536 * value TRACE_WORD_WRAP) = f0 →
  let w := w16 (if up then register16 c R16.Hl + 1 else register16 c R16.Hl - 1)%Z in
  after REGISTER_H = of_Z (hi8 w) ∧ after REGISTER_L = of_Z (lo8 w).
Proof.
  intros Hrow Ew E. cbv zeta. pose proof (register16_range i c R16.Hl Hrow) as Bhl. pose proof (b2z_range wrap) as Bw.
  destruct (after_byte i c 5 Hrow ltac:(done)) as (h & [Bh _] & Eh). destruct (after_byte i c 6 Hrow ltac:(done)) as (l & [Bl _] & El).
  assert (Ecur : Word.register_word false REGISTER_H REGISTER_L = of_Z (register16 c R16.Hl)) by (by apply (hl_column i c)).
  assert (Enext : Word.register_word true REGISTER_H REGISTER_L = of_Z (h * 256 + l)%Z).
  { unfold Word.register_word. change (after REGISTER_H) with (after 5). change (after REGISTER_L) with (after 6). rewrite Eh, El.
    by rewrite of_Z_u64, <- of_Z_mul, <- of_Z_add by done. }
  rewrite Ecur, Enext, Ew in E. change (after REGISTER_H) with (after 5). change (after REGISTER_L) with (after 6). rewrite Eh, El.
  assert (Ey : (h * 256 + l)%Z = w16 (if up then register16 c R16.Hl + 1 else register16 c R16.Hl - 1)%Z).
  { assert (Bhl' : is_u16 (h * 256 + l)) by lia. apply (word_step up _ _ wrap Bhl Bhl').
    destruct up; to_integers E; (apply of_Z_zero in E; [| lia]); exact E. }
  destruct (word_bytes h l _ Bh Bl Ey) as [<- <-]. done.
Qed.

Definition stepped_hl (a : Ind.IndirectAddress) (c : CpuState) : Z :=
  match a with
  | Ind.HlIncrement => w16 (register16 c R16.Hl + 1)
  | Ind.HlDecrement => w16 (register16 c R16.Hl - 1)
  | _ => register16 c R16.Hl
  end.
Lemma indirect_hl i c a direction : instruction_row i c → operation i = Op.LoadAccumulatorIndirect a direction →
  a = Ind.HlIncrement ∨ a = Ind.HlDecrement →
  after REGISTER_H = of_Z (hi8 (stepped_hl a c)) ∧ after REGISTER_L = of_Z (lo8 (stepped_hl a c)).
Proof.
  intros Hrow Ho Ha. pose proof (holds_words (instruction_components _ _ Hrow)) as Hw. unfold Word.constrain_word_operations in Hw.
  rewrite !satisfied_app in Hw. destruct Hw as (_ & Hi & _). unfold Word.constrain_increment_decrement in Hi.
  rewrite (row_mode _ _ Hrow), !satisfied_cons in Hi. destruct Hi as (_ & _ & Eu & Ed & _).
  destruct (word_wrap i c Hrow) as [wrap Ew].
  assert (Hg : f1 * operation_selector 6 * argument_selector ISA_ARGUMENT_ZERO_BITS_START 3 (indirect_code a) = f1).
  { rewrite (operation_on i c 6), (argument_zero_on i c (indirect_code a)) by (done || (by rewrite Ho) || by destruct a). ring. }
  destruct Ha as [-> | ->]; cbn [indirect_code] in Hg.
  - rewrite Hg in Eu. apply ungate in Eu; [| done]. exact (hl_step true i c wrap Hrow Ew Eu).
  - rewrite Hg in Ed. apply ungate in Ed; [| done]. exact (hl_step false i c wrap Hrow Ew Ed).
Qed.

Lemma indirect_row i c c1 d a direction : fetched_row i c c1 d → operation i = Op.LoadAccumulatorIndirect a direction →
  eff (execute_load (operation i) d) c1 (λ _ c' l, row_post i c' l).
Proof.
  intros Hf Ho. pose proof Hf as [Hrow Er _ _ _ _ _].
  destruct (data_constraints i c Hrow) as (_ & _ & _ & Hd & _). unfold Data.constrain_accumulator_transfers in Hd. rewrite !satisfied_app in Hd.
  destruct Hd as (Hd & _). rewrite (operation_on i c 6) in Hd by (done || by rewrite Ho). assert (Hg : f1 * f1 = f1) by ring. rewrite Hg in Hd. clear Hg.
  assert (Eaddr : indirect_address c1 a = indirect_address c a) by (destruct a; cbn [indirect_address register16]; by rewrite Er).
  assert (Hone : ∀ code, 0 <= code < 2 → argument_selector ISA_ARGUMENT_ONE_BITS_START 4 code = of_Z (Z.b2z (direction_code direction =? code))).
  { intros code Hc. rewrite (argument_one_value i c) by (done || lia). by rewrite Ho. }
  destruct (directional i c _ _ _ _ direction Hrow Hd Hone) as [Ha Hv].
  rewrite !(argument_zero_value i c), Ho in Ha by done. 
  assert (Ea : bus_field 1 BUS_ADDRESS_OFFSET = of_Z (indirect_address c a)).
  { rewrite Ha. unfold Data.register_word. 
    pose proof (pair_column i c R16.Bc Hrow ltac:(done)) as Ebc. pose proof (pair_column i c R16.De Hrow ltac:(done)) as Ede.
    pose proof (pair_column i c R16.Hl Hrow ltac:(done)) as Ehl. cbn [pair_high pair_low register_component component_index] in Ebc, Ede, Ehl.
    unfold REGISTER_B, REGISTER_C, REGISTER_D, REGISTER_E, REGISTER_H, REGISTER_L. rewrite Ebc, Ede, Ehl.
    destruct a; known_selectors; cbn [indirect_address]; ring. }
  pose proof (defined_length i (row_defined _ _ Hrow)) as Hlen. rewrite Ho in Hlen. cbn [operation_length] in Hlen.
  unfold row_post, execute_load. rewrite Ho, Hlen. do 4 eff_step. apply eff_transfer. rewrite Eaddr. intros v c' l Hl. eff_run.
  rewrite !app_nil_r. cbn [app]. intros Hr.
  destruct (transfer_shown c c1 c' 1 _ direction l Er Ea Hv) as [Hacc HA]; [destruct direction; eauto | done |].
  split; [| done]. intros k ? ? ? ? Hk.
  assert (Hr16 : register16 c' R16.Hl = register16 c R16.Hl) by (destruct direction; destruct Hl as [-> _]; cbn [register16]; by rewrite <- Er).
  pose proof (indirect_hl i c a direction Hrow Ho) as Hhl.
  destruct a, direction, k; try done; try (exact (HA eq_refl)); try (destruct Hhl as [Eh El]; [by (left + right) |];
    cbn [update_hl_after_indirect]; rewrite Hr16; first [exact Eh | exact El]).
Qed.
End rows.
