(* ===== verification/CpuFlow.v ===== *)
(** * Control flow and stack rows (crates/zksm83-jolt/src/cpu/{control,stack}.rs)

    The branch decision and the program counter of an instruction row, and the words it pushes and pops. *)
From Stdlib Require Import Ring.
From S2P Require Import Prelude IsaTypes Metadata Decode Alignment Flags Alu Commitment State Bus Execute Access Effects Field.
From S2P Require Import Columns CpuRow CpuFrame CpuArithmetic CpuControl Embed IsaTable CpuSound CpuBytes CpuMoves.

(** The branch that an operation takes. *)
Definition takes (o : Op.Operation) (c : CpuState) : bool :=
  match o with
  | Op.RelativeJump condition | Op.Jump condition | Op.Call condition | Op.Return condition => is_taken c condition
  | Op.JumpHl | Op.ReturnFromInterrupt | Op.Restart _ => true
  | _ => false
  end.
Definition conditional (o : Op.Operation) : bool :=
  match o with Op.RelativeJump _ | Op.Jump _ | Op.Call _ | Op.Return _ => true | _ => false end.
Definition unconditional (o : Op.Operation) : bool :=
  match o with Op.JumpHl | Op.ReturnFromInterrupt | Op.Restart _ => true | _ => false end.


Section rows.
Context {F : Type} `{FieldLaws F} {view : RowView F} `{Sha256}.
Local Open Scope field_scope.
Add Ring flow_ring : fl_ring.

Definition branch_shown (taken : bool) : Prop := value TRACE_BRANCH_TAKEN = of_Z (Z.b2z taken).

Lemma flow_constraints i c : instruction_row i c →
  satisfied Control.constrain_instruction_witness ∧ satisfied Control.constrain_branch_decision ∧ satisfied Control.constrain_program_counter.
Proof.
  intros Hrow. pose proof (holds_flow (instruction_components _ _ Hrow)) as Hf. unfold Control.constrain_instruction_flow in Hf.
  rewrite !satisfied_app in Hf. tauto.
Qed.

Lemma branch_row i c : instruction_row i c → branch_shown (takes (operation i) c).
Proof.
  intros Hrow. destruct (flow_constraints i c Hrow) as (_ & Hb & _). unfold Control.constrain_branch_decision in Hb.
  rewrite !satisfied_cons, (row_mode _ _ Hrow) in Hb. destruct Hb as (E1 & E2 & E3 & _).
  destruct (flag_columns i c Hrow) as (Fc & _ & _ & Fz). change FLAGS_ZERO_BIT with 7 in E1. change FLAGS_CARRY_BIT with 4 in E1.
  rewrite Fz, Fc in E1. unfold branch_shown.
  assert (Hk : (operation_selector 3 + operation_selector 20 + operation_selector 28 + operation_selector 34 = of_Z (Z.b2z (conditional (operation i)))) ∧
    (operation_selector 25 + operation_selector 26 + operation_selector 36 = of_Z (Z.b2z (unconditional (operation i))))).
  { rewrite !(operation_value i c) by done.
    destruct (operation i); try (match goal with |- context [Op.Cb ?cb _] => destruct cb end); split; known_selectors; ring. }
  destruct Hk as [Hcond Hfix]. rewrite Hcond in E1. rewrite Hfix in E2. rewrite Hcond, Hfix in E3.
  assert (Hexp : conditional (operation i) = true →
    argument_selector ISA_ARGUMENT_ZERO_BITS_START 3 0 +
    argument_selector ISA_ARGUMENT_ZERO_BITS_START 3 1 * (f1 - of_Z (Z.b2z (f_zero (flags c)))) +
    argument_selector ISA_ARGUMENT_ZERO_BITS_START 3 2 * of_Z (Z.b2z (f_zero (flags c))) +
    argument_selector ISA_ARGUMENT_ZERO_BITS_START 3 3 * (f1 - of_Z (Z.b2z (f_carry (flags c)))) +
    argument_selector ISA_ARGUMENT_ZERO_BITS_START 3 4 * of_Z (Z.b2z (f_carry (flags c))) = of_Z (Z.b2z (takes (operation i) c))).
  { intros Hc. rewrite !(argument_zero_value i c) by done.
    destruct (operation i); try discriminate Hc; (destruct condition as [[] |]; cbn [takes is_taken condition_holds]; known_selectors;
      destruct (f_zero (flags c)), (f_carry (flags c)); known_selectors; ring). }
  destruct (conditional (operation i)) eqn:Ec.
  - rewrite (Hexp eq_refl) in E1. cbn [Z.b2z] in E1. rewrite of_Z_1 in E1. apply ungate in E1; [| ring]. by apply fsub_zero in E1.
  - clear Hexp. destruct (unconditional (operation i)) eqn:Eu; cbn [Z.b2z] in *.
    + rewrite of_Z_1 in E2. apply ungate in E2; [| ring]. apply fsub_zero in E2. rewrite E2, <- of_Z_1. f_equal. by destruct (operation i).
    + rewrite !of_Z_0 in E3. apply ungate in E3; [| ring]. rewrite E3, <- of_Z_0. f_equal. by destruct (operation i).
Qed.

(** ** The program counter *)

Lemma pc_after i c : instruction_row i c → ∃ n, is_u16 n ∧ after STATE_PC = of_Z n.
Proof.
  intros Hrow. pose proof (holds_ranges (instruction_components _ _ Hrow)) as Hr. unfold constrain_cpu_ranges in Hr.
  rewrite !satisfied_app, !satisfied_each in Hr. destruct Hr as (_ & _ & _ & Ha & _ & _ & _ & _ & Hw & _).
  specialize (Hw (STATE_PC, TRACE_BEFORE_PC_BITS_START, TRACE_AFTER_PC_BITS_START) ltac:(apply list_elem_of_here)).
  cbv beta iota in Hw. rewrite !satisfied_cons in Hw. destruct Hw as (_ & Ea & _).
  destruct (column_bits _ _ 16 ltac:(done) ltac:(intros k Hk; by apply (bit_range_bits _ 16 Ha)) Ea) as (n & [Bn _] & En). by exists n.
Qed.

(** A row whose operation has no control selector keeps the sequential program counter. *)
Lemma sequential_row i c : instruction_row i c → conditional (operation i) = false → unconditional (operation i) = false →
  after STATE_PC = value TRACE_SEQUENTIAL_PC.
Proof.
  intros Hrow Hc Hu. destruct (flow_constraints i c Hrow) as (_ & _ & Hp). unfold Control.constrain_program_counter in Hp.
  rewrite (row_mode _ _ Hrow), satisfied_cons in Hp. destruct Hp as [E _].
  rewrite !(operation_value i c) in E by done. apply fsub_zero. rewrite <- E. clear E.
  destruct (operation i); try discriminate Hc; try discriminate Hu; try (match goal with |- context [Op.Cb ?cb _] => destruct cb end);
    known_selectors; ring.
Qed.

(** What the row shows of the flow: the branch and the program counter. *)
Definition flow_post (i : DecodedInstruction) (taken : bool) (c : CpuState) (l : list bus_access) : Prop :=
  reads_shown (byte_len i) l → branch_shown taken ∧ after STATE_PC = of_Z (pc c).

Lemma takes_same o c c1 : flags c1 = flags c → takes o c1 = takes o c.
Proof. intros E. destruct o; try done; destruct condition as [[] |]; cbn [takes is_taken condition_holds]; by rewrite ?E. Qed.

(** The selected target of a conditional operation. *)
Lemma branch_target (b : bool) t s x : x - of_Z (Z.b2z b) * t - (f1 - of_Z (Z.b2z b)) * s = f0 → x = if b then t else s.
Proof.
  intros E. apply fsub_zero. rewrite <- E. destruct b; cbn [Z.b2z]; rewrite ?of_Z_1, ?of_Z_0; ring.
Qed.

Lemma control_flag_columns i c : instruction_row i c → ∃ underflow overflow : bool,
  value TRACE_CONTROL_UNDERFLOW = of_Z (Z.b2z underflow) ∧ value TRACE_CONTROL_OVERFLOW = of_Z (Z.b2z overflow).
Proof.
  intros Hrow. destruct (flow_constraints i c Hrow) as (Hw & _ & _). unfold Control.constrain_instruction_witness in Hw.
  rewrite !satisfied_app, !satisfied_map in Hw. destruct Hw as (_ & _ & Hb & _).
  destruct (boolean_bit _ (Hb TRACE_CONTROL_UNDERFLOW ltac:(do 2 apply list_elem_of_further; apply list_elem_of_here))) as [u Eu].
  destruct (boolean_bit _ (Hb TRACE_CONTROL_OVERFLOW ltac:(do 3 apply list_elem_of_further; apply list_elem_of_here))) as [o Eo].
  by exists u, o.
Qed.

Lemma relative_row i c c1 d condition : fetched_row i c c1 d → operation i = Op.RelativeJump condition →
  eff (execute_jump (operation i) d) c1 (λ taken c' l, flow_post i taken c' l).
Proof.
  intros Hf Ho. pose proof Hf as [Hrow _ Ef _ [Bp Ep] Hfirst _]. pose proof (branch_row i c Hrow) as Hb.
  destruct (flow_constraints i c Hrow) as (_ & _ & Hp). unfold Control.constrain_program_counter in Hp. rewrite (row_mode _ _ Hrow), !satisfied_cons in Hp.
  destruct Hp as (_ & Euo & _ & _ & E & _). rewrite (operation_on i c 3) in E by (done || by rewrite Ho).
  destruct (control_flag_columns i c Hrow) as (u & o & Eu & Eo). rewrite Eu, Eo in Euo. rewrite Eu, Eo, Hb, Ep in E.
  apply ungate in E; [| ring]. apply branch_target in E. rewrite <- (takes_same (operation i) c c1 Ef) in *.
  unfold flow_post, execute_jump. rewrite Ho in *. cbn [takes] in *. do 2 eff_step. destruct (is_taken c1 condition) eqn:Et.
  - do 2 eff_step. apply eff_byte. intros e Hd. destruct (Hfirst e Hd) as (Be & _ & Ei & Hi). eff_run. intros _. split; [done |].
    destruct (pc_after i c Hrow) as (n & Bn & En). rewrite En, Ei, (top_bit _ e Hi) in E. rewrite En. f_equal.
    apply (signed_sum _ e _ u o); [done | done | done | |].
    + pose proof (b2z_range u). pose proof (b2z_range o). to_integers Euo. apply of_Z_zero in Euo; [done | nia].
    + pose proof (b2z_range u). pose proof (b2z_range o). to_integers E. apply of_Z_inj in E; [lia | zlia].
  - eff_run. intros _. split; [done | exact E].
Qed.

(** The immediate word of a jump or a call. *)
Lemma immediate_word i c c1 d low high : fetched_row i c c1 d → first d = Some low → second d = Some high →
  value TRACE_IMMEDIATE_LOW + lit 256 * value TRACE_IMMEDIATE_HIGH = of_Z (be16 high low).
Proof.
  intros [_ _ _ _ _ Hfirst Hsecond] E1 E2. destruct (Hfirst _ E1) as (Bl & _ & -> & _). destruct (Hsecond _ E2) as (Bh & ->).
  rewrite be16_value, of_Z_u64 by done. rewrite <- of_Z_mul, <- of_Z_add. f_equal. lia.
Qed.
Lemma jump_target i c c1 d condition : fetched_row i c c1 d → operation i = Op.Jump condition ∨ operation i = Op.Call condition →
  after STATE_PC = if is_taken c1 condition then value TRACE_IMMEDIATE_LOW + lit 256 * value TRACE_IMMEDIATE_HIGH else of_Z (pc c1).
Proof.
  intros [Hrow _ Ef _ [Bp Ep] _ _] Ho.
  destruct (flow_constraints i c Hrow) as (_ & _ & Hp). unfold Control.constrain_program_counter in Hp. rewrite (row_mode _ _ Hrow), !satisfied_cons in Hp.
  destruct Hp as (_ & _ & _ & _ & _ & E & _). rewrite (branch_row i c Hrow), Ep, <- (takes_same _ c c1 Ef) in E.
  assert (Hg : operation_selector 28 + operation_selector 34 = f1).
  { rewrite !(operation_value i c) by done. destruct Ho as [-> | ->]; known_selectors; ring. }
  rewrite Hg in E. apply ungate in E; [| ring]. apply branch_target in E. rewrite E. by destruct Ho as [-> | ->].
Qed.
Lemma taken_shown i c c1 d : fetched_row i c c1 d → branch_shown (takes (operation i) c1).
Proof. intros [Hrow _ Ef _ _ _ _]. rewrite (takes_same _ c c1 Ef). by apply branch_row. Qed.

Lemma jump_row i c c1 d condition : fetched_row i c c1 d → operation i = Op.Jump condition →
  eff (execute_jump (operation i) d) c1 (λ taken c' l, flow_post i taken c' l).
Proof.
  intros Hf Ho. pose proof (taken_shown i c c1 d Hf) as Hb. pose proof (jump_target i c c1 d condition Hf (or_introl Ho)) as E.
  unfold flow_post, execute_jump. rewrite Ho in *. cbn [takes] in Hb. do 2 eff_step. destruct (is_taken c1 condition).
  - do 2 eff_step. apply eff_word. intros low high E1 E2. eff_run. intros _. split; [done |]. rewrite E. by apply (immediate_word i c c1 d).
  - eff_run. intros _. by split.
Qed.
Lemma jump_hl_row i c c1 d : fetched_row i c c1 d → operation i = Op.JumpHl →
  eff (execute_jump (operation i) d) c1 (λ taken c' l, flow_post i taken c' l).
Proof.
  intros Hf Ho. pose proof (taken_shown i c c1 d Hf) as Hb. destruct Hf as [Hrow Er _ _ _ _ _].
  destruct (flow_constraints i c Hrow) as (_ & _ & Hp). unfold Control.constrain_program_counter in Hp. rewrite (row_mode _ _ Hrow), !satisfied_cons in Hp.
  destruct Hp as (_ & _ & _ & _ & _ & _ & E & _). rewrite (operation_on i c 26), (hl_column i c Hrow) in E by (done || by rewrite Ho).
  apply ungate in E; [| ring]. apply fsub_zero in E. unfold flow_post, execute_jump. rewrite Ho in *. eff_run. intros _. split; [done |].
  rewrite E. unfold register16, set_pc. cbn [pc]. by rewrite Er.
Qed.

(** ** Words on the stack *)

(** Only one mode selector of a row is set. *)
Lemma bits_total {A} (f : A → F) l : (∀ y, y ∈ l → ∃ b : bool, f y = of_Z (Z.b2z b)) → ∀ a,
  ∃ n, foldl fadd a (map f l) = a + of_Z n ∧ 0 <= n <= Z.of_nat (length l) ∧ (n = 0 → ∀ y, y ∈ l → f y = f0).
Proof.
  induction l as [| x l IH]; intros Hl a; cbn [map foldl length].
  - exists 0. split; [rewrite of_Z_0; ring |]. split; [lia |]. intros _ y Hy. by apply elem_of_nil in Hy.
  - destruct (Hl x ltac:(apply list_elem_of_here)) as [b Eb]. pose proof (b2z_range b) as Bb.
    destruct (IH (λ y Hy, Hl y (list_elem_of_further _ _ _ Hy)) (a + f x)) as (n & E & Bn & Hz).
    exists (Z.b2z b + n)%Z. split; [rewrite E, Eb, of_Z_add; ring |]. split; [lia |].
    intros En y [-> | Hy]%elem_of_cons; [| apply Hz; [lia | done]]. rewrite Eb. assert (E0 : Z.b2z b = 0) by lia. by rewrite E0, of_Z_0.
Qed.
Lemma other_mode i c m : instruction_row i c → 0 <= m < TRACE_MODE_COUNT → m ≠ INSTRUCTION_MODE → mode m = f0.
Proof.
  intros Hrow Hm Hne. pose proof (holds_selectors (instruction_components _ _ Hrow)) as Hs. unfold constrain_selectors in Hs.
  rewrite !satisfied_app, !satisfied_map, !satisfied_cons in Hs. destruct Hs as (_ & Hb & (E & _) & _).
  assert (Hbit : ∀ y, y ∈ range TRACE_MODE_COUNT → ∃ b : bool, mode y = of_Z (Z.b2z b)) by (intros y Hy; by apply boolean_bit, Hb).
  assert (Hr : range TRACE_MODE_COUNT = seqZ 0 INSTRUCTION_MODE ++ INSTRUCTION_MODE :: seqZ (INSTRUCTION_MODE + 1) (TRACE_MODE_COUNT - 1 - INSTRUCTION_MODE)) by done.
  pose proof (elem_of_range _ _ Hm) as Hin. rewrite Hr in *. unfold sum in E. rewrite map_app, foldl_app in E. cbn [map foldl] in E.
  destruct (bits_total mode (seqZ 0 INSTRUCTION_MODE) (λ y Hy, Hbit y (proj2 (elem_of_app _ _ _) (or_introl Hy))) f0) as (n1 & E1 & B1 & Z1).
  destruct (bits_total mode (seqZ (INSTRUCTION_MODE + 1) (TRACE_MODE_COUNT - 1 - INSTRUCTION_MODE))
    (λ y Hy, Hbit y (proj2 (elem_of_app _ _ _) (or_intror (list_elem_of_further _ _ _ Hy)))) (f0 + of_Z n1 + f1)) as (n2 & E2 & B2 & Z2).
  rewrite E1, (row_mode _ _ Hrow), E2 in E.
  assert (En : (n1 + n2 = 0)%Z).
  { apply of_Z_zero; [rewrite !length_seqZ in *; unfold TRACE_MODE_COUNT, INSTRUCTION_MODE, Mode.COUNT in *; cbn in *; lia |].
    rewrite of_Z_add, <- E. ring. }
  apply elem_of_app in Hin as [Hin | Hin]; [apply Z1; [lia | done] |]. apply elem_of_cons in Hin as [-> | Hin]; [done | apply Z2; [lia | done]].
Qed.

Lemma stack_constraints i c : instruction_row i c →
  satisfied (Stack.constrain_pushes f1) ∧ satisfied (Stack.constrain_pops f1) ∧ satisfied (Stack.constrain_stack_witness_scope f1) ∧
  ∃ wrap first_wrap : bool, value TRACE_STACK_WRAP = of_Z (Z.b2z wrap) ∧ value TRACE_STACK_FIRST_WRAP = of_Z (Z.b2z first_wrap) ∧
  ∃ nibble, has_bits TRACE_POP_FLAGS_LOW_NIBBLE_BITS_START 4 nibble ∧ value TRACE_POP_FLAGS_LOW_NIBBLE = of_Z nibble.
Proof.
  intros Hrow. pose proof (holds_stack (instruction_components _ _ Hrow)) as Hs. unfold Stack.constrain_stack_operations in Hs.
  rewrite (row_mode _ _ Hrow), !satisfied_app, !satisfied_cons in Hs. destruct Hs as ((Hw & Hfw & _) & Hn & (En & _) & Hpush & Hpop & Hscope).
  apply boolean_bit in Hw as [wrap Ew], Hfw as [first_wrap Efw]. split; [done |]. split; [done |]. split; [done |].
  exists wrap, first_wrap. split; [done |]. split; [done |].
  apply (column_bits _ _ 4); [done | | done]. intros k Hk. rewrite satisfied_map in Hn. by apply Hn, elem_of_range.
Qed.

(** The equations of a push at a slot and of a pop, and what they say. *)
Definition push_equations (slot : Z) (word : F) : Prop :=
  after STATE_SP - before STATE_SP + lit 2 - lit 65536 * value TRACE_STACK_WRAP = f0 ∧
  bus_field slot BUS_ADDRESS_OFFSET - (before STATE_SP - f1 + lit 65536 * value TRACE_STACK_FIRST_WRAP) = f0 ∧
  bus_field (slot + 1)%Z BUS_ADDRESS_OFFSET - (before STATE_SP - lit 2 + lit 65536 * value TRACE_STACK_WRAP) = f0 ∧
  bus_field (slot + 1)%Z BUS_VALUE_OFFSET + lit 256 * bus_field slot BUS_VALUE_OFFSET - word = f0.

Lemma push_shown i c slot w : instruction_row i c → 0 <= slot < TRACE_BUS_SLOTS - 1 → is_u16 w → push_equations slot (of_Z w) →
  after STATE_SP = of_Z (w16 (w16 (sp c - 1) - 1)) ∧
  accesses_shown slot [(Shape.DataWrite, w16 (sp c - 1), hi8 w); (Shape.DataWrite, w16 (w16 (sp c - 1) - 1), lo8 w)].
Proof.
  intros Hrow Hs Bw (E1 & E2 & E3 & E4). destruct (stack_constraints i c Hrow) as (_ & _ & _ & wrap & first_wrap & Ew & Ef & _).
  destruct (sp_columns i c Hrow) as [[[Bsp _] Esp] (sp' & [Bsp' _] & Esp')].
  destruct (bus_columns i c slot Hrow ltac:(lia)) as (a1 & v1 & Ba1 & Bv1 & Ea1 & Ev1).
  destruct (bus_columns i c (slot + 1) Hrow ltac:(lia)) as (a2 & v2 & Ba2 & Bv2 & Ea2 & Ev2).
  rewrite Esp, Esp', Ew in E1. rewrite Esp, Ea1, Ef in E2. rewrite Esp, Ea2, Ew in E3. rewrite Ev1, Ev2 in E4.
  pose proof (b2z_range wrap). pose proof (b2z_range first_wrap).
  to_integers E1. to_integers E2. to_integers E3. to_integers E4.
  apply of_Z_zero in E1; [| lia]. apply of_Z_zero in E2; [| lia]. apply of_Z_zero in E3; [| lia]. apply of_Z_zero in E4; [| lia].
  assert (Hw1 : a1 = w16 (sp c - 1)) by (apply (word_step false _ _ first_wrap Bsp Ba1); lia).
  assert (Hw2 : sp' = w16 (w16 (sp c - 1) - 1)) by (unfold w16; destruct wrap; cbn [Z.b2z] in *; zlia).
  assert (Hw3 : a2 = w16 (w16 (sp c - 1) - 1)) by lia. destruct (word_bytes v1 v2 w Bv1 Bv2 ltac:(lia)) as [<- <-].
  rewrite <- Hw2, <- Hw1, Esp'. split; [done |]. apply accesses_shown_cons; [done | done |].
  apply accesses_shown_cons; [by rewrite Ea2, Hw3, Hw2 | done | apply accesses_shown_nil].
Qed.

Lemma pushed i c : instruction_row i c →
  match operation i with
  | Op.Push _ => push_equations 1 Stack.selected_stack_word
  | Op.Restart _ => push_equations 1 (value TRACE_SEQUENTIAL_PC)
  | Op.Call _ => if takes (operation i) c then push_equations 3 (value TRACE_SEQUENTIAL_PC) else after STATE_SP = before STATE_SP
  | _ => True
  end.
Proof.
  intros Hrow. destruct (stack_constraints i c Hrow) as (Hp & _ & Hs & _). unfold Stack.constrain_pushes in Hp. unfold Stack.constrain_stack_witness_scope in Hs.
  rewrite !satisfied_cons in Hp. rewrite !satisfied_cons in Hs. destruct Hp as (E1 & E2 & E3 & E4 & _), Hs as (S1 & _ & _ & _).
  pose proof (branch_row i c Hrow) as Hb. unfold branch_shown in Hb. rewrite Hb in *. clear Hb.
  assert (H34 := operation_value i c 34 Hrow ltac:(done)). assert (H35 := operation_value i c 35 Hrow ltac:(done)).
  assert (H36 := operation_value i c 36 Hrow ltac:(done)). rewrite H34, H35, H36 in E1. rewrite H34, H35, H36 in E2. rewrite H34, H35, H36 in E3.
  rewrite H34, H35, H36 in E4. rewrite H34, H35, H36, !(operation_value i c) in S1 by done. clear H34 H35 H36.
  destruct (operation i) eqn:Ho; try exact I.
  - destruct (takes (Op.Call condition) c); revert E1 E2 E3 E4 S1; known_selectors; intros E1 E2 E3 E4 S1.
    + unfold push_equations. change (3 + 1)%Z with 4%Z; change (1 + 1)%Z with 2%Z. split_and!; [rewrite <- E1 | rewrite <- E2 | rewrite <- E3 | rewrite <- E4]; ring.
    + rewrite (other_mode i c INTERRUPT_MODE Hrow ltac:(done) ltac:(done)) in S1. apply ungate in S1; [| ring]. rewrite S1 in E1. apply fsub_zero. rewrite <- E1. ring.
  - revert E1 E2 E3 E4; known_selectors; intros E1 E2 E3 E4.
    unfold push_equations. change (3 + 1)%Z with 4%Z; change (1 + 1)%Z with 2%Z. split_and!; [rewrite <- E1 | rewrite <- E2 | rewrite <- E3 | rewrite <- E4]; ring.
  - revert E1 E2 E3 E4; known_selectors; intros E1 E2 E3 E4.
    unfold push_equations. change (3 + 1)%Z with 4%Z; change (1 + 1)%Z with 2%Z. split_and!; [rewrite <- E1 | rewrite <- E2 | rewrite <- E3 | rewrite <- E4]; ring.
Qed.

Definition stack_slot (w sp : Z) : list bus_access :=
  [(Shape.DataWrite, w16 (sp - 1), hi8 w); (Shape.DataWrite, w16 (w16 (sp - 1) - 1), lo8 w)].
Lemma eff_push_word w c (Q : () → CpuState → list bus_access → Prop) :
  Q () (set_sp (w16 (w16 (sp c - 1) - 1)) c) (stack_slot w (sp c)) → eff (push_word w) c Q.
Proof. intros HQ. unfold push_word. eff_run. exact HQ. Qed.

Lemma stack_word i c r : instruction_row i c → operation i = Op.Push r → Stack.selected_stack_word = of_Z (stack_register c r) ∧ is_u16 (stack_register c r).
Proof.
  intros Hrow Ho. pose proof (argument_zero_known i c _ Hrow ltac:(by rewrite Ho)) as Harg. cbn [stack_register_code] in Harg.
  assert (Haf : before REGISTER_A * lit 256 + before STATE_FLAGS = of_Z (stack_register c SR.Af) ∧ is_u16 (stack_register c SR.Af)).
  { destruct (accumulator_columns i c Hrow) as [-> _]. destruct (before_byte i c 7 Hrow ltac:(done)) as (_ & Ef & Bf).
    change (before STATE_FLAGS) with (before 7). rewrite Ef. change (cpu_scalar c 7) with (flags_byte (flags c)) in *.
    destruct (row_cpu _ _ Hrow) as [[] _ _ _ _]. cbn [stack_register]. rewrite be16_value by done.
    split; [by rewrite of_Z_u64, <- of_Z_mul, <- of_Z_add by done | lia]. }
  unfold Stack.selected_stack_word. cbn [foldl word_register_routes app]. rewrite !Harg by done.
  pose proof (pair_column i c R16.Bc Hrow ltac:(done)) as Ebc. pose proof (pair_column i c R16.De Hrow ltac:(done)) as Ede.
  pose proof (pair_column i c R16.Hl Hrow ltac:(done)) as Ehl. cbn [pair_high pair_low register_component component_index] in Ebc, Ede, Ehl.
  unfold REGISTER_B, REGISTER_C, REGISTER_D, REGISTER_E, REGISTER_H, REGISTER_L. rewrite Ebc, Ede, Ehl, (proj1 Haf).
  split; [destruct r; known_selectors; cbn [stack_register]; ring |]. destruct r; [apply (register16_range i c _ Hrow).. | apply Haf].
Qed.

Lemma push_row i c c1 d r : fetched_row i c c1 d → operation i = Op.Push r → eff (execute_stack (operation i)) c1 (λ _ c' l, row_post i c' l).
Proof.
  intros Hf Ho. pose proof Hf as [Hrow Er Ef Esp _ _ _]. pose proof (pushed i c Hrow) as Hp. rewrite Ho in Hp.
  destruct (stack_word i c r Hrow Ho) as [Ew Bw]. rewrite Ew in Hp. destruct (push_shown i c 1 _ Hrow ltac:(done) Bw Hp) as [Es Ha].
  assert (Esr : stack_register c1 r = stack_register c r) by (destruct r; cbn [stack_register register16]; by rewrite Er, ?Ef).
  pose proof (defined_length i (row_defined _ _ Hrow)) as Hlen. rewrite Ho in Hlen. cbn [operation_length] in Hlen.
  unfold row_post, execute_stack. rewrite Ho, Hlen. do 3 eff_step. apply eff_push_word. eff_run. rewrite Esr, Esp. intros _. split; [| intros _; exact Ha].
  written_cases Hk; try (destruct r; discriminate Hk). exact Es.
Qed.

Lemma restart_target i c : instruction_row i c → ∀ vector, operation i = Op.Restart vector → after STATE_PC = of_Z vector.
Proof.
  intros Hrow vector Ho. destruct (flow_constraints i c Hrow) as (_ & _ & Hp). unfold Control.constrain_program_counter in Hp.
  rewrite (row_mode _ _ Hrow), !satisfied_cons in Hp. destruct Hp as (_ & _ & _ & _ & _ & _ & _ & _ & _ & E & _).
  rewrite (operation_on i c 36) in E by (done || by rewrite Ho). apply ungate in E; [| ring]. apply fsub_zero in E. rewrite E.
  pose proof (defined_forall (λ i, match operation i with Op.Restart vector =>
    (8 * Z.shiftr vector 3 =? vector) && (0 <=? vector) && (vector <? 64) | _ => true end) ltac:(by vm_compute) i (row_defined _ _ Hrow)) as Hv.
  cbv beta in Hv. rewrite Ho, !andb_true_iff, Z.eqb_eq in Hv. destruct Hv as [[Hv _] _].
  rewrite (packed_bits_value _ 3 (argument_zero (descriptor (operation i)))).
  - rewrite Ho. cbn [descriptor argument_zero]. rewrite of_Z_u64, <- of_Z_mul by done. by rewrite Hv.
  - apply (isa_has_bits i c); [done | done | done | done |]. apply (defined_tells i (row_defined _ _ Hrow)).
Qed.
Lemma restart_row i c c1 d vector : fetched_row i c c1 d → operation i = Op.Restart vector →
  eff (execute_call_return (operation i) d) c1 (λ taken c' l, flow_post i taken c' l ∧ row_post i c' l).
Proof.
  intros Hf Ho. pose proof Hf as [Hrow Er Ef Esp [Bp Ep] _ _]. pose proof (pushed i c Hrow) as Hp. rewrite Ho, Ep in Hp.
  destruct (push_shown i c 1 _ Hrow ltac:(done) Bp Hp) as [Es Ha]. pose proof (taken_shown i c c1 d Hf) as Hb.
  pose proof (defined_length i (row_defined _ _ Hrow)) as Hlen. rewrite Ho in Hlen, Hb. cbn [operation_length takes] in Hlen, Hb.
  unfold flow_post, row_post, execute_call_return. rewrite Ho, Hlen. do 3 eff_step. apply eff_push_word. eff_run. rewrite Esp.
  split; intros _; [split; [done |]; by apply (restart_target i c) |]. split; [| intros _; exact Ha].
  written_cases Hk; try discriminate Hk. exact Es.
Qed.

Lemma call_row i c c1 d condition : fetched_row i c c1 d → operation i = Op.Call condition →
  eff (execute_call_return (operation i) d) c1 (λ taken c' l, flow_post i taken c' l ∧ row_post i c' l).
Proof.
  intros Hf Ho. pose proof Hf as [Hrow Er Ef Esp [Bp Ep] _ _]. pose proof (pushed i c Hrow) as Hp. rewrite <- (takes_same _ c c1 Ef), Ho, Ep in Hp.
  pose proof (taken_shown i c c1 d Hf) as Hb. pose proof (jump_target i c c1 d condition Hf (or_intror Ho)) as Et.
  pose proof (defined_length i (row_defined _ _ Hrow)) as Hlen. rewrite Ho in Hlen, Hb. cbn [operation_length takes] in Hlen, Hb, Hp.
  unfold flow_post, row_post, execute_call_return. rewrite Ho, Hlen. do 2 eff_step. destruct (is_taken c1 condition).
  - destruct (push_shown i c 3 _ Hrow ltac:(done) Bp Hp) as [Es Ha]. do 2 eff_step. apply eff_push_word. eff_step. apply eff_word. intros low high E1 E2.
    eff_run. rewrite Esp. split; intros _; [split; [done |]; rewrite Et; by apply (immediate_word i c c1 d) |]. split; [| intros _; exact Ha].
    written_cases Hk; try (destruct condition as [[] |]; discriminate Hk). exact Es.
  - eff_run. split; intros _; [by split |]. split; [| intros _; apply accesses_shown_nil].
    written_cases Hk; try (destruct condition as [[] |]; discriminate Hk). change (after STATE_SP = of_Z (sp c1)). rewrite Hp, Esp. by destruct (sp_columns i c Hrow) as [[_ ?] _].
Qed.

(** ** Words from the stack *)

Definition pop_equations : Prop :=
  after STATE_SP - before STATE_SP - lit 2 + lit 65536 * value TRACE_STACK_WRAP = f0 ∧
  bus_field 1 BUS_ADDRESS_OFFSET - before STATE_SP = f0 ∧
  bus_field 2 BUS_ADDRESS_OFFSET - (before STATE_SP + f1 - lit 65536 * value TRACE_STACK_FIRST_WRAP) = f0.
Definition popped_slot (low high sp : Z) : list bus_access :=
  [(Shape.DataRead, sp, low); (Shape.DataRead, w16 (sp + 1), high)].
Lemma eff_pop_word c (Q : Z → CpuState → list bus_access → Prop) :
  (∀ low high, Q (be16 high low) (set_sp (w16 (w16 (sp c + 1) + 1)) c) (popped_slot low high (sp c))) → eff pop_word c Q.
Proof. intros HQ. unfold pop_word. eff_run. apply HQ. Qed.

Lemma pop_shown i c low high : instruction_row i c → pop_equations → reads_shown 1 (popped_slot low high (sp c)) →
  after STATE_SP = of_Z (w16 (w16 (sp c + 1) + 1)) ∧ accesses_shown 1 (popped_slot low high (sp c)) ∧
  (is_u8 low ∧ bus_field 1 BUS_VALUE_OFFSET = of_Z low) ∧ (is_u8 high ∧ bus_field 2 BUS_VALUE_OFFSET = of_Z high).
Proof.
  intros Hrow (E1 & E2 & E3) Hr. destruct (stack_constraints i c Hrow) as (_ & _ & _ & wrap & first_wrap & Ew & Ef & _).
  destruct (sp_columns i c Hrow) as [[[Bsp _] Esp] (sp' & [Bsp' _] & Esp')].
  destruct (bus_columns i c 2 Hrow ltac:(done)) as (a2 & _ & Ba2 & _ & Ea2 & _).
  rewrite Esp, Esp', Ew in E1. rewrite Esp in E2. rewrite Esp, Ea2, Ef in E3. pose proof (b2z_range wrap). pose proof (b2z_range first_wrap).
  apply fsub_zero in E2. to_integers E1. to_integers E3. apply of_Z_zero in E1; [| lia]. apply of_Z_zero in E3; [| lia].
  assert (Hw1 : a2 = w16 (sp c + 1)) by (apply (word_step true _ _ first_wrap Bsp Ba2); lia).
  assert (Hw2 : sp' = w16 (w16 (sp c + 1) + 1)) by (unfold w16; destruct wrap; cbn [Z.b2z] in *; zlia).
  destruct (Hr 0%nat _ eq_refl ltac:(done)) as [Bl El]. destruct (Hr 1%nat _ eq_refl ltac:(done)) as [Bh Eh].
  change (1 + Z.of_nat 0)%Z with 1%Z in El. change (1 + Z.of_nat 1)%Z with 2%Z in Eh. cbn [snd] in *.
  split; [by rewrite Esp', Hw2 |]. split; [| done]. apply accesses_shown_cons; [done | done |]. change (1 + 1)%Z with 2%Z.
  apply accesses_shown_cons; [by rewrite Ea2, Hw1 | done | apply accesses_shown_nil].
Qed.

Lemma popped i c : instruction_row i c →
  match operation i with
  | Op.Pop _ => pop_equations
  | Op.ReturnFromInterrupt => pop_equations ∧ after STATE_PC = bus_field 1 BUS_VALUE_OFFSET + lit 256 * bus_field 2 BUS_VALUE_OFFSET
  | Op.Return _ =>
      if takes (operation i) c
      then pop_equations ∧ after STATE_PC = bus_field 1 BUS_VALUE_OFFSET + lit 256 * bus_field 2 BUS_VALUE_OFFSET
      else after STATE_SP = before STATE_SP ∧ after STATE_PC = value TRACE_SEQUENTIAL_PC
  | _ => True
  end.
Proof.
  intros Hrow. destruct (stack_constraints i c Hrow) as (_ & Hp & Hs & _). unfold Stack.constrain_pops in Hp. unfold Stack.constrain_stack_witness_scope in Hs.
  rewrite !satisfied_app, !satisfied_cons in Hp. rewrite !satisfied_cons in Hs. destruct Hp as ((E1 & E2 & E3 & _) & _), Hs as (S1 & _ & _ & _).
  destruct (flow_constraints i c Hrow) as (_ & _ & Hc). unfold Control.constrain_program_counter in Hc.
  rewrite (row_mode _ _ Hrow), !satisfied_cons in Hc. destruct Hc as (_ & _ & _ & _ & _ & _ & _ & P1 & P2 & _).
  pose proof (branch_row i c Hrow) as Hb. unfold branch_shown in Hb. rewrite Hb in *. clear Hb.
  rewrite !(operation_value i c) in E1 by done. rewrite !(operation_value i c) in E2 by done. rewrite !(operation_value i c) in E3 by done.
  rewrite !(operation_value i c) in S1 by done. rewrite !(operation_value i c) in P1 by done. rewrite !(operation_value i c) in P2 by done.
  unfold pop_equations. destruct (operation i) eqn:Ho; try exact I.
  - destruct (takes (Op.Return condition) c); revert E1 E2 E3 S1 P1; known_selectors; intros E1 E2 E3 S1 P1.
    + split_and!; [rewrite <- E1 | rewrite <- E2 | rewrite <- E3 | apply fsub_zero; rewrite <- P1]; ring.
    + rewrite (other_mode i c INTERRUPT_MODE Hrow ltac:(done) ltac:(done)) in S1. apply ungate in S1; [| ring]. rewrite S1 in E1.
      split; apply fsub_zero; [rewrite <- E1 | rewrite <- P1]; ring.
  - revert E1 E2 E3; known_selectors; intros E1 E2 E3. split_and!; [rewrite <- E1 | rewrite <- E2 | rewrite <- E3]; ring.
  - revert E1 E2 E3 P2; known_selectors; intros E1 E2 E3 P2.
    split_and!; [rewrite <- E1 | rewrite <- E2 | rewrite <- E3 | apply fsub_zero; rewrite <- P2]; ring.
Qed.
Lemma popped_word low high : is_u8 low ∧ bus_field 1 BUS_VALUE_OFFSET = of_Z low → is_u8 high ∧ bus_field 2 BUS_VALUE_OFFSET = of_Z high →
  bus_field 1 BUS_VALUE_OFFSET + lit 256 * bus_field 2 BUS_VALUE_OFFSET = of_Z (be16 high low).
Proof.
  intros [Bl ->] [Bh ->]. rewrite be16_value, of_Z_u64 by done. rewrite <- of_Z_mul, <- of_Z_add. f_equal. lia.
Qed.

Lemma return_row i c c1 d condition : fetched_row i c c1 d → operation i = Op.Return condition →
  eff (execute_call_return (operation i) d) c1 (λ taken c' l, flow_post i taken c' l ∧ row_post i c' l).
Proof.
  intros Hf Ho. pose proof Hf as [Hrow Er Ef Esp [Bp Ep] _ _]. pose proof (popped i c Hrow) as Hp. rewrite <- (takes_same _ c c1 Ef), Ho, Ep in Hp.
  pose proof (taken_shown i c c1 d Hf) as Hb. pose proof (defined_length i (row_defined _ _ Hrow)) as Hlen.
  rewrite Ho in Hlen, Hb. cbn [operation_length takes] in Hlen, Hb, Hp.
  unfold flow_post, row_post, execute_call_return. rewrite Ho, Hlen. do 2 eff_step. destruct (is_taken c1 condition).
  - destruct Hp as [Hp Et]. do 2 eff_step. apply eff_pop_word. intros low high. eff_run. rewrite !app_nil_r, Esp. cbn [app].
    assert (Hs := pop_shown i c low high Hrow Hp). split; intros Hr; destruct (Hs Hr) as (Es & Ha & Vl & Vh).
    + split; [done |]. rewrite Et. by apply popped_word.
    + split; [| intros _; exact Ha]. written_cases Hk; try (destruct condition as [[] |]; discriminate Hk). exact Es.
  - destruct Hp as [Hp Et]. eff_run. split; intros _; [by split |]. split; [| intros _; apply accesses_shown_nil].
    written_cases Hk; try (destruct condition as [[] |]; discriminate Hk). change (after STATE_SP = of_Z (sp c1)).
    rewrite Hp, Esp. by destruct (sp_columns i c Hrow) as [[_ ?] _].
Qed.
Lemma reti_row i c c1 d : fetched_row i c c1 d → operation i = Op.ReturnFromInterrupt →
  eff (execute_call_return (operation i) d) c1 (λ taken c' l, flow_post i taken c' l ∧ row_post i c' l).
Proof.
  intros Hf Ho. pose proof Hf as [Hrow Er Ef Esp _ _ _]. pose proof (popped i c Hrow) as Hp. rewrite Ho in Hp. destruct Hp as [Hp Et].
  pose proof (taken_shown i c c1 d Hf) as Hb. pose proof (defined_length i (row_defined _ _ Hrow)) as Hlen.
  rewrite Ho in Hlen, Hb. cbn [operation_length takes] in Hlen, Hb.
  unfold flow_post, row_post, execute_call_return. rewrite Ho, Hlen. do 3 eff_step. apply eff_pop_word. intros low high. eff_run. rewrite !app_nil_r, Esp. cbn [app].
  assert (Hs := pop_shown i c low high Hrow Hp). split; intros Hr; destruct (Hs Hr) as (Es & Ha & Vl & Vh).
  - split; [done |]. rewrite Et. by apply popped_word.
  - split; [| intros _; exact Ha]. written_cases Hk; try discriminate Hk. exact Es.
Qed.

(** The low nibble of the flags is zero. *)
Lemma flags_after i c : instruction_row i c → ∃ f, is_u8 f ∧ after STATE_FLAGS = of_Z f ∧ f mod 16 = 0.
Proof.
  intros Hrow. destruct (after_byte i c 7 Hrow ltac:(done)) as (f & Hf & Ef). exists f. split; [apply Hf |]. split; [done |].
  pose proof (holds_ranges (instruction_components _ _ Hrow)) as Hr. unfold constrain_cpu_ranges in Hr.
  rewrite !satisfied_app in Hr. destruct Hr as (_ & _ & _ & _ & _ & _ & _ & Hn & _). rewrite satisfied_each in Hn.
  assert (Hlow : packed_bits (TRACE_AFTER_CPU_BYTE_BITS_START + 7 * 8)%Z 4 = f0).
  { assert (Hz : ∀ k, k ∈ range 4 → value (TRACE_AFTER_CPU_BYTE_BITS_START + 7 * 8 + k)%Z = f0).
    { intros k Hk. specialize (Hn k Hk). cbv beta in Hn. rewrite !satisfied_cons in Hn. by destruct Hn as (_ & E & _). }
    unfold packed_bits. change (range 4) with [0; 1; 2; 3] at 1. cbn [foldl fst]. rewrite !Hz by (by apply elem_of_range). ring. }
  rewrite (low_nibble _ f Hf) in Hlow. apply of_Z_zero in Hlow; [done | zlia].
Qed.
Lemma land_240 x : is_u8 x → Z.land x 0xf0 = (x - x mod 16)%Z.
Proof.
  intros Hx. pose proof (forallb_bytes (λ x, Z.land x 0xf0 =? x - x mod 16) ltac:(by vm_compute) x Hx) as E. by apply Z.eqb_eq.
Qed.

(** The bytes of a popped word in its registers. *)
Lemma pop_registers i c r low high : instruction_row i c → operation i = Op.Pop r →
  is_u8 low ∧ bus_field 1 BUS_VALUE_OFFSET = of_Z low → is_u8 high ∧ bus_field 2 BUS_VALUE_OFFSET = of_Z high →
  match r with
  | SR.Bc => after REGISTER_B = of_Z high ∧ after REGISTER_C = of_Z low
  | SR.De => after REGISTER_D = of_Z high ∧ after REGISTER_E = of_Z low
  | SR.Hl => after REGISTER_H = of_Z high ∧ after REGISTER_L = of_Z low
  | SR.Af => after REGISTER_A = of_Z high ∧ after STATE_FLAGS = of_Z (Z.land low 0xf0)
  end.
Proof.
  intros Hrow Ho [Bl El] [Bh Eh]. destruct (stack_constraints i c Hrow) as (_ & Hp & _ & _ & _ & _ & _ & nibble & [Bn _] & En). unfold Stack.constrain_pops in Hp.
  rewrite !satisfied_app, satisfied_each, !satisfied_cons in Hp. destruct Hp as (_ & Hr & (A1 & A2 & _)).
  pose proof (argument_zero_known i c _ Hrow ltac:(by rewrite Ho)) as Harg. cbn [stack_register_code] in Harg.
  pose proof (operation_on i c 24 Hrow ltac:(by rewrite Ho) ltac:(done)) as Hop.
  assert (Hpair : ∀ high_state low_state, (stack_register_code r, high_state, low_state) ∈ word_register_routes →
    0 <= stack_register_code r < 8 → after high_state = of_Z high ∧ after low_state = of_Z low).
  { intros high_state low_state Hin Hc. specialize (Hr _ Hin). cbv beta iota zeta in Hr. rewrite !satisfied_cons, Hop, Harg, El, Eh in Hr by done.
    destruct Hr as (E1 & E2 & _). cbn [argument_zero descriptor] in E1, E2. rewrite Z.eqb_refl in E1. rewrite Z.eqb_refl in E2. cbn [Z.b2z] in E1, E2.
    rewrite of_Z_1 in E1. rewrite of_Z_1 in E2. apply ungate in E1, E2; [| ring..]. by apply fsub_zero in E1, E2. }
  destruct r; try (apply Hpair; [unfold word_register_routes; cbn [stack_register_code]; repeat first [apply list_elem_of_here | apply list_elem_of_further] | done]).
  rewrite Hop, Harg, Eh in A1 by done. rewrite Hop, Harg, El, En in A2 by done. change (of_Z (Z.b2z (_ =? 3))) with (of_Z 1 : F) in A1.
  change (of_Z (Z.b2z (_ =? 3))) with (of_Z 1 : F) in A2. rewrite of_Z_1 in A1. rewrite of_Z_1 in A2. apply ungate in A1, A2; [| ring..].
  apply fsub_zero in A1. split; [done |]. destruct (flags_after i c Hrow) as (f & Bf & Ef & Hlow). rewrite Ef in *.
  to_integers A2. apply of_Z_zero in A2; [| lia]. f_equal. rewrite land_240 by done. zlia.
Qed.
Lemma pop_row i c c1 d r : fetched_row i c c1 d → operation i = Op.Pop r → eff (execute_stack (operation i)) c1 (λ _ c' l, row_post i c' l).
Proof.
  intros Hf Ho. pose proof Hf as [Hrow Er Ef Esp _ _ _]. pose proof (popped i c Hrow) as Hp. rewrite Ho in Hp.
  pose proof (defined_length i (row_defined _ _ Hrow)) as Hlen. rewrite Ho in Hlen. cbn [operation_length] in Hlen.
  unfold row_post, execute_stack. rewrite Ho, Hlen. do 2 eff_step. apply eff_pop_word. intros low high.
  assert (Hs := pop_shown i c low high Hrow Hp). assert (Hr := pop_registers i c r low high Hrow Ho).
  destruct r; cbn [set_stack_register]; eff_run; cbn [app] in *; rewrite ?app_nil_r, Esp; intros Hreads; destruct (Hs Hreads) as (Es & Ha & Vl & Vh);
    destruct (Hr Vl Vh) as [R1 R2]; (split; [| intros _; exact Ha]); destruct Vl as [Bl _], Vh as [Bh _].
  4: { match goal with E : map_err _ _ = Ok ?g |- _ => assert (Eg : flags_byte g = Z.land low 0xf0);
         [revert E; unfold flags_from_byte, from_byte; rewrite lo8_be16 by done; destruct (negb _); [done |]; by intros [= <-] |] end.
    written_cases Hk; try discriminate Hk;
      [change (after REGISTER_A = of_Z (hi8 (be16 high low))); by rewrite hi8_be16 | match type of Eg with flags_byte ?g = _ => change (after STATE_FLAGS = of_Z (flags_byte g)) end; by rewrite Eg | exact Es]. }
  all: written_cases Hk; try discriminate Hk; cbn [component_value set_register16 registers reg_b reg_c reg_d reg_e reg_h reg_l];
    rewrite ?hi8_be16, ?lo8_be16 by done; first [exact R1 | exact R2 | exact Es].
Qed.
End rows.
