(* ===== verification/CpuSteps.v ===== *)
(** * An instruction row against the step relation (crates/zksm83-jolt/src/cpu.rs, crates/zksm83-core/src/transition.rs)

    A row of an executed instruction whose bus slots show the bytes that the machine read holds, after it,
    the CPU that [Transition.apply] leaves. *)
From Stdlib Require Import Ring.
From S2P Require Import Prelude IsaTypes Metadata Decode Alignment Flags Alu Commitment State Bus Execute Transition Access.
From S2P Require Import StepLogic StepTrace Step Effects Runs Conform Field.
From S2P Require Import Columns CpuRow CpuFrame CpuArithmetic CpuControl Embed IsaTable CpuSound CpuBytes CpuBits CpuMoves CpuFlow.

(** The counts and cycles of the table. *)
Lemma all_rows_count : forallb (λ i, let os := row_outputs (from_decoded i) in
    (output os ISA_OPCODE_FETCHES =? opcode_fetches (bus i)) && (output os ISA_IMMEDIATE_READS =? immediate_reads (bus i)) &&
    (output os ISA_BASE_M_CYCLES =? base_m_cycles (timing i)) &&
    (output os ISA_TAKEN_M_CYCLES =? default 0 (taken_m_cycles (timing i))) &&
    (output os ISA_TAKEN_TIMING =? Z.b2z (negb (default 0 (taken_m_cycles (timing i)) =? 0))) &&
    match taken_m_cycles (timing i) with Some n => (0 <? n) && (n <? 256) | None => true end &&
    (0 <? base_m_cycles (timing i)) && (base_m_cycles (timing i) <? 256)) all_defined = true.
Proof. vm_compute. reflexivity. Qed.

(** The code bytes of an instruction: one or two opcodes, or one opcode and its immediates. *)
Definition code_form (i : DecodedInstruction) : bool :=
  (byte_len i =? opcode_fetches (bus i) + immediate_reads (bus i)) &&
  (((opcode_fetches (bus i) =? 1) && (0 <=? immediate_reads (bus i)) && (immediate_reads (bus i) <=? 2) &&
    negb (Z.testbit (instruction_address i) 8)) ||
   ((opcode_fetches (bus i) =? 2) && (immediate_reads (bus i) =? 0) && Z.testbit (instruction_address i) 8)).
Lemma all_code_forms : forallb code_form all_defined = true.
Proof. vm_compute. reflexivity. Qed.
Lemma code_forms i : defined_instruction i → byte_len i = opcode_fetches (bus i) + immediate_reads (bus i) ∧
  ((opcode_fetches (bus i) = 1 ∧ (immediate_reads (bus i) = 0 ∨ immediate_reads (bus i) = 1 ∨ immediate_reads (bus i) = 2) ∧
    Z.testbit (instruction_address i) 8 = false) ∨
   (opcode_fetches (bus i) = 2 ∧ immediate_reads (bus i) = 0 ∧ Z.testbit (instruction_address i) 8 = true)).
Proof.
  intros Hi. pose proof (defined_forall _ all_code_forms i Hi) as Hc. unfold code_form in Hc.
  rewrite andb_true_iff, orb_true_iff, !andb_true_iff, negb_true_iff, !Z.eqb_eq, !Z.leb_le in Hc.
  destruct Hc as [-> [(((-> & ?) & ?) & ->) | ((-> & ->) & ->)]]; (split; [done |]); [left | by right]. split; [done |]. split; [lia | done].
Qed.

(** ** Handlers that take no branch *)

Section taken.
Context `{Sha256}.

(** An effect under a condition. *)
Lemma eff_when {A} (m : M A) c (P Q : A → CpuState → list bus_access → Prop) (C : Prop) :
  eff m c P → (C → eff m c Q) → eff m c (λ a c' l, P a c' l ∧ (C → Q a c' l)).
Proof.
  intros HP HQ x Hx. specialize (HP x Hx). destruct (m x) as [[a y] |] eqn:E; [| done]. destruct HP as (evs & Ee & HP).
  exists evs. split; [done |]. split; [done |]. intros HC. specialize (HQ HC x Hx). rewrite E in HQ. destruct HQ as (evs' & E' & HQ).
  rewrite Ee in E'. apply app_inv_head in E' as <-. done.
Qed.

Definition no_branch (m : M bool) (c : CpuState) : Prop := eff m c (λ taken _ _, taken = false).

Lemma straight_class i d c : class i ≠ Cls.Jump → class i ≠ Cls.CallReturn → no_branch (execute i d) c.
Proof.
  intros Hj Hc. unfold execute, execute_control, execute_load, execute_alu8, execute_alu16, execute_rotate, execute_bit, execute_stack,
    execute_interrupt, execute_low_power, no_branch, read_operand, write_operand, transfer_accumulator, store_sp_absolute, push_word, pop_word, set_stack_register.
  destruct (class i); try done; destruct (operation i); try done; eff_run; try done.
Qed.
End taken.

(** ** The immediate bytes of a fetch *)

Definition immediate_of (bytes : list Z) : ImmediateBytes := MkImmediate (bytes !! 0%nat) (bytes !! 1%nat).
Definition immediates (l : list bus_access) : list Z := map Effects.value (filter (λ a, shape a = Shape.Immediate) l).

Section fetch.
Context `{Sha256}.

Lemma fetch_loop_bytes n : ∀ bytes c (Q : ImmediateBytes → CpuState → list bus_access → Prop),
  (∀ l, Forall (λ a, shape a = Shape.Immediate) l → length l = n → Q (immediate_of (bytes ++ map Effects.value l)) (set_pc (advanced n (pc c)) c) l) →
  eff (fetch_immediates_loop n (immediate_of bytes)) c Q.
Proof.
  induction n as [| n IH]; intros bytes c Q HQ; cbn [fetch_immediates_loop].
  { apply eff_ret. specialize (HQ [] ltac:(constructor) eq_refl). rewrite app_nil_r in HQ. by destruct c. }
  apply eff_bind, fetch_and_advance_effect; [by right |]. intros v. apply eff_bind, eff_lift. intros d Hd.
  assert (Ed : d = immediate_of (bytes ++ [v])).
  { destruct bytes as [| b0 [| b1 bytes]]; [by injection Hd as <- | by injection Hd as <- | done]. }
  subst d. apply IH. intros l Hl Hlen. rewrite <- app_assoc. cbn [app].
  apply (HQ ((Shape.Immediate, pc c, v) :: l)); [by constructor | cbn; by rewrite Hlen].
Qed.

Lemma immediates_all l : Forall (λ a, shape a = Shape.Immediate) l → immediates l = map Effects.value l.
Proof. intros Hl. unfold immediates. induction Hl as [| a l Ha _ IH]; [done |]. rewrite filter_cons_True by done. cbn [map]. by rewrite IH. Qed.

Lemma fetch_bytes halt_bug c :
  eff (fetch_and_decode halt_bug) c (λ '(i, d) _ l, d = immediate_of (immediates l)).
Proof.
  unfold fetch_and_decode, fetch_first_opcode. apply eff_bind, eff_bind, eff_get_cpu. cbv zeta.
  apply eff_bind, eff_fetch_instruction; [| by left]. intros b.
  assert (Hc : ∀ (Q : () → CpuState → list bus_access → Prop), (∀ c1, Q () c1 []) →
    eff (if halt_bug then modify_cpu (set_run_state Run.Running) else modify_cpu (set_pc (w16 (pc c + 1)))) c Q).
  { intros Q HQ. destruct halt_bug; by apply eff_modify_cpu. }
  apply eff_bind, Hc. intros c1. apply eff_ret. cbn [app].
  destruct (Z.eqb_spec b 0xcb) as [-> | Hb].
  - apply eff_bind, fetch_and_advance_effect; [by left |]. intros v. by apply eff_ret.
  - destruct (decode_primary b) as [i | u] eqn:Ed; [| apply eff_fail]. apply eff_bind. unfold fetch_immediates.
    apply (fetch_loop_bytes _ []). intros l Hl _. apply eff_ret. rewrite app_nil_r. cbn [app].
    unfold immediates. rewrite filter_cons_False by done. fold (immediates l). by rewrite immediates_all.
Qed.

Lemma immediates_code l n m : map shape l = replicate n Shape.Fetch ++ replicate m Shape.Immediate → immediates l = map Effects.value (drop n l).
Proof.
  revert l. induction n as [| n IH]; intros [| a l] E; cbn [replicate app map] in E; try done.
  - rewrite drop_0. apply immediates_all. apply Forall_forall. intros b Hb. apply (list_elem_of_fmap_2 shape) in Hb. 
    change (shape <$> a :: l) with (map shape (a :: l)) in Hb. cbn [map] in Hb. rewrite E in Hb. by apply elem_of_replicate in Hb as [? _].
  - injection E as Ea E. cbn [drop]. rewrite <- (IH l E). unfold immediates. rewrite filter_cons_False; [done |]. by rewrite Ea.
Qed.

(** The addresses of the code bytes. *)
Lemma fetch_addresses_lookup (b : bool) n p k a : is_u16 p → (n <= 3)%nat → fetch_addresses b n p !! k = Some a →
  (k < n)%nat ∧ a = match k with 0%nat => p | 1%nat => w16 (p + 1 - Z.b2z b) | _ => w16 (p + 2 - Z.b2z b) end.
Proof.
  intros Hp Hn E. pose proof (lookup_lt_Some _ _ _ E) as Hk.
  assert (Hlen : length (fetch_addresses b n p) = n).
  { destruct n as [| n]; [done |]. cbn [fetch_addresses length]. f_equal. generalize (if b then p else w16 (p + 1)).
    clear. induction n as [| n IH]; intros q; [done |]. cbn [code_addresses length]. by rewrite IH. }
  rewrite Hlen in Hk. split; [done |]. destruct n as [| [| [| [| n]]]]; try lia; destruct k as [| [| [| k]]]; try lia; destruct b;
    cbn in E; injection E as <-; cbn [Z.b2z]; unfold w16; zlia.
Qed.
End fetch.

Section rows.
Context {F : Type} `{FieldLaws F} {view : RowView F} `{Sha256}.
Local Open Scope field_scope.
Add Ring steps_ring : fl_ring.

Lemma isa_output i c k : instruction_row i c → 0 <= k < ISA_OUTPUT_COUNT → isa k = of_Z (output (row_outputs (from_decoded i)) k).
Proof.
  intros Hrow Hk. rewrite (row_isa _ _ Hrow) by done. apply of_Z_u64. apply (tells_u64 _ _ _ _ (defined_tells i (row_defined _ _ Hrow))).
Qed.
Lemma isa_counts i c : instruction_row i c →
  isa ISA_OPCODE_FETCHES = of_Z (opcode_fetches (bus i)) ∧ isa ISA_IMMEDIATE_READS = of_Z (immediate_reads (bus i)) ∧
  isa ISA_BASE_M_CYCLES = of_Z (base_m_cycles (timing i)) ∧ isa ISA_TAKEN_M_CYCLES = of_Z (default 0 (taken_m_cycles (timing i))) ∧
  isa ISA_TAKEN_TIMING = of_Z (Z.b2z (negb (default 0 (taken_m_cycles (timing i)) =? 0))) ∧
  (∀ n, taken_m_cycles (timing i) = Some n → 0 < n < 256) ∧ 0 < base_m_cycles (timing i) < 256.
Proof.
  intros Hrow. pose proof (defined_forall _ all_rows_count i (row_defined _ _ Hrow)) as E. cbv beta zeta in E.
  rewrite !andb_true_iff, !Z.eqb_eq in E. destruct E as (((((((E1 & E2) & E3) & E4) & E5) & E6) & E7) & E8).
  rewrite !(isa_output i c), E1, E2, E3, E4, E5 by done. split_and!; try done; [| lia..].
  intros n En. rewrite En in E6. lia.
Qed.

(** ** The program counter after the fetch *)

Definition halt_bug_fetch (c : CpuState) : bool := bool_decide (run_state c = Run.HaltBug).
Lemma halt_bug_column i c : instruction_row i c → value TRACE_HALT_BUG = of_Z (Z.b2z (halt_bug_fetch c)) ∧
  before STATE_RUN_STATE = of_Z (3 * Z.b2z (halt_bug_fetch c)).
Proof.
  intros Hrow. destruct (flow_constraints i c Hrow) as (Hw & _). unfold Control.constrain_instruction_witness in Hw.
  rewrite !satisfied_app, !satisfied_map, !satisfied_cons, (row_mode _ _ Hrow) in Hw.
  destruct Hw as (_ & _ & Hb & (_ & _ & _ & _ & _ & _ & _ & E1 & E2 & E3 & _) & _).
  destruct (boolean_bit _ (Hb TRACE_HALT_BUG ltac:(apply list_elem_of_further, list_elem_of_here))) as [b Eb].
  pose proof (before_component i c SC.RunState Hrow ltac:(done)) as Er. change (component_index SC.RunState) with STATE_RUN_STATE in Er.
  cbn [component_value] in Er. rewrite Er in E1. rewrite Eb, Er in E2. rewrite Eb, Er in E3. rewrite Er, Eb. unfold halt_bug_fetch.
  to_integers E1. to_integers E2. to_integers E3.
  destruct (run_state c), b; cbn [run_code Z.b2z] in *; (apply of_Z_zero in E1; [| lia]); (apply of_Z_zero in E2; [| lia]);
    (apply of_Z_zero in E3; [| lia]); try discriminate E1; try discriminate E2; try discriminate E3; done.
Qed.

Lemma wrap_column i c column : instruction_row i c → column ∈ [TRACE_PC_WRAP; TRACE_FETCH_ONE_WRAP; TRACE_FETCH_TWO_WRAP] →
  ∃ b : bool, value column = of_Z (Z.b2z b).
Proof.
  intros Hrow Hin. destruct (flow_constraints i c Hrow) as (Hw & _). unfold Control.constrain_instruction_witness in Hw.
  rewrite !satisfied_app, !satisfied_map in Hw. destruct Hw as (_ & _ & Hb & _). apply boolean_bit, Hb. set_solver.
Qed.
Lemma before_pc i c : instruction_row i c → before STATE_PC = of_Z (pc c) ∧ is_u16 (pc c).
Proof.
  intros Hrow. split; [apply (before_component i c SC.Pc Hrow); done |]. by destruct (row_cpu _ _ Hrow).
Qed.

(** The program counter after the code bytes. *)
Lemma sequential_pc i c : instruction_row i c →
  value TRACE_SEQUENTIAL_PC = of_Z (w16 (pc c + byte_len i - Z.b2z (halt_bug_fetch c))).
Proof.
  intros Hrow. destruct (flow_constraints i c Hrow) as (Hw & _). unfold Control.constrain_instruction_witness in Hw.
  rewrite !satisfied_app, !satisfied_map, !satisfied_cons, (row_mode _ _ Hrow) in Hw.
  destruct Hw as (_ & Hb & _ & (_ & _ & Es & _ & _ & _ & _ & _ & _ & _ & E & _) & _).
  destruct (column_bits _ _ 16 ltac:(done) ltac:(intros k Hk; by apply Hb, elem_of_range) Es) as (n & [Bn _] & En).
  destruct (wrap_column i c TRACE_PC_WRAP Hrow ltac:(set_solver)) as [b Eb]. destruct (halt_bug_column i c Hrow) as [Eh _].
  destruct (before_pc i c Hrow) as [Ep Bp]. destruct (isa_counts i c Hrow) as (Eo & Ei & _).
  pose proof (tells_length_bytes _ _ _ _ (defined_tells i (row_defined _ _ Hrow))) as Hlen.
  pose proof (defined_forall _ all_rows_count i (row_defined _ _ Hrow)) as Ec. cbv beta zeta in Ec. rewrite !andb_true_iff, !Z.eqb_eq in Ec.
  destruct Ec as (((((((C1 & C2) & _) & _) & _) & _) & _) & _). rewrite C1, C2 in Hlen.
  pose proof (defined_bytes i (row_defined _ _ Hrow)) as [_ Hbytes]. pose proof (b2z_range b). pose proof (b2z_range (halt_bug_fetch c)).
  rewrite En in *. f_equal. apply ungate in E; [| ring]. rewrite Ep, Eo, Ei, Eh, Eb in E. to_integers E.
  apply of_Z_zero in E; [| lia]. unfold w16. destruct b; cbn [Z.b2z] in *; zlia.
Qed.

(** ** The code bytes of the row *)

Lemma fmul_two x n : 0 < n < 256 → of_Z n * x = f0 → x = f0.
Proof. intros Hn E. apply fmul_zero in E as [E | E]; [| done]. apply of_Z_zero in E; lia. Qed.
Lemma fetch_address i c slot column (offset : Z) : instruction_row i c → 0 <= slot < TRACE_BUS_SLOTS → 1 <= offset <= 2 →
  column ∈ [TRACE_FETCH_ONE_WRAP; TRACE_FETCH_TWO_WRAP] →
  bus_field slot BUS_ADDRESS_OFFSET - (before STATE_PC + lit offset - value TRACE_HALT_BUG - lit 65536 * value column) = f0 →
  bus_field slot BUS_ADDRESS_OFFSET = of_Z (w16 (pc c + offset - Z.b2z (halt_bug_fetch c))).
Proof.
  intros Hrow Hs Ho Hin E. destruct (bus_columns i c slot Hrow Hs) as (a & _ & Ba & _ & Ea & _). rewrite Ea in *. f_equal.
  destruct (wrap_column i c column Hrow ltac:(set_solver)) as [b Eb]. destruct (halt_bug_column i c Hrow) as [Eh _].
  destruct (before_pc i c Hrow) as [Ep Bp]. rewrite Ep, Eh, Eb in E. pose proof (b2z_range b). pose proof (b2z_range (halt_bug_fetch c)).
  to_integers E. apply of_Z_zero in E; [| lia]. unfold w16. destruct b; cbn [Z.b2z] in *; zlia.
Qed.

Lemma code_addresses_shown i c : instruction_row i c →
  bus_field 0 BUS_ADDRESS_OFFSET = of_Z (pc c) ∧
  (2 <= byte_len i → bus_field 1 BUS_ADDRESS_OFFSET = of_Z (w16 (pc c + 1 - Z.b2z (halt_bug_fetch c)))) ∧
  (3 <= byte_len i → bus_field 2 BUS_ADDRESS_OFFSET = of_Z (w16 (pc c + 2 - Z.b2z (halt_bug_fetch c)))).
Proof.
  intros Hrow. pose proof (holds_flow (instruction_components _ _ Hrow)) as Hf. unfold Control.constrain_instruction_flow in Hf.
  rewrite !satisfied_app in Hf. destruct Hf as (_ & Hf & _). unfold Control.constrain_fetch_alignment in Hf.
  rewrite !satisfied_cons, (row_mode _ _ Hrow) in Hf. destruct Hf as (E0 & _ & E1 & _ & E2 & E3 & _).
  destruct (isa_counts i c Hrow) as (_ & Ei & _). rewrite Ei in E2. rewrite Ei in E3.
  pose proof (has_bits_bit _ 9 _ 8 (row_address _ _ Hrow) ltac:(done)) as Eb. rewrite Eb in E1. rewrite Eb in E2. rewrite Eb in E3.
  destruct (code_forms i (row_defined _ _ Hrow)) as [-> Hc]. apply ungate in E0; [| ring]. apply fsub_zero in E0. rewrite E0.
  split; [by apply (before_pc i) |].
  assert (Ha : ∀ slot column offset, 0 <= slot < TRACE_BUS_SLOTS → 1 <= offset <= 2 → column ∈ [TRACE_FETCH_ONE_WRAP; TRACE_FETCH_TWO_WRAP] → _)
    by (intros slot column offset; exact (fetch_address i c slot column offset Hrow)).
  destruct Hc as [(Ho & Him & Hp) | (Ho & Him & Hp)]; rewrite Ho; rewrite Hp in E1, E2, E3; cbn [Z.b2z] in *.
  - split; intros Hl.
    + apply (Ha 1 TRACE_FETCH_ONE_WRAP 1); [done | done | set_solver |].
      destruct Him as [Him | [Him | Him]]; rewrite Him in *; [lia | |]; rewrite of_Z_0 in E2.
      * rewrite of_Z_1 in E2. apply ungate in E2; [done | ring].
      * apply (fmul_two _ 2); [done |]. rewrite <- E2. ring.
    + apply (Ha 2 TRACE_FETCH_TWO_WRAP 2); [done | done | set_solver |]. assert (Him' : immediate_reads (bus i) = 2) by lia.
      rewrite Him', of_Z_0 in E3. apply (fmul_two _ 2); [done |]. rewrite <- E3. rewrite (of_Z_add 1 1 : of_Z 2 = _), of_Z_1. ring.
  - rewrite Him. split; intros Hl; [| lia]. apply (Ha 1 TRACE_FETCH_ONE_WRAP 1); [done | done | set_solver |].
    rewrite of_Z_1 in E1. apply ungate in E1; [done | ring].
Qed.

(** The program counter of the fetch, as the column has it. *)
Lemma fetched_pc (n : nat) (b : bool) p : is_u16 p → (1 <= n)%nat →
  advanced (n - if b then 1 else 0) p = w16 (p + Z.of_nat n - Z.b2z b).
Proof. intros Hp Hn. rewrite advanced_eq by done. f_equal. destruct b; cbn [Z.b2z]; lia. Qed.

Lemma immediate_columns i c : instruction_row i c → 
  (1 <= immediate_reads (bus i) → value TRACE_IMMEDIATE_LOW = bus_field 1 BUS_VALUE_OFFSET) ∧
  (immediate_reads (bus i) = 2 → value TRACE_IMMEDIATE_HIGH = bus_field 2 BUS_VALUE_OFFSET) ∧
  ∃ n, has_bits TRACE_IMMEDIATE_LOW_BITS_START 8 n ∧ value TRACE_IMMEDIATE_LOW = of_Z n.
Proof.
  intros Hrow. destruct (flow_constraints i c Hrow) as (Hw & _). unfold Control.constrain_instruction_witness in Hw.
  rewrite !satisfied_app, !satisfied_cons, satisfied_each, (row_mode _ _ Hrow) in Hw.
  destruct Hw as (Hb & _ & _ & (El & _ & _ & E1 & E2 & _) & _). destruct (isa_counts i c Hrow) as (_ & Ei & _). rewrite Ei in E1. rewrite Ei in E2.
  destruct (code_forms i (row_defined _ _ Hrow)) as [_ Hc]. split_and!.
  - intros Hi. apply fsub_zero, (fmul_two _ (immediate_reads (bus i))); [lia |]. rewrite <- E1. ring.
  - intros Hi. rewrite Hi in E2. apply fsub_zero, (fmul_two _ 2); [done |]. rewrite <- E2. rewrite (of_Z_add 1 1 : of_Z 2 = _), of_Z_1. ring.
  - apply column_bits; [done | | done]. intros k Hk. specialize (Hb TRACE_IMMEDIATE_LOW_BITS_START ltac:(apply list_elem_of_here)).
    cbv beta in Hb. rewrite satisfied_map in Hb. by apply Hb, elem_of_range.
Qed.

Lemma row_fetched i c c1 l : instruction_row i c → fetched (halt_bug_fetch c) c i c1 l → reads_shown 0 l →
  fetched_row i c c1 (immediate_of (immediates l)) ∧ accesses_shown 0 l.
Proof.
  intros Hrow (_ & _ & Hshape & Haddr & Hc1) Hr. pose proof (code_length i l (row_defined _ _ Hrow) Hshape) as Hlen.
  pose proof (defined_bytes i (row_defined _ _ Hrow)) as [_ Hbytes]. destruct (before_pc i c Hrow) as [_ Bp].
  destruct (immediate_columns i c Hrow) as (Hlow & Hhigh & n & Hn & En). destruct (code_addresses_shown i c Hrow) as (A0 & A1 & A2).
  destruct (code_forms i (row_defined _ _ Hrow)) as [Hl Hc].
  assert (Hacc : ∀ k a, l !! k = Some a → (k < Z.to_nat (byte_len i))%nat ∧ shape a ≠ Shape.DataWrite ∧
    bus_field (0 + Z.of_nat k)%Z BUS_ADDRESS_OFFSET = of_Z (address a)).
  { intros k a E. assert (Ea : fetch_addresses (halt_bug_fetch c) (length l) (pc c) !! k = Some (address a)).
    { rewrite <- Haddr. change (map address l) with (address <$> l). by rewrite list_lookup_fmap, E. }
    rewrite Hlen in Ea. apply fetch_addresses_lookup in Ea as [Hk Ea]; [| done | lia]. split; [done |]. split.
    - assert (Es : map shape l !! k = Some (shape a)) by (change (map shape l) with (shape <$> l); by rewrite list_lookup_fmap, E).
      rewrite Hshape in Es. unfold code_shapes in Es. apply list_elem_of_lookup_2 in Es.
      apply elem_of_app in Es as [[-> _]%elem_of_replicate | [-> _]%elem_of_replicate]; done.
    - rewrite Ea. destruct k as [| [| [| k]]]; [done | apply A1; lia | apply A2; lia | lia]. }
  split.
  - assert (Himm : ∀ j, immediates l !! j = Effects.value <$> (if decide (opcode_fetches (bus i) = 1) then l !! S j else None)).
    { intros j. unfold code_shapes in Hshape. rewrite (immediates_code _ _ _ Hshape). change (map ?f ?x) with (f <$> x).
      rewrite list_lookup_fmap. f_equal. rewrite lookup_drop. case_decide as Ho; [by rewrite Ho |].
      destruct Hc as [(? & _) | (Ho' & Him & _)]; [done |]. apply lookup_ge_None_2. lia. }
    assert (Hj : ∀ j v, immediates l !! j = Some v → (S j < Z.to_nat (byte_len i))%nat ∧ opcode_fetches (bus i) = 1 ∧ is_u8 v ∧
      bus_field (0 + Z.of_nat (S j))%Z BUS_VALUE_OFFSET = of_Z v).
    { intros j v E. rewrite Himm in E. case_decide as Ho; [| done]. destruct (l !! S j) as [a |] eqn:Ea; [| done]. injection E as <-.
      destruct (Hacc _ _ Ea) as (Hk & Hs & _). split; [done |]. split; [done |]. exact (Hr _ _ Ea Hs). }
    pose proof (b2z_range (halt_bug_fetch c)).
    split; try (by rewrite Hc1; destruct (halt_bug_fetch c)); [done | | |].
    + assert (Epc : pc c1 = w16 (pc c + byte_len i - Z.b2z (halt_bug_fetch c))).
      { rewrite Hc1. cbn [pc set_pc]. rewrite fetched_pc, Hlen, Z2Nat.id by (done || lia). done. }
      rewrite Epc. split; [apply w16_bound |]. by apply sequential_pc.
    + intros v E. destruct (Hj 0%nat v E) as (Hk & Ho & Bv & Ev). change (0 + Z.of_nat 1)%Z with 1%Z in Ev. split; [done |]. split; [done |].
      pose proof (Hlow ltac:(lia)) as Elow. rewrite Ev in Elow. split; [done |]. rewrite Elow in En. pose proof (proj1 Hn) as Bn.
      assert (v = n) as -> by (apply of_Z_inj; [lia | done]). done.
    + intros v E. destruct (Hj 1%nat v E) as (Hk & Ho & Bv & Ev). change (0 + Z.of_nat 2)%Z with 2%Z in Ev. split; [done |].
      rewrite Hhigh by lia. done.
  - intros k a E. destruct (Hacc _ _ E) as (_ & Hs & Ha). split; [exact Ha |]. apply (Hr _ _ E Hs).
Qed.

(** ** Executing the row *)

(** Operations that access no data and write no data register. *)
Definition quiet (o : Op.Operation) : bool :=
  match o with
  | Op.Nop | Op.DisableInterrupts | Op.EnableInterrupts | Op.Stop | Op.Halt | Op.PrefixCb | Op.RelativeJump _ | Op.Jump _ | Op.JumpHl => true
  | _ => false
  end.
Lemma quiet_row i c taken c' l : quiet (operation i) = true → op_post (operation i) c taken c' l → row_post i c' l.
Proof.
  intros Hq (Hs & _) _. split.
  - intros k ? ? ? ? Hk. destruct (operation i); try discriminate Hq; destruct k; try done; destruct condition as [[] |]; discriminate Hk.
  - intros _. assert (l = []) as -> by (destruct (operation i); try discriminate Hq; destruct taken; destruct l; done). apply accesses_shown_nil.
Qed.

Lemma cb_targets i cb target : defined_instruction i → operation i = Op.Cb cb target →
  target ≠ Opd.Immediate ∧ (class_of (operation i) = Cls.Bit → 0 <= argument_zero (descriptor (operation i)) < 8).
Proof.
  intros Hi Ho. pose proof (defined_forall (λ i, match operation i with
    | Op.Cb cb Opd.Immediate => false
    | Op.Cb (CbOp.TestBit b | CbOp.ResetBit b | CbOp.SetBit b) _ => (0 <=? b) && (b <? 8)
    | _ => true end) ltac:(by vm_compute) i Hi) as E. cbv beta in E. rewrite Ho in *. split; [by destruct cb, target |].
  destruct cb, target; try done; cbn; lia.
Qed.

Lemma straight_flow i c c1 d taken c' l : fetched_row i c c1 d → conditional (operation i) = false → unconditional (operation i) = false →
  taken = false → op_post (operation i) c1 taken c' l → flow_post i taken c' l.
Proof.
  intros [Hrow _ _ _ [_ Ep] _ _] Hc Hu -> (_ & (Hpc & _) & _) _. pose proof (branch_row i c Hrow) as Hb.
  replace (takes (operation i) c) with false in Hb by (by destruct (operation i)). split; [done |].
  rewrite (sequential_row i c Hrow Hc Hu), Ep. by rewrite Hpc.
Qed.

Definition executed_post (i : DecodedInstruction) (taken : bool) (c' : CpuState) (l : list bus_access) : Prop :=
  flow_post i taken c' l ∧ row_post i c' l.

Lemma straight_rows i c c1 d : fetched_row i c c1 d → conditional (operation i) = false → unconditional (operation i) = false →
  eff (execute i d) c1 (λ _ c' l, row_post i c' l) → eff (execute i d) c1 (λ taken c' l, executed_post i taken c' l).
Proof.
  intros Hf Hc Hu Hr. pose proof Hf as [Hrow _ _ _ _ _ _]. pose proof (row_defined _ _ Hrow) as Hi.
  assert (Hcls : class i = class_of (operation i)).
  { apply (decoded_pattern i). destruct Hi as [(b & _ & ?) | (b & _ & ->)]; eauto. }
  assert (Hn : no_branch (execute i d) c1).
  { apply straight_class; rewrite Hcls; destruct (operation i) as [| | | | | | | | | | | | | | | | | | | | | | | | | | | | | | | | | | | | | []]; done. }
  eapply eff_mono; [exact (eff_and _ _ _ _ (eff_and _ _ _ _ Hn (execute_effect i d c1)) Hr) |].
  intros taken c' l [[Ht Ho] Hp]. split; [| done]. eapply straight_flow; try done. by apply Ho, defined_not_transfer.
Qed.

Lemma execute_rows i c c1 d : fetched_row i c c1 d → eff (execute i d) c1 (λ taken c' l, executed_post i taken c' l).
Proof.
  intros Hf. pose proof Hf as [Hrow _ _ _ _ _ _]. pose proof (row_defined _ _ Hrow) as Hi.
  assert (Hcls : class i = class_of (operation i)).
  { apply (decoded_pattern i). destruct Hi as [(b & _ & ?) | (b & _ & ->)]; eauto. }
  assert (Hq : quiet (operation i) = true → eff (execute i d) c1 (λ _ c' l, row_post i c' l)).
  { intros Hq. eapply eff_mono; [apply execute_effect |]. intros taken c' l Hp. eapply quiet_row; [done |]. by apply Hp, defined_not_transfer. }
  destruct (conditional (operation i)) eqn:Hc; [| destruct (unconditional (operation i)) eqn:Hu].
  - assert (Hjump : ∀ m, quiet (operation i) = true → execute i d = m → eff m c1 (λ taken c' l, flow_post i taken c' l) →
      eff (execute i d) c1 (λ taken c' l, executed_post i taken c' l)).
    { intros m Hquiet Em Hm. rewrite <- Em in Hm. exact (eff_and _ _ _ _ Hm (Hq Hquiet)). }
    destruct (operation i) eqn:Ho; try discriminate Hc.
    + apply (Hjump (execute_jump (operation i) d)); [done | unfold execute; by rewrite Hcls | by apply (relative_row i c c1 d condition)].
    + unfold execute. rewrite Hcls. cbn [class_of]. by apply (return_row i c c1 d condition).
    + apply (Hjump (execute_jump (operation i) d)); [done | unfold execute; by rewrite Hcls | by apply (jump_row i c c1 d condition)].
    + unfold execute. rewrite Hcls. cbn [class_of]. by apply (call_row i c c1 d condition).
  - destruct (operation i) eqn:Ho; try discriminate Hu; unfold execute; rewrite Hcls; cbn [class_of].
    + by apply (reti_row i c c1 d).
    + assert (E : execute i d = execute_jump (operation i) d) by (unfold execute; by rewrite Hcls).
      rewrite <- E. refine (eff_and _ _ _ _ _ (Hq eq_refl)). rewrite E. by apply (jump_hl_row i c c1 d).
    + by apply (restart_row i c c1 d vector).
  - apply (straight_rows i c c1 d Hf Hc Hu). destruct (operation i) eqn:Ho; try discriminate Hc; try discriminate Hu; try (by apply Hq);
      clear Hq; unfold execute; rewrite Hcls; cbn [class_of].
    + by apply (store_sp_row i c).
    + eapply load16_row; done.
    + eapply add_hl_row; done.
    + eapply indirect_row; done.
    + by apply (word_step_row i c c1 d true register).
    + by apply (word_step_row i c c1 d false register).
    + by apply (step_row i c c1 d true operand).
    + by apply (step_row i c c1 d false operand).
    + eapply load8_immediate_row; done.
    + eapply accumulator_rotate_row; done.
    + eapply daa_row; done.
    + eapply simple_row; [done | by left].
    + eapply simple_row; [done | by right; left].
    + eapply simple_row; [done | by right; right].
    + eapply load8_row; done.
    + eapply alu_row; done.
    + eapply accumulator_transfer_row; [done | by left].
    + eapply add_sp_row; done.
    + eapply load_hl_sp_row; done.
    + eapply pop_row; done.
    + eapply load_sp_hl_row; done.
    + eapply accumulator_transfer_row; [done | by right; left].
    + eapply accumulator_transfer_row; [done | by right; right].
    + eapply push_row; done.
    + destruct (cb_targets i _ _ Hi Ho) as [Ht Hb]. rewrite Ho in Hb.
      match type of Ho with _ = Op.Cb ?cb ?o => pose proof (λ H1 H2, cb_rotate_row i c c1 d cb o H1 H2 Ht) as Hr; pose proof (λ H1 H2, bit_row i c c1 d cb o H1 H2 Ht) as Hbr;
        rewrite Ho in Hbr; destruct cb; try (by apply Hr); rewrite <- Ho in *; apply Hbr; try done; apply Hb; by rewrite Ho end.
Qed.

(** ** The control state after the row *)

(** IME with the delay of EI. *)
Definition ime_next (o : Op.Operation) (i : ImeState) : ImeState :=
  if bool_decide (i = Ime.EnablePending) && negb (bool_decide (o = Op.DisableInterrupts)) then Ime.Enabled else ime_after o i.
Lemma ime_row i c : instruction_row i c → after STATE_IME = of_Z (ime_code (ime_next (operation i) (ime c))).
Proof.
  intros Hrow. destruct (data_constraints i c Hrow) as (_ & _ & _ & _ & _ & _ & Hd). unfold Data.constrain_ime in Hd.
  rewrite !satisfied_cons in Hd. destruct Hd as (E1 & E2 & E3 & E4 & E5 & E6 & E7 & _).
  pose proof (before_component i c SC.Ime Hrow ltac:(done)) as Ei. change (component_index SC.Ime) with STATE_IME in Ei. cbn [component_value] in Ei.
  rewrite Ei in E3. rewrite Ei in E4. rewrite Ei in E5. rewrite Ei in E6. rewrite Ei in E7.
  assert (Hs : ∃ d e r : bool, operation_selector 32 = of_Z (Z.b2z d) ∧ operation_selector 33 = of_Z (Z.b2z e) ∧ operation_selector 25 = of_Z (Z.b2z r) ∧
    (d, e, r) = match operation i with Op.DisableInterrupts => (true, false, false) | Op.EnableInterrupts => (false, true, false)
      | Op.ReturnFromInterrupt => (false, false, true) | _ => (false, false, false) end).
  { do 3 eexists. rewrite !(operation_value i c) by done. split; [done |]. split; [done |]. split; [done |].
    destruct (operation i); try done; by match goal with |- context [Op.Cb ?cb _] => destruct cb end. }
  destruct Hs as (d & e & r & Sd & Se & Sr & Hder). rewrite Sd in E1. rewrite Sr in E2. rewrite Sd, Se, Sr in E3. rewrite Se in E4. 
  rewrite Sd, Se, Sr in E5. rewrite Sd, Se, Sr in E6. rewrite Se in E7.
  assert (Hn : ∃ n, ime_next (operation i) (ime c) = n ∧
    n = if d then Ime.Disabled else if r then Ime.Enabled else if e then (if bool_decide (ime c = Ime.EnablePending) then Ime.Enabled else Ime.EnablePending)
        else if bool_decide (ime c = Ime.EnablePending) then Ime.Enabled else ime c).
  { eexists. split; [done |]. unfold ime_next. destruct (operation i), (ime c); injection Hder as -> -> ->; done. }
  destruct Hn as (n & -> & ->).
  assert (Hz : ∀ k z x, of_Z k * (x - of_Z z) = of_Z 0 → k ≠ 0 ∧ -256 < k < 256 → x = of_Z z).
  { intros k z x E [Hk Hb]. apply fsub_zero. rewrite of_Z_0 in E. apply fmul_zero in E as [E | E]; [| done]. apply of_Z_zero in E; lia. }
  assert (Hz0 : ∀ k x, of_Z k * x = of_Z 0 → k ≠ 0 ∧ -256 < k < 256 → x = of_Z 0).
  { intros k x E Hk. apply (Hz k 0 x); [| done]. transitivity (of_Z k * x); [| done]. rewrite of_Z_0. ring. }
  assert (Hder' : (d, e, r) = (true, false, false) ∨ (d, e, r) = (false, true, false) ∨ (d, e, r) = (false, false, true) ∨ (d, e, r) = (false, false, false)).
  { rewrite Hder. destruct (operation i); tauto. }
  clear Hder. to_integers E1. to_integers E2. to_integers E3. to_integers E4. to_integers E5. to_integers E6. to_integers E7.
  destruct Hder' as [[= -> -> ->] | [[= -> -> ->] | [[= -> -> ->] | [= -> -> ->]]]]; destruct (ime c); cbn [ime_code Z.b2z] in *;
    first [by apply Hz0 in E1 | by apply Hz in E2 | by apply Hz0 in E3 | by apply Hz in E4 | by apply Hz in E5 | by apply Hz in E6 | by apply Hz in E7].
Qed.

Lemma run_state_row i c : instruction_row i c →
  match operation i with
  | Op.Halt => after STATE_RUN_STATE = of_Z (run_code Run.Halted) ∨ after STATE_RUN_STATE = of_Z (run_code Run.HaltBug)
  | o => after STATE_RUN_STATE = of_Z (run_code (run_after o Run.Running))
  end.
Proof.
  intros Hrow. destruct (data_constraints i c Hrow) as (_ & _ & _ & _ & _ & Hd & _). unfold Data.constrain_low_power in Hd.
  rewrite !satisfied_cons in Hd. destruct Hd as (Es & Eh & _).
  destruct (decide (operation i = Op.Halt)) as [Ho | Nh]; [| destruct (decide (operation i = Op.Stop)) as [Ho | Ns]].
  - rewrite Ho. rewrite (operation_on i c 18) in Eh by (done || by rewrite Ho). rewrite <- (Radd_0_l fl_ring (_ * _)) in Eh.
    destruct (fmul_zero (after STATE_RUN_STATE - f1) (after STATE_RUN_STATE - lit 3)) as [E | E]; [rewrite <- Eh; ring | left | right];
      apply fsub_zero in E; rewrite E; [by rewrite <- of_Z_1 | by apply of_Z_u64].
  - rewrite Ho. rewrite (operation_on i c 2) in Es by (done || by rewrite Ho). apply ungate in Es; [| ring]. apply fsub_zero in Es.
    rewrite Es. by apply of_Z_u64.
  - pose proof (holds_frames (instruction_components _ _ Hrow)) as Hf. unfold constrain_cycles_and_frames in Hf.
    rewrite !satisfied_app, !satisfied_map in Hf. destruct Hf as (_ & Hf & _). specialize (Hf STATE_RUN_STATE (elem_of_range STATE_RUN_STATE STATE_CYCLES ltac:(done))).
    cbv zeta beta in Hf. rewrite (write_column i c SC.RunState), (row_mode _ _ Hrow) in Hf by done. rewrite Z.eqb_refl in Hf.
    destruct (halt_bug_column i c Hrow) as [Eb Er]. rewrite Eb, Er in Hf.
    assert (Hw : writes (state_access_of (operation i)) SC.RunState = false ∧ run_after (operation i) Run.Running = Run.Running).
    { pose proof (defined_forall (λ i, bool_decide (operation i = Op.Halt) || bool_decide (operation i = Op.Stop) ||
        negb (writes (state_access_of (operation i)) SC.RunState)) ltac:(by vm_compute) i (row_defined _ _ Hrow)) as E. cbv beta in E.
      rewrite !bool_decide_eq_false_2 in E by done. apply negb_true_iff in E. split; [done |]. by destruct (operation i). }
    destruct Hw as [Hw Hra]. rewrite Hw in Hf.
    assert (E : after STATE_RUN_STATE = of_Z 0).
    { rewrite of_Z_0. rewrite of_Z_mul, <- (of_Z_u64 3) in Hf by done. change (of_Z (Z.b2z false)) with (f0 : F) in Hf. rewrite <- Hf. ring. }
    destruct (operation i); try done.
Qed.

Lemma cycles_row i c : instruction_row i c →
  after STATE_CYCLES = of_Z (m_cycles c + instruction_cycles i (takes (operation i) c)).
Proof.
  intros Hrow. pose proof (holds_frames (instruction_components _ _ Hrow)) as Hf. unfold constrain_cycles_and_frames in Hf.
  rewrite !satisfied_app, !satisfied_cons, (row_mode _ _ Hrow) in Hf. destruct Hf as ((E1 & _ & _ & _ & _ & _ & E2 & _) & _).
  rewrite (branch_row i c Hrow) in E2. destruct (isa_counts i c Hrow) as (_ & _ & Eb & Et & Ett & Hn & Hb). rewrite Eb, Et, Ett in E2.
  pose proof (before_component i c SC.MCycles Hrow ltac:(done)) as Ec. change (component_index SC.MCycles) with STATE_CYCLES in Ec. rewrite Ec in E1.
  apply ungate in E2; [| ring]. apply fsub_zero in E2. rewrite E2 in E1. cbn [component_value] in E1.
  assert (Es : of_Z (base_m_cycles (timing i)) +
      of_Z (Z.b2z (takes (operation i) c)) * of_Z (Z.b2z (negb (default 0 (taken_m_cycles (timing i)) =? 0))) *
      (of_Z (default 0 (taken_m_cycles (timing i))) - of_Z (base_m_cycles (timing i))) = of_Z (instruction_cycles i (takes (operation i) c))).
  { unfold instruction_cycles. destruct (takes (operation i) c); cbn [Z.b2z]; [| rewrite of_Z_0; ring].
    destruct (taken_m_cycles (timing i)) as [n |] eqn:En; cbn [default].
    - specialize (Hn n eq_refl). unfold default, id. rewrite (proj2 (Z.eqb_neq n 0)) by lia. cbn [negb Z.b2z]. rewrite of_Z_1. ring.
    - unfold default, id. cbn [negb Z.b2z Z.eqb]. rewrite of_Z_0. ring. }
  rewrite Es in E1. rewrite of_Z_add. apply fsub_zero. rewrite <- E1. ring.
Qed.

(** ** The row of an accepted step *)

Lemma data_component i c c1 d taken c' l k : fetched_row i c c1 d → op_post (operation i) c1 taken c' l → row_post i c' l → reads_shown (byte_len i) l →
  k ≠ SC.Pc → k ≠ SC.Ime → k ≠ SC.RunState → k ≠ SC.MCycles → after (component_index k) = of_Z (component_value k c').
Proof.
  intros [Hrow Er Ef Esp _ _ _] (_ & _ & Hframe & _) Hp Hr ? ? ? ?. destruct (Hp Hr) as [Hw _].
  destruct (writes (state_access_of (operation i)) k) eqn:E; [by apply Hw |].
  rewrite (Hframe k E). rewrite (unwritten_stays i c k Hrow); [| by destruct k | done]. f_equal.
  destruct k; cbn [component_value]; by rewrite ?Er, ?Ef, ?Esp.
Qed.

(** What the row shows of a step that leaves the CPU [c'] with the accesses [l]. *)
Record step_shown (i : DecodedInstruction) (taken : bool) (c' : CpuState) (l : list bus_access) : Prop := {
  sh_components k : operation i ≠ Op.Halt ∨ k ≠ SC.RunState → after (component_index k) = of_Z (component_value k c');
  sh_halt : operation i = Op.Halt → after STATE_RUN_STATE = of_Z 1 ∨ after STATE_RUN_STATE = of_Z 3;
  sh_branch : value TRACE_BRANCH_TAKEN = of_Z (Z.b2z taken);
  sh_fetches : accesses_shown 0 (take (Z.to_nat (byte_len i)) l);
  sh_accesses : address_bound (operation i) = true → accesses_shown 0 l
}.

(** The control components and the others after a finished instruction. *)
Lemma finished_shown s i c c1 l1 d taken c2 l2 n : cpu s = c → instruction_row i c → fetched (halt_bug_fetch c) c i c1 l1 →
  fetched_row i c c1 d → op_post (operation i) c1 taken c2 l2 → executed_post i taken c2 l2 → reads_shown (byte_len i) l2 →
  n = (m_cycles c + instruction_cycles i taken)%Z →
  ∀ k, operation i ≠ Op.Halt ∨ k ≠ SC.RunState → after (component_index k) = of_Z (component_value k (finished s i n c2)).
Proof.
  intros Hs Hrow (_ & _ & _ & _ & Hc1) Hf Ho [Hflow Hp] Hr Hn k Hk. destruct (Hflow Hr) as [Hbr Hpc].
  pose proof (branch_row i c Hrow) as Hb. unfold branch_shown in *. rewrite Hbr in Hb. apply of_Z_bit_inj in Hb as ->.
  pose proof Ho as (_ & (_ & Hime & Hrs) & _).
  assert (Hsame : ime c1 = ime c) by (rewrite Hc1; by destruct (halt_bug_fetch c)).
  assert (Hrun : run_state c1 = Run.Running).
  { destruct (halt_bug_column i c Hrow) as [_ Er]. pose proof (before_component i c SC.RunState Hrow ltac:(done)) as Er'.
    change (component_index SC.RunState) with STATE_RUN_STATE in Er'. cbn [component_value] in Er'. rewrite Er in Er'.
    apply of_Z_inj in Er'; [| destruct (run_state c), (halt_bug_fetch c); cbn; lia]. rewrite Hc1. unfold halt_bug_fetch in *.
    case_bool_decide as Hbug; [done |].
    rewrite ?(bool_decide_eq_false_2 _ Hbug) in Er'. change (run_state c = Run.Running). destruct (run_state c); [done | discriminate Er' | discriminate Er' | by destruct Hbug]. }
  pose proof (data_component i c c1 d _ c2 l2 k Hf Ho Hp Hr) as Hdata.
  assert (Hother : k ≠ SC.Ime → k ≠ SC.MCycles → k ≠ SC.RunState → component_value k (finished s i n c2) = component_value k c2)
    by apply finished_component.
  destruct k; try (rewrite Hother by done; by apply Hdata).
  - rewrite Hother by done. exact Hpc.
  - change (component_index SC.Ime) with STATE_IME. rewrite (ime_row i c Hrow). f_equal. cbn [component_value].
    assert (E : ime (finished s i n c2) = if enables_ime s (operation i) then Ime.Enabled else ime c2)
      by (unfold finished; by destruct (enables_ime _ _), (halt_bug_entry _ _)).
    rewrite E, Hime, Hsame. unfold enables_ime, ime_next. by rewrite Hs.
  - destruct Hk as [Hk | Hk]; [| done]. pose proof (run_state_row i c Hrow) as Er.
    assert (E : run_state (finished s i n c2) = run_after (operation i) Run.Running).
    { rewrite <- Hrun, <- Hrs. unfold finished, halt_bug_entry. rewrite bool_decide_eq_false_2 by done. by destruct (enables_ime _ _). }
    cbn [component_value]. rewrite E. change (component_index SC.RunState) with STATE_RUN_STATE. by destruct (operation i).
  - change (component_index SC.MCycles) with STATE_CYCLES. rewrite (cycles_row i c Hrow), <- Hn. f_equal.
    unfold finished. by destruct (halt_bug_entry _ _).
Qed.

Lemma body_shown s c : cpu s = c →
  eff (instruction_body s) c (λ r c' l, instruction_row r.1 c → reads_shown 0 l → m_cycles c' = (m_cycles c + instruction_cycles r.1 r.2)%Z →
    step_shown r.1 r.2 c' l).
Proof.
  intros Hs. unfold instruction_body, apply_delayed_ime.
  apply eff_bind. eapply eff_mono; [exact (eff_and _ _ _ _ (fetch_and_decode_effect _ c) (fetch_bytes _ c)) |].
  intros [i d] c1 l1 [[Hf _] Hd]. rewrite Hs in Hf. fold (halt_bug_fetch c) in Hf. subst d.
  apply eff_bind. eapply eff_mono; [apply (eff_when _ _ (λ taken c' l, operation i ≠ Op.Load8 Opd.IndirectHl Opd.IndirectHl → op_post (operation i) c1 taken c' l)
    (λ taken c' l, executed_post i taken c' l) (instruction_row i c ∧ reads_shown 0 l1) (execute_effect i _ c1)) |].
  { intros [Hrow Hl]. destruct (row_fetched i c c1 l1 Hrow Hf Hl) as [Hfr _]. by apply (execute_rows i c c1). }
  intros taken c2 l2 [Ho Hex]. apply eff_bind, cpu_if, eff_bind, add_timing_effect. intros n. apply eff_bind, cpu_if, eff_ret.
  rewrite !app_nil_r. cbn [fst snd]. intros Hrow Hr Hm. fold (halt_bug_entry s (operation i)) in *. fold (enables_ime s (operation i)) in *.
  fold (finished s i n c2) in *. apply reads_shown_app in Hr as [Hr1 Hr2].
  destruct (row_fetched i c c1 l1 Hrow Hf Hr1) as [Hfr Hacc]. pose proof Hf as (_ & _ & Hshape & _ & _).
  pose proof (code_length i l1 (row_defined _ _ Hrow) Hshape) as Hlen. pose proof (defined_bytes i (row_defined _ _ Hrow)) as [_ Hbytes].
  replace (0 + Z.of_nat (length l1))%Z with (byte_len i) in Hr2 by lia.
  pose proof (Hex (conj Hrow Hr1)) as Hpost. pose proof (Ho (defined_not_transfer i (row_defined _ _ Hrow))) as Hop.
  assert (En : n = m_cycles (finished s i n c2)) by (unfold finished; by destruct (halt_bug_entry _ _)).
  pose proof Hpost as [Hflow Hp]. split.
  - rewrite <- En in Hm. by apply (finished_shown s i c c1 l1 (immediate_of (immediates l1)) taken c2 l2 n).
  - intros Ho'. pose proof (run_state_row i c Hrow) as E. by rewrite Ho' in E.
  - by apply Hflow.
  - by rewrite take_app_length'.
  - intros Hb. apply accesses_shown_app; [done |]. replace (0 + Z.of_nat (length l1))%Z with (byte_len i) by lia. by apply Hp.
Qed.
End rows.
