(* ===== verification/CpuRefines.v ===== *)
(** * The CPU relation refines the step relation (crates/zksm83-jolt/src/cpu.rs)

    The soundness of instruction rows, and a row of rationals that satisfies all the constraints. *)
From Stdlib Require Import QArith Qcanon.
From S2P Require Import Prelude IsaTypes Metadata Decode Alignment Flags Alu Commitment State Bus Execute Transition Access.
From S2P Require Import StepLogic StepTrace Step Effects Runs Conform Field.
From S2P Require Import Columns CpuRow CpuFrame CpuArithmetic CpuControl Cpu Embed IsaTable CpuSound CpuSteps.
Local Open Scope Z_scope.

(** C3. The CPU relation refines the step relation on instructions. Take an accepted step that executes an
    instruction, and a row, over any field with room for 64-bit numbers, that satisfies every CPU constraint in
    instruction mode, with the fixed-table outputs of that instruction, the registers before the step, and, in
    its bus slots, the bytes that the machine read. Then the row holds the registers, the flags, the
    program counter, the stack pointer, IME, the run state (for HALT, halted or in the double-fetch state) and
    the cycle counter that the step leaves, and its branch bit; it shows the addresses and the bytes of the
    code; and, but for the loads and the arithmetic whose memory operand has no address constraint, it
    shows the address and the byte of every access in order. *)
Theorem instruction_rows_refine_steps {F} `{FieldLaws F} {view : RowView F} `{Sha256} s input authentication s' eff :
  vm_ok s → Forall witness_ok input → apply s input authentication = Ok (s', eff) → se_kind eff = SK.Instruction →
  instruction_row (se_instruction eff) (cpu s) → reads_shown 0 (map access_of (se_bus_events eff)) →
  step_shown (se_instruction eff) (se_branch_taken eff) (cpu s') (map access_of (se_bus_events eff)).
Proof.
  intros Hs Hin Ha Hk Hrow Hr. pose proof (apply_spec s input authentication Hs Hin) as Hst. rewrite Ha in Hst.
  destruct (apply_instruction_out (body_shown s (cpu s) eq_refl) Ha Hk) as [_ Hp]. apply Hp; [done | done |].
  cbn [fst snd]. rewrite (st_cycles _ _ _ _ _ Hst). unfold step_cycles. by rewrite Hk.
Qed.

(** ** A row of rationals

    [LD A, 7] from the initial state of the bare profile. *)

Definition bits_at (start width n : Z) : list (Z * Z) := map (λ k, (start + k, Z.b2z (Z.testbit n k))) (seqZ 0 width).
Definition columns_at (start : Z) (l : list Z) : list (Z * Z) := zip (seqZ start (Z.of_nat (length l))) l.
Definition row_of (columns : list (Z * Z)) : RowView Qc :=
  let row : gmap Z Z := list_to_map columns in λ column, from_u64 (default 0 (row !! column)).

Definition cpu_columns (is_after : bool) (scalars : list Z) : list (Z * Z) :=
  let scalar j := default 0 (scalars !! Z.to_nat j) in
  columns_at (if is_after then TRACE_AFTER_STATE_START else TRACE_BEFORE_STATE_START) scalars ++
  bits_at (if is_after then TRACE_AFTER_PC_BITS_START else TRACE_BEFORE_PC_BITS_START) 16 (scalar STATE_PC) ++
  bits_at (if is_after then TRACE_AFTER_SP_BITS_START else TRACE_BEFORE_SP_BITS_START) 16 (scalar STATE_SP) ++
  flat_map (λ j, bits_at ((if is_after then TRACE_AFTER_CPU_BYTE_BITS_START else TRACE_BEFORE_CPU_BYTE_BITS_START) + j * 8) 8 (scalar j))
    (seqZ 0 8).
(** A bus slot that reads ROM. *)
Definition rom_slot (slot kind address value : Z) : list (Z * Z) :=
  columns_at (bus_slot_start slot) [1] ++ bits_at (bus_slot_start slot + 1) TRACE_BUS_KIND_BITS kind ++
  columns_at (bus_slot_start slot + BUS_ADDRESS_OFFSET) [address; address; 0; 0; value; slot] ++
  bits_at (TRACE_BUS_ADDRESS_BITS_START + slot * 16) 16 address ++
  bits_at (TRACE_BUS_PHYSICAL_BITS_START + slot * ROM_ADDRESS_BIT_COUNT) ROM_ADDRESS_BIT_COUNT address ++
  bits_at (TRACE_BUS_VALUE_BITS_START + slot * 8) 8 value ++
  columns_at (TRACE_ROM_SELECTOR_START + slot) [1] ++ columns_at (TRACE_ROM_VALUE_START + slot) [value].
(** The devices of the bare profile over an instruction of two machine cycles: ROM bank 1, idle devices, eight
    ticks of the divider. *)
Definition idle_devices (accesses : Z) : list (Z * Z) :=
  columns_at (TRACE_BEFORE_STATE_START + STATE_MBC3_ROM_BANK) [1] ++ columns_at (TRACE_AFTER_STATE_START + STATE_MBC3_ROM_BANK) [1] ++
  bits_at TRACE_BEFORE_ROM_BANK_BITS_START 6 1 ++ bits_at TRACE_AFTER_ROM_BANK_BITS_START 6 1 ++
  columns_at (TRACE_AFTER_STATE_START + STATE_BUS_NEXT_INDEX) [accesses; 1] ++
  columns_at (TRACE_AFTER_STATE_START + STATE_TIMER_DIV_INDEX) [8] ++
  bits_at TRACE_BEFORE_DMA_REMAINING_BITS_START 8 160 ++ bits_at TRACE_AFTER_DMA_REMAINING_BITS_START 8 160 ++
  map (λ column, (column, 1))
    ([TRACE_SERIAL_AFTER_ZERO; TRACE_TIMER_M_CYCLE_ACTIVE_START; TRACE_TIMER_M_CYCLE_ACTIVE_START + 1;
      TRACE_PPU_DOT_LT_80; TRACE_PPU_DOT_LT_252; TRACE_PPU_COINCIDENCE; TRACE_PPU_POST_DOT_LT_80; TRACE_PPU_POST_DOT_LT_252;
      TRACE_PPU_POST_COINCIDENCE; TRACE_PPU_AFTER_DOT_LT_80; TRACE_PPU_AFTER_DOT_LT_252; TRACE_PPU_AFTER_COINCIDENCE; TRACE_RESULT_ZERO] ++
     seqZ TRACE_JOYPAD_FALL_NONE_START 10 ++ seqZ TRACE_RESULT_ZERO_PRODUCTS_START 6) ++
  flat_map (λ k, bits_at (TRACE_TIMER_STAGE_START + k * TRACE_TIMER_STAGE_WIDTH) 16 (Z.min (k + 1) 8)) (seqZ 0 24).
Definition instruction_columns (i : DecodedInstruction) (cycles : Z) : list (Z * Z) :=
  [(TRACE_ACTIVE, 1); (TRACE_MODE_START + INSTRUCTION_MODE, 1); (TRACE_CYCLE_INCREMENT, cycles)] ++
  bits_at TRACE_ISA_ADDRESS_START 9 (instruction_address i) ++ columns_at TRACE_ISA_OUTPUT_START (row_outputs (from_decoded i)).

Definition load_instruction : DecodedInstruction :=
  match decode_primary 0x3e with Classified.Defined_ i => i | Classified.Undefined _ => decode_cb 0 end.
Definition load_row : RowView Qc := row_of
  (instruction_columns load_instruction 2 ++ cpu_columns false (cpu_scalars (cpu demo_start)) ++
   cpu_columns true [7; 0; 0; 0; 0; 0; 0; 0; 2; 65280; 0; 0; 2] ++ rom_slot 0 1 0 0x3e ++ rom_slot 1 2 1 7 ++ idle_devices 2 ++
   [(TRACE_SEQUENTIAL_PC, 2); (TRACE_IMMEDIATE_LOW, 7)] ++ bits_at TRACE_SEQUENTIAL_PC_BITS_START 16 2 ++
   bits_at TRACE_IMMEDIATE_LOW_BITS_START 8 7).

Section view.
Context {view : RowView Qc}.

Definition satisfied_row : bool :=
  match evaluate_constraints_for_view with
  | Some cs => forallb (λ c, Qc_eq_bool c (from_u64 0)) cs
  | None => false
  end.
(** The columns that a row of an instruction fixes. *)
Definition row_columns (i : DecodedInstruction) (c : CpuState) : bool :=
  forallb (λ k, Qc_eq_bool (isa k) (from_u64 (output (row_outputs (from_decoded i)) k))) (seqZ 0 ISA_OUTPUT_COUNT) &&
  forallb (λ j, Qc_eq_bool (before j) (from_u64 (cpu_scalar c j))) (seqZ 0 13) &&
  forallb (λ k, Qc_eq_bool (CpuRow.value (TRACE_ISA_ADDRESS_START + k)) (of_Z (Z.b2z (Z.testbit (instruction_address i) k)))) (seqZ 0 9) &&
  Qc_eq_bool (mode INSTRUCTION_MODE) (from_u64 1) && (0 <=? instruction_address i) && (instruction_address i <? 512).

Lemma seqZ_forallb (P : Z → bool) n k : forallb P (seqZ 0 n) = true → 0 <= k < n → P k = true.
Proof. rewrite forallb_forall. intros Hp Hk. apply Hp, list_elem_of_In, elem_of_seqZ. lia. Qed.
Lemma row_checked i c : defined_instruction i → cpu_ok c → satisfied_row = true → row_columns i c = true → instruction_row i c.
Proof.
  unfold satisfied_row, row_columns. intros Hi Hc Hs Hr. rewrite !andb_true_iff, Z.leb_le, Z.ltb_lt in Hr.
  destruct Hr as (((((Hisa & Hb) & Ha) & Hm) & H1) & H2). split; [done | | | | done | |].
  - destruct evaluate_constraints_for_view as [cs |]; [| done]. exists cs. split; [done |]. apply Forall_forall. intros x Hx.
    rewrite forallb_forall in Hs. by apply Qc_eq_bool_correct, Hs, list_elem_of_In.
  - by apply Qc_eq_bool_correct.
  - intros k Hk. apply Qc_eq_bool_correct. exact (seqZ_forallb _ _ k Hisa Hk).
  - intros j Hj. apply Qc_eq_bool_correct. exact (seqZ_forallb _ _ j Hb Hj).
  - split; [lia |]. intros k Hk. apply Qc_eq_bool_correct. exact (seqZ_forallb _ _ k Ha Hk).
Qed.
End view.

Lemma load_row_satisfied : satisfied_row (view := load_row) = true.
Proof. vm_compute. reflexivity. Qed.
Lemma load_instruction_row : instruction_row (view := load_row) load_instruction (cpu demo_start).
Proof.
  apply row_checked; [left; by exists 0x3e | apply demo_start_ok | exact load_row_satisfied | vm_compute; reflexivity].
Qed.

#[local] Existing Instance const_sha256.
Lemma instruction_rows_refine_steps_witness :
  let view := load_row in
  ∃ s' eff, apply demo_start demo_load Auth.Merkle = Ok (s', eff) ∧ se_instruction eff = load_instruction ∧
    step_shown load_instruction (se_branch_taken eff) (cpu s') (map access_of (se_bus_events eff)).
Proof.
  intros view. destruct (apply demo_start demo_load Auth.Merkle) as [[s' eff] |] eqn:E; [| by vm_compute in E].
  assert (Hk : se_kind eff = SK.Instruction ∧ se_instruction eff = load_instruction ∧
    map access_of (se_bus_events eff) = [(Shape.Fetch, 0, 0x3e); (Shape.Immediate, 1, 7)])
    by (vm_compute in E; injection E as _ <-; done).
  destruct Hk as (Hk & Hi & Hl). exists s', eff. split; [reflexivity |]. split; [exact Hi |]. rewrite <- Hi.
  apply (instruction_rows_refine_steps (view := load_row) demo_start demo_load Auth.Merkle s' eff demo_start_ok demo_load_ok E Hk).
  - rewrite Hi. exact load_instruction_row.
  - rewrite Hl. intros [| [| k]] a Ea _; cbn in Ea; [injection Ea as <- .. | done]; (split; [cbn; lia |]; apply Qc_eq_bool_correct; vm_compute; reflexivity).
Defined.

(** ** An address that no constraint binds

    [LD A, (HL)] with HL = 0 in a row whose data read is at address 5. *)

Definition indirect_load : DecodedInstruction :=
  match decode_primary 0x7e with Classified.Defined_ i => i | Classified.Undefined _ => decode_cb 0 end.
Definition stray_row : RowView Qc := row_of
  (instruction_columns indirect_load 2 ++ cpu_columns false (cpu_scalars (cpu demo_start)) ++
   cpu_columns true [9; 0; 0; 0; 0; 0; 0; 0; 1; 65280; 0; 0; 2] ++ rom_slot 0 1 0 0x7e ++ rom_slot 1 3 5 9 ++ idle_devices 2 ++
   [(TRACE_SEQUENTIAL_PC, 1); (TRACE_OPERAND_VALUE, 9)] ++ bits_at TRACE_SEQUENTIAL_PC_BITS_START 16 1 ++
   bits_at TRACE_OPERAND_BITS_START 8 9).
Lemma stray_row_satisfied : satisfied_row (view := stray_row) = true.
Proof. vm_compute. reflexivity. Qed.
Lemma stray_instruction_row : instruction_row (view := stray_row) indirect_load (cpu demo_start).
Proof.
  apply row_checked; [left; by exists 0x7e | apply demo_start_ok | exact stray_row_satisfied | vm_compute; reflexivity].
Qed.
Lemma load_address_unbound : let view := stray_row in
  operation indirect_load = Op.Load8 (Opd.Register R8.A) Opd.IndirectHl ∧ instruction_row indirect_load (cpu demo_start) ∧
  Execute.register16 (cpu demo_start) R16.Hl = 0 ∧ bus_field 1 BUS_ADDRESS_OFFSET = of_Z 5.
Proof.
  split; [reflexivity |]. split; [exact stray_instruction_row |]. split; [reflexivity |].
  apply Qc_eq_bool_correct. vm_compute. reflexivity.
Qed.
